(* ===== verification/_CoqProject ===== *)
-Q . S2P
Prelude.v
PyStr.v
Models.v
PyData.v
PyFloat.v
PyRe.v
Mime.v
Signals.v
Access.v
Quotas.v
Backends.v
Prune.v
Services.v
FileStore.v
Folders.v
Downloads.v
StoreSpec.v
Uploads.v
UploadsInv.v
UploadsSpec.v
Listing.v
Shares.v
Grants.v
Views.v
ApiSchema.v
ApiSpec.v
RestSpec.v
WebDav.v
Redact.v
Registry.v
Events.v
Hooks.v
Url.v
Ssrf.v
Wire.v
Webhook.v
Delivery.v
Retries.v
RetryPool.v
RuleConfig.v
Retention.v
Jobs.v
JobHealth.v
JobHistory.v
Migrations.v
GrantMigration.v
Deletion.v
AdminApi.v
EventLogApi.v
AdminSpec.v
AdminSchema.v
TaskLock.v
Tasks.v
Auth.v
AuthLog.v
Stats.v
Metrics.v
AdminPages.v
Scrub.v
LogKey.v
Routes.v
S3Config.v
Settings.v
Logging.v
Deploy.v
Setup.v
Site.v
