(* ===== verification/Prelude.v ===== *)
(** * storage-service: a verified model of the storage service

    The program is a Django service that stores the files of companies: buckets and
    objects in a database, bytes in a storage backend, access grants, quotas, share
    links, a REST API in the shape of Supabase Storage and a WebDAV surface, and an
    "actions" subsystem (event log, webhooks, scheduled jobs) that listens to it.  The
    library translates its core into Gallina, definition by definition, and proves
    what makes it correct.

    ** Files and the code they model

    Foundations.
    - [Prelude]: the state-and-exception monad of all handlers, total-correctness [wp]
      rules, [preserves] lemmas and automation, tables as finite maps, stable sorting.
    - [PyStr], [PyData], [PyFloat], [PyRe]: what the code uses of Python: strings, dicts,
      JSON, integers, UUIDs, dates, binary64 numbers, [re.sub].

    Storage ([apps/storage/], [apps/webdav/]).
    - [Models] ([models.py], [apps/authapi/principal.py]): rows as records, enumerations as
      inductive types, the database [db] (what a transaction rolls back) and the [world]
      (database, blobs, clock, source of UUIDs); [atomic] is [transaction.atomic].
    - [Mime], [Signals], [Access], [Quotas], [Backends], [Prune], [Services], [Listing],
      [Downloads], [Shares], [Grants]: the modules of the same names; [Signals] is the
      interface between the services and their listeners, a class with laws; [Backends]
      takes the storage class as a parameter with laws; [Prune] is the removal of empty
      directories, over a file system.
    - [FileStore], [Folders], [StoreSpec]: the abstract specification.  A world implements a
      map from (bucket, path) to bytes ([files]); [storage_inv] is the invariant; every
      service refines an update of that map.
    - [Uploads], [UploadsInv], [UploadsSpec]: the transactions of uploads and deletions one
      statement at a time, with row locks, interleaved freely as a step relation; the states
      of a transaction follow the statements of [upload_object] and [delete_object].
    - [Views] ([views.py], [apps/authapi/permissions.py]): one program per REST handler, and
      [dispatch] over them.  [RestSpec] states tenant isolation.  [WebDav]: every method,
      percent encoding, hrefs.  [Routes]: the tables of URL patterns and the methods.
    - [ApiSchema], [ApiSpec] ([serializers.py], [extend_schema] in [views.py]): what the
      documentation declares of every endpoint, and how the handlers compare with it.
    - [Stats], [Metrics], [AdminPages] ([stats.py], [metrics.py], [admin.py]).

    Actions ([apps/actions/]).
    - [Redact], [Registry], [Events], [Hooks]: redaction, the catalogue of events, emission,
      and the listeners of the signals, which are an instance of the class of [Signals].
    - [Url], [Ssrf], [Wire], [Webhook]: addresses, the guard of outgoing requests, bytes on
      the wire, one HTTP delivery.  [Delivery] is the outbox as a step relation; [Retries] is the
      retry run with one worker, [RetryPool] with its pool of threads, under any schedule.
    - [RuleConfig], [Retention], [Jobs], [JobHealth], [JobHistory], [Deletion], [TaskLock],
      [Tasks]: configuration of rules, purges, recording and health of scheduled jobs, their
      runs one committed statement at a time, company deletion, the Redis lock, the periodic
      tasks.
    - [AdminApi], [EventLogApi], [AdminSpec], [AdminSchema]: the administration API, its
      isolation and its documentation.
    - [Migrations], [GrantMigration] (the [migrations] directories of both applications): the
      schema operations replayed, and the migrations that change rows.

    Service ([apps/authapi/], [config/], [tools/]).
    - [Auth], [AuthLog]: tokens, the cache of keys and the principal; the log lines about them.
    - [Scrub], [LogKey], [Logging]: secrets in logs and error reports; from a log call to the
      lines on the console.
    - [S3Config], [Settings], [Deploy], [Setup]: from the environment to a configuration,
      deployment checks and the environment block, the set-up page, error pages, the stack
      of middleware, health.
    - [Site]: the components under a loaded configuration, and the URLs of the site.

    Components meet in classes: [Settings], [ActionSettings] and [AuthSettings] are built
    from a configuration in [Site]; [Receivers] with [ReceiverLaws] is what the services know
    of their listeners; [Backend] with [BackendLaws] what they know of the storage.

    ** What the theorems show

    - Storage: over any history of calls whose batches name distinct paths and are not
      stopped half way by the backend, rows and blobs correspond and the counters of
      companies are exact, and recorded sizes are those of the blobs when the backend
      overwrites ([history_invariant]); each service refines its operation on the abstract
      store, with its errors ([upload_object_refines], [upload_object_outcome],
      [rename_folder_refines], and those for moves, copies and deletions); uploaded bytes
      come back, from a free path or a backend that overwrites
      ([upload_download_roundtrip]); an emptied directory, and no other, is pruned
      ([prune_exact]).
    - Concurrency: however transactions interleave, counters are exact once all have ended
      ([concurrent_uploads_exact]), a quota is exceeded by at most the largest upload
      for every other transaction ([quota_overshoot_bounded]), no transaction waits for ever ([uploads_complete]), and
      one that runs alone is the service of [Services] ([transaction_alone]).
    - Access: the decision equals a declarative specification
      ([evaluate_access_refines_spec]); new files are private to their creator; a grant is
      created or deleted only with authority over its resource in the state the call finds.
    - Boundary: nobody is let in without a verified token ([accepted_tokens_verified]), in
      production one of the identity service ([production_tokens]); without a principal only
      share links answer ([anonymous_reach]); bytes leave the REST API only through an
      access check or an active link ([files_need_permission]); a request of one company
      leaves the files of every other company unchanged ([requests_are_isolated],
      [dav_requests_are_isolated]), and an administrator's request behaves as if no other
      company existed ([admin_requests_confined]); a WebDAV DELETE removes
      exactly what the caller may write at the path or below it, or nothing
      ([dav_delete_authorized]); when the backend fails, a first part of that.
    - Documentation: answers are declared or among listed exceptions, and errors have the
      declared body ([responses_documented]); the documented inputs, with the few
      undocumented ones the statement names, determine what a request does
      ([inputs_suffice], [admin_inputs_suffice]).
    - Migrations: the migrations keep what grants mean ([grants_migrated]); the transcribed
      operations, replayed, give the transcribed models ([migrations_reach_models]).
    - Links and listings: a link yields at most its cap of downloads over any history;
      listings show exactly what the caller may read.
    - Events and deliveries: redaction is exact; any interleaving of deliveries keeps the
      outbox consistent ([delivery_history]); requests stay outside the private network
      ([deliveries_stay_outside]); a retry run ends, claims rows that are due and no row
      twice, and counts what it collected ([pool_run]).
    - Jobs: over any interleaving of the statements of runs, crashes included, counters,
      states and rows are those of the trace of what was committed ([jobs_history]); two runs of a task never hold
      its lock at once, and the lock of a dead run becomes free; purges and company deletions
      remove exactly what they should.
    - Statistics: the numbers add up, depend on the own company only, and the global
      exposition is the join of those of the companies.
    - Configuration: settings that load are well formed ([loaded_config_typed]), in
      production safe ([production_config_safe]); documented defaults are those of the code;
      the generated block starts the service; the public page creates one account, for
      whoever may; tokens, cookies and keys stay out of logs and error reports
      ([console_lines_scrubbed]); the liveness probe is answered whatever else fails; no
      token breaks the log lines of its verification ([auth_lines_whole]).
    - Examples next to the theorems show where the code does something else than it
      means to ([copy_escapes_acl], [grant_by_id_escapes_acl], [delete_paths_twice],
      [double_decoding], [owner_without_company], [days_not_a_number], [batch_exceeded], [overrun_counted_twice],
      [undocumented_inputs_matter] and others).

    ** Conventions and limits

    Every program is a total function.  Recursions that are not structural run on a fuel
    shown to be enough: the length of a text (parsers, replacements); the number of
    matching rows for the batches of [Retention] and [Deletion], each of which deletes at
    least one row while any is left; the size of a batch for a retry run with one
    worker, whose rows are not due again before its end (a run with a pool is a step
    function over a schedule, and needs none); one more than the components of a path for [Prune]; the
    configured retries for a fetch of keys.  Integers are unbounded, as in Python; sizes and
    counters are [Z].  A datetime is a number of microseconds since 1970 in UTC.  Strings
    hold characters up to U+00FF.

    Parameters stand for code outside the repository: the storage class ([Backend], with
    [BackendLaws]; [Overwriting], which S3 has and the default file system has not, is
    assumed only by the statements that name it), [hashlib] and [hmac], the MIME table of the
    host, Django's date parser, field classes and password rules, random tokens, the name
    resolver and the answers of the network, Redis ([RedisLaws]), the token library
    ([TokenLib], [TokenText]), [json.loads], the text format of Prometheus ([Exposition]).  UUIDs are
    numbers drawn in order, never reused.

    Not modelled: message texts of errors, percent escapes of WebDAV paths that are no
    Latin-1 text in UTF-8, keys of the metadata of an object other than texts, logging other than the lines named above, the
    maximal length of columns, bytes of a partially failed write, the collation of the
    database, interleavings inside one call other than those of uploads, deletions,
    deliveries, runs and locks (other calls run one after the other), the text of XML
    bodies, the pages of Django's admin, the constants of the frameworks, the set-up of
    Sentry and Celery, symbolic links in the file system of the storage, and the tools of
    development ([config/test_runner.py], [config/tailwind_build.py]).  What remains of the
    sources outside the model is imports, docstrings, and declarations that only frameworks
    read. *)

(** * Prelude: shared notation, state-and-exception monad, generic lemmas *)
From Stdlib Require Export Ascii.
From stdpp Require Export base gmap strings list fin_maps pretty sorting.
From Stdlib Require Export ZArith Lia Permutation.

#[export] Set Default Goal Selector "!".

Open Scope Z_scope.

#[export] Set Warnings "-register-all,-clear-no-such-hyp".

Declare Scope py_scope.
Delimit Scope py_scope with py.

(** Python's [==] on values with decidable equality, as a boolean. *)
Notation "x == y" := (bool_decide (x = y)) (at level 70, no associativity) : py_scope.
Notation "x != y" := (negb (bool_decide (x = y))) (at level 70, no associativity) : py_scope.
Notation "x 'in_' l" := (bool_decide (x ∈ l)) (at level 70, no associativity) : py_scope.
Open Scope py_scope.

(** ** A state monad with exceptions

    Python code that reads and writes shared state and may raise is a function
    from a state to an outcome (an exception or a value) and the state after it.
    The state survives an exception, as in Python: only [atomic] rolls back. *)
Definition M (S E A : Type) : Type := S → (E + A) * S.

Section monad.
Context {S E : Type}.

Definition ret {A} (a : A) : M S E A := λ s, (inr a, s).
Definition bind {A B} (m : M S E A) (k : A → M S E B) : M S E B :=
λ s, match m s with
     | (inr a, s') => k a s'
     | (inl e, s') => (inl e, s')
     end.
Definition raise {A} (e : E) : M S E A := λ s, (inl e, s).
Definition get : M S E S := λ s, (inr s, s).
Definition gets {A} (f : S → A) : M S E A := λ s, (inr (f s), s).
Definition modify (f : S → S) : M S E unit := λ s, (inr tt, f s).
(** [try: m except E as e: h e]; [h] returns [None] when the handler does not
  cover the exception, which then propagates. *)
Definition try_except {A} (m : M S E A) (h : E → option (M S E A)) : M S E A :=
λ s, match m s with
     | (inl e, s') => match h e with Some m' => m' s' | None => (inl e, s') end
     | r => r
     end.
(** [for x in l: f x] *)
Fixpoint for_each {A} (l : list A) (f : A → M S E unit) : M S E unit :=
match l with
| [] => ret tt
| x :: l' => bind (f x) (λ _, for_each l' f)
end.
(** [[f x for x in l]] with effects, in order. *)
Fixpoint map_m {A B} (f : A → M S E B) (l : list A) : M S E (list B) :=
match l with
| [] => ret []
| x :: l' => bind (f x) (λ y, bind (map_m f l') (λ ys, ret (y :: ys)))
end.
Definition when (c : bool) (m : M S E unit) : M S E unit := if c then m else ret tt.
End monad.

Declare Scope prog_scope.
Delimit Scope prog_scope with prog.
Notation "x <- m ;; k" := (bind m (λ x, k))
  (at level 100, m at next level, right associativity) : prog_scope.
Notation "m ;;; k" := (bind m (λ _, k))
  (at level 100, right associativity) : prog_scope.
Open Scope prog_scope.

(** ** Weakest preconditions

    [wp m Q R s]: from [s], [m] either returns a value in [Q] or raises an
    exception in [R] (both also speak of the final state).  The model is total,
    so this is total correctness. *)
Section wp.
Context {S E : Type}.
Implicit Types s : S.

Definition wp {A} (m : M S E A) (Q : A → S → Prop) (R : E → S → Prop) (s : S) : Prop :=
match m s with
| (inr a, s') => Q a s'
| (inl e, s') => R e s'
end.

(** [I] holds after [m], whatever its outcome. *)
Definition preserves {A} (I : S → Prop) (m : M S E A) : Prop :=
∀ s, I s → I (m s).2.

Lemma wp_ret {A} (a : A) Q R s : Q a s → wp (ret a) Q R s.
Proof. done. Qed.
Lemma wp_raise {A} (e : E) (Q : A → S → Prop) R s : R e s → wp (raise e) Q R s.
Proof. done. Qed.
Lemma wp_gets {A} (f : S → A) Q R s : Q (f s) s → wp (gets (E := E) f) Q R s.
Proof. done. Qed.
Lemma wp_get Q R s : Q s s → wp (get (E := E)) Q R s.
Proof. done. Qed.
Lemma wp_modify (f : S → S) Q R s : Q tt (f s) → wp (modify (E := E) f) Q R s.
Proof. done. Qed.
Lemma wp_bind {A B} (m : M S E A) (k : A → M S E B) Q R s :
wp m (λ a, wp (k a) Q R) R s → wp (bind m k) Q R s.
Proof. unfold wp, bind. destruct (m s) as [[e|a] s']; done. Qed.
Lemma wp_bind_inv {A B} (m : M S E A) (k : A → M S E B) Q R s :
wp (bind m k) Q R s → wp m (λ a, wp (k a) Q R) R s.
Proof. unfold wp, bind. destruct (m s) as [[e|a] s']; done. Qed.
Lemma wp_mono {A} (m : M S E A) (Q Q' : A → S → Prop) (R R' : E → S → Prop) s :
wp m Q R s → (∀ a s', Q a s' → Q' a s') → (∀ e s', R e s' → R' e s') → wp m Q' R' s.
Proof. unfold wp. destruct (m s) as [[e|a] s']; eauto. Qed.
Lemma wp_if {A} (b : bool) (m1 m2 : M S E A) Q R s :
(b = true → wp m1 Q R s) → (b = false → wp m2 Q R s) → wp (if b then m1 else m2) Q R s.
Proof. destruct b; auto. Qed.
Lemma wp_when (b : bool) (m : M S E unit) Q R s :
(b = true → wp m Q R s) → (b = false → Q tt s) → wp (when b m) Q R s.
Proof. destruct b; unfold when; intros H1 H2; [by apply H1 | by apply H2]. Qed.
Lemma wp_and {A} (m : M S E A) Q R Q' R' s :
wp m Q R s → wp m Q' R' s → wp m (λ a s', Q a s' ∧ Q' a s') (λ e s', R e s' ∧ R' e s') s.
Proof. unfold wp. destruct (m s) as [[e|a] s']; auto. Qed.

Lemma wp_for_each_inv {A} (I : S → Prop) (l : list A) (f : A → M S E unit) R s :
I s → (∀ x s', x ∈ l → I s' → wp (f x) (λ _, I) R s') → wp (for_each l f) (λ _, I) R s.
Proof.
revert s. induction l as [|x l IH]; intros s HI Hf; cbn [for_each]; [done|].
apply wp_bind. eapply wp_mono; [apply Hf; [by left|done]| |done].
intros u s' Hs'. apply IH; [done|]. intros y s2 Hy. apply Hf. by right.
Qed.
Lemma wp_map_m_inv {A B} (I : S → Prop) (l : list A) (f : A → M S E B) R s :
I s → (∀ x s', x ∈ l → I s' → wp (f x) (λ _, I) R s') → wp (map_m f l) (λ _, I) R s.
Proof.
revert s. induction l as [|x l IH]; intros s HI Hf; cbn [map_m]; [done|].
apply wp_bind. eapply wp_mono; [apply Hf; [by left|done]| |done].
intros y s' Hs'. apply wp_bind. eapply wp_mono; [apply IH; [done|]| |done].
- intros z s2 Hz. apply Hf. by right.
- done.
Qed.
(** A [for] loop is the comprehension that forgets its results. *)
Lemma wp_for_each_map_m {A B} (f : A → M S E unit) (g : A → B) (l : list A) Q R s :
wp (map_m (λ x, bind (f x) (λ _, ret (g x))) l) (λ _, Q tt) R s → wp (for_each l f) Q R s.
Proof.
revert s. induction l as [|x l IH]; intros s; cbn [for_each map_m]; [done|].
specialize (IH (f x s).2). unfold wp, bind, ret in *.
destruct (f x s) as [[e|u] s1]; [done|]. simpl in IH. intros Hm. apply IH.
by destruct (map_m _ l s1) as [[e|ys] s2].
Qed.
Lemma wp_option {A B} (o : option A) (m1 : A → M S E B) m2 Q R s :
(∀ a, o = Some a → wp (m1 a) Q R s) → (o = None → wp m2 Q R s) →
wp (match o with Some a => m1 a | None => m2 end) Q R s.
Proof. destruct o; auto. Qed.
Lemma wp_try {A} (m : M S E A) (h : E → option (M S E A)) Q R s :
wp m Q (λ e s', match h e with Some m' => wp m' Q R s' | None => R e s' end) s →
wp (try_except m h) Q R s.
Proof.
unfold wp, try_except. destruct (m s) as [[e|a] s']; [|done]. by destruct (h e).
Qed.
Lemma preserves_wp {A} I (m : M S E A) :
preserves I m ↔ ∀ s, I s → wp m (λ _, I) (λ _, I) s.
Proof.
unfold preserves, wp. split; intros H s Hs; specialize (H s Hs);
  destruct (m s) as [[e|a] s']; done.
Qed.
Lemma wp_preserves {A} I (m : M S E A) s :
preserves I m → I s → wp m (λ _, I) (λ _, I) s.
Proof. intros H. apply preserves_wp. done. Qed.
Lemma preserves_ret {A} I (a : A) : preserves I (ret (S := S) (E := E) a).
Proof. by intros s. Qed.
Lemma preserves_raise {A} I (e : E) : preserves I (raise (S := S) (A := A) e).
Proof. by intros s. Qed.
Lemma preserves_gets {A} I (f : S → A) : preserves I (gets (E := E) f).
Proof. by intros s. Qed.
Lemma preserves_get I : preserves I (get (S := S) (E := E)).
Proof. by intros s. Qed.
Lemma preserves_bind {A B} I (m : M S E A) (k : A → M S E B) :
preserves I m → (∀ a, preserves I (k a)) → preserves I (bind m k).
Proof.
intros Hm Hk s Hs. specialize (Hm s Hs). unfold bind.
destruct (m s) as [[e|a] s']; [done|]. by apply Hk.
Qed.
Lemma preserves_if {A} I (b : bool) (m1 m2 : M S E A) :
preserves I m1 → preserves I m2 → preserves I (if b then m1 else m2).
Proof. by destruct b. Qed.
Lemma preserves_when I (b : bool) (m : M S E unit) :
preserves I m → preserves I (when b m).
Proof. intros H. unfold when. apply preserves_if; [done|apply preserves_ret]. Qed.
Lemma preserves_option {A B} I (o : option A) (m1 : A → M S E B) m2 :
(∀ a, preserves I (m1 a)) → preserves I m2 →
preserves I (match o with Some a => m1 a | None => m2 end).
Proof. by destruct o. Qed.
Lemma preserves_sum {A B C} I (o : A + B) (m1 : A → M S E C) (m2 : B → M S E C) :
(∀ a, preserves I (m1 a)) → (∀ b, preserves I (m2 b)) →
preserves I (match o with inl a => m1 a | inr b => m2 b end).
Proof. by destruct o. Qed.
Lemma preserves_try {A} I (m : M S E A) (h : E → option (M S E A)) :
preserves I m → (∀ e m', h e = Some m' → preserves I m') → preserves I (try_except m h).
Proof.
intros Hm Hh s Hs. specialize (Hm s Hs). unfold try_except.
destruct (m s) as [[e|a] s']; [|done].
destruct (h e) eqn:He; [by eapply Hh|done].
Qed.
Lemma preserves_for_each {A} I (l : list A) (f : A → M S E unit) :
(∀ x, preserves I (f x)) → preserves I (for_each l f).
Proof.
intros Hf. induction l as [|x l IH]; simpl; [apply preserves_ret|].
apply preserves_bind; auto.
Qed.
Lemma preserves_map_m {A B} I (l : list A) (f : A → M S E B) :
(∀ x, preserves I (f x)) → preserves I (map_m f l).
Proof.
intros Hf. induction l as [|x l IH]; simpl; [apply preserves_ret|].
apply preserves_bind; [done|]. intros y. apply preserves_bind; [done|].
intros; apply preserves_ret.
Qed.
End wp.

Create HintDb preserve discriminated.
#[export] Hint Resolve preserves_ret preserves_raise preserves_gets preserves_get
  preserves_bind preserves_if preserves_when preserves_option preserves_sum
  preserves_for_each preserves_map_m : preserve.

(** Discharge [preserves I m] by the structure of [m]. *)
Ltac solve_preserves :=
  repeat first
    [ progress intros
    | solve [eauto 2 with preserve]
    | apply preserves_bind
    | apply preserves_if
    | apply preserves_when
    | apply preserves_option
    | apply preserves_sum ].

(** One step of a [wp] goal whose program is a monadic primitive. *)
Ltac wp_step :=
  lazymatch goal with
  | |- wp (bind _ _) _ _ _ => apply wp_bind
  | |- wp (ret _) _ _ _ => apply wp_ret
  | |- wp (raise _) _ _ _ => apply wp_raise
  | |- wp (gets _) _ _ _ => apply wp_gets
  | |- wp get _ _ _ => apply wp_get
  | |- wp (modify _) _ _ _ => apply wp_modify
  end.
Ltac wp_steps := repeat (wp_step; cbv beta).

(** ** Tables

    A database table is a finite map from primary keys to rows; a queryset is a
    list of rows, whose order is the database's. *)
Section tables.
Context `{Countable K} {R : Type}.
Implicit Types t : gmap K R.

Definition rows t : list R := (map_to_list t).*2.
Definition row_find (P : R → bool) t : option R := List.find P (rows t).
Definition row_exists (P : R → bool) t : bool := existsb P (rows t).
Definition row_sum (f : R → Z) t : Z := foldr Z.add 0 (f <$> rows t).
(** [.filter(P).update(f)] *)
Definition row_update (P : R → bool) (f : R → R) t : gmap K R :=
(λ r, if P r then f r else r) <$> t.
(** [.filter(P).delete()] *)
Definition row_delete (P : R → bool) t : gmap K R :=
filter (λ kr, P kr.2 = false) t.

Lemma elem_of_rows t r : r ∈ rows t ↔ ∃ k, t !! k = Some r.
Proof.
unfold rows. rewrite list_elem_of_fmap. split.
- intros [[k r'] [-> Hin]]. exists k. by apply elem_of_map_to_list.
- intros [k Hk]. exists (k, r). split; [done|]. by apply elem_of_map_to_list.
Qed.
Lemma rows_insert t k r : t !! k = None → rows (<[k:=r]> t) ≡ₚ r :: rows t.
Proof. intros Hk. unfold rows. by rewrite (map_to_list_insert t k r Hk). Qed.
Lemma rows_delete t k r : t !! k = Some r → rows t ≡ₚ r :: rows (delete k t).
Proof.
intros Hk. rewrite <- (insert_delete_id t k r Hk) at 1.
apply rows_insert. apply lookup_delete_eq.
Qed.
Lemma foldr_add_perm (l l' : list Z) : l ≡ₚ l' → foldr Z.add 0 l = foldr Z.add 0 l'.
Proof. induction 1; simpl; lia. Qed.
Lemma row_sum_insert f t k r :
t !! k = None → row_sum f (<[k:=r]> t) = f r + row_sum f t.
Proof.
intros Hk. unfold row_sum.
by rewrite (foldr_add_perm _ (f <$> (r :: rows t))) by (by rewrite (rows_insert t k r)).
Qed.
Lemma row_sum_delete f t k r :
t !! k = Some r → row_sum f (delete k t) = row_sum f t - f r.
Proof.
intros Hk. unfold row_sum.
rewrite (foldr_add_perm (f <$> rows t) (f <$> (r :: rows (delete k t))));
  [rewrite fmap_cons; cbn [foldr]; lia|]. by rewrite (rows_delete t k r).
Qed.
Lemma row_sum_replace f t k r r' :
t !! k = Some r → row_sum f (<[k:=r']> t) = row_sum f t - f r + f r'.
Proof.
intros Hk. rewrite <- (insert_delete_eq t k r').
rewrite row_sum_insert by apply lookup_delete_eq.
rewrite (row_sum_delete f t k r Hk). lia.
Qed.
Lemma row_sum_nonneg f t : (∀ k r, t !! k = Some r → 0 ≤ f r) → 0 ≤ row_sum f t.
Proof.
intros Hf. unfold row_sum.
assert (Hall : Forall (λ z : Z, 0 ≤ z)%Z (f <$> rows t)).
{ apply Forall_fmap, Forall_forall. intros r Hr.
  apply elem_of_rows in Hr as [k Hk]. simpl. eauto. }
induction Hall; cbn [foldr]; lia.
Qed.
Lemma row_sum_ext f g t :
(∀ k r, t !! k = Some r → f r = g r) → row_sum f t = row_sum g t.
Proof.
intros Hfg. unfold row_sum. f_equal. apply list_fmap_ext.
intros i r Hi. apply list_elem_of_lookup_2, elem_of_rows in Hi as [k Hk]. eauto.
Qed.
Lemma row_find_Some P t r : row_find P t = Some r → P r = true ∧ ∃ k, t !! k = Some r.
Proof.
unfold row_find. intros Hf. apply List.find_some in Hf as [Hin HP].
split; [done|]. apply elem_of_rows. by apply list_elem_of_In.
Qed.
Lemma row_find_None P t : row_find P t = None → ∀ k r, t !! k = Some r → P r = false.
Proof.
unfold row_find. intros Hf k r Hk. eapply List.find_none; [done|].
apply list_elem_of_In, elem_of_rows. eauto.
Qed.
Lemma row_find_unique P t k r :
t !! k = Some r → P r = true → (∀ k' r', t !! k' = Some r' → P r' = true → r' = r) →
row_find P t = Some r.
Proof.
intros Hk HP Hu. destruct (row_find P t) as [r'|] eqn:Hf.
- apply row_find_Some in Hf as [HP' [k' Hk']]. f_equal. eauto.
- pose proof (row_find_None P t Hf k r Hk). congruence.
Qed.
Lemma row_exists_true P t : row_exists P t = true ↔ ∃ k r, t !! k = Some r ∧ P r = true.
Proof.
unfold row_exists. rewrite existsb_exists. split.
- intros [r [Hin HP]]. apply list_elem_of_In, elem_of_rows in Hin as [k Hk]. eauto.
- intros (k & r & Hk & HP). exists r. split; [|done].
  apply list_elem_of_In, elem_of_rows. eauto.
Qed.
Lemma row_exists_false P t : row_exists P t = false ↔ ∀ k r, t !! k = Some r → P r = false.
Proof.
rewrite <- Bool.not_true_iff_false, row_exists_true. split.
- intros Hn k r Hk. apply Bool.not_true_iff_false. naive_solver.
- intros Ha (k & r & Hk & HP). rewrite (Ha k r Hk) in HP. done.
Qed.
Lemma lookup_row_delete P t k :
row_delete P t !! k = (r ← t !! k; if P r then None else Some r).
Proof.
unfold row_delete. destruct (t !! k) as [r|] eqn:Hk; simpl.
- destruct (P r) eqn:HP.
  + apply map_lookup_filter_None. right. intros r' Hr'. simplify_eq. simpl. congruence.
  + by apply map_lookup_filter_Some.
- apply map_lookup_filter_None. by left.
Qed.
Lemma lookup_row_update P f t k :
row_update P f t !! k = (λ r, if P r then f r else r) <$> t !! k.
Proof. apply lookup_fmap. Qed.
End tables.

(** ** Options and lists *)
Definition or_else {A} (o : option A) (d : A) : A := default d o.

Lemma existsb_false_Forall {A} (P : A → bool) (l : list A) :
  existsb P l = false ↔ Forall (λ x, P x = false) l.
Proof.
  induction l as [|x l IH]; simpl; [by split|].
  rewrite orb_false_iff, IH. split; [intros [??]; by constructor|by inversion 1].
Qed.

Lemma NoDup_fmap_filter {A B} (f : A → B) (P : A → Prop) `{∀ x, Decision (P x)} (l : list A) :
  NoDup (f <$> l) → NoDup (f <$> filter P l).
Proof.
  induction l as [|x l IH]; [done|]. rewrite fmap_cons. intros [Hni Hnd]%NoDup_cons.
  destruct (decide (P x)) as [HP|HP].
  - rewrite filter_cons_True by done. rewrite fmap_cons. apply NoDup_cons. split; [|by apply IH].
    intros Hin. apply Hni. apply list_elem_of_fmap in Hin as (y & -> & Hy).
    apply list_elem_of_filter in Hy as [_ Hy]. by apply list_elem_of_fmap_2.
  - rewrite filter_cons_False by done. by apply IH.
Qed.

(** Python's stable [sort] by a boolean order. *)
Section sort_by.
Context {A} (le : A → A → bool).

Fixpoint sort_insert (x : A) (l : list A) : list A :=
match l with
| [] => [x]
| y :: l' => if le x y then x :: y :: l' else y :: sort_insert x l'
end.
Definition sort_by (l : list A) : list A := foldr sort_insert [] l.

Lemma sort_insert_perm x l : sort_insert x l ≡ₚ x :: l.
Proof.
induction l as [|y l IH]; simpl; [done|]. destruct (le x y); [done|]. rewrite IH. constructor.
Qed.
Lemma sort_by_perm l : sort_by l ≡ₚ l.
Proof. induction l as [|x l IH]; simpl; [done|]. by rewrite sort_insert_perm, IH. Qed.
Lemma elem_of_sort_by x l : x ∈ sort_by l ↔ x ∈ l.
Proof. by rewrite sort_by_perm. Qed.
End sort_by.

(** ** The order of a sorted list does not depend on the order of its elements *)
Section sort_unique.
Context {A} (le : A → A → bool).
Context (total : ∀ x y, le x y = true ∨ le y x = true).
Context (trans : ∀ x y z, le x y = true → le y z = true → le x z = true).

Lemma sort_insert_comm x y l : (le x y = true → le y x = true → x = y) →
sort_insert le x (sort_insert le y l) = sort_insert le y (sort_insert le x l).
Proof.
intros Hanti. destruct (le x y) eqn:Hxy, (le y x) eqn:Hyx; [by rewrite Hanti| | |by destruct (total x y); congruence].
- induction l as [|z l IH]; simpl; [by rewrite Hxy, Hyx|].
  destruct (le y z) eqn:Hyz; simpl.
  + rewrite Hxy. rewrite (trans x y z) by done. simpl. by rewrite Hyx, Hyz.
  + destruct (le x z) eqn:Hxz; simpl; rewrite ?Hyx, ?Hyz, ?IH; done.
- induction l as [|z l IH]; simpl; [by rewrite Hxy, Hyx|].
  destruct (le x z) eqn:Hxz; simpl.
  + rewrite Hyx. rewrite (trans y x z) by done. simpl. by rewrite Hxy, Hxz.
  + destruct (le y z) eqn:Hyz; simpl; rewrite ?Hxy, ?Hxz, ?IH; done.
Qed.
Lemma sort_by_unique l l' :
(∀ x y, x ∈ l → y ∈ l → le x y = true → le y x = true → x = y) → l ≡ₚ l' → sort_by le l = sort_by le l'.
Proof.
intros Hanti Hp. unfold sort_by. refine (foldr_permutation eq (sort_insert le) [] l l' _ Hp).
intros j1 x j2 y b _ Hx Hy. apply sort_insert_comm. apply Hanti; by eapply list_elem_of_lookup_2.
Qed.
End sort_unique.

(** Break every [bool_decide] and [if] in sight. *)
Ltac case_bools :=
  repeat match goal with
  | H : context [bool_decide ?P] |- _ => destruct (bool_decide_reflect P)
  | |- context [bool_decide ?P] => destruct (bool_decide_reflect P)
  end.
