(* ===== verification/PyStr.v ===== *)
(** * PyStr: the [str] methods the code uses

    A Python [str] is a [string] whose characters stand for the code points
    below 256 (Latin-1), so [strip], [lower], [split], slices and comparisons are
    exact on that range.  Code points from 256 up are outside the model. *)
From S2P Require Import Prelude.
From Stdlib Require OrderedTypeEx.

(** ** Operations *)

(** [str.isspace] on code points below 256: what [strip()] removes. *)
Definition is_space (a : ascii) : bool :=
  let n := Ascii.nat_of_ascii a in
  ((9 <=? n) && (n <=? 13) || (28 <=? n) && (n <=? 32) || (n =? 133) || (n =? 160))%nat.

(** [str.lower] on one code point below 256. *)
Definition lower_char (a : ascii) : ascii :=
  let n := Ascii.nat_of_ascii a in
  if ((65 <=? n) && (n <=? 90) || (192 <=? n) && (n <=? 222) && negb (n =? 215))%nat
  then Ascii.ascii_of_nat (n + 32) else a.

Fixpoint str_map (f : ascii → ascii) (s : string) : string :=
  match s with
  | "" => ""
  | String a s' => String (f a) (str_map f s')
  end.
Definition lower : string → string := str_map lower_char.
(** [s.replace(a, b)] for single characters. *)
Definition replace_char (a b : ascii) : string → string :=
  str_map (λ c, if c == a then b else c).
Fixpoint remove_char (a : ascii) (s : string) : string :=
  match s with
  | "" => ""
  | String c s' => if c == a then remove_char a s' else String c (remove_char a s')
  end.

Fixpoint str_forall (p : ascii → bool) (s : string) : bool :=
  match s with
  | "" => true
  | String a s' => p a && str_forall p s'
  end.
Definition has_char (a : ascii) (s : string) : bool := negb (str_forall (λ c, c != a) s).
Fixpoint count_char (a : ascii) (s : string) : nat :=
  match s with
  | "" => 0
  | String c s' => if c == a then S (count_char a s') else count_char a s'
  end.

Fixpoint lstrip_while (p : ascii → bool) (s : string) : string :=
  match s with
  | "" => ""
  | String a s' => if p a then lstrip_while p s' else s
  end.
Fixpoint rstrip_while (p : ascii → bool) (s : string) : string :=
  match s with
  | "" => ""
  | String a s' =>
      match rstrip_while p s' with
      | "" => if p a then "" else String a ""
      | r => String a r
      end
  end.
Definition strip_while (p : ascii → bool) (s : string) : string :=
  rstrip_while p (lstrip_while p s).
(** [s.strip()] and [s.strip(c)] *)
Definition strip : string → string := strip_while is_space.
Definition strip_char (a : ascii) : string → string := strip_while (λ c, c == a).
Definition rstrip_char (a : ascii) : string → string := rstrip_while (λ c, c == a).

(** [s.split(c)] *)
Fixpoint split_char (a : ascii) (s : string) : list string :=
  match s with
  | "" => [""]
  | String c s' =>
      if c == a then "" :: split_char a s'
      else match split_char a s' with
           | seg :: segs => String c seg :: segs
           | [] => [String c ""]
           end
  end.
(** [c.join(l)] *)
Fixpoint join_char (a : ascii) (l : list string) : string :=
  match l with
  | [] => ""
  | [s] => s
  | s :: l' => s +:+ String a (join_char a l')
  end.
(** [s.partition(c)]: the text before and after the first [c]. *)
Fixpoint partition_char (a : ascii) (s : string) : string * string :=
  match s with
  | "" => ("", "")
  | String c s' =>
      if c == a then ("", s')
      else let '(l, r) := partition_char a s' in (String c l, r)
  end.

Fixpoint str_drop (n : nat) (s : string) : string :=
  match n, s with
  | O, _ => s
  | S n', String _ s' => str_drop n' s'
  | S _, "" => ""
  end.
Fixpoint str_take (n : nat) (s : string) : string :=
  match n, s with
  | O, _ => ""
  | S n', String a s' => String a (str_take n' s')
  | S _, "" => ""
  end.

Definition startswith (p s : string) : bool := String.prefix p s.
Definition endswith (suf s : string) : bool :=
  (String.length suf <=? String.length s)%nat
  && (str_drop (String.length s - String.length suf) s == suf).
(** [s[:-k]] for [0 < k <= len(s)] *)
Definition drop_last (k : nat) (s : string) : string := str_take (String.length s - k) s.
(** [sub in s] *)
Fixpoint contains (sub s : string) : bool :=
  startswith sub s || match s with "" => false | String _ s' => contains sub s' end.
Definition is_digit (a : ascii) : bool :=
  let n := Ascii.nat_of_ascii a in ((48 <=? n) && (n <=? 57))%nat.
(** [s.rsplit(c, 1)[-1]] and, when [c] occurs, [s.rsplit(c, 1)[0]] *)
Definition after_last (a : ascii) (s : string) : string := List.last (split_char a s) "".
Definition before_last (a : ascii) (s : string) : string :=
  join_char a (List.removelast (split_char a s)).
(** [str(n)] for an integer, in decimal *)
Definition str_int (n : Z) : string := pretty n.
(** Python's [<=] on strings: lexicographic by code point. *)
Definition str_le (s t : string) : bool := String.leb s t.
(** [bool(s)] *)
Definition truthy (s : string) : bool := s != "".
(** [s.split()]: the words between white space. *)
Definition words (s : string) : list string :=
  filter (λ w, truthy w = true) (split_char " " (str_map (λ c, if is_space c then " "%char else c) s)).
(** [s or d] *)
Definition str_or (s d : string) : string := if truthy s then s else d.

(** [s] between double quotes (character 34) *)
Definition dquote : ascii := ascii_of_nat 34.
Definition quoted (s : string) : string := String dquote (s +:+ String dquote EmptyString).

(** ** Lemmas *)
Lemma str_app_nil_r s : s +:+ "" = s.
Proof. induction s as [|a s IH]; [done|]. change (String a (s +:+ "") = String a s). by rewrite IH. Qed.
Lemma str_app_assoc s1 s2 s3 : (s1 +:+ s2) +:+ s3 = s1 +:+ s2 +:+ s3.
Proof.
  induction s1 as [|a s1 IH]; [done|].
  change (String a ((s1 +:+ s2) +:+ s3) = String a (s1 +:+ s2 +:+ s3)). by rewrite IH.
Qed.
Lemma str_app_cons a s t : String a s +:+ t = String a (s +:+ t).
Proof. done. Qed.
Lemma str_app_empty_l s : "" +:+ s = s.
Proof. done. Qed.
Lemma str_length_app s t : String.length (s +:+ t) = (String.length s + String.length t)%nat.
Proof. induction s as [|a s IH]; [done|]. rewrite str_app_cons. simpl. by rewrite IH. Qed.
Lemma str_app_inv_head s t1 t2 : s +:+ t1 = s +:+ t2 → t1 = t2.
Proof. apply (inj (String.app s)). Qed.

Lemma startswith_spec p s : startswith p s = true ↔ ∃ t, s = p +:+ t.
Proof.
  unfold startswith. revert s. induction p as [|a p IH]; intros s; simpl.
  - split; [by exists s|by destruct s].
  - destruct s as [|b s]; simpl; [split; [done|by intros [? ?]]|].
    destruct (Ascii.ascii_dec a b) as [->|Hne].
    + rewrite IH. split; intros [t Ht]; exists t; [by rewrite Ht|]. by inversion Ht.
    + split; [done|]. intros [t Ht]. inversion Ht. congruence.
Qed.
Lemma startswith_app p t : startswith p (p +:+ t) = true.
Proof. apply startswith_spec. eauto. Qed.
Lemma str_drop_app s t : str_drop (String.length s) (s +:+ t) = t.
Proof. induction s as [|a s IH]; [done|]. by rewrite str_app_cons. Qed.
Lemma str_take_app s t : str_take (String.length s) (s +:+ t) = s.
Proof.
  induction s as [|a s IH]; [by destruct t|]. rewrite str_app_cons. simpl. by rewrite IH.
Qed.
Lemma str_take_drop n s : str_take n s +:+ str_drop n s = s.
Proof.
  revert s. induction n as [|n IH]; intros [|a s]; try done. simpl.
  rewrite str_app_cons. by rewrite IH.
Qed.
Lemma endswith_spec suf s : endswith suf s = true ↔ ∃ t, s = t +:+ suf.
Proof.
  unfold endswith. rewrite andb_true_iff, bool_decide_eq_true, Nat.leb_le. split.
  - intros [_ H]. exists (str_take (String.length s - String.length suf) s).
    rewrite <- H at 2. by rewrite str_take_drop.
  - intros [t ->]. rewrite str_length_app. split; [lia|].
    replace (_ + _ - _)%nat with (String.length t) by lia. apply str_drop_app.
Qed.
Lemma drop_last_app t suf : drop_last (String.length suf) (t +:+ suf) = t.
Proof.
  unfold drop_last. rewrite str_length_app.
  replace (_ + _ - _)%nat with (String.length t) by lia. apply str_take_app.
Qed.

Lemma str_forall_app p s t : str_forall p (s +:+ t) = str_forall p s && str_forall p t.
Proof.
  induction s as [|a s IH]; [done|]. rewrite str_app_cons. simpl. by rewrite IH, andb_assoc.
Qed.
Lemma has_char_cons a c s : has_char a (String c s) = bool_decide (c = a) || has_char a s.
Proof. unfold has_char. simpl. by rewrite negb_andb, negb_involutive. Qed.
Lemma has_char_app a s t : has_char a (s +:+ t) = has_char a s || has_char a t.
Proof. unfold has_char. by rewrite str_forall_app, negb_andb. Qed.

(** *** [split] and [join] are inverse *)
Lemma split_char_nonempty a s : split_char a s ≠ [].
Proof.
  destruct s as [|c s]; [done|]. simpl. destruct (bool_decide _); [done|].
  by destruct (split_char a s).
Qed.
Lemma join_char_cons a s l : l ≠ [] → join_char a (s :: l) = s +:+ String a (join_char a l).
Proof. by destruct l. Qed.
Lemma join_split_char a s : join_char a (split_char a s) = s.
Proof.
  induction s as [|c s IH]; [done|]. simpl. case_bool_decide as Hc.
  - subst c. rewrite join_char_cons by apply split_char_nonempty. by rewrite IH.
  - pose proof (split_char_nonempty a s) as Hne.
    destruct (split_char a s) as [|seg [|seg' segs]] eqn:Hs; [done| |].
    + simpl in *. by rewrite IH.
    + rewrite join_char_cons in * by done. rewrite str_app_cons. by rewrite IH.
Qed.
Lemma split_char_app_sep a s t :
  has_char a s = false → split_char a (s +:+ String a t) = s :: split_char a t.
Proof.
  induction s as [|c s IH]; intros Hs.
  - rewrite str_app_empty_l. simpl. by rewrite bool_decide_true.
  - rewrite str_app_cons. rewrite has_char_cons, orb_false_iff, bool_decide_eq_false in Hs.
    destruct Hs as [Hc Hs]. simpl. rewrite bool_decide_false by done. by rewrite IH.
Qed.
Lemma split_char_app a s t :
  split_char a (s +:+ String a t) = split_char a s ++ split_char a t.
Proof.
  induction s as [|c s IH].
  - rewrite str_app_empty_l. simpl. by rewrite bool_decide_true.
  - rewrite str_app_cons. simpl. rewrite IH. case_bool_decide; [done|].
    pose proof (split_char_nonempty a s). by destruct (split_char a s).
Qed.
Lemma split_char_no_sep a s : has_char a s = false → split_char a s = [s].
Proof.
  induction s as [|c s IH]; [done|]. intros Hs.
  rewrite has_char_cons, orb_false_iff, bool_decide_eq_false in Hs.
  destruct Hs as [Hc Hs]. simpl. rewrite bool_decide_false by done. by rewrite IH.
Qed.
Lemma split_join_char a l :
  l ≠ [] → Forall (λ s, has_char a s = false) l → split_char a (join_char a l) = l.
Proof.
  intros Hne Hl. induction Hl as [|s l Hs Hl IH]; [done|].
  destruct l as [|s' l]; [by apply split_char_no_sep|].
  rewrite join_char_cons by done. rewrite split_char_app_sep by done. by rewrite IH.
Qed.
Lemma split_char_segs a s : Forall (λ seg, has_char a seg = false) (split_char a s).
Proof.
  induction s as [|c s IH]; simpl; [by repeat constructor|].
  case_bool_decide as Hc; [by constructor|].
  pose proof (split_char_nonempty a s) as Hne.
  destruct (split_char a s) as [|seg segs]; [done|].
  inversion IH; subst. constructor; [|done].
  rewrite has_char_cons, bool_decide_false by done. done.
Qed.

(** *** [strip] *)
Lemma lstrip_while_id p a s : p a = false → lstrip_while p (String a s) = String a s.
Proof. intros Ha. simpl. by rewrite Ha. Qed.
Lemma lstrip_while_head p s a s' : lstrip_while p s = String a s' → p a = false.
Proof.
  induction s as [|c s IH]; [done|]. simpl. destruct (p c) eqn:Hc; [done|].
  intros [= <- <-]. done.
Qed.
Lemma rstrip_while_cons p a s :
  rstrip_while p (String a s) =
    if bool_decide (rstrip_while p s = "") && p a then "" else String a (rstrip_while p s).
Proof.
  simpl. destruct (rstrip_while p s) eqn:Hr.
  - rewrite bool_decide_true by done. simpl. by destruct (p a).
  - by rewrite bool_decide_false.
Qed.
Lemma rstrip_while_head p a s : p a = false → ∃ s', rstrip_while p (String a s) = String a s'.
Proof. intros Ha. rewrite rstrip_while_cons, Ha, andb_false_r. eauto. Qed.
Lemma rstrip_while_idem p s : rstrip_while p (rstrip_while p s) = rstrip_while p s.
Proof.
  induction s as [|a s IH]; [done|]. rewrite rstrip_while_cons.
  destruct (bool_decide (rstrip_while p s = "") && p a) eqn:Hb; [done|].
  by rewrite rstrip_while_cons, IH, Hb.
Qed.
Lemma strip_while_idem p s : strip_while p (strip_while p s) = strip_while p s.
Proof.
  unfold strip_while. destruct (lstrip_while p s) as [|a s'] eqn:Hl; [done|].
  pose proof (lstrip_while_head p s a s' Hl) as Ha.
  destruct (rstrip_while_head p a s' Ha) as [s'' Hs'']. rewrite Hs''.
  rewrite lstrip_while_id by done. rewrite <- Hs''. apply rstrip_while_idem.
Qed.
Lemma str_forall_rstrip q p s : str_forall q s = true → str_forall q (rstrip_while p s) = true.
Proof.
  induction s as [|a s IH]; [done|]. rewrite rstrip_while_cons. simpl.
  rewrite andb_true_iff. intros [Ha Hs].
  destruct (_ && p a); [done|]. simpl. by rewrite Ha, IH.
Qed.
Lemma str_forall_lstrip q p s : str_forall q s = true → str_forall q (lstrip_while p s) = true.
Proof.
  induction s as [|a s IH]; [done|]. simpl. rewrite andb_true_iff. intros [Ha Hs].
  destruct (p a); [by apply IH|]. simpl. by rewrite Ha, Hs.
Qed.
Lemma str_forall_strip q p s : str_forall q s = true → str_forall q (strip_while p s) = true.
Proof. intros. by apply str_forall_rstrip, str_forall_lstrip. Qed.

(** A string none of whose ends satisfies [p] is left alone. *)
Definition last_char (s : string) : option ascii := last (String.list_ascii_of_string s).
Definition head_char (s : string) : option ascii :=
  match s with "" => None | String a _ => Some a end.
Lemma rstrip_while_last p s :
  (∀ a, last_char s = Some a → p a = false) → rstrip_while p s = s.
Proof.
  unfold last_char. induction s as [|a s IH]; intros Hl; [done|].
  rewrite rstrip_while_cons. destruct s as [|b s].
  - simpl in *. rewrite (Hl a) by done. done.
  - rewrite IH.
    + rewrite bool_decide_false by done. done.
    + intros c Hc. apply Hl. exact Hc.
Qed.
Lemma strip_while_id p s :
  (∀ a, head_char s = Some a → p a = false) →
  (∀ a, last_char s = Some a → p a = false) → strip_while p s = s.
Proof.
  intros Hh Hl. unfold strip_while. destruct s as [|a s]; [done|].
  rewrite lstrip_while_id by auto. by apply rstrip_while_last.
Qed.
Lemma head_char_app s t : s ≠ "" → head_char (s +:+ t) = head_char s.
Proof. by destruct s. Qed.
Lemma last_char_app s t : t ≠ "" → last_char (s +:+ t) = last_char t.
Proof.
  intros Ht. induction s as [|a s IH]; [done|]. rewrite str_app_cons.
  unfold last_char in *. simpl. rewrite <- IH.
  destruct (s +:+ t) eqn:He; [|done].
  destruct s; [by destruct t|done].
Qed.
Lemma has_char_head a s c : has_char a s = false → head_char s = Some c → c ≠ a.
Proof.
  destruct s as [|b s]; [done|]. rewrite has_char_cons, orb_false_iff, bool_decide_eq_false.
  by intros [Hb _] [= <-].
Qed.
Lemma has_char_last a s c : has_char a s = false → last_char s = Some c → c ≠ a.
Proof.
  unfold last_char. induction s as [|b s IH]; [done|].
  rewrite has_char_cons, orb_false_iff, bool_decide_eq_false. intros [Hb Hs] Hl.
  destruct s as [|b' s']; [by inversion Hl; subst|]. apply IH; [done|]. exact Hl.
Qed.

(** *** [replace] *)
Lemma replace_char_none a b s : a ≠ b → has_char a (replace_char a b s) = false.
Proof.
  intros Hab. induction s as [|c s IH]; [done|]. unfold replace_char in *. simpl.
  rewrite has_char_cons, IH, orb_false_r. repeat case_bool_decide; congruence.
Qed.
Lemma replace_char_id a b s : has_char a s = false → replace_char a b s = s.
Proof.
  induction s as [|c s IH]; [done|]. rewrite has_char_cons, orb_false_iff, bool_decide_eq_false.
  intros [Hc Hs]. unfold replace_char in *. simpl. rewrite bool_decide_false by done.
  by rewrite IH.
Qed.
Lemma replace_char_app a b s t :
  replace_char a b (s +:+ t) = replace_char a b s +:+ replace_char a b t.
Proof.
  induction s as [|c s IH]; [done|]. rewrite !str_app_cons. unfold replace_char in *. simpl.
  by rewrite IH.
Qed.

(** *** [lower] *)
Lemma lower_char_idem a : lower_char (lower_char a) = lower_char a.
Proof. by destruct a as [[] [] [] [] [] [] [] []]. Qed.
Lemma lower_idem s : lower (lower s) = lower s.
Proof. unfold lower. induction s as [|a s IH]; [done|]. simpl. by rewrite lower_char_idem, IH. Qed.

(** *** [count] and decimal printing *)
Lemma str_int_inj m n : str_int m = str_int n → m = n.
Proof. unfold str_int. intros H. by apply (inj pretty) in H. Qed.

(** ** The order of strings *)
Definition str_lt : string → string → Prop := OrderedTypeEx.String_as_OT.lt.
Lemma str_lt_trans s t u : str_lt s t → str_lt t u → str_lt s u.
Proof. apply OrderedTypeEx.String_as_OT.lt_trans. Qed.
Lemma str_lt_irrefl s : ¬ str_lt s s.
Proof. intros Hs. by apply (OrderedTypeEx.String_as_OT.lt_not_eq s s). Qed.
Lemma str_le_lt s t : str_le s t = true ↔ str_lt s t ∨ s = t.
Proof.
unfold str_le, String.leb, str_lt. rewrite <- OrderedTypeEx.String_as_OT.cmp_lt.
change (OrderedTypeEx.String_as_OT.cmp s t) with (String.compare s t).
destruct (s ?= t)%string eqn:Hc; split; try done; try tauto.
- intros _. right. by apply String.compare_eq_iff.
- intros [Hl| ->]; [discriminate|]. pose proof (String.compare_antisym t t) as Ha. rewrite Hc in Ha. discriminate.
Qed.
