(* ===== verification/Models.v ===== *)
(** * Models: the rows the program stores and the state every operation works on

    [apps/storage/models.py] and [apps/authapi/principal.py].  A model class is a
    record, a [TextChoices] class an inductive type, a table a finite map from
    primary keys to rows.  Foreign keys are stored as the key of the target row
    and dereferenced through the table, as the ORM does. *)
From S2P Require Import Prelude PyStr.

(** UUIDs are 128-bit numbers.  Code that compares [str(a) == str(b)] on UUIDs
    compares the numbers: the text form is injective. *)
Abbreviation uuid := N.
(** Datetimes are microseconds since the epoch, UTC. *)
Abbreviation datetime := Z.
Abbreviation bytes := (list Byte.byte).

(** ** JSON values (Python [dict], [list], [str], [int], [bool], [None])

    A [dict] is an association list in insertion order.  Floats do not occur in
    the payloads the modelled code builds. *)
Inductive json : Type :=
| JNull
| JBool (b : bool)
| JInt (z : Z)
| JStr (s : string)
| JList (l : list json)
| JObj (l : list (string * json)).

(** ** Buckets, objects, quotas *)
Definition FOLDER_PLACEHOLDER_NAME : string := ".emptyFolderPlaceholder".

Definition folder_placeholder_path (folder_path : string) : string :=
  let folder := strip_char "/" (strip folder_path) in
  if truthy folder then folder +:+ "/" +:+ FOLDER_PLACEHOLDER_NAME
  else FOLDER_PLACEHOLDER_NAME.

Definition folder_path_from_placeholder (object_name : string) : string :=
  let name := strip_char "/" (strip object_name) in
  let suffix := "/" +:+ FOLDER_PLACEHOLDER_NAME in
  if name == FOLDER_PLACEHOLDER_NAME then ""
  else if endswith suffix name then drop_last (String.length suffix) name
  else name.

Inductive bucket_kind := KIND_COMPANY | KIND_CONNECTOR.
#[export] Instance bucket_kind_eq : EqDecision bucket_kind.
Proof. solve_decision. Defined.

Definition kind_value (k : bucket_kind) : string :=
  match k with KIND_COMPANY => "company" | KIND_CONNECTOR => "connector" end.

Record bucket := Bucket {
  b_id : uuid;
  b_name : string;
  b_company_id : Z;
  b_kind : bucket_kind;
  b_public : bool;
  b_file_size_limit : option Z;
  b_allowed_mime_types : list string;
  b_owner_id : option Z;
  b_connector_provider : string;
  b_created_at : datetime;
  b_updated_at : datetime }.

Record sobject := StorageObject {
  o_id : uuid;
  o_bucket_id : uuid;
  o_name : string;
  o_company_id : Z;
  o_owner_id : option Z;
  o_size : Z;
  o_etag : string;
  o_mime_type : string;
  o_metadata : list (string * json);
  o_storage_key : string;
  o_version : Z;
  o_created_at : datetime;
  o_updated_at : datetime;
  o_last_accessed_at : option datetime }.

(** [StorageObject.folder] and [StorageObject.basename] *)
Definition o_folder (o : sobject) : string :=
  if has_char "/" (o_name o) then before_last "/" (o_name o) else "".
Definition o_basename (o : sobject) : string := after_last "/" (o_name o).

Record company_quota := CompanyQuota {
  cq_max_bytes : Z;
  cq_used_bytes : Z;
  cq_max_bytes_per_user : option Z }.

Record user_quota := UserQuota { uq_max_bytes : Z; uq_used_bytes : Z }.

(** ** Access grants *)
Inductive subject_type := SUBJECT_USER | SUBJECT_GROUP | SUBJECT_COMPANY.
Inductive resource_type := RESOURCE_BUCKET | RESOURCE_FOLDER | RESOURCE_OBJECT.
Inductive permission := READ | WRITE | ADMIN.
Inductive effect := ALLOW | DENY.
#[export] Instance subject_type_eq : EqDecision subject_type.
Proof. solve_decision. Defined.
#[export] Instance resource_type_eq : EqDecision resource_type.
Proof. solve_decision. Defined.
#[export] Instance permission_eq : EqDecision permission.
Proof. solve_decision. Defined.
#[export] Instance effect_eq : EqDecision effect.
Proof. solve_decision. Defined.

Record grant := Grant {
  g_id : uuid;
  g_company_id : Z;
  g_bucket_id : uuid;
  g_object_id : option uuid;
  g_subject_type : subject_type;
  g_subject_id : string;
  g_resource_type : resource_type;
  g_permission : permission;
  g_effect : effect;
  g_created_by_id : option Z;
  g_created_at : datetime;
  g_updated_at : datetime;
  g_expires_at : option datetime;
  g_notes : string }.

(** ** Share links *)
Record share_link := ObjectShareLink {
  l_id : uuid;
  l_token : string;
  l_object_id : uuid;
  l_company_id : Z;
  l_created_by_id : Z;
  l_expires_at : option datetime;
  l_max_downloads : option Z;
  l_download_count : Z;
  l_revoked_at : option datetime;
  l_created_at : datetime;
  l_notes : string }.

(** [ObjectShareLink.is_active] *)
Definition is_active (now : datetime) (l : share_link) : bool :=
  if bool_decide (l_revoked_at l ≠ None) then false
  else if from_option (λ e, e <=? now) false (l_expires_at l) then false
  else if from_option (λ m, m <=? l_download_count l) false (l_max_downloads l) then false
  else true.

(** ** The authenticated caller ([StoragePrincipal]) *)
Record principal := StoragePrincipal {
  p_user_id : Z;
  p_company_id : option Z;
  p_email : string;
  p_username : string;
  p_is_staff : bool;
  p_is_company_owner : bool;
  p_access_global_metrics : bool }.

(** ** Shellui Actions rows ([apps/actions/models.py]) *)
Definition ACTION_WEBHOOK : string := "webhook".

Record action_rule := ActionRule {
  r_id : N;
  r_company_id : Z;
  r_name : string;
  r_description : string;
  r_event_type : string;
  r_enabled : bool;
  r_action_kind : string;
  r_config : list (string * json);
  r_created_at : datetime;
  r_updated_at : datetime }.

Inductive outbox_status := STATUS_PENDING | STATUS_DELIVERED | STATUS_FAILED | STATUS_DEAD.
Inductive delivery_kind := KIND_WEBHOOK | KIND_EMAIL.
Inductive attempt_status := STATUS_SUCCESS | STATUS_FAILURE.
Inductive attempt_trigger := TRIGGER_DISPATCH | TRIGGER_AUTOMATIC_RETRY.
#[export] Instance outbox_status_eq : EqDecision outbox_status.
Proof. solve_decision. Defined.
#[export] Instance delivery_kind_eq : EqDecision delivery_kind.
Proof. solve_decision. Defined.
#[export] Instance attempt_status_eq : EqDecision attempt_status.
Proof. solve_decision. Defined.
#[export] Instance attempt_trigger_eq : EqDecision attempt_trigger.
Proof. solve_decision. Defined.

Record action_outbox := ActionOutbox {
  x_id : uuid;
  x_company_id : Z;
  x_action_rule_id : option N;
  x_delivery_kind : delivery_kind;
  x_event_type : string;
  x_envelope : json;
  x_status : outbox_status;
  x_attempt_count : Z;
  x_next_attempt_at : option datetime;
  x_locked_until : option datetime;
  x_last_error : string;
  x_created_at : datetime;
  x_updated_at : datetime;
  x_delivered_at : option datetime }.

Record delivery_attempt := DeliveryAttempt {
  t_outbox_id : uuid;
  t_status : attempt_status;
  t_http_status : option Z;
  t_error_message : string;
  t_attempt_number : Z;
  t_duration_ms : option Z;
  t_trigger : attempt_trigger;
  t_scheduled_job_run_id : option Z;
  t_created_at : datetime }.

Record event_log := EventLog {
  e_id : N;
  e_company_id : option Z;
  e_user_id : option Z;
  e_event_type : string;
  e_data : list (string * json);
  e_created_at : datetime }.

Inductive run_trigger := TRIGGER_CELERY | TRIGGER_COMMAND.
Inductive run_status := STATUS_RUNNING | STATUS_SUCCEEDED | STATUS_RUN_FAILED | STATUS_SKIPPED_LOCKED.
#[export] Instance run_trigger_eq : EqDecision run_trigger.
Proof. solve_decision. Defined.
#[export] Instance run_status_eq : EqDecision run_status.
Proof. solve_decision. Defined.

Record scheduled_job_run := ScheduledJobRun {
  n_id : N;
  n_job : string;
  n_trigger : run_trigger;
  n_status : run_status;
  n_started_at : datetime;
  n_finished_at : option datetime;
  n_duration_ms : option Z;
  n_counts : list (string * json);
  n_error_key : string;
  n_error_class : string;
  n_error_message : string;
  n_host : string;
  n_event_log_id : option N }.

Record scheduled_job_state := ScheduledJobState {
  s_created_at : datetime;
  s_last_started_at : option datetime;
  s_last_success_at : option datetime;
  s_last_failure_at : option datetime;
  s_last_skipped_at : option datetime;
  s_last_duration_ms : option Z }.

Record company_deletion := CompanyDeletion {
  cd_requested_at : datetime;
  cd_completed_at : option datetime }.

(** The tables of the actions subsystem.  Tables in which the code keys rows by
    something else than the primary key are keyed by that: job states by job, counters
    by job and name, company deletions by company.  [a_next_id] is the next value of the
    primary keys the database counts up (of events, runs and rules).  [a_on_commit]
    lists the outbox rows whose delivery [transaction.on_commit] has scheduled: it is
    dropped with the transaction, so it is part of what a transaction rolls back. *)
Record actions_db := ActionsDb {
  a_rules : gmap N action_rule;
  a_outbox : gmap uuid action_outbox;
  a_attempts : list delivery_attempt;
  a_events : list event_log;
  a_on_commit : list uuid;
  a_runs : gmap N scheduled_job_run;
  a_states : gmap string scheduled_job_state;
  a_counters : gmap (string * string) Z;
  a_deletions : gmap Z company_deletion;
  a_next_id : N }.

Definition set_rules f (a : actions_db) : actions_db :=
  ActionsDb (f (a_rules a)) (a_outbox a) (a_attempts a) (a_events a) (a_on_commit a)
    (a_runs a) (a_states a) (a_counters a) (a_deletions a) (a_next_id a).
Definition set_outbox f (a : actions_db) : actions_db :=
  ActionsDb (a_rules a) (f (a_outbox a)) (a_attempts a) (a_events a) (a_on_commit a)
    (a_runs a) (a_states a) (a_counters a) (a_deletions a) (a_next_id a).
Definition set_attempts f (a : actions_db) : actions_db :=
  ActionsDb (a_rules a) (a_outbox a) (f (a_attempts a)) (a_events a) (a_on_commit a)
    (a_runs a) (a_states a) (a_counters a) (a_deletions a) (a_next_id a).
Definition set_events f (a : actions_db) : actions_db :=
  ActionsDb (a_rules a) (a_outbox a) (a_attempts a) (f (a_events a)) (a_on_commit a)
    (a_runs a) (a_states a) (a_counters a) (a_deletions a) (a_next_id a).
Definition set_on_commit f (a : actions_db) : actions_db :=
  ActionsDb (a_rules a) (a_outbox a) (a_attempts a) (a_events a) (f (a_on_commit a))
    (a_runs a) (a_states a) (a_counters a) (a_deletions a) (a_next_id a).
Definition set_runs f (a : actions_db) : actions_db :=
  ActionsDb (a_rules a) (a_outbox a) (a_attempts a) (a_events a) (a_on_commit a)
    (f (a_runs a)) (a_states a) (a_counters a) (a_deletions a) (a_next_id a).
Definition set_states f (a : actions_db) : actions_db :=
  ActionsDb (a_rules a) (a_outbox a) (a_attempts a) (a_events a) (a_on_commit a)
    (a_runs a) (f (a_states a)) (a_counters a) (a_deletions a) (a_next_id a).
Definition set_counters f (a : actions_db) : actions_db :=
  ActionsDb (a_rules a) (a_outbox a) (a_attempts a) (a_events a) (a_on_commit a)
    (a_runs a) (a_states a) (f (a_counters a)) (a_deletions a) (a_next_id a).
Definition set_deletions f (a : actions_db) : actions_db :=
  ActionsDb (a_rules a) (a_outbox a) (a_attempts a) (a_events a) (a_on_commit a)
    (a_runs a) (a_states a) (a_counters a) (f (a_deletions a)) (a_next_id a).
Definition set_next_id f (a : actions_db) : actions_db :=
  ActionsDb (a_rules a) (a_outbox a) (a_attempts a) (a_events a) (a_on_commit a)
    (a_runs a) (a_states a) (a_counters a) (a_deletions a) (f (a_next_id a)).

(** ** The database and the world

    [db] is what a transaction rolls back.  The blobs of the storage backend, the
    clock and the source of fresh UUIDs are outside the database. *)
Record db := Db {
  db_buckets : gmap uuid bucket;
  db_objects : gmap uuid sobject;
  db_grants : gmap uuid grant;
  db_links : gmap uuid share_link;
  db_company_quotas : gmap Z company_quota;
  db_user_quotas : gmap (Z * Z) user_quota;
  db_actions : actions_db }.

Record world := World {
  w_db : db;
  w_blobs : gmap string bytes;
  w_now : datetime;
  w_next_uuid : uuid }.

Definition set_db (f : db → db) (w : world) : world :=
  World (f (w_db w)) (w_blobs w) (w_now w) (w_next_uuid w).
Definition set_blobs (f : gmap string bytes → gmap string bytes) (w : world) : world :=
  World (w_db w) (f (w_blobs w)) (w_now w) (w_next_uuid w).

Definition set_buckets f (d : db) : db :=
  Db (f (db_buckets d)) (db_objects d) (db_grants d) (db_links d)
    (db_company_quotas d) (db_user_quotas d) (db_actions d).
Definition set_objects f (d : db) : db :=
  Db (db_buckets d) (f (db_objects d)) (db_grants d) (db_links d)
    (db_company_quotas d) (db_user_quotas d) (db_actions d).
Definition set_grants f (d : db) : db :=
  Db (db_buckets d) (db_objects d) (f (db_grants d)) (db_links d)
    (db_company_quotas d) (db_user_quotas d) (db_actions d).
Definition set_links f (d : db) : db :=
  Db (db_buckets d) (db_objects d) (db_grants d) (f (db_links d))
    (db_company_quotas d) (db_user_quotas d) (db_actions d).
Definition set_company_quotas f (d : db) : db :=
  Db (db_buckets d) (db_objects d) (db_grants d) (db_links d)
    (f (db_company_quotas d)) (db_user_quotas d) (db_actions d).
Definition set_user_quotas f (d : db) : db :=
  Db (db_buckets d) (db_objects d) (db_grants d) (db_links d)
    (db_company_quotas d) (f (db_user_quotas d)) (db_actions d).
Definition set_actions f (d : db) : db :=
  Db (db_buckets d) (db_objects d) (db_grants d) (db_links d)
    (db_company_quotas d) (db_user_quotas d) (f (db_actions d)).

Definition empty_db : db := Db ∅ ∅ ∅ ∅ ∅ ∅ (ActionsDb ∅ ∅ [] [] [] ∅ ∅ ∅ ∅ 1).

(** Exceptions.  Message texts are not modelled; a [StorageError] carries the HTTP
    status and the error code the API returns. *)
Inductive exn : Type :=
| StorageError (status : Z) (code : string)
| ValueError
| TypeError
| AttributeError
| QuotaExceeded (code : string)
| IntegrityError
| BackendError (s3_code : string)
| DoesNotExist
| OtherError (text : string).
#[export] Instance exn_eq : EqDecision exn.
Proof. solve_decision. Defined.

Abbreviation prog := (M world exn).

(** [@transaction.atomic]: an exception restores the database, nothing else. *)
Definition atomic {A} (m : prog A) : prog A :=
  λ w, match m w with
       | (inl e, w') => (inl e, World (w_db w) (w_blobs w') (w_now w') (w_next_uuid w'))
       | r => r
       end.
Definition get_db : prog db := gets w_db.
Definition modify_db (f : db → db) : prog unit := modify (set_db f).
(** [timezone.now()] *)
Definition now : prog datetime := gets w_now.
(** [uuid.uuid4()]: a UUID never drawn before. *)
Definition uuid4 : prog uuid :=
  λ w, (inr (w_next_uuid w),
        World (w_db w) (w_blobs w) (w_now w) (N.succ (w_next_uuid w))).

(** ** Foreign keys *)
Definition obj_bucket (d : db) (o : sobject) : option bucket := db_buckets d !! o_bucket_id o.
Definition grant_object (d : db) (g : grant) : option sobject :=
  g_object_id g ≫= λ i, db_objects d !! i.
(** [grant.object.name] *)
Definition grant_object_name (d : db) (g : grant) : string :=
  from_option o_name "" (grant_object d g).

(** [StorageAccessGrant.resource_path] *)
Definition resource_path (d : db) (g : grant) : string :=
  match g_resource_type g with
  | RESOURCE_BUCKET => from_option b_name "" (db_buckets d !! g_bucket_id g)
  | RESOURCE_FOLDER =>
      if bool_decide (g_object_id g = None) then ""
      else folder_path_from_placeholder (grant_object_name d g)
  | RESOURCE_OBJECT =>
      if bool_decide (g_object_id g = None) then ""
      else strip_char "/" (strip (grant_object_name d g))
  end.

(** ** Lemmas *)
Lemma wp_atomic {A} (m : prog A) Q (R : exn → world → Prop) w :
  wp m Q (λ e w', R e (World (w_db w) (w_blobs w') (w_now w') (w_next_uuid w'))) w →
  wp (atomic m) Q R w.
Proof. unfold wp, atomic. destruct (m w) as [[e|a] w']; done. Qed.

(** A marker is recognised whatever folder it stands for. *)
Lemma placeholder_no_slash : has_char "/" FOLDER_PLACEHOLDER_NAME = false.
Proof. reflexivity. Qed.
