(* ===== verification/PyData.v ===== *)
(** * PyData: dictionaries, JSON values, integers and dates as Python sees them *)
From S2P Require Import Prelude PyStr Models.

(** ** Dictionaries in insertion order *)
(** [d.get(k)] *)
Fixpoint dict_get {V} (k : string) (l : list (string * V)) : option V :=
  match l with
  | [] => None
  | (k', v) :: l' => if k' == k then Some v else dict_get k l'
  end.
(** [d[k] = v] *)
Fixpoint dict_set {V} (k : string) (v : V) (l : list (string * V)) : list (string * V) :=
  match l with
  | [] => [(k, v)]
  | (k', v') :: l' => if k' == k then (k, v) :: l' else (k', v') :: dict_set k v l'
  end.
(** [{**a, **b}] *)
Definition dict_merge {V} (a b : list (string * V)) : list (string * V) :=
  foldl (λ acc kv, dict_set kv.1 kv.2 acc) a b.

Lemma dict_get_set {V} k k' (v : V) l :
  dict_get k' (dict_set k v l) = if k' == k then Some v else dict_get k' l.
Proof.
  induction l as [|[k0 v0] l IH]; simpl.
  - rewrite (bool_decide_ext (k = k') (k' = k)) by done. done.
  - destruct (bool_decide_reflect (k0 = k)) as [->|Hne]; simpl.
    + rewrite (bool_decide_ext (k = k') (k' = k)) by done. by case_bool_decide.
    + rewrite IH. destruct (bool_decide_reflect (k0 = k')) as [->|]; [|done].
      by rewrite bool_decide_false.
Qed.

(** ** JSON values *)
(** [bool(v)] *)
Definition json_truthy (v : json) : bool :=
  match v with
  | JNull => false
  | JBool b => b
  | JInt z => z != 0
  | JStr s => truthy s
  | JList l => match l with [] => false | _ => true end
  | JObj l => match l with [] => false | _ => true end
  end.
Definition opt_json (v : option json) : json := default JNull v.
Definition opt_str (v : option string) : json := from_option JStr JNull v.
Definition opt_int (v : option Z) : json := from_option JInt JNull v.
(** [str(owner_id) if owner_id else None] *)
Definition opt_id (v : option Z) : json :=
  match v with Some z => if z == 0 then JNull else JStr (str_int z) | None => JNull end.

(** ** Text of values: [repr(v)] and [str(v)] *)
Definition hex_digit (n : Z) : string :=
  String (ascii_of_N (Z.to_N (if n <? 10 then 48 + n else 87 + n))) EmptyString.
Definition repr_char (q c : ascii) : string :=
  let k := Z.of_N (N_of_ascii c) in
  if (c == q) || (c == "\"%char) then String "\" (String c EmptyString)
  else if k =? 9 then "\t" else if k =? 10 then "\n" else if k =? 13 then "\r"
  else if (k <? 32) || ((127 <=? k) && (k <=? 160)) || (k =? 173)
  then "\x" +:+ hex_digit (k / 16) +:+ hex_digit (k mod 16)
  else String c EmptyString.
Definition repr_str (s : string) : string :=
  let q := if has_char "'" s && negb (has_char dquote s) then dquote else "'"%char in
  String q (String.concat "" (repr_char q <$> String.list_ascii_of_string s)
            +:+ String q EmptyString).
Fixpoint py_repr (v : json) : string :=
  match v with
  | JNull => "None"
  | JBool b => if b then "True" else "False"
  | JInt z => str_int z
  | JStr s => repr_str s
  | JList l => "[" +:+ String.concat ", " (map py_repr l) +:+ "]"
  | JObj l =>
      "{" +:+ String.concat ", " (map (λ kv, repr_str kv.1 +:+ ": " +:+ py_repr kv.2) l) +:+ "}"
  end.
Definition py_str (v : json) : string := match v with JStr s => s | _ => py_repr v end.
(** [str(data.get(k) or '')] *)
Definition data_text (k default : string) (data : list (string * json)) : string :=
  match dict_get k data with
  | Some v => if json_truthy v then py_str v else default
  | None => default
  end.

(** ** Integers written in text: [int(s, base)] *)
Definition digit_of (c : ascii) : option Z :=
  let k := Z.of_N (N_of_ascii c) in
  if (48 <=? k) && (k <=? 57) then Some (k - 48)
  else if (97 <=? k) && (k <=? 122) then Some (k - 87)
  else if (65 <=? k) && (k <=? 90) then Some (k - 55) else None.
(** Digits, with single underscores between them. *)
Fixpoint int_digits (base acc : Z) (after_digit : bool) (s : string) : option Z :=
  match s with
  | EmptyString => if after_digit then Some acc else None
  | String c s' =>
      if c == "_"%char then if after_digit then int_digits base acc false s' else None
      else match digit_of c with
           | Some v => if v <? base then int_digits base (acc * base + v) true s' else None
           | None => None
           end
  end.
Definition int_unsigned (base : Z) (s : string) : option Z :=
  match s with
  | String "0" (String c rest) =>
      if (base == 16) && ((c == "x"%char) || (c == "X"%char)) then
        match rest with
        | String "_" rest' => int_digits base 0 false rest'
        | _ => int_digits base 0 false rest
        end
      else int_digits base 0 false s
  | _ => int_digits base 0 false s
  end.
Definition py_int_str (base : Z) (s : string) : option Z :=
  match strip s with
  | String "-" s' => Z.opp <$> int_unsigned base s'
  | String "+" s' => int_unsigned base s'
  | s' => int_unsigned base s'
  end.
(** [int(v)] *)
Definition py_int (v : json) : exn + Z :=
  match v with
  | JInt z => inr z
  | JBool b => inr (if b then 1 else 0)
  | JStr s => from_option inr (inl ValueError) (py_int_str 10 s)
  | _ => inl TypeError
  end.
(** [v in (None, '')] *)
Definition blank (v : json) : bool :=
  match v with JNull => true | JStr s => negb (truthy s) | _ => false end.

(** [s.replace(sub, new)] for a non-empty [sub]. *)
Fixpoint replace_sub_go (sub new : string) (skip : nat) (s : string) : string :=
  match s with
  | EmptyString => EmptyString
  | String c s' =>
      match skip with
      | S k => replace_sub_go sub new k s'
      | O => if startswith sub s then new +:+ replace_sub_go sub new (String.length sub - 1) s'
             else String c (replace_sub_go sub new O s')
      end
  end.
Definition replace_sub (sub new s : string) : string := replace_sub_go sub new O s.
Definition remove_sub (sub s : string) : string := replace_sub sub "" s.

(** [data.decode('utf-8', errors='replace')]: most of what it yields lies outside the
    characters of the model, so it is a parameter. *)
Class Utf8 := { utf8_text : bytes → string }.

(** [uuid.UUID(s)] *)
Definition parse_uuid (s : string) : option uuid :=
  let hex := remove_sub "uuid:" (remove_sub "urn:" s) in
  let hex := strip_while (λ c, (c == "{"%char) || (c == "}"%char)) hex in
  let hex := remove_char "-" hex in
  if (String.length hex =? 32)%nat then
    match py_int_str 16 hex with
    | Some z => if z <? 0 then None else Some (Z.to_N z)
    | None => None
    end
  else None.

(** ** Dates *)
(** [k] decimal digits of [n]. *)
Fixpoint pad_digits (k : nat) (n : Z) : string :=
  match k with
  | O => ""
  | S k' => pad_digits k' (n / 10) +:+
            String (ascii_of_N (Z.to_N (48 + n mod 10))) EmptyString
  end.
(** Year, month and day of a day number counted from 1970-01-01 (proleptic
    Gregorian calendar). *)
Definition civil_of_days (days : Z) : Z * Z * Z :=
  let z := days + 719468 in
  let era := z / 146097 in
  let doe := z mod 146097 in
  let yoe := (doe - doe / 1460 + doe / 36524 - doe / 146096) / 365 in
  let doy := doe - (365 * yoe + yoe / 4 - yoe / 100) in
  let mp := (5 * doy + 2) / 153 in
  let d := doy - (153 * mp + 2) / 5 + 1 in
  let m := if mp <? 10 then mp + 3 else mp - 9 in
  (yoe + era * 400 + (if m <=? 2 then 1 else 0), m, d).
Definition us_per_day : Z := 86400000000.
(** [t.isoformat()] for an aware UTC datetime, up to the offset suffix. *)
Definition isoformat_naive (t : datetime) : string :=
  let '(y, m, d) := civil_of_days (t / us_per_day) in
  let us := t mod us_per_day in
  let frac := us mod 1000000 in
  let s := us / 1000000 in
  pad_digits 4 y +:+ "-" +:+ pad_digits 2 m +:+ "-" +:+ pad_digits 2 d +:+ "T"
    +:+ pad_digits 2 (s / 3600) +:+ ":" +:+ pad_digits 2 (s / 60 mod 60) +:+ ":"
    +:+ pad_digits 2 (s mod 60)
    +:+ (if frac == 0 then "" else "." +:+ pad_digits 6 frac).
(** [t.isoformat().replace('+00:00', 'Z')] *)
Definition iso_z (t : datetime) : string := isoformat_naive t +:+ "Z".
Definition opt_iso (t : option datetime) : json := from_option (λ t, JStr (iso_z t)) JNull t.

Example iso_epoch : iso_z 0 = "1970-01-01T00:00:00Z".
Proof. reflexivity. Qed.
Example iso_leap : iso_z 1709210096123456 = "2024-02-29T12:34:56.123456Z".
Proof. vm_compute. reflexivity. Qed.
Example parse_uuid_text : parse_uuid "{550e8400-e29b-41d4-a716-446655440000}" = Some 113059749145936325402354257176981405696%N.
Proof. vm_compute. reflexivity. Qed.
