(* ===== verification/PyFloat.v ===== *)
(** * PyFloat: the floating-point operations of Python that the program uses

    A Python [float] is an IEEE 754 binary64, computed here with the bit-exact
    [spec_float] of the Standard Library.  [round] and the formats [.1f] work on the
    exact binary value and round halves to even, as CPython does. *)
From Stdlib Require Export SpecFloat.
From S2P Require Import Prelude PyStr.

Abbreviation float := spec_float.

(** [float(n)]; the integers of the program are far below [2 ** 1024], where Python
    raises [OverflowError]. *)
Definition float_of_int (n : Z) : float := binary_normalize 53 1024 n 0 false.
Definition fmul : float → float → float := SFmul 53 1024.
Definition fdiv : float → float → float := SFdiv 53 1024.
Definition flt : float → float → bool := SFltb.
(** [a / b] on integers; equal to Python's correctly rounded quotient while both fit
    53 bits. *)
Definition true_div (a b : Z) : float := fdiv (float_of_int a) (float_of_int b).
(** [min(a, b)] is its first argument unless the second is smaller. *)
Definition fmin (a b : float) : float := if flt b a then b else a.

(** The integer nearest to [p / q], halves to the even one ([q] is positive). *)
Definition round_half_even (p q : Z) : Z :=
  let d := p / q in
  let r := p mod q in
  if 2 * r <? q then d else if q <? 2 * r then d + 1 else if Z.even d then d else d + 1.

(** A finite value, as a mantissa and an exponent of two. *)
Definition float_parts (f : float) : Z * Z :=
  match f with
  | S754_finite s m e => ((if s then -1 else 1) * Zpos m, e)
  | _ => (0, 0)
  end.
(** [f * 10 ** k], rounded to an integer. *)
Definition scaled (k : Z) (f : float) : Z :=
  let '(m, e) := float_parts f in
  if 0 <=? e then m * 10 ^ k * 2 ^ e else round_half_even (m * 10 ^ k) (2 ^ (- e)).
(** [round(f)] *)
Definition py_round (f : float) : Z := scaled 0 f.
(** [int(f)] *)
Definition float_int (f : float) : Z :=
  let '(m, e) := float_parts f in if 0 <=? e then m * 2 ^ e else Z.quot m (2 ^ (- e)).
Definition float_negative (f : float) : bool :=
  match f with S754_zero s | S754_infinity s | S754_finite s _ _ => s | S754_nan => false end.
(** A number of tenths with one decimal; [f'{f:.1f}']. *)
Definition tenths_text (negative : bool) (t : Z) : string :=
  (if negative then "-" else "") +:+ str_int (Z.abs t / 10) +:+ "." +:+ str_int (Z.abs t mod 10).
Definition format_1f (f : float) : string := tenths_text (float_negative f) (scaled 1 f).

Example rounding : (λ x, round_half_even x 2) <$> [1; 3; 5; -1; -3] = [0; 2; 2; 0; -2].
Proof. reflexivity. Qed.
Example formats : format_1f <$> [true_div 1 4; true_div 35 100; true_div (-1) 4; true_div 1 1000; float_of_int 12]
  = ["0.2"; "0.3"; "-0.2"; "0.0"; "12.0"].
Proof. vm_compute. reflexivity. Qed.
Example inexact : float_of_int (2 ^ 53 + 1) = float_of_int (2 ^ 53).
Proof. vm_compute. reflexivity. Qed.

(** ** The rounded integer is a nearest one *)
Lemma round_half_even_near p q : 0 < q → 2 * Z.abs (q * round_half_even p q - p) ≤ q.
Proof.
  intros Hq. unfold round_half_even. cbv zeta.
  pose proof (Z.div_mod p q ltac:(lia)) as Hp. pose proof (Z.mod_pos_bound p q Hq).
  set (d := p / q) in *. set (r := p mod q) in *.
  destruct (Z.ltb_spec (2 * r) q); [lia|]. destruct (Z.ltb_spec q (2 * r)); [lia|].
  destruct (Z.even d); lia.
Qed.
Lemma round_half_even_exact d q : 0 < q → round_half_even (q * d) q = d.
Proof.
  intros Hq. unfold round_half_even. cbv zeta.
  rewrite (Z.mul_comm q d), Z.div_mul, Z.mod_mul by lia. by destruct (Z.ltb_spec (2 * 0) q); [|lia].
Qed.
