(* ===== verification/PyRe.v ===== *)
(** * PyRe: [re.sub] with groups

    The part of Python's [re] the scrubbing patterns use: characters by class, greedy
    repetition of one class, alternatives in order, groups and the word boundary.  The
    matcher backtracks in Python's order, so it finds the match [re] finds. *)
From S2P Require Import Prelude PyStr.

Inductive rx :=
| RChr (p : ascii → bool)
| RMany (p : ascii → bool)
| RBound
| REps
| RCat (r1 r2 : rx)
| RAlt (r1 r2 : rx)
| RGrp (n : nat) (r : rx).

(** [\w] below U+0100. *)
Definition word_char (c : ascii) : bool :=
  let n := Ascii.nat_of_ascii c in
  ((48 <=? n) && (n <=? 57) || (65 <=? n) && (n <=? 90) || (n =? 95) || (97 <=? n) && (n <=? 122)
   || (n =? 170) || (178 <=? n) && (n <=? 179) || (n =? 181) || (185 <=? n) && (n <=? 186)
   || (188 <=? n) && (n <=? 190) || (192 <=? n) && (n <=? 214) || (216 <=? n) && (n <=? 246)
   || (248 <=? n))%nat.
Definition word_at (o : option ascii) : bool := from_option word_char false o.
Definition first_char (s : string) : option ascii := match s with "" => None | String c _ => Some c end.

(** The text between a position and a later one. *)
Definition text_between (s rest : string) : string := str_take (String.length s - String.length rest) s.

(** [run r k prev s g]: match [r] at [s], after the character [prev], with the groups
    [g] so far, and go on with [k]; the first success in Python's order. *)
Section run.
Context {R : Type}.
Definition cont := option ascii → string → list (nat * string) → option R.
Definition first_of (a b : option R) : option R := match a with Some x => Some x | None => b end.
Fixpoint run (r : rx) (k : cont) (prev : option ascii) (s : string) (g : list (nat * string)) : option R :=
  match r with
  | REps => k prev s g
  | RChr p => match s with "" => None | String c s' => if p c then k (Some c) s' g else None end
  | RMany p =>
      (fix many prev s :=
         match s with
         | "" => k prev s g
         | String c s' => if p c then first_of (many (Some c) s') (k prev s g) else k prev s g
         end) prev s
  | RBound => if eqb (word_at prev) (word_at (first_char s)) then None else k prev s g
  | RCat r1 r2 => run r1 (λ prev' s' g', run r2 k prev' s' g') prev s g
  | RAlt r1 r2 => first_of (run r1 k prev s g) (run r2 k prev s g)
  | RGrp n r' => run r' (λ prev' s' g', k prev' s' ((n, text_between s s') :: g')) prev s g
  end.
End run.
(** The match at a position: the rest of the text and the groups. *)
Definition match_at (r : rx) (prev : option ascii) (s : string) : option (string * list (nat * string)) :=
  run r (λ _ rest g, Some (rest, g)) prev s [].

(** ** Templates and [pattern.sub(template, text)] *)
Inductive piece := Lit (t : string) | Ref (n : nat).
Fixpoint group_text (n : nat) (g : list (nat * string)) : string :=
  match g with [] => "" | (m, t) :: g' => if (m =? n)%nat then t else group_text n g' end.
Fixpoint expand (template : list piece) (g : list (nat * string)) : string :=
  match template with
  | [] => ""
  | Lit t :: template' => t +:+ expand template' g
  | Ref n :: template' => group_text n g +:+ expand template' g
  end.
(** Every pattern matches at least one character, so the scan goes on [skip] characters
    after the first one of a match. *)
Fixpoint sub_go (r : rx) (template : list piece) (skip : nat) (prev : option ascii) (s : string) : string :=
  match s with
  | "" => ""
  | String c s' =>
      match skip with
      | S skip' => sub_go r template skip' (Some c) s'
      | O => match match_at r prev s with
             | Some (rest, g) =>
                 expand template g +:+ sub_go r template (String.length s' - String.length rest) (Some c) s'
             | None => String c (sub_go r template O (Some c) s')
             end
      end
  end.
Definition sub (r : rx) (template : list piece) (s : string) : string := sub_go r template O None s.

(** ** Building patterns *)
Definition any_of (l : string) (c : ascii) : bool := has_char c l.
Definition none_of (l : string) (c : ascii) : bool := negb (has_char c l).
Definition letter (c : ascii) : bool :=
  let n := Ascii.nat_of_ascii c in ((65 <=? n) && (n <=? 90) || (97 <=? n) && (n <=? 122))%nat.
Definition alnum (c : ascii) : bool := letter c || is_digit c.
(** With [re.IGNORECASE]. *)
Definition fold_char (a c : ascii) : bool := lower_char c == lower_char a.
Fixpoint word (s : string) : rx :=
  match s with "" => REps | String a s' => RCat (RChr (fold_char a)) (word s') end.
Fixpoint seqs (l : list rx) : rx := match l with [] => REps | r :: l' => RCat r (seqs l') end.
Fixpoint one_of_words (l : list string) : rx :=
  match l with [] => REps | [w] => word w | w :: l' => RAlt (word w) (one_of_words l') end.
Definition some_of (p : ascii → bool) : rx := RCat (RChr p) (RMany p).
(** [p{n,}] *)
Fixpoint at_least (n : nat) (p : ascii → bool) : rx :=
  match n with O => RMany p | S n' => RCat (RChr p) (at_least n' p) end.

Example sub_demo :
  sub (RCat (RGrp 1 (word "ab")) (some_of is_digit)) [Ref 1; Lit "#"] "xAB12-ab-aB3" = "xAB#-ab-aB#".
Proof. vm_compute. reflexivity. Qed.
Example boundary : sub (seqs [RBound; word "key"; RBound]) [Lit "-"] "key keys monkey KEY" = "- keys monkey -".
Proof. vm_compute. reflexivity. Qed.

(** ** The text of a match *)
Lemma text_between_app m r : text_between (m +:+ r) r = m.
Proof.
  unfold text_between. rewrite str_length_app.
  replace (String.length m + String.length r - String.length r)%nat with (String.length m) by lia.
  apply str_take_app.
Qed.
Lemma lstrip_while_split p s : ∃ m, s = m +:+ lstrip_while p s ∧ str_forall p m = true.
Proof.
  induction s as [|c s (m & Hs & Hm)]; [by exists ""|]. cbn [lstrip_while]. destruct (p c) eqn:Hc; [|by exists ""].
  exists (String c m). rewrite str_app_cons, <- Hs. cbn. by rewrite Hc.
Qed.
Lemma text_between_forall p s : str_forall p (text_between s (lstrip_while p s)) = true.
Proof.
  destruct (lstrip_while_split p s) as (m & Hs & Hm). rewrite Hs at 1. by rewrite text_between_app.
Qed.
