(* ===== verification/Mime.v ===== *)
(** * Mime: object paths and MIME allow-lists ([apps/storage/mime.py]) *)
From S2P Require Import Prelude PyStr Models.

(** [mimetypes.guess_type(name, strict=False)[0]]: the table depends on the host. *)
Class MimeTypes := guess_type : string → option string.

Section mime.
Context `{MimeTypes}.

Definition OCTET_STREAM : string := "application/octet-stream".

Definition guess_mime_type (filename fallback : string) : string :=
match guess_type filename with
| Some guessed => str_or guessed fallback
| None => fallback
end.

Definition normalize_mime_type (value : option string) (filename : string) : string :=
match value with
| Some v =>
    let cleaned := lower (strip (partition_char ";" v).1) in
    if truthy v && truthy cleaned && (cleaned != OCTET_STREAM) then cleaned
    else guess_mime_type filename OCTET_STREAM
| None => guess_mime_type filename OCTET_STREAM
end.
End mime.

Definition mime_pattern_matches (mime pattern0 : string) : bool :=
  let pattern := lower (strip pattern0) in
  if negb (truthy pattern) then false
  else if endswith "/*" pattern then startswith (drop_last 1 pattern) mime
  else mime == pattern.

Definition mime_allowed (mime_type : string) (allowed : list string) : bool :=
  match allowed with
  | [] => true
  | _ => existsb (mime_pattern_matches (lower (strip (partition_char ";" mime_type).1))) allowed
  end.

(** [PurePosixPath(p).parts] for a [p] that does not start with [/]. *)
Definition posix_parts (p : string) : list string :=
  filter (λ s, s ≠ "" ∧ s ≠ ".") (split_char "/" p).
(** [PurePosixPath(p).name] *)
Definition posix_name (p : string) : string := List.last (posix_parts p) "".

(** The loop of [safe_object_path] over the parts. *)
Fixpoint collect_parts (l : list string) : exn + list string :=
  match l with
  | [] => inr []
  | part :: l' =>
      if (part == "") || (part == ".") then collect_parts l'
      else if part == ".." then inl ValueError
      else match collect_parts l' with
           | inl e => inl e
           | inr parts => inr (part :: parts)
           end
  end.

Definition safe_object_path (path : string) : exn + string :=
  let raw := strip_char "/" (replace_char "\" "/" path) in
  if negb (truthy raw) then inl ValueError
  else match collect_parts (posix_parts raw) with
       | inl e => inl e
       | inr [] => inl ValueError
       | inr parts => inr (join_char "/" parts)
       end.

(** ** What a stored object path looks like *)
Definition seg_ok (s : string) : Prop :=
  s ≠ "" ∧ s ≠ "." ∧ s ≠ ".." ∧ has_char "/" s = false ∧ has_char "\" s = false.
Definition canonical_path (q : string) : Prop :=
  ∃ segs, segs ≠ [] ∧ Forall seg_ok segs ∧ q = join_char "/" segs.

(** Reference definition: split on both separators, drop the empty and [.]
    segments, refuse [..]. *)
Definition path_segments (path : string) : list string :=
  posix_parts (replace_char "\" "/" path).

(** ** Lemmas *)
Lemma posix_parts_cons_slash s : posix_parts (String "/" s) = posix_parts s.
Proof. done. Qed.

Lemma posix_parts_lstrip s : posix_parts (lstrip_while (λ c, c == "/"%char) s) = posix_parts s.
Proof.
  induction s as [|a s IH]; [done|]. simpl. case_bool_decide as Ha; [|done].
  subst a. by rewrite posix_parts_cons_slash.
Qed.

Lemma split_rstrip_slash s :
  head (split_char "/" (rstrip_while (λ c, c == "/"%char) s)) = head (split_char "/" s) ∧
  filter (λ s, s ≠ "" ∧ s ≠ ".") (tail (split_char "/" (rstrip_while (λ c, c == "/"%char) s))) =
  filter (λ s, s ≠ "" ∧ s ≠ ".") (tail (split_char "/" s)).
Proof.
  induction s as [|a s [IHh IHt]]; [done|]. rewrite rstrip_while_cons.
  pose proof (split_char_nonempty "/" s) as Hs.
  pose proof (split_char_nonempty "/" (rstrip_while (λ c, c == "/"%char) s)) as Hr.
  destruct (bool_decide_reflect (a = "/"%char)) as [->|Ha]; simpl.
  - destruct (bool_decide_reflect (rstrip_while (λ c, c == "/"%char) s = "")) as [He|He]; simpl.
    + split; [done|]. rewrite He in IHh, IHt. simpl in IHh, IHt.
      destruct (split_char "/" s) as [|h t]; [done|]. simpl in *.
      injection IHh as <-. by rewrite filter_cons_False by naive_solver.
    + destruct (split_char "/" (rstrip_while _ s)) as [|h t]; [done|].
      destruct (split_char "/" s) as [|h' t']; [done|]. simpl in *.
      injection IHh as ->. split; [done|]. rewrite !filter_cons. by case_decide; rewrite IHt.
  - rewrite andb_false_r. simpl. rewrite bool_decide_false by done.
    destruct (split_char "/" (rstrip_while _ s)) as [|h t]; [done|].
    destruct (split_char "/" s) as [|h' t']; [done|]. simpl in *.
    by injection IHh as ->.
Qed.

Lemma posix_parts_rstrip s : posix_parts (rstrip_while (λ c, c == "/"%char) s) = posix_parts s.
Proof.
  unfold posix_parts. destruct (split_rstrip_slash s) as [Hh Ht].
  destruct (split_char "/" (rstrip_while _ s)) as [|h t] eqn:E1.
  { by pose proof (split_char_nonempty "/" _ E1). }
  destruct (split_char "/" s) as [|h' t'] eqn:E2.
  { by pose proof (split_char_nonempty "/" _ E2). }
  simpl in *. injection Hh as ->. rewrite !filter_cons. by case_decide; rewrite Ht.
Qed.

Lemma posix_parts_strip s : posix_parts (strip_char "/" s) = posix_parts s.
Proof. unfold strip_char, strip_while. by rewrite posix_parts_rstrip, posix_parts_lstrip. Qed.

Lemma collect_parts_spec l :
  Forall (λ s, s ≠ "" ∧ s ≠ ".") l →
  collect_parts l = if bool_decide (".." ∈ l) then inl ValueError else inr l.
Proof.
  induction 1 as [|s l [Hs1 Hs2] Hl IH]; [done|]. simpl. rewrite IH.
  rewrite (bool_decide_false (s = "")), (bool_decide_false (s = ".")) by done. simpl.
  destruct (bool_decide_reflect (s = "..")) as [->|Hs3].
  - by rewrite bool_decide_true by set_solver.
  - destruct (bool_decide_reflect (".." ∈ l)) as [Hin|Hin].
    + by rewrite bool_decide_true by set_solver.
    + by rewrite bool_decide_false by set_solver.
Qed.

Lemma posix_parts_proper s : Forall (λ s, s ≠ "" ∧ s ≠ ".") (posix_parts s).
Proof. unfold posix_parts. apply Forall_forall. intros x Hx. by apply list_elem_of_filter in Hx as [Hx _]. Qed.

Lemma safe_object_path_eq path :
  safe_object_path path =
    if bool_decide (path_segments path = [] ∨ ".." ∈ path_segments path) then inl ValueError
    else inr (join_char "/" (path_segments path)).
Proof.
  unfold safe_object_path, path_segments.
  rewrite <- (posix_parts_strip (replace_char "\" "/" path)).
  set (raw := strip_char "/" (replace_char "\" "/" path)). unfold truthy.
  destruct (bool_decide_reflect (raw = "")) as [->|Hraw]; simpl; [done|].
  rewrite collect_parts_spec by apply posix_parts_proper.
  destruct (bool_decide_reflect (".." ∈ posix_parts raw)) as [Hdd|Hdd].
  { by rewrite bool_decide_true by auto. }
  destruct (posix_parts raw) as [|p ps]; [done|].
  by rewrite bool_decide_false by naive_solver.
Qed.

Lemma replace_has_char_split (a b : ascii) s :
  a ≠ b → Forall (λ seg, has_char a seg = false) (split_char b (replace_char a b s)).
Proof.
  intros Hab. pose proof (replace_char_none a b s Hab) as Hn.
  rewrite <- (join_split_char b (replace_char a b s)) in Hn.
  induction (split_char b (replace_char a b s)) as [|seg segs IH]; [done|].
  destruct segs as [|seg' segs]; [by repeat constructor|].
  rewrite join_char_cons, has_char_app, has_char_cons, !orb_false_iff in Hn by done.
  destruct Hn as (H1 & _ & H2). constructor; [done|]. by apply IH.
Qed.

Lemma path_segments_ok path : ".." ∉ path_segments path → Forall seg_ok (path_segments path).
Proof.
  intros Hdd. apply Forall_forall. intros seg Hseg.
  pose proof Hseg as Hin. apply list_elem_of_filter in Hin as [[H1 H2] Hin].
  unfold seg_ok. repeat split; [done|done|set_solver| |].
  - pose proof (split_char_segs "/" (replace_char "\" "/" path)) as Hf.
    rewrite Forall_forall in Hf. by apply Hf.
  - pose proof (replace_has_char_split "\" "/" path ltac:(done)) as Hf.
    rewrite Forall_forall in Hf. by apply Hf.
Qed.

(** [safe_object_path] only returns canonical paths. *)
Lemma safe_object_path_canonical path q : safe_object_path path = inr q → canonical_path q.
Proof.
  rewrite safe_object_path_eq. case_bool_decide as Hb; [done|]. intros [= <-].
  exists (path_segments path). split_and!; [naive_solver| |done].
  apply path_segments_ok. naive_solver.
Qed.

Lemma seg_ok_no_slash segs :
  Forall seg_ok segs → Forall (λ s, has_char "/" s = false) segs.
Proof. intros Hs. eapply Forall_impl; [done|]. unfold seg_ok. naive_solver. Qed.

Lemma join_no_backslash segs :
  Forall seg_ok segs → has_char "\" (join_char "/" segs) = false.
Proof.
  induction 1 as [|s l Hs Hl IH]; [done|]. destruct l as [|s' l].
  - unfold seg_ok in Hs. naive_solver.
  - rewrite join_char_cons, has_char_app, has_char_cons by done.
    rewrite IH. unfold seg_ok in Hs. by destruct Hs as (_ & _ & _ & _ & ->).
Qed.

Lemma path_segments_join segs :
  segs ≠ [] → Forall seg_ok segs → path_segments (join_char "/" segs) = segs.
Proof.
  intros Hne Hok. unfold path_segments, posix_parts.
  rewrite replace_char_id by by apply join_no_backslash.
  rewrite split_join_char by (done || by apply seg_ok_no_slash).
  clear Hne. induction Hok as [|s l Hs Hl IH]; [done|].
  rewrite filter_cons_True by (unfold seg_ok in Hs; naive_solver). by rewrite IH.
Qed.

(** A canonical path is left alone. *)
Lemma safe_object_path_fixed q : canonical_path q → safe_object_path q = inr q.
Proof.
  intros (segs & Hne & Hok & ->). rewrite safe_object_path_eq.
  rewrite path_segments_join by done. rewrite bool_decide_false; [done|].
  intros [->|Hdd]; [done|]. rewrite Forall_forall in Hok.
  apply Hok in Hdd. unfold seg_ok in Hdd. naive_solver.
Qed.

Lemma canonical_nonempty q : canonical_path q → q ≠ "".
Proof.
  intros (segs & Hne & Hok & ->). destruct Hok as [|s l Hs Hl]; [done|].
  unfold seg_ok in Hs. destruct l as [|s' l]; [naive_solver|].
  rewrite join_char_cons by done. destruct s; [naive_solver|done].
Qed.

(** ** Properties *)

(** [safe_object_path] agrees with the reference definition: it splits on both
    separators, drops the empty and [.] segments, fails exactly when a segment is
    [..] or none is left, and otherwise joins them; every result is canonical
    (no empty, [.] or [..] segment, no separator inside a segment) and the
    function leaves every canonical path unchanged, so it is idempotent. *)
Theorem safe_object_path_correct : ∀ path,
  (safe_object_path path = inl ValueError ↔
     path_segments path = [] ∨ ".." ∈ path_segments path) ∧
  (∀ q, safe_object_path path = inr q →
     q = join_char "/" (path_segments path) ∧ canonical_path q ∧ safe_object_path q = inr q) ∧
  (∀ e, safe_object_path path = inl e → e = ValueError).
Proof.
  intros path. split_and!.
  - rewrite safe_object_path_eq. case_bool_decide; naive_solver.
  - intros q Hq. pose proof (safe_object_path_canonical path q Hq) as Hc.
    split_and!; [|done|by apply safe_object_path_fixed].
    rewrite safe_object_path_eq in Hq. case_bool_decide; naive_solver.
  - intros e. rewrite safe_object_path_eq. case_bool_decide; naive_solver.
Qed.
