(* ===== verification/Signals.v ===== *)
(** * Signals: the interface between the storage services and their listeners

    [apps/storage/signals.py] declares two Django signals; [apps/storage/services.py]
    and [apps/storage/access.py] fire them (and the bucket hook) inside their
    transaction.  The services are proved against this interface: the laws say
    what a listener may touch.  [Hooks.v] gives the listeners of the repository
    and discharges the laws. *)
From S2P Require Import Prelude PyStr Models.

(** The [request] argument of a signal: the authenticated user, when there is one. *)
Abbreviation request := (option principal).

Record deleted_info := DeletedInfo {
  di_bucket_name : string;
  di_object_name : string;
  di_company_id : Z;
  di_owner_id : option Z;
  di_mime_type : string;
  di_size : Z }.

Class Receivers := {
  (** receivers of [storage_object_uploaded]; the boolean is [created].  The sender
      passes its instance, which a receiver may modify: the result is the instance
      afterwards. *)
  object_uploaded : sobject → bool → request → prog sobject;
  (** receivers of [storage_object_deleted] *)
  object_deleted : deleted_info → request → prog unit;
  (** [storage_hooks.emit_bucket_created] *)
  bucket_created : bucket → request → option principal → prog unit }.

(** ** Equality of the storage tables up to object metadata *)
Definition erase_metadata (o : sobject) : sobject :=
  StorageObject (o_id o) (o_bucket_id o) (o_name o) (o_company_id o) (o_owner_id o) (o_size o)
    (o_etag o) (o_mime_type o) [] (o_storage_key o) (o_version o) (o_created_at o)
    (o_updated_at o) (o_last_accessed_at o).

Record db_sim (d d' : db) : Prop := DbSim {
  sim_buckets : db_buckets d = db_buckets d';
  sim_objects : erase_metadata <$> db_objects d = erase_metadata <$> db_objects d';
  sim_grants : db_grants d = db_grants d';
  sim_links : db_links d = db_links d';
  sim_company_quotas : db_company_quotas d = db_company_quotas d';
  sim_user_quotas : db_user_quotas d = db_user_quotas d' }.
#[export] Instance db_sim_equiv : Equivalence db_sim.
Proof.
  split.
  - intros d. by split.
  - intros d d' []. by split.
  - intros d1 d2 d3 [] []. split; congruence.
Qed.

(** A step that leaves the storage tables (up to object metadata), the blobs and
    the clock alone, and only draws fresh UUIDs. *)
Record quiet (w w' : world) : Prop := Quiet {
  quiet_db : db_sim (w_db w) (w_db w');
  quiet_blobs : w_blobs w = w_blobs w';
  quiet_now : w_now w = w_now w';
  quiet_uuid : (w_next_uuid w ≤ w_next_uuid w')%N }.
#[export] Instance quiet_preorder : PreOrder quiet.
Proof.
  split.
  - intros w. by split.
  - intros w1 w2 w3 [? ? ? ?] [? ? ? ?]. split; [by etrans|congruence|congruence|lia].
Qed.

(** A program all of whose runs are quiet. *)
Definition quiet_prog {A} (m : prog A) : Prop := ∀ w, quiet w (m w).2.

(** What the services rely on: listeners do not raise, are quiet, and change at most
    the metadata of the instance they are given. *)
Class ReceiverLaws `{Receivers} := {
  object_uploaded_law o c r w :
    wp (object_uploaded o c r)
      (λ o' w', quiet w w' ∧ erase_metadata o' = erase_metadata o) (λ _ _, False) w;
  object_deleted_law i r w : wp (object_deleted i r) (λ _, quiet w) (λ _ _, False) w;
  bucket_created_law b r p w : wp (bucket_created b r p) (λ _, quiet w) (λ _ _, False) w }.

(** Listeners that do nothing obey the laws. *)
Definition silent : Receivers := {|
  object_uploaded o c r := ret o;
  object_deleted i r := ret tt;
  bucket_created b r p := ret tt |}.
#[export] Instance silent_laws : @ReceiverLaws silent.
Proof. by split; intros; apply wp_ret. Qed.

(** ** Lemmas *)
Lemma quiet_ret {A} (a : A) : quiet_prog (ret (E := exn) a).
Proof. by intros w. Qed.
Lemma quiet_gets {A} (f : world → A) : quiet_prog (gets (E := exn) f).
Proof. by intros w. Qed.
Lemma quiet_raise {A} (e : exn) : quiet_prog (raise (A := A) e).
Proof. by intros w. Qed.
Lemma quiet_bind {A B} (m : prog A) (k : A → prog B) :
  quiet_prog m → (∀ a, quiet_prog (k a)) → quiet_prog (bind m k).
Proof.
  intros Hm Hk w. unfold bind. specialize (Hm w). destruct (m w) as [[e|a] w']; [done|].
  simpl in *. etrans; [done|]. apply Hk.
Qed.
Lemma quiet_uuid4 : quiet_prog uuid4.
Proof. intros w. split; simpl; [done|done|done|lia]. Qed.
Lemma quiet_atomic {A} (m : prog A) : quiet_prog m → quiet_prog (atomic m).
Proof.
  intros Hm w. unfold atomic. specialize (Hm w). destruct (m w) as [[e|a] w']; [|done].
  simpl in *. destruct Hm. by split.
Qed.
Lemma quiet_modify_db f : (∀ d, db_sim d (f d)) → quiet_prog (modify_db f).
Proof. intros Hf w. split; simpl; [apply Hf|done|done|lia]. Qed.
Lemma quiet_for_each {A} (l : list A) (f : A → prog unit) :
  (∀ x, quiet_prog (f x)) → quiet_prog (for_each l f).
Proof.
  intros Hf. induction l as [|x l IH]; simpl; [apply quiet_ret|]. apply quiet_bind; auto.
Qed.
Create HintDb quiet discriminated.
#[export] Hint Resolve quiet_ret quiet_gets quiet_raise quiet_bind quiet_uuid4 quiet_atomic
  quiet_modify_db quiet_for_each : quiet.

Lemma db_sim_object d d' i o :
  db_sim d d' → db_objects d !! i = Some o →
  ∃ o', db_objects d' !! i = Some o' ∧ erase_metadata o = erase_metadata o'.
Proof.
  intros Hsim Ho. pose proof (f_equal (.!! i) (sim_objects _ _ Hsim)) as He.
  rewrite !lookup_fmap, Ho in He. simpl in He.
  destruct (db_objects d' !! i) as [o'|]; [|done]. simpl in He. exists o'. split; congruence.
Qed.

(** Object fields other than the metadata agree on simulated databases. *)
Lemma erase_metadata_fields o o' :
  erase_metadata o = erase_metadata o' →
  o_id o = o_id o' ∧ o_bucket_id o = o_bucket_id o' ∧ o_name o = o_name o' ∧
  o_company_id o = o_company_id o' ∧ o_owner_id o = o_owner_id o' ∧ o_size o = o_size o' ∧
  o_storage_key o = o_storage_key o'.
Proof. destruct o, o'. unfold erase_metadata. simpl. intros [=]. by subst. Qed.

(** An invariant that does not look at metadata survives a quiet program. *)
Lemma quiet_preserves {A} (I : world → Prop) (m : prog A) :
  (∀ w w', quiet w w' → I w → I w') → quiet_prog m → preserves I m.
Proof. intros HI Hm w Hw. eapply HI; [apply Hm|done]. Qed.
