(* ===== verification/Access.v ===== *)
(** * Access: bucket kinds and access control ([apps/storage/access.py])

    The decision procedure [evaluate_access] is a pure function of the clock, the
    database and the request; the operations that read or write run in [prog]. *)
From S2P Require Import Prelude PyStr Models Mime Signals.

(** ** Permissions and paths *)
Definition COMPANY_BUCKET_NAME : string := "company".
Definition AUTO_PRIVATE_NOTES : string := "auto: private by default".

Definition PERMISSION_RANK (p : permission) : Z :=
  match p with READ => 0 | WRITE => 1 | ADMIN => 2 end.

Definition permission_at_least (granted required : permission) : bool :=
  PERMISSION_RANK required <=? PERMISSION_RANK granted.
Definition deny_blocks (denied required : permission) : bool :=
  PERMISSION_RANK denied <=? PERMISSION_RANK required.
Definition required_permission (write admin : bool) : permission :=
  if admin then ADMIN else if write then WRITE else READ.

Definition normalize_path (path : option string) : string :=
  strip_char "/" (strip (default "" path)).

Definition folder_matches (prefix path : string) : bool :=
  let prefix := normalize_path (Some prefix) in
  let path := normalize_path (Some path) in
  if negb (truthy prefix) then true
  else (path == prefix) || startswith (prefix +:+ "/") path.

(** ** Matching a grant *)
Definition resource_matches_grant (d : db) (g : grant) (b : bucket)
    (path : option string) (object_id : option uuid) : bool :=
  if g_bucket_id g != b_id b then false
  else
    let path := normalize_path path in
    match g_resource_type g with
    | RESOURCE_BUCKET => true
    | RESOURCE_FOLDER =>
        (* [path is None] never holds here: [_normalize_path] returned a string *)
        if g_object_id g == None then false
        else folder_matches (folder_path_from_placeholder (grant_object_name d g)) path
    | RESOURCE_OBJECT =>
        if g_object_id g == None then false
        else if (object_id != None) && (g_object_id g == object_id) then true
        else truthy path && (normalize_path (Some (grant_object_name d g)) == path)
    end.

Definition subject_matches (g : grant) (p : principal) : bool :=
  match p_company_id p with
  | None => false
  | Some cid =>
      match g_subject_type g with
      | SUBJECT_USER => g_subject_id g == str_int (p_user_id p)
      | SUBJECT_COMPANY => g_subject_id g == str_int cid
      | SUBJECT_GROUP => false
      end
  end.

Definition grant_active (t : datetime) (g : grant) : bool :=
  match g_expires_at g with None => true | Some e => t <? e end.
(** [_active_grants_qs] *)
Definition active_grants (t : datetime) (d : db) (company_id : Z) : list grant :=
  filter (λ g, g_company_id g = company_id ∧ grant_active t g = true) (rows (db_grants d)).

Definition kind_default_allows (p : principal) (b : bucket) (required : permission) : bool :=
  match p_company_id p with
  | None => false
  | Some cid =>
      if b_company_id b != cid then false
      else match b_kind b with
           | KIND_COMPANY =>
               if required == ADMIN then p_is_company_owner p || p_is_staff p else true
           | KIND_CONNECTOR => required == READ
           end
  end.

(** ** Specificity *)
Definition folder_depth (folder_path : string) : Z :=
  if truthy folder_path
  then Z.of_nat (length (split_char "/" (normalize_path (Some folder_path)))) else 0.

Definition subject_score (s : subject_type) : Z :=
  match s with SUBJECT_USER => 3 | SUBJECT_GROUP => 2 | SUBJECT_COMPANY => 1 end.

Definition grant_specificity (d : db) (g : grant) : Z * Z :=
  let folder_path :=
    if g_object_id g != None then folder_path_from_placeholder (grant_object_name d g) else "" in
  (match g_resource_type g with
   | RESOURCE_OBJECT => 1000
   | RESOURCE_FOLDER => 100 + folder_depth folder_path
   | RESOURCE_BUCKET => 1
   end, subject_score (g_subject_type g)).

(** Python's order on pairs, and [max] of a non-empty list. *)
Definition score_leb (a b : Z * Z) : bool :=
  (a.1 <? b.1) || ((a.1 =? b.1) && (a.2 <=? b.2)).
Definition score_max (a b : Z * Z) : Z * Z := if score_leb b a then a else b.
Fixpoint best_score (s : Z * Z) (l : list (Z * Z)) : Z * Z :=
  match l with [] => s | x :: l' => best_score (score_max s x) l' end.

(** ** The decision *)
Definition decide_top (top : list grant) (required : permission) (fallback : bool) : bool :=
  if existsb (λ g, (g_effect g == DENY) && deny_blocks (g_permission g) required) top then false
  else if existsb (λ g, (g_effect g == ALLOW) && permission_at_least (g_permission g) required) top
  then true
  else if existsb (λ g, g_effect g == ALLOW) top then false
  else fallback.

Definition matching_grants (t : datetime) (d : db) (company_id : Z) (p : principal) (b : bucket)
    (path : option string) (object_id : option uuid) : list grant :=
  filter (λ g, subject_matches g p = true ∧ resource_matches_grant d g b path object_id = true)
    (active_grants t d company_id).

Definition evaluate_access (t : datetime) (d : db) (p : principal) (b : bucket)
    (path : option string) (object_id : option uuid) (write admin : bool) : bool :=
  match p_company_id p with
  | None => false
  | Some cid =>
      if b_company_id b != cid then false
      else
        let required := required_permission write admin in
        let fallback := kind_default_allows p b required in
        match matching_grants t d cid p b path object_id with
        | [] => fallback
        | g :: gs =>
            let best := best_score (grant_specificity d g) (grant_specificity d <$> gs) in
            let top := filter (λ g', grant_specificity d g' = best) (g :: gs) in
            decide_top top required fallback
        end
  end.

Definition can_access_bucket (t : datetime) (d : db) (p : principal) (b : bucket)
    (write admin : bool) : bool :=
  evaluate_access t d p b None None write admin.
Definition can_access_path (t : datetime) (d : db) (p : principal) (b : bucket) (path : string)
    (object_id : option uuid) (write admin : bool) : bool :=
  evaluate_access t d p b (Some path) object_id write admin.

Definition assert_can_access_bucket (p : principal) (b : bucket) (write admin : bool) : prog unit :=
  t <- now ;; d <- get_db ;;
  if can_access_bucket t d p b write admin then ret tt
  else raise (StorageError 403 "bucket_access_denied").
Definition assert_can_access_path (p : principal) (b : bucket) (path : string)
    (object_id : option uuid) (write admin : bool) : prog unit :=
  t <- now ;; d <- get_db ;;
  if can_access_path t d p b path object_id write admin then ret tt
  else raise (StorageError 403 "path_access_denied").

(** [services.require_company_id] *)
Definition require_company_id (p : principal) : prog Z :=
  match p_company_id p with
  | None => raise (StorageError 403 "missing_company")
  | Some cid => ret cid
  end.
Definition lift_sum {A} (r : exn + A) : prog A :=
  match r with inl e => raise e | inr a => ret a end.

(** [StorageObject.objects.filter(bucket=b, name=n).first()]: at most one row, by
    the unique constraint on [(bucket, name)]. *)
Definition find_object (d : db) (bid : uuid) (name : string) : option sobject :=
  row_find (λ o, (o_bucket_id o == bid) && (o_name o == name)) (db_objects d).
Definition find_bucket (d : db) (company_id : Z) (name : string) : option bucket :=
  row_find (λ b, (b_company_id b == company_id) && (b_name b == name)) (db_buckets d).

Section buckets.
Context `{Receivers}.

Definition ensure_company_bucket (company_id : Z) (r : request) (p : option principal) :
  prog bucket :=
d <- get_db ;;
b <- match find_bucket d company_id COMPANY_BUCKET_NAME with
     | Some b => ret b
     | None =>
         i <- uuid4 ;; t <- now ;;
         let b := Bucket i COMPANY_BUCKET_NAME company_id KIND_COMPANY false None [] None "" t t in
         modify_db (set_buckets (insert i b)) ;;;
         bucket_created b r p ;;;
         ret b
     end ;;
if (b_kind b != KIND_COMPANY) || b_public b then
  t <- now ;;
  let b' := Bucket (b_id b) (b_name b) (b_company_id b) KIND_COMPANY false
              (b_file_size_limit b) (b_allowed_mime_types b) None (b_connector_provider b)
              (b_created_at b) t in
  modify_db (set_buckets (insert (b_id b) b')) ;;; ret b'
else ret b.

(** [ordering = ['kind', 'name']] *)
Definition bucket_le (b b' : bucket) : bool :=
  if b_kind b == b_kind b' then str_le (b_name b) (b_name b')
  else str_le (kind_value (b_kind b)) (kind_value (b_kind b')).
Definition list_accessible_buckets (p : principal) : prog (list bucket) :=
cid <- require_company_id p ;;
ensure_company_bucket cid None (Some p) ;;;
t <- now ;; d <- get_db ;;
ret (filter (λ b, b_company_id b = cid ∧ can_access_bucket t d p b false false = true)
       (sort_by bucket_le (rows (db_buckets d)))).

Definition get_accessible_bucket (p : principal) (name : string) (write admin : bool) :
  prog bucket :=
cid <- require_company_id p ;;
ensure_company_bucket cid None (Some p) ;;;
d <- get_db ;;
match find_bucket d cid name with
| None => raise (StorageError 404 "bucket_not_found")
| Some b => assert_can_access_bucket p b write admin ;;; ret b
end.

Definition get_accessible_object (p : principal) (bucket_name path : string)
  (write admin : bool) : prog (bucket * sobject) :=
b <- get_accessible_bucket p bucket_name write admin ;;
name <- lift_sum (safe_object_path path) ;;
d <- get_db ;;
match find_object d (b_id b) name with
| None => raise (StorageError 404 "object_not_found")
| Some o =>
    assert_can_access_path p b name (Some (o_id o)) write admin ;;; ret (b, o)
end.
End buckets.

(** ** Private by default *)
Definition ancestor_folder_prefixes (path0 : string) : list string :=
  let path := normalize_path (Some path0) in
  if negb (truthy path) || negb (has_char "/" path) then []
  else let parts := split_char "/" path in
       (λ i, join_char "/" (take i parts)) <$> seq 1 (length parts - 1).

Definition folder_grants_for_prefixes (t : datetime) (d : db) (company_id : Z)
    (bucket_name : string) (prefixes : list string) : list grant :=
  match prefixes with
  | [] => []
  | _ =>
      let names := folder_placeholder_path <$> prefixes in
      filter (λ g, (g_resource_type g == RESOURCE_FOLDER) &&
                   from_option (λ o, o_name o in_ names) false (grant_object d g) &&
                   from_option (λ b, b_name b == bucket_name) false (db_buckets d !! g_bucket_id g)
                   = true)
        (active_grants t d company_id)
  end.

(** The first prefix of the list (nearest parent first) that has grants, with them. *)
Fixpoint first_prefix_with_grants (d : db) (grants : list grant) (prefixes : list string) :
    option (string * list grant) :=
  match prefixes with
  | [] => None
  | prefix :: prefixes' =>
      match filter (λ g, folder_path_from_placeholder (grant_object_name d g) = prefix) grants with
      | [] => first_prefix_with_grants d grants prefixes'
      | gs => Some (prefix, gs)
      end
  end.
Definition nearest_ancestor_folder_grants (t : datetime) (d : db) (company_id : Z)
    (bucket_name path : string) : option (string * list grant) :=
  let ancestors := ancestor_folder_prefixes path in
  let grants := folder_grants_for_prefixes t d company_id bucket_name ancestors in
  first_prefix_with_grants d grants (rev ancestors).

Definition nearest_private_ancestor_folder (t : datetime) (d : db) (company_id : Z)
    (bucket_name path : string) : option string :=
  let ancestors := ancestor_folder_prefixes path in
  let grants := folder_grants_for_prefixes t d company_id bucket_name ancestors in
  let private_prefixes :=
    (λ g, folder_path_from_placeholder (grant_object_name d g)) <$>
      filter (λ g, (g_effect g == DENY) && (g_subject_type g == SUBJECT_COMPANY) &&
                   deny_blocks (g_permission g) READ && (g_subject_id g == str_int company_id)
                   = true) grants in
  List.find (λ prefix, prefix in_ private_prefixes) (rev ancestors).

Definition assert_can_open_to_company (company_id : Z) (bucket_name path : string) : prog unit :=
  t <- now ;; d <- get_db ;;
  match nearest_private_ancestor_folder t d company_id bucket_name path with
  | Some parent => if truthy parent then raise (StorageError 400 "parent_folder_private") else ret tt
  | None => ret tt
  end.

(** [StorageAccessGrant.objects.create], with the table's check constraint. *)
Definition create_grant_row (company_id : Z) (bucket_id : uuid) (object_id : option uuid)
    (st : subject_type) (subject_id : string) (rt : resource_type) (perm : permission)
    (eff : effect) (created_by : option Z) (expires_at : option datetime) (notes : string) :
    prog grant :=
  i <- uuid4 ;; t <- now ;;
  let g := Grant i company_id bucket_id object_id st subject_id rt perm eff created_by t t
             expires_at notes in
  if bool_decide (rt = RESOURCE_BUCKET ↔ object_id = None) then
    modify_db (set_grants (insert i g)) ;;; ret g
  else raise IntegrityError.

Definition resource_grants_exist (t : datetime) (d : db) (target : sobject) (rt : resource_type) :
    bool :=
  existsb (λ g, (g_resource_type g == rt) && (g_object_id g == Some (o_id target)) &&
                (g_bucket_id g == o_bucket_id target))
    (active_grants t d (o_company_id target)).

Definition copy_folder_grants (source_grants : list grant) (user_id : Z) (target : sobject) :
    prog (list grant) :=
  map_m (λ src,
    create_grant_row (o_company_id target) (o_bucket_id target) (Some (o_id target))
      (g_subject_type src) (g_subject_id src) RESOURCE_FOLDER (g_permission src) (g_effect src)
      (Some user_id) (g_expires_at src) (str_or (g_notes src) AUTO_PRIVATE_NOTES)) source_grants.

Definition ensure_default_private_access (user_id : Z) (target : sobject) (rt : resource_type) :
    prog (list grant) :=
  if rt == RESOURCE_BUCKET then ret []
  else
    let path := if rt == RESOURCE_FOLDER then folder_path_from_placeholder (o_name target)
                else normalize_path (Some (o_name target)) in
    if negb (truthy path) then ret []
    else
      t <- now ;; d <- get_db ;;
      if resource_grants_exist t d target rt then ret []
      else
        match nearest_ancestor_folder_grants t d (o_company_id target)
                (from_option b_name "" (obj_bucket d target)) path with
        | Some (_, parent_grants) =>
            if rt == RESOURCE_FOLDER then copy_folder_grants parent_grants user_id target
            else ret []
        | None =>
            deny <- create_grant_row (o_company_id target) (o_bucket_id target)
                      (Some (o_id target)) SUBJECT_COMPANY (str_int (o_company_id target)) rt
                      READ DENY (Some user_id) None AUTO_PRIVATE_NOTES ;;
            allow <- create_grant_row (o_company_id target) (o_bucket_id target)
                      (Some (o_id target)) SUBJECT_USER (str_int user_id) rt
                      ADMIN ALLOW (Some user_id) None AUTO_PRIVATE_NOTES ;;
            ret [deny; allow]
        end.

Definition apply_default_private_on_create (instance : sobject) (user_id : option Z)
    (is_folder : bool) : prog (list grant) :=
  match user_id with
  | None => ret []
  | Some uid =>
      let path := normalize_path (Some (o_name instance)) in
      if negb (truthy path) || (path == FOLDER_PLACEHOLDER_NAME) then ret []
      else if is_folder || endswith ("/" +:+ FOLDER_PLACEHOLDER_NAME) path then
        if negb (truthy (folder_path_from_placeholder path)) then ret []
        else ensure_default_private_access uid instance RESOURCE_FOLDER
      else ensure_default_private_access uid instance RESOURCE_OBJECT
  end.

(** ** Specification of a decision

    [applies g]: [g] is an active grant of the company whose subject and resource
    match the request.  The dominant grants are the applicable ones of greatest
    specificity; they decide, in this order: a blocking deny refuses, a sufficient
    allow grants, an insufficient allow refuses, otherwise the bucket kind decides. *)
Section spec.
Context (t : datetime) (d : db) (p : principal) (b : bucket).
Context (path : option string) (object_id : option uuid).

Definition applies (g : grant) : Prop :=
(∃ i, db_grants d !! i = Some g) ∧ g_company_id g = b_company_id b ∧
grant_active t g = true ∧ subject_matches g p = true ∧
resource_matches_grant d g b path object_id = true.
Definition dominant (g : grant) : Prop :=
applies g ∧
∀ g', applies g' → score_leb (grant_specificity d g') (grant_specificity d g) = true.
Definition access_spec (required : permission) : Prop :=
p_company_id p = Some (b_company_id b) ∧
(∀ g, dominant g → g_effect g = DENY → deny_blocks (g_permission g) required = false) ∧
((∃ g, dominant g ∧ g_effect g = ALLOW ∧ permission_at_least (g_permission g) required = true) ∨
 ((∀ g, dominant g → g_effect g = DENY) ∧ kind_default_allows p b required = true)).
End spec.

(** ** Lemmas *)
Lemma score_leb_spec a b : score_leb a b = true ↔ a.1 < b.1 ∨ (a.1 = b.1 ∧ a.2 ≤ b.2).
Proof.
  unfold score_leb. rewrite orb_true_iff, andb_true_iff, Z.ltb_lt, Z.eqb_eq, Z.leb_le. done.
Qed.
Lemma score_leb_antisym a b : score_leb a b = true → score_leb b a = true → a = b.
Proof. destruct a, b. rewrite !score_leb_spec. simpl. intros. f_equal; lia. Qed.
Lemma score_leb_trans a b c : score_leb a b = true → score_leb b c = true → score_leb a c = true.
Proof. rewrite !score_leb_spec. lia. Qed.
Lemma score_leb_refl a : score_leb a a = true.
Proof. rewrite score_leb_spec. lia. Qed.
Lemma score_max_cases a b :
  (score_max a b = a ∨ score_max a b = b) ∧
  score_leb a (score_max a b) = true ∧ score_leb b (score_max a b) = true.
Proof.
  unfold score_max. destruct (score_leb b a) eqn:Hb.
  - split_and!; [by left|apply score_leb_refl|done].
  - split_and!; [by right| |apply score_leb_refl].
    apply Bool.not_true_iff_false in Hb. rewrite score_leb_spec in *. lia.
Qed.
Lemma best_score_spec l s :
  best_score s l ∈ s :: l ∧ ∀ x, x ∈ s :: l → score_leb x (best_score s l) = true.
Proof.
  revert s. induction l as [|y l IH]; intros s; simpl.
  - split; [by left|]. intros x Hx. apply list_elem_of_singleton in Hx as ->. apply score_leb_refl.
  - destruct (IH (score_max s y)) as [Hin Hmax].
    destruct (score_max_cases s y) as (Hc & Hs & Hy).
    split.
    + apply elem_of_cons in Hin as [Hin|Hin]; [|set_solver]. rewrite Hin. set_solver.
    + intros x Hx. pose proof (Hmax (score_max s y) ltac:(by left)) as Hm.
      rewrite !elem_of_cons in Hx. destruct Hx as [->|[->|Hx]].
      * by eapply score_leb_trans.
      * by eapply score_leb_trans.
      * apply Hmax. by right.
Qed.

Lemma elem_of_matching_grants t d p b path oid g :
  g ∈ matching_grants t d (b_company_id b) p b path oid ↔ applies t d p b path oid g.
Proof.
  unfold matching_grants, active_grants, applies.
  rewrite !list_elem_of_filter, elem_of_rows. naive_solver.
Qed.

Lemma existsb_elem {A} (P : A → bool) l : existsb P l = true ↔ ∃ x, x ∈ l ∧ P x = true.
Proof. rewrite existsb_exists. by setoid_rewrite list_elem_of_In. Qed.

Lemma decide_top_spec top required fallback :
  decide_top top required fallback = true ↔
    (∀ g, g ∈ top → g_effect g = DENY → deny_blocks (g_permission g) required = false) ∧
    ((∃ g, g ∈ top ∧ g_effect g = ALLOW ∧ permission_at_least (g_permission g) required = true) ∨
     ((∀ g, g ∈ top → g_effect g = DENY) ∧ fallback = true)).
Proof.
  unfold decide_top.
  destruct (existsb (λ g, (g_effect g == DENY) && _) top) eqn:Hdeny.
  { apply existsb_elem in Hdeny as (g & Hg & Hb).
    apply andb_true_iff in Hb as [He Hb]. apply bool_decide_eq_true in He.
    split; [done|]. intros [Hall _]. rewrite (Hall g Hg He) in Hb. done. }
  assert (Hno : ∀ g, g ∈ top → g_effect g = DENY → deny_blocks (g_permission g) required = false).
  { intros g Hg He. apply existsb_false_Forall in Hdeny. rewrite Forall_forall in Hdeny.
    specialize (Hdeny g Hg). simpl in Hdeny. by rewrite bool_decide_true in Hdeny. }
  destruct (existsb (λ g, (g_effect g == ALLOW) && _) top) eqn:Hallow.
  { apply existsb_elem in Hallow as (g & Hg & Hb).
    apply andb_true_iff in Hb as [He Hb]. apply bool_decide_eq_true in He. naive_solver. }
  apply existsb_false_Forall in Hallow. rewrite Forall_forall in Hallow.
  destruct (existsb (λ g, g_effect g == ALLOW) top) eqn:Hsaw.
  - apply existsb_elem in Hsaw as (g & Hg & He). apply bool_decide_eq_true in He.
    split; [done|]. intros [_ [(g' & Hg' & He' & Hp)|[Hd _]]].
    + specialize (Hallow g' Hg'). simpl in Hallow. rewrite bool_decide_true, Hp in Hallow; done.
    + rewrite (Hd g Hg) in He. done.
  - apply existsb_false_Forall in Hsaw. rewrite Forall_forall in Hsaw.
    split; [intros ->; split; [done|right; split; [|done]]|].
    + intros g Hg. specialize (Hsaw g Hg). simpl in Hsaw. apply bool_decide_eq_false in Hsaw.
      by destruct (g_effect g).
    + intros [_ [(g' & Hg' & He' & _)|[_ Hf]]]; [|done].
      specialize (Hsaw g' Hg'). simpl in Hsaw. by rewrite bool_decide_true in Hsaw.
Qed.

Lemma elem_of_top t d p b path oid g0 gs g :
  matching_grants t d (b_company_id b) p b path oid = g0 :: gs →
  g ∈ filter (λ g', grant_specificity d g' =
        best_score (grant_specificity d g0) (grant_specificity d <$> gs)) (g0 :: gs) ↔
  dominant t d p b path oid g.
Proof.
  intros Hm. destruct (best_score_spec (grant_specificity d <$> gs) (grant_specificity d g0))
    as [Hin Hmax].
  set (best := best_score _ _) in *.
  rewrite <- fmap_cons in Hin, Hmax. rewrite list_elem_of_filter. unfold dominant.
  setoid_rewrite <- elem_of_matching_grants. rewrite Hm. split.
  - intros [Hb Hg]. split; [done|]. intros g' Hg'. rewrite Hb. apply Hmax.
    by apply list_elem_of_fmap_2.
  - intros [Hg Hdom]. split; [|done]. apply list_elem_of_fmap in Hin as (g' & Hbest & Hg').
    apply score_leb_antisym.
    + apply Hmax. by apply list_elem_of_fmap_2.
    + rewrite Hbest. by apply Hdom.
Qed.

Lemma evaluate_access_spec t d p b path oid write admin :
  evaluate_access t d p b path oid write admin = true ↔
  access_spec t d p b path oid (required_permission write admin).
Proof.
  unfold evaluate_access, access_spec.
  destruct (p_company_id p) as [cid|]; [|naive_solver].
  destruct (bool_decide_reflect (b_company_id b = cid)) as [<-|Hne]; simpl; [|naive_solver].
  destruct (matching_grants t d (b_company_id b) p b path oid) as [|g0 gs] eqn:Hm.
  - assert (Hnone : ∀ g, ¬ dominant t d p b path oid g).
    { intros g [Ha _]. apply elem_of_matching_grants in Ha. rewrite Hm in Ha. set_solver. }
    naive_solver.
  - rewrite decide_top_spec. setoid_rewrite (elem_of_top t d p b path oid g0 gs); [|done..].
    naive_solver.
Qed.

(** *** Programs that read access *)
Lemma wp_true {A} (m : prog A) w : wp m (λ _ _, True) (λ _ _, True) w.
Proof. unfold wp. by destruct (m w) as [[]]. Qed.

Lemma wp_assert_can_access_path p b path oid write admin w (Q : unit → world → Prop) R :
  (can_access_path (w_now w) (w_db w) p b path oid write admin = true → Q tt w) →
  (can_access_path (w_now w) (w_db w) p b path oid write admin = false →
     R (StorageError 403 "path_access_denied") w) →
  wp (assert_can_access_path p b path oid write admin) Q R w.
Proof.
  intros HQ HR. unfold assert_can_access_path, now, get_db. wp_steps.
  apply wp_if; intros Hc; wp_step; auto.
Qed.
Lemma wp_assert_can_access_bucket p b write admin w (Q : unit → world → Prop) R :
  (can_access_bucket (w_now w) (w_db w) p b write admin = true → Q tt w) →
  (can_access_bucket (w_now w) (w_db w) p b write admin = false →
     R (StorageError 403 "bucket_access_denied") w) →
  wp (assert_can_access_bucket p b write admin) Q R w.
Proof.
  intros HQ HR. unfold assert_can_access_bucket, now, get_db. wp_steps.
  apply wp_if; intros Hc; wp_step; auto.
Qed.

Lemma find_object_Some d bid name o :
  find_object d bid name = Some o →
  o_bucket_id o = bid ∧ o_name o = name ∧ ∃ i, db_objects d !! i = Some o.
Proof.
  intros Hf. apply row_find_Some in Hf as [Hp Hex].
  apply andb_true_iff in Hp as [H1 H2]. rewrite bool_decide_eq_true in H1, H2. done.
Qed.
Lemma find_bucket_Some d cid name b :
  find_bucket d cid name = Some b →
  b_company_id b = cid ∧ b_name b = name ∧ ∃ i, db_buckets d !! i = Some b.
Proof.
  intros Hf. apply row_find_Some in Hf as [Hp Hex].
  apply andb_true_iff in Hp as [H1 H2]. rewrite bool_decide_eq_true in H1, H2. done.
Qed.

Lemma wp_get_accessible_bucket `{Receivers} p name write admin w :
  wp (get_accessible_bucket p name write admin)
    (λ b w', p_company_id p = Some (b_company_id b) ∧ b_name b = name ∧
             (∃ i, db_buckets (w_db w') !! i = Some b) ∧
             can_access_bucket (w_now w') (w_db w') p b write admin = true)
    (λ _ _, True) w.
Proof.
  unfold get_accessible_bucket, require_company_id. wp_steps.
  destruct (p_company_id p) as [cid|]; [|by wp_step]. wp_steps.
  eapply wp_mono; [apply wp_true| |done]. intros b0 w1 _. unfold get_db. wp_steps.
  destruct (find_bucket (w_db w1) cid name) as [b|] eqn:Hb; [|by wp_step].
  apply find_bucket_Some in Hb as (<- & Hn & Hex). wp_steps.
  apply wp_assert_can_access_bucket; [|done]. intros Hc. by wp_step.
Qed.

Lemma wp_get_accessible_object `{Receivers} p bucket_name path write admin w :
  wp (get_accessible_object p bucket_name path write admin)
    (λ bo w', p_company_id p = Some (b_company_id bo.1) ∧ b_name bo.1 = bucket_name ∧
       safe_object_path path = inr (o_name bo.2) ∧ o_bucket_id bo.2 = b_id bo.1 ∧
       (∃ i, db_buckets (w_db w') !! i = Some bo.1) ∧
       (∃ i, db_objects (w_db w') !! i = Some bo.2) ∧
       can_access_bucket (w_now w') (w_db w') p bo.1 write admin = true ∧
       can_access_path (w_now w') (w_db w') p bo.1 (o_name bo.2) (Some (o_id bo.2)) write admin
         = true)
    (λ _ _, True) w.
Proof.
  unfold get_accessible_object. wp_steps.
  eapply wp_mono; [apply wp_get_accessible_bucket| |done].
  intros b w1 (Hco & Hn & Hex & Hacc). unfold lift_sum, get_db. wp_steps.
  destruct (safe_object_path path) as [e|name] eqn:Hsp; [by wp_step|]. wp_steps.
  destruct (find_object (w_db w1) (b_id b) name) as [o|] eqn:Ho; [|by wp_step].
  apply find_object_Some in Ho as (Hob & <- & Hoex). wp_steps.
  apply wp_assert_can_access_path; [|done]. intros Hc. by wp_step.
Qed.

(** *** What the access checks leave alone

    Reaching a bucket may create or repair the company's bucket and fire the bucket
    hook; the checks themselves only read. *)
Record setup_stable (I : world → Prop) : Prop := SetupStable {
  ss_bucket w i b : I w → I (set_db (set_buckets (insert i b)) w);
  ss_uuid w : I w → I (uuid4 w).2;
  ss_quiet w w' : quiet w w' → I w → I w' }.

Lemma preserves_assert_can_access_path I p b path oid write admin :
  preserves I (assert_can_access_path p b path oid write admin).
Proof. unfold assert_can_access_path, now, get_db. solve_preserves. Qed.
Lemma preserves_assert_can_access_bucket I p b write admin :
  preserves I (assert_can_access_bucket p b write admin).
Proof. unfold assert_can_access_bucket, now, get_db. solve_preserves. Qed.
Lemma preserves_require_company_id I p : preserves I (require_company_id p).
Proof. unfold require_company_id. solve_preserves. Qed.
Lemma preserves_assert_can_open I cid bn path : preserves I (assert_can_open_to_company cid bn path).
Proof. unfold assert_can_open_to_company, now, get_db. solve_preserves. Qed.
#[export] Hint Resolve preserves_assert_can_access_path preserves_assert_can_access_bucket
  preserves_require_company_id preserves_assert_can_open : preserve.

Section setup.
Context `{Receivers, !ReceiverLaws} (I : world → Prop) (HI : setup_stable I).

Lemma preserves_bucket_created b r p : preserves I (bucket_created b r p).
Proof.
  apply preserves_wp. intros w Hw. eapply wp_mono; [apply bucket_created_law| |done].
  intros u w1 Hq. by apply (ss_quiet I HI w).
Qed.
Lemma preserves_insert_bucket i b : preserves I (modify_db (set_buckets (insert i b))).
Proof. intros w Hw. by apply (ss_bucket I HI). Qed.
Lemma preserves_uuid4 : preserves I uuid4.
Proof. intros w Hw. by apply (ss_uuid I HI). Qed.
Lemma preserves_ensure_company_bucket cid r p : preserves I (ensure_company_bucket cid r p).
Proof.
  unfold ensure_company_bucket, get_db, now. pose proof preserves_uuid4.
  pose proof preserves_insert_bucket. pose proof preserves_bucket_created.
  apply preserves_bind; [solve_preserves|intros d]. apply preserves_bind.
  - destruct (find_bucket d cid COMPANY_BUCKET_NAME); solve_preserves.
  - intros b. solve_preserves.
Qed.
Lemma preserves_get_accessible_bucket p name write admin :
  preserves I (get_accessible_bucket p name write admin).
Proof.
  unfold get_accessible_bucket, get_db. pose proof preserves_ensure_company_bucket.
  solve_preserves.
Qed.
Lemma preserves_get_accessible_object p bucket_name path write admin :
  preserves I (get_accessible_object p bucket_name path write admin).
Proof.
  unfold get_accessible_object, lift_sum, get_db. pose proof preserves_get_accessible_bucket.
  solve_preserves.
Qed.
End setup.

(** The state in which an access check runs: the access rules, the paths, the clock
    and the blobs are those of the state before. *)
Record same_rules (w w' : world) : Prop := SameRules {
  sr_grants : db_grants (w_db w') = db_grants (w_db w);
  sr_objects : erase_metadata <$> db_objects (w_db w') = erase_metadata <$> db_objects (w_db w);
  sr_now : w_now w' = w_now w;
  sr_blobs : w_blobs w' = w_blobs w }.
Lemma same_rules_stable w : setup_stable (same_rules w).
Proof.
  split.
  - intros w1 i b []. by split.
  - intros w1 []. by split.
  - intros w1 w2 [[] ? ? _] []. split; congruence.
Qed.

(** *** Specificity *)
Lemma split_char_length a s : length (split_char a s) = S (count_char a s).
Proof.
  induction s as [|c s IH]; [done|]. simpl. case_bool_decide as Hc.
  - simpl. by rewrite IH.
  - pose proof (split_char_nonempty a s). destruct (split_char a s); [done|]. simpl in *. lia.
Qed.
Lemma count_char_length a s : (count_char a s ≤ String.length s)%nat.
Proof. induction s as [|c s IH]; simpl; [lia|]. case_bool_decide; lia. Qed.
Lemma count_char_lstrip a p s : (count_char a (lstrip_while p s) ≤ count_char a s)%nat.
Proof.
  induction s as [|c s IH]; simpl; [lia|]. destruct (p c); simpl; case_bool_decide; lia.
Qed.
Lemma count_char_rstrip a p s : (count_char a (rstrip_while p s) ≤ count_char a s)%nat.
Proof.
  induction s as [|c s IH]; [simpl; lia|]. rewrite rstrip_while_cons.
  destruct (_ && p c); simpl; case_bool_decide; simpl in *; lia.
Qed.
Lemma count_char_strip a p s : (count_char a (strip_while p s) ≤ count_char a s)%nat.
Proof.
  unfold strip_while. etrans; [apply count_char_rstrip|apply count_char_lstrip].
Qed.
Lemma count_char_app a s t : count_char a (s +:+ t) = (count_char a s + count_char a t)%nat.
Proof.
  induction s as [|c s IH]; [done|]. rewrite str_app_cons. simpl.
  case_bool_decide; rewrite IH; lia.
Qed.
Lemma count_char_none a s : has_char a s = false → count_char a s = O.
Proof.
  induction s as [|c s IH]; [done|]. rewrite has_char_cons, orb_false_iff, bool_decide_eq_false.
  intros [Hc Hs]. simpl. rewrite bool_decide_false by done. by apply IH.
Qed.
(** A canonical path of [n] segments has at least [2n - 1] characters. *)
Lemma canonical_count path :
  canonical_path path → (2 * count_char "/" path + 1 ≤ String.length path)%nat.
Proof.
  intros (segs & Hne & Hok & ->). induction Hok as [|s l Hs Hl IH]; [done|].
  destruct Hs as (Hs & _ & _ & Hslash & _).
  destruct l as [|s' l].
  - simpl. rewrite count_char_none by done. destruct s; [done|simpl; lia].
  - rewrite join_char_cons by done. rewrite count_char_app, str_length_app.
    rewrite (count_char_none _ s) by done.
    change (count_char "/" (String "/" (join_char "/" (s' :: l))))
      with (S (count_char "/" (join_char "/" (s' :: l)))).
    change (String.length (String "/" (join_char "/" (s' :: l))))
      with (S (String.length (join_char "/" (s' :: l)))).
    specialize (IH ltac:(done)). destruct s as [|c s]; [done|].
    change (String.length (String c s)) with (S (String.length s)). lia.
Qed.

(** The folder a folder grant stands for. *)
Definition grant_folder (d : db) (g : grant) : string :=
  normalize_path (Some (folder_path_from_placeholder (grant_object_name d g))).

Lemma folder_matches_cases prefix path :
  folder_matches prefix path = true →
  let np := normalize_path (Some prefix) in let p := normalize_path (Some path) in
  np = "" ∨ p = np ∨ ∃ rest, p = np +:+ String "/" rest.
Proof.
  unfold folder_matches, truthy. simpl. case_bool_decide as He; simpl; [by left|].
  rewrite orb_true_iff, bool_decide_eq_true, startswith_spec.
  intros [H|[t Ht]]; right; [by left|]. right. exists t. rewrite Ht. by rewrite str_app_assoc.
Qed.
Lemma folder_matches_count prefix path :
  folder_matches prefix path = true →
  (count_char "/" (normalize_path (Some prefix)) ≤ count_char "/" path)%nat.
Proof.
  intros Hm. assert (Hn : (count_char "/" (normalize_path (Some path)) ≤ count_char "/" path)%nat).
  { unfold normalize_path, strip_char, strip. simpl.
    etrans; [apply count_char_strip|apply count_char_strip]. }
  apply folder_matches_cases in Hm as [->|[Hp|[rest Hp]]]; [simpl; lia| |];
    rewrite Hp in Hn; [done|]. rewrite count_char_app in Hn. lia.
Qed.
Lemma resource_matches_folder d g b path oid :
  g_resource_type g = RESOURCE_FOLDER → resource_matches_grant d g b (Some path) oid = true →
  g_object_id g ≠ None ∧
  folder_matches (folder_path_from_placeholder (grant_object_name d g))
    (normalize_path (Some path)) = true.
Proof.
  intros Ht. unfold resource_matches_grant. rewrite Ht.
  destruct (negb _); [done|]. by case_bool_decide.
Qed.
Lemma folder_specificity d g :
  g_resource_type g = RESOURCE_FOLDER → g_object_id g ≠ None →
  (grant_specificity d g).1 = 100 + folder_depth (folder_path_from_placeholder (grant_object_name d g)).
Proof. intros Ht Ho. unfold grant_specificity. rewrite Ht. by rewrite bool_decide_false. Qed.
Lemma object_specificity d g :
  g_resource_type g = RESOURCE_OBJECT → (grant_specificity d g).1 = 1000.
Proof. intros Ht. unfold grant_specificity. by rewrite Ht. Qed.
Lemma bucket_specificity d g :
  g_resource_type g = RESOURCE_BUCKET → (grant_specificity d g).1 = 1.
Proof. intros Ht. unfold grant_specificity. by rewrite Ht. Qed.
Lemma folder_depth_le f : 0 ≤ folder_depth f ≤ Z.of_nat (S (count_char "/" (normalize_path (Some f)))).
Proof. unfold folder_depth. destruct (truthy f); [rewrite split_char_length|]. all: lia. Qed.
Lemma normalize_path_idem_count path :
  (count_char "/" (normalize_path (Some path)) ≤ count_char "/" path)%nat.
Proof.
  unfold normalize_path, strip_char, strip. simpl.
  etrans; [apply count_char_strip|apply count_char_strip].
Qed.

(** Of two folders that both contain a path, the longer one is inside the other. *)
Lemma prefix_longer_count a s1 s2 t1 t2 :
  s1 +:+ String a t1 = s2 +:+ String a t2 → (String.length s1 < String.length s2)%nat →
  (count_char a s1 < count_char a s2)%nat.
Proof.
  revert s2. induction s1 as [|c s1 IH]; intros [|c2 s2] He Hl; simpl in Hl; [lia| |lia|].
  - rewrite str_app_empty_l, str_app_cons in He. injection He as -> He.
    simpl. rewrite bool_decide_true by done. lia.
  - rewrite !str_app_cons in He. injection He as -> He.
    specialize (IH s2 He ltac:(lia)). simpl. case_bool_decide; lia.
Qed.

(** *** Creating grants *)
Lemma create_grant_row_eq cid bid oid st sid rt perm eff by_ exp notes w :
  bool_decide (rt = RESOURCE_BUCKET ↔ oid = None) = true →
  create_grant_row cid bid oid st sid rt perm eff by_ exp notes w =
    let i := w_next_uuid w in let t := w_now w in
    let g := Grant i cid bid oid st sid rt perm eff by_ t t exp notes in
    (inr g, World (set_grants (insert i g) (w_db w)) (w_blobs w) t (N.succ i)).
Proof. intros Hc. unfold create_grant_row, bind, uuid4, now, gets. simpl. by rewrite Hc. Qed.

Definition fresh_grants (w : world) : Prop :=
  ∀ i g, db_grants (w_db w) !! i = Some g → (i < w_next_uuid w)%N.

(** A step that only adds to or changes the grants, and draws UUIDs. *)
Definition grants_step (w w' : world) : Prop :=
  (∃ f, w_db w' = set_grants f (w_db w)) ∧ w_blobs w' = w_blobs w ∧ w_now w' = w_now w ∧
  (w_next_uuid w ≤ w_next_uuid w')%N.
#[export] Instance grants_step_preorder : PreOrder grants_step.
Proof.
  split.
  - intros w. split_and!; [|done|done|lia]. exists id. by destruct w as [[]].
  - intros w1 w2 w3 ([f Ef] & ? & ? & ?) ([g Eg] & ? & ? & ?).
    split_and!; [|congruence|congruence|lia]. exists (g ∘ f). by rewrite Eg, Ef.
Qed.
Lemma wp_create_grant_row cid bid oid st sid rt perm eff by_ exp notes w0 w R :
  bool_decide (rt = RESOURCE_BUCKET ↔ oid = None) = true → grants_step w0 w →
  wp (create_grant_row cid bid oid st sid rt perm eff by_ exp notes)
    (λ _ w', grants_step w0 w') R w.
Proof.
  intros Hc Hw. unfold wp. rewrite create_grant_row_eq by done. cbv zeta beta iota. etrans; [exact Hw|].
  split_and!; simpl; [by eexists|done|done|lia].
Qed.
(** [apply_default_private_on_create] never fails and touches only the grants. *)
Lemma wp_apply_default_private o uid is_folder w :
  wp (apply_default_private_on_create o uid is_folder) (λ _ w', grants_step w w')
    (λ _ _, False) w.
Proof.
  assert (Hret : wp (ret []) (λ (_ : list grant) w', grants_step w w') (λ (_ : exn) _, False) w)
    by (apply wp_ret; done).
  assert (Hens : ∀ u rt, wp (ensure_default_private_access u o rt)
            (λ _ w', grants_step w w') (λ _ _, False) w).
  { intros u rt. unfold ensure_default_private_access.
    destruct (bool_decide_reflect (rt = RESOURCE_BUCKET)) as [|Hrt]; [done|].
    apply wp_if; intros _; [done|]. unfold now, get_db. wp_steps.
    apply wp_if; intros _; [done|]. apply wp_option.
    - intros [pfx gs] _. apply wp_if; intros _; [|done].
      apply (wp_map_m_inv (grants_step w)); [done|]. intros src w' _ Hw'.
      by apply wp_create_grant_row.
    - intros _. assert (Hok : bool_decide (rt = RESOURCE_BUCKET ↔ Some (o_id o) = None) = true).
      { apply bool_decide_eq_true. by split. }
      apply wp_bind. eapply wp_mono; [apply (wp_create_grant_row _ _ _ _ _ _ _ _ _ _ _ w _ (λ _ _, False)); [exact Hok|first [assumption|reflexivity]]| |done].
      intros deny w1 H1. apply wp_bind.
      eapply wp_mono; [apply (wp_create_grant_row _ _ _ _ _ _ _ _ _ _ _ w _ (λ _ _, False)); [exact Hok|first [assumption|reflexivity]]| |done].
      intros allow w2 H2. by apply wp_ret. }
  unfold apply_default_private_on_create. destruct uid as [uid|]; [|done].
  apply wp_if; intros _; [done|]. apply wp_if; intros _; [|apply Hens].
  apply wp_if; intros _; [done|apply Hens].
Qed.

(** The two automatic grants of a new file. *)
Definition auto_deny (i : uuid) (t : datetime) (o : sobject) (uid : Z) : grant :=
  Grant i (o_company_id o) (o_bucket_id o) (Some (o_id o)) SUBJECT_COMPANY
    (str_int (o_company_id o)) RESOURCE_OBJECT READ DENY (Some uid) t t None AUTO_PRIVATE_NOTES.
Definition auto_allow (i : uuid) (t : datetime) (o : sobject) (uid : Z) : grant :=
  Grant i (o_company_id o) (o_bucket_id o) (Some (o_id o)) SUBJECT_USER (str_int uid)
    RESOURCE_OBJECT ADMIN ALLOW (Some uid) t t None AUTO_PRIVATE_NOTES.

(** On a plain file with no grants on it or above it, [apply_default_private_on_create]
    adds exactly these two. *)
Lemma apply_default_private_new_file w o b uid :
  db_buckets (w_db w) !! o_bucket_id o = Some b → b_id b = o_bucket_id o →
  normalize_path (Some (o_name o)) ≠ "" →
  normalize_path (Some (o_name o)) ≠ FOLDER_PLACEHOLDER_NAME →
  endswith ("/" +:+ FOLDER_PLACEHOLDER_NAME) (normalize_path (Some (o_name o))) = false →
  nearest_ancestor_folder_grants (w_now w) (w_db w) (o_company_id o) (b_name b)
    (normalize_path (Some (o_name o))) = None →
  (∀ g, g ∈ active_grants (w_now w) (w_db w) (o_company_id o) →
     resource_matches_grant (w_db w) g b (Some (o_name o)) (Some (o_id o)) = true →
     g_resource_type g = RESOURCE_BUCKET) →
  let i := w_next_uuid w in
  let g1 := auto_deny i (w_now w) o uid in
  let g2 := auto_allow (N.succ i) (w_now w) o uid in
  apply_default_private_on_create o (Some uid) false w =
    (inr [g1; g2],
     World (set_grants (λ m, insert (N.succ i) g2 (insert i g1 m)) (w_db w)) (w_blobs w)
       (w_now w) (N.succ (N.succ i))).
Proof.
  intros Hb Hbid Hne Hnp Hend Hnear Hgr i g1 g2.
  unfold apply_default_private_on_create, truthy.
  rewrite (bool_decide_false _ Hne), (bool_decide_false _ Hnp), Hend. cbn [negb orb].
  unfold ensure_default_private_access, truthy.
  rewrite !(bool_decide_false (RESOURCE_OBJECT = _)) by done.
  rewrite (bool_decide_false _ Hne). cbn [negb].
  unfold bind at 1, now at 1, gets at 1. unfold bind at 1, get_db at 1, gets at 1.
  assert (Hex : resource_grants_exist (w_now w) (w_db w) o RESOURCE_OBJECT = false).
  { unfold resource_grants_exist. apply existsb_false_Forall, Forall_forall. intros g Hg.
    apply Bool.not_true_iff_false. rewrite !andb_true_iff, !bool_decide_eq_true.
    intros [[Ht Ho] Hbk]. specialize (Hgr g Hg). rewrite Ht in Hgr.
    assert (RESOURCE_OBJECT = RESOURCE_BUCKET); [|done]. apply Hgr.
    unfold resource_matches_grant. rewrite Ht, Ho, Hbid, Hbk.
    rewrite bool_decide_true by done. simpl. by rewrite bool_decide_true. }
  rewrite Hex. unfold obj_bucket. rewrite Hb.
  change (from_option b_name "" (Some b)) with (b_name b). rewrite Hnear.
  unfold bind at 1. rewrite create_grant_row_eq by done.
  cbv zeta. unfold bind at 1. rewrite create_grant_row_eq by done. done.
Qed.

Lemma elem_of_active_grants t d cid g :
  g ∈ active_grants t d cid ↔
  (∃ i, db_grants d !! i = Some g) ∧ g_company_id g = cid ∧ grant_active t g = true.
Proof. unfold active_grants. rewrite list_elem_of_filter, elem_of_rows. naive_solver. Qed.

(** ** Properties *)

(** C12: [evaluate_access] refines the specification: the answer is yes exactly
    when the caller is in the bucket's company, no grant of greatest specificity
    denies the permission, and either one of them allows it or none of them is an
    allow and the bucket kind's default allows it.  In particular the answer does
    not depend on the order in which the database returns the grants. *)
Theorem evaluate_access_refines_spec : ∀ t d p b path oid write admin,
  evaluate_access t d p b path oid write admin = true ↔
  access_spec t d p b path oid (required_permission write admin).
Proof. intros. apply evaluate_access_spec. Qed.

(** Permissions are cumulative: a caller with admin on a path may write it, and
    a caller who may write it may read it. *)
Theorem access_monotone : ∀ t d p b path oid,
  (evaluate_access t d p b path oid false true = true →
   evaluate_access t d p b path oid true false = true) ∧
  (evaluate_access t d p b path oid true false = true →
   evaluate_access t d p b path oid false false = true).
Proof.
  intros t d p b path oid. rewrite !evaluate_access_spec. unfold access_spec.
  change (required_permission false true) with ADMIN.
  change (required_permission true false) with WRITE.
  change (required_permission false false) with READ.
  assert (Hdef : p_company_id p = Some (b_company_id b) → ∀ r r', PERMISSION_RANK r' ≤ PERMISSION_RANK r →
            kind_default_allows p b r = true → kind_default_allows p b r' = true).
  { intros Hp r r'. unfold kind_default_allows. rewrite Hp, bool_decide_true by done. simpl.
    by destruct (b_kind b), r, r'. }
  split; intros (Hp & Hdeny & Hor); split_and!; try done.
  1, 3: intros g Hg He; specialize (Hdeny g Hg He); unfold deny_blocks in *;
        by destruct (g_permission g).
  - destruct Hor as [(g & Hg & He & Ha)|[Hall Hk]].
    + left. exists g. split_and!; [done..|]. unfold permission_at_least in *.
      by destruct (g_permission g).
    + right. split; [done|]. by apply (Hdef Hp ADMIN).
  - destruct Hor as [(g & Hg & He & Ha)|[Hall Hk]].
    + left. exists g. split_and!; [done..|]. unfold permission_at_least in *.
      by destruct (g_permission g).
    + right. split; [done|]. by apply (Hdef Hp WRITE).
Qed.

(** Tenant isolation.  When [get_accessible_object] returns a bucket and an
    object, the bucket belongs to the caller's company, the object lies in that
    bucket under the canonical form of the requested path, both are stored rows,
    and both access checks hold in the state that is returned. *)
Theorem get_accessible_object_sound `{Receivers} : ∀ p bucket_name path write admin w b o w',
  get_accessible_object p bucket_name path write admin w = (inr (b, o), w') →
  p_company_id p = Some (b_company_id b) ∧ b_name b = bucket_name ∧
  safe_object_path path = inr (o_name o) ∧ o_bucket_id o = b_id b ∧
  (∃ i, db_buckets (w_db w') !! i = Some b) ∧ (∃ i, db_objects (w_db w') !! i = Some o) ∧
  can_access_bucket (w_now w') (w_db w') p b write admin = true ∧
  can_access_path (w_now w') (w_db w') p b (o_name o) (Some (o_id o)) write admin = true.
Proof.
  intros p bucket_name path write admin w b o w' Hrun.
  pose proof (wp_get_accessible_object p bucket_name path write admin w) as Hwp.
  unfold wp in Hwp. rewrite Hrun in Hwp. naive_solver.
Qed.

(** The specificity scores order resources as documented on every stored path
    (canonical, at most 1024 characters, the column's width): a matching object
    grant outranks a matching folder or bucket grant, a folder grant outranks a
    bucket grant, and the grant of a deeper folder outranks that of a shallower
    one, whatever their subjects.  Folder scores never reach the object score. *)
Theorem specificity_order : ∀ d b path oid g g',
  canonical_path path → (String.length path ≤ 1024)%nat →
  resource_matches_grant d g b (Some path) oid = true →
  resource_matches_grant d g' b (Some path) oid = true →
  (g_resource_type g = RESOURCE_OBJECT → g_resource_type g' ≠ RESOURCE_OBJECT →
     (grant_specificity d g').1 < (grant_specificity d g).1) ∧
  (g_resource_type g = RESOURCE_FOLDER → g_resource_type g' = RESOURCE_BUCKET →
     (grant_specificity d g').1 < (grant_specificity d g).1) ∧
  (g_resource_type g = RESOURCE_FOLDER → g_resource_type g' = RESOURCE_FOLDER →
     grant_folder d g' ≠ "" →
     (String.length (grant_folder d g') < String.length (grant_folder d g))%nat →
     (grant_specificity d g').1 < (grant_specificity d g).1).
Proof.
  intros d b path oid g g' Hcan Hlen Hm Hm'.
  pose proof (canonical_count path Hcan) as Hcount.
  split_and!.
  - intros Ht Ht'. rewrite (object_specificity d g) by done.
    assert (g_resource_type g' = RESOURCE_BUCKET ∨ g_resource_type g' = RESOURCE_FOLDER)
      as [E|E] by (destruct (g_resource_type g'); auto || done).
    + rewrite bucket_specificity by done. lia.
    + apply resource_matches_folder in Hm' as [Hne Hf]; [|done].
      rewrite folder_specificity by done. apply folder_matches_count in Hf.
      pose proof (normalize_path_idem_count path).
      pose proof (folder_depth_le (folder_path_from_placeholder (grant_object_name d g'))). lia.
  - intros Ht Ht'. apply resource_matches_folder in Hm as [Hne Hf]; [|done].
    rewrite (folder_specificity d g), (bucket_specificity d g') by done.
    pose proof (folder_depth_le (folder_path_from_placeholder (grant_object_name d g))). lia.
  - intros Ht Ht' Hn' Hl. apply resource_matches_folder in Hm as [Hne Hf]; [|done].
    apply resource_matches_folder in Hm' as [Hne' Hf']; [|done].
    rewrite !folder_specificity by done. unfold grant_folder in *.
    apply folder_matches_cases in Hf, Hf'. simpl in Hf, Hf'.
    set (p := normalize_path (Some (normalize_path (Some path)))) in *.
    set (f := folder_path_from_placeholder (grant_object_name d g)) in *.
    set (f' := folder_path_from_placeholder (grant_object_name d g')) in *.
    assert (Htr : ∀ x, normalize_path (Some x) ≠ "" → folder_depth x =
               Z.of_nat (S (count_char "/" (normalize_path (Some x))))).
    { intros x Hx. unfold folder_depth, truthy. case_bool_decide as Hb; [by subst x|].
      by rewrite split_char_length. }
    assert (Hn : normalize_path (Some f) ≠ "").
    { intros He. rewrite He in Hl. simpl in Hl. lia. }
    rewrite !Htr by done.
    destruct Hf' as [?|[Hp'|[r' Hp']]]; [done| |].
    + exfalso. destruct Hf as [?|[Hp|[r Hp]]]; [done| |]; rewrite <- Hp' in Hl.
      * rewrite <- Hp in Hl. lia.
      * rewrite Hp, str_length_app in Hl. lia.
    + enough (count_char "/" (normalize_path (Some f')) <
              count_char "/" (normalize_path (Some f)))%nat by lia.
      destruct Hf as [?|[Hp|[r Hp]]]; [done| |].
      * rewrite <- Hp, Hp', count_char_app. simpl. lia.
      * apply (prefix_longer_count "/" (normalize_path (Some f')) (normalize_path (Some f)) r' r);
          [by rewrite <- Hp', <- Hp|done].
Qed.

Lemma two_fresh_grants w g1 g2 g :
  fresh_grants w →
  (∃ j, (<[N.succ (w_next_uuid w) := g2]> (<[w_next_uuid w := g1]> (db_grants (w_db w)))) !! j = Some g)
  ↔ g = g1 ∨ g = g2 ∨ ∃ j, db_grants (w_db w) !! j = Some g.
Proof.
  intros Hfresh. split.
  - intros [j Hj]. rewrite !lookup_insert in Hj. repeat case_decide; naive_solver.
  - intros [->|[->|[j Hj]]].
    + exists (w_next_uuid w). by rewrite lookup_insert_ne, lookup_insert_eq by lia.
    + exists (N.succ (w_next_uuid w)). by rewrite lookup_insert_eq.
    + exists j. pose proof (Hfresh j g Hj). by rewrite !lookup_insert_ne by lia.
Qed.

(** C38: new files are private to their creator.  When no folder above the file has
    grants and no grant on the file exists yet (bucket grants may), creating the
    automatic grants succeeds, and from then on a member of the company is
    granted any permission on the file, read, write or admin, exactly when it is
    the creator: owners and staff are shut out like everyone else. *)
Theorem new_file_private_to_creator : ∀ w o b uid,
  db_buckets (w_db w) !! o_bucket_id o = Some b → b_id b = o_bucket_id o →
  b_company_id b = o_company_id o →
  normalize_path (Some (o_name o)) ≠ "" →
  normalize_path (Some (o_name o)) ≠ FOLDER_PLACEHOLDER_NAME →
  endswith ("/" +:+ FOLDER_PLACEHOLDER_NAME) (normalize_path (Some (o_name o))) = false →
  nearest_ancestor_folder_grants (w_now w) (w_db w) (o_company_id o) (b_name b)
    (normalize_path (Some (o_name o))) = None →
  (∀ g, g ∈ active_grants (w_now w) (w_db w) (o_company_id o) →
     resource_matches_grant (w_db w) g b (Some (o_name o)) (Some (o_id o)) = true →
     g_resource_type g = RESOURCE_BUCKET) →
  fresh_grants w →
  ∃ gs w', apply_default_private_on_create o (Some uid) false w = (inr gs, w') ∧
  ∀ p write admin, p_company_id p = Some (o_company_id o) →
    can_access_path (w_now w') (w_db w') p b (o_name o) (Some (o_id o)) write admin =
      bool_decide (p_user_id p = uid).
Proof.
  intros w o b uid Hb Hbid Hco Hne Hnp Hend Hnear Hgr Hfresh.
  eexists _, _. split; [by apply (apply_default_private_new_file w o b uid)|].
  intros p write admin Hp. simpl.
  set (i := w_next_uuid w). set (t := w_now w).
  set (g1 := auto_deny i t o uid). set (g2 := auto_allow (N.succ i) t o uid).
  set (d' := set_grants _ _).
  assert (Hl : ∀ g, (∃ j, db_grants d' !! j = Some g) ↔
             g = g1 ∨ g = g2 ∨ ∃ j, db_grants (w_db w) !! j = Some g)
    by (intros g; by apply two_fresh_grants).
  assert (Hold : ∀ g, (∃ j, db_grants (w_db w) !! j = Some g) →
            applies t d' p b (Some (o_name o)) (Some (o_id o)) g →
            grant_specificity d' g = (1, subject_score (g_subject_type g))).
  { intros g Hg (_ & Hc & Ha & _ & Hm).
    assert (Ht : g_resource_type g = RESOURCE_BUCKET).
    { apply Hgr; [|exact Hm]. apply elem_of_active_grants. rewrite <- Hco. done. }
    unfold grant_specificity. by rewrite Ht. }
  assert (Hm : ∀ g, g_bucket_id g = o_bucket_id o → g_object_id g = Some (o_id o) →
            g_resource_type g = RESOURCE_OBJECT →
            resource_matches_grant d' g b (Some (o_name o)) (Some (o_id o)) = true).
  { intros g H1 H2 H3. unfold resource_matches_grant. rewrite H1, H2, H3, Hbid.
    rewrite bool_decide_true by done. simpl. by rewrite bool_decide_true. }
  assert (H1 : applies t d' p b (Some (o_name o)) (Some (o_id o)) g1).
  { split_and!; [apply Hl; auto|done|done| |by apply Hm].
    unfold subject_matches. rewrite Hp. simpl. by apply bool_decide_eq_true. }
  assert (H2 : applies t d' p b (Some (o_name o)) (Some (o_id o)) g2 ↔ p_user_id p = uid).
  { unfold applies, subject_matches. rewrite Hp. simpl. rewrite bool_decide_eq_true. split.
    - intros (_ & _ & _ & Hs & _). symmetry. by apply str_int_inj.
    - intros <-. split_and!; [apply Hl; auto|done..|by apply Hm]. }
  apply Bool.eq_iff_eq_true. rewrite bool_decide_eq_true. unfold can_access_path.
  rewrite evaluate_access_spec. unfold access_spec. split.
  - intros (_ & Hdeny & _). destruct (decide (p_user_id p = uid)) as [|Hu]; [done|exfalso].
    assert (Hd1 : dominant t d' p b (Some (o_name o)) (Some (o_id o)) g1).
    { split; [done|]. intros g' Hg'. pose proof Hg' as (Hex & _). apply Hl in Hex.
      destruct Hex as [->|[->|Hex]]; [done|by apply H2 in Hg'|].
      rewrite (Hold g' Hex Hg'). done. }
    specialize (Hdeny g1 Hd1 eq_refl). unfold deny_blocks in Hdeny. simpl in Hdeny.
    apply Z.leb_gt in Hdeny. by destruct (required_permission write admin).
  - intros Hu. assert (Hd2 : ∀ g, dominant t d' p b (Some (o_name o)) (Some (o_id o)) g → g = g2).
    { intros g [Hg Hdom]. pose proof Hg as (Hex & _). apply Hl in Hex.
      assert (H2' := proj2 H2 Hu). specialize (Hdom g2 H2').
      destruct Hex as [->|[->|Hex]]; [done|done|]. by rewrite (Hold g Hex Hg) in Hdom. }
    split_and!; [by rewrite Hco|intros g ->%Hd2; done|]. left. exists g2.
    split_and!; [|done|by destruct (required_permission write admin)].
    split; [by apply H2|]. intros g' Hg'. pose proof Hg' as (Hex & _). apply Hl in Hex.
    destruct Hex as [->|[->|Hex]]; [done|done|]. by rewrite (Hold g' Hex Hg').
Qed.

(** ** The properties on a concrete company *)
Module AccessDemo.
Definition bucket7 : bucket :=
  Bucket 1 COMPANY_BUCKET_NAME 7 KIND_COMPANY false None [] None "" 0 0.
Definition plan : sobject :=
  StorageObject 2 1 "docs/plan.txt" 7 (Some 5) 3 "" "text/plain" [] "k" 1 0 0 None.
Definition world7 : world :=
  World (set_objects (λ _, {[ 2%N := plan ]}) (set_buckets (λ _, {[ 1%N := bucket7 ]}) empty_db))
    ∅ 100 10.
Definition member : principal := StoragePrincipal 5 (Some 7) "m@x.io" "m" false false false.
Definition object_grant : grant :=
  Grant 3 7 1 (Some 2%N) SUBJECT_USER "5" RESOURCE_OBJECT READ ALLOW None 0 0 None "".
Definition bucket_grant : grant :=
  Grant 4 7 1 None SUBJECT_COMPANY "7" RESOURCE_BUCKET READ ALLOW None 0 0 None "".
End AccessDemo.
Import AccessDemo.

Lemma get_accessible_object_sound_witness :
  can_access_path (w_now world7) (w_db world7) member bucket7 (o_name plan) (Some (o_id plan))
    true false = true.
Proof.
  apply (@get_accessible_object_sound silent member COMPANY_BUCKET_NAME "/docs//plan.txt" true false
           world7 bucket7 plan world7). vm_compute. reflexivity.
Defined.

Lemma specificity_order_witness :
  (grant_specificity (w_db world7) bucket_grant).1 < (grant_specificity (w_db world7) object_grant).1.
Proof.
  refine (proj1 (specificity_order (w_db world7) bucket7 "docs/plan.txt" (Some 2%N) object_grant
    bucket_grant _ _ _ _) _ _).
  - apply (safe_object_path_canonical "docs/plan.txt"). vm_compute. reflexivity.
  - vm_compute. lia.
  - vm_compute. reflexivity.
  - vm_compute. reflexivity.
  - reflexivity.
  - discriminate.
Defined.

Lemma new_file_private_to_creator_witness :
  ∃ gs w', apply_default_private_on_create plan (Some 5) false world7 = (inr gs, w') ∧
  ∀ p write admin, p_company_id p = Some 7 →
    can_access_path (w_now w') (w_db w') p bucket7 (o_name plan) (Some (o_id plan)) write admin =
      bool_decide (p_user_id p = 5).
Proof.
  apply (new_file_private_to_creator world7 plan bucket7 5); try by vm_compute.
  - intros g Hg. vm_compute in Hg. inversion Hg.
Defined.
