(* ===== verification/Quotas.v ===== *)
(** * Quotas: company totals and optional per-user caps ([apps/storage/quotas.py]) *)
From S2P Require Import Prelude PyStr Models Signals.

(** The settings the storage services read ([config/settings.py]). *)
Class Settings := {
  DEFAULT_COMPANY_QUOTA_BYTES : Z;
  DEFAULT_USER_QUOTA_BYTES : Z;
  MAX_UPLOAD_BYTES : Z;
  STORAGE_KEY_PREFIX : string;
  SIGNED_URL_EXPIRES : Z;
  STORAGE_BACKEND : string }.

(** Small settings for concrete runs: a quota of 100 bytes, uploads up to 50. *)
Definition demo_settings : Settings := {|
  DEFAULT_COMPANY_QUOTA_BYTES := 100; DEFAULT_USER_QUOTA_BYTES := 0; MAX_UPLOAD_BYTES := 50;
  STORAGE_KEY_PREFIX := "objects"; SIGNED_URL_EXPIRES := 3600; STORAGE_BACKEND := "s3" |}.

Section quotas.
Context `{Settings}.

Definition default_quota : company_quota :=
CompanyQuota DEFAULT_COMPANY_QUOTA_BYTES 0
  (if DEFAULT_USER_QUOTA_BYTES == 0 then None else Some DEFAULT_USER_QUOTA_BYTES).

Definition get_or_create_company_quota (company_id : Z) : prog company_quota :=
d <- get_db ;;
match db_company_quotas d !! company_id with
| Some q => ret q
| None => modify_db (set_company_quotas (insert company_id default_quota)) ;;; ret default_quota
end.

(** The limit that applies to a user, and the user's row when there is one. *)
Definition resolve_user_limit (d : db) (company_id : Z) (q : company_quota)
  (user_id : option Z) : option Z * option user_quota :=
match user_id with
| None => (None, None)
| Some uid =>
    match db_user_quotas d !! (company_id, uid) with
    | Some u => (Some (uq_max_bytes u), Some u)
    | None =>
        match cq_max_bytes_per_user q with
        | None => (None, None)
        | Some dflt => if dflt <=? 0 then (None, None) else (Some dflt, None)
        end
    end
end.

Record quota_snapshot := QuotaSnapshot {
qs_company_max : Z; qs_company_used : Z; qs_user_max : option Z; qs_user_used : Z }.
Definition snapshot (company_id : Z) (user_id : option Z) : prog quota_snapshot :=
company <- get_or_create_company_quota company_id ;;
d <- get_db ;;
let '(user_max, user_row) := resolve_user_limit d company_id company user_id in
ret (QuotaSnapshot (cq_max_bytes company) (cq_used_bytes company) user_max
       (from_option uq_used_bytes 0 user_row)).

Definition assert_can_store (company_id : Z) (user_id : option Z)
  (additional_bytes replacing_bytes : Z) : prog unit :=
if additional_bytes <? 0 then raise ValueError
else
  let delta := additional_bytes - replacing_bytes in
  if delta <=? 0 then ret tt
  else
    company <- get_or_create_company_quota company_id ;;
    if (cq_max_bytes company != 0) && (cq_max_bytes company <? cq_used_bytes company + delta)
    then raise (QuotaExceeded "company_quota_exceeded")
    else
      d <- get_db ;;
      let '(user_max, user_row) := resolve_user_limit d company_id company user_id in
      match user_max with
      | Some m =>
          if (m != 0) && (m <? from_option uq_used_bytes 0 user_row + delta)
          then raise (QuotaExceeded "user_quota_exceeded") else ret tt
      | None => ret tt
      end.

(** [update(used_bytes=F('used_bytes') + delta)] and the clamp at zero that follows. *)
Definition add_company_used (company_id delta : Z) (d : db) : db :=
set_company_quotas
  (alter (λ q, CompanyQuota (cq_max_bytes q) (Z.max 0 (cq_used_bytes q + delta))
                 (cq_max_bytes_per_user q)) company_id) d.
Definition add_user_used (company_id user_id delta : Z) (d : db) : db :=
set_user_quotas
  (alter (λ u, UserQuota (uq_max_bytes u) (Z.max 0 (uq_used_bytes u + delta)))
     (company_id, user_id)) d.

Definition apply_usage_delta (company_id : Z) (user_id : option Z) (delta : Z) : prog unit :=
atomic (
  if delta == 0 then ret tt
  else
    company <- get_or_create_company_quota company_id ;;
    modify_db (add_company_used company_id delta) ;;;
    match user_id with
    | None => ret tt
    | Some uid =>
        d <- get_db ;;
        let '(user_max, user_row) := resolve_user_limit d company_id company user_id in
        match user_row, user_max with
        | None, None => ret tt
        | None, Some m =>
            modify_db (set_user_quotas (insert (company_id, uid) (UserQuota m 0))) ;;;
            modify_db (add_user_used company_id uid delta)
        | Some _, _ => modify_db (add_user_used company_id uid delta)
        end
    end).

(** [QuotaView.get]: the bytes left for the company and for the caller. *)
Definition quota_view (company_id : Z) (user_id : option Z) : prog (Z * option Z) :=
snap <- snapshot company_id user_id ;;
ret (Z.max 0 (qs_company_max snap - qs_company_used snap),
     (λ m, Z.max 0 (m - qs_user_used snap)) <$> qs_user_max snap).
End quotas.

(** ** What the counters mean *)
Definition company_used (d : db) (company_id : Z) : Z :=
  from_option cq_used_bytes 0 (db_company_quotas d !! company_id).
Definition user_used (d : db) (company_id user_id : Z) : Z :=
  from_option uq_used_bytes 0 (db_user_quotas d !! (company_id, user_id)).
(** The quota that binds a company: its row, or the default a first use creates. *)
Definition quota_of `{Settings} (d : db) (company_id : Z) : company_quota :=
  default default_quota (db_company_quotas d !! company_id).

(** The bytes stored for a company: the sum of the sizes of its objects. *)
Definition stored_bytes (d : db) (company_id : Z) : Z :=
  row_sum (λ o, if o_company_id o == company_id then o_size o else 0) (db_objects d).

(** Two databases that differ at most in the quota tables. *)
Record quota_frame (d d' : db) : Prop := QuotaFrame {
  qf_buckets : db_buckets d' = db_buckets d;
  qf_objects : db_objects d' = db_objects d;
  qf_grants : db_grants d' = db_grants d;
  qf_links : db_links d' = db_links d }.

(** A check of the quotas changes nothing but the creation of a default row. *)
Record quota_step `{Settings} (w w' : world) : Prop := QuotaStep {
  qs_frame : quota_frame (w_db w) (w_db w');
  qs_blobs : w_blobs w' = w_blobs w;
  qs_now : w_now w' = w_now w;
  qs_uuid : w_next_uuid w' = w_next_uuid w;
  qs_used cid : company_used (w_db w') cid = company_used (w_db w) cid;
  qs_quota cid : quota_of (w_db w') cid = quota_of (w_db w) cid;
  qs_users : db_user_quotas (w_db w') = db_user_quotas (w_db w) }.

(** What [assert_can_store] promises, for [delta] bytes more than before. *)
Definition company_fits `{Settings} (d : db) (cid delta : Z) : Prop :=
  let q := quota_of d cid in
  cq_max_bytes q = 0 ∨ company_used d cid + delta ≤ cq_max_bytes q.
Definition user_limit `{Settings} (d : db) (cid : Z) (uid : option Z) : option Z :=
  (resolve_user_limit d cid (quota_of d cid) uid).1.
Definition user_fits `{Settings} (d : db) (cid : Z) (uid : option Z) (delta : Z) : Prop :=
  match uid, user_limit d cid uid with
  | Some u, Some m => m = 0 ∨ user_used d cid u + delta ≤ m
  | _, _ => True
  end.

(** ** Lemmas *)
Section lemmas.
Context `{Settings}.

Lemma quota_frame_refl d : quota_frame d d.
Proof. by split. Qed.

Lemma wp_get_or_create_company_quota cid w Q (R : exn → world → Prop) :
(∀ w', quota_frame (w_db w) (w_db w') → w_blobs w' = w_blobs w → w_now w' = w_now w →
   w_next_uuid w' = w_next_uuid w →
   (∀ c, company_used (w_db w') c = company_used (w_db w) c) →
   (∀ c, quota_of (w_db w') c = quota_of (w_db w) c) →
   db_user_quotas (w_db w') = db_user_quotas (w_db w) →
   db_company_quotas (w_db w') !! cid = Some (quota_of (w_db w) cid) →
   Q (quota_of (w_db w) cid) w') →
wp (get_or_create_company_quota cid) Q R w.
Proof.
intros HQ. unfold get_or_create_company_quota, get_db, modify_db. wp_steps.
unfold quota_of in *. destruct (db_company_quotas (w_db w) !! cid) as [q|] eqn:Hq.
- wp_step. apply HQ; try done.
- wp_steps. apply HQ; try done; simpl; [| |by rewrite lookup_insert_eq].
  + intros c. unfold company_used. simpl. rewrite lookup_insert.
    case_decide as Hc; [|done]. subst c. by rewrite Hq.
  + intros c. rewrite lookup_insert. case_decide as Hc; [|done]. subst c. by rewrite Hq.
Qed.

(** The effect of [apply_usage_delta] on the company counters. *)
Lemma wp_apply_usage_delta cid uid delta w (R : exn → world → Prop) Q :
(∀ w', quota_frame (w_db w) (w_db w') → w_blobs w' = w_blobs w → w_now w' = w_now w →
   w_next_uuid w' = w_next_uuid w →
   (∀ c, c ≠ cid → company_used (w_db w') c = company_used (w_db w) c) →
   (delta = 0 → company_used (w_db w') cid = company_used (w_db w) cid) →
   (delta ≠ 0 → company_used (w_db w') cid = Z.max 0 (company_used (w_db w) cid + delta)) →
   (∀ c, cq_max_bytes (quota_of (w_db w') c) = cq_max_bytes (quota_of (w_db w) c)) →
   Q tt w') →
wp (apply_usage_delta cid uid delta) Q R w.
Proof.
intros HQ. unfold apply_usage_delta. apply wp_atomic. unfold wp at 1.
destruct (bool_decide_reflect (delta = 0)) as [Hz|Hz].
{ simpl. apply HQ; try done; by split. }
apply wp_bind, wp_get_or_create_company_quota.
intros w1 Hf1 Hb1 Hn1 Hu1 Hused1 Hq1 Huq1 Hrow1. unfold modify_db. wp_steps.
assert (Hdone : ∀ w2, w_db w2 = add_company_used cid delta (w_db w1) ∨
          (∃ f, w_db w2 = set_user_quotas f (add_company_used cid delta (w_db w1))) →
          w_blobs w2 = w_blobs w → w_now w2 = w_now w → w_next_uuid w2 = w_next_uuid w →
          Q tt w2).
{ intros w2 Hd2 Hb2 Hn2 Hu2.
  assert (Hquotas : db_company_quotas (w_db w2) =
            db_company_quotas (add_company_used cid delta (w_db w1))).
  { by destruct Hd2 as [->|[f ->]]. }
  apply HQ; try done.
  - destruct Hf1. by destruct Hd2 as [->|[f ->]]; split.
  - intros c Hc. unfold company_used. rewrite Hquotas. simpl.
    rewrite lookup_alter_ne by done. apply Hused1.
  - intros _. unfold company_used at 1. rewrite Hquotas. simpl.
    rewrite lookup_alter_eq, Hrow1. simpl. specialize (Hused1 cid).
    unfold company_used at 1 in Hused1. rewrite Hrow1 in Hused1. simpl in Hused1. by rewrite Hused1.
  - intros c. unfold quota_of at 1. rewrite Hquotas. simpl. rewrite lookup_alter.
    case_decide as Hc; [|by rewrite <- Hq1].
    subst c. by rewrite Hrow1. }
destruct uid as [uid|]; [|wp_step; apply Hdone; simpl; auto].
unfold get_db. wp_steps.
destruct (resolve_user_limit _ _ _ _) as [[m|] [u|]]; wp_steps; apply Hdone; simpl; eauto.
right. by eexists (λ x, alter _ _ (insert _ _ x)).
Qed.

Lemma quota_step_refl w : quota_step w w.
Proof. by split. Qed.

Lemma wp_get_company_quota_step cid w Q (R : exn → world → Prop) :
(∀ w', quota_step w w' → Q (quota_of (w_db w) cid) w') →
wp (get_or_create_company_quota cid) Q R w.
Proof. intros HQ. apply wp_get_or_create_company_quota. intros. apply HQ. by split. Qed.

Lemma quota_of_used d cid : cq_used_bytes (quota_of d cid) = company_used d cid.
Proof. unfold quota_of, company_used. by destruct (db_company_quotas d !! cid). Qed.
Lemma resolve_user_limit_used d d' cid q uid u :
db_user_quotas d' = db_user_quotas d → uid = Some u →
from_option uq_used_bytes 0 (resolve_user_limit d' cid q uid).2 = user_used d cid u.
Proof.
intros E ->. unfold resolve_user_limit, user_used. rewrite E.
destruct (db_user_quotas d !! (cid, u)); [done|]. simpl.
destruct (cq_max_bytes_per_user q); [|done]. by destruct (_ <=? 0).
Qed.
Lemma resolve_user_limit_ext d d' cid q uid :
db_user_quotas d' = db_user_quotas d →
resolve_user_limit d' cid q uid = resolve_user_limit d cid q uid.
Proof. intros E. unfold resolve_user_limit. by rewrite E. Qed.

(** [assert_can_store] on every branch. *)
Lemma wp_assert_can_store cid uid add repl w (Q : unit → world → Prop) (R : exn → world → Prop) :
let d := w_db w in let delta := add - repl in
(∀ w', quota_step w w' → 0 ≤ add →
   delta ≤ 0 ∨ (company_fits d cid delta ∧ user_fits d cid uid delta) → Q tt w') →
(∀ e w', quota_step w w' →
   (add < 0 ∧ e = ValueError) ∨
   (0 ≤ add ∧ 0 < delta ∧ ¬ company_fits d cid delta ∧ e = QuotaExceeded "company_quota_exceeded") ∨
   (0 ≤ add ∧ 0 < delta ∧ company_fits d cid delta ∧ ¬ user_fits d cid uid delta ∧
      e = QuotaExceeded "user_quota_exceeded") → R e w') →
wp (assert_can_store cid uid add repl) Q R w.
Proof.
intros d delta HQ HR. subst d. unfold assert_can_store.
apply wp_if; intros Hadd.
{ apply wp_raise, HR; [apply quota_step_refl|]. left. split; [lia|done]. }
apply Z.ltb_ge in Hadd. fold delta. cbv zeta.
apply wp_if; intros Hd.
{ apply wp_ret, HQ; [apply quota_step_refl|done|]. left. lia. }
apply Z.leb_gt in Hd. apply wp_bind, wp_get_company_quota_step. intros w' Hw'.
rewrite quota_of_used.
apply wp_if; intros Hc.
{ apply andb_true_iff in Hc as [H0 H1]. apply negb_true_iff, bool_decide_eq_false in H0.
  apply Z.ltb_lt in H1. apply wp_raise, HR; [done|]. right. left.
  split_and!; try done. unfold company_fits. lia. }
assert (Hcf : company_fits (w_db w) cid delta).
{ unfold company_fits. apply andb_false_iff in Hc as [H0|H1]; [left|right].
  - apply negb_false_iff, bool_decide_eq_true in H0. done.
  - apply Z.ltb_ge in H1. done. }
unfold get_db. wp_steps. rewrite (resolve_user_limit_ext (w_db w)) by apply Hw'.
destruct (resolve_user_limit (w_db w) cid (quota_of (w_db w) cid) uid) as [ul row] eqn:Hr.
assert (Hul : user_limit (w_db w) cid uid = ul) by (unfold user_limit; by rewrite Hr).
assert (Hrow : ∀ u, uid = Some u → from_option uq_used_bytes 0 row = user_used (w_db w) cid u).
{ intros u Hu. rewrite <- (resolve_user_limit_used (w_db w) (w_db w) cid (quota_of (w_db w) cid) uid u) by done.
  by rewrite Hr. }
destruct ul as [m|].
- assert (∃ u, uid = Some u) as [u ->].
  { destruct uid as [u|]; [by exists u|]. by simpl in Hr. }
  rewrite (Hrow u) by done.
  apply wp_if; intros Hm.
  + apply andb_true_iff in Hm as [H0 H1]. apply negb_true_iff, bool_decide_eq_false in H0.
    apply Z.ltb_lt in H1. apply wp_raise, HR; [done|]. right. right.
    split_and!; try done. unfold user_fits. rewrite Hul. lia.
  + apply wp_ret, HQ; [done|done|]. right. split; [done|]. unfold user_fits. rewrite Hul.
    apply andb_false_iff in Hm as [H0|H1]; [left|right].
    * apply negb_false_iff, bool_decide_eq_true in H0. done.
    * apply Z.ltb_ge in H1. done.
- apply wp_ret, HQ; [done|done|]. right. split; [done|].
  unfold user_fits. destruct uid; [by rewrite Hul|done].
Qed.
Lemma stored_bytes_frame d d' cid :
db_objects d' = db_objects d → stored_bytes d' cid = stored_bytes d cid.
Proof. unfold stored_bytes. by intros ->. Qed.
End lemmas.

(** ** Properties *)

(** The quota check accepts exactly what fits.  An upload of [add] bytes that
    replaces [repl] bytes is accepted exactly when it does not grow the store, or
    the growth fits in the company's quota and in the caller's own limit (no quota
    when the maximum is 0); otherwise the exception names the quota that is
    exceeded, the company's first.  The counters do not change. *)
Theorem assert_can_store_correct `{Settings} : ∀ cid uid add repl w,
  let d := w_db w in let delta := add - repl in
  let '(r, w') := assert_can_store cid uid add repl w in
  quota_step w w' ∧
  match r with
  | inr _ => 0 ≤ add ∧ (delta ≤ 0 ∨ (company_fits d cid delta ∧ user_fits d cid uid delta))
  | inl ValueError => add < 0
  | inl (QuotaExceeded code) => 0 ≤ add ∧ 0 < delta ∧
      ((code = "company_quota_exceeded" ∧ ¬ company_fits d cid delta) ∨
       (code = "user_quota_exceeded" ∧ company_fits d cid delta ∧ ¬ user_fits d cid uid delta))
  | inl _ => False
  end.
Proof.
  intros cid uid add repl w d delta.
  assert (Hwp : wp (assert_can_store cid uid add repl)
    (λ _ w', quota_step w w' ∧ 0 ≤ add ∧
       (delta ≤ 0 ∨ (company_fits d cid delta ∧ user_fits d cid uid delta)))
    (λ e w', quota_step w w' ∧
       match e with
       | ValueError => add < 0
       | QuotaExceeded code => 0 ≤ add ∧ 0 < delta ∧
           ((code = "company_quota_exceeded" ∧ ¬ company_fits d cid delta) ∨
            (code = "user_quota_exceeded" ∧ company_fits d cid delta ∧ ¬ user_fits d cid uid delta))
       | _ => False
       end) w).
  { apply wp_assert_can_store; [done|]. intros e w' Hs Hcases. split; [done|].
    destruct Hcases as [[? ->]|[(? & ? & ? & ->)|(? & ? & ? & ? & ->)]]; naive_solver. }
  unfold wp in Hwp. destruct (assert_can_store cid uid add repl w) as [[e|[]] w']; naive_solver.
Qed.
