(* ===== verification/Backends.v ===== *)
(** * Backends: the blob store ([apps/storage/backends.py])

    [default_storage] is a Django storage class chosen by the settings: it is a
    parameter.  [save] may store under another name than the one asked for and
    returns the name it used; this is what Django's file-system storage does when
    the name is taken.  The S3 class is configured with [file_overwrite]. *)
From stdpp Require Import stringmap.
From S2P Require Import Prelude PyStr Models Mime Signals Quotas.

(** [default_storage].  An [inl] is an exception, with the error code that botocore
    attaches to it (empty otherwise). *)
Class Backend := {
  storage_save : string → bytes → gmap string bytes → (string + string) * gmap string bytes;
  storage_open : string → gmap string bytes → string + bytes;
  storage_delete : string → gmap string bytes → option string * gmap string bytes;
  storage_has : string → gmap string bytes → string + bool;
  (** [hashlib.md5(data).hexdigest()] *)
  md5_hexdigest : bytes → string }.

(** The directory of a key: its segments but the last. *)
Definition key_dir (k : string) : list string := removelast (split_char "/" k).

(** The documented behaviour of a storage class: a successful [save] stores the data
    under the name it returns, which is the name asked for when that is free and
    otherwise either that name again, overwritten, or a free name in the same
    directory ([Storage.get_available_name]); failures destroy nothing. *)
Class BackendLaws `{Backend} := {
  save_ok k c m n m' : storage_save k c m = (inr n, m') →
    m' = <[n:=c]> m ∧ (m !! k = None → n = k) ∧
    (n ≠ k → m !! n = None ∧ key_dir n = key_dir k);
  save_err k c m e m' : storage_save k c m = (inl e, m') →
    m ⊆ m' ∧ ∀ k', k' ≠ k → m' !! k' = m !! k';
  open_ok k m c : storage_open k m = inr c → m !! k = Some c;
  delete_ok k m m' : storage_delete k m = (None, m') → m' = delete k m;
  delete_err k m e m' : storage_delete k m = (Some e, m') → m' = m;
  has_ok k m b : storage_has k m = inr b → b = bool_decide (is_Some (m !! k)) }.

(** A backend that overwrites, as S3 does with [file_overwrite]; Django's file-system
    storage, the default, does not. *)
Class Overwriting `{Backend} :=
  save_overwrites k c m n m' : storage_save k c m = (inr n, m') → n = k.

(** ** Text of a UUID: [str(uuid)], i.e. [%032x] with dashes *)
Definition hex_digit (n : N) : ascii :=
  ascii_of_N (if (n <? 10)%N then 48 + n else 87 + n).
Fixpoint hex_go (fuel : nat) (n : N) (acc : string) : string :=
  match fuel with
  | O => acc
  | S fuel' => if (n =? 0)%N then acc else hex_go fuel' (n / 16) (String (hex_digit (n mod 16)) acc)
  end.
Definition hex_N (n : N) : string := hex_go (N.to_nat (N.size n)) n "".
Fixpoint zeros (k : nat) : string := match k with O => "" | S k' => String "0" (zeros k') end.
Definition hex32 (n : N) : string := zeros (32 - String.length (hex_N n)) +:+ hex_N n.
Definition uuid_str (n : uuid) : string :=
  let h := hex32 n in
  str_take 8 h +:+ "-" +:+ str_take 4 (str_drop 8 h) +:+ "-" +:+ str_take 4 (str_drop 12 h)
    +:+ "-" +:+ str_take 4 (str_drop 16 h) +:+ "-" +:+ str_drop 20 h.

Section backends.
Context `{Settings, Backend}.

(** ** Keys *)
Definition build_storage_key (company_id : Z) (bucket_name object_name : string)
  (object_id : uuid) : string :=
let basename := str_or (posix_name object_name) "blob" in
join_char "/" (filter (λ p, truthy p = true)
  [STORAGE_KEY_PREFIX; str_int company_id; bucket_name; uuid_str object_id; basename]).

Definition content_etag (data : bytes) : string := md5_hexdigest data.
Definition is_s3_backend : bool := STORAGE_BACKEND == "s3".

(** ** Calls of the storage class *)
Definition default_storage_save (k : string) (c : bytes) : prog string := λ w,
match storage_save k c (w_blobs w) with
| (inl code, m) => (inl (BackendError code), set_blobs (λ _, m) w)
| (inr n, m) => (inr n, set_blobs (λ _, m) w)
end.
Definition default_storage_open (k : string) : prog bytes := λ w,
match storage_open k (w_blobs w) with
| inl code => (inl (BackendError code), w)
| inr c => (inr c, w)
end.
Definition storage_exists (k : string) : prog bool := λ w,
match storage_has k (w_blobs w) with
| inl code => (inl (BackendError code), w)
| inr b => (inr b, w)
end.
Definition default_storage_delete (k : string) : prog unit := λ w,
match storage_delete k (w_blobs w) with
| (Some code, m) => (inl (BackendError code), set_blobs (λ _, m) w)
| (None, m) => (inr tt, set_blobs (λ _, m) w)
end.

(** The pruning of empty directories that follows changes no blob: it is in [Prune]. *)
Definition delete_storage_key (k : string) : prog unit :=
here <- storage_exists k ;; when here (default_storage_delete k).

(** [services._blob_write_error] and [services._save_blob]: the name that [save]
  returns is dropped. *)
Definition blob_write_error (e : exn) : exn :=
let code := match e with BackendError c => c | _ => "" end in
if is_s3_backend && ((code == "NoSuchBucket") || (code == "404"))
then StorageError 502 "s3_bucket_missing"
else if is_s3_backend then StorageError 502 "s3_error"
else StorageError 500 "storage_write_failed".
Definition save_blob (k : string) (data : bytes) : prog unit :=
try_except (default_storage_save k data ;;; ret tt) (λ e, Some (raise (blob_write_error e))).
End backends.

(** ** Two storage classes that obey the laws

    [object_store] overwrites; [file_system] stores under a fresh name when the
    name is taken.  Both never fail. *)

(** The alternative names of [file_system] add digits to the last segment. *)
Lemma split_char_suffix a s t :
  has_char a t = false → removelast (split_char a (s +:+ t)) = removelast (split_char a s).
Proof.
  intros Ht. induction s as [|c s IH]; [by rewrite split_char_no_sep|].
  rewrite str_app_cons. cbn [split_char].
  pose proof (split_char_nonempty a s) as H1. pose proof (split_char_nonempty a (s +:+ t)) as H2.
  case_bool_decide as Hc.
  - change (removelast ("" :: split_char a (s +:+ t))) with
      (match split_char a (s +:+ t) with [] => [] | _ => "" :: removelast (split_char a (s +:+ t)) end).
    change (removelast ("" :: split_char a s)) with
      (match split_char a s with [] => [] | _ => "" :: removelast (split_char a s) end).
    rewrite IH. by destruct (split_char a s), (split_char a (s +:+ t)).
  - destruct (split_char a s) as [|x [|y l]], (split_char a (s +:+ t)) as [|x' [|y' l']];
      simpl in *; congruence.
Qed.
Lemma pretty_no_slash (n : N) : has_char "/" (pretty n) = false.
Proof.
  assert (Hgo : ∀ x s, has_char "/" s = false → has_char "/" (pretty_N_go x s) = false).
  { intros x. induction (N.lt_wf_0 x) as [x _ IH]; intros s Hs.
    destruct (decide (0 < x)%N) as [Hx|Hx].
    - rewrite pretty_N_go_step by done. apply IH; [by apply N.div_lt|].
      rewrite has_char_cons, Hs, orb_false_r. apply bool_decide_eq_false.
      unfold pretty_N_char. by repeat case_match.
    - assert (x = 0%N) as -> by lia. by rewrite pretty_N_go_0. }
  unfold pretty, pretty_N. case_decide; [done|]. by apply Hgo.
Qed.
Lemma fresh_string_suffix {A} k (m : gmap string A) :
  fresh_string k m = k ∨ ∃ n : N, fresh_string k m = k +:+ pretty n.
Proof.
  unfold fresh_string. destruct (m !! k) as [a|]; [right|by left].
  generalize 0%N (wf_guard 32 (fresh_string_R_wf k m) 0%N).
  fix FIX 2; intros n [?]; simpl; unfold fresh_string_go at 1; simpl.
  destruct (Some_dec (m !! _)) as [[??]|?]; [apply FIX|by exists n].
Qed.
Lemma fresh_string_dir {A} k (m : gmap string A) : key_dir (fresh_string k m) = key_dir k.
Proof.
  destruct (fresh_string_suffix k m) as [->|[n ->]]; [done|].
  apply split_char_suffix, pretty_no_slash.
Qed.

Section instances.
Context (md5 : bytes → string).

Definition store_open (k : string) (m : gmap string bytes) : string + bytes :=
from_option inr (inl "404") (m !! k).
Definition object_store : Backend := {|
storage_save k c m := (inr k, <[k:=c]> m);
storage_open := store_open;
storage_delete k m := (None, delete k m);
storage_has k m := inr (bool_decide (is_Some (m !! k)));
md5_hexdigest := md5 |}.
Definition file_system : Backend := {|
storage_save k c m := let n := fresh_string k m in (inr n, <[n:=c]> m);
storage_open := store_open;
storage_delete k m := (None, delete k m);
storage_has k m := inr (bool_decide (is_Some (m !! k)));
md5_hexdigest := md5 |}.

Lemma store_open_ok k m c : store_open k m = inr c → m !! k = Some c.
Proof. unfold store_open. destruct (m !! k); simpl; congruence. Qed.
#[export] Instance object_store_laws : @BackendLaws object_store.
Proof. split; simpl; intros; simplify_eq; [done|by apply store_open_ok|done..]. Qed.
#[export] Instance object_store_overwrites : @Overwriting object_store.
Proof. intros k c m n m'. simpl. congruence. Qed.
#[export] Instance file_system_laws : @BackendLaws file_system.
Proof.
split; simpl; intros; simplify_eq; [|by apply store_open_ok|done..].
split_and!; [done| |].
- intros Hk. unfold fresh_string. by rewrite Hk.
- intros _. split; [apply fresh_string_fresh|apply fresh_string_dir].
Qed.
End instances.

(** ** Lemmas *)

(** *** UUID text is injective and holds no slash *)
Definition digit_val (c : ascii) : N :=
  let k := N_of_ascii c in if (k <? 58)%N then (k - 48)%N else (k - 87)%N.
Fixpoint hex_val (v : N) (s : string) : N :=
  match s with EmptyString => v | String c s' => hex_val (v * 16 + digit_val c) s' end.

Lemma hex_digit_val n : (n < 16)%N → digit_val (hex_digit n) = n.
Proof.
  intros Hn. unfold digit_val, hex_digit. destruct (N.ltb_spec n 10); rewrite N_ascii_embedding by lia.
  - rewrite (proj2 (N.ltb_lt _ _)) by lia. lia.
  - rewrite (proj2 (N.ltb_ge _ _)) by lia. lia.
Qed.
Lemma hex_digit_no_slash n : (n < 16)%N → hex_digit n ≠ "/"%char.
Proof.
  intros Hn He. apply (f_equal N_of_ascii) in He. unfold hex_digit in He.
  rewrite N_ascii_embedding in He; destruct (N.ltb_spec n 10); simpl in He; lia.
Qed.
Lemma hex_go_val fuel n acc :
  (n < 2 ^ N.of_nat fuel)%N → hex_val 0 (hex_go fuel n acc) = hex_val n acc.
Proof.
  revert n acc. induction fuel as [|fuel IH]; intros n acc Hn; cbn [hex_go].
  - simpl in Hn. by assert (n = 0%N) as -> by lia.
  - destruct (N.eqb_spec n 0) as [->|Hz]; [done|]. rewrite IH.
    + simpl. rewrite hex_digit_val by (apply N.mod_lt; lia). f_equal.
      pose proof (N.div_mod n 16 ltac:(lia)). lia.
    + rewrite Nat2N.inj_succ, N.pow_succ_r' in Hn.
      apply N.Div0.div_lt_upper_bound. lia.
Qed.
Lemma hex_val_zeros k s : hex_val 0 (zeros k +:+ s) = hex_val 0 s.
Proof. induction k as [|k IH]; [done|]. exact IH. Qed.
Lemma hex32_inj m n : hex32 m = hex32 n → m = n.
Proof.
  intros He. apply (f_equal (hex_val 0)) in He. unfold hex32, hex_N in He.
  rewrite !hex_val_zeros, !hex_go_val in He by (rewrite N2Nat.id; apply N.size_gt). done.
Qed.
Lemma hex_go_no_slash fuel n acc :
  has_char "/" acc = false → has_char "/" (hex_go fuel n acc) = false.
Proof.
  revert n acc. induction fuel as [|fuel IH]; intros n acc Ha; cbn [hex_go]; [done|].
  destruct (n =? 0)%N; [done|]. apply IH. rewrite has_char_cons, Ha, orb_false_r.
  apply bool_decide_eq_false, hex_digit_no_slash, N.mod_lt. lia.
Qed.
Lemma hex32_no_slash n : has_char "/" (hex32 n) = false.
Proof.
  unfold hex32. rewrite has_char_app. apply orb_false_iff. split; [|by apply hex_go_no_slash].
  generalize (32 - String.length (hex_N n))%nat. intros k. induction k as [|k IH]; [done|].
  simpl. by rewrite has_char_cons, IH.
Qed.
Lemma hex32_length n : (32 ≤ String.length (hex32 n))%nat.
Proof.
  unfold hex32. rewrite str_length_app.
  assert (Hz : ∀ k, String.length (zeros k) = k) by (intros k; induction k; simpl; congruence).
  rewrite Hz. lia.
Qed.
Lemma str_drop_drop i j s : str_drop i (str_drop j s) = str_drop (j + i) s.
Proof.
  revert s. induction j as [|j IH]; intros s; [done|]. destruct s as [|c s]; [by destruct i|].
  simpl. apply IH.
Qed.
Lemma str_take_length k s : (k ≤ String.length s)%nat → String.length (str_take k s) = k.
Proof.
  revert s. induction k as [|k IH]; intros s Hk; [done|]. destruct s as [|c s]; simpl in *; [lia|].
  f_equal. apply IH. lia.
Qed.
Lemma str_drop_length k s : String.length (str_drop k s) = (String.length s - k)%nat.
Proof.
  revert s. induction k as [|k IH]; intros s; [simpl; lia|]. destruct s as [|c s]; [done|]. apply IH.
Qed.
Lemma str_app_inj_len s1 s2 t1 t2 :
  String.length s1 = String.length s2 → s1 +:+ t1 = s2 +:+ t2 → s1 = s2 ∧ t1 = t2.
Proof.
  revert s2. induction s1 as [|c s1 IH]; intros [|c2 s2] Hl He; try done.
  rewrite !str_app_cons in He. injection He as -> He. injection Hl as Hl.
  destruct (IH s2 Hl He) as [-> ->]. done.
Qed.
Lemma str_no_slash_take k s : has_char "/" s = false → has_char "/" (str_take k s) = false.
Proof. rewrite <- (str_take_drop k s) at 1. rewrite has_char_app. by intros [? _]%orb_false_iff. Qed.
Lemma str_no_slash_drop k s : has_char "/" s = false → has_char "/" (str_drop k s) = false.
Proof. rewrite <- (str_take_drop k s) at 1. rewrite has_char_app. by intros [_ ?]%orb_false_iff. Qed.

Lemma uuid_str_no_slash n : has_char "/" (uuid_str n) = false.
Proof.
  pose proof (hex32_no_slash n). unfold uuid_str. rewrite !has_char_app.
  repeat (rewrite (str_no_slash_take _ (str_drop _ _)) by (by apply str_no_slash_drop)).
  rewrite (str_no_slash_take _ (hex32 n)), str_no_slash_drop by done. done.
Qed.
Lemma uuid_str_inj m n : uuid_str m = uuid_str n → m = n.
Proof.
  intros He. apply hex32_inj. unfold uuid_str in He.
  pose proof (hex32_length m). pose proof (hex32_length n).
  assert (Hstep : ∀ k j s t x y, (k + j ≤ String.length s)%nat → (k + j ≤ String.length t)%nat →
            str_take k (str_drop j s) +:+ "-" +:+ x = str_take k (str_drop j t) +:+ "-" +:+ y →
            str_take k (str_drop j s) = str_take k (str_drop j t) ∧ x = y).
  { intros k j s t x y Hs Ht Hxy. apply str_app_inj_len in Hxy as [Htk Hxy].
    - split; [done|]. by apply str_app_inv_head in Hxy.
    - rewrite !str_take_length; rewrite ?str_drop_length; lia. }
  apply (Hstep 8%nat O) in He as [H1 He]; [|lia..].
  apply Hstep in He as [H2 He]; [|lia..].
  apply Hstep in He as [H3 He]; [|lia..].
  apply Hstep in He as [H4 He]; [|lia..].
  assert (Hsplit : ∀ h, h = str_take 8 (str_drop 0 h) +:+ str_take 4 (str_drop 8 h) +:+
            str_take 4 (str_drop 12 h) +:+ str_take 4 (str_drop 16 h) +:+ str_drop 20 h).
  { intros h. pose proof (str_take_drop 8 h) as E1.
    pose proof (str_take_drop 4 (str_drop 8 h)) as E2.
    pose proof (str_take_drop 4 (str_drop 12 h)) as E3.
    pose proof (str_take_drop 4 (str_drop 16 h)) as E4.
    rewrite str_drop_drop in E2, E3, E4. simpl (_ + _)%nat in *.
    rewrite E4, E3, E2. symmetry. exact E1. }
  rewrite (Hsplit (hex32 m)), (Hsplit (hex32 n)). by rewrite H1, H2, H3, H4, He.
Qed.

(** *** A storage key tells the object it was made for *)
Definition key_uuid (k : string) : string :=
  match rev (split_char "/" k) with _ :: u :: _ => u | _ => "" end.

Lemma key_uuid_dir k n : key_dir n = key_dir k → key_uuid n = key_uuid k.
Proof.
  assert (Hlast : ∀ s, key_uuid s = match rev (key_dir s) with u :: _ => u | [] => "" end).
  { intros s. unfold key_uuid, key_dir. pose proof (split_char_nonempty "/" s) as Hne.
    rewrite (app_removelast_last "" Hne) at 1. by rewrite rev_app_distr. }
  intros He. by rewrite !Hlast, He.
Qed.

Lemma last_in {A} (l : list A) d : l ≠ [] → List.last l d ∈ l.
Proof.
  induction l as [|x l IH]; [done|]. intros _. destruct l as [|y l]; [by left|].
  right. by apply IH.
Qed.
Lemma posix_name_no_slash p : has_char "/" (posix_name p) = false.
Proof.
  unfold posix_name. destruct (decide (posix_parts p = [])) as [->|Hp]; [done|].
  apply (last_in _ "") in Hp. unfold posix_parts in Hp at 2.
  apply list_elem_of_filter in Hp as [_ Hin].
  pose proof (split_char_segs "/" p) as Hs. rewrite Forall_forall in Hs. auto.
Qed.
Lemma split_join_last2 L u b :
  has_char "/" u = false → has_char "/" b = false →
  ∃ L', split_char "/" (join_char "/" (L ++ [u; b])) = L' ++ [u; b].
Proof.
  intros Hu Hb. induction L as [|x L [L' IH]].
  - exists []. simpl. by rewrite split_char_app_sep, split_char_no_sep by done.
  - simpl app. rewrite join_char_cons by (by destruct L). rewrite split_char_app, IH.
    exists (split_char "/" x ++ L'). by rewrite app_assoc.
Qed.
Lemma uuid_str_nonempty n : uuid_str n ≠ "".
Proof.
  intros He. apply (f_equal String.length) in He. unfold uuid_str in He.
  rewrite !str_length_app in He. simpl in He. lia.
Qed.
Lemma key_uuid_build `{Settings} cid bn name i : key_uuid (build_storage_key cid bn name i) = uuid_str i.
Proof.
  unfold build_storage_key. set (b := str_or (posix_name name) "blob").
  assert (Hb : b ≠ "" ∧ has_char "/" b = false).
  { unfold b, str_or, truthy. case_bool_decide; simpl; [done|]. split; [done|].
    apply posix_name_no_slash. }
  destruct Hb as [Hne Hb].
  change [STORAGE_KEY_PREFIX; str_int cid; bn; uuid_str i; b]
    with ([STORAGE_KEY_PREFIX; str_int cid; bn] ++ [uuid_str i; b]).
  rewrite filter_app.
  assert (Hk : filter (λ p, truthy p = true) [uuid_str i; b] = [uuid_str i; b]).
  { pose proof (uuid_str_nonempty i). unfold truthy.
    rewrite !filter_cons_True; [done|by rewrite bool_decide_false..]. }
  rewrite Hk. unfold key_uuid.
  edestruct (split_join_last2) as [L' ->]; [apply uuid_str_no_slash|exact Hb|].
  by rewrite rev_app_distr.
Qed.

(** *** Calls *)
Section wp.
Context `{Settings, Backend, !BackendLaws}.

(** The error a refused write turns into. *)
Definition save_failed (e : exn) : Prop :=
∃ k c m code m', storage_save k c m = (inl code, m') ∧ e = blob_write_error (BackendError code).

(** A write under a name may land elsewhere when the name is taken. *)
Lemma wp_save_blob k c w (Q : unit → world → Prop) R :
(∀ n, (w_blobs w !! k = None → n = k) → (Overwriting → n = k) →
   (n ≠ k → w_blobs w !! n = None ∧ key_uuid n = key_uuid k) →
   Q tt (set_blobs (λ _, <[n:=c]> (w_blobs w)) w)) →
(∀ e m', w_blobs w ⊆ m' → (∀ k', k' ≠ k → m' !! k' = w_blobs w !! k') →
   save_failed e → R e (set_blobs (λ _, m') w)) →
wp (save_blob k c) Q R w.
Proof.
intros HQ HR. unfold wp, save_blob, try_except, bind, default_storage_save.
destruct (storage_save k c (w_blobs w)) as [[e|n] m'] eqn:Hs.
- pose proof Hs as Hs'. apply save_err in Hs as [Hsub Hoff]. apply HR; [done..|].
  by eexists _, _, _, _, _.
- pose proof Hs as Hs'. apply save_ok in Hs as (-> & Hfree & Halt). simpl. apply HQ; [done| |].
  + intros Hov. exact (save_overwrites _ _ _ _ _ Hs').
  + intros Hne. destruct (Halt Hne). split; [done|]. by apply key_uuid_dir.
Qed.
(** A free name is the name used. *)
Lemma wp_save_blob_free k c w (Q : unit → world → Prop) R :
w_blobs w !! k = None →
Q tt (set_blobs (λ _, <[k:=c]> (w_blobs w)) w) →
(∀ e m', w_blobs w ⊆ m' → (∀ k', k' ≠ k → m' !! k' = w_blobs w !! k') →
   save_failed e → R e (set_blobs (λ _, m') w)) →
wp (save_blob k c) Q R w.
Proof. intros Hk HQ HR. apply wp_save_blob; [|done]. by intros n ->. Qed.
Lemma wp_delete_storage_key k w (Q : unit → world → Prop) R :
Q tt (set_blobs (delete k) w) → (∀ e, R (BackendError e) w) →
wp (delete_storage_key k) Q R w.
Proof.
intros HQ HR. unfold delete_storage_key, storage_exists, default_storage_delete, when.
unfold wp, bind. destruct (storage_has k (w_blobs w)) as [e|b] eqn:Hh; [apply HR|].
apply has_ok in Hh as ->. case_bool_decide as Hk.
- destruct (storage_delete k (w_blobs w)) as [[e|] m'] eqn:Hd.
  + apply delete_err in Hd as ->. destruct w. apply HR.
  + apply delete_ok in Hd as ->. apply HQ.
- simpl. destruct w as [d m t u]. unfold set_blobs in HQ. simpl in *.
  rewrite delete_id in HQ; [done|]. by apply eq_None_not_Some.
Qed.
Lemma wp_default_storage_open k w (Q : bytes → world → Prop) R :
(∀ c, w_blobs w !! k = Some c → Q c w) → (∀ e, R (BackendError e) w) →
wp (default_storage_open k) Q R w.
Proof.
intros HQ HR. unfold wp, default_storage_open.
destruct (storage_open k (w_blobs w)) as [e|c] eqn:Ho; [apply HR|].
apply HQ. by apply open_ok.
Qed.
End wp.
