(* ===== verification/Prune.v ===== *)
(** * Prune: empty directories after a deletion ([prune_empty_parent_dirs] of
    [apps/storage/backends.py])

    A file system without symbolic links is a set of files and a set of directories, each
    named by its components from the top.  [Backends] keeps the blobs only: this file shows
    that the walk that follows a deletion ends, where it stops, and that it touches no file. *)
From S2P Require Import Prelude PyStr.

Definition fpath : Type := list string.
Record tree := Tree { t_files : gset fpath; t_dirs : gset fpath }.
Definition everything (t : tree) : gset fpath := t_files t ∪ t_dirs t.

(** ** Paths of [pathlib] *)
Definition parent (p : fpath) : fpath := take (length p - 1) p.
(** One component of a path, taken from a directory. *)
Definition step_path (p : fpath) (c : string) : fpath := if c == ".." then parent p else p ++ [c].
(** [Path.resolve()] *)
Definition resolve (p : fpath) : fpath := foldl step_path [] p.
Definition components (key : string) : fpath := filter (λ c, c ∉ [""; "."]) (split_char "/" key).
(** [root / key] *)
Definition join_path (root : fpath) (key : string) : fpath :=
  if startswith "/" key then components key else root ++ components key.

(** ** What the system answers about a path *)
Fixpoint walk (t : tree) (here : fpath) (p : fpath) : option fpath :=
  match p with
  | [] => Some here
  | c :: p' => if bool_decide (here ∈ t_dirs t) then walk t (step_path here c) p' else None
  end.
(** The directory a path names, if [iterdir] can list it. *)
Definition lookup_dir (t : tree) (p : fpath) : option fpath :=
  d ← walk t [] p; if bool_decide (d ∈ t_dirs t) then Some d else None.
Definition entries (t : tree) (d : fpath) : gset fpath := filter (λ p, p ≠ [] ∧ parent p = d) (everything t).
Definition remove_dir (d : fpath) (t : tree) : tree := Tree (t_files t) (t_dirs t ∖ {[d]}).

(** ** [prune_empty_parent_dirs]

    [allowed]: whether the system lets a directory go; it does not when permissions are
    missing or when another process has just put a file there. *)
Section prune.
Context (allowed : fpath → bool).
Fixpoint prune_loop (fuel : nat) (root current : fpath) (t : tree) : tree :=
  match fuel with
  | O => t
  | S fuel' =>
      let resolved := resolve current in
      if negb (bool_decide (root `prefix_of` resolved)) then t
      else if resolved == root then t
      else match lookup_dir t current with
           | None => t
           | Some d =>
               if bool_decide (entries t d = ∅) && allowed d
               then prune_loop fuel' root (parent current) (remove_dir d t)
               else t
           end
  end.
(** [location]: the resolved root of the storage, if there is one. *)
Definition prune_empty_parent_dirs (s3 : bool) (location : option fpath) (key : string) (t : tree) : tree :=
  if s3 then t
  else match location with
       | None => t
       | Some root => let start := parent (join_path root key) in prune_loop (S (length start)) root start t
       end.
End prune.

(** ** Prefixes and parents *)
Lemma parent_snoc p c : parent (p ++ [c]) = p.
Proof. unfold parent. rewrite length_app. cbn. replace (length p + 1 - 1)%nat with (length p) by lia. apply take_app_length. Qed.
Lemma parent_prefix p : parent p `prefix_of` p.
Proof. exists (drop (length p - 1) p). symmetry. apply take_drop. Qed.
Lemma snoc_or_nil (p : fpath) : p = [] ∨ ∃ q c, p = q ++ [c].
Proof. destruct p as [|c q] using rev_ind; eauto. Qed.
Lemma snoc_nil (p : fpath) c : p ++ [c] ≠ [].
Proof. by destruct p. Qed.
Lemma prefix_snoc_inv (d p : fpath) c : d `prefix_of` p ++ [c] → d = p ++ [c] ∨ d `prefix_of` p.
Proof.
  intros [k Hk]. destruct (snoc_or_nil k) as [->|(k' & x & ->)]; [left; by rewrite app_nil_r in Hk|right].
  rewrite app_assoc in Hk. apply app_inj_tail in Hk as [-> _]. by eexists.
Qed.
Lemma prefix_parent (d p : fpath) : d `prefix_of` p → d ≠ p → d `prefix_of` parent p.
Proof.
  intros Hp Hd. destruct (snoc_or_nil p) as [->|(q & c & ->)]; [by apply prefix_nil_inv in Hp as ->|].
  rewrite parent_snoc. by destruct (prefix_snoc_inv _ _ _ Hp).
Qed.
Lemma parent_length p : p ≠ [] → (length (parent p) < length p)%nat.
Proof. intros Hp. unfold parent. rewrite length_take. destruct p; [done|]. cbn. lia. Qed.

(** ** Well-formed trees *)
Record tree_ok (t : tree) : Prop := TreeOk {
  tok_parent p : p ∈ everything t → p ≠ [] → parent p ∈ t_dirs t;
  tok_disjoint p : p ∈ t_files t → p ∉ t_dirs t;
  tok_plain p : p ∈ everything t → ".." ∉ p }.

Lemma everything_dir t d : d ∈ t_dirs t → d ∈ everything t.
Proof. unfold everything. set_solver. Qed.
Lemma ancestors_are_dirs t p d : tree_ok t → p ∈ everything t → d `prefix_of` p → d ≠ p → d ∈ t_dirs t.
Proof.
  intros Hok. revert d. induction p as [|c p IH] using rev_ind; intros d Hp Hd Hne; [by apply prefix_nil_inv in Hd|].
  assert (Hpar : p ∈ t_dirs t) by (rewrite <- (parent_snoc p c); apply (tok_parent _ Hok); [done|apply snoc_nil]).
  destruct (prefix_snoc_inv _ _ _ Hd) as [->|Hpre]; [done|].
  destruct (decide (d = p)) as [->|Hdp]; [done|]. apply (IH d); auto using everything_dir.
Qed.
(** Whatever lies below a directory lies below one of its entries. *)
Lemma below_has_entry t p d : tree_ok t → p ∈ everything t → d `prefix_of` p → d ≠ p → entries t d ≠ ∅.
Proof.
  intros Hok. induction p as [|c p IH] using rev_ind; intros Hp Hd Hne; [by apply prefix_nil_inv in Hd|].
  destruct (prefix_snoc_inv _ _ _ Hd) as [->|Hpre]; [done|].
  destruct (decide (d = p)) as [->|Hdp].
  - assert (p ++ [c] ∈ entries t p); [|set_solver]. unfold entries. apply elem_of_filter. rewrite parent_snoc.
    split; [|done]. split; [apply snoc_nil|done].
  - apply IH; auto. apply everything_dir. rewrite <- (parent_snoc p c).
    apply (tok_parent _ Hok); [done|apply snoc_nil].
Qed.
Lemma empty_dir t d p : tree_ok t → entries t d = ∅ → p ∈ everything t → d `prefix_of` p → p = d.
Proof.
  intros Hok He Hp Hd. destruct (decide (d = p)) as [->|Hne]; [done|]. by destruct (below_has_entry t p d Hok Hp Hd Hne).
Qed.
Lemma everything_remove t d : tree_ok t → d ∈ t_dirs t → everything (remove_dir d t) = everything t ∖ {[d]}.
Proof.
  intros Hok Hd. unfold everything, remove_dir. cbn. apply set_eq. intros p. pose proof (tok_disjoint t Hok p). set_solver.
Qed.
Lemma remove_dir_ok t d : tree_ok t → d ∈ t_dirs t → d ≠ [] → entries t d = ∅ → tree_ok (remove_dir d t).
Proof.
  intros Hok Hd Hne He. split.
  - intros p Hp Hpne. rewrite everything_remove in Hp by done. apply elem_of_difference in Hp as [Hp _].
    cbn. apply elem_of_difference. split; [by apply (tok_parent _ Hok)|].
    intros Hpd%elem_of_singleton. assert (p ∈ entries t d); [|set_solver].
    unfold entries. apply elem_of_filter. auto.
  - intros p Hp. cbn in *. pose proof (tok_disjoint t Hok p). set_solver.
  - intros p Hp. rewrite everything_remove in Hp by done. apply (tok_plain t Hok). set_solver.
Qed.

(** ** The walk *)
Lemma walk_resolves t here p d : walk t here p = Some d → d = foldl step_path here p.
Proof.
  revert here. induction p as [|c p IH]; intros here; cbn; [by intros [= <-]|].
  destruct (bool_decide_reflect (here ∈ t_dirs t)); [apply IH|done].
Qed.
Lemma lookup_dir_some t p d : lookup_dir t p = Some d → d = resolve p ∧ d ∈ t_dirs t.
Proof.
  unfold lookup_dir. destruct (walk t [] p) as [d'|] eqn:Hw; [|done]. cbn.
  destruct (bool_decide_reflect (d' ∈ t_dirs t)); [|done]. intros [= <-].
  split; [by apply (walk_resolves _ _ _ _ Hw)|done].
Qed.
Lemma resolve_plain here p : ".." ∉ p → foldl step_path here p = here ++ p.
Proof.
  revert here. induction p as [|c p IH]; intros here Hp; [by rewrite app_nil_r|].
  apply not_elem_of_cons in Hp as [Hc Hp]. cbn. unfold step_path at 2. rewrite bool_decide_false by (by intros ->).
  rewrite IH by done. by rewrite <- app_assoc.
Qed.
Lemma walk_plain t here p : tree_ok t → ".." ∉ p → here ++ p ∈ t_dirs t → walk t here p = Some (here ++ p).
Proof.
  intros Hok. revert here. induction p as [|c p IH]; intros here Hp Hd; [by rewrite app_nil_r|].
  apply not_elem_of_cons in Hp as [Hc Hp]. cbn.
  assert (Hh : here ∈ t_dirs t).
  { apply (ancestors_are_dirs t (here ++ c :: p) here Hok); [by apply everything_dir|by eexists|].
    intros He%(f_equal length). rewrite length_app in He. cbn in He. lia. }
  rewrite bool_decide_true by done. unfold step_path. rewrite bool_decide_false by (by intros ->).
  rewrite IH; [by rewrite <- app_assoc|done|by rewrite <- app_assoc].
Qed.
Lemma lookup_dir_plain t p : tree_ok t → ".." ∉ p →
  lookup_dir t p = if bool_decide (p ∈ t_dirs t) then Some p else None.
Proof.
  intros Hok Hp. destruct (bool_decide_reflect (p ∈ t_dirs t)) as [Hd|Hd].
  - unfold lookup_dir. rewrite (walk_plain t [] p Hok Hp Hd). cbn. by rewrite bool_decide_true.
  - destruct (lookup_dir t p) as [d|] eqn:Hl; [|done]. apply lookup_dir_some in Hl as [-> Hl].
    unfold resolve in Hl. by rewrite resolve_plain in Hl.
Qed.

Section laws.
Context (allowed : fpath → bool).
(** What a walk may have done: it removed directories strictly below the root that held
    no file at any depth. *)
Record pruned (root : fpath) (t t' : tree) : Prop := Pruned {
  pr_files : t_files t' = t_files t;
  pr_ok : tree_ok t';
  pr_dirs d : d ∈ t_dirs t' → d ∈ t_dirs t;
  pr_gone d : d ∈ t_dirs t → d ∉ t_dirs t' →
    root `prefix_of` d ∧ d ≠ root ∧ ∀ p, p ∈ t_files t → ¬ d `prefix_of` p }.
Lemma pruned_refl root t : tree_ok t → pruned root t t.
Proof. intros Hok. by split. Qed.
Lemma loop_pruned fuel root current t : tree_ok t → pruned root t (prune_loop allowed fuel root current t).
Proof.
  revert current t. induction fuel as [|fuel IH]; intros current t Hok; [by apply pruned_refl|]. cbn [prune_loop].
  destruct (bool_decide_reflect (root `prefix_of` resolve current)) as [Hin|]; cbn [negb]; [|by apply pruned_refl].
  destruct (bool_decide_reflect (resolve current = root)) as [|Hne]; [by apply pruned_refl|].
  destruct (lookup_dir t current) as [d|] eqn:Hl; [|by apply pruned_refl].
  apply lookup_dir_some in Hl as [Hd Hdir]. rewrite <- Hd in Hin, Hne.
  destruct (bool_decide_reflect (entries t d = ∅)) as [He|]; [|by apply pruned_refl].
  destruct (allowed d); [|by apply pruned_refl]. cbn [andb].
  assert (Hnil : d ≠ []) by (intros ->; apply prefix_nil_inv in Hin; congruence).
  destruct (IH (parent current) (remove_dir d t) (remove_dir_ok t d Hok Hdir Hnil He)) as [Hf Hok' Hsub Hgone].
  split; [done|done|intros p Hp; apply Hsub in Hp; set_solver|].
  intros p Hp Hp'. destruct (decide (p = d)) as [->|Hpd].
  - split; [done|]. split; [done|]. intros q Hq Hpre.
    assert (q = d) as -> by (apply (empty_dir t); auto; unfold everything; set_solver).
    by apply (tok_disjoint t Hok d).
  - destruct (Hgone p) as (H1 & H2 & H3); [cbn; set_solver|done|]. auto.
Qed.

(** The fuel is enough: a path with [n] components has at most [n] proper ancestors. *)
Lemma loop_fuel n m root current t : (length current < n)%nat → (length current < m)%nat →
  prune_loop allowed n root current t = prune_loop allowed m root current t.
Proof.
  revert m current t. induction n as [|n IH]; intros [|m] current t Hn Hm; try lia. cbn [prune_loop].
  destruct (bool_decide_reflect (root `prefix_of` resolve current)) as [Hin|]; cbn [negb]; [|done].
  destruct (bool_decide_reflect (resolve current = root)) as [|Hne]; [done|].
  destruct (lookup_dir t current) as [d|]; [|done]. destruct (_ && _); [|done].
  assert (current ≠ []) as Hc by (intros ->; apply Hne; symmetry; by apply prefix_nil_inv in Hin).
  apply parent_length in Hc. apply IH; lia.
Qed.
End laws.

(** ** What a deletion leaves *)
Definition strictly_below (root d : fpath) : Prop := root `prefix_of` d ∧ d ≠ root.
(** The entries below [d] are directories on the way to [c] only. *)
Definition only_the_way_to (t : tree) (c d : fpath) : Prop :=
  d `prefix_of` c ∧ ∀ p, p ∈ everything t → d `prefix_of` p → p `prefix_of` c.
Lemma only_way_self t c : tree_ok t → entries t c = ∅ → only_the_way_to t c c.
Proof. intros Hok He. split; [done|]. intros p Hp Hpre. by rewrite (empty_dir t c p Hok He Hp Hpre). Qed.
Lemma only_way_step t c d : tree_ok t → c ∈ t_dirs t → c ≠ [] → entries t c = ∅ → d ≠ c →
  only_the_way_to (remove_dir c t) (parent c) d ↔ only_the_way_to t c d.
Proof.
  intros Hok Hc Hnil He Hd. unfold only_the_way_to. rewrite everything_remove by done. split; intros [Hpre Hall]; split.
  - etrans; [done|apply parent_prefix].
  - intros p Hp Hdp. destruct (decide (p = c)) as [->|Hpc]; [done|].
    etrans; [apply Hall; [set_solver|done]|apply parent_prefix].
  - by apply prefix_parent.
  - intros p [Hp Hpc%not_elem_of_singleton]%elem_of_difference Hdp. apply prefix_parent; auto.
Qed.
Definition always (d : fpath) : bool := true.
Lemma loop_exact fuel (root c : fpath) t d : tree_ok t → ".." ∉ c → root `prefix_of` c → (length c < fuel)%nat →
  d ∈ t_dirs (prune_loop always fuel root c t) ↔
  d ∈ t_dirs t ∧ ¬ (c ∈ t_dirs t ∧ strictly_below root d ∧ only_the_way_to t c d).
Proof.
  revert c t. induction fuel as [|fuel IH]; intros c t Hok Hc Hroot Hfuel; [lia|]. cbn [prune_loop].
  unfold resolve. rewrite (resolve_plain [] c Hc). cbn [app]. rewrite (bool_decide_true (root `prefix_of` c)) by done.
  cbn [negb]. destruct (bool_decide_reflect (c = root :> fpath)) as [->|Hne].
  { split; [intros Hd; split; [done|]|by intros [? _]]. intros (_ & [Hr Hdr] & [Hdc _]).
    apply Hdr. by apply (anti_symm prefix). }
  rewrite lookup_dir_plain by done. destruct (bool_decide_reflect (c ∈ t_dirs t)) as [Hdir|Hdir]; [|naive_solver].
  assert (Hnil : c ≠ []) by (intros ->; apply prefix_nil_inv in Hroot; congruence).
  destruct (bool_decide_reflect (entries t c = ∅)) as [He|He]; cbn [always andb].
  - assert (Hpar : root `prefix_of` parent c) by (apply prefix_parent; auto).
    rewrite (IH (parent c)); [|by apply remove_dir_ok| |done|pose proof (parent_length c Hnil); lia].
    2:{ intros Hin. apply Hc. destruct (parent_prefix c) as [k Hk]. rewrite Hk. apply elem_of_app. by left. }
    assert (Hpd : parent c ∈ t_dirs (remove_dir c t)).
    { cbn. apply elem_of_difference. split; [apply (tok_parent t Hok); auto using everything_dir|].
      intros Heq%elem_of_singleton. pose proof (parent_length c Hnil). rewrite Heq in *. lia. }
    destruct (decide (d = c)) as [->|Hdc].
    + pose proof (only_way_self t c Hok He). unfold strictly_below. cbn. set_solver.
    + rewrite (only_way_step t c d) by done. cbn. set_solver.
  - split; [intros Hd; split; [done|]|by intros [? _]]. intros (_ & _ & [Hdc Hall]). apply He.
    apply set_eq. intros p. split; [|set_solver]. unfold entries. intros [[Hp <-] Hin]%elem_of_filter. exfalso.
    assert (Hle : p `prefix_of` parent p) by (apply Hall; [done|etrans; [exact Hdc|apply parent_prefix]]).
    apply prefix_length in Hle. pose proof (parent_length p Hp). lia.
Qed.

(** Pruning touches no file and stays inside the storage.  Whatever the key (absolute, or
    with dots that lead outside) and whatever removals the system refuses, the files are the
    same, the tree is well formed, and a directory that is gone lay strictly below the root
    of the storage and held no file at any depth. *)
Theorem prune_safe allowed s3 location key t : tree_ok t →
  let t' := prune_empty_parent_dirs allowed s3 location key t in
  t_files t' = t_files t ∧ tree_ok t' ∧ (∀ d, d ∈ t_dirs t' → d ∈ t_dirs t) ∧
  ∀ d, d ∈ t_dirs t → d ∉ t_dirs t' → ∃ root, location = Some root ∧ strictly_below root d ∧
    ∀ p, p ∈ t_files t → ¬ d `prefix_of` p.
Proof.
  intros Hok. cbv zeta. unfold prune_empty_parent_dirs. destruct s3; [by split_and!|].
  destruct location as [root|]; [|by split_and!].
  destruct (loop_pruned allowed (S (length (parent (join_path root key)))) root (parent (join_path root key)) t Hok)
    as [Hf Hok' Hsub Hgone].
  split_and!; auto. intros d Hd Hd'. destruct (Hgone d Hd Hd') as (H1 & H2 & H3). by exists root.
Qed.

(** C22: Pruning removes exactly what a deletion has emptied.  For the key of a blob, a
    directory goes if and only if it lies strictly below the root of the storage and holds
    nothing but the directories on the way to the one the blob was in. *)
Theorem prune_exact root key t d : tree_ok t → ".." ∉ root → startswith "/" key = false →
  components key ≠ [] → ".." ∉ components key →
  let dir := parent (root ++ components key) in
  d ∈ t_dirs (prune_empty_parent_dirs always false (Some root) key t) ↔
  d ∈ t_dirs t ∧ ¬ (dir ∈ t_dirs t ∧ strictly_below root d ∧ only_the_way_to t dir d).
Proof.
  intros Hok Hroot Hkey Hne Hplain. cbv zeta. unfold prune_empty_parent_dirs, join_path. rewrite Hkey.
  set (full := root ++ components key).
  assert (Hfull : ".." ∉ full) by (unfold full; rewrite elem_of_app; by intros [?|?]).
  apply loop_exact; [done| |apply prefix_parent; [by eexists|]|lia].
  - intros Hin. apply Hfull. destruct (parent_prefix full) as [k Hk]. rewrite Hk. apply elem_of_app. by left.
  - intros He%(f_equal length). unfold full in He. rewrite length_app in He. destruct (components key); [done|]. cbn in He. lia.
Qed.

(** ** A concrete storage *)
Module PruneDemo.
Definition storage_root : fpath := ["srv"; "objects"].
Definition storage : tree := Tree
  {[ ["srv"; "objects"; "shellui"; "7"; "a"; "x.txt"] ]}
  {[ []; ["srv"]; storage_root; storage_root ++ ["shellui"]; storage_root ++ ["shellui"; "7"]; storage_root ++ ["shellui"; "7"; "a"];
     storage_root ++ ["shellui"; "7"; "b"]; storage_root ++ ["shellui"; "7"; "b"; "c"] ]}.
(** The blob [shellui/7/b/c/y.txt] has just been deleted. *)
Definition key : string := "shellui/7/b/c/y.txt".
Definition after : tree := prune_empty_parent_dirs always false (Some storage_root) key storage.
End PruneDemo.
Import PruneDemo.

Lemma forall_decide {A} `{Countable A} (P : A → Prop) `{!∀ x, Decision (P x)} (X : gset A) :
  bool_decide (set_Forall P X) = true → (∀ x, x ∈ X → P x).
Proof. intros Hb%bool_decide_eq_true x Hx. by apply Hb. Qed.
Lemma storage_ok : tree_ok storage.
Proof.
  split; intros p Hp; revert p Hp.
  - apply (forall_decide (λ p, (p ≠ []) → parent p ∈ t_dirs storage)). vm_compute. reflexivity.
  - apply (forall_decide (λ p, p ∉ t_dirs storage)). vm_compute. reflexivity.
  - apply (forall_decide (λ p, ".." ∉ p)). vm_compute. reflexivity.
Qed.
Ltac by_computation := match goal with |- ?P => apply (proj1 (bool_decide_eq_true P)); vm_compute; reflexivity end.
Lemma prune_safe_witness : t_files after = t_files storage ∧ tree_ok after.
Proof.
  destruct (prune_safe always false (Some storage_root) key storage storage_ok) as (Hf & Hok & _). split; [exact Hf|exact Hok].
Defined.
Lemma prune_exact_witness :
  (storage_root ++ ["shellui"; "7"] ∈ t_dirs after) ∧ (storage_root ++ ["shellui"; "7"; "b"] ∉ t_dirs after) ∧
  ¬ only_the_way_to storage (storage_root ++ ["shellui"; "7"; "b"; "c"]) (storage_root ++ ["shellui"; "7"]).
Proof.
  assert (Hin : storage_root ++ ["shellui"; "7"] ∈ t_dirs after) by (by_computation).
  split; [exact Hin|]. split; [by_computation|].
  apply (prune_exact storage_root key storage) in Hin as [_ Hn];
    [|exact storage_ok|by_computation|vm_compute; reflexivity|vm_compute; discriminate|
      by_computation].
  intros Hway. apply Hn. split; [by_computation|]. split; [|exact Hway].
  split; [by_computation|discriminate].
Defined.
