(* ===== verification/Services.v ===== *)
(** * Services: object and folder operations ([apps/storage/services.py])

    Every operation is a program over [world]; [atomic] marks the operations that
    run inside [@transaction.atomic].  REST and WebDAV handlers call these. *)
From S2P Require Import Prelude PyStr Models PyData Mime Signals Access Quotas Backends.

(** [except QuotaExceeded as exc: raise StorageError(..., status=413, code=exc.code)] *)
Definition quota_as_storage_error (m : prog unit) : prog unit :=
  try_except m (λ e, match e with
                     | QuotaExceeded code => Some (raise (StorageError 413 code))
                     | _ => None
                     end).

(** [INSERT] of an object row: the pair (bucket, name) is unique. *)
Definition create_object_row (o : sobject) : prog sobject :=
  d <- get_db ;;
  if bool_decide (is_Some (find_object d (o_bucket_id o) (o_name o))) then raise IntegrityError
  else modify_db (set_objects (insert (o_id o) o)) ;;; ret o.

(** [DELETE] of an object row, with the cascade to its grants and share links. *)
Definition delete_object_row (i : uuid) (d : db) : db :=
  set_links (row_delete (λ l, l_object_id l == i))
    (set_grants (row_delete (λ g, g_object_id g == Some i)) (set_objects (delete i) d)).

(** Django's [name__startswith] filter, in the model's default order (by name). *)
Definition prefix_filter (folder_path : string) : string :=
  let prefix := strip_char "/" folder_path in
  if truthy prefix then prefix +:+ "/" else prefix.
Definition name_le (o o' : sobject) : bool := str_le (o_name o) (o_name o').
Definition objects_under_prefix (d : db) (b : bucket) (folder_path : string) : list sobject :=
  sort_by name_le
    (filter (λ o, o_bucket_id o = b_id b ∧ startswith (prefix_filter folder_path) (o_name o) = true)
       (rows (db_objects d))).
(** [bucket.files.all()] *)
Definition bucket_files (d : db) (b : bucket) : list sobject :=
  sort_by name_le (filter (λ o, o_bucket_id o = b_id b) (rows (db_objects d))).

Definition get_bucket_for_company (company_id : Z) (name : string) : prog bucket :=
  d <- get_db ;;
  match find_bucket d company_id name with
  | Some b => ret b
  | None => raise (StorageError 404 "bucket_not_found")
  end.

Section services.
Context `{Settings, Backend, MimeTypes, Receivers}.

(** ** Upload *)
Definition read_upload_bytes (content : bytes) (max_bytes : Z) : prog bytes :=
let data := if max_bytes + 1 <? 0 then content else take (Z.to_nat (max_bytes + 1)) content in
if max_bytes <? Z.of_nat (length data) then raise (StorageError 413 "payload_too_large")
else ret data.

Definition upload_limit (b : bucket) : Z :=
Z.min (match b_file_size_limit b with
       | Some l => if l == 0 then MAX_UPLOAD_BYTES else l
       | None => MAX_UPLOAD_BYTES
       end) MAX_UPLOAD_BYTES.

Definition upload_metadata (metadata : list (string * json)) (cache_control : option string) :
  list (string * json) :=
match cache_control with
| Some c => if truthy c then dict_set "cacheControl" (JStr c) metadata else metadata
| None => metadata
end.

(** The two halves of [upload_object] after the checks. *)
Definition overwrite_object (b : bucket) (old : sobject) (data : bytes) (owner_id : option Z)
  (mime : string) (meta : list (string * json)) (r : request) : prog sobject :=
let size := Z.of_nat (length data) in
save_blob (o_storage_key old) data ;;;
t <- now ;;
let o := StorageObject (o_id old) (o_bucket_id old) (o_name old) (o_company_id old)
           (if bool_decide (owner_id = None) then o_owner_id old else owner_id)
           size (content_etag data) mime meta (o_storage_key old) (o_version old + 1)
           (o_created_at old) t (o_last_accessed_at old) in
modify_db (set_objects (insert (o_id o) o)) ;;;
apply_usage_delta (b_company_id b) owner_id (size - o_size old) ;;;
object_uploaded o false r.

Definition store_new_object (b : bucket) (name : string) (data : bytes) (owner_id : option Z)
  (size : Z) (etag mime : string) (meta : list (string * json)) (r : request) : prog sobject :=
i <- uuid4 ;;
let key := build_storage_key (b_company_id b) (b_name b) name i in
save_blob key data ;;;
t <- now ;;
o <- create_object_row
       (StorageObject i (b_id b) name (b_company_id b) owner_id size etag mime meta key 1 t t
          None) ;;
apply_usage_delta (b_company_id b) (o_owner_id o) size ;;;
apply_default_private_on_create o (o_owner_id o) false ;;;
object_uploaded o true r.

(** [metadata] is [dict(metadata or {})] in line: what is no mapping is refused there. *)
Definition upload_object_with (b : bucket) (path : string) (content : bytes) (owner_id : option Z)
  (content_type : option string) (upsert : bool) (metadata : exn + list (string * json))
  (cache_control : option string) (r : request) : prog sobject :=
atomic (
  name <- lift_sum (safe_object_path path) ;;
  let mime := normalize_mime_type content_type name in
  if negb (mime_allowed mime (b_allowed_mime_types b))
  then raise (StorageError 415 "invalid_mime_type")
  else
    d <- get_db ;;
    let existing := find_object d (b_id b) name in
    if bool_decide (is_Some existing) && negb upsert
    then raise (StorageError 400 "resource_already_exists")
    else
      data <- read_upload_bytes content (upload_limit b) ;;
      let size := Z.of_nat (length data) in
      quota_as_storage_error
        (assert_can_store (b_company_id b) owner_id size (from_option o_size 0 existing)) ;;;
      metadata <- lift_sum metadata ;;
      let meta := upload_metadata metadata cache_control in
      match existing with
      | Some old => overwrite_object b old data owner_id mime meta r
      | None => store_new_object b name data owner_id size (content_etag data) mime meta r
      end).
Definition upload_object (b : bucket) (path : string) (content : bytes) (owner_id : option Z)
  (content_type : option string) (upsert : bool) (metadata : list (string * json))
  (cache_control : option string) (r : request) : prog sobject :=
upload_object_with b path content owner_id content_type upsert (inr metadata) cache_control r.

(** ** Folder markers *)
Definition ensure_folder_marker (b : bucket) (folder_path : string) (owner_id : option Z) :
  prog sobject :=
let name := folder_placeholder_path folder_path in
d <- get_db ;;
match find_object d (b_id b) name with
| Some o => ret o
| None =>
    i <- uuid4 ;;
    let key := build_storage_key (b_company_id b) (b_name b) name i in
    save_blob key [] ;;;
    t <- now ;;
    create_object_row
      (StorageObject i (b_id b) name (b_company_id b) owner_id 0 "" OCTET_STREAM [] key 1 t t None)
end.

(** ** Deletion *)
Definition delete_object (o : sobject) (r : request) : prog unit :=
atomic (
  d <- get_db ;;
  let info := DeletedInfo (from_option b_name "" (obj_bucket d o)) (o_name o) (o_company_id o)
                (o_owner_id o) (o_mime_type o) (o_size o) in
  modify_db (delete_object_row (o_id o)) ;;;
  delete_storage_key (o_storage_key o) ;;;
  apply_usage_delta (o_company_id o) (o_owner_id o) (- o_size o) ;;;
  object_deleted info r).

(** The first loop of [delete_paths]: look the paths up and check write access. *)
Fixpoint collect_to_delete (b : bucket) (p : principal) (paths : list string) :
  prog (list (string * sobject)) :=
match paths with
| [] => ret []
| raw :: paths' =>
    match safe_object_path raw with
    | inl _ => collect_to_delete b p paths'
    | inr name =>
        d <- get_db ;;
        match find_object d (b_id b) name with
        | None => collect_to_delete b p paths'
        | Some o =>
            assert_can_access_path p b name (Some (o_id o)) true false ;;;
            rest <- collect_to_delete b p paths' ;;
            ret ((name, o) :: rest)
        end
    end
end.

Definition delete_paths (b : bucket) (paths : list string) (p : principal) (r : request) :
  prog (list string) :=
atomic (
  to_delete <- collect_to_delete b p paths ;;
  map_m (λ no, delete_object no.2 r ;;; ret no.1) to_delete).

Definition assert_can_write_all (b : bucket) (p : principal) (objs : list sobject) : prog unit :=
for_each objs (λ o, assert_can_access_path p b (o_name o) (Some (o_id o)) true false).

Definition delete_under_prefix (b : bucket) (folder_path : string) (p : principal) (r : request) :
  prog (list string) :=
atomic (
  d <- get_db ;;
  let objs := objects_under_prefix d b folder_path in
  assert_can_write_all b p objs ;;;
  map_m (λ o, delete_object o r ;;; ret (o_name o)) objs).

Definition empty_bucket (b : bucket) (p : principal) (r : request) : prog unit :=
atomic (
  d <- get_db ;;
  let objs := bucket_files d b in
  assert_can_write_all b p objs ;;;
  for_each objs (λ o, delete_object o r)).

(** ** Moves, renames and copies *)
(** [obj.save(update_fields=['name', 'updated_at'])] and, with another bucket,
  [['bucket', 'name', 'updated_at']]. *)
Definition relocated (bid : uuid) (name : string) (t : datetime) (o : sobject) : sobject :=
StorageObject (o_id o) bid name (o_company_id o) (o_owner_id o) (o_size o) (o_etag o)
  (o_mime_type o) (o_metadata o) (o_storage_key o) (o_version o) (o_created_at o) t
  (o_last_accessed_at o).
Definition save_name (o : sobject) (bid : uuid) (name : string) : prog sobject :=
t <- now ;;
modify_db (set_objects (alter (relocated bid name t) (o_id o))) ;;;
ret (relocated bid name t o).

Definition name_taken_by_other (d : db) (bid : uuid) (name : string) (i : uuid) : bool :=
row_exists (λ o, (o_bucket_id o == bid) && (o_name o == name) && (o_id o != i)) (db_objects d).

Fixpoint rename_all (b : bucket) (src dst : string) (objs : list sobject) : prog (list string) :=
match objs with
| [] => ret []
| o :: objs' =>
    if startswith (src +:+ "/") (o_name o) then
      let new_name := dst +:+ str_drop (String.length src) (o_name o) in
      d <- get_db ;;
      if name_taken_by_other d (b_id b) new_name (o_id o)
      then raise (StorageError 400 "resource_already_exists")
      else
        save_name o (o_bucket_id o) new_name ;;;
        moved <- rename_all b src dst objs' ;;
        ret (new_name :: moved)
    else rename_all b src dst objs'
end.

Record rename_result := RenameResult {
rn_from : string; rn_to : string; rn_moved : nat; rn_grants_updated : nat }.

Definition deeper (o o' : sobject) : bool :=
(count_char "/" (o_name o') <=? count_char "/" (o_name o))%nat.

Definition rename_folder (b : bucket) (source_path dest_path : string) : prog rename_result :=
atomic (
  src0 <- lift_sum (safe_object_path source_path) ;;
  dst0 <- lift_sum (safe_object_path dest_path) ;;
  let src := strip_char "/" src0 in
  let dst := strip_char "/" dst0 in
  if negb (truthy src) || negb (truthy dst) then raise (StorageError 400 "invalid_prefix")
  else if src == dst then ret (RenameResult src dst 0 0)
  else if startswith (src +:+ "/") dst then raise (StorageError 400 "invalid_destination")
  else
    d <- get_db ;;
    match objects_under_prefix d b src with
    | [] => raise (StorageError 404 "folder_not_found")
    | objs =>
        if bool_decide (objects_under_prefix d b dst ≠ []) ||
           bool_decide (is_Some (find_object d (b_id b) dst))
        then raise (StorageError 400 "resource_already_exists")
        else
          let objs := sort_by deeper objs in
          moved <- rename_all b src dst objs ;;
          d <- get_db ;;
          ret (RenameResult src dst (length moved)
                 (length (filter (λ g, existsb (λ o, g_object_id g == Some (o_id o)) objs = true)
                            (rows (db_grants d)))))
    end).

Definition move_object (b : bucket) (source_path : string) (dest_bucket : bucket)
  (dest_path : string) : prog sobject :=
atomic (
  source_name <- lift_sum (safe_object_path source_path) ;;
  dest_name <- lift_sum (safe_object_path dest_path) ;;
  d <- get_db ;;
  match find_object d (b_id b) source_name with
  | None => raise (StorageError 404 "object_not_found")
  | Some o =>
      if bool_decide (is_Some (find_object d (b_id dest_bucket) dest_name))
      then raise (StorageError 400 "resource_already_exists")
      else if b_id b == b_id dest_bucket then save_name o (o_bucket_id o) dest_name
      else if b_company_id b != b_company_id dest_bucket then raise (StorageError 403 "forbidden")
      else
        o' <- save_name o (b_id dest_bucket) dest_name ;;
        modify_db (set_grants
          (row_update (λ g, g_object_id g == Some (o_id o))
             (λ g, Grant (g_id g) (g_company_id g) (b_id dest_bucket) (g_object_id g)
                     (g_subject_type g) (g_subject_id g) (g_resource_type g) (g_permission g)
                     (g_effect g) (g_created_by_id g) (g_created_at g) (g_updated_at g)
                     (g_expires_at g) (g_notes g)))) ;;;
        ret o'
  end).

Definition copy_object (b : bucket) (source_path : string) (dest_bucket : bucket)
  (dest_path : string) (owner_id : option Z) (r : request) : prog sobject :=
atomic (
  source_name <- lift_sum (safe_object_path source_path) ;;
  dest_name <- lift_sum (safe_object_path dest_path) ;;
  d <- get_db ;;
  match find_object d (b_id b) source_name with
  | None => raise (StorageError 404 "object_not_found")
  | Some src =>
      if bool_decide (is_Some (find_object d (b_id dest_bucket) dest_name))
      then raise (StorageError 400 "resource_already_exists")
      else if b_company_id b != b_company_id dest_bucket then raise (StorageError 403 "forbidden")
      else
        quota_as_storage_error
          (assert_can_store (b_company_id dest_bucket) owner_id (o_size src) 0) ;;;
        data <- default_storage_open (o_storage_key src) ;;
        store_new_object dest_bucket dest_name data
          (if bool_decide (owner_id = None) then o_owner_id src else owner_id)
          (o_size src) (o_etag src) (o_mime_type src) (o_metadata src) r
  end).

(** Bucket creation through the API is disabled. *)
Definition create_bucket (company_id : Z) (name : string) : prog bucket :=
raise (StorageError 403 "bucket_create_disabled").
End services.
