(* ===== verification/FileStore.v ===== *)
(** * FileStore: what the services promise

    The abstract store maps a bucket and a path to the bytes stored there.  The
    invariant ties the three places the program keeps data in: the object rows,
    the blobs and the quota counters.  The theorems say that each service keeps
    the invariant and acts on the abstract store as its name says. *)
From S2P Require Import Prelude PyStr Models Mime Signals Access Quotas Backends Services.

(** ** The abstract store *)
Definition fs : Type := uuid → string → option bytes.
#[export] Instance fs_equiv : Equiv fs := λ f g, ∀ b n, f b n = g b n.
#[export] Instance fs_equivalence : Equivalence (≡@{fs}).
Proof.
  split; [by intros f b n|by intros f g H b n|]. intros f g h H1 H2 b n. by rewrite H1.
Qed.

Definition fs_write (bid : uuid) (name : string) (c : bytes) (f : fs) : fs :=
  λ b n, if decide (b = bid ∧ n = name) then Some c else f b n.
Definition fs_remove (bid : uuid) (name : string) (f : fs) : fs :=
  λ b n, if decide (b = bid ∧ n = name) then None else f b n.
Definition fs_move (bid : uuid) (src : string) (bid' : uuid) (dst : string) (f : fs) : fs :=
  λ b n, if decide (b = bid' ∧ n = dst) then f bid src
         else if decide (b = bid ∧ n = src) then None else f b n.
(** Every path below folder [src] moves to the same place below [dst]. *)
Definition fs_rename (bid : uuid) (src dst : string) (f : fs) : fs :=
  λ b n, if decide (b = bid) then
           if startswith (dst +:+ "/") n
           then f b (src +:+ str_drop (String.length dst) n)
           else if startswith (src +:+ "/") n then None else f b n
         else f b n.
Definition fs_remove_where (bid : uuid) (P : string → bool) (f : fs) : fs :=
  λ b n, if decide (b = bid ∧ P n = true) then None else f b n.
#[export] Instance fs_write_proper bid name c : Proper ((≡) ==> (≡)) (fs_write bid name c).
Proof. intros f g H b n. unfold fs_write. by rewrite H. Qed.
#[export] Instance fs_remove_proper bid name : Proper ((≡) ==> (≡)) (fs_remove bid name).
Proof. intros f g H b n. unfold fs_remove. by rewrite H. Qed.
#[export] Instance fs_remove_where_proper bid P : Proper ((≡) ==> (≡)) (fs_remove_where bid P).
Proof. intros f g H b n. unfold fs_remove_where. by rewrite H. Qed.

(** The abstraction of a world: the blob of the row found by bucket and name. *)
Definition files (w : world) : fs := λ bid name,
  o ← find_object (w_db w) bid name; w_blobs w !! o_storage_key o.

(** ** The invariant

    Every row has a blob.  Its length is the recorded size on a backend that
    overwrites; on one that does not, an overwrite leaves the row on the old bytes
    (see [file_system_overwrite_keeps_old_bytes]). *)
Section invariant.
Context `{Backend}.

Record store_inv (w : world) : Prop := StoreInv {
  inv_bucket_id i b : db_buckets (w_db w) !! i = Some b → b_id b = i;
  inv_object_id i o : db_objects (w_db w) !! i = Some o → o_id o = i;
  inv_object_fresh i o : db_objects (w_db w) !! i = Some o → (i < w_next_uuid w)%N;
  inv_unique i j o o' : db_objects (w_db w) !! i = Some o → db_objects (w_db w) !! j = Some o' →
    o_bucket_id o = o_bucket_id o' → o_name o = o_name o' → i = j;
  inv_company i o : db_objects (w_db w) !! i = Some o →
    ∃ b, db_buckets (w_db w) !! o_bucket_id o = Some b ∧ b_company_id b = o_company_id o;
  inv_key i o : db_objects (w_db w) !! i = Some o → key_uuid (o_storage_key o) = uuid_str i;
  inv_blob_fresh k c : w_blobs w !! k = Some c →
    ∃ i, (i < w_next_uuid w)%N ∧ key_uuid k = uuid_str i;
  inv_content i o : db_objects (w_db w) !! i = Some o →
    0 ≤ o_size o ∧ ∃ c, w_blobs w !! o_storage_key o = Some c ∧
      (Overwriting → Z.of_nat (length c) = o_size o) }.
(** The company counters are exact: the quota row holds the bytes stored. *)
Definition quota_exact (d : db) : Prop := ∀ cid, company_used d cid = stored_bytes d cid.
Definition storage_inv (w : world) : Prop := store_inv w ∧ quota_exact (w_db w).

(** ** Lemmas *)

(** *** Finding rows *)
Lemma find_object_iff w bid name o :
  store_inv w →
  find_object (w_db w) bid name = Some o ↔
  (∃ i, db_objects (w_db w) !! i = Some o) ∧ o_bucket_id o = bid ∧ o_name o = name.
Proof.
  intros Hinv. split.
  - intros Hf. apply find_object_Some in Hf. naive_solver.
  - intros ([i Ho] & <- & <-). apply (row_find_unique _ _ i); [done| |].
    + by rewrite !bool_decide_true.
    + intros k' r' Hr' [Hb Hn]%andb_true_iff. rewrite bool_decide_eq_true in Hb, Hn.
      assert (k' = i) as -> by (by eapply inv_unique). congruence.
Qed.
Lemma find_object_None w bid name :
  find_object (w_db w) bid name = None ↔
  ∀ i o, db_objects (w_db w) !! i = Some o → o_bucket_id o = bid → o_name o ≠ name.
Proof.
  split.
  - intros Hf i o Ho Hb Hn. pose proof (row_find_None _ _ Hf i o Ho) as Hp. simpl in Hp.
    rewrite !bool_decide_true in Hp by done. done.
  - intros Hno. destruct (find_object (w_db w) bid name) as [o|] eqn:Hf; [|done].
    apply find_object_Some in Hf as (Hb & Hn & i & Ho). by destruct (Hno i o Ho Hb).
Qed.
Lemma files_Some w bid name c :
  store_inv w →
  files w bid name = Some c ↔
  ∃ i o, db_objects (w_db w) !! i = Some o ∧ o_bucket_id o = bid ∧ o_name o = name ∧
         w_blobs w !! o_storage_key o = Some c.
Proof.
  intros Hinv. unfold files. rewrite bind_Some. split.
  - intros (o & Hf & Hc). apply find_object_iff in Hf; [|done]. naive_solver.
  - intros (i & o & Ho & Hb & Hn & Hc). exists o. rewrite find_object_iff by done. eauto.
Qed.
Lemma files_is_Some w bid name :
  store_inv w → is_Some (files w bid name) ↔ is_Some (find_object (w_db w) bid name).
Proof.
  intros Hinv. unfold files. destruct (find_object (w_db w) bid name) as [o|] eqn:Hf; [|split; by intros [? ?]].
  simpl. apply find_object_Some in Hf as (_ & _ & i & Ho).
  destruct (inv_content w Hinv i o Ho) as (_ & c & Hc & _). rewrite Hc. by split; eauto.
Qed.
Lemma option_ext {A} (x y : option A) : (∀ a, x = Some a ↔ y = Some a) → x = y.
Proof. destruct x, y; naive_solver. Qed.

Lemma key_inj w i j o o' :
  store_inv w → db_objects (w_db w) !! i = Some o → db_objects (w_db w) !! j = Some o' →
  o_storage_key o = o_storage_key o' → i = j.
Proof.
  intros Hinv Ho Ho' Hk. apply uuid_str_inj.
  by rewrite <- (inv_key w Hinv i o Ho), <- (inv_key w Hinv j o' Ho'), Hk.
Qed.

(** *** Steps the invariant does not see *)
Record store_step (w w' : world) : Prop := StoreStep {
  ss_buckets : db_buckets (w_db w') = db_buckets (w_db w);
  ss_objects : erase_metadata <$> db_objects (w_db w') = erase_metadata <$> db_objects (w_db w);
  ss_blobs : w_blobs w' = w_blobs w;
  ss_uuid : (w_next_uuid w ≤ w_next_uuid w')%N }.
#[export] Instance store_step_preorder : PreOrder store_step.
Proof.
  split.
  - intros w. by split.
  - intros w1 w2 w3 [] []. split; [congruence..|lia].
Qed.
Lemma store_step_object w w' i o :
  store_step w w' → db_objects (w_db w') !! i = Some o →
  ∃ o', db_objects (w_db w) !! i = Some o' ∧ erase_metadata o = erase_metadata o'.
Proof.
  intros Hs Ho. pose proof (f_equal (.!! i) (ss_objects _ _ Hs)) as He.
  rewrite !lookup_fmap, Ho in He. simpl in He.
  destruct (db_objects (w_db w) !! i) as [o'|]; [|done]. simpl in He. exists o'. split; congruence.
Qed.
Lemma store_step_inv w w' : store_step w w' → store_inv w → store_inv w'.
Proof.
  intros Hs Hinv.
  assert (Ho : ∀ i o, db_objects (w_db w') !! i = Some o → ∃ o', db_objects (w_db w) !! i = Some o' ∧
             o_id o = o_id o' ∧ o_bucket_id o = o_bucket_id o' ∧ o_name o = o_name o' ∧
             o_company_id o = o_company_id o' ∧ o_size o = o_size o' ∧
             o_storage_key o = o_storage_key o').
  { intros i o Ho. destruct (store_step_object w w' i o Hs Ho) as (o' & Ho' & He).
    apply erase_metadata_fields in He. exists o'. naive_solver. }
  pose proof (ss_buckets _ _ Hs) as Eb. pose proof (ss_blobs _ _ Hs) as Ec.
  pose proof (ss_uuid _ _ Hs) as Eu.
  split; rewrite ?Eb, ?Ec.
  - apply (inv_bucket_id w Hinv).
  - intros i o (o' & Ho' & -> & _)%Ho. by apply (inv_object_id w Hinv).
  - intros i o (o' & Ho' & _)%Ho. pose proof (inv_object_fresh w Hinv i o' Ho'). lia.
  - intros i j o1 o2 (o1' & Ho1 & _ & -> & -> & _)%Ho (o2' & Ho2 & _ & -> & -> & _)%Ho.
    by apply (inv_unique w Hinv).
  - intros i o (o' & Ho' & _ & -> & _ & -> & _)%Ho. by apply (inv_company w Hinv i).
  - intros i o (o' & Ho' & _ & _ & _ & _ & _ & ->)%Ho. by apply (inv_key w Hinv).
  - intros k c Hk. destruct (inv_blob_fresh w Hinv k c Hk) as (i & Hi & Hku).
    exists i. split; [lia|done].
  - intros i o (o' & Ho' & _ & _ & _ & _ & -> & ->)%Ho. by apply (inv_content w Hinv i).
Qed.
Lemma store_step_files w w' : store_step w w' → store_inv w → files w' ≡ files w.
Proof.
  intros Hs Hinv bid name. pose proof (store_step_inv w w' Hs Hinv) as Hinv'.
  apply option_ext. intros c. rewrite !files_Some by done. rewrite (ss_blobs _ _ Hs).
  split; intros (i & o & Ho & Hb & Hn & Hc).
  - destruct (store_step_object w w' i o Hs Ho) as (o' & Ho' & He).
    apply erase_metadata_fields in He as (? & ? & ? & ? & ? & ? & Hk).
    exists i, o'. split_and!; congruence.
  - pose proof (f_equal (.!! i) (ss_objects _ _ Hs)) as He. rewrite !lookup_fmap, Ho in He.
    simpl in He. destruct (db_objects (w_db w') !! i) as [o'|] eqn:Ho'; [|done].
    simpl in He. exists i, o'.
    assert (He2 : erase_metadata o' = erase_metadata o) by congruence.
    apply erase_metadata_fields in He2 as (? & ? & ? & ? & ? & ? & Hk).
    split_and!; congruence.
Qed.

(** *** The four ways a service changes the store *)
Lemma key_fresh w k i :
  store_inv w → key_uuid k = uuid_str i → (w_next_uuid w ≤ i)%N → w_blobs w !! k = None.
Proof.
  intros Hinv Hk Hi. apply eq_None_not_Some. intros [c Hc].
  destruct (inv_blob_fresh w Hinv k c Hc) as (j & Hj & Hkj).
  assert (i = j) by (apply uuid_str_inj; congruence). lia.
Qed.

Lemma inv_new_object w w' o c b :
  store_inv w → find_object (w_db w) (o_bucket_id o) (o_name o) = None →
  (w_next_uuid w ≤ o_id o < w_next_uuid w')%N →
  db_buckets (w_db w) !! o_bucket_id o = Some b → b_company_id b = o_company_id o →
  key_uuid (o_storage_key o) = uuid_str (o_id o) → 0 ≤ o_size o →
  (Overwriting → Z.of_nat (length c) = o_size o) →
  db_buckets (w_db w') = db_buckets (w_db w) →
  db_objects (w_db w') = <[o_id o := o]> (db_objects (w_db w)) →
  w_blobs w' = <[o_storage_key o := c]> (w_blobs w) →
  store_inv w' ∧ files w' ≡ fs_write (o_bucket_id o) (o_name o) c (files w).
Proof.
  intros Hinv Hfree Hid Hb Hco Hkey Hnn Hlen Eb Eo Ec.
  assert (Hold : ∀ i o', db_objects (w_db w) !! i = Some o' →
            i ≠ o_id o ∧ o_storage_key o' ≠ o_storage_key o).
  { intros i o' Ho'. pose proof (inv_object_fresh w Hinv i o' Ho'). split; [lia|].
    intros He. assert (i = o_id o); [|lia].
    apply uuid_str_inj. by rewrite <- (inv_key w Hinv i o' Ho'), <- Hkey, He. }
  pose proof (proj1 (find_object_None w _ _) Hfree) as Hnone.
  assert (Hinv' : store_inv w').
  { split; rewrite ?Eb, ?Eo, ?Ec.
    - apply (inv_bucket_id w Hinv).
    - intros i o1 [[<- <-]|[_ ?]]%lookup_insert_Some; [done|]. by apply (inv_object_id w Hinv).
    - intros i o1 [[<- <-]|[_ Ho1]]%lookup_insert_Some; [lia|].
      pose proof (inv_object_fresh w Hinv i o1 Ho1). lia.
    - intros i j o1 o2 [[<- <-]|[_ H1]]%lookup_insert_Some [[<- <-]|[_ H2]]%lookup_insert_Some Hbk Hn;
        [done| | |by eapply (inv_unique w Hinv)].
      + by destruct (Hnone j o2 H2).
      + by destruct (Hnone i o1 H1).
    - intros i o1 [[<- <-]|[_ ?]]%lookup_insert_Some; [eauto|]. by apply (inv_company w Hinv i).
    - intros i o1 [[<- <-]|[_ ?]]%lookup_insert_Some; [done|]. by apply (inv_key w Hinv).
    - intros k c' [[<- <-]|[_ Hk]]%lookup_insert_Some; [exists (o_id o); split; [lia|done]|].
      destruct (inv_blob_fresh w Hinv k c' Hk) as (i & Hi & Hki). exists i. split; [lia|done].
    - intros i o1 [[<- <-]|[_ H1]]%lookup_insert_Some;
        [split; [done|]; exists c; by rewrite lookup_insert_eq|].
      rewrite lookup_insert_ne by (symmetry; apply (Hold i o1 H1)). by apply (inv_content w Hinv i). }
  split; [done|]. intros bid name. unfold fs_write. apply option_ext. intros c'.
  rewrite files_Some, Eo, Ec by done. case_decide as Hd.
  - destruct Hd as [-> ->]. split.
    + intros (i & o1 & [[<- <-]|[_ H1]]%lookup_insert_Some & Hb1 & Hn1 & Hc1).
      * by rewrite lookup_insert_eq in Hc1.
      * by destruct (Hnone i o1 H1).
    + intros [= <-]. exists (o_id o), o. by rewrite !lookup_insert_eq.
  - rewrite files_Some by done. split.
    + intros (i & o1 & [[<- <-]|[_ H1]]%lookup_insert_Some & Hb1 & Hn1 & Hc1); [naive_solver|].
      exists i, o1. rewrite lookup_insert_ne in Hc1 by (symmetry; apply (Hold i o1 H1)). done.
    + intros (i & o1 & H1 & Hb1 & Hn1 & Hc1). exists i, o1. destruct (Hold i o1 H1).
      by rewrite !lookup_insert_ne.
Qed.

(** A row is replaced and its new content written under [k]: its own key, or, on a
    backend that does not overwrite, a free key of the same directory, in which case
    the row stays on the old bytes. *)
Lemma inv_replace_object w w' i o o' c k :
  store_inv w → db_objects (w_db w) !! i = Some o →
  o_id o' = o_id o → o_bucket_id o' = o_bucket_id o → o_name o' = o_name o →
  o_company_id o' = o_company_id o → o_storage_key o' = o_storage_key o → 0 ≤ o_size o' →
  (Overwriting → k = o_storage_key o ∧ Z.of_nat (length c) = o_size o') →
  (k ≠ o_storage_key o → w_blobs w !! k = None ∧ key_uuid k = key_uuid (o_storage_key o)) →
  (w_next_uuid w ≤ w_next_uuid w')%N →
  db_buckets (w_db w') = db_buckets (w_db w) →
  db_objects (w_db w') = <[i := o']> (db_objects (w_db w)) →
  w_blobs w' = <[k := c]> (w_blobs w) →
  store_inv w' ∧
  (k = o_storage_key o → files w' ≡ fs_write (o_bucket_id o) (o_name o) c (files w)) ∧
  (k ≠ o_storage_key o → files w' ≡ files w).
Proof.
  intros Hinv Ho Hid Hbk Hnm Hco Hkey Hnn Hov Halt Hu Eb Eo Ec.
  assert (Hold : ∀ j o1, db_objects (w_db w) !! j = Some o1 → j ≠ i ∨ k ≠ o_storage_key o →
            o_storage_key o1 ≠ k).
  { intros j o1 H1 Hne He. destruct (decide (k = o_storage_key o)) as [Hk|Hk].
    - destruct Hne as [Hne|]; [|done]. apply Hne. apply (key_inj w j i o1 o); congruence.
    - destruct (Halt Hk) as [Hnone _], (inv_content w Hinv j o1 H1) as (_ & c1 & Hc1 & _). congruence. }
  assert (Hblob : ∀ j o1, db_objects (w_db w) !! j = Some o1 → j ≠ i ∨ k ≠ o_storage_key o →
            w_blobs w' !! o_storage_key o1 = w_blobs w !! o_storage_key o1).
  { intros j o1 H1 Hne. rewrite Ec, lookup_insert_ne; [done|]. symmetry. by apply (Hold j o1). }
  assert (Hinv' : store_inv w').
  { split; rewrite ?Eb, ?Eo.
    - apply (inv_bucket_id w Hinv).
    - intros j o1 [[<- <-]|[_ ?]]%lookup_insert_Some; [|by apply (inv_object_id w Hinv)].
      rewrite Hid. by apply (inv_object_id w Hinv).
    - intros j o1 [[<- <-]|[_ H1]]%lookup_insert_Some.
      + pose proof (inv_object_fresh w Hinv i o Ho). lia.
      + pose proof (inv_object_fresh w Hinv j o1 H1). lia.
    - intros j l o1 o2 [[<- <-]|[_ H1]]%lookup_insert_Some [[<- <-]|[_ H2]]%lookup_insert_Some;
        rewrite ?Hbk, ?Hnm; by eapply (inv_unique w Hinv).
    - intros j o1 [[<- <-]|[_ ?]]%lookup_insert_Some; rewrite ?Hbk, ?Hco; by eapply (inv_company w Hinv).
    - intros j o1 [[<- <-]|[_ ?]]%lookup_insert_Some; rewrite ?Hkey; by apply (inv_key w Hinv).
    - rewrite Ec. intros l c' [[<- <-]|[_ Hk]]%lookup_insert_Some.
      + exists i. split; [pose proof (inv_object_fresh w Hinv i o Ho); lia|].
        rewrite <- (inv_key w Hinv i o Ho).
        destruct (decide (k = o_storage_key o)) as [->|Hk]; [done|apply (Halt Hk)].
      + destruct (inv_blob_fresh w Hinv l c' Hk) as (j & Hj & Hkj). exists j. split; [lia|done].
    - intros j o1 [[<- <-]|[Hne H1]]%lookup_insert_Some.
      + rewrite Hkey. split; [done|]. destruct (decide (k = o_storage_key o)) as [Hk|Hk].
        * exists c. rewrite Ec, Hk, lookup_insert_eq. split; [done|]. intros Ho'. by apply Hov.
        * rewrite (Hblob i o) by auto. destruct (inv_content w Hinv i o Ho) as (_ & c0 & Hc0 & _).
          exists c0. split; [done|]. intros Ho'. by destruct Hk, (Hov Ho').
      + rewrite (Hblob j o1) by (done || left; congruence). by apply (inv_content w Hinv j). }
  assert (Hrow : ∀ j o1 bid name, o_bucket_id o1 = bid ∧ o_name o1 = name →
            db_objects (w_db w') !! j = Some o1 → ∃ o2, db_objects (w_db w) !! j = Some o2 ∧
              o_bucket_id o2 = bid ∧ o_name o2 = name ∧ o_storage_key o2 = o_storage_key o1 ∧
              (j = i → o2 = o)).
  { intros j o1 bid name [<- <-]. rewrite Eo. intros [[<- <-]|[Hne H1]]%lookup_insert_Some.
    - exists o. by rewrite Hbk, Hnm, Hkey.
    - exists o1. by split_and!. }
  assert (Hback : ∀ j o1, db_objects (w_db w) !! j = Some o1 → ∃ o2, db_objects (w_db w') !! j = Some o2 ∧
            o_bucket_id o2 = o_bucket_id o1 ∧ o_name o2 = o_name o1 ∧ o_storage_key o2 = o_storage_key o1).
  { intros j o1 H1. rewrite Eo. destruct (decide (i = j)) as [<-|Hne].
    - exists o'. rewrite lookup_insert_eq. split_and!; congruence.
    - exists o1. by rewrite lookup_insert_ne. }
  assert (Hsame : ∀ bid name c', (bid, name) ≠ (o_bucket_id o, o_name o) ∨ k ≠ o_storage_key o →
            files w' bid name = Some c' ↔ files w bid name = Some c').
  { intros bid name c' Hd. rewrite !files_Some by done. split; intros (j & o1 & H1 & Hb1 & Hn1 & Hc1).
    - destruct (Hrow j o1 bid name) as (o2 & H2 & Hb2 & Hn2 & Hk2 & Hji); [done..|].
      exists j, o2. split_and!; try done. rewrite Hk2, <- Hc1, <- Hk2. symmetry. apply (Hblob j); [done|].
      destruct Hd as [Hd|]; [|by right]. left. intros Hj. apply Hji in Hj. subst o2. congruence.
    - destruct (Hback j o1 H1) as (o2 & H2 & Hb2 & Hn2 & Hk2). exists j, o2.
      split_and!; [done|congruence|congruence|]. rewrite Hk2, <- Hc1. apply (Hblob j); [done|].
      destruct Hd as [Hd|]; [|by right]. left. intros ->. congruence. }
  split; [done|]. split; [intros Hk|intros Hk]; intros bid name.
  - unfold fs_write. apply option_ext. intros c'. case_decide as Hd.
    + destruct Hd as [-> ->]. destruct (Hback i o Ho) as (o2 & H2 & Hb2 & Hn2 & Hk2).
      rewrite <- Hb2, <- Hn2. rewrite (proj2 (files_Some w' (o_bucket_id o2) (o_name o2) c Hinv')); [naive_solver|].
      exists i, o2. rewrite Hk2, Ec, Hk. by rewrite lookup_insert_eq.
    + apply Hsame. left. naive_solver.
  - apply option_ext. intros c'. apply Hsame. by right.
Qed.

Lemma inv_delete_object w w' i o :
  store_inv w → db_objects (w_db w) !! i = Some o → (w_next_uuid w ≤ w_next_uuid w')%N →
  db_buckets (w_db w') = db_buckets (w_db w) →
  db_objects (w_db w') = delete i (db_objects (w_db w)) →
  w_blobs w' = delete (o_storage_key o) (w_blobs w) →
  store_inv w' ∧ files w' ≡ fs_remove (o_bucket_id o) (o_name o) (files w).
Proof.
  intros Hinv Ho Hu Eb Eo Ec.
  assert (Hold : ∀ j o1, db_objects (w_db w) !! j = Some o1 → j ≠ i →
            o_storage_key o1 ≠ o_storage_key o).
  { intros j o1 H1 Hne He. apply Hne. by apply (key_inj w j i o1 o). }
  assert (Hinv' : store_inv w').
  { split; rewrite ?Eb, ?Eo, ?Ec.
    - apply (inv_bucket_id w Hinv).
    - intros j o1 [_ ?]%lookup_delete_Some. by apply (inv_object_id w Hinv).
    - intros j o1 [_ H1]%lookup_delete_Some. pose proof (inv_object_fresh w Hinv j o1 H1). lia.
    - intros j k o1 o2 [_ H1]%lookup_delete_Some [_ H2]%lookup_delete_Some.
      by eapply (inv_unique w Hinv).
    - intros j o1 [_ ?]%lookup_delete_Some. by eapply (inv_company w Hinv).
    - intros j o1 [_ ?]%lookup_delete_Some. by apply (inv_key w Hinv).
    - intros k c' [_ Hk]%lookup_delete_Some.
      destruct (inv_blob_fresh w Hinv k c' Hk) as (j & Hj & Hkj). exists j. split; [lia|done].
    - intros j o1 [Hne H1]%lookup_delete_Some.
      rewrite lookup_delete_ne by (symmetry; apply (Hold j o1 H1); naive_solver).
      by apply (inv_content w Hinv j). }
  split; [done|]. intros bid name. unfold fs_remove. apply option_ext. intros c'.
  rewrite files_Some, Eo, Ec by done. case_decide as Hd.
  - destruct Hd as [-> ->]. split; [|done].
    intros (j & o1 & [Hne H1]%lookup_delete_Some & Hb1 & Hn1 & Hc1).
    destruct Hne. by eapply (inv_unique w Hinv).
  - rewrite files_Some by done. split.
    + intros (j & o1 & [Hne H1]%lookup_delete_Some & Hb1 & Hn1 & [_ Hc1]%lookup_delete_Some). exists j, o1. done.
    + intros (j & o1 & H1 & Hb1 & Hn1 & Hc1).
      assert (Hne : j ≠ i) by (intros ->; simplify_eq; by destruct Hd).
      exists j, o1. pose proof (Hold j o1 H1 Hne). by rewrite !lookup_delete_ne by done.
Qed.

Lemma inv_relocate w w' i o bid' name' t :
  store_inv w → db_objects (w_db w) !! i = Some o →
  (∃ b', db_buckets (w_db w) !! bid' = Some b' ∧ b_company_id b' = o_company_id o) →
  (∀ j o1, db_objects (w_db w) !! j = Some o1 → o_bucket_id o1 = bid' → o_name o1 = name' → j = i) →
  (w_next_uuid w ≤ w_next_uuid w')%N →
  db_buckets (w_db w') = db_buckets (w_db w) →
  db_objects (w_db w') = alter (relocated bid' name' t) i (db_objects (w_db w)) →
  w_blobs w' = w_blobs w →
  store_inv w' ∧ files w' ≡ fs_move (o_bucket_id o) (o_name o) bid' name' (files w).
Proof.
  intros Hinv Ho Hb' Hfree Hu Eb Eo Ec.
  assert (Eo' : db_objects (w_db w') = <[i := relocated bid' name' t o]> (db_objects (w_db w))).
  { rewrite Eo. apply map_eq. intros j. rewrite lookup_alter, lookup_insert.
    case_decide as Hj; [subst j; by rewrite Ho|done]. }
  clear Eo. set (o' := relocated bid' name' t o) in *.
  assert (Hinv' : store_inv w').
  { split; rewrite ?Eb, ?Eo', ?Ec.
    - apply (inv_bucket_id w Hinv).
    - intros j o1 [[<- <-]|[_ ?]]%lookup_insert_Some; [exact (inv_object_id w Hinv i o Ho)|].
      by apply (inv_object_id w Hinv).
    - intros j o1 [[<- <-]|[_ H1]]%lookup_insert_Some.
      + pose proof (inv_object_fresh w Hinv i o Ho). lia.
      + pose proof (inv_object_fresh w Hinv j o1 H1). lia.
    - intros j k o1 o2 [[<- <-]|[? H1]]%lookup_insert_Some [[<- <-]|[? H2]]%lookup_insert_Some Hbk Hn;
        [done| | |by eapply (inv_unique w Hinv)].
      + symmetry. by apply (Hfree k o2).
      + by apply (Hfree j o1).
    - intros j o1 [[<- <-]|[_ ?]]%lookup_insert_Some; [done|]. by eapply (inv_company w Hinv).
    - intros j o1 [[<- <-]|[_ ?]]%lookup_insert_Some; [exact (inv_key w Hinv i o Ho)|].
      by apply (inv_key w Hinv).
    - intros k c' Hk. destruct (inv_blob_fresh w Hinv k c' Hk) as (j & Hj & Hkj).
      exists j. split; [lia|done].
    - intros j o1 [[<- <-]|[_ ?]]%lookup_insert_Some; [exact (inv_content w Hinv i o Ho)|].
      by eapply (inv_content w Hinv). }
  split; [done|]. intros bid name. unfold fs_move. apply option_ext. intros c.
  rewrite files_Some, Eo', Ec by done. case_decide as Hd.
  - destruct Hd as [-> ->]. rewrite files_Some by done. split.
    + intros (j & o1 & [[<- <-]|[? H1]]%lookup_insert_Some & Hb1 & Hn1 & Hc1).
      * exists i, o. done.
      * by destruct (Hfree j o1).
    + intros (j & o1 & H1 & Hb1 & Hn1 & Hc1).
      assert (j = i) as -> by (by eapply (inv_unique w Hinv)). simplify_eq.
      exists i, o'. by rewrite lookup_insert_eq.
  - case_decide as Hs.
    + destruct Hs as [-> ->]. split; [|done].
      intros (j & o1 & [[<- <-]|[Hne H1]]%lookup_insert_Some & Hb1 & Hn1 & Hc1).
      * by destruct Hd.
      * destruct Hne. by eapply (inv_unique w Hinv).
    + rewrite files_Some by done. split.
      * intros (j & o1 & [[<- <-]|[? H1]]%lookup_insert_Some & Hb1 & Hn1 & Hc1); [by destruct Hd|].
        exists j, o1. done.
      * intros (j & o1 & H1 & Hb1 & Hn1 & Hc1).
        assert (i ≠ j) by (intros ->; simplify_eq; by destruct Hs).
        exists j, o1. by rewrite lookup_insert_ne.
Qed.

End invariant.

(** *** Bytes stored *)
Definition size_in (cid : Z) (o : sobject) : Z := if o_company_id o == cid then o_size o else 0.
Lemma stored_bytes_insert d d' i o cid :
  db_objects d !! i = None → db_objects d' = <[i:=o]> (db_objects d) →
  stored_bytes d' cid = size_in cid o + stored_bytes d cid.
Proof. intros Hi E. unfold stored_bytes. rewrite E. by rewrite row_sum_insert. Qed.
Lemma stored_bytes_replace d d' i o o' cid :
  db_objects d !! i = Some o → db_objects d' = <[i:=o']> (db_objects d) →
  stored_bytes d' cid = stored_bytes d cid - size_in cid o + size_in cid o'.
Proof. intros Hi E. unfold stored_bytes. rewrite E. by rewrite (row_sum_replace _ _ _ o o'). Qed.
Lemma stored_bytes_delete d d' i o cid :
  db_objects d !! i = Some o → db_objects d' = delete i (db_objects d) →
  stored_bytes d' cid = stored_bytes d cid - size_in cid o.
Proof. intros Hi E. unfold stored_bytes. rewrite E. by rewrite (row_sum_delete _ _ _ o). Qed.
Lemma row_sum_fmap_eq {A B} (f : A → Z) (g : A → B) (h : B → Z) (m : gmap uuid A) :
  (∀ a, h (g a) = f a) → row_sum h (g <$> m) = row_sum f m.
Proof.
  intros Hh. unfold row_sum, rows. rewrite map_to_list_fmap, <- !list_fmap_compose.
  f_equal. apply list_fmap_ext. intros i [k a] _. simpl. apply Hh.
Qed.
Lemma stored_bytes_erase d d' cid :
  erase_metadata <$> db_objects d' = erase_metadata <$> db_objects d →
  stored_bytes d' cid = stored_bytes d cid.
Proof.
  intros E. change (row_sum (size_in cid) (db_objects d') = row_sum (size_in cid) (db_objects d)).
  rewrite <- (row_sum_fmap_eq (size_in cid) erase_metadata (size_in cid) (db_objects d')) by done.
  rewrite E. by apply row_sum_fmap_eq.
Qed.
Lemma stored_bytes_relocate d d' i bid name t cid :
  db_objects d' = alter (relocated bid name t) i (db_objects d) →
  stored_bytes d' cid = stored_bytes d cid.
Proof.
  intros E. destruct (db_objects d !! i) as [o|] eqn:Ho.
  - rewrite (stored_bytes_replace d d' i o (relocated bid name t o)); [unfold size_in; simpl; lia|done|].
    rewrite E. apply map_eq. intros j. rewrite lookup_alter, lookup_insert.
    case_decide as Hj; [subst j; by rewrite Ho|done].
  - apply stored_bytes_frame. rewrite E. apply map_eq. intros j. rewrite lookup_alter.
    case_decide as Hj; [subst j; by rewrite Ho|done].
Qed.
Lemma size_nonneg `{Backend} w i o : store_inv w → db_objects (w_db w) !! i = Some o → 0 ≤ o_size o.
Proof. intros Hinv Ho. by destruct (inv_content w Hinv i o Ho). Qed.
Lemma stored_bytes_nonneg `{Backend} w cid : store_inv w → 0 ≤ stored_bytes (w_db w) cid.
Proof.
  intros Hinv. apply row_sum_nonneg. intros i o Ho. pose proof (size_nonneg w i o Hinv Ho).
  case_bool_decide; lia.
Qed.

(** *** Steps of the programs *)
Lemma quota_step_store `{Settings} w w' : quota_step w w' → store_step w w'.
Proof. intros [[] ? ? ? ? ? ?]. split; [done|congruence|done|lia]. Qed.
Lemma quiet_store w w' : quiet w w' → store_step w w'.
Proof. intros [[] ? ? ?]. split; congruence || done. Qed.
Lemma grants_store w w' : grants_step w w' → store_step w w'.
Proof. intros ([f Ef] & ? & ? & ?). split; rewrite ?Ef; done. Qed.

(** No limit changes. *)
Definition same_limits `{Settings} (w w' : world) : Prop :=
  ∀ c, cq_max_bytes (quota_of (w_db w') c) = cq_max_bytes (quota_of (w_db w) c).
(** The bytes stored change by [delta] for company [cid] only. *)
Record usage_change `{Settings} (w w' : world) (cid delta : Z) : Prop := UsageChange {
  uc_stored c : stored_bytes (w_db w') c = stored_bytes (w_db w) c + (if c == cid then delta else 0);
  uc_limits : same_limits w w' }.
(** No company gains bytes. *)
Record shrinks `{Settings} (w w' : world) : Prop := Shrinks {
  sh_stored c : stored_bytes (w_db w') c ≤ stored_bytes (w_db w) c;
  sh_limits : same_limits w w' }.
#[export] Instance shrinks_preorder `{Settings} : PreOrder shrinks.
Proof.
  split.
  - intros w. by split.
  - intros w1 w2 w3 [H1 L1] [H2 L2]. split; intros c.
    + specialize (H1 c). specialize (H2 c). lia.
    + by rewrite (L2 c), (L1 c).
Qed.
Lemma usage_shrinks `{Settings} w w' cid delta : usage_change w w' cid delta → delta ≤ 0 → shrinks w w'.
Proof. intros [Hs Hl] Hd. split; [|done]. intros c. rewrite Hs. case_bool_decide; lia. Qed.

(** The part of a step that the counters care about. *)
Definition settled `{Settings} (w w' : world) : Prop :=
  store_step w w' ∧ quota_exact (w_db w') ∧ same_limits w w'.
Lemma settled_quiet `{Settings} w w' w'' : settled w w' → quiet w' w'' → settled w w''.
Proof.
  intros (Hs & Hq & Hl) Hqt. split; [etrans; [done|by apply quiet_store]|].
  destruct Hqt as [[_ Ho _ _ Ec _] _ _ _]. split; intros cid.
  - unfold company_used. rewrite <- Ec. rewrite (stored_bytes_erase (w_db w')) by done. apply Hq.
  - unfold quota_of. rewrite <- Ec. apply Hl.
Qed.
Lemma settled_grants `{Settings} w w' w'' : settled w w' → grants_step w' w'' → settled w w''.
Proof.
  intros (Hs & Hq & Hl) Hg. split; [etrans; [done|by apply grants_store]|].
  destruct Hg as ([f Ef] & _). split; intros cid; rewrite Ef; [apply Hq|apply Hl].
Qed.
Lemma settled_storage_inv `{Settings, Backend} w w' : store_inv w → settled w w' → storage_inv w'.
Proof. intros Hinv (Hs & Hq & _). split; [by eapply store_step_inv|done]. Qed.
Lemma settled_refl `{Settings} w : quota_exact (w_db w) → settled w w.
Proof. intros Hq. by split_and!. Qed.
Lemma settled_usage `{Settings} w w1 w' cid delta :
  usage_change w w1 cid delta → settled w1 w' → usage_change w w' cid delta.
Proof.
  intros [Hs Hl] (Hst & _ & Hl'). split; intros c.
  - rewrite (stored_bytes_erase (w_db w1)) by apply Hst. apply Hs.
  - by rewrite (Hl' c), (Hl c).
Qed.
Lemma settled_shrinks `{Settings} w w1 w' : shrinks w w1 → settled w1 w' → shrinks w w'.
Proof.
  intros [Hs Hl] (Hst & _ & Hl'). split; intros c.
  - rewrite (stored_bytes_erase (w_db w1)) by apply Hst. apply Hs.
  - by rewrite (Hl' c), (Hl c).
Qed.

Lemma quota_exact_step `{Settings} w w' : quota_step w w' → quota_exact (w_db w) → quota_exact (w_db w').
Proof.
  intros Hs Hq cid. rewrite (qs_used _ _ Hs). rewrite Hq. symmetry.
  apply stored_bytes_frame, (qs_frame _ _ Hs).
Qed.
Lemma quota_step_usage `{Settings} w w1 w' cid delta :
  quota_step w w1 → usage_change w1 w' cid delta → usage_change w w' cid delta.
Proof.
  intros Hq [Hs Hl]. split; intros c.
  - rewrite Hs. by rewrite (stored_bytes_frame (w_db w)) by apply (qs_frame _ _ Hq).
  - by rewrite (Hl c), (qs_quota _ _ Hq).
Qed.
(** Charging the bytes by which the counter is short settles it. *)
Lemma wp_settle `{Settings, Backend} cid uid delta w R :
  store_inv w →
  (∀ c, stored_bytes (w_db w) c = company_used (w_db w) c + (if c == cid then delta else 0)) →
  wp (apply_usage_delta cid uid delta) (λ _ w', settled w w') R w.
Proof.
  intros Hinv Hgap. apply wp_apply_usage_delta. intros w' [Eb Eo Eg El] Ec En Eu Hother Hzero Hdelta Hmax.
  split; [by split; rewrite ?Eb, ?Eo, ?Ec, ?Eu; done|]. split; [|exact Hmax]. intros c.
  rewrite (stored_bytes_frame (w_db w)) by done. rewrite Hgap.
  pose proof (stored_bytes_nonneg w c Hinv) as Hnn. rewrite Hgap in Hnn.
  case_bool_decide as Hc; [subst c|by rewrite Hother; [lia|]].
  destruct (decide (delta = 0)) as [->|Hd]; [rewrite Hzero by done; lia|].
  rewrite Hdelta by done. lia.
Qed.

(** What a failed operation may leave behind once its transaction is rolled back:
    new blobs that no row refers to. *)
Record blobs_grow (w w' : world) : Prop := BlobsGrow {
  bg_sub : w_blobs w ⊆ w_blobs w';
  bg_fresh k c : w_blobs w' !! k = Some c → w_blobs w !! k = Some c ∨
    ∃ i, (i < w_next_uuid w')%N ∧ key_uuid k = uuid_str i;
  bg_uuid : (w_next_uuid w ≤ w_next_uuid w')%N }.
Lemma blobs_same_grow w w' :
  w_blobs w' = w_blobs w → (w_next_uuid w ≤ w_next_uuid w')%N → blobs_grow w w'.
Proof. intros E Hu. split; [by rewrite E|rewrite E; by left|done]. Qed.
Lemma quota_step_grow `{Settings} w w' : quota_step w w' → blobs_grow w w'.
Proof. intros Hs. apply blobs_same_grow; [apply Hs|]. rewrite (qs_uuid _ _ Hs). lia. Qed.
Lemma blobs_grow_trans w1 w2 w3 : blobs_grow w1 w2 → blobs_grow w2 w3 → blobs_grow w1 w3.
Proof.
  intros [H1 H2 H3] [G1 G2 G3]. split; [by etrans| |lia].
  intros k c [Hk|?]%G2; [|by right]. apply H2 in Hk as [?|(i & ? & ?)]; [by left|].
  right. exists i. split; [lia|done].
Qed.
Lemma rolled_back `{Backend} w w' :
  storage_inv w → blobs_grow w w' →
  let w1 := World (w_db w) (w_blobs w') (w_now w') (w_next_uuid w') in
  storage_inv w1 ∧ files w1 ≡ files w.
Proof.
  intros [Hinv Hq] [Hsub Hfresh Hu] w1.
  assert (Hget : ∀ i o, db_objects (w_db w) !! i = Some o →
            w_blobs w' !! o_storage_key o = w_blobs w !! o_storage_key o).
  { intros i o Ho. destruct (inv_content w Hinv i o Ho) as (_ & c & Hc & _). rewrite Hc.
    by eapply lookup_weaken. }
  assert (Hinv1 : store_inv w1).
  { split; simpl; try by apply Hinv.
    - intros i o Ho. pose proof (inv_object_fresh w Hinv i o Ho). lia.
    - intros k c [Hk|?]%Hfresh; [|done]. destruct (inv_blob_fresh w Hinv k c Hk) as (i & ? & ?).
      exists i. split; [lia|done].
    - intros i o Ho. rewrite (Hget i o Ho). by apply (inv_content w Hinv i). }
  split; [by split|]. intros bid name. apply option_ext. intros c. rewrite !files_Some by done.
  simpl. split; intros (i & o & Ho & Hb & Hn & Hc); exists i, o; rewrite (Hget i o Ho) in *; done.
Qed.

(** *** Storing and overwriting *)
Section upload.
Context `{Settings, Backend, !BackendLaws, MimeTypes, Receivers, !ReceiverLaws}.

(** [data] is written at [name]: always when the path was free or the backend
  overwrites; otherwise either that, or the file keeps its old bytes. *)
Definition written (b : bucket) (name : string) (data : bytes) (w w' : world) : Prop :=
(files w (b_id b) name = None ∨ Overwriting → files w' ≡ fs_write (b_id b) name data (files w)) ∧
(files w' ≡ fs_write (b_id b) name data (files w) ∨ files w' ≡ files w).

(** The result of an upload: the invariant holds, the store is updated, and the
  returned instance describes the object. *)
Record stored_at (b : bucket) (name : string) (data : bytes) (w : world) (o : sobject)
  (w' : world) : Prop := StoredAt {
sa_inv : storage_inv w';
sa_files : written b name data w w';
sa_bucket : o_bucket_id o = b_id b;
sa_name : o_name o = name;
sa_row : ∃ o', db_objects (w_db w') !! o_id o = Some o' ∧ erase_metadata o = erase_metadata o';
sa_usage : usage_change w w' (b_company_id b)
  (o_size o - from_option o_size 0 (find_object (w_db w) (b_id b) name)) }.

(** After the row is in place: charge the quota, then run the listeners. *)
Lemma wp_notify w0 o created r w R :
settled w0 w →
wp (object_uploaded o created r)
  (λ o' w', settled w0 w' ∧ erase_metadata o' = erase_metadata o) R w.
Proof.
intros Hs. eapply wp_mono; [apply object_uploaded_law| |done].
intros o' w' [Hq He]. split; [by eapply settled_quiet|done].
Qed.

Lemma written_step b name data w w1 w' :
written b name data w w1 → store_step w1 w' → store_inv w1 → written b name data w w'.
Proof.
intros [Hw Hor] Hst Hi. pose proof (store_step_files w1 w' Hst Hi) as Hf.
split; [intros Hc; rewrite Hf; by apply Hw|]. by destruct Hor; [left|right]; rewrite Hf.
Qed.
Lemma written_now b name data w w' :
files w' ≡ fs_write (b_id b) name data (files w) → written b name data w w'.
Proof. intros Hf. split; [done|by left]. Qed.
Lemma written_proper b name data w0 w w' :
files w ≡ files w0 → written b name data w w' → written b name data w0 w'.
Proof.
intros Hf [Hw Hor]. split.
- intros Hc. rewrite <- Hf. apply Hw. destruct Hc as [Hc|]; [left|by right]. by rewrite (Hf (b_id b) name).
- by destruct Hor; [left|right]; rewrite <- Hf.
Qed.
Lemma stored_at_intro b name data w w1 w' o o' :
store_inv w1 → written b name data w w1 →
db_objects (w_db w1) !! o_id o = Some o → o_bucket_id o = b_id b → o_name o = name →
usage_change w w1 (b_company_id b)
  (o_size o - from_option o_size 0 (find_object (w_db w) (b_id b) name)) →
settled w1 w' → erase_metadata o' = erase_metadata o → stored_at b name data w o' w'.
Proof.
intros Hinv1 Hf1 Hrow Hb Hn Hus Hset He.
pose proof (erase_metadata_fields _ _ He) as (Hi & ? & ? & _).
split; [by eapply settled_storage_inv| |congruence|congruence| |].
- destruct Hset as [Hstep _]. by apply (written_step b name data w w1).
- destruct Hset as [Hstep _]. pose proof (f_equal (.!! o_id o) (ss_objects _ _ Hstep)) as Hl.
  rewrite !lookup_fmap, Hrow in Hl. simpl in Hl. rewrite Hi.
  destruct (db_objects (w_db w') !! o_id o) as [o2|]; [|done]. simpl in Hl.
  exists o2. split; congruence.
- eapply settled_usage; [|done]. by rewrite (f_equal o_size He : o_size o' = o_size o).
Qed.

Lemma wp_store_new_object b name data owner size etag mime meta r w :
storage_inv w → db_buckets (w_db w) !! b_id b = Some b →
find_object (w_db w) (b_id b) name = None → 0 ≤ size →
(Overwriting → Z.of_nat (length data) = size) →
wp (store_new_object b name data owner size etag mime meta r)
  (λ o w', stored_at b name data w o w' ∧ o_etag o = etag ∧ o_size o = size ∧
           o_owner_id o = owner ∧ o_mime_type o = mime)
  (λ e w', blobs_grow w w' ∧ save_failed e) w.
Proof.
intros [Hinv Hq] Hb Hnone Hnn Hlen. unfold store_new_object.
apply wp_bind. unfold wp at 1, uuid4. cbv beta iota zeta.
set (i := w_next_uuid w). set (wa := World _ _ _ _).
set (key := build_storage_key _ _ _ _).
assert (Hkey : key_uuid key = uuid_str i) by apply key_uuid_build.
apply wp_bind, wp_save_blob_free; [by apply (key_fresh w key i); [..|unfold i; lia]|..].
2: { intros e m' Hsub Hoff Hfail. split; [|done]. split; simpl; [done| |lia]. intros k c Hk.
     destruct (decide (k = key)) as [->|Hne]; [right; exists i; split; [lia|done]|].
     left. by rewrite (Hoff k Hne) in Hk. }
unfold now, create_object_row, get_db, modify_db. wp_steps.
change (w_db (set_blobs _ wa)) with (w_db w). cbn [o_bucket_id o_name].
rewrite Hnone. rewrite bool_decide_false by (by intros [? ?]).
wp_steps. cbn [o_id]. set (o := StorageObject _ _ _ _ _ _ _ _ _ _ _ _ _ _).
match goal with |- wp _ _ _ ?x => set (wb := x) end.
destruct (inv_new_object w wb o data b) as [Hinvb Hfb];
  try done; [simpl; lia|by apply eq_refl..|].
assert (Hfresh : db_objects (w_db w) !! i = None).
{ apply eq_None_not_Some. intros [o1 Ho1]. pose proof (inv_object_fresh w Hinv i o1 Ho1). lia. }
assert (Hgrow : ∀ c, stored_bytes (w_db wb) c =
          stored_bytes (w_db w) c + (if c == b_company_id b then size else 0)).
{ intros c. rewrite (stored_bytes_insert (w_db w) _ i o c) by done.
  unfold size_in. change (o_company_id o) with (b_company_id b). change (o_size o) with size.
  rewrite (bool_decide_ext (b_company_id b = c) (c = b_company_id b)) by done. lia. }
eapply wp_mono; [apply (wp_settle _ _ _ _ (λ _ _, False)); [done|]| |done].
{ intros c. rewrite Hgrow. change (company_used (w_db wb) c) with (company_used (w_db w) c).
  by rewrite Hq. }
intros u1 w1 Hset1. apply wp_bind. eapply wp_mono; [apply wp_apply_default_private| |done].
intros u2 w2 Hg2. eapply wp_mono; [by apply (wp_notify wb _ _ _ _ (λ _ _, False)), (settled_grants _ w1)| |done].
intros o' w' [Hset He].
split; [|exact (conj (f_equal o_etag He) (conj (f_equal o_size He)
                  (conj (f_equal o_owner_id He) (f_equal o_mime_type He))))].
apply (stored_at_intro b name data w wb w' o o'); try done;
  [by apply written_now|by apply lookup_insert_eq|].
rewrite Hnone. simpl. split; [|done]. intros c. rewrite Hgrow. by rewrite Z.sub_0_r.
Qed.

Lemma wp_overwrite_object b old name data owner mime meta r w :
storage_inv w → db_buckets (w_db w) !! b_id b = Some b →
find_object (w_db w) (b_id b) name = Some old →
wp (overwrite_object b old data owner mime meta r)
  (λ o w', stored_at b name data w o w' ∧ o_etag o = content_etag data ∧
           o_size o = Z.of_nat (length data) ∧ o_id o = o_id old ∧
           o_version o = o_version old + 1 ∧ o_mime_type o = mime)
  (λ e w', blobs_grow w w' ∧ save_failed e) w.
Proof.
intros [Hinv Hq] Hb Hold. pose proof Hold as Hfo.
apply find_object_iff in Hold as ([i Hi] & Hbk & Hnm); [|done].
pose proof (inv_object_id w Hinv i old Hi) as Hid. unfold overwrite_object.
apply wp_bind, wp_save_blob.
2: { intros e m' Hsub Hoff Hfail. split; [|done]. split; simpl; [done| |lia]. intros k c Hk.
     destruct (decide (k = o_storage_key old)) as [->|Hne].
     - right. exists i. split; [by apply (inv_object_fresh w Hinv i old)|by apply (inv_key w Hinv)].
     - left. by rewrite (Hoff k Hne) in Hk. }
intros k _ Hov Halt.
unfold now, modify_db. wp_steps. set (o := StorageObject _ _ _ _ _ _ _ _ _ _ _ _ _ _).
match goal with |- wp _ _ _ ?x => set (wb := x) end.
destruct (inv_replace_object w wb i old o data k) as (Hinvb & Hfb & Hfk);
  try done; [simpl; lia|intros Ho; by split; [apply Hov|]|unfold wb; simpl; by rewrite Hid|].
destruct (inv_company w Hinv i old Hi) as (b' & Hb' & Hco).
assert (b' = b) as -> by congruence.
assert (Hgrow : ∀ c, stored_bytes (w_db wb) c = stored_bytes (w_db w) c +
          (if c == b_company_id b then o_size o - o_size old else 0)).
{ intros c. rewrite (stored_bytes_replace (w_db w) _ i old o c); [|done|unfold wb; simpl; by rewrite Hid].
  unfold size_in. change (o_company_id o) with (o_company_id old). rewrite <- Hco.
  change (o_size o) with (Z.of_nat (length data)).
  rewrite (bool_decide_ext (b_company_id b = c) (c = b_company_id b)) by done.
  case_bool_decide; lia. }
eapply wp_mono; [apply (wp_settle _ _ _ _ (λ _ _, False)); [done|]| |done].
{ intros c. rewrite Hgrow. change (company_used (w_db wb) c) with (company_used (w_db w) c).
  by rewrite Hq. }
intros u1 w1 Hset1.
eapply wp_mono; [by apply (wp_notify wb _ _ _ _ (λ _ _, False))| |done].
intros o' w' [Hset He].
split; [|exact (conj (f_equal o_etag He) (conj (f_equal o_size He) (conj (f_equal o_id He)
                  (conj (f_equal o_version He) (f_equal o_mime_type He)))))].
apply (stored_at_intro b name data w wb w' o o'); try done.
- rewrite Hbk, Hnm in Hfb. split.
  + intros [Hnone|Ho]; [|by apply Hfb, Hov]. assert (Hs : is_Some (files w (b_id b) name)).
    { by apply files_is_Some; [|rewrite Hfo]. }
    rewrite Hnone in Hs. by destruct Hs.
  + destruct (decide (k = o_storage_key old)); [left|right]; auto.
- unfold wb. simpl. rewrite Hid. apply lookup_insert_eq.
- by rewrite Hfo.
Qed.

(** [upload_object], every branch. *)
Definition upload_error (w : world) (w' : world) : Prop :=
w_db w' = w_db w ∧ storage_inv w' ∧ files w' ≡ files w.

Lemma wp_atomic_inv {A} (m : prog A) (Q : A → world → Prop) w :
storage_inv w → wp m Q (λ _ w', blobs_grow w w') w →
wp (atomic m) Q (λ _ w', upload_error w w') w.
Proof.
intros Hinv Hm. apply wp_atomic. eapply wp_mono; [exact Hm|done|].
intros e w' Hg. split; [done|]. by apply rolled_back.
Qed.

Lemma take_all {A} (l : list A) n m : Z.of_nat (length (take (Z.to_nat (n + 1)) l)) <= n →
m = Z.to_nat (n + 1) → take m l = l.
Proof. intros Hl ->. rewrite length_take in Hl. apply take_ge. lia. Qed.
Lemma wp_read_upload_bytes content limit w (Q : bytes → world → Prop) (R : exn → world → Prop) :
(Z.of_nat (length content) ≤ limit → Q content w) →
(limit < Z.of_nat (length content) → R (StorageError 413 "payload_too_large") w) →
wp (read_upload_bytes content limit) Q R w.
Proof.
intros HQ HR. unfold read_upload_bytes. cbv zeta. destruct (Z.ltb_spec (limit + 1) 0).
- rewrite (proj2 (Z.ltb_lt _ _)) by lia. apply wp_raise, HR. lia.
- apply wp_if; intros Hl; [apply Z.ltb_lt in Hl|apply Z.ltb_ge in Hl].
  + apply wp_raise, HR. rewrite length_take in Hl. lia.
  + apply wp_ret. rewrite length_take in Hl. rewrite take_ge by lia. apply HQ. lia.
Qed.

Definition upload_post (b : bucket) (path : string) (content : bytes) (owner : option Z)
  (ct : option string) (upsert : bool) (w : world) (o : sobject) (w' : world) : Prop :=
∃ name, safe_object_path path = inr name ∧ stored_at b name content w o w' ∧
 o_etag o = content_etag content ∧ o_size o = Z.of_nat (length content) ∧
 o_mime_type o = normalize_mime_type ct name ∧
 mime_allowed (o_mime_type o) (b_allowed_mime_types b) = true ∧
 Z.of_nat (length content) ≤ upload_limit b ∧
 (upsert = false → files w (b_id b) name = None) ∧
 let delta := o_size o - from_option o_size 0 (find_object (w_db w) (b_id b) name) in
 (delta ≤ 0 ∨ (company_fits (w_db w) (b_company_id b) delta ∧
               user_fits (w_db w) (b_company_id b) owner delta)).
Lemma wp_upload_object_with b path content owner ct upsert meta cc r w :
storage_inv w → db_buckets (w_db w) !! b_id b = Some b →
wp (upload_object_with b path content owner ct upsert meta cc r)
  (upload_post b path content owner ct upsert w)
  (λ _ w', upload_error w w') w.
Proof.
intros Hinv Hb. apply wp_atomic_inv; [done|].
assert (Hg : blobs_grow w w) by (apply blobs_same_grow; [done|lia]).
apply wp_bind. unfold lift_sum. destruct (safe_object_path path) as [e|name] eqn:Hp; [by wp_step|].
apply wp_ret. cbv zeta. apply wp_if; intros Hmime; [by wp_step|].
apply negb_false_iff in Hmime. unfold get_db. wp_steps.
apply wp_if; intros Hex; [by wp_step|]. wp_steps.
apply wp_read_upload_bytes; [|done]. intros Hlim. wp_steps. unfold quota_as_storage_error.
apply wp_try, wp_assert_can_store.
2: { intros e w1 Hs _. apply quota_step_grow in Hs. destruct e; simpl; first [exact Hs|by apply wp_raise]. }
intros w1 Hs _ Hfit. pose proof (quota_step_store _ _ Hs) as Hst.
assert (Hinv1 : storage_inv w1).
{ split; [eapply store_step_inv; [done|apply Hinv]|eapply quota_exact_step; [done|apply Hinv]]. }
pose proof (ss_buckets _ _ Hst) as Eb. pose proof (qf_objects _ _ (qs_frame _ _ Hs)) as Eo.
assert (Hfind : find_object (w_db w1) (b_id b) name = find_object (w_db w) (b_id b) name)
  by (unfold find_object; by rewrite Eo).
assert (Hfin : ∀ o w', stored_at b name content w1 o w' → o_etag o = content_etag content →
          o_size o = Z.of_nat (length content) → o_mime_type o = normalize_mime_type ct name →
          upload_post b path content owner ct upsert w o w').
{ intros o w' [Hi Hf Hbk Hnm Hrow Hus] He Hsz Hmt. exists name. rewrite Hmt, Hsz.
  split_and!; try done.
  - split; try done; [eapply written_proper, Hf; by rewrite (store_step_files w w1 Hst (proj1 Hinv))|].
    rewrite Hfind in Hus. by eapply quota_step_usage.
  - intros ->. apply andb_false_iff in Hex as [Hex|]; [|done].
    apply bool_decide_eq_false in Hex. apply eq_None_not_Some. intros Hsome. apply Hex.
    apply files_is_Some in Hsome; [done|apply Hinv]. }
apply wp_bind. destruct meta as [e|meta]; [by apply wp_raise, quota_step_grow|apply wp_ret].
destruct (find_object (w_db w) (b_id b) name) as [old|] eqn:Hfo.
- eapply wp_mono; [apply (wp_overwrite_object b old name); [done|by rewrite Eb|by rewrite Hfind]| |].
  + intros o w' (Hsa & He & Hsz & _ & _ & Hmt). by apply Hfin.
  + intros e w' [Hgr _]. eapply blobs_grow_trans; [by apply quota_step_grow|done].
- eapply wp_mono; [apply (wp_store_new_object b name); [done|by rewrite Eb|by rewrite Hfind|lia|done]| |].
  + intros o w' (Hsa & He & Hsz & _ & Hmt). by apply Hfin.
  + intros e w' [Hgr _]. eapply blobs_grow_trans; [by apply quota_step_grow|done].
Qed.
Lemma wp_upload_object b path content owner ct upsert meta cc r w :
storage_inv w → db_buckets (w_db w) !! b_id b = Some b →
wp (upload_object b path content owner ct upsert meta cc r)
  (upload_post b path content owner ct upsert w)
  (λ _ w', upload_error w w') w.
Proof. apply wp_upload_object_with. Qed.
End upload.

(** *** Deletion *)
(** The instance describes the stored row, up to metadata. *)
Definition current (w : world) (o : sobject) : Prop :=
  ∃ o', db_objects (w_db w) !! o_id o = Some o' ∧ erase_metadata o = erase_metadata o'.
Lemma current_step w w' o : store_step w w' → current w o → current w' o.
Proof.
  intros Hs (o' & Ho' & He). pose proof (f_equal (.!! o_id o) (ss_objects _ _ Hs)) as Hl.
  rewrite !lookup_fmap, Ho' in Hl. simpl in Hl.
  destruct (db_objects (w_db w') !! o_id o) as [o2|] eqn:Ho2; [|done]. simpl in Hl.
  exists o2. split; congruence.
Qed.
Lemma current_row `{Backend} w i o : store_inv w → db_objects (w_db w) !! i = Some o → current w o.
Proof. intros Hinv Ho. exists o. by rewrite (inv_object_id w Hinv i o Ho). Qed.

Section delete.
Context `{Settings, Backend, !BackendLaws, MimeTypes, Receivers, !ReceiverLaws}.

Definition is_backend_error (e : exn) : Prop := ∃ code, e = BackendError code.

Lemma wp_delete_object o r w :
storage_inv w → current w o →
wp (delete_object o r)
  (λ _ w', storage_inv w' ∧ files w' ≡ fs_remove (o_bucket_id o) (o_name o) (files w) ∧
           shrinks w w' ∧
           ∃ w1, store_step w1 w' ∧ db_objects (w_db w1) = delete (o_id o) (db_objects (w_db w)))
  (λ e w', is_backend_error e ∧ w_db w' = w_db w ∧ w_blobs w' = w_blobs w ∧
           w_next_uuid w' = w_next_uuid w) w.
Proof.
intros [Hinv Hq] (o' & Ho' & He). pose proof (erase_metadata_fields _ _ He) as
  (Hid & Hbk & Hnm & Hco & Hown & Hsz & Hkey).
apply wp_atomic. unfold get_db, modify_db. wp_steps.
apply wp_delete_storage_key; [|intros e; split; [by exists e|done]].
match goal with |- wp _ _ _ ?x => set (w1 := x) end.
destruct (inv_delete_object w w1 (o_id o) o') as [Hinv1 Hf1]; try done.
{ unfold w1. simpl. by rewrite Hkey. }
assert (Hgone : ∀ c, stored_bytes (w_db w1) c =
          stored_bytes (w_db w) c + (if c == o_company_id o then - o_size o else 0)).
{ intros c. rewrite (stored_bytes_delete (w_db w) _ (o_id o) o' c) by done.
  unfold size_in. rewrite Hco, Hsz, (bool_decide_ext (c = o_company_id o') (o_company_id o' = c)) by done.
  case_bool_decide; lia. }
apply wp_bind. eapply wp_mono; [apply (wp_settle _ _ _ _ (λ _ _, False)); [done|]| |done].
{ intros c. rewrite Hgone. change (company_used (w_db w1) c) with (company_used (w_db w) c).
  by rewrite Hq. }
intros u w2 Hset. eapply wp_mono; [apply object_deleted_law| |done].
intros u' w3 Hqt. assert (Hset3 : settled w1 w3) by (by apply (settled_quiet _ w2)).
split_and!.
- by eapply settled_storage_inv.
- rewrite (store_step_files w1 w3) by (done || apply Hset3). rewrite Hf1. by rewrite Hbk, Hnm.
- apply (settled_shrinks w w1); [|done]. apply (usage_shrinks _ _ (o_company_id o) (- o_size o)); [by split|].
  rewrite Hsz. pose proof (size_nonneg w _ o' Hinv Ho'). lia.
- exists w1. split; [apply Hset3|done].
Qed.

(** The abstract effect of deleting a list of objects. *)
Definition remove_all (objs : list sobject) (f : fs) : fs :=
λ b n, if existsb (λ o, (o_bucket_id o == b) && (o_name o == n)) objs then None else f b n.
Lemma remove_all_cons o objs f :
remove_all objs (fs_remove (o_bucket_id o) (o_name o) f) ≡ remove_all (o :: objs) f.
Proof.
intros b n. unfold remove_all, fs_remove. simpl.
destruct (existsb _ objs); [by rewrite orb_true_r|]. rewrite orb_false_r.
case_decide as Hd.
- destruct Hd as [-> ->]. by rewrite !bool_decide_true.
- destruct (_ && _) eqn:Hb; [|done]. apply andb_true_iff in Hb as [E1 E2].
  rewrite bool_decide_eq_true in E1, E2. naive_solver.
Qed.
#[export] Instance remove_all_proper objs : Proper ((≡) ==> (≡)) (remove_all objs).
Proof. intros f g Hfg b n. unfold remove_all. by rewrite Hfg. Qed.

Lemma wp_delete_each {A} (f : A → sobject) (g : A → string) (l : list A) r w :
storage_inv w → (∀ a, a ∈ l → current w (f a)) → NoDup ((o_id ∘ f) <$> l) →
wp (map_m (λ a, delete_object (f a) r ;;; ret (g a)) l)
  (λ names w', names = g <$> l ∧ storage_inv w' ∧ files w' ≡ remove_all (f <$> l) (files w) ∧
     shrinks w w')
  (λ e _, is_backend_error e) w.
Proof.
revert w. induction l as [|a l IH]; intros w Hinv Hcur Hnd; cbn [map_m].
{ apply wp_ret. by split_and!. }
rewrite fmap_cons in Hnd. apply NoDup_cons in Hnd as [Hni Hnd].
do 2 apply wp_bind. eapply wp_mono; [apply wp_delete_object; [done|apply Hcur; by left]| |].
2: { by intros e w' (? & _). }
intros u w1 (Hinv1 & Hf1 & Hsh & w0 & Hst & Eo). apply wp_ret, wp_bind.
eapply wp_mono; [apply IH; [done| |done]| |done].
- intros a' Ha'. apply (current_step w0 w1); [done|].
  destruct (Hcur a' ltac:(by right)) as (o' & Ho' & He). exists o'. split; [|done].
  rewrite Eo, lookup_delete_ne; [done|]. intros Heq. apply Hni.
  apply list_elem_of_fmap. exists a'. done.
- intros names w2 (-> & Hinv2 & Hf2 & Hsh2). apply wp_ret. split_and!; [done..| |by etrans].
  rewrite Hf2, Hf1. simpl. apply remove_all_cons.
Qed.

Lemma wp_assert_can_write_all b p objs w (Q : unit → world → Prop) (R : exn → world → Prop) :
((∀ o, o ∈ objs → can_access_path (w_now w) (w_db w) p b (o_name o) (Some (o_id o)) true false
    = true) → Q tt w) →
R (StorageError 403 "path_access_denied") w →
wp (assert_can_write_all b p objs) Q R w.
Proof.
unfold assert_can_write_all. induction objs as [|o objs IH]; intros HQ HR; cbn [for_each].
- apply wp_ret, HQ. intros o Ho. by apply not_elem_of_nil in Ho.
- apply wp_bind, wp_assert_can_access_path; [|done]. intros Hc. apply IH; [|done].
  intros Hall. apply HQ. intros o' [->|Ho']%elem_of_cons; auto.
Qed.

Lemma elem_of_objects_under_prefix d b folder o :
o ∈ objects_under_prefix d b folder ↔
(∃ i, db_objects d !! i = Some o) ∧ o_bucket_id o = b_id b ∧
startswith (prefix_filter folder) (o_name o) = true.
Proof.
unfold objects_under_prefix. rewrite elem_of_sort_by, list_elem_of_filter, elem_of_rows.
naive_solver.
Qed.
Lemma elem_of_bucket_files d b o :
o ∈ bucket_files d b ↔ (∃ i, db_objects d !! i = Some o) ∧ o_bucket_id o = b_id b.
Proof.
unfold bucket_files. rewrite elem_of_sort_by, list_elem_of_filter, elem_of_rows. naive_solver.
Qed.
Lemma nodup_rows_ids w : store_inv w → NoDup (o_id <$> rows (db_objects (w_db w))).
Proof.
intros Hinv. unfold rows. rewrite <- list_fmap_compose.
rewrite (list_fmap_ext _ fst); [apply NoDup_fst_map_to_list|].
intros j [i o] Hj. simpl. apply (inv_object_id w Hinv).
apply elem_of_map_to_list. by apply list_elem_of_lookup_2 in Hj.
Qed.
Lemma nodup_filter_ids (P : sobject → Prop) `{∀ o, Decision (P o)} le w :
store_inv w → NoDup (o_id <$> sort_by le (filter P (rows (db_objects (w_db w))))).
Proof.
intros Hinv. rewrite sort_by_perm. by apply NoDup_fmap_filter, nodup_rows_ids.
Qed.
End delete.

(** *** Copies, moves, markers *)
Section relocate.
Context `{Settings, Backend, !BackendLaws, MimeTypes, Receivers, !ReceiverLaws}.

Lemma find_object_current w bid name o :
store_inv w → find_object (w_db w) bid name = Some o →
db_objects (w_db w) !! o_id o = Some o ∧ o_bucket_id o = bid ∧ o_name o = name ∧
∃ c, files w bid name = Some c ∧ w_blobs w !! o_storage_key o = Some c ∧
     0 ≤ o_size o ∧ (Overwriting → Z.of_nat (length c) = o_size o).
Proof.
intros Hinv Hf. pose proof Hf as Hf'. apply find_object_iff in Hf as ([i Hi] & Hb & Hn); [|done].
destruct (inv_content w Hinv i o Hi) as (Hnn & c & Hc & Hl).
rewrite (inv_object_id w Hinv i o Hi). split_and!; try done.
exists c. unfold files. by rewrite Hf'.
Qed.

Lemma wp_copy_object b source db_ dest owner r w :
storage_inv w → db_buckets (w_db w) !! b_id b = Some b →
db_buckets (w_db w) !! b_id db_ = Some db_ →
wp (copy_object b source db_ dest owner r)
  (λ o w', ∃ src dst c, safe_object_path source = inr src ∧ safe_object_path dest = inr dst ∧
     files w (b_id b) src = Some c ∧ files w (b_id db_) dst = None ∧
     stored_at db_ dst c w o w' ∧
     (o_size o ≤ 0 ∨ (company_fits (w_db w) (b_company_id db_) (o_size o) ∧
                      user_fits (w_db w) (b_company_id db_) owner (o_size o))))
  (λ _ w', upload_error w w') w.
Proof.
intros Hinv Hb Hdb. apply wp_atomic_inv; [done|].
assert (Hg : blobs_grow w w) by (apply blobs_same_grow; [done|lia]).
apply wp_bind. unfold lift_sum. destruct (safe_object_path source) as [e|src]; [by wp_step|].
apply wp_ret, wp_bind. destruct (safe_object_path dest) as [e|dst]; [by wp_step|].
unfold get_db. wp_steps. destruct (find_object (w_db w) (b_id b) src) as [o|] eqn:Hfo; [|by wp_step].
apply wp_if; intros Hex; [by wp_step|]. apply bool_decide_eq_false in Hex.
apply wp_if; intros Hco; [by wp_step|]. apply wp_bind. unfold quota_as_storage_error.
apply wp_try, wp_assert_can_store.
2: { intros e w1 Hs _. apply quota_step_grow in Hs. destruct e; simpl; first [exact Hs|by apply wp_raise]. }
intros w1 Hs _ Hfit. pose proof (quota_step_store _ _ Hs) as Hst.
assert (Hinv1 : storage_inv w1).
{ split; [eapply store_step_inv; [done|apply Hinv]|eapply quota_exact_step; [done|apply Hinv]]. }
pose proof (ss_buckets _ _ Hst) as Eb. pose proof (qf_objects _ _ (qs_frame _ _ Hs)) as Eo.
apply find_object_current in Hfo as (Ho & Hbk & Hnm & c & Hfc & Hc & Hnn & Hlen); [|apply Hinv].
assert (Hnone : find_object (w_db w) (b_id db_) dst = None) by (by apply eq_None_not_Some).
apply wp_bind, wp_default_storage_open; [|intros e; by apply quota_step_grow].
intros c1 Hc1. rewrite (qs_blobs _ _ Hs) in Hc1. assert (c1 = c) as -> by congruence.
eapply wp_mono; [apply (wp_store_new_object db_ dst c)|..].
- done.
- by rewrite Eb.
- unfold find_object. by rewrite Eo.
- done.
- done.
- intros o' w' ([Hi Hf Hb' Hn' Hrow Hus] & _ & Hsz & _). exists src, dst, c.
  split_and!; try done; [unfold files; by rewrite Hnone| |by rewrite Hsz; rewrite Z.sub_0_r in Hfit].
  split; try done; [eapply written_proper, Hf; by rewrite (store_step_files w w1 Hst (proj1 Hinv))|].
  eapply quota_step_usage; [done|]. unfold find_object in Hus. by rewrite Eo in Hus.
- intros e w' [Hgr _]. eapply blobs_grow_trans; [by apply quota_step_grow|done].
Qed.

Lemma wp_ensure_folder_marker b folder owner w :
storage_inv w → db_buckets (w_db w) !! b_id b = Some b →
let name := folder_placeholder_path folder in
wp (ensure_folder_marker b folder owner)
  (λ o w', storage_inv w' ∧ o_bucket_id o = b_id b ∧ o_name o = name ∧
     db_objects (w_db w') !! o_id o = Some o ∧
     (∀ c, files w (b_id b) name = Some c → w' = w) ∧
     (files w (b_id b) name = None → files w' ≡ fs_write (b_id b) name [] (files w)) ∧
     shrinks w w')
  (λ _ w', w_db w' = w_db w ∧ storage_inv w' ∧ files w' ≡ files w) w.
Proof.
intros [Hinv Hq] Hb name. unfold ensure_folder_marker, get_db. fold name. wp_steps. cbv zeta.
destruct (find_object (w_db w) (b_id b) name) as [o|] eqn:Hfo.
{ apply find_object_current in Hfo as (Ho & Hbk & Hnm & c & Hfc & _); [|done].
  apply wp_ret. split_and!; try done. intros Hno. congruence. }
apply wp_bind. unfold wp at 1, uuid4. cbv beta iota zeta.
set (i := w_next_uuid w). set (wa := World _ _ _ _). set (key := build_storage_key _ _ _ _).
assert (Hkey : key_uuid key = uuid_str i) by apply key_uuid_build.
apply wp_bind, wp_save_blob_free; [by apply (key_fresh w key i); [..|unfold i; lia]|..].
2: { intros e m' Hsub Hoff _. set (w1 := set_blobs _ wa).
     assert (Hg : blobs_grow w w1).
     { split; simpl; [done| |lia]. intros k c Hk.
       destruct (decide (k = key)) as [->|Hne]; [right; exists i; split; [lia|done]|].
       left. by rewrite (Hoff k Hne) in Hk. }
     split; [done|]. exact (rolled_back w w1 (conj Hinv Hq) Hg). }
unfold now, create_object_row, get_db, modify_db. wp_steps.
change (w_db (set_blobs _ wa)) with (w_db w). cbn [o_bucket_id o_name].
rewrite Hfo. rewrite bool_decide_false by (by intros [? ?]). wp_steps. cbn [o_id].
set (o := StorageObject _ _ _ _ _ _ _ _ _ _ _ _ _ _).
match goal with |- context [set_db ?f ?x] => set (w1 := set_db f x) end.
destruct (inv_new_object w w1 o [] b) as [Hinv1 Hf1]; try done; [simpl; lia|].
assert (Hfresh : db_objects (w_db w) !! i = None).
{ apply eq_None_not_Some. intros [o1 Ho1]. pose proof (inv_object_fresh w Hinv i o1 Ho1). lia. }
assert (Hsame : ∀ c, stored_bytes (w_db w1) c = stored_bytes (w_db w) c).
{ intros c. rewrite (stored_bytes_insert (w_db w) _ i o c) by done.
  unfold size_in. simpl. case_bool_decide; lia. }
split_and!; try done.
- split; [done|]. intros c. rewrite Hsame.
  change (company_used (w_db w1) c) with (company_used (w_db w) c). apply Hq.
- by apply lookup_insert_eq.
- intros c. unfold files. by rewrite Hfo.
- split; [|done]. intros c. by rewrite Hsame.
Qed.

(** [save_name] moves a current row to a free place. *)
Lemma wp_save_name o bid' name' w (R : exn → world → Prop) :
storage_inv w → current w o →
(∃ b', db_buckets (w_db w) !! bid' = Some b' ∧ b_company_id b' = o_company_id o) →
(∀ j o1, db_objects (w_db w) !! j = Some o1 → o_bucket_id o1 = bid' → o_name o1 = name' →
   j = o_id o) →
wp (save_name o bid' name')
  (λ o' w', storage_inv w' ∧ files w' ≡ fs_move (o_bucket_id o) (o_name o) bid' name' (files w) ∧
     o_id o' = o_id o ∧ o_bucket_id o' = bid' ∧ o_name o' = name' ∧
     db_buckets (w_db w') = db_buckets (w_db w) ∧
     (∃ t, db_objects (w_db w') = alter (relocated bid' name' t) (o_id o) (db_objects (w_db w))) ∧
     w_blobs w' = w_blobs w ∧ w_next_uuid w' = w_next_uuid w ∧ shrinks w w') R w.
Proof.
intros [Hinv Hq] (o2 & Ho2 & He) Hb' Hfree.
pose proof (erase_metadata_fields _ _ He) as (Hid & Hbk & Hnm & Hco & _).
unfold save_name, now, modify_db. wp_steps.
match goal with |- context [set_db ?f ?x] => set (w1 := set_db f x) end.
destruct (inv_relocate w w1 (o_id o) o2 bid' name' (w_now w)) as [Hinv1 Hf1]; try done.
{ by rewrite <- Hco. }
assert (Hsame : ∀ c, stored_bytes (w_db w1) c = stored_bytes (w_db w) c).
{ intros c. by apply (stored_bytes_relocate (w_db w) (w_db w1) (o_id o) bid' name' (w_now w)). }
split_and!; try done.
- split; [done|]. intros c. rewrite Hsame. apply Hq.
- by rewrite Hbk, Hnm.
- by exists (w_now w).
- split; [|done]. intros c. by rewrite Hsame.
Qed.

Lemma wp_move_object b source db_ dest w :
storage_inv w → db_buckets (w_db w) !! b_id b = Some b →
db_buckets (w_db w) !! b_id db_ = Some db_ →
wp (move_object b source db_ dest)
  (λ o w', ∃ src dst c, safe_object_path source = inr src ∧ safe_object_path dest = inr dst ∧
     files w (b_id b) src = Some c ∧ files w (b_id db_) dst = None ∧
     storage_inv w' ∧ files w' ≡ fs_move (b_id b) src (b_id db_) dst (files w) ∧
     o_bucket_id o = b_id db_ ∧ o_name o = dst ∧ shrinks w w')
  (λ _ w', upload_error w w') w.
Proof.
intros Hinv Hb Hdb. apply wp_atomic_inv; [done|].
assert (Hg : blobs_grow w w) by (apply blobs_same_grow; [done|lia]).
apply wp_bind. unfold lift_sum. destruct (safe_object_path source) as [e|src]; [by wp_step|].
apply wp_ret, wp_bind. destruct (safe_object_path dest) as [e|dst]; [by wp_step|].
unfold get_db. wp_steps. destruct (find_object (w_db w) (b_id b) src) as [o|] eqn:Hfo; [|by wp_step].
apply wp_if; intros Hex; [by wp_step|]. apply bool_decide_eq_false in Hex.
assert (Hnone : find_object (w_db w) (b_id db_) dst = None) by (by apply eq_None_not_Some).
pose proof (proj1 (find_object_None w _ _) Hnone) as Hfree.
apply find_object_current in Hfo as (Ho & Hbk & Hnm & c & Hfc & _); [|apply Hinv].
assert (Hcur : current w o) by (by exists o).
destruct (inv_company w (proj1 Hinv) _ o Ho) as (b1 & Hb1 & Hco1).
assert (b1 = b) as -> by congruence.
assert (Hnof : files w (b_id db_) dst = None) by (unfold files; by rewrite Hnone).
apply wp_if; intros Hsame; [apply bool_decide_eq_true in Hsame|apply bool_decide_eq_false in Hsame].
- eapply wp_mono; [apply (wp_save_name _ _ _ _ (λ _ _, False))| |done]; [done|done|by exists b| |].
  + intros j o1 Hj Hbk1 Hn1. destruct (Hfree j o1 Hj); congruence.
  + intros o' w' (Hi & Hf & _ & Hb' & Hn' & _ & _ & _ & _ & Hsh). exists src, dst, c.
    split_and!; try done; [|congruence]. rewrite Hf. by rewrite Hnm, Hbk, Hsame.
- apply wp_if; intros Hc; [by wp_step|]. apply negb_false_iff, bool_decide_eq_true in Hc.
  apply wp_bind.
  eapply wp_mono; [apply (wp_save_name _ _ _ _ (λ _ _, False))| |done]; [done|done| | |].
  + exists db_. split; [done|]. congruence.
  + intros j o1 Hj Hbk1 Hn1. destruct (Hfree j o1 Hj); congruence.
  + intros o' w' (Hi & Hf & _ & Hb' & Hn' & _ & _ & _ & _ & Hsh). unfold modify_db. wp_steps.
    exists src, dst, c. match goal with |- context [set_db ?f ?x] => set (w2 := set_db f x) end.
    assert (Hgr : grants_step w' w2) by (split_and!; [by eexists|done|done|simpl; lia]).
    assert (Hset : settled w' w2) by (apply (settled_grants w' w'), Hgr; apply settled_refl, Hi).
    split_and!; try done.
    * eapply settled_storage_inv; [apply Hi|done].
    * rewrite (store_step_files w' w2 (grants_store _ _ Hgr) (proj1 Hi)), Hf. by rewrite Hnm, Hbk.
    * by eapply settled_shrinks.
Qed.
End relocate.
