(* ===== verification/Folders.v ===== *)
(** * Folders: renames and recursive deletes act on whole subtrees *)
From S2P Require Import Prelude PyStr Models Mime Signals Access Quotas Backends Services FileStore.

(** ** Strings below a folder *)
Lemma str_drop_startswith p n :
  startswith p n = true → p +:+ str_drop (String.length p) n = n.
Proof. intros [t ->]%startswith_spec. by rewrite str_drop_app. Qed.
Lemma startswith_slash p n :
  startswith (p +:+ "/") n = true ↔ ∃ t, n = p +:+ String "/" t.
Proof.
  rewrite startswith_spec. split; intros [t ->]; exists t; by rewrite str_app_assoc || done.
Qed.
Lemma app_prefix_cases s1 s2 t1 t2 :
  s1 +:+ t1 = s2 +:+ t2 → (∃ u, s2 = s1 +:+ u) ∨ (∃ u, s1 = s2 +:+ u).
Proof.
  revert s2. induction s1 as [|c s1 IH]; intros [|c2 s2] He; [left; by exists ""|left; by exists (String c2 s2)|right; by exists (String c s1)|].
  rewrite !str_app_cons in He. injection He as -> He.
  destruct (IH s2 He) as [[u ->]|[u ->]]; [left|right]; by exists u.
Qed.

(** ** Renaming a list of names *)
Section rename.
Context (bid : uuid) (src dst : string).

Definition new_name (m : string) : string := dst +:+ str_drop (String.length src) m.
Definition old_name (n : string) : string := src +:+ str_drop (String.length dst) n.
Definition rename_names (ms : list string) (f : fs) : fs :=
foldl (λ f m, fs_move bid m bid (new_name m) f) f ms.

(** No path lies below both folders. *)
Definition disjoint_folders : Prop :=
∀ n, startswith (src +:+ "/") n = true → startswith (dst +:+ "/") n = true → False.

Lemma new_name_below m : startswith (src +:+ "/") m = true → startswith (dst +:+ "/") (new_name m) = true.
Proof.
intros [t ->]%startswith_slash. apply startswith_slash. exists t.
unfold new_name. by rewrite str_drop_app.
Qed.
Lemma old_new m : startswith (src +:+ "/") m = true → old_name (new_name m) = m.
Proof.
intros [t ->]%startswith_slash. unfold old_name, new_name. by rewrite !str_drop_app.
Qed.
Lemma new_old n : startswith (dst +:+ "/") n = true → new_name (old_name n) = n.
Proof.
intros [t ->]%startswith_slash. unfold old_name, new_name. by rewrite !str_drop_app.
Qed.
Lemma old_name_below n : startswith (dst +:+ "/") n = true → startswith (src +:+ "/") (old_name n) = true.
Proof.
intros [t ->]%startswith_slash. apply startswith_slash. exists t.
unfold old_name. by rewrite str_drop_app.
Qed.

Lemma rename_names_spec ms f b n :
disjoint_folders → NoDup ms → Forall (λ m, startswith (src +:+ "/") m = true) ms →
rename_names ms f b n =
  if decide (b = bid) then
    if decide (startswith (dst +:+ "/") n = true ∧ old_name n ∈ ms) then f b (old_name n)
    else if decide (n ∈ ms) then None else f b n
  else f b n.
Proof.
intros Hdis. revert f. induction ms as [|m ms IH]; intros f Hnd Hall; simpl.
{ repeat case_decide; set_solver. }
apply NoDup_cons in Hnd as [Hm Hnd]. apply Forall_cons in Hall as [Hbelow Hall].
rewrite IH by done. unfold fs_move.
case_decide as Hb; [subst b|rewrite decide_False by naive_solver; by rewrite decide_False by naive_solver].
assert (Hnm : new_name m ≠ m).
{ intros He. apply (Hdis m); [done|]. rewrite <- He at 1. by apply new_name_below. }
destruct (decide (n = new_name m)) as [->|Hnew].
- pose proof (new_name_below m Hbelow) as Hdn. rewrite old_new by done.
  rewrite (decide_False (P := _ ∧ m ∈ ms)) by naive_solver.
  rewrite (decide_True (P := _ ∧ m ∈ m :: ms)) by (split; [done|by left]).
  rewrite (decide_False (P := new_name m ∈ ms)).
  2: { intros Hin. rewrite Forall_forall in Hall. by apply (Hdis (new_name m)); [apply Hall|]. }
  by rewrite decide_True.
- rewrite (decide_False (P := bid = bid ∧ n = new_name m)) by naive_solver.
  destruct (decide (startswith (dst +:+ "/") n = true ∧ old_name n ∈ ms)) as [[Hdn Hin]|Hno].
  + rewrite (decide_True (P := _ ∧ old_name n ∈ m :: ms)) by (split; [done|by right]).
    rewrite decide_False; [rewrite decide_False; [done|]|].
    * intros [_ He]. apply Hm. by rewrite <- He.
    * intros [_ He]. apply (Hdis (old_name n)); [by apply old_name_below|].
      rewrite He. by apply new_name_below.
  + rewrite (decide_False (P := _ ∧ old_name n ∈ m :: ms)).
    2: { intros [Hdn [He|Hin]%elem_of_cons]; [|naive_solver].
         apply Hnew. rewrite <- He. symmetry. by apply new_old. }
    destruct (decide (n = m)) as [->|Hne].
    * rewrite (decide_False (P := m ∈ ms)), (decide_True (P := m ∈ m :: ms)) by (done || by left).
      by rewrite decide_True.
    * rewrite (decide_False (P := bid = bid ∧ n = m)) by naive_solver.
      rewrite (decide_ext (n ∈ ms) (n ∈ m :: ms)); [done|]. set_solver.
Qed.

(** Renaming every file below [src] is the abstract folder rename. *)
Lemma rename_names_folder ms f :
disjoint_folders → NoDup ms → Forall (λ m, startswith (src +:+ "/") m = true) ms →
(∀ n, startswith (src +:+ "/") n = true → is_Some (f bid n) → n ∈ ms) →
(∀ n, startswith (dst +:+ "/") n = true → f bid n = None) →
rename_names ms f ≡ fs_rename bid src dst f.
Proof.
intros Hdis Hnd Hall Hfull Hempty b n. rewrite rename_names_spec by done. unfold fs_rename.
fold (old_name n). case_decide as Hb; [subst b|done].
destruct (startswith (dst +:+ "/") n) eqn:Hdn.
- case_decide as Hin; [done|]. rewrite (Hempty n Hdn).
  assert (Hnone : f bid (old_name n) = None).
  { apply eq_None_not_Some. intros Hs. apply Hin. split; [done|].
    apply Hfull; [by apply old_name_below|done]. }
  rewrite Hnone. by case_decide.
- rewrite decide_False by naive_solver. destruct (startswith (src +:+ "/") n) eqn:Hsn.
  + case_decide as Hin; [done|]. apply eq_None_not_Some. intros Hs. by apply Hin, Hfull.
  + rewrite decide_False; [done|]. intros Hin. rewrite Forall_forall in Hall.
    rewrite Hall in Hsn by done. done.
Qed.
End rename.

(** ** The loop of [rename_folder] *)
Lemma wp_rename_all `{Settings, Backend} b src dst objs w (R : exn → world → Prop) :
  storage_inv w → (∀ o, o ∈ objs → current w o ∧ o_bucket_id o = b_id b ∧
                        startswith (src +:+ "/") (o_name o) = true) →
  NoDup (o_id <$> objs) →
  (∀ w', w_blobs w' = w_blobs w → w_next_uuid w' = w_next_uuid w →
     R (StorageError 400 "resource_already_exists") w') →
  wp (rename_all b src dst objs)
    (λ moved w', moved = new_name src dst ∘ o_name <$> objs ∧ storage_inv w' ∧
       files w' ≡ rename_names (b_id b) src dst (o_name <$> objs) (files w) ∧ shrinks w w') R w.
Proof.
  revert w. induction objs as [|o objs IH]; intros w Hinv Hobjs Hnd HR; simpl.
  { by apply wp_ret. }
  apply NoDup_cons in Hnd as [Hni Hnd].
  destruct (Hobjs o ltac:(by left)) as (Hcur & Hbk & Hpre). rewrite Hpre.
  unfold get_db. wp_steps. apply wp_if; intros Htaken; [by apply wp_raise, HR|].
  fold (new_name src dst (o_name o)) in *. unfold name_taken_by_other in Htaken.
  rewrite row_exists_false in Htaken.
  destruct Hcur as (o2 & Ho2 & He). pose proof (erase_metadata_fields _ _ He) as (_ & Hbk2 & _ & Hco & _).
  destruct (inv_company w (proj1 Hinv) _ o2 Ho2) as (b' & Hb' & Hbco).
  apply wp_bind. eapply wp_mono; [apply (wp_save_name o _ _ w (λ _ _, False))| |done];
    [done|by exists o2|by exists b'; rewrite Hbk2, Hco| |].
  { intros j o1 Hj Hbk1 Hn1. pose proof (Htaken j o1 Hj) as Hf. simpl in Hf.
    rewrite Hbk1, Hn1, Hbk in Hf. rewrite !bool_decide_true in Hf by done. simpl in Hf.
    apply negb_false_iff, bool_decide_eq_true in Hf.
    by rewrite <- (inv_object_id w (proj1 Hinv) j o1 Hj). }
  intros o' w1 (Hinv1 & Hf1 & _ & _ & _ & _ & [t Eo] & Eblobs & Euuid & Hsh1).
  apply wp_bind. eapply wp_mono; [apply (IH w1); [done| |done|]| |done].
  - intros o1 Ho1. destruct (Hobjs o1 ltac:(by right)) as ((o3 & Ho3 & He3) & Hbk3 & Hpre3).
    split_and!; [|done..]. exists o3. split; [|done]. rewrite Eo, lookup_alter_ne; [done|].
    intros Heq. apply Hni. rewrite Heq. by apply list_elem_of_fmap_2.
  - intros w' E1 E2. apply HR; congruence.
  - intros moved w2 (-> & Hinv2 & Hf2 & Hsh2). apply wp_ret. split_and!; [done..| |by etrans].
    rewrite Hf2. simpl. rewrite Hbk in Hf1. clear -Hf1.
    assert (Hp : ∀ ms f g, f ≡ g → rename_names (b_id b) src dst ms f ≡ rename_names (b_id b) src dst ms g).
    { intros ms. induction ms as [|m ms IHm]; intros f g Hfg; simpl; [done|]. apply IHm.
      intros b1 n1. unfold fs_move. by rewrite !Hfg. }
    by apply Hp.
Qed.

(** ** Canonical folders *)
Lemma canonical_ends q :
  canonical_path q →
  (∀ c, head_char q = Some c → c ≠ "/"%char) ∧ (∀ c, last_char q = Some c → c ≠ "/"%char).
Proof.
  intros (segs & Hne & Hok & ->). induction Hok as [|s l Hs Hl IH]; [done|].
  destruct Hs as (Hsne & _ & _ & Hslash & _). destruct l as [|s2 l].
  - simpl. split; intros c; [by apply has_char_head|by apply has_char_last].
  - rewrite join_char_cons by done. destruct (IH ltac:(done)) as [_ IHl]. split; intros c.
    + rewrite head_char_app by done. by apply has_char_head.
    + rewrite last_char_app by done.
      assert (Hj : join_char "/" (s2 :: l) ≠ "").
      { apply canonical_nonempty. by exists (s2 :: l). }
      change (String "/" (join_char "/" (s2 :: l))) with ("/" +:+ join_char "/" (s2 :: l)).
      rewrite last_char_app by done. apply IHl.
Qed.
Lemma canonical_strip q : canonical_path q → strip_char "/" q = q.
Proof.
  intros Hq. destruct (canonical_ends q Hq) as [Hh Hl]. apply strip_while_id.
  - intros c Hc. apply bool_decide_eq_false. auto.
  - intros c Hc. apply bool_decide_eq_false. auto.
Qed.
Lemma prefix_filter_canonical q : canonical_path q → prefix_filter q = q +:+ "/".
Proof.
  intros Hq. unfold prefix_filter. rewrite canonical_strip by done. unfold truthy.
  rewrite bool_decide_false; [done|]. by apply canonical_nonempty.
Qed.

(** Two folders, neither below the other, have no path in common. *)
Lemma disjoint_intro src dst :
  src ≠ dst → startswith (src +:+ "/") dst = false → startswith (dst +:+ "/") src = false →
  disjoint_folders src dst.
Proof.
  intros Hne H1 H2 n [t Ht]%startswith_slash [t' Ht']%startswith_slash. subst n.
  destruct (app_prefix_cases src dst (String "/" t) (String "/" t')) as [[u Hu]|[u Hu]]; [done|..].
  - destruct u as [|c u]; [by rewrite str_app_nil_r in Hu|]. rewrite Hu, str_app_assoc in Ht'.
    apply str_app_inv_head in Ht'. rewrite str_app_cons in Ht'. injection Ht' as <- _.
    apply Bool.not_true_iff_false in H1. apply H1, startswith_slash. by exists u.
  - destruct u as [|c u]; [by rewrite str_app_nil_r in Hu|]. rewrite Hu, str_app_assoc in Ht'.
    apply str_app_inv_head in Ht'. rewrite str_app_cons in Ht'. injection Ht' as -> _.
    apply Bool.not_true_iff_false in H2. apply H2, startswith_slash. by exists u.
Qed.
Lemma fs_rename_same bid src f : fs_rename bid src src f ≡ f.
Proof.
  intros b n. unfold fs_rename. case_decide as Hb; [|done].
  destruct (startswith (src +:+ "/") n) eqn:Hs; [|done].
  apply startswith_slash in Hs as [t ->]. by rewrite str_drop_app.
Qed.

Definition rename_post `{Settings, Backend} (b : bucket) (source dest : string) (w : world) (res : rename_result)
    (w' : world) : Prop :=
  ∃ src dst, safe_object_path source = inr src ∧ safe_object_path dest = inr dst ∧
    rn_from res = src ∧ rn_to res = dst ∧
    storage_inv w' ∧ files w' ≡ fs_rename (b_id b) src dst (files w) ∧ shrinks w w' ∧
    (src ≠ dst → disjoint_folders src dst ∧ files w (b_id b) dst = None ∧
       ∀ n, startswith (dst +:+ "/") n = true → files w (b_id b) n = None).

Lemma nil_elem {A} (l : list A) : (∀ x, x ∉ l) → l = [].
Proof. destruct l as [|x l]; [done|]. intros H. destruct (H x). by left. Qed.

Lemma wp_rename_folder `{Settings, Backend} b source dest w :
  storage_inv w → wp (rename_folder b source dest) (rename_post b source dest w)
    (λ _ w', upload_error w w') w.
Proof.
  intros Hinv. apply wp_atomic_inv; [done|].
  assert (Hg : blobs_grow w w) by (apply blobs_same_grow; [done|lia]).
  unfold lift_sum. apply wp_bind. destruct (safe_object_path source) as [e|src] eqn:Hsrc; [by wp_step|].
  apply wp_ret, wp_bind. destruct (safe_object_path dest) as [e|dst] eqn:Hdst; [by wp_step|].
  apply wp_ret. cbv zeta. pose proof (safe_object_path_canonical _ _ Hsrc) as Csrc.
  pose proof (safe_object_path_canonical _ _ Hdst) as Cdst.
  rewrite (canonical_strip src), (canonical_strip dst) by done.
  apply wp_if; intros _; [by wp_step|]. apply wp_if; intros Heq.
  { apply bool_decide_eq_true in Heq as <-. apply wp_ret. exists src, src.
    split_and!; try done. by rewrite fs_rename_same. }
  apply bool_decide_eq_false in Heq. apply wp_if; intros Hsd; [by wp_step|].
  unfold get_db. wp_steps.
  destruct (objects_under_prefix (w_db w) b src) as [|o0 objs0] eqn:Hobjs; [by wp_step|].
  apply wp_if; intros Hdest; [by wp_step|]. rewrite <- Hobjs.
  apply orb_false_iff in Hdest as [Hno Hnof]. apply bool_decide_eq_false in Hno, Hnof.
  assert (Hempty : ∀ o, o ∉ objects_under_prefix (w_db w) b dst).
  { intros o Ho. apply Hno. by destruct (objects_under_prefix (w_db w) b dst); [set_solver|]. }
  assert (Hin : ∀ o, o ∈ objects_under_prefix (w_db w) b src ↔ (∃ i, db_objects (w_db w) !! i = Some o) ∧
            o_bucket_id o = b_id b ∧ startswith (src +:+ "/") (o_name o) = true).
  { intros o. by rewrite elem_of_objects_under_prefix, prefix_filter_canonical. }
  assert (Hds : startswith (dst +:+ "/") src = false).
  { apply Bool.not_true_iff_false. intros Hp. assert (Ho0 : o0 ∈ objects_under_prefix (w_db w) b src)
      by (rewrite Hobjs; by left).
    apply (Hempty o0). apply Hin in Ho0 as (Hrow & Hbk & Hs).
    rewrite elem_of_objects_under_prefix, prefix_filter_canonical by done. split_and!; try done.
    apply startswith_spec in Hp as [t ->]. apply startswith_spec in Hs as [t' ->].
    rewrite !str_app_assoc. apply startswith_slash. eauto. }
  assert (Hdis : disjoint_folders src dst) by (by apply disjoint_intro).
  assert (Hnone : ∀ n, startswith (dst +:+ "/") n = true → files w (b_id b) n = None).
  { intros n Hn. apply eq_None_not_Some. intros Hs. apply files_is_Some in Hs as [o Ho]; [|apply Hinv].
    apply find_object_iff in Ho as (Hrow & Hbk & <-); [|apply Hinv].
    apply (Hempty o). by rewrite elem_of_objects_under_prefix, prefix_filter_canonical. }
  set (objs := sort_by deeper _).
  assert (Hobj : ∀ o, o ∈ objs ↔ o ∈ objects_under_prefix (w_db w) b src)
    by (intros o; apply elem_of_sort_by).
  apply wp_bind. eapply wp_mono; [apply (wp_rename_all _ _ _ _ _ (λ _ w', blobs_grow w w')); [done|..]|..].
  - intros o Ho. apply Hobj, Hin in Ho as ([i Hi] & Hbk & Hs). split_and!; try done.
    apply (current_row w i); [apply Hinv|done].
  - unfold objs. rewrite sort_by_perm. apply nodup_filter_ids, Hinv.
  - intros w' E1 E2. apply blobs_same_grow; [done|lia].
  - intros moved w1 (_ & Hinv1 & Hf1 & Hsh1). unfold get_db. wp_steps. exists src, dst.
    split_and!; try done; [|intros _; split_and!; [done| |done]].
    2: { apply eq_None_not_Some. intros Hs. apply Hnof. apply files_is_Some in Hs; [done|apply Hinv]. }
    rewrite Hf1. apply rename_names_folder; [done| | | |done].
    + assert (Hnd : NoDup (o_name <$> objects_under_prefix (w_db w) b src)).
      { apply NoDup_fmap_2_strong; [|apply (NoDup_fmap_1 o_id), nodup_filter_ids, Hinv].
        intros o o' ([i Hi] & Hb1 & _)%Hin ([j Hj] & Hb2 & _)%Hin Hn.
        assert (i = j) as -> by (eapply (inv_unique w (proj1 Hinv)); [done..|congruence|done]).
        congruence. }
      unfold objs. by rewrite sort_by_perm.
    + apply Forall_fmap, Forall_forall. intros o Ho. apply Hobj, Hin in Ho. naive_solver.
    + intros n Hn Hs. apply files_is_Some in Hs as [o Ho]; [|apply Hinv].
      apply find_object_iff in Ho as (Hrow & Hbk & <-); [|apply Hinv].
      apply list_elem_of_fmap_2. apply Hobj, Hin. done.
  - done.
Qed.

(** ** Recursive and batch deletion *)
Section delete.
Context `{Settings, Backend, !BackendLaws, MimeTypes, Receivers, !ReceiverLaws}.

(** How a deletion fails: refused before anything changed, or stopped by the storage
  backend, in which case the rows are restored but the blobs already deleted
  are gone. *)
Definition delete_failure (w : world) (e : exn) (w' : world) : Prop :=
(e = StorageError 403 "path_access_denied" ∧ w' = w) ∨
(is_backend_error e ∧ w_db w' = w_db w).

Lemma atomic_restores w : World (w_db w) (w_blobs w) (w_now w) (w_next_uuid w) = w.
Proof. by destruct w. Qed.

Lemma remove_all_where bid (P : string → bool) objs f :
(∀ o, o ∈ objs → o_bucket_id o = bid ∧ P (o_name o) = true) →
(∀ n, P n = true → is_Some (f bid n) → ∃ o, o ∈ objs ∧ o_name o = n) →
remove_all objs f ≡ fs_remove_where bid P f.
Proof.
intros Hobjs Hall b n. unfold remove_all, fs_remove_where.
destruct (existsb _ objs) eqn:Hex.
- apply existsb_elem in Hex as (o & Ho & [Hb Hn]%andb_true_iff).
  rewrite bool_decide_eq_true in Hb, Hn. subst b n. destruct (Hobjs o Ho) as [-> HP].
  by rewrite decide_True.
- case_decide as Hd; [|done]. destruct Hd as [-> HP]. apply eq_None_not_Some.
  intros Hs. destruct (Hall n HP Hs) as (o & Ho & <-).
  apply existsb_false_Forall in Hex. rewrite Forall_forall in Hex. specialize (Hex o Ho).
  destruct (Hobjs o Ho) as [Hb _]. simpl in Hex. by rewrite !bool_decide_true in Hex.
Qed.

Lemma wp_delete_under_prefix b folder p r w :
storage_inv w →
wp (delete_under_prefix b folder p r)
  (λ names w', storage_inv w' ∧
     files w' ≡ fs_remove_where (b_id b) (startswith (prefix_filter folder)) (files w) ∧
     names = o_name <$> objects_under_prefix (w_db w) b folder ∧ shrinks w w' ∧
     ∀ o, o ∈ objects_under_prefix (w_db w) b folder →
       can_access_path (w_now w) (w_db w) p b (o_name o) (Some (o_id o)) true false = true)
  (delete_failure w) w.
Proof.
intros Hinv. apply wp_atomic. unfold get_db. wp_steps.
apply wp_assert_can_write_all; [|left; by rewrite atomic_restores].
intros Hacc. set (objs := objects_under_prefix _ _ _) in *.
eapply wp_mono; [apply (wp_delete_each id o_name objs); [done| |]| |].
- intros o Ho. apply elem_of_objects_under_prefix in Ho as ([i Hi] & _).
  by apply (current_row w i); [apply Hinv|].
- apply nodup_filter_ids, Hinv.
- intros names w' (-> & Hinv' & Hf & Hsh). split_and!; try done. rewrite Hf, list_fmap_id.
  apply remove_all_where.
  + intros o (_ & Hb & Hs)%elem_of_objects_under_prefix. done.
  + intros n Hn Hs. apply files_is_Some in Hs as [o Ho]; [|apply Hinv].
    apply find_object_iff in Ho as (Hrow & Hb & Hnm); [|apply Hinv].
    exists o. split; [|done]. apply elem_of_objects_under_prefix. by rewrite Hnm.
- intros e w' He. by right.
Qed.

Lemma wp_empty_bucket b p r w :
storage_inv w →
wp (empty_bucket b p r)
  (λ _ w', storage_inv w' ∧ files w' ≡ fs_remove_where (b_id b) (λ _, true) (files w) ∧ shrinks w w' ∧
     ∀ o, o ∈ bucket_files (w_db w) b →
       can_access_path (w_now w) (w_db w) p b (o_name o) (Some (o_id o)) true false = true)
  (delete_failure w) w.
Proof.
intros Hinv. apply wp_atomic. unfold get_db. wp_steps.
apply wp_assert_can_write_all; [|left; by rewrite atomic_restores].
intros Hacc. set (objs := bucket_files _ _) in *.
apply (wp_for_each_map_m _ o_name).
eapply wp_mono; [apply (wp_delete_each id o_name objs); [done| |]| |].
- intros o Ho. apply elem_of_bucket_files in Ho as ([i Hi] & _).
  by apply (current_row w i); [apply Hinv|].
- apply nodup_filter_ids, Hinv.
- intros names w' (_ & Hinv' & Hf & Hsh). split_and!; try done. rewrite Hf, list_fmap_id.
  apply remove_all_where.
  + by intros o (_ & Hb)%elem_of_bucket_files.
  + intros n _ Hs. apply files_is_Some in Hs as [o Ho]; [|apply Hinv].
    apply find_object_iff in Ho as (Hrow & Hb & Hnm); [|apply Hinv].
    exists o. split; [|done]. by apply elem_of_bucket_files.
- intros e w' He. by right.
Qed.

(** The canonical paths among the requested ones. *)
Definition valid_paths (paths : list string) : list string :=
omap (λ p, match safe_object_path p with inr n => Some n | inl _ => None end) paths.

Lemma wp_collect_to_delete b p paths w (R : exn → world → Prop) :
R (StorageError 403 "path_access_denied") w →
wp (collect_to_delete b p paths)
  (λ l w', w' = w ∧
     l.*1 = filter (λ n, is_Some (find_object (w_db w) (b_id b) n)) (valid_paths paths) ∧
     ∀ n o, (n, o) ∈ l → find_object (w_db w) (b_id b) n = Some o ∧
       can_access_path (w_now w) (w_db w) p b n (Some (o_id o)) true false = true) R w.
Proof.
intros HR. induction paths as [|raw paths IH]; simpl.
{ apply wp_ret. split_and!; [done..|]. intros n o Hin. by apply not_elem_of_nil in Hin. }
destruct (safe_object_path raw) as [e|name]; [done|]. unfold get_db. wp_steps.
destruct (find_object (w_db w) (b_id b) name) as [o|] eqn:Hfo.
2: { rewrite filter_cons_False; [done|]. rewrite Hfo. by intros [? ?]. }
apply wp_bind, wp_assert_can_access_path; [|done]. intros Hacc. apply wp_bind.
eapply wp_mono; [apply IH| |done]. intros l w' (-> & Hl & Hall). apply wp_ret.
split_and!; [done| |].
- rewrite filter_cons_True by (rewrite Hfo; by eexists). by rewrite fmap_cons, Hl.
- intros n o' [[= -> ->]|Hin]%elem_of_cons; [done|]. by apply Hall.
Qed.

Lemma wp_delete_paths b paths p r w :
storage_inv w → NoDup (valid_paths paths) →
wp (delete_paths b paths p r)
  (λ names w', storage_inv w' ∧
     files w' ≡ fs_remove_where (b_id b) (λ n, n in_ valid_paths paths) (files w) ∧
     names = filter (λ n, is_Some (files w (b_id b) n)) (valid_paths paths) ∧ shrinks w w' ∧
     ∀ n, n ∈ names → ∃ o, find_object (w_db w) (b_id b) n = Some o ∧
       can_access_path (w_now w) (w_db w) p b n (Some (o_id o)) true false = true)
  (delete_failure w) w.
Proof.
intros Hinv Hnd. apply wp_atomic, wp_bind.
eapply wp_mono; [apply wp_collect_to_delete| |]; [|shelve|by intros e w' H'; exact H'].
Unshelve.
{ left. by rewrite atomic_restores. }
intros l w0 (-> & Hl & Hall).
assert (Hcur : ∀ no, no ∈ l → find_object (w_db w) (b_id b) no.1 = Some no.2).
{ intros [n o] Hin. by apply Hall in Hin as [? _]. }
assert (Hnames : l.*1 = filter (λ n, is_Some (files w (b_id b) n)) (valid_paths paths)).
{ rewrite Hl. apply list_filter_iff. intros n. symmetry. by apply files_is_Some, Hinv. }
eapply wp_mono; [apply (wp_delete_each snd fst l); [done| |]| |].
- intros no Hno. pose proof (Hcur no Hno) as Hf.
  apply find_object_current in Hf as (Ho & _); [by eexists|apply Hinv].
- apply (NoDup_fmap_2_strong (A := string * sobject) (o_id ∘ snd)).
  + intros [n o] [n' o'] Hin Hin' Heq. simpl in Heq. apply Hcur in Hin, Hin'. simpl in *.
    apply find_object_current in Hin as (Ho & _ & Hn & _); [|apply Hinv].
    apply find_object_current in Hin' as (Ho' & _ & Hn' & _); [|apply Hinv]. congruence.
  + apply (NoDup_fmap_1 fst). change (NoDup l.*1). rewrite Hnames. by apply NoDup_filter.
- intros names w' (-> & Hinv' & Hf & Hsh). split_and!; try done.
  + rewrite Hf. apply remove_all_where.
    * intros o ([n o'] & -> & Hin)%list_elem_of_fmap. pose proof (Hcur _ Hin) as Hfo.
      apply find_object_current in Hfo as (_ & Hb & Hn & _); [|apply Hinv]. split; [done|].
      apply bool_decide_eq_true. simpl in *. rewrite Hn.
      assert (Hin1 : n ∈ l.*1) by (apply list_elem_of_fmap; by exists (n, o')).
      rewrite Hl in Hin1. by apply list_elem_of_filter in Hin1 as [_ ?].
    * intros n Hn Hs. apply bool_decide_eq_true in Hn.
      assert (Hin : n ∈ l.*1) by (rewrite Hnames; by apply list_elem_of_filter).
      apply list_elem_of_fmap in Hin as ([n' o'] & -> & Hin). exists o'.
      split; [apply list_elem_of_fmap; by exists (n', o')|].
      pose proof (Hcur _ Hin) as Hfo. by apply find_object_current in Hfo as (_ & _ & Hn' & _); [|apply Hinv].
  + intros n Hn. apply list_elem_of_fmap in Hn as ([n' o'] & -> & Hin). exists o'.
    by apply Hall.
- intros e w' He. by right.
Qed.
End delete.
