(* ===== verification/Downloads.v ===== *)
(** * Downloads: the response that streams an object ([apps/storage/downloads.py]) *)
From S2P Require Import Prelude PyStr Models Mime Signals Access Quotas Backends Services FileStore.

(** [mimetypes.guess_type(name)[0]] with its default [strict=True]. *)
Class StrictMimeTypes := guess_type_strict : string → option string.
(** [default_storage.url]: a URL, or an exception; the expiry is an argument the S3
    class takes. *)
Class StorageUrl := storage_url : string → option Z → option string.

Record download := Download {
  dl_body : bytes;
  dl_content_type : string;
  dl_disposition : string;
  dl_length : string;
  dl_etag : option string;
  dl_cache_control : string }.

Definition touch (t : datetime) (o : sobject) : sobject :=
  StorageObject (o_id o) (o_bucket_id o) (o_name o) (o_company_id o) (o_owner_id o) (o_size o)
    (o_etag o) (o_mime_type o) (o_metadata o) (o_storage_key o) (o_version o) (o_created_at o)
    (o_updated_at o) (Some t).

Section downloads.
Context `{Settings, Backend, StrictMimeTypes, StorageUrl}.

Definition build_download_response (o : sobject) (as_attachment : bool) (filename : option string) :
  prog download :=
t <- now ;;
modify_db (set_objects (alter (touch t) (o_id o))) ;;;
let content_type :=
  str_or (o_mime_type o) (str_or (default "" (guess_type_strict (o_name o))) OCTET_STREAM) in
let download_name := str_or (default "" filename) (o_basename o) in
let disposition_type := if as_attachment then "attachment" else "inline" in
body <- default_storage_open (o_storage_key o) ;;
ret (Download body content_type
       (disposition_type +:+ "; filename=" +:+ quoted download_name)
       (str_int (o_size o))
       (if truthy (o_etag o) then Some (quoted (o_etag o)) else None)
       "private, no-store").

Definition signed_expiry (expires_in : option Z) : Z :=
match expires_in with
| None => SIGNED_URL_EXPIRES
| Some e => Z.max 1 (Z.min e SIGNED_URL_EXPIRES)
end.
Definition build_signed_url (o : sobject) (expires_in : option Z) : string :=
default ""
  (if is_s3_backend then storage_url (o_storage_key o) (Some (signed_expiry expires_in))
   else storage_url (o_storage_key o) None).
End downloads.

(** ** Lemmas *)
(** Touching an object leaves the store as it is. *)
Lemma touch_step `{Backend} w i t :
  store_inv w → let w' := set_db (set_objects (alter (touch t) i)) w in
  store_inv w' ∧ files w' ≡ files w.
Proof.
  intros Hinv w'.
  assert (Hl : ∀ j o, db_objects (w_db w') !! j = Some o → ∃ o1, db_objects (w_db w) !! j = Some o1 ∧
            (o = o1 ∨ o = touch t o1)).
  { intros j o. unfold w'. simpl. rewrite lookup_alter. case_decide as Hj; [subst j|eauto].
    destruct (db_objects (w_db w) !! i) as [o1|]; [|done]. intros [= <-]. eauto. }
  assert (Hinv' : store_inv w').
  { split; try by apply Hinv.
    - intros j o (o1 & Ho1 & [->| ->])%Hl; exact (inv_object_id w Hinv j o1 Ho1).
    - intros j o (o1 & Ho1 & _)%Hl; exact (inv_object_fresh w Hinv j o1 Ho1).
    - intros j k o o' (o1 & Ho1 & E1)%Hl (o2 & Ho2 & E2)%Hl Hb Hn.
      apply (inv_unique w Hinv j k o1 o2); [done..| |];
        destruct E1 as [->| ->], E2 as [->| ->]; done.
    - intros j o (o1 & Ho1 & [->| ->])%Hl; exact (inv_company w Hinv j o1 Ho1).
    - intros j o (o1 & Ho1 & [->| ->])%Hl; exact (inv_key w Hinv j o1 Ho1).
    - intros j o (o1 & Ho1 & [->| ->])%Hl; exact (inv_content w Hinv j o1 Ho1). }
  split; [done|]. intros bid name. apply option_ext. intros c. rewrite !files_Some by done.
  split; intros (j & o & Ho & Hb & Hn & Hc).
  - apply Hl in Ho as (o1 & Ho1 & [->| ->]); exists j, o1; done.
  - destruct (decide (j = i)) as [->|Hne].
    + exists i, (touch t o). split_and!; try done. unfold w'. simpl. by rewrite lookup_alter_eq, Ho.
    + exists j, o. split_and!; try done. unfold w'. simpl. by rewrite lookup_alter_ne by done.
Qed.
