(* ===== verification/StoreSpec.v ===== *)
(** * StoreSpec: correctness of the storage services

    The properties of [Services.v], stated with the abstract store and the
    invariant of [FileStore.v]. *)
From S2P Require Import Prelude PyStr Models Mime Signals Access Quotas Backends Services FileStore Folders Downloads.

(** ** A concrete world for the witnesses

    One company, one bucket, an overwriting blob store, listeners that do nothing,
    and, in [demo_world1], one file of three bytes in a folder. *)
Module Demo.
#[export] Existing Instances demo_settings silent.
#[export] Instance demo_mime : MimeTypes := λ _, Some "text/plain".
#[export] Instance demo_backend : Backend := object_store (λ _, "etag").
Definition demo_bucket : bucket :=
Bucket 1 "company" 7 KIND_COMPANY false None [] None "" 0 0.
Definition demo_db : db := set_buckets (λ _, {[ 1%N := demo_bucket ]}) empty_db.
Definition demo_world : world := World demo_db ∅ 1000 2.
Definition abc : bytes := [Byte.x61; Byte.x62; Byte.x63].
Definition demo_upload (path : string) (content : bytes) : prog sobject :=
upload_object demo_bucket path content (Some 5) None false [] None None.
Definition demo_world1 : world := (demo_upload "docs/a.txt" abc demo_world).2.
Definition alice : principal := StoragePrincipal 5 (Some 7) "a@x.io" "alice" false false false.
End Demo.
Import Demo.

(** ** Initial worlds and the witness worlds satisfy the invariant *)
Lemma empty_store_inv i b t n :
  b_id b = i → storage_inv (World (set_buckets (λ _, {[ i := b ]}) empty_db) ∅ t n).
Proof.
  intros Hb. split; [split|]; simpl; try (intros *; by rewrite lookup_empty).
  - intros j b' [<- <-]%lookup_singleton_Some. done.
  - intros cid. done.
Qed.
Lemma wp_run {A} (m : prog A) Q w : wp m Q (λ _ _, False) w → ∃ a, Q a (m w).2.
Proof. unfold wp. destruct (m w) as [[e|a] w']; [done|]. intros HQ. by exists a. Qed.
Lemma demo_inv : storage_inv demo_world.
Proof. by apply empty_store_inv. Qed.
Lemma demo_bucket_stored : db_buckets (w_db demo_world) !! b_id demo_bucket = Some demo_bucket.
Proof. reflexivity. Qed.
Lemma demo_inv1 : storage_inv demo_world1.
Proof.
  pose proof (wp_upload_object demo_bucket "docs/a.txt" abc (Some 5) None false [] None None
    demo_world demo_inv demo_bucket_stored) as Hwp.
  unfold wp in Hwp. unfold demo_world1, demo_upload.
  destruct (upload_object _ _ _ _ _ _ _ _ _ demo_world) as [[e|o] w']; simpl in *.
  - apply Hwp.
  - destruct Hwp as (name & _ & Hsa & _). apply Hsa.
Qed.
Example demo_world1_file : files demo_world1 1%N "docs/a.txt" = Some abc.
Proof. vm_compute. reflexivity. Qed.
Lemma demo_bucket_stored1 : db_buckets (w_db demo_world1) !! b_id demo_bucket = Some demo_bucket.
Proof. vm_compute. reflexivity. Qed.

(** ** Histories of service calls

    A call, and a world before and after it.  A call is admissible when its bucket
    instances are stored rows and the object to delete is current; the paths of a
    batch deletion must be distinct (see [delete_paths_twice]). *)
Inductive call :=
| CUpload (b : bucket) (path : string) (content : bytes) (owner : option Z) (ct : option string)
    (upsert : bool) (meta : list (string * json)) (cc : option string) (r : request)
| CMarker (b : bucket) (folder : string) (owner : option Z)
| CDelete (o : sobject) (r : request)
| CDeletePaths (b : bucket) (paths : list string) (p : principal) (r : request)
| CDeletePrefix (b : bucket) (folder : string) (p : principal) (r : request)
| CEmpty (b : bucket) (p : principal) (r : request)
| CRename (b : bucket) (source dest : string)
| CMove (b : bucket) (source : string) (b' : bucket) (dest : string)
| CCopy (b : bucket) (source : string) (b' : bucket) (dest : string) (owner : option Z) (r : request).

Definition stored (w : world) (b : bucket) : Prop := db_buckets (w_db w) !! b_id b = Some b.
Definition admissible (w : world) (c : call) : Prop :=
  match c with
  | CUpload b _ _ _ _ _ _ _ _ | CMarker b _ _ => stored w b
  | CMove b _ b' _ | CCopy b _ b' _ _ _ => stored w b ∧ stored w b'
  | CDelete o _ => current w o
  | CDeletePaths _ paths _ _ => NoDup (valid_paths paths)
  | CDeletePrefix _ _ _ _ | CEmpty _ _ _ | CRename _ _ _ => True
  end.
Definition batch_delete (c : call) : bool :=
  match c with CDeletePaths _ _ _ _ | CDeletePrefix _ _ _ _ | CEmpty _ _ _ => true | _ => false end.

Section histories.
Context `{Settings, Backend, !BackendLaws, MimeTypes, Receivers, !ReceiverLaws}.

Definition run (c : call) : prog unit :=
match c with
| CUpload b path content owner ct upsert meta cc r =>
    upload_object b path content owner ct upsert meta cc r ;;; ret tt
| CMarker b folder owner => ensure_folder_marker b folder owner ;;; ret tt
| CDelete o r => delete_object o r
| CDeletePaths b paths p r => delete_paths b paths p r ;;; ret tt
| CDeletePrefix b folder p r => delete_under_prefix b folder p r ;;; ret tt
| CEmpty b p r => empty_bucket b p r
| CRename b s d => rename_folder b s d ;;; ret tt
| CMove b s b' d => move_object b s b' d ;;; ret tt
| CCopy b s b' d owner r => copy_object b s b' d owner r ;;; ret tt
end.

(** One call, failed or not.  Excluded is a batch deletion that the storage backend
  stops half way: it loses blobs of rows that the rollback restores. *)
Inductive step (w w' : world) : Prop :=
| step_call c res : admissible w c → run c w = (res, w') →
  (batch_delete c = true → ∀ code, res ≠ inl (BackendError code)) → step w w'
| step_time t : w_now w ≤ t → w' = World (w_db w) (w_blobs w) t (w_next_uuid w) → step w w'.

(** No company is over its limit. *)
Definition within_quota (w : world) : Prop :=
∀ cid, let q := quota_of (w_db w) cid in
       cq_max_bytes q = 0 ∨ cq_used_bytes q ≤ cq_max_bytes q.
Definition history_inv (w : world) : Prop := storage_inv w ∧ within_quota w.

Lemma within_shrinks w w' :
storage_inv w → storage_inv w' → shrinks w w' → within_quota w → within_quota w'.
Proof.
intros [_ Hq] [_ Hq'] [Hs Hl] Hw cid. simpl. specialize (Hw cid). simpl in Hw.
rewrite quota_of_used in *. rewrite (Hl cid), Hq'. rewrite Hq in Hw. specialize (Hs cid). lia.
Qed.
Lemma within_usage w w' cid delta :
storage_inv w → storage_inv w' → usage_change w w' cid delta →
delta ≤ 0 ∨ company_fits (w_db w) cid delta → within_quota w → within_quota w'.
Proof.
intros [_ Hq] [_ Hq'] [Hs Hl] Hfit Hw c. simpl. specialize (Hw c). simpl in Hw.
rewrite quota_of_used in *. rewrite (Hl c), Hq', (Hs c). unfold company_fits in Hfit. cbv zeta in Hfit.
rewrite Hq in Hfit, Hw. case_bool_decide as Hc; [subst c|]; lia.
Qed.
Lemma wp_seq_unit {A} (m : prog A) Q (R : exn → world → Prop) w :
wp m (λ _ w', Q w') R w → wp (m ;;; ret tt) (λ _ w', Q w') R w.
Proof. intros Hm. apply wp_bind. eapply wp_mono; [exact Hm| |done]. intros a w' HQ. by apply wp_ret. Qed.
Lemma upload_error_history w w' : history_inv w → upload_error w w' → history_inv w'.
Proof. intros [_ Hw] (Ed & Hi & _). split; [done|]. intros cid. rewrite Ed. apply Hw. Qed.

(** Every call keeps the invariant. *)
Lemma run_history c w :
history_inv w → admissible w c →
wp (run c) (λ _ w', history_inv w')
  (λ e w', (batch_delete c = true → ¬ is_backend_error e) → history_inv w') w.
Proof.
intros [Hi Hw] Hadm. destruct c as [b path content owner ct upsert meta cc r|b folder owner|o r
  |b paths p r|b folder p r|b p r|b s d|b s b' d|b s b' d owner r]; simpl in *.
- apply wp_seq_unit. eapply wp_mono; [by apply wp_upload_object| |].
  + intros o w' (name & _ & [Hi' _ _ _ _ Hus] & _ & _ & _ & _ & _ & _ & Hfit).
    split; [done|]. eapply within_usage; [exact Hi|done|exact Hus| |done]. simpl in Hfit. tauto.
  + intros e w' Herr _. exact (upload_error_history w w' (conj Hi Hw) Herr).
- apply wp_seq_unit. eapply wp_mono; [by apply wp_ensure_folder_marker| |].
  + intros o w' (Hi' & _ & _ & _ & _ & _ & Hsh). split; [done|]. exact (within_shrinks w w' Hi Hi' Hsh Hw).
  + intros e w' Herr _. exact (upload_error_history w w' (conj Hi Hw) Herr).
- eapply wp_mono; [by apply wp_delete_object| |].
  + intros u w' (Hi' & _ & Hsh & _). split; [done|]. exact (within_shrinks w w' Hi Hi' Hsh Hw).
  + intros e w' (_ & Ed & Eb & Eu) _. eapply upload_error_history; [by split|].
    split; [done|]. rewrite <- (atomic_restores w'), Ed.
    apply (rolled_back w w'); [done|]. apply blobs_same_grow; [done|lia].
- apply wp_seq_unit. eapply wp_mono; [by apply wp_delete_paths| |].
  + intros names w' (Hi' & _ & _ & Hsh & _). split; [done|]. exact (within_shrinks w w' Hi Hi' Hsh Hw).
  + intros e w' [[-> ->]|[He _]] Hno; [by split|]. by destruct (Hno eq_refl).
- apply wp_seq_unit. eapply wp_mono; [by apply wp_delete_under_prefix| |].
  + intros names w' (Hi' & _ & _ & Hsh & _). split; [done|]. exact (within_shrinks w w' Hi Hi' Hsh Hw).
  + intros e w' [[-> ->]|[He _]] Hno; [by split|]. by destruct (Hno eq_refl).
- eapply wp_mono; [by apply wp_empty_bucket| |].
  + intros u w' (Hi' & _ & Hsh & _). split; [done|]. exact (within_shrinks w w' Hi Hi' Hsh Hw).
  + intros e w' [[-> ->]|[He _]] Hno; [by split|]. by destruct (Hno eq_refl).
- apply wp_seq_unit. eapply wp_mono; [by apply wp_rename_folder| |].
  + intros res w' (src & dst & _ & _ & _ & _ & Hi' & _ & Hsh & _). split; [done|].
    exact (within_shrinks w w' Hi Hi' Hsh Hw).
  + intros e w' Herr _. exact (upload_error_history w w' (conj Hi Hw) Herr).
- destruct Hadm. apply wp_seq_unit. eapply wp_mono; [by apply wp_move_object| |].
  + intros o w' (src & dst & c & _ & _ & _ & _ & Hi' & _ & _ & _ & Hsh). split; [done|].
    exact (within_shrinks w w' Hi Hi' Hsh Hw).
  + intros e w' Herr _. exact (upload_error_history w w' (conj Hi Hw) Herr).
- destruct Hadm. apply wp_seq_unit. eapply wp_mono; [by apply wp_copy_object| |].
  + intros o w' (src & dst & c & _ & _ & _ & Hfree & [Hi' _ _ _ _ Hus] & Hfit).
    split; [done|]. eapply within_usage; [exact Hi|done|exact Hus| |done].
    assert (Hnone : find_object (w_db w) (b_id b') dst = None).
    { apply eq_None_not_Some. intros Hs. apply files_is_Some in Hs; [|apply Hi].
      rewrite Hfree in Hs. by destruct Hs. }
    rewrite Hnone. simpl. rewrite Z.sub_0_r. tauto.
  + intros e w' Herr _. exact (upload_error_history w w' (conj Hi Hw) Herr).
Qed.
End histories.

(** ** What an upload decides

    An upload goes through when every check passes; each failing check has its
    error.  The checks are tried in this order. *)
Section upload_rules.
Context `{Settings, Backend, MimeTypes}.
Context (w : world) (b : bucket) (path : string) (content : bytes) (owner : option Z).
Context (ct : option string) (upsert : bool).

Definition growth (name : string) : Z :=
Z.of_nat (length content) - from_option o_size 0 (find_object (w_db w) (b_id b) name).
Record passes (name : string) : Prop := Passes {
pass_path : safe_object_path path = inr name;
pass_mime : mime_allowed (normalize_mime_type ct name) (b_allowed_mime_types b) = true;
pass_free : files w (b_id b) name = None ∨ upsert = true;
pass_size : Z.of_nat (length content) ≤ upload_limit b }.
Definition accepted : Prop := ∃ name, passes name ∧
(growth name ≤ 0 ∨ (company_fits (w_db w) (b_company_id b) (growth name) ∧
                    user_fits (w_db w) (b_company_id b) owner (growth name))).
Inductive rejected : exn → Prop :=
| rej_path e : safe_object_path path = inl e → rejected e
| rej_mime name : safe_object_path path = inr name →
  mime_allowed (normalize_mime_type ct name) (b_allowed_mime_types b) = false →
  rejected (StorageError 415 "invalid_mime_type")
| rej_exists name c : safe_object_path path = inr name →
  mime_allowed (normalize_mime_type ct name) (b_allowed_mime_types b) = true →
  files w (b_id b) name = Some c → upsert = false →
  rejected (StorageError 400 "resource_already_exists")
| rej_size name : safe_object_path path = inr name →
  mime_allowed (normalize_mime_type ct name) (b_allowed_mime_types b) = true →
  files w (b_id b) name = None ∨ upsert = true →
  upload_limit b < Z.of_nat (length content) → rejected (StorageError 413 "payload_too_large")
| rej_company name : passes name → 0 < growth name →
  ¬ company_fits (w_db w) (b_company_id b) (growth name) →
  rejected (StorageError 413 "company_quota_exceeded")
| rej_user name : passes name → 0 < growth name →
  company_fits (w_db w) (b_company_id b) (growth name) →
  ¬ user_fits (w_db w) (b_company_id b) owner (growth name) →
  rejected (StorageError 413 "user_quota_exceeded").
End upload_rules.

Section upload_outcome.
Context `{Settings, Backend, !BackendLaws, MimeTypes, Receivers, !ReceiverLaws}.

Lemma wp_upload_outcome b path content owner ct upsert meta cc r w :
storage_inv w → stored w b →
wp (upload_object b path content owner ct upsert meta cc r)
  (λ _ _, accepted w b path content owner ct upsert)
  (λ e _, rejected w b path content owner ct upsert e ∨
          (accepted w b path content owner ct upsert ∧ save_failed e)) w.
Proof.
intros [Hinv Hq] Hb. apply wp_atomic. unfold lift_sum. apply wp_bind.
destruct (safe_object_path path) as [e|name] eqn:Hp; [apply wp_raise; left; by apply rej_path|].
apply wp_ret. cbv zeta. apply wp_if; intros Hm; [apply negb_true_iff in Hm|apply negb_false_iff in Hm].
{ apply wp_raise. left. by apply (rej_mime _ _ _ _ _ _ _ name). }
unfold get_db. wp_steps. apply wp_if; intros Hex.
{ apply andb_true_iff in Hex as [Hex Hup]. apply wp_raise. left.
  apply bool_decide_eq_true, (files_is_Some w _ _ Hinv) in Hex as [c Hc].
  apply negb_true_iff in Hup. by apply (rej_exists _ _ _ _ _ _ _ name c). }
assert (Hfree : files w (b_id b) name = None ∨ upsert = true).
{ apply andb_false_iff in Hex as [Hex|Hup]; [left|right; by apply negb_false_iff in Hup].
  apply bool_decide_eq_false in Hex. apply eq_None_not_Some. intros Hs. apply Hex.
  by apply (files_is_Some w _ _ Hinv). }
wp_steps. apply wp_read_upload_bytes.
2: { intros Hl. left. by apply (rej_size _ _ _ _ _ _ _ name). }
intros Hl. assert (Hpass : passes w b path content ct upsert name) by done.
wp_steps. unfold quota_as_storage_error. apply wp_try, wp_assert_can_store.
2: { intros e w1 _ [[Hneg _]|[(_ & Hd & Hno & ->)|(_ & Hd & Hc & Hno & ->)]]; [lia| |];
       apply wp_raise; left; [by apply (rej_company _ _ _ _ _ _ _ name)|
                              by apply (rej_user _ _ _ _ _ _ _ name)]. }
intros w1 Hs _ Hfit. assert (Hacc : accepted w b path content owner ct upsert) by (by exists name).
assert (Hinv1 : storage_inv w1).
{ split; [by eapply store_step_inv, Hinv; apply quota_step_store|by eapply quota_exact_step]. }
pose proof (qf_buckets _ _ (qs_frame _ _ Hs)) as Eb.
pose proof (qf_objects _ _ (qs_frame _ _ Hs)) as Eo.
assert (Hfind : find_object (w_db w1) (b_id b) name = find_object (w_db w) (b_id b) name)
  by (unfold find_object; by rewrite Eo).
apply wp_bind, wp_ret.
destruct (find_object (w_db w) (b_id b) name) as [old|] eqn:Hfo.
- eapply wp_mono; [apply (wp_overwrite_object b old name); [done|by rewrite Eb|by rewrite Hfind]| |].
  + done.
  + intros e w' [_ Hf]. by right.
- eapply wp_mono; [apply (wp_store_new_object b name); [done|by rewrite Eb|by rewrite Hfind|lia|done]| |].
  + done.
  + intros e w' [_ Hf]. by right.
Qed.

(** A rejected upload is not accepted. *)
Lemma rejected_not_accepted w b path content owner ct upsert e :
rejected w b path content owner ct upsert e → ¬ accepted w b path content owner ct upsert.
Proof.
intros Hr (name & [Hp Hm Hf Hs] & Hfit).
destruct Hr as [e He|n Hn Hn2|n c Hn Hn2 Hn3 Hn4|n Hn Hn2 Hn3 Hn4|n [Hn _ _ _] Hd Hno|n [Hn _ _ _] Hd Hc Hno];
  try (assert (n = name) as -> by congruence); try congruence.
- destruct Hf; congruence.
- lia.
- destruct Hfit as [?|[? _]]; [lia|done].
- destruct Hfit as [?|[_ ?]]; [lia|done].
Qed.
End upload_outcome.

(** ** Properties *)
Section properties.
Context `{Settings, Backend, !BackendLaws, MimeTypes, Receivers, !ReceiverLaws}.

(** C1: whatever sequence of uploads, folder markers, deletions, renames, moves and
  copies runs, successful or refused, on any backend that obeys the laws, the
  storage stays consistent: every object row has its own blob, of exactly the
  recorded size when the backend overwrites; names are unique per bucket; each
  company's counter equals the sizes recorded for it; and no company exceeds its
  limit.  The calls are the admissible ones: they name stored buckets and current
  objects, and a batch deletion names no path twice ([delete_paths_twice]); excluded
  is a batch deletion that the backend stops half way, whose blobs are gone while
  the rollback brings their rows back.  The counters of users are not part of it
  ([overwrite_leaves_previous_owner_charged]). *)
Theorem history_invariant : ∀ w w', history_inv w → rtc step w w' → history_inv w'.
Proof.
intros w w' Hw Hsteps. induction Hsteps as [w|w w1 w2 Hstep _ IH]; [done|]. apply IH.
destruct Hstep as [c res Hadm Hrun Hbatch|t Ht ->].
2: { destruct Hw as [[Hi Hq] Hl]. split; [split|]; [by apply (store_step_inv w)|done..]. }
pose proof (run_history c w Hw Hadm) as Hwp. unfold wp in Hwp. rewrite Hrun in Hwp.
destruct res as [e|u]; [|done]. apply Hwp. intros Hb [code ->]. by apply (Hbatch Hb code).
Qed.

(** C17: an upload writes exactly one path of the abstract store: when that path was
  free or the backend overwrites, the canonical form of the requested path maps to
  the uploaded bytes and every other file is as before; when it was taken and the
  backend may choose another name, either that or no file changes, the object keeping
  its old bytes ([file_system_overwrite_keeps_old_bytes]).  The returned object records
  the size, the digest and the MIME type; the counter of the company moves by the
  difference in size.  A failed upload leaves the database as it was and every file
  readable. *)
Theorem upload_object_refines : ∀ b path content owner ct upsert meta cc r w,
storage_inv w → stored w b →
wp (upload_object b path content owner ct upsert meta cc r)
  (λ o w', ∃ name, safe_object_path path = inr name ∧ storage_inv w' ∧
     written b name content w w' ∧
     o_name o = name ∧ o_bucket_id o = b_id b ∧
     o_size o = Z.of_nat (length content) ∧ o_etag o = md5_hexdigest content ∧
     o_mime_type o = normalize_mime_type ct name ∧
     company_used (w_db w') (b_company_id b) =
       company_used (w_db w) (b_company_id b) +
         (o_size o - from_option o_size 0 (find_object (w_db w) (b_id b) name)))
  (λ _ w', w_db w' = w_db w ∧ storage_inv w' ∧ files w' ≡ files w) w.
Proof.
intros b path content owner ct upsert meta cc r w Hinv Hb.
eapply wp_mono; [by apply wp_upload_object| |done].
intros o w' (name & Hp & [Hi Hf Hbk Hn _ Hus] & He & Hs & Hm & _). exists name.
split_and!; try done. destruct Hi as [_ Hq']. rewrite Hq', (uc_stored _ _ _ _ Hus).
rewrite (proj2 Hinv), bool_decide_true; done.
Qed.

(** C30: the outcome of an upload, on every branch.  It succeeds only if every check
  passes (path, MIME type, existing object, size, company quota, user quota); an
  error is that of the first check that fails, or reports that the backend
  refused the write; rejected uploads are never accepted ones. *)
Theorem upload_object_outcome : ∀ b path content owner ct upsert meta cc r w,
storage_inv w → stored w b →
match (upload_object b path content owner ct upsert meta cc r w).1 with
| inr _ => accepted w b path content owner ct upsert
| inl e => (rejected w b path content owner ct upsert e ∧
            ¬ accepted w b path content owner ct upsert) ∨
           (accepted w b path content owner ct upsert ∧ save_failed e)
end.
Proof.
intros b path content owner ct upsert meta cc r w Hinv Hb.
pose proof (wp_upload_outcome b path content owner ct upsert meta cc r w Hinv Hb) as Hwp.
unfold wp in Hwp. destruct (upload_object b path content owner ct upsert meta cc r w) as [[e|o] w'];
  simpl; [|done]. destruct Hwp as [Hr|Ha]; [left|by right].
split; [done|]. by eapply rejected_not_accepted.
Qed.

(** C18: renaming a folder moves its whole subtree: every file below the source ends
  up at the same place below the destination, nothing else moves, and the two
  folders did not overlap.  When it is refused nothing changes. *)
Theorem rename_folder_refines : ∀ b source dest w,
storage_inv w →
wp (rename_folder b source dest)
  (λ res w', ∃ src dst, safe_object_path source = inr src ∧ safe_object_path dest = inr dst ∧
     storage_inv w' ∧ files w' ≡ fs_rename (b_id b) src dst (files w) ∧
     (src ≠ dst → disjoint_folders src dst ∧
        ∀ n, startswith (dst +:+ "/") n = true → files w (b_id b) n = None))
  (λ _ w', w_db w' = w_db w ∧ storage_inv w' ∧ files w' ≡ files w) w.
Proof.
intros b source dest w Hinv. eapply wp_mono; [by apply wp_rename_folder| |done].
intros res w' (src & dst & Hs & Hd & _ & _ & Hi & Hf & _ & Hdis). exists src, dst.
split_and!; try done. intros Hne. destruct (Hdis Hne) as (? & _ & ?). done.
Qed.

(** Moving an object moves one file of the abstract store, within a bucket or
  across buckets, to a free path; a refused move changes nothing. *)
Theorem move_object_refines : ∀ b source b' dest w,
storage_inv w → stored w b → stored w b' →
wp (move_object b source b' dest)
  (λ o w', ∃ src dst c, safe_object_path source = inr src ∧ safe_object_path dest = inr dst ∧
     files w (b_id b) src = Some c ∧ files w (b_id b') dst = None ∧
     storage_inv w' ∧ files w' ≡ fs_move (b_id b) src (b_id b') dst (files w) ∧
     o_name o = dst ∧ o_bucket_id o = b_id b')
  (λ _ w', w_db w' = w_db w ∧ storage_inv w' ∧ files w' ≡ files w) w.
Proof.
intros b source b' dest w Hinv Hb Hb'. eapply wp_mono; [by apply wp_move_object| |done].
intros o w' (src & dst & c & ? & ? & ? & ? & ? & ? & ? & ? & _). exists src, dst, c. done.
Qed.

(** Copying an object duplicates its bytes at a free path, under a storage key of
  its own, and charges the company for it; a refused copy changes nothing. *)
Theorem copy_object_refines : ∀ b source b' dest owner r w,
storage_inv w → stored w b → stored w b' →
wp (copy_object b source b' dest owner r)
  (λ o w', ∃ src dst c, safe_object_path source = inr src ∧ safe_object_path dest = inr dst ∧
     files w (b_id b) src = Some c ∧ files w (b_id b') dst = None ∧
     storage_inv w' ∧ files w' ≡ fs_write (b_id b') dst c (files w) ∧
     o_name o = dst ∧ o_bucket_id o = b_id b' ∧
     company_used (w_db w') (b_company_id b') =
       company_used (w_db w) (b_company_id b') + o_size o)
  (λ _ w', w_db w' = w_db w ∧ storage_inv w' ∧ files w' ≡ files w) w.
Proof.
intros b source b' dest owner r w Hinv Hb Hb'. eapply wp_mono; [by apply wp_copy_object| |done].
intros o w' (src & dst & c & Hs & Hd & Hfs & Hfd & [Hi Hf Hbk Hn _ Hus] & _). exists src, dst, c.
split_and!; try done; [by apply Hf; left|]. rewrite (proj2 Hi), (uc_stored _ _ _ _ Hus), (proj2 Hinv).
rewrite bool_decide_true by done.
assert (Hnone : find_object (w_db w) (b_id b') dst = None).
{ apply eq_None_not_Some. intros Hsome. apply files_is_Some in Hsome; [|apply Hinv].
  rewrite Hfd in Hsome. by destruct Hsome. }
rewrite Hnone. simpl. lia.
Qed.

(** A recursive delete removes exactly the files below the folder, and only when
  the caller may write every one of them.  When one of them is denied nothing
  changes. *)
Theorem delete_under_prefix_refines : ∀ b folder p r w,
storage_inv w →
wp (delete_under_prefix b folder p r)
  (λ names w', storage_inv w' ∧
     files w' ≡ fs_remove_where (b_id b) (startswith (prefix_filter folder)) (files w) ∧
     (∀ n, n ∈ names ↔ startswith (prefix_filter folder) n = true ∧ is_Some (files w (b_id b) n)) ∧
     (∀ o, find_object (w_db w) (b_id b) (o_name o) = Some o →
        startswith (prefix_filter folder) (o_name o) = true →
        can_access_path (w_now w) (w_db w) p b (o_name o) (Some (o_id o)) true false = true))
  (λ e w', (e = StorageError 403 "path_access_denied" ∧ w' = w) ∨
           (is_backend_error e ∧ w_db w' = w_db w)) w.
Proof.
intros b folder p r w Hinv. eapply wp_mono; [by apply wp_delete_under_prefix| |done].
intros names w' (Hi & Hf & -> & _ & Hacc). split_and!; try done.
- intros n. rewrite list_elem_of_fmap. rewrite files_is_Some by apply Hinv. split.
  + intros (o & -> & (Hrow & Hb & Hs)%elem_of_objects_under_prefix). split; [done|].
    exists o. by apply (find_object_iff w); [apply Hinv|].
  + intros (Hs & o & Hfo). exists o. apply find_object_iff in Hfo as (Hrow & Hb & Hn); [|apply Hinv].
    split; [done|]. apply elem_of_objects_under_prefix. by rewrite Hn.
- intros o Hfo Hs. apply Hacc. apply find_object_iff in Hfo as (Hrow & Hb & Hn); [|apply Hinv].
  by apply elem_of_objects_under_prefix.
Qed.

(** A batch deletion of distinct paths removes exactly the requested files that
  exist, and returns their names; invalid paths are skipped, and one denied path
  stops the whole batch before anything changes. *)
Theorem delete_paths_refines : ∀ b paths p r w,
storage_inv w → NoDup (valid_paths paths) →
wp (delete_paths b paths p r)
  (λ names w', storage_inv w' ∧
     files w' ≡ fs_remove_where (b_id b) (λ n, n in_ valid_paths paths) (files w) ∧
     names = filter (λ n, is_Some (files w (b_id b) n)) (valid_paths paths) ∧
     ∀ n, n ∈ names → ∃ o, find_object (w_db w) (b_id b) n = Some o ∧
       can_access_path (w_now w) (w_db w) p b n (Some (o_id o)) true false = true)
  (λ e w', (e = StorageError 403 "path_access_denied" ∧ w' = w) ∨
           (is_backend_error e ∧ w_db w' = w_db w)) w.
Proof.
intros b paths p r w Hinv Hnd. eapply wp_mono; [by apply wp_delete_paths| |done].
intros names w' (? & ? & ? & _ & ?). done.
Qed.

(** C39: what was uploaded is what is downloaded: after a successful upload to a free
  path, or on a backend that overwrites, the response built from the returned object
  carries the uploaded bytes; on another backend an upload over an existing file may
  leave the old bytes, which then come back.  The length and the digest are those of
  the upload in every case.  Otherwise the response reports that the backend could
  not read. *)
Theorem upload_download_roundtrip `{StrictMimeTypes} :
∀ b path content owner ct upsert meta cc r w o w' att fn,
storage_inv w → stored w b →
upload_object b path content owner ct upsert meta cc r w = (inr o, w') →
wp (build_download_response o att fn)
  (λ resp w'', (files w (b_id b) (o_name o) = None ∨ Overwriting → dl_body resp = content) ∧
     (dl_body resp = content ∨ files w (b_id b) (o_name o) = Some (dl_body resp)) ∧
     dl_length resp = str_int (Z.of_nat (length content)) ∧
     (md5_hexdigest content ≠ "" → dl_etag resp = Some (quoted (md5_hexdigest content))) ∧
     files w'' ≡ files w')
  (λ e _, is_backend_error e) w'.
Proof.
intros b path content owner ct upsert meta cc r w o w' att fn Hinv Hb Hrun.
pose proof (wp_upload_object b path content owner ct upsert meta cc r w Hinv Hb) as Hwp.
unfold wp in Hwp. rewrite Hrun in Hwp.
destruct Hwp as (name & Hp & [Hi Hf Hbk Hn (o' & Ho' & He) _] & Het & Hsz & _).
unfold build_download_response, now, modify_db. wp_steps. cbv zeta.
apply wp_default_storage_open; [|intros e; by exists e].
intros c Hc. simpl in Hc.
assert (Hfc : files w' (b_id b) name = Some c).
{ pose proof (erase_metadata_fields _ _ He) as (Hid & Hbk' & Hn' & _ & _ & _ & Hk).
  apply files_Some; [apply Hi|]. exists (o_id o), o'. split_and!; congruence. }
assert (Hat : ∀ f : fs, files w' ≡ f → f (b_id b) name = Some c).
{ intros f Hf'. by rewrite <- (Hf' (b_id b) name). }
assert (Hnew : files w' ≡ fs_write (b_id b) name content (files w) → c = content).
{ intros Hw%Hat. unfold fs_write in Hw. rewrite decide_True in Hw by done. congruence. }
apply wp_ret. simpl. rewrite Hsz, Het, Hn. destruct Hf as [Hf Hor].
unfold content_etag, truthy. split_and!; try done.
- intros Hfr. by apply Hnew, Hf.
- destruct Hor as [Hw|Hw]; [left; by apply Hnew|right; by apply Hat].
- intros Hne. by rewrite bool_decide_false.
- by apply (touch_step w' (o_id o) (w_now w')), Hi.
Qed.
End properties.

(** ** Witnesses: the properties at the concrete worlds of [Demo] *)
Lemma demo_within : within_quota demo_world.
Proof. intros cid. right. vm_compute. done. Qed.

Lemma history_invariant_witness :
  history_inv demo_world ∧ rtc step demo_world demo_world1 ∧ history_inv demo_world1.
Proof.
  assert (Hsteps : rtc step demo_world demo_world1).
  { apply rtc_once.
    apply (step_call _ _ (CUpload demo_bucket "docs/a.txt" abc (Some 5) None false [] None None)
             (inr tt)); [reflexivity|vm_compute; reflexivity|done]. }
  assert (Hw : history_inv demo_world) by (split; [apply demo_inv|apply demo_within]).
  split_and!; [exact Hw|exact Hsteps|].
  exact (history_invariant demo_world demo_world1 Hw Hsteps).
Defined.

Lemma upload_object_refines_witness :
  ∃ o, (demo_upload "docs/a.txt" abc demo_world).1 = inr o ∧ o_name o = "docs/a.txt" ∧
       files demo_world1 1%N "docs/a.txt" = Some abc.
Proof.
  pose proof (upload_object_refines demo_bucket "docs/a.txt" abc (Some 5) None false [] None None
    demo_world demo_inv eq_refl) as Hwp.
  unfold wp in Hwp. unfold demo_world1, demo_upload.
  destruct (upload_object _ _ _ _ _ _ _ _ _ demo_world) as [[e|o] w'] eqn:Hrun.
  - vm_compute in Hrun. discriminate Hrun.
  - destruct Hwp as (name & Hp & _ & [Hf _] & Hn & _). vm_compute in Hp. injection Hp as <-.
    exists o. split_and!; [done|done|]. simpl. rewrite (Hf (or_introl eq_refl) 1%N _). reflexivity.
Defined.

Lemma upload_object_outcome_witness :
  rejected demo_world1 demo_bucket "docs/a.txt" abc (Some 5) None false
    (StorageError 400 "resource_already_exists").
Proof.
  pose proof (upload_object_outcome demo_bucket "docs/a.txt" abc (Some 5) None false [] None None
    demo_world1 demo_inv1 demo_bucket_stored1) as Hout.
  assert (Hrun : (upload_object demo_bucket "docs/a.txt" abc (Some 5) None false [] None None
            demo_world1).1 = inl (StorageError 400 "resource_already_exists"))
    by (vm_compute; reflexivity).
  rewrite Hrun in Hout. destruct Hout as [[Hr _]|[_ (k & c & m & code & m' & Hf & _)]]; [exact Hr|].
  discriminate Hf.
Defined.

Lemma rename_folder_refines_witness :
  files (rename_folder demo_bucket "docs" "papers" demo_world1).2 1%N "papers/a.txt" = Some abc.
Proof.
  pose proof (rename_folder_refines demo_bucket "docs" "papers" demo_world1 demo_inv1) as Hwp.
  unfold wp in Hwp.
  destruct (rename_folder demo_bucket "docs" "papers" demo_world1) as [[e|res] w'] eqn:Hrun.
  - vm_compute in Hrun. discriminate Hrun.
  - destruct Hwp as (src & dst & Hs & Hd & _ & Hf & _). vm_compute in Hs, Hd.
    injection Hs as <-. injection Hd as <-. simpl. rewrite (Hf 1%N _). vm_compute. reflexivity.
Defined.

Lemma move_object_refines_witness :
  files (move_object demo_bucket "docs/a.txt" demo_bucket "b.txt" demo_world1).2 1%N "b.txt" = Some abc.
Proof.
  pose proof (move_object_refines demo_bucket "docs/a.txt" demo_bucket "b.txt" demo_world1
    demo_inv1 demo_bucket_stored1 demo_bucket_stored1) as Hwp.
  unfold wp in Hwp.
  destruct (move_object demo_bucket "docs/a.txt" demo_bucket "b.txt" demo_world1) as [[e|o] w'] eqn:Hrun.
  - vm_compute in Hrun. discriminate Hrun.
  - destruct Hwp as (src & dst & c & Hs & Hd & Hc & _ & _ & Hf & _). vm_compute in Hs, Hd.
    injection Hs as <-. injection Hd as <-. simpl. rewrite (Hf 1%N _). vm_compute. reflexivity.
Defined.

Lemma copy_object_refines_witness :
  files (copy_object demo_bucket "docs/a.txt" demo_bucket "b.txt" (Some 5) None demo_world1).2 1%N "b.txt"
    = Some abc.
Proof.
  pose proof (copy_object_refines demo_bucket "docs/a.txt" demo_bucket "b.txt" (Some 5) None demo_world1
    demo_inv1 demo_bucket_stored1 demo_bucket_stored1) as Hwp.
  unfold wp in Hwp.
  destruct (copy_object demo_bucket "docs/a.txt" demo_bucket "b.txt" (Some 5) None demo_world1)
    as [[e|o] w'] eqn:Hrun.
  - vm_compute in Hrun. discriminate Hrun.
  - destruct Hwp as (src & dst & c & Hs & Hd & Hc & _ & _ & Hf & _). vm_compute in Hs, Hd.
    injection Hs as <-. injection Hd as <-. vm_compute in Hc. injection Hc as <-.
    simpl. rewrite (Hf 1%N _). reflexivity.
Defined.

Lemma delete_under_prefix_refines_witness :
  files (delete_under_prefix demo_bucket "docs" alice None demo_world1).2 1%N "docs/a.txt" = None.
Proof.
  pose proof (delete_under_prefix_refines demo_bucket "docs" alice None demo_world1 demo_inv1) as Hwp.
  unfold wp in Hwp.
  destruct (delete_under_prefix demo_bucket "docs" alice None demo_world1) as [[e|names] w'] eqn:Hrun.
  - vm_compute in Hrun. discriminate Hrun.
  - destruct Hwp as (_ & Hf & _). simpl. rewrite (Hf 1%N _). vm_compute. reflexivity.
Defined.

Lemma delete_paths_refines_witness :
  NoDup (valid_paths ["docs/a.txt"; "../x"]) ∧
  files (delete_paths demo_bucket ["docs/a.txt"; "../x"] alice None demo_world1).2 1%N "docs/a.txt" = None.
Proof.
  assert (Hnd : NoDup (valid_paths ["docs/a.txt"; "../x"])).
  { change (NoDup ["docs/a.txt"]). apply NoDup_singleton. }
  split; [exact Hnd|].
  pose proof (delete_paths_refines demo_bucket ["docs/a.txt"; "../x"] alice None demo_world1 demo_inv1 Hnd) as Hwp.
  unfold wp in Hwp.
  destruct (delete_paths demo_bucket ["docs/a.txt"; "../x"] alice None demo_world1) as [[e|names] w'] eqn:Hrun.
  - vm_compute in Hrun. discriminate Hrun.
  - destruct Hwp as (_ & Hf & _). simpl. rewrite (Hf 1%N _). vm_compute. reflexivity.
Defined.

#[local] Instance demo_strict : StrictMimeTypes := λ _, None.
Lemma upload_download_roundtrip_witness :
  ∃ o w', demo_upload "docs/a.txt" abc demo_world = (inr o, w') ∧
    ∃ resp, (build_download_response o false None w').1 = inr resp ∧ dl_body resp = abc.
Proof.
  destruct (demo_upload "docs/a.txt" abc demo_world) as [[e|o] w'] eqn:Hrun.
  - vm_compute in Hrun. discriminate Hrun.
  - exists o, w'. split; [reflexivity|].
    pose proof (upload_download_roundtrip demo_bucket "docs/a.txt" abc (Some 5) None false [] None None
      demo_world o w' false None demo_inv eq_refl Hrun) as Hwp.
    unfold wp in Hwp. destruct (build_download_response o false None w') as [[e|resp] w''] eqn:Hdl.
    + vm_compute in Hrun. injection Hrun as <- <-. vm_compute in Hdl. discriminate Hdl.
    + exists resp. split; [reflexivity|]. apply Hwp. left. vm_compute in Hrun. injection Hrun as <- <-.
      reflexivity.
Defined.

(** ** What the hypotheses exclude *)

(** The same path listed twice in one batch is deleted once but released twice: with
    a second file of three bytes still stored, the counter falls to zero. *)
Definition demo_world2 : world := (demo_upload "docs/b.txt" abc demo_world1).2.
Example delete_paths_twice :
  let w' := (delete_paths demo_bucket ["docs/a.txt"; "docs//a.txt"] alice None demo_world2).2 in
  stored_bytes (w_db w') 7 = 3 ∧ company_used (w_db w') 7 = 0.
Proof. vm_compute. done. Qed.

(** With a storage class that picks another name when the key is taken, as Django's
    file-system storage does, overwriting an object leaves its row on the old
    bytes: the size is that of the new content, the bytes are not. *)
Example file_system_overwrite_keeps_old_bytes :
  let backend := file_system (λ _, "etag") in
  let up content upsert := @upload_object demo_settings backend demo_mime silent demo_bucket
    "a.txt" content (Some 5) None upsert [] None None in
  let w1 := (up abc false demo_world).2 in
  let w2 := (up [Byte.x7a] true w1).2 in
  files w2 1%N "a.txt" = Some abc ∧ o_size <$> find_object (w_db w2) 1%N "a.txt" = Some 1.
Proof. vm_compute. done. Qed.

(** An overwrite by another user is charged to that user by the difference only; the
    previous owner's counter is not released. *)
Example overwrite_leaves_previous_owner_charged :
  let w0 := set_db (set_user_quotas (λ _, {[ (7, 5) := UserQuota 50 0; (7, 6) := UserQuota 50 0 ]})) demo_world in
  let up uid upsert := upload_object demo_bucket "a.txt" abc (Some uid) None upsert [] None None in
  let w1 := (up 5 false w0).2 in
  let w2 := (up 6 true w1).2 in
  o_owner_id <$> find_object (w_db w2) 1%N "a.txt" = Some (Some 6) ∧
  user_used (w_db w2) 7 5 = 3 ∧ user_used (w_db w2) 7 6 = 0.
Proof. vm_compute. done. Qed.
