(* ===== verification/Uploads.v ===== *)
(** * Uploads: concurrent uploads and deletions ([services.py], [quotas.py])

    [Services] runs a call as one step.  Here the transactions of [upload_object] and
    [delete_object] are interleaved statement by statement, as the workers of the web
    server run them on PostgreSQL (READ COMMITTED): a query sees the committed rows and
    the transaction's own writes; a written or locked row stays locked until the end
    ([select_for_update], [UPDATE], [DELETE], and the unique indexes on an [INSERT]);
    writes appear to others at the commit; blobs and UUIDs take effect at once.  The rows
    a transaction only inserts under fresh keys (automatic grants, events) meet no other
    transaction and are left to [Services].  The theorems are in [UploadsSpec]; one of them,
    [transaction_alone], ties the two models. *)
From S2P Require Import Prelude PyStr Models Mime Signals Access Quotas Backends Services.

(** ** Transactions *)
(** What [upload_object] computes before its first query. *)
Record upload_args := UploadArgs {
  u_bucket : bucket; u_name : string; u_data : bytes; u_owner : option Z; u_upsert : bool;
  u_mime : string; u_meta : list (string * json) }.
(** [delete_object] works on the row as its caller has read it before. *)
Inductive task := Upload (a : upload_args) | Delete (o : sobject).

Definition task_company (t : task) : Z :=
  match t with Upload a => b_company_id (u_bucket a) | Delete o => o_company_id o end.
Definition task_user (t : task) : option Z :=
  match t with Upload a => u_owner a | Delete o => o_owner_id o end.
Definition u_size (a : upload_args) : Z := Z.of_nat (length (u_data a)).

(** What happens to the row of the object. *)
Inductive change := Created (o : sobject) | Replaced (old o : sobject) | Removed (o : sobject).
Definition change_delta (c : change) : Z :=
  match c with
  | Created o => o_size o
  | Replaced old o => o_size o - o_size old
  | Removed o => - o_size o
  end.

(** The next statement of a transaction, with what it knows: [q] says that it inserted the
    quota row of the company, [u] what it does to the quota row of the user. *)
Inductive phase :=
| Looking                                      (** [select_for_update] on the row *)
| Checking (old : option sobject)              (** [assert_can_store] *)
| Saving (old : option sobject) (q : bool)     (** the blob and the row *)
| Removing                                     (** the row and the blob of a deletion *)
| Counting (c : change) (q : bool)             (** the counter of the company *)
| CountingUser (c : change) (q : bool)         (** the counter of the user *)
| Committing (c : change) (q : bool) (u : option (Z * option Z))
| Ended.
Definition start (t : task) : phase := match t with Upload _ => Looking | Delete _ => Removing end.

(** *** Writes *)
Inductive write :=
| WQuotaRow (cid : Z)
| WRow (o : sobject)
| WDelete (i : uuid)
| WCompany (cid delta : Z)
| WUserRow (cid uid m : Z)
| WUser (cid uid delta : Z).

Definition apply_write `{Settings} (x : write) (d : db) : db :=
  match x with
  | WQuotaRow cid =>
      match db_company_quotas d !! cid with
      | Some _ => d
      | None => set_company_quotas (insert cid default_quota) d
      end
  | WRow o => set_objects (insert (o_id o) o) d
  | WDelete i => delete_object_row i d
  | WCompany cid delta => add_company_used cid delta d
  | WUserRow cid uid m =>
      match db_user_quotas d !! (cid, uid) with
      | Some _ => d
      | None => set_user_quotas (insert (cid, uid) (UserQuota m 0)) d
      end
  | WUser cid uid delta => add_user_used cid uid delta d
  end.
Definition replay `{Settings} (l : list write) (d : db) : db := foldl (λ d x, apply_write x d) d l.

Definition change_write (c : change) : write :=
  match c with
  | Created o => WRow o
  | Replaced _ o => WRow o
  | Removed o => WDelete (o_id o)
  end.
Definition quota_write (t : task) (q : bool) : list write :=
  if q then [WQuotaRow (task_company t)] else [].
Definition company_write (t : task) (c : change) : list write :=
  if change_delta c == 0 then [] else [WCompany (task_company t) (change_delta c)].
Definition user_write (t : task) (c : change) (u : option (Z * option Z)) : list write :=
  match u with
  | None => []
  | Some (uid, created) =>
      from_option (λ m, [WUserRow (task_company t) uid m]) [] created ++
      [WUser (task_company t) uid (change_delta c)]
  end.
(** The writes a transaction has made and not yet committed. *)
Definition writes (t : task) (p : phase) : list write :=
  match p with
  | Looking | Checking _ | Removing | Ended => []
  | Saving _ q => quota_write t q
  | Counting c q => quota_write t q ++ [change_write c]
  | CountingUser c q => quota_write t q ++ [change_write c] ++ company_write t c
  | Committing c q u =>
      quota_write t q ++ [change_write c] ++ company_write t c ++ user_write t c u
  end.

(** *** Locks *)
Inductive lock := LObject (i : uuid) | LName (bid : uuid) (name : string) | LCompany (cid : Z)
                | LUser (cid uid : Z).
#[export] Instance lock_eq_dec : EqDecision lock.
Proof. solve_decision. Defined.

Definition name_lock (o : sobject) : lock := LName (o_bucket_id o) (o_name o).
Definition old_locks (old : option sobject) : list lock := from_option (λ o, [LObject (o_id o)]) [] old.
Definition change_locks (c : change) : list lock :=
  match c with
  | Created o => [LObject (o_id o); name_lock o]
  | Replaced old _ => [LObject (o_id old)]
  | Removed o => [LObject (o_id o); name_lock o]
  end.
Definition quota_lock (t : task) (q : bool) : list lock :=
  if q then [LCompany (task_company t)] else [].
Definition company_lock (t : task) (c : change) : list lock := quota_lock t (change_delta c != 0).
Definition user_lock (t : task) (u : option (Z * option Z)) : list lock :=
  from_option (λ x, [LUser (task_company t) x.1]) [] u.
(** The locks a transaction holds. *)
Definition held (t : task) (p : phase) : list lock :=
  match p with
  | Looking | Removing | Ended => []
  | Checking old => old_locks old
  | Saving old q => old_locks old ++ quota_lock t q
  | Counting c q => change_locks c ++ quota_lock t q
  | CountingUser c q => change_locks c ++ quota_lock t q ++ company_lock t c
  | Committing c q u => change_locks c ++ quota_lock t q ++ company_lock t c ++ user_lock t u
  end.

(** ** Statements *)
Section statements.
Context `{Settings, Backend}.

(** What a transaction sees of the database whose committed state is [w]. *)
Definition view (t : task) (p : phase) (w : world) : world := set_db (replay (writes t p)) w.
(** The committed rows are [w]'s still; blobs and UUIDs are those of [w']. *)
Definition uncommitted (w w' : world) : world :=
World (w_db w) (w_blobs w') (w_now w') (w_next_uuid w').
Definition lacks_quota (d : db) (cid : Z) : bool := bool_decide (db_company_quotas d !! cid = None).

Definition replacement (a : upload_args) (old : sobject) (t : datetime) : sobject :=
StorageObject (o_id old) (o_bucket_id old) (o_name old) (o_company_id old)
  (if bool_decide (u_owner a = None) then o_owner_id old else u_owner a)
  (u_size a) (content_etag (u_data a)) (u_mime a) (u_meta a) (o_storage_key old)
  (o_version old + 1) (o_created_at old) t (o_last_accessed_at old).
Definition new_key (a : upload_args) (i : uuid) : string :=
build_storage_key (b_company_id (u_bucket a)) (b_name (u_bucket a)) (u_name a) i.
Definition new_row (a : upload_args) (i : uuid) (t : datetime) : sobject :=
StorageObject i (b_id (u_bucket a)) (u_name a) (b_company_id (u_bucket a)) (u_owner a) (u_size a)
  (content_etag (u_data a)) (u_mime a) (u_meta a) (new_key a i) 1 t t None.

(** The part of [apply_usage_delta] about the user: whether there is a row to update, and
  the limit of the row that is created first. *)
Definition user_charge (t : task) (c : change) (d : db) : option (Z * option Z) :=
if change_delta c == 0 then None
else
  match task_user t with
  | None => None
  | Some uid =>
      match resolve_user_limit d (task_company t) (quota_of d (task_company t)) (Some uid) with
      | (_, Some _) => Some (uid, None)
      | (Some m, None) => Some (uid, Some m)
      | (None, None) => None
      end
  end.

Definition look (a : upload_args) (w : world) : option (option sobject) :=
let old := find_object (w_db w) (b_id (u_bucket a)) (u_name a) in
if bool_decide (is_Some old) && negb (u_upsert a) then None else Some old.
Definition check (t : task) (a : upload_args) (old : option sobject) (w : world) : option bool :=
match assert_can_store (task_company t) (task_user t) (u_size a) (from_option o_size 0 old) w with
| (inl _, _) => None
| (inr _, w') => Some (lacks_quota (w_db w) (task_company t) && negb (lacks_quota (w_db w') (task_company t)))
end.
Definition overwrite (a : upload_args) (old : sobject) : prog change :=
save_blob (o_storage_key old) (u_data a) ;;;
t <- now ;; ret (Replaced old (replacement a old t)).
Definition create (a : upload_args) : prog change :=
i <- uuid4 ;;
save_blob (new_key a i) (u_data a) ;;;
t <- now ;;
o <- create_object_row (new_row a i t) ;;
ret (Created o).
Definition remove (o : sobject) : prog change :=
modify_db (delete_object_row (o_id o)) ;;;
delete_storage_key (o_storage_key o) ;;;
ret (Removed o).
(** The statement that writes the row, for a transaction that is at it. *)
Definition row_statement (t : task) (p : phase) : option (prog change * bool) :=
match t, p with
| Upload a, Saving (Some old) q => Some (overwrite a old, q)
| Upload a, Saving None q => Some (create a, q)
| Delete o, Removing => Some (remove o, false)
| _, _ => None
end.

(** The locks the next statement takes. *)
Definition needs (t : task) (p : phase) (w : world) : list lock :=
let d := w_db (view t p w) in
match p with
| Looking => match t with
             | Upload a => old_locks (find_object d (b_id (u_bucket a)) (u_name a))
             | Delete _ => []
             end
| Checking old => match t with
                  | Upload a => quota_lock t (from_option id false (check t a old (view t p w)))
                  | Delete _ => []
                  end
| Saving None _ => match t with
                   | Upload a => [LName (b_id (u_bucket a)) (u_name a)]
                   | Delete _ => []
                   end
| Removing => match t with Delete o => [LObject (o_id o); name_lock o] | Upload _ => [] end
| Counting c _ => company_lock t c
| CountingUser c _ => user_lock t (user_charge t c d)
| _ => []
end.

(** The next statement: the phase after it and the world (whose database is what is committed). *)
Definition advance (t : task) (p : phase) (w : world) : phase * world :=
let v := view t p w in
match p with
| Looking => match t with
             | Upload a => (from_option Checking Ended (look a v), w)
             | Delete _ => (Ended, w)
             end
| Checking old => match t with
                  | Upload a => (from_option (Saving old) Ended (check t a old v), w)
                  | Delete _ => (Ended, w)
                  end
| Saving _ _ | Removing =>
    match row_statement t p with
    | Some (m, q) => match m v with
                     | (inr c, v') => (Counting c q, uncommitted w v')
                     | (inl _, v') => (Ended, uncommitted w v')
                     end
    | None => (Ended, w)
    end
| Counting c q =>
    (CountingUser c (q || ((change_delta c != 0) && lacks_quota (w_db v) (task_company t))), w)
| CountingUser c q => (Committing c q (user_charge t c (w_db v)), w)
| Committing _ _ _ => (Ended, v)
| Ended => (Ended, w)
end.

(** ** Interleavings *)
Record sys := Sys { sy_world : world; sy_txs : gmap nat (task * phase) }.

Definition is_ended (p : phase) : bool := match p with Ended => true | _ => false end.
Definition active (s : sys) : Z := row_sum (λ tp, if is_ended tp.2 then 0 else 1) (sy_txs s).
(** No other transaction holds any of these locks. *)
Definition free (s : sys) (i : nat) (l : list lock) : Prop :=
∀ j t p k, sy_txs s !! j = Some (t, p) → j ≠ i → k ∈ l → k ∉ held t p.

(** The bucket of an upload is a stored row, and its data passed [_read_upload_bytes]; the
  row of a deletion was read from the database. *)
Definition task_ok (w : world) (t : task) : Prop :=
match t with
| Upload a => db_buckets (w_db w) !! b_id (u_bucket a) = Some (u_bucket a) ∧ u_size a ≤ MAX_UPLOAD_BYTES
| Delete o => 0 ≤ o_size o
end.

(** At most [workers] transactions run at a time; [allowed] says which tasks come.  A
  transaction may be rolled back at any time. *)
Inductive step (workers : Z) (allowed : task → Prop) (s : sys) : sys → Prop :=
| step_begin i t :
    sy_txs s !! i = None → active s < workers → allowed t → task_ok (sy_world s) t →
    step workers allowed s (Sys (sy_world s) (<[i:=(t, start t)]> (sy_txs s)))
| step_run i t p p' w' :
    sy_txs s !! i = Some (t, p) → p ≠ Ended → free s i (needs t p (sy_world s)) →
    advance t p (sy_world s) = (p', w') →
    step workers allowed s (Sys w' (<[i:=(t, p')]> (sy_txs s)))
| step_rollback i t p :
    sy_txs s !! i = Some (t, p) →
    step workers allowed s (Sys (sy_world s) (<[i:=(t, Ended)]> (sy_txs s))).

Definition any_task (t : task) : Prop := True.
Definition is_upload (t : task) : Prop := match t with Upload _ => True | Delete _ => False end.
End statements.

(** *** Schedules, for concrete runs *)
Section schedules.
Context `{Settings, Backend}.
Definition free_b (s : sys) (i : nat) (l : list lock) : bool :=
forallb (λ x : nat * (task * phase), (x.1 == i) || forallb (λ k, negb (k in_ held x.2.1 x.2.2)) l)
  (map_to_list (sy_txs s)).
(** [inl t]: a transaction begins; [inr tt]: its next statement, unless a lock is taken. *)
Definition exec1 (workers : Z) (s : sys) (e : nat * (task + unit)) : option sys :=
match e.2, sy_txs s !! e.1 with
| inl t, None =>
    if active s <? workers then Some (Sys (sy_world s) (<[e.1:=(t, start t)]> (sy_txs s))) else None
| inr _, Some (t, p) =>
    if negb (is_ended p) && free_b s e.1 (needs t p (sy_world s)) then
      let '(p', w') := advance t p (sy_world s) in Some (Sys w' (<[e.1:=(t, p')]> (sy_txs s)))
    else None
| _, _ => None
end.
Fixpoint exec (workers : Z) (s : sys) (l : list (nat * (task + unit))) : option sys :=
match l with
| [] => Some s
| e :: l' => s' ← exec1 workers s e; exec workers s' l'
end.
Definition tasks (l : list (nat * (task + unit))) : list task :=
omap (λ e : nat * (task + unit), match e.2 with inl t => Some t | inr _ => None end) l.
End schedules.
