(* ===== verification/UploadsInv.v ===== *)
(** * UploadsInv: the invariants of concurrent transactions

    What the writes of a transaction do to rows and counters, the bytes that transactions
    past the check have still to commit ([bounded]), and what the locks of an upload
    protect ([known], [consistent]); each is kept by every step of [Uploads]. *)
From S2P Require Import Prelude PyStr Models Mime Signals Access Quotas Backends Services FileStore Uploads.

(** ** Lemmas *)
Section lemmas.
Context `{Settings, Backend}.

(** *** What the writes do to the counters *)
Lemma replay_app l l' d : replay (l ++ l') d = replay l' (replay l d).
Proof. apply foldl_app. Qed.
(** A property of the database that every write keeps. *)
Lemma replay_ind (P : db → Prop) l d :
(∀ x d, x ∈ l → P d → P (apply_write x d)) → P d → P (replay l d).
Proof.
revert d. induction l as [|x l IH]; intros d Hx Hd; [done|]. apply IH.
- intros y d' Hy. apply Hx. by right.
- apply Hx; [by left|done].
Qed.

Lemma write_max x d c :
cq_max_bytes (quota_of (apply_write x d) c) = cq_max_bytes (quota_of d c).
Proof.
unfold quota_of. destruct x as [cid|o|i|cid delta|cid uid m|cid uid delta]; simpl; try done.
- destruct (db_company_quotas d !! cid) eqn:Hq; [done|]. simpl. rewrite lookup_insert.
  case_decide; [subst; by rewrite Hq|done].
- rewrite lookup_alter. case_decide; [subst|done]. by destruct (db_company_quotas d !! _).
- by destruct (db_user_quotas d !! _).
Qed.
Lemma write_used_other x d c :
(∀ delta, x ≠ WCompany c delta) → company_used (apply_write x d) c = company_used d c.
Proof.
unfold company_used. intros Hne. destruct x as [cid|o|i|cid delta|cid uid m|cid uid delta]; simpl; try done.
- destruct (db_company_quotas d !! cid) eqn:Hq; [done|]. simpl. rewrite lookup_insert.
  case_decide; [subst; by rewrite Hq|done].
- rewrite lookup_alter_ne; [done|]. intros ->. by eapply Hne.
- by destruct (db_user_quotas d !! _).
Qed.
Lemma replay_max l d c : cq_max_bytes (quota_of (replay l d) c) = cq_max_bytes (quota_of d c).
Proof.
apply (replay_ind (λ d', cq_max_bytes (quota_of d' c) = cq_max_bytes (quota_of d c))); [|done].
intros x d' _ <-. apply write_max.
Qed.
Lemma replay_used_other l d c :
(∀ delta, WCompany c delta ∉ l) → company_used (replay l d) c = company_used d c.
Proof.
intros Hl. apply (replay_ind (λ d', company_used d' c = company_used d c)); [|done].
intros x d' Hx <-. apply write_used_other. intros delta ->. by eapply Hl.
Qed.
Lemma replay_buckets l d : db_buckets (replay l d) = db_buckets d.
Proof.
apply (replay_ind (λ d', db_buckets d' = db_buckets d)); [|done].
intros x d' _ <-. destruct x; simpl; try done.
- by destruct (db_company_quotas d' !! _).
- by destruct (db_user_quotas d' !! _).
Qed.
Lemma replay_objects l d :
(∀ o, WRow o ∉ l) → (∀ i, WDelete i ∉ l) → db_objects (replay l d) = db_objects d.
Proof.
intros Hr Hd. apply (replay_ind (λ d', db_objects d' = db_objects d)); [|done].
intros x d' Hx <-. destruct x; simpl; try done.
- by destruct (db_company_quotas d' !! _).
- by destruct (Hr o).
- by destruct (Hd i).
- by destruct (db_user_quotas d' !! _).
Qed.

(** The pieces of a transaction that touch neither rows nor counters. *)
Lemma elem_of_quota_write t q x : x ∈ quota_write t q → x = WQuotaRow (task_company t).
Proof. unfold quota_write. destruct q; [by intros ->%list_elem_of_singleton|by intros ?%not_elem_of_nil]. Qed.
Lemma elem_of_user_write t c u x :
x ∈ user_write t c u → (∃ uid m, x = WUserRow (task_company t) uid m) ∨
                       (∃ uid, x = WUser (task_company t) uid (change_delta c)).
Proof.
destruct u as [[uid [m|]]|]; simpl; rewrite ?elem_of_cons; intros Hx;
  repeat destruct Hx as [->|Hx]; try (by apply not_elem_of_nil in Hx); eauto.
Qed.

(** The rows and the counter of the company after the commit. *)
Definition change_rows (c : change) (m : gmap uuid sobject) : gmap uuid sobject :=
match c with
| Created o => <[o_id o:=o]> m
| Replaced _ o => <[o_id o:=o]> m
| Removed o => delete (o_id o) m
end.
Lemma change_write_objects c d : db_objects (apply_write (change_write c) d) = change_rows c (db_objects d).
Proof. by destruct c. Qed.
Lemma quota_write_objects t q d : db_objects (replay (quota_write t q) d) = db_objects d.
Proof. apply replay_objects; intros y Hy; by apply elem_of_quota_write in Hy. Qed.
Lemma company_write_objects t c d : db_objects (replay (company_write t c) d) = db_objects d.
Proof. unfold company_write. by case_bool_decide. Qed.
Lemma commit_objects t c q u d :
db_objects (replay (writes t (Committing c q u)) d) = change_rows c (db_objects d).
Proof.
cbn [writes]. rewrite !replay_app. rewrite replay_objects.
- rewrite company_write_objects. cbn [replay foldl]. by rewrite change_write_objects, quota_write_objects.
- intros o [(? & ? & ?)|(? & ?)]%elem_of_user_write; done.
- intros i [(? & ? & ?)|(? & ?)]%elem_of_user_write; done.
Qed.

Lemma change_write_not_company c cid delta : WCompany cid delta ≠ change_write c.
Proof. by destruct c. Qed.
Lemma commit_used t c q u d cid :
company_used (replay (writes t (Committing c q u)) d) cid =
company_used (replay (company_write t c) (replay (quota_write t q) d)) cid.
Proof.
cbn [writes]. rewrite !replay_app. rewrite (replay_used_other (user_write t c u)).
2: { intros delta [(? & ? & ?)|(? & ?)]%elem_of_user_write; done. }
cbn [replay foldl]. unfold company_write. case_bool_decide as Hz; cbn [replay foldl].
- apply write_used_other. intros delta E. by destruct (change_write_not_company c cid delta).
- unfold company_used. simpl. rewrite !lookup_alter.
  assert (Hq : db_company_quotas (apply_write (change_write c) (replay (quota_write t q) d)) =
           db_company_quotas (replay (quota_write t q) d)) by (by destruct c).
  by rewrite Hq.
Qed.
Lemma quota_write_used t q d cid : company_used (replay (quota_write t q) d) cid = company_used d cid.
Proof. apply replay_used_other. by intros delta ?%elem_of_quota_write. Qed.
Lemma commit_used_other t c q u d cid :
cid ≠ task_company t → company_used (replay (writes t (Committing c q u)) d) cid = company_used d cid.
Proof.
intros Hne. rewrite commit_used, replay_used_other; [apply quota_write_used|].
intros delta. unfold company_write. case_bool_decide; [by intros ?%not_elem_of_nil|].
intros Hx%list_elem_of_singleton. congruence.
Qed.
Lemma add_used d cid delta :
company_used (add_company_used cid delta d) cid =
if lacks_quota d cid then 0 else Z.max 0 (company_used d cid + delta).
Proof.
unfold company_used, lacks_quota. simpl. rewrite lookup_alter_eq.
by destruct (db_company_quotas d !! cid).
Qed.
(** The counter is updated as told whenever its row exists. *)
Lemma commit_used_own t c q u d :
(change_delta c ≠ 0 → q = true ∨ lacks_quota d (task_company t) = false) →
company_used (replay (writes t (Committing c q u)) d) (task_company t) =
if change_delta c == 0 then company_used d (task_company t)
else Z.max 0 (company_used d (task_company t) + change_delta c).
Proof.
intros Hrow. rewrite commit_used. unfold company_write. case_bool_decide as Hz; cbn [replay foldl].
{ apply quota_write_used. }
cbn [apply_write]. rewrite add_used, quota_write_used.
assert (lacks_quota (replay (quota_write t q) d) (task_company t) = false) as ->; [|done].
apply bool_decide_eq_false. unfold quota_write. destruct q; cbn [replay foldl apply_write].
- destruct (db_company_quotas d !! task_company t) eqn:Hq; [by rewrite Hq|]. simpl. by rewrite lookup_insert_eq.
- destruct (Hrow Hz) as [|Hl]; [done|]. by apply bool_decide_eq_false in Hl.
Qed.
(** Without that knowledge, at most. *)
Lemma commit_used_le t c q u d cid :
0 ≤ company_used d cid →
0 ≤ company_used (replay (writes t (Committing c q u)) d) cid ≤
  company_used d cid + (if task_company t == cid then Z.max 0 (change_delta c) else 0).
Proof.
intros Hnn. case_bool_decide as Hc; [|rewrite commit_used_other by congruence; lia]. subst cid.
rewrite commit_used. unfold company_write. case_bool_decide as Hz; cbn [replay foldl].
{ rewrite quota_write_used. lia. }
cbn [apply_write]. rewrite add_used, quota_write_used. destruct (lacks_quota _ _); lia.
Qed.

(** *** The bytes a quota may be exceeded by *)
(** The growth a transaction that passed the check has still to commit. *)
Definition pending (cid : Z) (tp : task * phase) : Z :=
if task_company tp.1 == cid then
  match tp.1, tp.2 with
  | Upload a, Saving old _ => Z.max 0 (u_size a - from_option o_size 0 old)
  | _, Counting c _ | _, CountingUser c _ | _, Committing c _ _ => Z.max 0 (change_delta c)
  | _, _ => 0
  end
else 0.
Definition running (tp : task * phase) : Z := if is_ended tp.2 then 0 else 1.

(** What a transaction knows is true of its sizes. *)
Definition change_ok (t : task) (c : change) : Prop :=
match t, c with
| Upload a, Created o => o_size o = u_size a
| Upload a, Replaced old o => o_size o = u_size a ∧ 0 ≤ o_size old
| Delete _, Removed o => 0 ≤ o_size o
| _, _ => False
end.
Definition phase_ok (t : task) (p : phase) : Prop :=
match p with
| Checking old | Saving old _ => ∀ o, old = Some o → 0 ≤ o_size o
| Counting c _ | CountingUser c _ | Committing c _ _ => change_ok t c
| _ => True
end.
Definition tx_ok (tp : task * phase) : Prop :=
match tp.1 with Upload a => u_size a ≤ MAX_UPLOAD_BYTES | Delete o => 0 ≤ o_size o end ∧
phase_ok tp.1 tp.2.

Lemma pending_bounds cid tp : 0 ≤ MAX_UPLOAD_BYTES → tx_ok tp →
0 ≤ pending cid tp ≤ MAX_UPLOAD_BYTES * running tp.
Proof.
intros HM [Ht Hp]. destruct tp as [t p]. unfold pending, running. simpl in *.
assert (Hch : ∀ c, change_ok t c → 0 ≤ Z.max 0 (change_delta c) ≤ MAX_UPLOAD_BYTES).
{ intros c. unfold change_ok. destruct t, c; simpl; try done; unfold u_size in *; lia. }
case_bool_decide; [|destruct (is_ended p); lia].
destruct t as [a|o], p; simpl in *; try lia; try (apply Hch in Hp; lia).
destruct old as [o|]; simpl; [specialize (Hp o eq_refl)|]; unfold u_size in *; lia.
Qed.

Lemma check_fits t a old w q :
check t a old w = Some q →
u_size a - from_option o_size 0 old ≤ 0 ∨
company_fits (w_db w) (task_company t) (u_size a - from_option o_size 0 old).
Proof.
unfold check. pose proof (assert_can_store_correct (task_company t) (task_user t) (u_size a)
  (from_option o_size 0 old) w) as Hc. cbv zeta in Hc.
destruct (assert_can_store _ _ _ _ w) as [[e|u] w']; [done|]. intros _.
destruct Hc as (_ & _ & Hc). tauto.
Qed.
Lemma row_statement_ok t p m q v c v' :
row_statement t p = Some (m, q) → m v = (inr c, v') → tx_ok (t, p) →
change_ok t c ∧ ∀ cid, pending cid (t, Counting c q) ≤ pending cid (t, p).
Proof.
intros Hr Hm [Ht Hp]. simpl in *.
destruct t as [a|o], p; simpl in Hr; try done.
- destruct old as [old|]; injection Hr as <- <-.
  + unfold overwrite, bind, now, gets in Hm. destruct (save_blob _ _ v) as [[e|[]] v1]; [done|].
    injection Hm as <- _. simpl. split; [split; [done|by apply Hp]|]. intros cid. unfold pending. simpl. done.
  + unfold create, bind, uuid4, now, gets, create_object_row, get_db, gets in Hm.
    destruct (save_blob _ _ _) as [[e|[]] v1]; [done|].
    unfold bind in Hm. destruct (bool_decide _); [done|]. injection Hm as <- _. simpl. split; [done|].
    intros cid. unfold pending. simpl. rewrite Z.sub_0_r. done.
- injection Hr as <- <-. unfold remove, bind, modify_db, modify in Hm.
  destruct (delete_storage_key _ _) as [[e|[]] v1]; [done|]. injection Hm as <- _. simpl.
  split; [done|]. intros cid. unfold pending. simpl. case_bool_decide; lia.
Qed.

(** What holds of the committed database throughout. *)
Record sane (d : db) : Prop := Sane {
sane_sizes i o : db_objects d !! i = Some o → 0 ≤ o_size o;
sane_used cid : 0 ≤ company_used d cid }.

Lemma view_id t p w : writes t p = [] → view t p w = w.
Proof. unfold view. intros ->. by destruct w. Qed.
Lemma change_rows_sizes t c m :
change_ok t c → (∀ i o, m !! i = Some o → 0 ≤ o_size o) →
∀ i o, change_rows c m !! i = Some o → 0 ≤ o_size o.
Proof.
intros Hc Hm i o. unfold change_ok in Hc. destruct t as [a|od], c; simpl in *; try done.
- rewrite lookup_insert. case_decide; [|apply Hm]. intros [= <-]. rewrite Hc. unfold u_size. lia.
- rewrite lookup_insert. case_decide; [|apply Hm]. intros [= <-]. destruct Hc as [-> _]. unfold u_size. lia.
- rewrite lookup_delete. case_decide; [done|]. apply Hm.
Qed.
Lemma sane_commit t c q u d : sane d → change_ok t c → sane (replay (writes t (Committing c q u)) d).
Proof.
intros [Hs Hu] Hc. split.
- rewrite commit_objects. by apply (change_rows_sizes t).
- intros cid. by apply commit_used_le.
Qed.

Lemma pending_nonneg cid tp : 0 ≤ pending cid tp.
Proof. unfold pending. case_bool_decide; [|lia]. destruct tp as [[a|o] []]; simpl; lia. Qed.
Lemma pending_ended cid t : pending cid (t, Ended) = 0.
Proof. unfold pending. simpl. case_bool_decide; by destruct t. Qed.

(** One statement: the committed counter and the growth still to come rise only where a
    transaction passes the check, and then not above the quota. *)
Record advanced (cid : Z) (t : task) (p p' : phase) (w w' : world) : Prop := Advanced {
adv_sane : sane (w_db w');
adv_ok : tx_ok (t, p');
adv_max : cq_max_bytes (quota_of (w_db w') cid) = cq_max_bytes (quota_of (w_db w) cid);
adv_buckets : db_buckets (w_db w') = db_buckets (w_db w);
adv_used :
  company_used (w_db w') cid + pending cid (t, p') ≤ company_used (w_db w) cid + pending cid (t, p) ∨
  (pending cid (t, p) = 0 ∧ company_used (w_db w') cid + pending cid (t, p') ≤ 
     cq_max_bytes (quota_of (w_db w) cid)) }.

Lemma advance_bound t p w p' w' cid :
advance t p w = (p', w') → p ≠ Ended → sane (w_db w) → tx_ok (t, p) →
cq_max_bytes (quota_of (w_db w) cid) ≠ 0 → advanced cid t p p' w w'.
Proof.
intros Hadv Hne Hsane Hok HL. pose proof Hok as [Ht Hp]. simpl in Ht, Hp.
pose proof (pending_nonneg cid (t, p)) as Hnn.
assert (Hstay : ∀ w1, w_db w1 = w_db w → ∀ p1, phase_ok t p1 →
          pending cid (t, p1) = pending cid (t, p) ∨ pending cid (t, p1) = 0 → (p1, w1) = (p', w') → advanced cid t p p' w w').
{ intros w1 Hw1 p1 Hp1 Hle [= <- <-]. split; rewrite ?Hw1; done || (left; lia). }
assert (Hend : ∀ w1, w_db w1 = w_db w → (Ended, w1) = (p', w') → advanced cid t p p' w w').
{ intros w1 Hw1. apply Hstay; [done|done|]. right. apply pending_ended. }
destruct p as [|old|old q| |c q|c q|c q u|]; cbn [advance] in Hadv; try done.
- destruct t as [a|o]; [|by apply (Hend w)]. unfold look in Hadv.
  destruct (_ && _); [by apply (Hend w)|]. apply (Hstay w eq_refl _) in Hadv; [done| |].
  + intros o (_ & _ & i & Ho)%find_object_Some. by apply (sane_sizes _ Hsane i).
  + right. unfold pending. simpl. by case_bool_decide.
- destruct t as [a|o]; [|by apply (Hend w)].
  rewrite view_id in Hadv by done. destruct (check _ a old w) as [q|] eqn:Hq; [|by apply (Hend w)].
  injection Hadv as <- <-. apply check_fits in Hq. split; try done.
  assert (pending cid (Upload a, Checking old) = 0) as -> by (unfold pending; simpl; by case_bool_decide).
  unfold pending. cbn [fst snd task_company] in *. case_bool_decide as Hc; [subst cid|left; lia].
  unfold company_fits in Hq. cbv zeta in Hq. lia.
- destruct (row_statement t (Saving old q)) as [[m q']|] eqn:Hr; [|by apply (Hend w)].
  destruct (m _) as [[e|c] v'] eqn:Hm; [by apply (Hend (uncommitted w v'))|].
  destruct (row_statement_ok _ _ _ _ _ _ _ Hr Hm Hok) as [Hc Hle]. injection Hadv as <- <-.
  split; try done. left. simpl. specialize (Hle cid). lia.
- destruct (row_statement t Removing) as [[m q']|] eqn:Hr; [|by apply (Hend w)].
  destruct (m _) as [[e|c] v'] eqn:Hm; [by apply (Hend (uncommitted w v'))|].
  destruct (row_statement_ok _ _ _ _ _ _ _ Hr Hm Hok) as [Hc Hle]. injection Hadv as <- <-.
  split; try done. left. simpl. specialize (Hle cid). lia.
- apply (Hstay w eq_refl) in Hadv; [done|done|]. left. by destruct t.
- apply (Hstay w eq_refl) in Hadv; [done|done|]. left. by destruct t.
- injection Hadv as <- <-. unfold view. cbn [w_db set_db]. split; cbn [w_db set_db].
  + by apply sane_commit.
  + done.
  + apply replay_max.
  + apply replay_buckets.
  + left. rewrite pending_ended. pose proof (commit_used_le t c q u (w_db w) cid (sane_used _ Hsane cid)) as [_ Hle].
    assert (pending cid (t, Committing c q u) = if task_company t == cid then Z.max 0 (change_delta c) else 0) as ->
      by (unfold pending; by destruct t).
    lia.
Qed.

(** *** The system *)
Lemma row_sum_scaled {K} `{Countable K} {R} (f g : R → Z) (k : Z) (m : gmap K R) :
row_sum (λ x, k * f x - g x) m = k * row_sum f m - row_sum g m.
Proof. unfold row_sum. induction (rows m) as [|x l IH]; cbn [fmap list_fmap foldr]; lia. Qed.

Definition txs_ok (s : sys) : Prop := ∀ i tp, sy_txs s !! i = Some tp → tx_ok tp.
(** The growth that the other transactions have still to commit. *)
Lemma others_pending s i tp cid :
0 ≤ MAX_UPLOAD_BYTES → txs_ok s → sy_txs s !! i = Some tp → running tp = 1 →
row_sum (pending cid) (sy_txs s) - pending cid tp ≤ MAX_UPLOAD_BYTES * (active s - 1).
Proof.
intros HM Hok Hi Hrun.
assert (0 ≤ row_sum (λ x, MAX_UPLOAD_BYTES * running x - pending cid x) (delete i (sy_txs s))) as Hle.
{ apply row_sum_nonneg. intros k x Hx. apply lookup_delete_Some in Hx as [_ Hx].
  pose proof (pending_bounds cid x HM (Hok k x Hx)). lia. }
rewrite row_sum_scaled, !(row_sum_delete _ _ _ tp) in Hle by done. rewrite Hrun in Hle.
change (row_sum running (sy_txs s)) with (active s) in Hle. lia.
Qed.

Record bounded (workers cid bound : Z) (s : sys) : Prop := Bounded {
bd_sane : sane (w_db (sy_world s));
bd_txs : txs_ok s;
bd_active : active s ≤ workers;
bd_quota : cq_max_bytes (quota_of (w_db (sy_world s)) cid) ≠ 0;
bd_limit : cq_max_bytes (quota_of (w_db (sy_world s)) cid) + (workers - 1) * MAX_UPLOAD_BYTES ≤ bound;
bd_used : company_used (w_db (sy_world s)) cid + row_sum (pending cid) (sy_txs s) ≤ bound }.

Lemma txs_ok_insert s i tp : txs_ok s → tx_ok tp → txs_ok (Sys (sy_world s) (<[i:=tp]> (sy_txs s))).
Proof.
intros Hs Htp j x. simpl. rewrite lookup_insert. case_decide; [by intros [= <-]|]. apply Hs.
Qed.
Lemma running_le tp : running tp ≤ 1.
Proof. unfold running. destruct (is_ended _); lia. Qed.

Lemma bounded_step workers allowed cid bound s s' :
0 ≤ MAX_UPLOAD_BYTES → bounded workers cid bound s → step workers allowed s s' →
bounded workers cid bound s'.
Proof.
intros HM [Hsane Hok Hact HL Hlim Hused] Hstep.
destruct Hstep as [i t Hi Hfree _ Htask|i t p p' w' Hi Hne _ Hadv|i t p Hi].
- split; cbn [sy_world sy_txs]; try done.
  + apply txs_ok_insert; [done|]. split; [|by destruct t]. destruct t; [apply Htask|done].
  + unfold active. cbn [sy_txs]. rewrite row_sum_insert by done. change (running (t, start t) + active s ≤ workers).
    pose proof (running_le (t, start t)). lia.
  + rewrite row_sum_insert by done.
    assert (pending cid (t, start t) = 0) as -> by (unfold pending; simpl; case_bool_decide; by destruct t). lia.
- destruct (advance_bound t p (sy_world s) p' w' cid Hadv Hne Hsane (Hok _ _ Hi) HL)
    as [Hs' Hok' Hmax' _ Hused'].
  split; cbn [sy_world sy_txs]; rewrite ?Hmax'; try done.
  + by apply (txs_ok_insert (Sys w' (sy_txs s))).
  + unfold active. cbn [sy_txs]. rewrite (row_sum_replace _ _ _ (t, p)) by done.
    change (active s - running (t, p) + running (t, p') ≤ workers).
    pose proof (running_le (t, p')). assert (running (t, p) = 1) as -> by (by destruct p). lia.
  + rewrite (row_sum_replace _ _ _ (t, p)) by done. destruct Hused' as [|[Hz Hu]]; [lia|].
    pose proof (others_pending s i (t, p) cid HM Hok Hi) as Ho.
    assert (running (t, p) = 1) as Hrun by (by destruct p). specialize (Ho Hrun). nia.
- split; cbn [sy_world sy_txs]; try done.
  + apply txs_ok_insert; [done|]. split; [apply (Hok _ _ Hi)|done].
  + unfold active. cbn [sy_txs]. rewrite (row_sum_replace _ _ _ (t, p)) by done.
    change (active s - running (t, p) + 0 ≤ workers). unfold running. destruct (is_ended _); lia.
  + rewrite (row_sum_replace _ _ _ (t, p)), pending_ended by done. pose proof (pending_nonneg cid (t, p)). lia.
Qed.

(** *** What the locks protect *)
(** The statements that write the row, when they succeed. *)
Lemma save_blob_rows k data w r w' :
save_blob k data w = (r, w') →
w_db w' = w_db w ∧ w_now w' = w_now w ∧ w_next_uuid w' = w_next_uuid w.
Proof.
unfold save_blob, try_except, bind, default_storage_save.
destruct (storage_save k data (w_blobs w)) as [[e|n] m]; intros [= _ <-]; done.
Qed.
Lemma overwrite_success a old w c w' :
overwrite a old w = (inr c, w') →
c = Replaced old (replacement a old (w_now w)) ∧ w_next_uuid w' = w_next_uuid w.
Proof.
unfold overwrite, bind, now, gets. destruct (save_blob _ _ w) as [[e|[]] w1] eqn:Hs; [done|].
apply save_blob_rows in Hs as (_ & Hn & Hu). intros [= <- <-]. by rewrite Hn, Hu.
Qed.
Lemma create_success a w c w' :
create a w = (inr c, w') →
c = Created (new_row a (w_next_uuid w) (w_now w)) ∧
find_object (w_db w) (b_id (u_bucket a)) (u_name a) = None ∧
w_next_uuid w' = N.succ (w_next_uuid w).
Proof.
unfold create, bind, uuid4. destruct (save_blob _ _ _) as [[e|[]] w1] eqn:Hs; [done|].
apply save_blob_rows in Hs as (Hd & Hn & Hu). simpl in Hd, Hn, Hu.
unfold now, gets, create_object_row, bind, get_db, gets, modify_db, modify, ret.
cbn [o_bucket_id o_name new_row]. rewrite Hd, Hn.
destruct (bool_decide_reflect (is_Some (find_object (w_db w) (b_id (u_bucket a)) (u_name a)))) as [|Hnone]; [done|].
intros [= <- <-]. simpl. split_and!; [done| |done]. by apply eq_None_not_Some.
Qed.

Record rows_inv (w : world) : Prop := RowsInv {
ri_id i o : db_objects (w_db w) !! i = Some o → o_id o = i;
ri_fresh i o : db_objects (w_db w) !! i = Some o → (i < w_next_uuid w)%N;
ri_unique i j o o' : db_objects (w_db w) !! i = Some o → db_objects (w_db w) !! j = Some o' →
  o_bucket_id o = o_bucket_id o' → o_name o = o_name o' → i = j;
ri_company i o : db_objects (w_db w) !! i = Some o →
  ∃ b, db_buckets (w_db w) !! o_bucket_id o = Some b ∧ b_company_id b = o_company_id o;
ri_size i o : db_objects (w_db w) !! i = Some o → 0 ≤ o_size o }.
Lemma storage_rows w : store_inv w → rows_inv w.
Proof.
intros Hi. split.
- apply (inv_object_id w Hi).
- apply (inv_object_fresh w Hi).
- apply (inv_unique w Hi).
- apply (inv_company w Hi).
- apply (fun i o => size_nonneg w i o Hi).
Qed.

(** The row an upload writes, or overwrites, is the one of its path. *)
Definition row_of (a : upload_args) (o : sobject) : Prop :=
o_bucket_id o = b_id (u_bucket a) ∧ o_name o = u_name a.
Definition old_known (w : world) (a : upload_args) (o : sobject) : Prop :=
db_objects (w_db w) !! o_id o = Some o ∧ row_of a o.
Definition change_known (w : world) (a : upload_args) (c : change) : Prop :=
match c with
| Created o =>
    row_of a o ∧ o_company_id o = b_company_id (u_bucket a) ∧ o_size o = u_size a ∧
    (o_id o < w_next_uuid w)%N ∧ db_objects (w_db w) !! o_id o = None ∧
    ∀ i o', db_objects (w_db w) !! i = Some o' → ¬ row_of a o'
| Replaced old o =>
    old_known w a old ∧ row_of a o ∧ o_id o = o_id old ∧ o_company_id o = o_company_id old ∧
    o_size o = u_size a
| Removed _ => False
end.
(** What a transaction knows of the committed rows, between its statements. *)
Definition known (w : world) (a : upload_args) (p : phase) : Prop :=
match p with
| Looking | Ended => True
| Checking old | Saving old _ => ∀ o, old = Some o → old_known w a o
| Removing => False
| Counting c _ => change_known w a c
| CountingUser c q | Committing c q _ =>
    change_known w a c ∧
    (change_delta c ≠ 0 → q = true ∨ lacks_quota (w_db w) (b_company_id (u_bucket a)) = false)
end.

Lemma find_row w a : rows_inv w →
∀ o, find_object (w_db w) (b_id (u_bucket a)) (u_name a) = Some o → old_known w a o.
Proof.
intros Hw o (Hb & Hn & i & Ho)%find_object_Some. split; [|done]. by rewrite (ri_id w Hw i o Ho).
Qed.
Lemma find_no_row w a :
find_object (w_db w) (b_id (u_bucket a)) (u_name a) = None →
∀ i o, db_objects (w_db w) !! i = Some o → ¬ row_of a o.
Proof. intros Hf i o Ho [Hb Hn]. by apply (proj1 (find_object_None w _ _) Hf i o Ho). Qed.

Lemma overwrite_uuid a old w r w' : overwrite a old w = (r, w') → w_next_uuid w' = w_next_uuid w.
Proof.
unfold overwrite, bind. destruct (save_blob _ _ w) as [[e|[]] w1] eqn:Hs;
  apply save_blob_rows in Hs as (_ & _ & Hu); by intros [= _ <-].
Qed.
Lemma create_uuid a w r w' : create a w = (r, w') → w_next_uuid w' = N.succ (w_next_uuid w).
Proof.
unfold create, bind, uuid4. destruct (save_blob _ _ _) as [[e|[]] w1] eqn:Hs;
  apply save_blob_rows in Hs as (_ & _ & Hu); [by intros [= _ <-]|].
unfold now, gets, create_object_row, bind, get_db, gets. by destruct (bool_decide _); intros [= _ <-].
Qed.

(** An upload before its commit leaves the committed database alone, learns what it needs,
    and takes the locks it needs, or that of a row that did not exist. *)
Lemma advance_known a p w p' w' :
rows_inv w → known w a p → advance (Upload a) p w = (p', w') →
(∀ c q u, p ≠ Committing c q u) →
w_db w' = w_db w ∧ (w_next_uuid w ≤ w_next_uuid w')%N ∧ known w' a p' ∧
∀ k, k ∈ held (Upload a) p' →
  k ∈ held (Upload a) p ∨ k ∈ needs (Upload a) p w ∨ k = LObject (w_next_uuid w).
Proof.
intros Hw Hk Hadv Hnc.
assert (Hend : ∀ w1, w_db w1 = w_db w → (w_next_uuid w ≤ w_next_uuid w1)%N → (Ended, w1) = (p', w') →
  w_db w' = w_db w ∧ (w_next_uuid w ≤ w_next_uuid w')%N ∧ known w' a p' ∧
  ∀ k, k ∈ held (Upload a) p' →
    k ∈ held (Upload a) p ∨ k ∈ needs (Upload a) p w ∨ k = LObject (w_next_uuid w)).
{ intros w1 Hd Hu [= <- <-]. split_and!; try done. by intros k ?%not_elem_of_nil. }
destruct p as [|old|old q| |c q|c q|c q u|]; try (by destruct (Hnc c q u)); cbn [known] in Hk; try done;
  cbn [advance] in Hadv.
- unfold look in Hadv. destruct (_ && _); [by apply (Hend w)|]. injection Hadv as <- <-.
  split_and!; [done|done|exact (find_row w a Hw)|]. intros k Hin. right. left.
  unfold needs. by rewrite view_id.
- rewrite view_id in Hadv by done. destruct (check _ a old w) as [q|] eqn:Hq; [|by apply (Hend w)].
  injection Hadv as <- <-. split_and!; try done. intros k [Hin|Hin]%elem_of_app; [by left|].
  right. left. unfold needs. rewrite view_id by done. by rewrite Hq.
- destruct old as [old|]; cbn [row_statement] in Hadv.
  + destruct (overwrite a old _) as [r v'] eqn:Hm. pose proof (overwrite_uuid _ _ _ _ _ Hm) as Hu.
    destruct r as [e|c]; [apply (Hend (uncommitted w v')); simpl; [done|rewrite Hu; simpl; lia|done]|].
    apply overwrite_success in Hm as [-> _]. injection Hadv as <- <-.
    destruct (Hk old eq_refl) as [Hrow Hof].
    split_and!; [done|simpl; rewrite Hu; simpl; lia|by split_and!|].
    intros k Hin. by left.
  + destruct (create a _) as [r v'] eqn:Hm. pose proof (create_uuid _ _ _ _ Hm) as Hu.
    destruct r as [e|c]; [apply (Hend (uncommitted w v')); simpl; [done|rewrite Hu; simpl; lia|done]|].
    apply create_success in Hm as (-> & Hnone & _). injection Hadv as <- <-. simpl in Hnone, Hu.
    split_and!; [done|simpl; rewrite Hu; simpl; lia| |].
    * split_and!; try done; cbn [o_id new_row uncommitted w_next_uuid w_db]; [rewrite Hu; simpl; lia| |].
      { apply eq_None_not_Some. intros [o Ho]. pose proof (ri_fresh w Hw _ o Ho) as Hlt. simpl in Hlt. lia. }
      intros i o Ho. apply (find_no_row (view (Upload a) (Saving None q) w) a Hnone i).
      simpl. by rewrite quota_write_objects.
    * intros k. cbn [held change_locks]. intros [[->|[->|Hin]%elem_of_cons]%elem_of_cons|Hin]%elem_of_app.
      -- by right; right.
      -- right; left. unfold needs. by left.
      -- by apply not_elem_of_nil in Hin.
      -- left. cbn [held old_locks from_option]. done.
- injection Hadv as <- <-. split_and!; try done.
  + cbn [known]. split; [done|]. intros Hz. destruct (lacks_quota (w_db w) _) eqn:Hl; [left|by right].
    apply orb_true_iff. destruct q; [by left|right]. rewrite (bool_decide_false _ Hz). simpl.
    apply bool_decide_eq_true in Hl. apply bool_decide_eq_true.
    destruct c; cbn [writes quota_write app replay foldl change_write apply_write w_db set_db view]; done.
  + intros k. cbn [held]. rewrite !elem_of_app. unfold needs, company_lock.
    destruct q; cbn [orb]; [tauto|].
    destruct (change_delta c != 0) eqn:Hz; cbn [andb]; [|tauto]. unfold quota_lock at 1. destruct (lacks_quota _ _); [|tauto].
    intros [Hin|[Hin|Hin]]; [tauto|right; left; exact Hin|tauto].
- injection Hadv as <- <-. split_and!; try done.
  intros k. cbn [held]. rewrite !elem_of_app. unfold needs. tauto.
- by apply (Hend w).
Qed.

(** *** The commit of an upload *)
Lemma known_change w a c q u : known w a (Committing c q u) → change_known w a c.
Proof. by intros [? _]. Qed.
(** Whether it is new or not, the row written is the only one of its path. *)
Record written (w : world) (a : upload_args) (c : change) (o : sobject) : Prop := Written {
wr_rows : change_rows c (db_objects (w_db w)) = <[o_id o:=o]> (db_objects (w_db w));
wr_path : row_of a o;
wr_company : o_company_id o = b_company_id (u_bucket a);
wr_size : 0 ≤ o_size o;
wr_fresh : (o_id o < w_next_uuid w)%N;
wr_only i o' : db_objects (w_db w) !! i = Some o' → row_of a o' → i = o_id o;
wr_lock : LObject (o_id o) ∈ change_locks c;
wr_old old : db_objects (w_db w) !! o_id o = Some old → row_of a old ∧ o_company_id old = o_company_id o;
wr_new : db_objects (w_db w) !! o_id o = None →
         LName (b_id (u_bucket a)) (u_name a) ∈ change_locks c;
wr_delta : change_delta c = o_size o - from_option o_size 0 (db_objects (w_db w) !! o_id o) }.
Lemma change_written w a c :
rows_inv w → db_buckets (w_db w) !! b_id (u_bucket a) = Some (u_bucket a) → change_known w a c →
∃ o, written w a c o.
Proof.
intros Hw Hb Hc. destruct c as [o|old o|o]; simpl in Hc; [| |done]; exists o.
- destruct Hc as (Hr & Hco & Hs & Hf & Hnone & Honly). split; try done.
  + rewrite Hs. unfold u_size. lia.
  + intros i o' Ho' Hr'. by destruct (Honly i o').
  + by left.
  + intros old Hold. congruence.
  + intros _. destruct Hr as [<- <-]. right. left.
  + rewrite Hnone. simpl. lia.
- destruct Hc as ([Hold Hro] & Hr & Hid & Hco & Hs). rewrite <- Hid in Hold.
  destruct (ri_company w Hw _ _ Hold) as (b & Hb' & Hcb). destruct Hro as [Hrb Hrn].
  rewrite Hrb, Hb in Hb'. injection Hb' as <-. split; try done.
  + congruence.
  + rewrite Hs. unfold u_size. lia.
  + by apply (ri_fresh w Hw _ old).
  + intros i o' Ho' [Hb2 Hn2]. apply (ri_unique w Hw i (o_id o) o' old); congruence.
  + rewrite Hid. by left.
  + rewrite Hold. by intros ? [= <-].
  + by rewrite Hold.
  + rewrite Hold. simpl. lia.
Qed.

Lemma commit_rows_inv w a c q u w' :
w_db w' = replay (writes (Upload a) (Committing c q u)) (w_db w) → w_next_uuid w' = w_next_uuid w →
rows_inv w → db_buckets (w_db w) !! b_id (u_bucket a) = Some (u_bucket a) → change_known w a c →
rows_inv w'.
Proof.
intros Hd Hu Hw Hb Hc. destruct (change_written w a c Hw Hb Hc) as [o Ho].
assert (Hrows : db_objects (w_db w') = <[o_id o:=o]> (db_objects (w_db w)))
  by (by rewrite Hd, commit_objects, (wr_rows _ _ _ _ Ho)).
assert (Hbk : db_buckets (w_db w') = db_buckets (w_db w)) by (by rewrite Hd, replay_buckets).
destruct (wr_path _ _ _ _ Ho) as [Hob Hon].
assert (Hkeep : ∀ i x, i ≠ o_id o → db_objects (w_db w) !! i = Some x →
          o_bucket_id x = o_bucket_id o → o_name x = o_name o → False).
{ intros i x Hi Hx Hxb Hxn. apply Hi, (wr_only _ _ _ _ Ho i x Hx). split; congruence. }
split; rewrite ?Hrows, ?Hbk, ?Hu.
- intros i x. rewrite lookup_insert. case_decide; [by intros [= <-]|]. apply (ri_id w Hw).
- intros i x. rewrite lookup_insert. case_decide as Hi; [|apply (ri_fresh w Hw)].
  subst i. intros _. apply (wr_fresh _ _ _ _ Ho).
- intros i j x y. rewrite !lookup_insert. case_decide as Hi; case_decide as Hj; try congruence.
  + intros [= <-] Hy Hxb Hxn. by destruct (Hkeep j y).
  + intros Hx [= <-] Hxb Hxn. by destruct (Hkeep i x).
  + apply (ri_unique w Hw).
- intros i x. rewrite lookup_insert. case_decide; [|apply (ri_company w Hw)].
  intros [= <-]. exists (u_bucket a). by rewrite Hob, (wr_company _ _ _ _ Ho).
- intros i x. rewrite lookup_insert. case_decide; [|apply (ri_size w Hw)].
  intros [= <-]. apply (wr_size _ _ _ _ Ho).
Qed.

(** The counter follows the rows. *)
Lemma commit_quota_exact w a c q u :
rows_inv w → db_buckets (w_db w) !! b_id (u_bucket a) = Some (u_bucket a) →
known w a (Committing c q u) → quota_exact (w_db w) →
quota_exact (replay (writes (Upload a) (Committing c q u)) (w_db w)).
Proof.
intros Hw Hb [Hc Hrow] Hq cid. destruct (change_written w a c Hw Hb Hc) as [o Ho].
pose proof (commit_objects (Upload a) c q u (w_db w)) as Hobj. rewrite (wr_rows _ _ _ _ Ho) in Hobj.
set (d' := replay _ _) in *.
assert (Hst : stored_bytes d' cid = stored_bytes (w_db w) cid +
          (if o_company_id o == cid then change_delta c else 0)).
{ rewrite (wr_delta _ _ _ _ Ho). destruct (db_objects (w_db w) !! o_id o) as [old|] eqn:Hold.
  - rewrite (stored_bytes_replace (w_db w) d' (o_id o) old o) by done. unfold size_in.
    destruct (wr_old _ _ _ _ Ho old Hold) as [_ ->]. simpl. case_bool_decide; lia.
  - rewrite (stored_bytes_insert (w_db w) d' (o_id o) o) by done. unfold size_in.
    simpl. case_bool_decide; lia. }
assert (Hnn : 0 ≤ stored_bytes d' cid).
{ clear Hst. apply row_sum_nonneg. intros i x. rewrite Hobj, lookup_insert. case_decide.
  - intros Hx. injection Hx as <-. pose proof (wr_size _ _ _ _ Ho). case_bool_decide; lia.
  - intros Hx. pose proof (ri_size w Hw i x Hx). case_bool_decide; lia. }
rewrite (wr_company _ _ _ _ Ho) in Hst. rewrite Hst in *.
destruct (decide (b_company_id (u_bucket a) = cid)) as [<-|Hne].
- rewrite bool_decide_true in * by done. unfold d'.
  rewrite (commit_used_own (Upload a)) by done. cbn [task_company]. rewrite Hq.
  case_bool_decide; lia.
- rewrite bool_decide_false in * by done. unfold d'. rewrite commit_used_other by done. rewrite Hq. lia.
Qed.

Lemma replay_quota_row l d cid : lacks_quota d cid = false → lacks_quota (replay l d) cid = false.
Proof.
intros Hl. apply (replay_ind (λ d', lacks_quota d' cid = false)); [|done].
intros x d' _ Hd'. apply bool_decide_eq_false in Hd'. apply bool_decide_eq_false.
destruct x as [c|o|i|c delta|c uid m|c uid delta]; simpl; try done.
- destruct (db_company_quotas d' !! c) eqn:Hq; [done|]. simpl. rewrite lookup_insert. by case_decide.
- rewrite lookup_alter. case_decide; [|done]. subst. by destruct (db_company_quotas d' !! cid).
- by destruct (db_user_quotas d' !! _).
Qed.

(** A commit leaves alone what another transaction has under its locks. *)
Lemma commit_keeps_known w a c q u w' a' p' :
w_db w' = replay (writes (Upload a) (Committing c q u)) (w_db w) → w_next_uuid w' = w_next_uuid w →
rows_inv w → db_buckets (w_db w) !! b_id (u_bucket a) = Some (u_bucket a) → change_known w a c →
(∀ k, k ∈ change_locks c → k ∉ held (Upload a') p') →
known w a' p' → known w' a' p'.
Proof.
intros Hd Hu Hw Hb Hc Hlocks Hk. destruct (change_written w a c Hw Hb Hc) as [x Hx].
assert (Hrows : db_objects (w_db w') = <[o_id x:=x]> (db_objects (w_db w)))
  by (by rewrite Hd, commit_objects, (wr_rows _ _ _ _ Hx)).
pose proof (wr_lock _ _ _ _ Hx) as Hxl.
assert (Hold : ∀ o, LObject (o_id o) ∈ held (Upload a') p' → old_known w a' o → old_known w' a' o).
{ intros o Hin [Ho Hr]. split; [|done]. rewrite Hrows, lookup_insert_ne; [done|].
  intros E. rewrite E in Hxl. by apply (Hlocks _ Hxl). }
assert (Hchange : ∀ c', (∀ k, k ∈ change_locks c' → k ∈ held (Upload a') p') →
          change_known w a' c' → change_known w' a' c').
{ intros c' Hin Hc'. destruct c' as [o|old o|o]; [| |done].
  - destruct Hc' as (Hr & Hco & Hs & Hf & Hnone & Honly). split_and!; try done.
    + by rewrite Hu.
    + rewrite Hrows, lookup_insert_ne; [done|]. intros E. rewrite E in Hxl.
      apply (Hlocks _ Hxl), Hin. by left.
    + intros i o'. rewrite Hrows, lookup_insert. case_decide as Hi; [|apply Honly].
      intros [= <-] [Hb' Hn']. destruct (wr_path _ _ _ _ Hx) as [Hb2 Hn2].
      destruct (db_objects (w_db w) !! o_id x) as [old|] eqn:Hold'.
      * apply (Honly _ _ Hold'). destruct (wr_old _ _ _ _ Hx old Hold') as [[? ?] _]. split; congruence.
      * apply (Hlocks _ (wr_new _ _ _ _ Hx Hold')), Hin. right. rewrite <- Hb2, <- Hn2, Hb', Hn'.
        destruct Hr as [<- <-]. by left.
  - destruct Hc' as (Ho & Hr). split; [|done]. apply Hold; [|done]. apply Hin. by left. }
destruct p' as [|old|old q'| |c' q'|c' q'|c' q' u'|]; cbn [known] in *; try done.
- intros o ->. apply Hold; [by left|by apply Hk].
- intros o ->. apply Hold; [by left|by apply Hk].
- apply Hchange; [|done]. intros k Hin. apply elem_of_app. by left.
- destruct Hk as [Hk Hq]. split; [apply Hchange; [|done]; intros k Hin; apply elem_of_app; by left|].
  intros Hz. destruct (Hq Hz) as [|Hl]; [by left|right]. rewrite Hd. by apply replay_quota_row.
- destruct Hk as [Hk Hq]. split; [apply Hchange; [|done]; intros k Hin; apply elem_of_app; by left|].
  intros Hz. destruct (Hq Hz) as [|Hl]; [by left|right]. rewrite Hd. by apply replay_quota_row.
Qed.

Lemma known_frame w w' a p :
w_db w' = w_db w → (w_next_uuid w ≤ w_next_uuid w')%N → known w a p → known w' a p.
Proof.
intros Hd Hu. unfold known, change_known, old_known. rewrite Hd.
assert (Hf : ∀ o, (o_id o < w_next_uuid w)%N → (o_id o < w_next_uuid w')%N) by (intros; lia).
destruct p as [| | | |[] ?|[] ?|[] ? ?|]; naive_solver.
Qed.
Lemma rows_inv_frame w w' :
w_db w' = w_db w → (w_next_uuid w ≤ w_next_uuid w')%N → rows_inv w → rows_inv w'.
Proof.
intros Hd Hu [? Hf ? ? ?]. split; rewrite ?Hd; try done. intros i o Ho. specialize (Hf i o Ho). lia.
Qed.

(** The rows a transaction has locked exist, or are its own. *)
Lemma held_fresh w a p i : rows_inv w → known w a p → LObject i ∈ held (Upload a) p → (i < w_next_uuid w)%N.
Proof.
intros Hw Hk. assert (Hq : ∀ (t : task) b l, LObject i ∈ l ++ quota_lock t b → LObject i ∈ l).
{ intros t b l [|Hin]%elem_of_app; [done|]. unfold quota_lock in Hin. destruct b;
    [by apply list_elem_of_singleton in Hin|by apply not_elem_of_nil in Hin]. }
assert (Hold : ∀ old, (∀ o, old = Some o → old_known w a o) → LObject i ∈ old_locks old → (i < w_next_uuid w)%N).
{ intros [o|] Ho; [|by intros ?%not_elem_of_nil]. intros [= ->]%list_elem_of_singleton.
  destruct (Ho o eq_refl) as [Hrow _]. by apply (ri_fresh w Hw _ o). }
assert (Hch : ∀ c, change_known w a c → LObject i ∈ change_locks c → (i < w_next_uuid w)%N).
{ intros [o|old o|o] Hc; [| |done].
  - intros [[= ->]|[?|?%not_elem_of_nil]%elem_of_cons]%elem_of_cons; [apply Hc|done|done].
  - intros [= ->]%list_elem_of_singleton. destruct Hc as [[Hrow _] _]. by apply (ri_fresh w Hw _ old). }
assert (Hul : ∀ u, LObject i ∉ user_lock (Upload a) u).
{ intros [u|]; [by intros ?%list_elem_of_singleton|by apply not_elem_of_nil]. }
destruct p as [|old|old q| |c q|c q|c q u|]; cbn [held known] in *; try (by intros ?%not_elem_of_nil).
- by apply Hold.
- intros Hin%Hq. by apply (Hold old).
- intros Hin%Hq. by apply (Hch c).
- destruct Hk as [Hk _]. rewrite app_assoc. intros Hin%Hq%Hq. by apply (Hch c).
- destruct Hk as [Hk _]. rewrite !app_assoc. intros [Hin|Hin]%elem_of_app; [|by apply Hul in Hin].
  apply Hq, Hq in Hin. by apply (Hch c).
Qed.

(** *** Only uploads run *)
Definition upload_known (w : world) (tp : task * phase) : Prop :=
∃ a, tp.1 = Upload a ∧ db_buckets (w_db w) !! b_id (u_bucket a) = Some (u_bucket a) ∧ known w a tp.2.
Record consistent (s : sys) : Prop := Consistent {
cs_rows : rows_inv (sy_world s);
cs_quota : quota_exact (w_db (sy_world s));
cs_known i tp : sy_txs s !! i = Some tp → upload_known (sy_world s) tp;
cs_locks i j tp tq k : sy_txs s !! i = Some tp → sy_txs s !! j = Some tq → i ≠ j →
  k ∈ held tp.1 tp.2 → k ∉ held tq.1 tq.2 }.

Lemma held_start t k : k ∉ held t (start t).
Proof. destruct t; apply not_elem_of_nil. Qed.
(** One transaction moves on, and holds no more than it may. *)
Lemma consistent_insert s i tp w' :
consistent s → rows_inv w' → quota_exact (w_db w') → upload_known w' tp →
(∀ j tq, sy_txs s !! j = Some tq → j ≠ i → upload_known w' tq) →
(∀ j tq k, sy_txs s !! j = Some tq → j ≠ i → k ∈ held tq.1 tq.2 → k ∉ held tp.1 tp.2) →
consistent (Sys w' (<[i:=tp]> (sy_txs s))).
Proof.
intros [_ _ Hkn Hlk] Hr Hq Htp Hoth Hfree. split; cbn [sy_world sy_txs]; [done|done| |].
- intros j tq. rewrite lookup_insert. case_decide; [by intros [= <-]|]. intros Hj. by apply (Hoth j).
- intros j1 j2 t1 t2 k. rewrite !lookup_insert. case_decide as H1; case_decide as H2; try congruence.
  + intros [= <-] Ht2 _ Hin1 Hin2. by eapply (Hfree j2).
  + intros Ht1 [= <-] _. by apply (Hfree j1).
  + intros Ht1 Ht2 Hne. by apply (Hlk j1 j2).
Qed.

Lemma consistent_step workers s s' : consistent s → step workers is_upload s s' → consistent s'.
Proof.
intros Hs Hstep. pose proof Hs as [Hr Hq Hkn Hlk].
destruct Hstep as [i t Hi _ Hup Htask|i t p p' w' Hi Hne Hfree Hadv|i t p Hi].
- destruct t as [a|o]; [|done]. apply consistent_insert; try done.
  + exists a. split; [done|]. split; [apply Htask|done].
  + intros j tq Hj _. by apply (Hkn j).
  + intros j tq k _ _ _. apply held_start.
- destruct (Hkn i _ Hi) as (a & Ha & Hb & Hk). simpl in Ha, Hk. subst t.
  assert (Hcases : (∃ c q u, p = Committing c q u) ∨ ∀ c q u, p ≠ Committing c q u)
    by (destruct p; eauto; right; done).
  destruct Hcases as [(c & q & u & ->)|Hnc].
  + injection Hadv as <- <-. pose proof (proj1 Hk) as Hc.
    apply consistent_insert; try done.
    * by apply (commit_rows_inv (sy_world s) a c q u).
    * by apply (commit_quota_exact (sy_world s) a c q u).
    * exists a. split; [done|]. split; [|done]. simpl. by rewrite replay_buckets.
    * intros j tq Hj Hne'. destruct (Hkn j tq Hj) as (a' & Ha' & Hb' & Hk'). exists a'.
      split; [done|]. split; [simpl; by rewrite replay_buckets|].
      apply (commit_keeps_known (sy_world s) a c q u); try done.
      intros k Hin. rewrite <- Ha'. apply (Hlk i j (Upload a, Committing c q u)); try done.
      simpl. apply elem_of_app. by left.
    * intros j tq k _ _ _. apply not_elem_of_nil.
  + destruct (advance_known a p _ p' w' Hr Hk Hadv Hnc) as (Hd & Hu & Hk' & Hheld).
    assert (Hframe : ∀ tq, upload_known (sy_world s) tq → upload_known w' tq).
    { intros tq (a' & ? & ? & ?). exists a'. rewrite Hd. split_and!; try done. by apply (known_frame (sy_world s)). }
    apply consistent_insert; [done|by apply (rows_inv_frame (sy_world s))|by rewrite Hd| | |].
    * exists a. by rewrite Hd.
    * intros j tq Hj _. by apply Hframe, (Hkn j).
    * intros j [t2 p2] k Hj Hji Hin Hin'. simpl in *.
      destruct (Hheld k Hin') as [Hin2|[Hin2| ->]].
      -- by apply (Hlk i j (Upload a, p) (t2, p2) k Hi Hj (not_eq_sym Hji)).
      -- by apply (Hfree j t2 p2 k Hj Hji Hin2).
      -- destruct (Hkn j _ Hj) as (a2 & Ha2 & _ & Hk2). simpl in *. subst t2.
         pose proof (held_fresh _ a2 p2 _ Hr Hk2 Hin). lia.
- destruct (Hkn i _ Hi) as (a & Ha & Hb & Hk). apply consistent_insert; try done.
  + by exists a.
  + intros j tq Hj _. by apply (Hkn j).
  + intros j tq k _ _ _. apply not_elem_of_nil.
Qed.
End lemmas.
