(* ===== verification/UploadsSpec.v ===== *)
(** * UploadsSpec: what concurrent uploads keep

    The counters stay exact and paths unique under any interleaving of uploads
    ([concurrent_uploads_exact]); a quota is exceeded by a bounded amount at most
    ([quota_overshoot_bounded]); transactions never block each other for good
    ([uploads_complete]); one that runs alone is [Services.upload_object]
    ([transaction_alone]).  The concrete runs at the end show what the code does not
    prevent: the overshoot itself, counters that drift under concurrent deletions, and an
    upload with [upsert] that fails. *)
From S2P Require Import Prelude PyStr Models Mime Signals Access Quotas Backends Services FileStore StoreSpec Uploads UploadsInv.

(** ** Lemmas *)

(** *** Blocked by whom *)
Section blocked.
Context `{Settings, Backend}.
Lemma free_b_spec s i l : free_b s i l = true → free s i l.
Proof.
intros Hf j t p k Hj Hne Hk. unfold free_b in Hf. rewrite forallb_forall in Hf.
specialize (Hf (j, (t, p))). rewrite <- list_elem_of_In in Hf.
specialize (Hf (proj2 (elem_of_map_to_list _ _ _) Hj)). simpl in Hf.
rewrite bool_decide_false in Hf by done. simpl in Hf. rewrite forallb_forall in Hf.
specialize (Hf k (proj1 (list_elem_of_In _ _) Hk)). apply negb_true_iff, bool_decide_eq_false in Hf. done.
Qed.
Lemma existsb_negb_forallb {A} (f : A → bool) l : forallb f l = false → ∃ x, x ∈ l ∧ f x = false.
Proof.
induction l as [|x l IH]; [done|]. cbn [forallb]. destruct (f x) eqn:Hx; cbn [andb].
- intros (y & Hy & Hfy)%IH. exists y. split; [by right|done].
- intros _. exists x. split; [by left|done].
Qed.
Lemma free_b_blocked s i l : free_b s i l = false →
∃ j t p k, sy_txs s !! j = Some (t, p) ∧ j ≠ i ∧ k ∈ l ∧ k ∈ held t p.
Proof.
intros Hf. unfold free_b in Hf. apply existsb_negb_forallb in Hf as ([j [t p]] & Hj & Hx).
apply elem_of_map_to_list in Hj. simpl in Hx. apply orb_false_iff in Hx as [Hne Hx].
apply bool_decide_eq_false in Hne. apply existsb_negb_forallb in Hx as (k & Hk & Hh).
apply negb_false_iff, bool_decide_eq_true in Hh. by exists j, t, p, k.
Qed.
End blocked.

(** *** Nobody waits for ever *)
Section progress.
Context `{Settings, Backend}.

(** Who inserted the quota row of the company still has it to commit; and an upload that
    passed the check with bytes to add has one in sight. *)
Definition row_known (w : world) (a : upload_args) (q : bool) (delta : Z) : Prop :=
(q = true → lacks_quota (w_db w) (b_company_id (u_bucket a)) = true) ∧
(0 < delta → q = true ∨ lacks_quota (w_db w) (b_company_id (u_bucket a)) = false).
Definition quota_known (w : world) (a : upload_args) (p : phase) : Prop :=
match p with
| Saving old q => row_known w a q (u_size a - from_option o_size 0 old)
| Counting c q => row_known w a q (change_delta c)
| CountingUser _ q | Committing _ q _ => row_known w a q 0
| _ => True
end.

Lemma check_row t a old w q :
check t a old w = Some q →
(q = true → lacks_quota (w_db w) (task_company t) = true) ∧
(0 < u_size a - from_option o_size 0 old → q = true ∨ lacks_quota (w_db w) (task_company t) = false).
Proof.
unfold check. destruct (assert_can_store _ _ _ _ w) as [[e|[]] w1] eqn:Hacs; [done|]. intros [= <-].
split; [by intros [? _]%andb_true_iff|]. intros Hd. destruct (lacks_quota (w_db w) _) eqn:Hl; [left|by right].
cbn [andb]. revert Hacs. unfold assert_can_store. destruct (_ <? 0); [done|].
destruct (Z.leb_spec (u_size a - from_option o_size 0 old) 0); [lia|].
unfold get_or_create_company_quota, bind, get_db, gets, modify_db, modify, ret.
apply bool_decide_eq_true in Hl. rewrite Hl. set (w2 := set_db _ w).
destruct (_ && (_ <? _)); [done|].
assert (Hw2 : negb (lacks_quota (w_db w2) (task_company t)) = true).
{ unfold lacks_quota. simpl. by rewrite lookup_insert_eq. }
destruct (resolve_user_limit _ _ _ _) as [[m|] row]; [destruct (_ && (_ <? _)); [done|]|]; by intros [= <-].
Qed.
Lemma row_view a w q c :
lacks_quota (replay (quota_write (Upload a) q ++ [change_write c]) (w_db w)) (b_company_id (u_bucket a)) =
lacks_quota (w_db w) (b_company_id (u_bucket a)) && negb q.
Proof.
rewrite replay_app. unfold lacks_quota, quota_write, replay. cbn [task_company].
assert (E : ∀ d, db_company_quotas (apply_write (change_write c) d) = db_company_quotas d) by (by destruct c).
destruct q; cbn [foldl]; rewrite E; [|by rewrite andb_true_r]. rewrite andb_false_r. simpl.
apply bool_decide_eq_false. destruct (db_company_quotas (w_db w) !! _) eqn:Hq; [by rewrite Hq|].
simpl. by rewrite lookup_insert_eq.
Qed.
Lemma advance_quota_known a p w p' w' :
known w a p → quota_known w a p → advance (Upload a) p w = (p', w') →
(∀ c q u, p ≠ Committing c q u) → w_db w' = w_db w → quota_known w' a p'.
Proof.
intros Hk Hq Hadv Hnc Hd. unfold quota_known, row_known in *. rewrite Hd.
destruct p as [|old|old q| |c q|c q|c q u|]; cbn [advance] in Hadv; try (by destruct (Hnc c q u)); try done.
- destruct (look _ _); by injection Hadv as <- _.
- rewrite view_id in Hadv by done. destruct (check _ a old w) as [q|] eqn:Hc; [|by injection Hadv as <- _].
  injection Hadv as <- _. apply (check_row _ _ _ _ _ Hc).
- destruct (row_statement _ _) as [[m q']|] eqn:Hr; [|by injection Hadv as <- _].
  assert (q' = q) as -> by (destruct old; cbn [row_statement] in Hr; congruence).
  destruct (m _) as [[e|c] v'] eqn:Hm; [by injection Hadv as <- _|]. injection Hadv as <- _.
  destruct old as [old|]; cbn [row_statement] in Hr; injection Hr as <-.
  + by apply overwrite_success in Hm as [-> _].
  + apply create_success in Hm as [-> _]. simpl. by rewrite Z.sub_0_r in Hq.
- injection Hadv as <- _. cbn [view writes w_db set_db task_company]. rewrite row_view. split; [|lia].
  destruct Hq as [Hq _]. destruct q; [intros _; by apply Hq|]. cbn [orb negb]. rewrite andb_true_r.
  by intros [_ ?]%andb_true_iff.
- injection Hadv as <- _. exact Hq.
- by injection Hadv as <- _.
Qed.

Lemma commit_lacks t c q u d cid :
lacks_quota (replay (writes t (Committing c q u)) d) cid =
lacks_quota d cid && negb (q && (task_company t == cid)).
Proof.
assert (Hsame : ∀ l d', (∀ x, x ∈ l → x ≠ WQuotaRow cid) → lacks_quota (replay l d') cid = lacks_quota d' cid).
{ intros l d' Hl. apply (replay_ind (λ d2, lacks_quota d2 cid = lacks_quota d' cid)); [|done].
  intros x d2 Hx <-. specialize (Hl x Hx). unfold lacks_quota. apply bool_decide_ext.
  destruct x as [c'|o|i|c' delta|c' uid m|c' uid delta]; simpl; try done.
  - destruct (db_company_quotas d2 !! c') eqn:Hc; [done|]. simpl. rewrite lookup_insert_ne; [done|].
    intros ->. by apply Hl.
  - rewrite lookup_alter. case_decide; [|done]. subst. by rewrite fmap_None.
  - by destruct (db_user_quotas d2 !! _). }
cbn [writes]. rewrite replay_app, Hsame.
- unfold quota_write. destruct q; cbn [andb negb]; [|by rewrite andb_true_r]. case_bool_decide as Hc.
  + subst cid. rewrite andb_false_r. unfold replay, lacks_quota. simpl. apply bool_decide_eq_false.
    destruct (db_company_quotas d !! _) eqn:Hq; [by rewrite Hq|]. simpl. by rewrite lookup_insert_eq.
  + rewrite andb_true_r. apply Hsame. intros x ->%list_elem_of_singleton. congruence.
- intros x. rewrite !elem_of_app. intros [Hx|[Hx|Hx]].
  + apply list_elem_of_singleton in Hx as ->. by destruct c.
  + unfold company_write in Hx. case_bool_decide; [by apply not_elem_of_nil in Hx|].
    by apply list_elem_of_singleton in Hx as ->.
  + apply elem_of_user_write in Hx as [(? & ? & ->)|(? & ->)]; done.
Qed.

(** The quota row that a transaction inserts is locked, so knowledge of it is stable. *)
Lemma quota_known_locks a p q :
(∃ old, p = Saving old q) ∨ (∃ c, p = Counting c q) ∨ (∃ c, p = CountingUser c q) ∨
  (∃ c u, p = Committing c q u) →
q = true → LCompany (b_company_id (u_bucket a)) ∈ held (Upload a) p.
Proof.
intros Hp ->. destruct Hp as [[old ->]|[[c ->]|[[c ->]|(c & u & ->)]]]; cbn [held]; rewrite !elem_of_app;
  unfold quota_lock; cbn [task_company]; rewrite list_elem_of_singleton; tauto.
Qed.
Lemma commit_keeps_quota_known w a c q u w' a' p' :
w_db w' = replay (writes (Upload a) (Committing c q u)) (w_db w) →
(q = true → LCompany (b_company_id (u_bucket a)) ∉ held (Upload a') p') →
quota_known w a' p' → quota_known w' a' p'.
Proof.
intros Hd Hlock Hk.
assert (Hrow : ∀ q' delta, (q' = true → LCompany (b_company_id (u_bucket a')) ∈ held (Upload a') p') →
          row_known w a' q' delta → row_known w' a' q' delta).
{ intros q' delta Hheld [H1 H2]. unfold row_known. rewrite Hd, commit_lacks. cbn [task_company]. split.
  - intros Hq'. rewrite (H1 Hq'). destruct q; [|done]. rewrite bool_decide_false; [done|].
    intros E. apply (Hlock eq_refl). rewrite E. by apply Hheld.
  - intros Hdelta. destruct (H2 Hdelta) as [|Hl]; [by left|right]. by rewrite Hl. }
destruct p' as [|old|old q'| |c' q'|c' q'|c' q' u'|]; cbn [quota_known] in *; try done;
  apply Hrow; try done; intros Hq'; apply (quota_known_locks a' _ q'); eauto 6.
Qed.

Definition orderly (s : sys) : Prop :=
consistent s ∧ ∀ i a p, sy_txs s !! i = Some (Upload a, p) → quota_known (sy_world s) a p.
Lemma orderly_step workers s s' : orderly s → step workers is_upload s s' → orderly s'.
Proof.
intros [Hs Hq] Hstep. split; [by apply (consistent_step workers s)|]. pose proof Hs as [Hr _ Hkn Hlk].
destruct Hstep as [i t Hi _ Hup Htask|i t p p' w' Hi Hne Hfree Hadv|i t p Hi]; cbn [sy_world sy_txs]; intros j a2 p2;
  rewrite lookup_insert; case_decide as Hj; try (by apply Hq).
- intros Heq. destruct t as [a|o]; [|done]. by simplify_eq.
- destruct (Hkn i _ Hi) as (a & Ha & Hb & Hk). simpl in Ha, Hk. subst t. intros [= <- <-].
  assert (Hcases : (∃ c q u, p = Committing c q u) ∨ ∀ c q u, p ≠ Committing c q u)
    by (destruct p; eauto; right; done).
  destruct Hcases as [(c & q & u & ->)|Hnc]; [by injection Hadv as <- _|].
  destruct (advance_known a p _ p' w' Hr Hk Hadv Hnc) as (Hd & _).
  by apply (advance_quota_known a p (sy_world s) p' w'); try done; apply (Hq i).
- destruct (Hkn i _ Hi) as (a & Ha & Hb & Hk). simpl in Ha, Hk. subst t. intros Hj2.
  assert (Hcases : (∃ c q u, p = Committing c q u) ∨ ∀ c q u, p ≠ Committing c q u)
    by (destruct p; eauto; right; done).
  destruct Hcases as [(c & q & u & ->)|Hnc].
  + injection Hadv as <- <-. apply (commit_keeps_quota_known (sy_world s) a c q u); [done| |by apply (Hq j)].
    intros ->. apply (Hlk i j (Upload a, Committing c true u) (Upload a2, p2)); try done.
    apply quota_known_locks with (q := true); eauto 6.
  + destruct (advance_known a p _ p' w' Hr Hk Hadv Hnc) as (Hd & _).
    pose proof (Hq j a2 p2 Hj2) as Hq2. unfold quota_known, row_known in *. by rewrite Hd.
- intros Heq. by simplify_eq.
Qed.

(** How far a transaction is, and the locks it can hold by then. *)
Definition stage (p : phase) : nat :=
match p with
| Ended => 0 | Looking | Removing => 1 | Checking _ => 2 | Saving _ _ => 3
| Counting _ _ => 4 | CountingUser _ _ => 5 | Committing _ _ _ => 6
end.
Lemma old_locks_object k old : k ∈ old_locks old → ∃ i, k = LObject i.
Proof. destruct old as [o|]; [intros ->%list_elem_of_singleton; eauto|by intros ?%not_elem_of_nil]. Qed.
Lemma quota_lock_company k t b : k ∈ quota_lock t b → b = true ∧ k = LCompany (task_company t).
Proof. unfold quota_lock. destruct b; [by intros ->%list_elem_of_singleton|by intros ?%not_elem_of_nil]. Qed.
Lemma user_lock_user k t u : k ∈ user_lock t u → ∃ uid, k = LUser (task_company t) uid.
Proof. destruct u; [intros ->%list_elem_of_singleton; eauto|by intros ?%not_elem_of_nil]. Qed.
Lemma change_locks_rows k c : k ∈ change_locks c → (∃ i, k = LObject i) ∨ (∃ b n, k = LName b n).
Proof. destruct c; cbn [change_locks]; unfold name_lock; rewrite !elem_of_cons; intros Hk;
  repeat destruct Hk as [->|Hk]; try (by apply not_elem_of_nil in Hk); eauto. Qed.

Lemma held_object a p i : LObject i ∈ held (Upload a) p → (2 ≤ stage p)%nat.
Proof. destruct p; cbn [held stage]; try (by intros ?%not_elem_of_nil); lia. Qed.
Lemma held_name w a p b n : known w a p → LName b n ∈ held (Upload a) p →
(4 ≤ stage p)%nat ∧ ∀ c q, p = Counting c q → ∃ o, c = Created o ∧ b = b_id (u_bucket a) ∧ n = u_name a.
Proof.
intros Hk Hin.
assert (Hold : ∀ old, LName b n ∉ old_locks old) by (intros old [i ?]%old_locks_object; done).
assert (Hql : ∀ t q, LName b n ∉ quota_lock t q) by (intros t q [_ ?]%quota_lock_company; done).
destruct p as [|old|old q| |c q|c q|c q u|]; cbn [held stage] in *; try (by apply not_elem_of_nil in Hin).
- by apply Hold in Hin.
- apply elem_of_app in Hin as [Hin|Hin]; [by apply Hold in Hin|by apply Hql in Hin].
- split; [lia|]. intros c' q' [= <- <-]. apply elem_of_app in Hin as [Hin|Hin]; [|by apply Hql in Hin].
  destruct c as [o|old o|o]; [|by apply list_elem_of_singleton in Hin|done].
  exists o. destruct Hk as ([<- <-] & _).
  apply elem_of_cons in Hin as [?|Hin]; [done|]. apply list_elem_of_singleton in Hin. unfold name_lock in Hin.
  by injection Hin as -> ->.
- split; [lia|done].
- split; [lia|done].
Qed.
Lemma held_company a p cid : LCompany cid ∈ held (Upload a) p →
cid = b_company_id (u_bucket a) ∧
((∃ old, p = Saving old true) ∨ (∃ c, p = Counting c true) ∨ (5 ≤ stage p)%nat).
Proof.
intros Hin.
assert (Hold : ∀ old, LCompany cid ∉ old_locks old) by (intros old [i ?]%old_locks_object; done).
assert (Hch : ∀ c, LCompany cid ∉ change_locks c)
  by (intros c [[i ?]|(b & n & ?)]%change_locks_rows; done).
assert (Hus : ∀ u, LCompany cid ∉ user_lock (Upload a) u) by (intros u [uid ?]%user_lock_user; done).
destruct p as [|old|old q| |c q|c q|c q u|]; cbn [held stage] in *; try (by apply not_elem_of_nil in Hin).
- by apply Hold in Hin.
- apply elem_of_app in Hin as [Hin|[-> [= ->]]%quota_lock_company]; [by apply Hold in Hin|]. split; eauto.
- apply elem_of_app in Hin as [Hin|[-> [= ->]]%quota_lock_company]; [by apply Hch in Hin|]. split; eauto.
- rewrite !elem_of_app in Hin. destruct Hin as [Hin|[Hin|Hin]]; [by apply Hch in Hin| |];
    apply quota_lock_company in Hin as [_ [= ->]]; split; [done|lia|done|lia].
- rewrite !elem_of_app in Hin. destruct Hin as [Hin|[Hin|[Hin|Hin]]]; [by apply Hch in Hin| | |by apply Hus in Hin];
    apply quota_lock_company in Hin as [_ [= ->]]; split; [done|lia|done|lia].
Qed.
Lemma held_user a p cid uid : LUser cid uid ∈ held (Upload a) p → stage p = 6%nat.
Proof.
intros Hin.
assert (Hold : ∀ old, LUser cid uid ∉ old_locks old) by (intros old [i ?]%old_locks_object; done).
assert (Hch : ∀ c, LUser cid uid ∉ change_locks c)
  by (intros c [[i ?]|(b & n & ?)]%change_locks_rows; done).
assert (Hql : ∀ t q, LUser cid uid ∉ quota_lock t q) by (intros t q [_ ?]%quota_lock_company; done).
destruct p as [|old|old q| |c q|c q|c q u|]; cbn [held stage] in *; try (by apply not_elem_of_nil in Hin); try done;
  rewrite ?elem_of_app in Hin; exfalso; unfold company_lock in Hin; naive_solver.
Qed.

Lemma max_stage (m : gmap nat (task * phase)) i0 tp0 :
m !! i0 = Some tp0 →
∃ i tp, m !! i = Some tp ∧ ∀ j tq, m !! j = Some tq → (stage tq.2 ≤ stage tp.2)%nat.
Proof.
revert i0 tp0. induction m as [|i tp m Hi IH] using map_ind; intros i0 tp0; [by rewrite lookup_empty|].
intros _. destruct (decide (m = ∅)) as [->|Hne].
- exists i, tp. split; [apply lookup_insert_eq|]. intros j tq. rewrite lookup_insert.
  case_decide; [by intros [= <-]|by rewrite lookup_empty].
- apply map_choose in Hne as (i1 & tp1 & H1). destruct (IH i1 tp1 H1) as (i2 & tp2 & H2 & Hmax).
  destruct (decide (stage tp.2 ≤ stage tp2.2)%nat).
  + exists i2, tp2. split; [rewrite lookup_insert_ne; [done|congruence]|].
    intros j tq. rewrite lookup_insert. case_decide; [by intros [= <-]|apply Hmax].
  + exists i, tp. split; [apply lookup_insert_eq|]. intros j tq. rewrite lookup_insert.
    case_decide; [by intros [= <-]|]. intros Hj%Hmax. lia.
Qed.

Definition runnable (s : sys) (i : nat) : Prop :=
∃ t p, sy_txs s !! i = Some (t, p) ∧ p ≠ Ended ∧ free s i (needs t p (sy_world s)).
(** What a statement waits for: nothing, or locks of one kind. *)
Lemma runs_or_blocked s i t p : sy_txs s !! i = Some (t, p) → p ≠ Ended →
runnable s i ∨ ∃ j tq pq k, sy_txs s !! j = Some (tq, pq) ∧ j ≠ i ∧
                 k ∈ needs t p (sy_world s) ∧ k ∈ held tq pq.
Proof.
intros Hi Hne. destruct (free_b s i (needs t p (sy_world s))) eqn:Hf.
- left. exists t, p. split; [done|]. split; [done|]. by apply free_b_spec.
- right. by apply free_b_blocked.
Qed.
(** An upload at its counter waits at most for one that is about to insert a row. *)
Lemma counting_runs s i a c q : orderly s → (∀ j tq, sy_txs s !! j = Some tq → (stage tq.2 ≤ 4)%nat) →
sy_txs s !! i = Some (Upload a, Counting c q) →
(∃ j, runnable s j) ∨ (q = false ∧ change_delta c ≠ 0 ∧
  ∃ j aj old, sy_txs s !! j = Some (Upload aj, Saving old true) ∧
              b_company_id (u_bucket aj) = b_company_id (u_bucket a)).
Proof.
intros [Hs Hq] Hmax Hi.
assert (Hlocked : ∀ j aj cj, sy_txs s !! j = Some (Upload aj, Counting cj true) → runnable s j).
{ intros j aj cj Hj. destruct (runs_or_blocked s j _ _ Hj) as [|(l & tq & pq & k & Hl & Hlj & Hin & Hheld)]; [done|done|].
  exfalso. unfold needs in Hin. apply quota_lock_company in Hin as [_ ->].
  apply (cs_locks _ Hs l j (tq, pq) (Upload aj, Counting cj true) _ Hl Hj Hlj Hheld).
  apply quota_known_locks with (q := true); eauto. }
destruct q; [left; exists i; by apply (Hlocked i a c)|].
destruct (runs_or_blocked s i _ _ Hi) as [|(j & tq & pq & k & Hj & Hji & Hin & Hheld)];
  [done|left; by exists i|].
destruct (cs_known _ Hs j _ Hj) as (aj & Haj & _ & Hkj). simpl in Haj, Hkj. subst tq.
unfold needs in Hin. apply quota_lock_company in Hin as [Hz ->]. apply negb_true_iff, bool_decide_eq_false in Hz.
pose proof (held_company _ _ _ Hheld) as [Hc [[old ->]|[[c' ->]|Hst]]].
- right. split; [done|]. split; [done|]. by exists j, aj, old.
- left. exists j. by apply (Hlocked j aj c').
- specialize (Hmax j _ Hj). simpl in Hmax. lia.
Qed.

(** Some transaction can always go on: nobody waits for a transaction that is less advanced,
    except at the row of the quota, and there the check has settled who inserts it. *)
Lemma someone_runs s : orderly s →
(∃ i tp, sy_txs s !! i = Some tp ∧ tp.2 ≠ Ended) → ∃ i, runnable s i.
Proof.
intros Ho (i0 & tp0 & Hi0 & Hne0). pose proof Ho as [Hs Hq].
destruct (max_stage _ _ _ Hi0) as (i & [t p] & Hi & Hmax). cbn [snd] in Hmax.
assert (Hne : p ≠ Ended).
{ intros ->. specialize (Hmax _ _ Hi0). destruct (tp0.2); simpl in Hmax; done || lia. }
destruct (cs_known _ Hs i _ Hi) as (a & Ha & Hb & Hk). simpl in Ha, Hk. subst t.
destruct (runs_or_blocked s i _ _ Hi Hne) as [|(j & tq & pq & k & Hj & Hji & Hin & Hheld)]; [by exists i|].
destruct (cs_known _ Hs j _ Hj) as (aj & Haj & Hbj & Hkj). simpl in Haj, Hkj. subst tq.
pose proof (Hmax j _ Hj) as Hle. simpl in Hle.
destruct p as [|old|old q| |c q|c q|c q u|]; cbn [stage] in Hle; try done; unfold needs in Hin.
- apply old_locks_object in Hin as [x ->]. apply held_object in Hheld. lia.
- apply quota_lock_company in Hin as [_ ->]. apply held_company in Hheld as [_ [[o ->]|[[c ->]|Hst]]]; simpl in Hle; lia.
- destruct old; [by apply not_elem_of_nil in Hin|]. apply list_elem_of_singleton in Hin as ->.
  apply (held_name _ _ _ _ _ Hkj) in Hheld as [Hst _]. lia.
- assert (Hmax4 : ∀ j tq, sy_txs s !! j = Some tq → (stage tq.2 ≤ 4)%nat) by done.
  destruct (counting_runs s i a c q Ho Hmax4 Hi) as [|(_ & _ & l & al & old & Hl & Hcl)]; [done|].
  destruct (runs_or_blocked s l _ _ Hl) as [|(m & tm & pm & k' & Hm & Hml & Hin' & Hheld')]; [done|by exists l|].
  unfold needs in Hin'. destruct old as [old|]; [by apply not_elem_of_nil in Hin'|].
  apply list_elem_of_singleton in Hin' as ->.
  destruct (cs_known _ Hs m _ Hm) as (am & Ham & Hbm & Hkm). simpl in Ham, Hkm. subst tm.
  pose proof (held_name _ _ _ _ _ Hkm Hheld') as [Hst Hcr].
  assert (∃ cm qm, pm = Counting cm qm) as (cm & qm & ->).
  { pose proof (Hmax4 m _ Hm) as Hle4. simpl in Hle4. destruct pm; simpl in *; try lia. eauto. }
  destruct (Hcr _ _ eq_refl) as (o & -> & Hbid & _).
  destruct (cs_known _ Hs l _ Hl) as (al' & Hal' & Hbl & _). injection Hal' as <-.
  assert (Hbk : u_bucket am = u_bucket al) by congruence.
  destruct (counting_runs s m am (Created o) qm Ho Hmax4 Hm) as [|(-> & Hz & _)]; [done|].
  pose proof (Hq m am _ Hm) as [_ Hrow]. pose proof (Hq l al _ Hl) as [Hlack _].
  destruct Hkm as (_ & _ & Hsz & _). cbn [change_delta] in Hz, Hrow.
  assert (0 < o_size o) as Hpos by (rewrite Hsz in *; unfold u_size in *; lia).
  destruct (Hrow Hpos) as [|Hrow']; [done|]. rewrite Hbk, (Hlack eq_refl) in Hrow'. done.
- apply user_lock_user in Hin as [uid ->]. apply held_user in Hheld. lia.
- by apply not_elem_of_nil in Hin.
Qed.

(** The statements left; each one that runs leaves fewer. *)
Definition statements_left (tp : task * phase) : Z :=
if is_ended tp.2 then 0 else 7 - Z.of_nat (stage tp.2).
Lemma advance_left a p w p' w' : p ≠ Ended → p ≠ Removing → advance (Upload a) p w = (p', w') →
statements_left (Upload a, p') < statements_left (Upload a, p).
Proof.
intros Hne Hnr Hadv. unfold statements_left. cbn [snd].
destruct p as [|old|old q| |c q|c q|c q u|]; cbn [advance] in Hadv; try done.
- destruct (look _ _); by injection Hadv as <- _.
- destruct (check _ _ _ _); by injection Hadv as <- _.
- destruct (row_statement _ _) as [[m q']|]; [|by injection Hadv as <- _].
  destruct (m _) as [[e|c] v']; by injection Hadv as <- _.
- by injection Hadv as <- _.
- by injection Hadv as <- _.
- by injection Hadv as <- _.
Qed.
(** A transaction runs its next statement: no new one begins and none is rolled back. *)
Definition run_step (s s' : sys) : Prop :=
∃ i t p p' w', sy_txs s !! i = Some (t, p) ∧ p ≠ Ended ∧ free s i (needs t p (sy_world s)) ∧
  advance t p (sy_world s) = (p', w') ∧ s' = Sys w' (<[i:=(t, p')]> (sy_txs s)).
Lemma run_step_step workers s s' : run_step s s' → step workers is_upload s s'.
Proof. intros (i & t & p & p' & w' & Hi & Hne & Hf & Hadv & ->). by apply (step_run _ _ _ i t p). Qed.
Definition left (s : sys) : Z := row_sum statements_left (sy_txs s).
Lemma statements_left_bounds tp : 0 ≤ statements_left tp ≤ 6 * running tp.
Proof. unfold statements_left, running. destruct tp as [t []]; simpl; lia. Qed.
Lemma run_step_left s s' : consistent s → run_step s s' → left s' < left s.
Proof.
intros Hs (i & t & p & p' & w' & Hi & Hne & _ & Hadv & ->). unfold left. cbn [sy_txs].
rewrite (row_sum_replace _ _ _ (t, p)) by done.
destruct (cs_known _ Hs i _ Hi) as (a & Ha & _ & Hk). simpl in Ha, Hk. subst t.
assert (Hnr : p ≠ Removing) by (by intros ->).
pose proof (advance_left a p _ p' w' Hne Hnr Hadv). lia.
Qed.
Lemma left_bounds s : 0 ≤ left s ≤ 6 * active s.
Proof.
split; [apply row_sum_nonneg; intros i tp _; apply statements_left_bounds|].
assert (0 ≤ row_sum (λ tp, 6 * running tp - statements_left tp) (sy_txs s)) as Hle.
{ apply row_sum_nonneg. intros i tp _. pose proof (statements_left_bounds tp). lia. }
rewrite row_sum_scaled in Hle. unfold left. change (row_sum running (sy_txs s)) with (active s) in Hle. lia.
Qed.
Lemma orderly_start w : storage_inv w → orderly (Sys w ∅).
Proof.
intros [Hinv Hq]. split; [|simpl; intros *; by rewrite lookup_empty].
split; simpl; [by apply storage_rows|done| |]; intros *; by rewrite lookup_empty.
Qed.
Lemma orderly_steps workers s s' : orderly s → rtc (step workers is_upload) s s' → orderly s'.
Proof. intros Ho Hsteps. induction Hsteps; eauto using orderly_step. Qed.
Lemma run_steps_left n s s' : orderly s → nsteps run_step n s s' → orderly s' ∧ Z.of_nat n + left s' ≤ left s.
Proof.
intros Ho Hn. revert Ho. induction Hn as [s|n s1 s2 s3 H12 _ IH]; intros Ho; [split; [done|lia]|].
pose proof (run_step_left _ _ (proj1 Ho) H12).
destruct (IH (orderly_step 0 _ _ Ho (run_step_step 0 _ _ H12))) as [Ho3 Hle]. split; [done|lia].
Qed.
Lemma active_zero s : (∀ i tp, sy_txs s !! i = Some tp → tp.2 = Ended) → active s = 0.
Proof.
intros Hall. assert (active s = row_sum (λ _, 0) (sy_txs s)) as ->.
{ apply row_sum_ext. intros i tp ->%Hall. done. }
unfold row_sum. induction (rows (sy_txs s)) as [|x l IH]; [done|]. cbn [fmap list_fmap foldr]. by rewrite IH.
Qed.
End progress.

(** *** A transaction alone *)
Section alone.
Context `{Settings, Backend}.

(** [apply_usage_delta] makes the writes of the last statements. *)
Definition usage_writes (t : task) (c : change) (d : db) : list write :=
let q := (change_delta c != 0) && lacks_quota d (task_company t) in
let d1 := replay (quota_write t q ++ company_write t c) d in
quota_write t q ++ company_write t c ++ user_write t c (user_charge t c d1).
Lemma resolve_per_user d cid q q' uid :
cq_max_bytes_per_user q = cq_max_bytes_per_user q' →
resolve_user_limit d cid q uid = resolve_user_limit d cid q' uid.
Proof. unfold resolve_user_limit. intros E. destruct uid; [|done]. by rewrite E. Qed.
Lemma apply_usage_alone t c w :
apply_usage_delta (task_company t) (task_user t) (change_delta c) w =
(inr tt, set_db (replay (usage_writes t c (w_db w))) w).
Proof.
unfold apply_usage_delta, atomic, usage_writes, company_write.
destruct (bool_decide_reflect (change_delta c = 0)) as [Hz|Hz]; cbn [negb andb app].
{ unfold user_charge. rewrite bool_decide_true by done. by destruct w. }
unfold get_or_create_company_quota, bind, get_db, gets, modify_db, modify, ret.
destruct w as [d bl t0 i]. cbn [w_db set_db].
set (cid := task_company t). set (delta := change_delta c).
assert (Hq : ∃ q d0, replay (quota_write t (lacks_quota d cid)) d = d0 ∧ db_company_quotas d0 !! cid = Some q ∧
  (match db_company_quotas d !! cid with
   | Some q' => λ s, (inr q', s)
   | None => λ s, (inr default_quota, set_db (set_company_quotas (insert cid default_quota)) s)
   end : prog company_quota) (World d bl t0 i) = (inr q, World d0 bl t0 i)).
{ unfold lacks_quota, quota_write. destruct (db_company_quotas d !! cid) as [q|] eqn:Hq.
  - rewrite bool_decide_false by done. by exists q, d.
  - rewrite bool_decide_true by done. exists default_quota, (set_company_quotas (insert cid default_quota) d).
    split_and!; [|by apply lookup_insert_eq|done]. unfold replay. simpl. fold cid. by rewrite Hq. }
destruct Hq as (q & d0 & Hd0 & Hrow & Hstep). rewrite Hstep. clear Hstep.
unfold set_db. cbn [w_db w_blobs w_now w_next_uuid].
set (d1 := add_company_used cid delta d0).
assert (Hd1 : replay (quota_write t (lacks_quota d cid) ++ [WCompany cid delta]) d = d1)
  by (rewrite replay_app, Hd0; done).
assert (Hall : ∀ l, replay (quota_write t (lacks_quota d cid) ++ WCompany cid delta :: l) d = replay l d1).
{ intros l. change (WCompany cid delta :: l) with ([WCompany cid delta] ++ l).
  by rewrite (app_assoc _ _ l), replay_app, Hd1. }
rewrite Hall, Hd1. unfold user_charge. rewrite bool_decide_false by done. fold cid.
assert (Hres : ∀ uid, resolve_user_limit d1 cid (quota_of d1 cid) uid = resolve_user_limit d1 cid q uid).
{ intros uid. apply resolve_per_user. unfold quota_of, d1. simpl. rewrite lookup_alter_eq, Hrow. done. }
destruct (task_user t) as [uid|] eqn:Hu; [|done]. rewrite Hres. cbn [w_db].
destruct (resolve_user_limit d1 cid q (Some uid)) as [[m|] [row|]] eqn:Hr;
  unfold user_write; cbn [from_option app]; fold cid delta; cbn [replay foldl]; try done.
assert (db_user_quotas d1 !! (cid, uid) = None) as Hnone.
{ unfold resolve_user_limit in Hr. by destruct (db_user_quotas d1 !! (cid, uid)). }
unfold apply_write. by rewrite Hnone.
Qed.

Lemma change_quota_comm c cid d :
apply_write (change_write c) (apply_write (WQuotaRow cid) d) =
apply_write (WQuotaRow cid) (apply_write (change_write c) d).
Proof. destruct c; simpl; by destruct (db_company_quotas d !! cid). Qed.
(** The last statements of the machine, from the row on, are [apply_usage_delta]. *)
Lemma counting_alone t c q d :
let d' := replay (quota_write t q ++ [change_write c]) d in
let q' := q || ((change_delta c != 0) && lacks_quota d' (task_company t)) in
let u := user_charge t c (replay (quota_write t q' ++ [change_write c] ++ company_write t c) d) in
replay (quota_write t q' ++ [change_write c] ++ company_write t c ++ user_write t c u) d =
replay (usage_writes t c d') d'.
Proof.
intros d' q' u.
assert (Hd : replay (quota_write t q' ++ [change_write c] ++ company_write t c) d =
  replay (quota_write t ((change_delta c != 0) && lacks_quota d' (task_company t)) ++ company_write t c) d').
{ subst q'. destruct q; cbn [orb].
  - assert (lacks_quota d' (task_company t) = false) as ->.
    { unfold d'. rewrite replay_app. apply replay_quota_row. unfold quota_write, replay, lacks_quota. simpl.
      apply bool_decide_eq_false. destruct (db_company_quotas d !! task_company t) eqn:Hq; [by rewrite Hq|].
      simpl. by rewrite lookup_insert_eq. }
    rewrite andb_false_r. unfold d'. cbn [quota_write app]. by rewrite <- replay_app.
  - destruct (_ && _); unfold d'; cbn [quota_write]; rewrite !replay_app; [|done].
    f_equal. apply change_quota_comm. }
unfold usage_writes. cbv zeta. fold u.
set (l1 := quota_write t q' ++ [change_write c] ++ company_write t c) in *.
set (l2 := quota_write t _ ++ company_write t c) in *.
replace (quota_write t q' ++ [change_write c] ++ company_write t c ++ user_write t c u)
  with (l1 ++ user_write t c u) by (unfold l1; by rewrite <- !app_assoc).
rewrite app_assoc. fold l2. rewrite !replay_app, <- Hd. by subst u.
Qed.

(** A transaction with no one else about: an upload has six statements. *)
Fixpoint run_alone (n : nat) (t : task) (pw : phase * world) : world :=
match n with
| O => pw.2
| S n' => run_alone n' t (advance t pw.1 pw.2)
end.
Definition alone (t : task) (w : world) : world := run_alone 6 t (start t, w).
Lemma run_alone_S n t p w : run_alone (S n) t (p, w) = run_alone n t (advance t p w).
Proof. done. Qed.
Lemma run_alone_ended n t w : run_alone n t (Ended, w) = w.
Proof. by induction n. Qed.

Definition row_written (t : task) (c : change) (q : bool) (w v' : world) : world :=
World (replay (quota_write t q ++ [change_write c]) (w_db w)) (w_blobs v') (w_now v') (w_next_uuid v').
Lemma run_counting t c q w v' :
run_alone 3 t (Counting c q, uncommitted w v') =
let w' := row_written t c q w v' in set_db (replay (usage_writes t c (w_db w'))) w'.
Proof.
cbn [run_alone advance fst snd]. unfold view. cbn [writes w_db set_db uncommitted w_blobs w_now w_next_uuid].
unfold row_written, set_db. cbn [w_db w_blobs w_now w_next_uuid]. by rewrite counting_alone.
Qed.
(** How it ends: at the first check, at the quota, at the row, or with a commit. *)
Lemma alone_upload a w :
let t := Upload a in
alone t w =
match look a w with
| None => w
| Some old =>
    match check t a old w with
    | None => w
    | Some q =>
        match match old with Some o => overwrite a o | None => create a end (view t (Saving old q) w) with
        | (inl _, v') => uncommitted w v'
        | (inr c, v') =>
            let w' := row_written t c q w v' in
            set_db (replay (usage_writes t c (w_db w'))) w'
        end
    end
end.
Proof.
intros t. subst t. unfold alone. change (start (Upload a)) with Looking.
rewrite run_alone_S. cbn [advance]. rewrite view_id by done.
destruct (look a w) as [old|]; cbn [from_option]; [|apply run_alone_ended].
rewrite run_alone_S. cbn [advance]. rewrite view_id by done.
destruct (check (Upload a) a old w) as [q|]; cbn [from_option]; [|apply run_alone_ended].
rewrite run_alone_S. cbn [advance].
assert (row_statement (Upload a) (Saving old q) =
        Some (match old with Some o => overwrite a o | None => create a end, q)) as -> by (by destruct old).
destruct (match old with Some o => overwrite a o | None => create a end _) as [[e|c] v'];
  [apply run_alone_ended|apply run_counting].
Qed.
End alone.

(** *** The machine and the service *)
(** The same rows (up to the metadata, which listeners may change), counters and blobs. *)
Record same_store (w w' : world) : Prop := SameStore {
  same_objects : erase_metadata <$> db_objects (w_db w) = erase_metadata <$> db_objects (w_db w');
  same_companies : db_company_quotas (w_db w) = db_company_quotas (w_db w');
  same_users : db_user_quotas (w_db w) = db_user_quotas (w_db w');
  same_blobs : w_blobs w = w_blobs w' }.
Lemma same_store_refl w : same_store w w.
Proof. by split. Qed.
Lemma same_store_grants w w1 w2 : same_store w1 w → grants_step w1 w2 → same_store w2 w.
Proof. intros [? ? ? ?] ([f Hf] & Hb & _). split; rewrite ?Hf, ?Hb; done. Qed.
Lemma same_store_quiet w w1 w2 : same_store w1 w → quiet w1 w2 → same_store w2 w.
Proof. intros [? ? ? ?] [[] ? ? ?]. split; congruence. Qed.

Section service.
Context `{Settings, Backend, MimeTypes, Receivers, !ReceiverLaws}.

(** The check of the quota at most creates the row of the company, as the machine notes. *)
Lemma assert_can_store_world t a old w r w1 :
quota_as_storage_error (assert_can_store (task_company t) (task_user t) (u_size a) (from_option o_size 0 old)) w = (r, w1) →
match r with
| inl _ => check t a old w = None ∧ w_blobs w1 = w_blobs w
| inr _ => ∃ q, check t a old w = Some q ∧ w1 = set_db (replay (quota_write t q)) w
end.
Proof.
unfold quota_as_storage_error, try_except, check.
pose proof (assert_can_store_correct (task_company t) (task_user t) (u_size a)
  (from_option o_size 0 old) w) as Hst. cbv zeta in Hst.
destruct (assert_can_store _ _ _ _ w) as [[e|[]] w2] eqn:Hacs; destruct Hst as [Hst _].
{ intros Hr. assert (w1 = w2 ∧ ∃ e', r = inl e') as [-> [e' ->]] by (destruct e; injection Hr as <- <-; eauto).
  split; [done|]. apply (qs_blobs _ _ Hst). }
intros [= <- <-]. eexists. split; [done|]. revert Hacs. unfold assert_can_store.
assert (Hsame : w2 = w → w2 = set_db (replay (quota_write t
   (lacks_quota (w_db w) (task_company t) && negb (lacks_quota (w_db w2) (task_company t))))) w).
{ intros ->. rewrite andb_negb_r. by destruct w. }
destruct (_ <? 0); [done|]. destruct (_ <=? 0); [intros [= <-]; by apply Hsame|].
unfold get_or_create_company_quota, bind, get_db, gets, modify_db, modify, ret.
destruct (db_company_quotas (w_db w) !! task_company t) as [q|] eqn:Hq.
- destruct (_ && (_ <? _)); [done|]. destruct (resolve_user_limit _ _ _ _) as [[m|] row];
    [destruct (_ && (_ <? _)); [done|]|]; intros [= <-]; by apply Hsame.
- destruct (_ && (_ <? _)); [done|]. set (w3 := set_db _ w).
  assert (Hw3 : w3 = set_db (replay (quota_write t
     (lacks_quota (w_db w) (task_company t) && negb (lacks_quota (w_db w3) (task_company t))))) w).
  { unfold lacks_quota. rewrite bool_decide_true by done. rewrite bool_decide_false.
    - cbn [andb negb quota_write]. unfold w3, set_db, replay. simpl. by rewrite Hq.
    - simpl. by rewrite lookup_insert_eq. }
  destruct (resolve_user_limit _ _ _ _) as [[m|] row];
    [destruct (_ && (_ <? _)); [done|]|]; intros [= <-]; exact Hw3.
Qed.

(** From the row on: the counters, then what changes neither rows nor counters. *)
Definition aside (m : prog sobject) : Prop :=
∀ w0 w, same_store w w0 → wp m (λ _ w', same_store w' w0) (λ _ _, False) w.
Lemma wp_after_row t c q w0 v' w1 (m : prog sobject) R :
w1 = row_written t c q w0 v' → aside m →
wp (apply_usage_delta (task_company t) (task_user t) (change_delta c) ;;; m)
   (λ _ w', same_store w' (set_db (replay (usage_writes t c (w_db w1))) w1)) R w1.
Proof.
intros -> Hm. apply wp_bind. unfold wp at 1. rewrite apply_usage_alone.
eapply wp_mono; [apply Hm, same_store_refl|done|done].
Qed.
Lemma aside_uploaded o c r : aside (object_uploaded o c r).
Proof.
intros w0 w Hw. eapply wp_mono; [apply object_uploaded_law| |done].
intros o' w' [Hq _]. by apply (same_store_quiet _ w).
Qed.
Lemma aside_private o uid b m : aside m → aside (apply_default_private_on_create o uid b ;;; m).
Proof.
intros Hm w0 w Hw. apply wp_bind. eapply wp_mono; [apply wp_apply_default_private| |done].
intros gs w' Hg. apply Hm. by apply (same_store_grants _ w).
Qed.

(** The statement of the row, in the machine and in the service. *)
Lemma overwrite_eq a old w :
overwrite a old w =
match save_blob (o_storage_key old) (u_data a) w with
| (inl e, v) => (inl e, v)
| (inr _, v) => (inr (Replaced old (replacement a old (w_now v))), v)
end.
Proof. unfold overwrite, bind, now, gets, ret. by destruct (save_blob _ _ w) as [[e|[]] v]. Qed.
Lemma overwrite_object_eq a old r w :
overwrite_object (u_bucket a) old (u_data a) (u_owner a) (u_mime a) (u_meta a) r w =
match save_blob (o_storage_key old) (u_data a) w with
| (inl e, v) => (inl e, v)
| (inr _, v) =>
    let o := replacement a old (w_now v) in
    (apply_usage_delta (b_company_id (u_bucket a)) (u_owner a) (o_size o - o_size old) ;;;
     object_uploaded o false r) (set_db (set_objects (insert (o_id o) o)) v)
end.
Proof.
unfold overwrite_object. unfold bind at 1. by destruct (save_blob _ _ w) as [[e|[]] v].
Qed.
Lemma create_eq a w :
let i := w_next_uuid w in
find_object (w_db w) (b_id (u_bucket a)) (u_name a) = None →
create a w =
match save_blob (new_key a i) (u_data a) (uuid4 w).2 with
| (inl e, v) => (inl e, v)
| (inr _, v) =>
    let o := new_row a i (w_now v) in (inr (Created o), set_db (set_objects (insert i o)) v)
end.
Proof.
intros i Hnone. unfold create. unfold bind at 1, uuid4 at 1. unfold bind at 1. cbn [uuid4 snd]. fold i.
destruct (save_blob _ _ _) as [[e|[]] v] eqn:Hs; [done|]. apply save_blob_rows in Hs as (Hd & _).
unfold now, create_object_row, get_db, modify_db, gets, modify, ret. cbv beta delta [bind]. cbn [o_bucket_id o_name new_row].
rewrite Hd. cbn [w_db]. by rewrite Hnone.
Qed.
Lemma store_new_object_eq a r w :
let i := w_next_uuid w in
find_object (w_db w) (b_id (u_bucket a)) (u_name a) = None →
store_new_object (u_bucket a) (u_name a) (u_data a) (u_owner a) (u_size a)
  (content_etag (u_data a)) (u_mime a) (u_meta a) r w =
match save_blob (new_key a i) (u_data a) (uuid4 w).2 with
| (inl e, v) => (inl e, v)
| (inr _, v) =>
    let o := new_row a i (w_now v) in
    (apply_usage_delta (b_company_id (u_bucket a)) (u_owner a) (u_size a) ;;;
     apply_default_private_on_create o (u_owner a) false ;;; object_uploaded o true r)
      (set_db (set_objects (insert i o)) v)
end.
Proof.
intros i Hnone. unfold store_new_object. unfold bind at 1, uuid4 at 1. unfold bind at 1. cbn [uuid4 snd]. fold i.
change (build_storage_key (b_company_id (u_bucket a)) (b_name (u_bucket a)) (u_name a) i) with (new_key a i).
destruct (save_blob _ _ _) as [[e|[]] v] eqn:Hs; [done|]. apply save_blob_rows in Hs as (Hd & _).
unfold bind at 1, now, gets. unfold bind at 1, create_object_row. unfold bind at 1, get_db, gets.
cbn [o_bucket_id o_name]. rewrite Hd. cbn [w_db]. by rewrite Hnone.
Qed.

(** C4: The interleaved model is the code: a transaction that runs alone leaves exactly the rows, the
    counters of companies and users, and the blobs that [upload_object] leaves, on every
    branch (success, an existing path, an exceeded quota, a failing backend). *)
Theorem transaction_alone : ∀ b path content owner ct upsert md cc r w name,
  safe_object_path path = inr name →
  mime_allowed (normalize_mime_type ct name) (b_allowed_mime_types b) = true →
  Z.of_nat (length content) ≤ upload_limit b →
  let a := UploadArgs b name content owner upsert (normalize_mime_type ct name)
             (upload_metadata md cc) in
  same_store (upload_object b path content owner ct upsert md cc r w).2 (alone (Upload a) w).
Proof.
  intros b path content owner ct upsert md cc r w name Hpath Hmime Hlen a.
  cut (wp (upload_object b path content owner ct upsert md cc r)
         (λ _ w', same_store w' (alone (Upload a) w)) (λ _ w', same_store w' (alone (Upload a) w)) w).
  { unfold wp. by destruct (upload_object _ _ _ _ _ _ _ _ _ w) as [[e|o] w']. }
  rewrite alone_upload. unfold upload_object, upload_object_with. apply wp_atomic. rewrite Hpath.
  cbn [lift_sum]. wp_step. wp_step. rewrite Hmime. cbn [negb]. wp_step. unfold get_db at 1. wp_step.
  unfold look. cbn [u_bucket u_name u_upsert a].
  destruct (bool_decide (is_Some (find_object (w_db w) (b_id b) name)) && negb upsert); [by wp_step|].
  wp_step. apply wp_read_upload_bytes; [|lia]. intros _. wp_step. unfold wp at 1.
  destruct (quota_as_storage_error _ w) as [r1 w1] eqn:Hacs.
  apply (assert_can_store_world (Upload a) a (find_object (w_db w) (b_id b) name)) in Hacs.
  destruct r1 as [e|[]]; [destruct Hacs as [-> Hb]; by split|]. destruct Hacs as (q & -> & ->).
  change (set_db (replay (quota_write (Upload a) q)) w) with
    (view (Upload a) (Saving (find_object (w_db w) (b_id b) name) q) w).
  apply wp_bind, wp_ret.
  destruct (find_object (w_db w) (b_id b) name) as [old|] eqn:Hf.
  - set (w1 := view _ _ w). unfold wp at 1.
    change (overwrite_object b old content owner _ _ r w1) with
      (overwrite_object (u_bucket a) old (u_data a) (u_owner a) (u_mime a) (u_meta a) r w1).
    rewrite overwrite_object_eq, overwrite_eq.
    destruct (save_blob (o_storage_key old) (u_data a) w1) as [[e|[]] v'] eqn:Hs; [by split|].
    apply save_blob_rows in Hs as (Hd & _).
    cbv zeta.
    assert (set_db (set_objects (insert _ (replacement a old (w_now v')))) v' =
      row_written (Upload a) (Replaced old (replacement a old (w_now v'))) q w v') as ->
      by (unfold row_written, set_db; by rewrite replay_app, Hd).
    pose proof (wp_after_row (Upload a) (Replaced old (replacement a old (w_now v'))) q w v' _ _ (λ _ _, False)
      eq_refl (aside_uploaded (replacement a old (w_now v')) false r)) as Hwp.
    unfold wp in Hwp. cbn [task_company task_user change_delta] in Hwp.
    by destruct (bind _ _ (row_written _ _ _ _ _)) as [[e|o] w'].
  - set (w1 := view _ _ w). unfold wp at 1.
    assert (Hnone : find_object (w_db w1) (b_id (u_bucket a)) (u_name a) = None).
    { unfold find_object, w1. simpl. rewrite quota_write_objects. exact Hf. }
    change (store_new_object b name content owner _ _ _ _ r w1) with
      (store_new_object (u_bucket a) (u_name a) (u_data a) (u_owner a) (u_size a)
         (content_etag (u_data a)) (u_mime a) (u_meta a) r w1).
    rewrite store_new_object_eq, create_eq by done.
    destruct (save_blob _ (u_data a) _) as [[e|[]] v'] eqn:Hs; [by split|].
    apply save_blob_rows in Hs as (Hd & _). simpl in Hd.
    cbv zeta. set (o := new_row a (w_next_uuid w1) (w_now v')).
    assert (set_db (set_objects (insert (w_next_uuid w1) o)) v' = row_written (Upload a) (Created o) q w v') as Ew
      by (unfold row_written, set_db; by rewrite replay_app, Hd).
    rewrite Ew.
    pose proof (wp_after_row (Upload a) (Created o) q w v' _ _ (λ _ _, False)
      eq_refl (aside_private o (u_owner a) false _ (aside_uploaded o true r))) as Hwp.
    unfold wp in Hwp. cbn [task_company task_user change_delta] in Hwp. change (o_size o) with (u_size a) in Hwp.
    assert (row_written (Upload a) (Created o) q w (row_written (Upload a) (Created o) q w v') =
            row_written (Upload a) (Created o) q w v') as -> by done.
    by destruct (bind _ _ (row_written _ _ _ _ _)) as [[e|o'] w'].
Qed.
End service.

(** *** Schedules are runs *)
Section schedules_sound.
Context `{Settings, Backend}.
Lemma step_buckets workers allowed s s' :
step workers allowed s s' → db_buckets (w_db (sy_world s')) = db_buckets (w_db (sy_world s)).
Proof.
intros [| i t p p' w' _ _ _ Hadv|]; try done. simpl.
destruct p as [|old|old q| |c q|c q|c q u|]; cbn [advance] in Hadv.
1, 2: destruct t; by injection Hadv as <- <-.
1, 2: destruct (row_statement t _) as [[m q']|]; [destruct (m _) as [[e|c] v']|]; by injection Hadv as <- <-.
all: injection Hadv as <- <-; try done; by apply replay_buckets.
Qed.
Lemma exec_sound workers allowed l s s' :
exec workers s l = Some s' →
Forall (λ t, allowed t ∧ task_ok (sy_world s) t) (tasks l) → rtc (step workers allowed) s s'.
Proof.
revert s. induction l as [|[i e] l IH]; intros s; cbn [exec]; [intros [= <-] _; apply rtc_refl|].
destruct (exec1 workers s (i, e)) as [s1|] eqn:H1; [|done]. cbn [mbind option_bind]. intros Hl Hts.
assert (Hst : step workers allowed s s1).
{ unfold exec1 in H1. cbn [fst snd] in H1. destruct e as [t|[]]; destruct (sy_txs s !! i) as [[t' p]|] eqn:Hi; try done.
  - destruct (active s <? workers) eqn:Ha; [|done]. injection H1 as <-. inversion Hts as [|? ? [Hal Hok] _]; subst.
    apply Z.ltb_lt in Ha. by apply step_begin.
  - destruct (negb (is_ended p) && free_b s i (needs t' p (sy_world s))) eqn:Hc; [|done].
    apply andb_true_iff in Hc as [Hne Hf]. destruct (advance t' p (sy_world s)) as [p' w'] eqn:Hadv.
    injection H1 as <-. apply (step_run _ _ _ i t' p); try done; [by destruct p|by apply free_b_spec]. }
eapply rtc_l; [done|]. apply IH; [done|].
assert (Hrest : Forall (λ t, allowed t ∧ task_ok (sy_world s) t) (tasks l))
  by (destruct e; [by inversion Hts|done]).
eapply Forall_impl; [exact Hrest|]. intros t [Hal Hok]. split; [done|]. destruct t; [|done].
destruct Hok as [Hb Hz]. split; [|done]. by rewrite (step_buckets _ _ _ _ Hst).
Qed.
(** A schedule that begins nothing is a sequence of statements. *)
Lemma exec_nsteps workers l s s' :
Forall (λ e, e.2 = inr tt) l → exec workers s l = Some s' → nsteps run_step (length l) s s'.
Proof.
revert s. induction l as [|[i e] l IH]; intros s Hl; cbn [exec]; [intros [= <-]; constructor|].
inversion Hl as [|? ? He Hl']; subst. simpl in He. subst e. unfold exec1. cbn [fst snd].
destruct (sy_txs s !! i) as [[t p]|] eqn:Hi; [|done].
destruct (negb (is_ended p) && free_b s i (needs t p (sy_world s))) eqn:Hc; [|done].
apply andb_true_iff in Hc as [Hne Hf]. destruct (advance t p (sy_world s)) as [p' w'] eqn:Hadv.
cbn [mbind option_bind length]. intros Hrest. econstructor; [|by apply IH].
exists i, t, p, p', w'. split_and!; try done; [by destruct p|by apply free_b_spec].
Qed.
End schedules_sound.

(** ** Properties *)
Section properties.
Context `{Settings, Backend}.

(** C2: Uploads that run at the same time lose nothing: however the statements of any number
    of [upload_object] transactions interleave, and whichever of them are rolled back, the
    committed database holds at most one row per path, every row belongs to the company of
    its bucket, and the counter of every company is exactly the sum of the sizes of its
    rows. *)
Theorem concurrent_uploads_exact : ∀ workers w s,
  storage_inv w → rtc (step workers is_upload) (Sys w ∅) s →
  rows_inv (sy_world s) ∧ quota_exact (w_db (sy_world s)).
Proof.
  intros workers w s Hinv Hsteps.
  by destruct (orderly_steps workers _ _ (orderly_start w Hinv) Hsteps) as [[] _].
Qed.

(** C3: The check of the quota and the update of the counter are separate statements, so
    concurrent transactions can exceed a quota; but never by more than the largest upload
    for every other transaction that may run at the same time, and with one worker not at
    all. *)
Theorem quota_overshoot_bounded : ∀ workers w s cid,
  let quota := cq_max_bytes (quota_of (w_db w) cid) in
  storage_inv w → 0 ≤ MAX_UPLOAD_BYTES → 1 ≤ workers → quota ≠ 0 →
  rtc (step workers any_task) (Sys w ∅) s →
  company_used (w_db (sy_world s)) cid ≤
    Z.max quota (company_used (w_db w) cid) + (workers - 1) * MAX_UPLOAD_BYTES.
Proof.
  intros workers w s cid quota [Hinv Hq] HM Hwk HL Hsteps.
  set (bound := _ + _). cut (bounded workers cid bound s).
  { intros [_ Hok _ _ _ Hu]. pose proof (row_sum_nonneg (pending cid) (sy_txs s)
      (λ _ tp _, pending_nonneg cid tp)). lia. }
  assert (Hinit : bounded workers cid bound (Sys w ∅)).
  { split; cbn [sy_world sy_txs]; try done.
    - split; [by apply (ri_size w (storage_rows w Hinv))|]. intros c. rewrite Hq.
      by apply stored_bytes_nonneg.
    - change (active (Sys w ∅)) with 0. lia.
    - fold quota. nia.
    - change (row_sum _ ∅) with 0. nia. }
  induction Hsteps as [|s1 s2 s3 Hstep _ IH]; [done|].
  by apply IH, (bounded_step workers any_task cid bound s1).
Qed.

(** C5: Uploads never block each other for good.  From every state that any interleaving
    reaches, whatever order the scheduler lets the transactions go on in: they run at most
    six statements each, and when none can go on, all of them have ended. *)
Theorem uploads_complete : ∀ workers w s n s',
  storage_inv w → rtc (step workers is_upload) (Sys w ∅) s → nsteps run_step n s s' →
  Z.of_nat n ≤ 6 * active s ∧ ((∀ s'', ¬ run_step s' s'') → active s' = 0).
Proof.
  intros workers w s n s' Hinv Hsteps Hn.
  pose proof (orderly_steps workers _ _ (orderly_start w Hinv) Hsteps) as Ho.
  destruct (run_steps_left n s s' Ho Hn) as [Ho' Hle]. pose proof (left_bounds s). pose proof (left_bounds s').
  split; [lia|]. intros Hstuck. apply active_zero. intros i tp Hi.
  destruct (decide (is_ended tp.2 = true)) as [He|He]; [by destruct (tp.2)|]. exfalso.
  destruct (someone_runs s' Ho') as (j & t & p & Hj & Hne & Hf); [exists i, tp; split; [done|by destruct (tp.2)]|].
  destruct (advance t p (sy_world s')) as [p' w'] eqn:Hadv.
  apply (Hstuck (Sys w' (<[j:=(t, p')]> (sy_txs s')))). by exists j, t, p, p', w'.
Qed.
End properties.

(** ** Concrete runs *)
Module UploadsDemo.
Import Demo.
#[export] Existing Instances Demo.demo_mime Demo.demo_backend.
Definition blob (n : nat) : bytes := repeat Byte.x61 n.
Definition upload_of (name : string) (n : nat) : task :=
  Upload (UploadArgs demo_bucket name (blob n) (Some 5) true "text/plain" []).
Definition go (i : nat) (n : nat) : list (nat * (task + unit)) := repeat (i, inr tt) n.
(** A store that holds 50 of its 100 bytes. *)
Definition half : world := (demo_upload "half" (blob 50) demo_world).2.

(** Two uploads of 50 bytes check the quota before either commits: both pass, and 150 of
    100 bytes are used. *)
Definition two_at_once : option sys :=
  exec 2 (Sys half ∅)
    ([(0%nat, inl (upload_of "a" 50)); (1%nat, inl (upload_of "b" 50))] ++
     go 0 2 ++ go 1 2 ++ go 0 4 ++ go 1 4).
Example quota_exceeded_by_two :
  (λ s, (company_used (w_db (sy_world s)) 7, active s)) <$> two_at_once = Some (150, 0).
Proof. vm_compute. reflexivity. Qed.

(** Two requests delete the same file: the second [DELETE] finds no row, and its size is
    taken off the counter again. *)
Definition two_files : world := (demo_upload "x" (blob 30) half).2.
Definition row_at (w : world) (name : string) : sobject :=
  default (StorageObject 0 0 "" 0 None 0 "" "" [] "" 0 0 0 None) (find_object (w_db w) 1 name).
Definition deleted_twice : option sys :=
  let t := Delete (row_at two_files "half") in
  exec 2 (Sys two_files ∅) ([(0%nat, inl t); (1%nat, inl t)] ++ go 0 4 ++ go 1 4).
Example concurrent_deletes_drift :
  (λ s, (company_used (w_db (sy_world s)) 7, stored_bytes (w_db (sy_world s)) 7)) <$> deleted_twice
  = Some (0, 30).
Proof. vm_compute. reflexivity. Qed.

(** A deletion that read its row before an upload replaced it takes the old size off. *)
Definition deleted_stale : option sys :=
  exec 2 (Sys two_files ∅)
    ([(0%nat, inl (upload_of "half" 10))] ++ go 0 6 ++
     [(1%nat, inl (Delete (row_at two_files "half")))] ++ go 1 4).
Example stale_delete_drifts :
  (λ s, (company_used (w_db (sy_world s)) 7, stored_bytes (w_db (sy_world s)) 7)) <$> deleted_stale
  = Some (0, 30).
Proof. vm_compute. reflexivity. Qed.

(** Two uploads with [upsert] to a path that is free: the second waits for the first, and
    its [INSERT] then fails on the unique index; the blob it saved stays. *)
Definition same_path : option sys :=
  exec 2 (Sys half ∅)
    ([(0%nat, inl (upload_of "a" 10)); (1%nat, inl (upload_of "a" 20))] ++ go 0 2 ++ go 1 2 ++
     go 0 4 ++ go 1 1).
Example upsert_race :
  (λ s, (o_size (row_at (sy_world s) "a"), size (w_blobs (sy_world s)), active s)) <$> same_path
  = Some (10, 3%nat, 0).
Proof. vm_compute. reflexivity. Qed.

Lemma half_inv : storage_inv half.
Proof.
  pose proof (wp_upload_object demo_bucket "half" (blob 50) (Some 5) None false [] None None
    demo_world demo_inv demo_bucket_stored) as Hwp.
  unfold wp in Hwp. unfold half, demo_upload.
  destruct (upload_object _ _ _ _ _ _ _ _ _ demo_world) as [[e|o] w']; simpl in *.
  - apply Hwp.
  - destruct Hwp as (name & _ & Hsa & _). apply Hsa.
Qed.
Definition overshot : sys := default (Sys half ∅) two_at_once.
Lemma overshot_reached allowed :
  allowed (upload_of "a" 50) → allowed (upload_of "b" 50) →
  rtc (step 2 allowed) (Sys half ∅) overshot.
Proof.
  intros Ha Hb.
  assert (Hrun : two_at_once = Some overshot) by (vm_compute; reflexivity).
  apply (exec_sound _ _ _ _ _ Hrun).
  repeat constructor; try done; vm_compute; congruence.
Qed.
Lemma concurrent_uploads_exact_witness :
  rows_inv (sy_world overshot) ∧ quota_exact (w_db (sy_world overshot)) ∧
  stored_bytes (w_db (sy_world overshot)) 7 = 150.
Proof.
  pose proof (concurrent_uploads_exact 2 half overshot half_inv (overshot_reached is_upload I I)) as [Hr Hq].
  split; [exact Hr|]. split; [exact Hq|]. vm_compute. reflexivity.
Defined.
Lemma quota_overshoot_bounded_witness :
  company_used (w_db (sy_world overshot)) 7 ≤ 150 ∧ company_used (w_db (sy_world overshot)) 7 = 150.
Proof.
  split; [|vm_compute; reflexivity].
  pose proof (quota_overshoot_bounded 2 half overshot 7 half_inv) as Hb.
  apply Hb; [vm_compute; congruence|lia|vm_compute; congruence|exact (overshot_reached any_task I I)].
Defined.
(** Both transactions have begun; after their twelve statements none is left. *)
Definition begun : sys :=
  default (Sys half ∅)
    (exec 2 (Sys half ∅) [(0%nat, inl (upload_of "a" 50)); (1%nat, inl (upload_of "b" 50))]).
Lemma uploads_complete_witness :
  active begun = 2 ∧ nsteps run_step 12 begun overshot ∧ Z.of_nat 12 ≤ 6 * active begun ∧
  ((∀ s'', ¬ run_step overshot s'') → active overshot = 0).
Proof.
  assert (Hb : rtc (step 2 is_upload) (Sys half ∅) begun).
  { apply (exec_sound 2 is_upload [(0%nat, inl (upload_of "a" 50)); (1%nat, inl (upload_of "b" 50))]);
      [vm_compute; reflexivity|]. repeat constructor; try done; vm_compute; congruence. }
  assert (Hn : nsteps run_step 12 begun overshot).
  { apply (exec_nsteps 2 (go 0 2 ++ go 1 2 ++ go 0 4 ++ go 1 4)); [|vm_compute; reflexivity].
    repeat constructor. }
  split; [vm_compute; reflexivity|]. split; [exact Hn|].
  exact (uploads_complete 2 half begun 12 overshot half_inv Hb Hn).
Defined.
Lemma transaction_alone_witness :
  let a := UploadArgs demo_bucket "docs/b.txt" (blob 10) (Some 5) false
             (normalize_mime_type None "docs/b.txt") (upload_metadata [] None) in
  same_store (upload_object demo_bucket "/docs/b.txt" (blob 10) (Some 5) None false [] None None half).2
    (alone (Upload a) half) ∧ company_used (w_db (alone (Upload a) half)) 7 = 60.
Proof.
  split; [|vm_compute; reflexivity].
  assert (Hpath : safe_object_path "/docs/b.txt" = inr "docs/b.txt") by (vm_compute; reflexivity).
  assert (Hmime : mime_allowed (normalize_mime_type None "docs/b.txt") (b_allowed_mime_types demo_bucket) = true)
    by (vm_compute; reflexivity).
  assert (Hlen : Z.of_nat (length (blob 10)) ≤ upload_limit demo_bucket) by (vm_compute; congruence).
  exact (transaction_alone demo_bucket "/docs/b.txt" (blob 10) (Some 5) None false [] None None half "docs/b.txt"
           Hpath Hmime Hlen).
Defined.
End UploadsDemo.
