(* ===== verification/Listing.v ===== *)
(** * Listing: what the API shows of buckets, objects and grants

    The read side of [apps/storage/access.py] (summaries, [serialize_grant]) and of
    [apps/storage/services.py] ([serialize_bucket], [serialize_object], [list_objects],
    [summarize_prefix], [resolve_item_by_id]).  Responses are JSON values. *)
From S2P Require Import Prelude PyStr Models PyData Mime Signals Access Quotas Backends Services.

(** ** Values of the enumerations *)
Definition subject_value (s : subject_type) : string :=
  match s with SUBJECT_USER => "user" | SUBJECT_GROUP => "group" | SUBJECT_COMPANY => "company" end.
Definition resource_value (r : resource_type) : string :=
  match r with RESOURCE_BUCKET => "bucket" | RESOURCE_FOLDER => "folder" | RESOURCE_OBJECT => "object" end.
Definition permission_value (p : permission) : string :=
  match p with READ => "read" | WRITE => "write" | ADMIN => "admin" end.
Definition effect_value (e : effect) : string :=
  match e with ALLOW => "allow" | DENY => "deny" end.

(** ** Access summaries *)
Definition connector_name (b : bucket) : string :=
  str_or (strip (str_or (b_connector_provider b) "connector")) "connector".
Definition access_summary (b : bucket) : list (string * json) :=
  match b_kind b with
  | KIND_COMPANY =>
      [ ("audience", JStr "company"); ("readers", JStr "company_members_and_grants");
        ("writers", JStr "company_members_and_grants"); ("owner_id", JNull);
        ("shareable", JBool true); ("grants_enabled", JBool true);
        ("description", JStr "Company files. New folders and files are private to their creator by default; share with access grants. Nested items inherit the parent folder's permissions.") ]
  | KIND_CONNECTOR =>
      [ ("audience", JStr "connector"); ("readers", JStr "company_members");
        ("writers", JStr "none"); ("owner_id", opt_int (b_owner_id b));
        ("shareable", JBool false); ("grants_enabled", JBool true);
        ("description", JStr ("Read-only " +:+ connector_name b +:+ " connector mount.")) ]
  end.

(** [sorted({...})] over strings *)
Definition sorted_set (l : list string) : list string := sort_by str_le (remove_dups l).
Definition allowed_subjects (st : subject_type) (gs : list grant) : list string :=
  sorted_set (g_subject_id <$> filter (λ g, g_effect g = ALLOW ∧ g_subject_type g = st) gs).
Definition denies_company (g : grant) : bool :=
  (g_effect g == DENY) && (g_subject_type g == SUBJECT_COMPANY).
Definition count_text (l : list string) (what : string) : list string :=
  match l with [] => [] | _ => [str_int (Z.of_nat (length l)) +:+ what] end.
Definition join_comma (l : list string) : string :=
  match l with [] => "" | x :: l' => foldl (λ acc s, acc +:+ ", " +:+ s) x l' end.

Definition path_access_summary (d : db) (b : bucket) (path0 : string) (object_id : option uuid)
    (grants : list grant) : list (string * json) :=
  let base := access_summary b in
  let path := normalize_path (Some path0) in
  if negb (truthy path) && bool_decide (object_id = None) then base
  else
    let matching := filter (λ g, resource_matches_grant d g b
                                   (if truthy path then Some path else None) object_id = true) grants in
    match matching with
    | [] => base
    | _ =>
        let users := allowed_subjects SUBJECT_USER matching in
        let groups := allowed_subjects SUBJECT_GROUP matching in
        let count := Z.of_nat (length matching) in
        let refine audience readers description :=
          dict_merge base
            [ ("audience", JStr audience); ("readers", JStr readers); ("writers", JStr readers);
              ("allowed_user_ids", JList (JStr <$> users));
              ("allowed_group_ids", JList (JStr <$> groups));
              ("grant_count", JInt count); ("description", JStr description) ] in
        if existsb (λ g, denies_company g && deny_blocks (g_permission g) READ) matching then
          let parts := count_text users " user(s)" ++ count_text groups " group(s)" in
          let who := match parts with [] => "invited principals only" | _ => join_comma parts end in
          refine "restricted" "grants_only" ("Restricted folder/file — " +:+ who +:+ ".")
        else if existsb (λ g, negb (denies_company g)) matching then
          refine "limited" "company_members_and_grants"
            ("Company members can access by default; additional grants refine access (" +:+
             str_int count +:+ " grant(s) on this path).")
        else dict_merge base [("grant_count", JInt count)]
    end.

Definition display_name_for_bucket (b : bucket) : string :=
  match b_kind b with
  | KIND_COMPANY => "Company files"
  | KIND_CONNECTOR => connector_name b +:+ " files"
  end.

Definition serialize_grant (d : db) (g : grant) : list (string * json) :=
  [ ("id", JStr (uuid_str (g_id g))); ("company_id", JInt (g_company_id g));
    ("bucket", JStr (from_option b_name "" (db_buckets d !! g_bucket_id g)));
    ("subject_type", JStr (subject_value (g_subject_type g)));
    ("subject_id", JStr (g_subject_id g));
    ("resource_type", JStr (resource_value (g_resource_type g)));
    ("resource_id", JStr (resource_path d g));
    ("permission", JStr (permission_value (g_permission g)));
    ("effect", JStr (effect_value (g_effect g)));
    ("created_by_id", opt_int (g_created_by_id g));
    ("created_at", JStr (iso_z (g_created_at g))); ("updated_at", JStr (iso_z (g_updated_at g)));
    ("expires_at", opt_iso (g_expires_at g)); ("notes", JStr (g_notes g)) ].

(** ** Buckets and objects *)
Definition serialize_bucket (t : datetime) (d : db) (b : bucket) (p : option principal) :
    list (string * json) :=
  let access := access_summary b in
  let can_write := match p with
                   | Some p => can_access_bucket t d p b true false
                   | None => match dict_get "writers" access with Some (JStr s) => s != "none" | _ => true end
                   end in
  [ ("id", JStr (b_name b)); ("name", JStr (b_name b));
    ("display_name", JStr (display_name_for_bucket b)); ("kind", JStr (kind_value (b_kind b)));
    ("owner", opt_id (b_owner_id b)); ("public", JBool false);
    ("file_size_limit", opt_int (b_file_size_limit b));
    ("allowed_mime_types",
       match b_allowed_mime_types b with [] => JNull | l => JList (JStr <$> l) end);
    ("connector_provider",
       if truthy (b_connector_provider b) then JStr (b_connector_provider b) else JNull);
    ("access", JObj (dict_set "can_write" (JBool can_write) access));
    ("created_at", JStr (iso_z (b_created_at b))); ("updated_at", JStr (iso_z (b_updated_at b))) ].

Definition serialize_object (d : db) (o : sobject) (include_folder_placeholder : bool)
    (grants : list grant) : list (string * json) :=
  let b := obj_bucket d o in
  let cache := default (JStr "max-age=3600") (dict_get "cacheControl" (o_metadata o)) in
  let metadata :=
    dict_merge
      [ ("eTag", if truthy (o_etag o) then JStr (quoted (o_etag o)) else JNull);
        ("size", JInt (o_size o)); ("mimetype", JStr (o_mime_type o)); ("cacheControl", cache);
        ("lastModified", JStr (iso_z (o_updated_at o))); ("contentLength", JInt (o_size o));
        ("httpStatusCode", JInt 200) ]
      (filter (λ kv, kv.1 ≠ "cacheControl") (o_metadata o)) in
  [ ("id", JStr (uuid_str (o_id o)));
    ("name", JStr (if include_folder_placeholder then o_basename o else o_name o));
    ("bucket_id", JStr (from_option b_name "" b)); ("owner", opt_id (o_owner_id o));
    ("created_at", JStr (iso_z (o_created_at o))); ("updated_at", JStr (iso_z (o_updated_at o)));
    ("last_accessed_at", opt_iso (o_last_accessed_at o)); ("metadata", JObj metadata);
    ("access", JObj (match b with
                     | Some b => path_access_summary d b (o_name o) (Some (o_id o)) grants
                     | None => [] (* excluded by the foreign key *)
                     end)) ].

(** ** Listing a folder *)
(** [l[a:b]] *)
Definition slice_index (n : Z) (i : Z) : Z := if i <? 0 then Z.max 0 (n + i) else Z.min i n.
Definition py_slice {A} (a b : Z) (l : list A) : list A :=
  let n := Z.of_nat (length l) in
  let i := slice_index n a in
  let j := slice_index n b in
  take (Z.to_nat (j - i)) (drop (Z.to_nat i) l).

(** The immediate children of a prefix among the objects the caller may read: the
    files, and for each deeper object its first folder and the rest. *)
Inductive child := ChildFile (o : sobject) | ChildFolder (name remainder : string) (o : sobject).
Definition child_of (prefix : string) (o : sobject) : option child :=
  let rest := str_drop (String.length prefix) (o_name o) in
  if negb (truthy rest) then None
  else if has_char "/" rest
  then let '(folder, remainder) := partition_char "/" rest in Some (ChildFolder folder remainder o)
  else Some (ChildFile o).
Definition child_file (c : child) : option sobject :=
  match c with ChildFile o => Some o | _ => None end.
Definition child_folder (c : child) : option string :=
  match c with ChildFolder n _ _ => Some n | _ => None end.
(** [folder_ids]: the marker of each folder, when it has one (the last one wins). *)
Definition folder_id (cs : list child) (name : string) : option uuid :=
  foldl (λ acc c, match c with
                  | ChildFolder n r o =>
                      if (n == name) && (r == FOLDER_PLACEHOLDER_NAME) then Some (o_id o) else acc
                  | ChildFile _ => acc
                  end) None cs.

Definition readable (t : datetime) (d : db) (p : option principal) (b : bucket) (o : sobject) : bool :=
  match p with
  | None => true
  | Some p => can_access_path t d p b (o_name o) (Some (o_id o)) false false
  end.

Definition listing_children (t : datetime) (d : db) (b : bucket) (prefix search : string)
    (p : option principal) : list child :=
  let pfx := prefix_filter prefix in
  omap (child_of pfx)
    (filter (λ o, (negb (truthy search) || contains (lower search) (lower (o_name o))) &&
                  readable t d p b o = true)
       (objects_under_prefix d b prefix)).

Definition entry_str (k : string) (e : list (string * json)) : string :=
  match dict_get k e with Some (JStr s) => s | _ => "" end.
Definition sort_key (column : string) (e : list (string * json)) : string :=
  if column == "name" then lower (entry_str "name" e) else entry_str column e.
Definition entry_le (column : string) (reverse : bool) (e e' : list (string * json)) : bool :=
  if reverse then str_le (sort_key column e') (sort_key column e)
  else str_le (sort_key column e) (sort_key column e').

Definition folder_entry (d : db) (b : bucket) (pfx : string) (grants : list grant)
    (cs : list child) (name : string) : list (string * json) :=
  [ ("id", JNull);
    ("folder_id", from_option (λ i, JStr (uuid_str i)) JNull (folder_id cs name));
    ("name", JStr name); ("bucket_id", JStr (b_name b)); ("owner", JNull); ("created_at", JNull);
    ("updated_at", JNull); ("last_accessed_at", JNull); ("metadata", JNull);
    ("access", JObj (path_access_summary d b (strip_char "/" (pfx +:+ name)) None grants)) ].

Definition listing_entries (t : datetime) (d : db) (b : bucket) (prefix search sort_column
    sort_order : string) (p : option principal) :
    list (list (string * json)) * list (list (string * json)) :=
  let cs := listing_children t d b prefix search p in
  let grants := active_grants t d (b_company_id b) in
  let column := if sort_column in_ ["name"; "updated_at"; "created_at"] then sort_column else "name" in
  let reverse := lower sort_order == "desc" in
  let sort := sort_by (entry_le column reverse) in
  (sort (folder_entry d b (prefix_filter prefix) grants cs <$> remove_dups (omap child_folder cs)),
   sort ((λ o, serialize_object d o true grants) <$> omap child_file cs)).

Definition list_objects (b : bucket) (prefix : string) (limit offset : Z)
    (search sort_column sort_order : string) (p : option principal) :
    prog (list (list (string * json))) :=
  t <- now ;; d <- get_db ;;
  let '(folders, files) := listing_entries t d b prefix search sort_column sort_order p in
  ret (py_slice offset (offset + limit) (folders ++ files)).

(** ** Folder statistics *)
Record prefix_summary := PrefixSummary {
  ps_prefix : string; ps_object_count : Z; ps_file_count : Z; ps_placeholder_count : Z;
  ps_total_bytes : Z }.
Definition is_placeholder (name : string) : bool :=
  (name == FOLDER_PLACEHOLDER_NAME) || endswith ("/" +:+ FOLDER_PLACEHOLDER_NAME) name.
Definition summarize_prefix (b : bucket) (folder_path : string) (p : option principal) :
    prog prefix_summary :=
  t <- now ;; d <- get_db ;;
  let objs := filter (λ o, readable t d p b o = true) (objects_under_prefix d b folder_path) in
  let '(count, bytes, markers) :=
    foldl (λ acc o, let '(c, s, k) := acc in
             (c + 1, s + o_size o, if is_placeholder (o_name o) then k + 1 else k))
      (0, 0, 0) objs in
  ret (PrefixSummary (strip_char "/" folder_path) count (Z.max 0 (count - markers)) markers bytes).

(** ** Resolving a picker id *)
Definition resolve_item_by_id (p : principal) (object_id : string) : prog (list (string * json)) :=
  match parse_uuid object_id with
  | None => raise (StorageError 400 "invalid_id")
  | Some uid =>
      d <- get_db ;;
      match db_objects d !! uid with
      | None => raise (StorageError 404 "object_not_found")
      | Some o =>
          if from_option (λ cid, o_company_id o != cid) false (p_company_id p)
          then raise (StorageError 404 "object_not_found")
          else
            match obj_bucket d o with
            | None => raise IntegrityError (* excluded by the foreign key *)
            | Some b =>
                assert_can_access_path p b (o_name o) (Some (o_id o)) false false ;;;
                let name := o_name o in
                let item path shown kind :=
                  [ ("id", JStr (uuid_str (o_id o))); ("bucket", JStr (b_name b));
                    ("path", JStr path); ("name", JStr shown); ("type", JStr kind) ] in
                if is_placeholder name then
                  let folder_path :=
                    if name == FOLDER_PLACEHOLDER_NAME then ""
                    else drop_last (String.length FOLDER_PLACEHOLDER_NAME + 1) name in
                  let shown := if truthy folder_path then after_last "/" folder_path
                               else display_name_for_bucket b in
                  ret (item folder_path shown "folder")
                else ret (item name (o_basename o) "file")
            end
      end
  end.

(** ** Lemmas *)
Lemma partition_char_spec a s :
  has_char a s = true →
  s = (partition_char a s).1 +:+ String a (partition_char a s).2 ∧
  has_char a (partition_char a s).1 = false.
Proof.
  induction s as [|c s IH]; [done|]. rewrite has_char_cons. intros Hc. simpl.
  case_bool_decide as Hca; [by subst c|]. simpl in Hc. destruct (IH Hc) as [Hs Hp].
  destruct (partition_char a s) as [x y]. simpl in *. split; [by rewrite str_app_cons, <- Hs|].
  rewrite has_char_cons, Hp. by rewrite bool_decide_false.
Qed.
Lemma str_drop_prefix p s : startswith p s = true → s = p +:+ str_drop (String.length p) s.
Proof. intros [t ->]%startswith_spec. by rewrite str_drop_app. Qed.
Lemma partition_char_app a x y : has_char a x = false → partition_char a (x +:+ String a y) = (x, y).
Proof.
  induction x as [|c x IH]; intros Hx.
  - rewrite str_app_empty_l. simpl. by rewrite bool_decide_true.
  - rewrite has_char_cons, orb_false_iff, bool_decide_eq_false in Hx. destruct Hx as [Hc Hx].
    rewrite str_app_cons. simpl. rewrite bool_decide_false by done. by rewrite (IH Hx).
Qed.

Section listing.
Context (t : datetime) (d : db) (b : bucket) (prefix search : string) (p : option principal).

(** The objects a listing takes into account. *)
Definition visible (o : sobject) : Prop :=
  (∃ i, db_objects d !! i = Some o) ∧ o_bucket_id o = b_id b ∧
  startswith (prefix_filter prefix) (o_name o) = true ∧
  (search = "" ∨ contains (lower search) (lower (o_name o)) = true) ∧
  readable t d p b o = true.
(** The path of a visible object below the prefix. *)
Definition below (o : sobject) : string := str_drop (String.length (prefix_filter prefix)) (o_name o).

Lemma elem_of_children c :
  c ∈ listing_children t d b prefix search p ↔
  ∃ o, visible o ∧ child_of (prefix_filter prefix) o = Some c.
Proof.
  unfold listing_children. rewrite list_elem_of_omap.
  assert (Hin : ∀ o, o ∈ filter (λ o, ((negb (truthy search) || contains (lower search) (lower (o_name o)))
       && readable t d p b o) = true) (objects_under_prefix d b prefix) ↔ visible o).
  { intros o. rewrite list_elem_of_filter. unfold objects_under_prefix.
    rewrite elem_of_sort_by, list_elem_of_filter, elem_of_rows. unfold visible, truthy.
    rewrite negb_involutive, !andb_true_iff, orb_true_iff, !bool_decide_eq_true. tauto. }
  split.
  - intros (o & Ho & Hc). exists o. split; [by apply Hin|done].
  - intros (o & Ho & Hc). exists o. split; [by apply Hin|done].
Qed.
Lemma elem_of_files o :
  o ∈ omap child_file (listing_children t d b prefix search p) ↔
  visible o ∧ below o ≠ "" ∧ has_char "/" (below o) = false.
Proof.
  rewrite list_elem_of_omap. setoid_rewrite elem_of_children. unfold child_of, below, truthy. split.
  - intros (c & (o' & Hv & Hc) & Hf). case_bool_decide as He; simpl in Hc; [done|].
    destruct (has_char "/" _) eqn:Hs.
    + destruct (partition_char _ _). injection Hc as <-. done.
    + injection Hc as <-. simpl in Hf. injection Hf as <-. done.
  - intros (Hv & Hne & Hs). exists (ChildFile o). split; [|done]. exists o. split; [done|].
    rewrite bool_decide_false by done. simpl. by rewrite Hs.
Qed.
Lemma elem_of_folders n :
  n ∈ omap child_folder (listing_children t d b prefix search p) ↔
  has_char "/" n = false ∧ ∃ o r, visible o ∧ below o = n +:+ String "/" r.
Proof.
  rewrite list_elem_of_omap. setoid_rewrite elem_of_children. unfold child_of, below, truthy. split.
  - intros (c & (o & Hv & Hc) & Hf). case_bool_decide as He; simpl in Hc; [done|].
    destruct (has_char "/" _) eqn:Hs; [|by injection Hc as <-].
    apply partition_char_spec in Hs as [Hs Hn]. destruct (partition_char _ _) as [x y] eqn:Hp.
    injection Hc as <-. simpl in *. injection Hf as <-. split; [done|]. by exists o, y.
  - intros (Hn & o & r & Hv & Ho). exists (ChildFolder n r o). split; [|done]. exists o.
    split; [done|]. rewrite Ho. rewrite bool_decide_false by (by destruct n). simpl.
    rewrite has_char_app, has_char_cons, bool_decide_true, orb_true_l, orb_true_r by done.
    by rewrite partition_char_app.
Qed.
End listing.

Lemma slice_pages {A} (a b c : Z) (l : list A) :
  0 ≤ a → a ≤ b → b ≤ c → py_slice a b l ++ py_slice b c l = py_slice a c l.
Proof.
  intros Ha Hab Hbc. unfold py_slice, slice_index.
  rewrite !(proj2 (Z.ltb_ge _ _)) by lia. set (n := Z.of_nat (length l)).
  assert (Hsplit : ∀ (i j : nat) (l' : list A), take i l' ++ take j (drop i l') = take (i + j) l').
  { intros i. induction i as [|i IH]; intros j l'; [done|]. destruct l' as [|x l']; simpl;
      [by rewrite take_nil|by rewrite IH]. }
  set (i := Z.to_nat (Z.min a n)). set (j := Z.to_nat (Z.min b n - Z.min a n)).
  set (k := Z.to_nat (Z.min c n - Z.min b n)).
  assert (E1 : Z.to_nat (Z.min b n) = (i + j)%nat) by (unfold i, j, n; lia).
  assert (E2 : Z.to_nat (Z.min c n - Z.min a n) = (j + k)%nat) by (unfold j, k, n; lia).
  rewrite E1, E2, <- drop_drop. apply Hsplit.
Qed.
Lemma slice_all {A} (l : list A) (c : Z) : Z.of_nat (length l) ≤ c → py_slice 0 c l = l.
Proof.
  intros Hc. unfold py_slice, slice_index. simpl. rewrite (proj2 (Z.ltb_ge _ _)) by lia.
  rewrite Z.min_r, Z.min_l by lia. rewrite Z.sub_0_r, Nat2Z.id. simpl. apply take_ge. lia.
Qed.

(** ** Properties *)

(** C40: a listing shows exactly what the caller may read.  Its files are the visible
    objects directly below the prefix; its folders are the first segments of the
    deeper visible objects, each listed once; nothing else appears. *)
Theorem listing_exact : ∀ t d b prefix search column order p,
  let entries := listing_entries t d b prefix search column order p in
  let grants := active_grants t d (b_company_id b) in
  (∀ e, e ∈ entries.2 ↔ ∃ o, visible t d b prefix search p o ∧ below prefix o ≠ "" ∧
      has_char "/" (below prefix o) = false ∧ e = serialize_object d o true grants) ∧
  (∀ n, n ∈ entry_str "name" <$> entries.1 ↔ has_char "/" n = false ∧
      ∃ o r, visible t d b prefix search p o ∧ below prefix o = n +:+ String "/" r) ∧
  NoDup (entry_str "name" <$> entries.1).
Proof.
  intros t d b prefix search column order p entries grants. unfold entries, listing_entries. simpl.
  fold grants. set (le := entry_le _ _). set (cs := listing_children t d b prefix search p).
  assert (Hnames : entry_str "name" <$> (folder_entry d b (prefix_filter prefix) grants cs <$>
            remove_dups (omap child_folder cs)) = remove_dups (omap child_folder cs)).
  { rewrite <- list_fmap_compose. rewrite <- (list_fmap_id (remove_dups _)) at 2.
    by apply list_fmap_ext. }
  split_and!.
  - intros e. rewrite elem_of_sort_by, list_elem_of_fmap. unfold cs. split.
    + intros (o & -> & (?&?&?)%elem_of_files). by exists o.
    + intros (o & ? & ? & ? & ->). exists o. split; [done|]. by apply elem_of_files.
  - intros n. rewrite sort_by_perm, Hnames, elem_of_remove_dups. apply elem_of_folders.
  - rewrite sort_by_perm, Hnames. apply NoDup_remove_dups.
Qed.

(** Pages partition a listing: the entries from [a] to [b] followed by those from
    [b] to [c] are the entries from [a] to [c], and one large page is everything:
    paging neither repeats nor skips an entry. *)
Theorem listing_pages : ∀ b prefix search column order p w,
  let page := λ offset limit,
    match (list_objects b prefix limit offset search column order p w).1 with
    | inr l => l | inl _ => [] end in
  (∀ offset limit limit', 0 ≤ offset → 0 ≤ limit → 0 ≤ limit' →
     page offset limit ++ page (offset + limit) limit' = page offset (limit + limit')) ∧
  (∃ n, ∀ limit, n ≤ limit →
     let entries := listing_entries (w_now w) (w_db w) b prefix search column order p in
     page 0 limit = entries.1 ++ entries.2).
Proof.
  intros b prefix search column order p w page.
  assert (Hpage : ∀ offset limit, page offset limit =
    py_slice offset (offset + limit)
      ((listing_entries (w_now w) (w_db w) b prefix search column order p).1 ++
       (listing_entries (w_now w) (w_db w) b prefix search column order p).2)).
  { intros offset limit. unfold page, list_objects, bind, now, get_db, gets. simpl.
    by destruct (listing_entries (w_now w) (w_db w) b prefix search column order p). }
  split.
  - intros offset limit limit' H1 H2 H3. rewrite !Hpage, slice_pages by lia.
    by rewrite Z.add_assoc.
  - eexists (Z.of_nat (length _)). intros limit Hl. rewrite Hpage. apply slice_all. exact Hl.
Qed.

(** The folder statistics count what the caller may read: the number of objects
    and of markers, the files as their difference, and the sum of the sizes. *)
Theorem summarize_prefix_correct : ∀ b folder p w,
  let objs := filter (λ o, readable (w_now w) (w_db w) p b o = true)
                (objects_under_prefix (w_db w) b folder) in
  let markers := filter (λ o, is_placeholder (o_name o) = true) objs in
  let real := filter (λ o, is_placeholder (o_name o) = false) objs in
  ∃ s, summarize_prefix b folder p w = (inr s, w) ∧
    ps_object_count s = Z.of_nat (length objs) ∧
    ps_placeholder_count s = Z.of_nat (length markers) ∧
    ps_file_count s = Z.of_nat (length real) ∧
    ps_total_bytes s = foldr Z.add 0 (o_size <$> objs).
Proof.
  intros b folder p w objs. unfold summarize_prefix, bind, now, get_db, gets. simpl. fold objs.
  assert (Hfold : ∀ l c s k,
    foldl (λ acc o, let '(c, s, k) := acc in
             (c + 1, s + o_size o, if is_placeholder (o_name o) then k + 1 else k)) (c, s, k) l =
    (c + Z.of_nat (length l), s + foldr Z.add 0 (o_size <$> l),
     k + Z.of_nat (length (filter (λ o, is_placeholder (o_name o) = true) l)))).
  { induction l as [|o l IH]; intros c s k; [apply (f_equal3 (λ a b c, (a, b, c))); simpl; lia|].
    rewrite fmap_cons. cbn [foldl foldr length]. rewrite IH. destruct (is_placeholder (o_name o)) eqn:Hp.
    - rewrite (filter_cons_True (λ o, _)) by done. cbn [length].
      rewrite !Nat2Z.inj_succ. apply (f_equal3 (λ a b c, (a, b, c))); lia.
    - rewrite (filter_cons_False (λ o, _)) by (by rewrite Hp).
      rewrite !Nat2Z.inj_succ. apply (f_equal3 (λ a b c, (a, b, c))); lia. }
  rewrite Hfold. eexists. split; [done|]. simpl.
  assert (Hlen : length objs = (length (filter (λ o, is_placeholder (o_name o) = true) objs) +
                                length (filter (λ o, is_placeholder (o_name o) = false) objs))%nat).
  { clear. induction objs as [|o l IH]; [done|]. destruct (is_placeholder (o_name o)) eqn:Hp.
    - rewrite (filter_cons_True (λ o, is_placeholder (o_name o) = true)) by done.
      rewrite (filter_cons_False (λ o, is_placeholder (o_name o) = false)) by (by rewrite Hp).
      simpl. by rewrite IH.
    - rewrite (filter_cons_False (λ o, is_placeholder (o_name o) = true)) by (by rewrite Hp).
      rewrite (filter_cons_True (λ o, is_placeholder (o_name o) = false)) by done.
      simpl. rewrite IH. lia. }
  split_and!; lia.
Qed.
