(* ===== verification/Shares.v ===== *)
(** * Shares: capability links ([apps/storage/shares.py])

    A link lets anyone who holds its token download one object while the link is
    valid: not revoked, not expired, not exhausted. *)
From S2P Require Import Prelude PyStr Models PyData Mime Signals Access Quotas Backends Services.

(** [parse_datetime] followed by [make_aware] (Django): an exception, no datetime, or
    a datetime. *)
Class DateParser := parse_datetime : string → exn + option datetime.
(** [secrets.token_urlsafe(32)], as a function of the random draw. *)
Class TokenSource := token_urlsafe : uuid → string.

Section shares.
Context `{Receivers, DateParser, TokenSource}.

Definition parse_expires_at (value : option json) : prog (option datetime) :=
  let v := default JNull value in
  if blank v then ret None
  else match parse_datetime (py_str v) with
       | inl e => raise e
       | inr None => raise (StorageError 400 "invalid_expires_at")
       | inr (Some t) => ret (Some t)
       end.

(** [ObjectShareLink.objects.create]: the token is unique. *)
Definition create_link_row (l : share_link) : prog share_link :=
  d <- get_db ;;
  if row_exists (λ l', l_token l' == l_token l) (db_links d) then raise IntegrityError
  else modify_db (set_links (insert (l_id l) l)) ;;; ret l.

(** The object of a share request, which the caller must be able to write. *)
Definition shareable_object (p : principal) (bucket_name path : string) : prog (bucket * sobject) :=
  b <- get_accessible_bucket p bucket_name false false ;;
  name <- lift_sum (safe_object_path path) ;;
  d <- get_db ;;
  match find_object d (b_id b) name with
  | None => raise (StorageError 404 "object_not_found")
  | Some o => assert_can_access_path p b name (Some (o_id o)) true false ;;; ret (b, o)
  end.

Definition parse_max_downloads (max_downloads : option json) : prog (option Z) :=
  match max_downloads with
  | None => ret None
  | Some v =>
      m <- lift_sum (py_int v) ;;
      if m <? 1 then raise (StorageError 400 "invalid_max_downloads") else ret (Some m)
  end.

Definition create_share_link (p : principal) (bucket_name path : string)
    (expires_at max_downloads : option json) (notes : string) : prog share_link :=
  bo <- shareable_object p bucket_name path ;;
  expires <- parse_expires_at expires_at ;;
  cap <- parse_max_downloads max_downloads ;;
  if bool_decide (expires = None) && bool_decide (cap = None)
  then raise (StorageError 400 "share_limit_required")
  else
    t <- now ;;
    if from_option (λ e, e <=? t) false expires then raise (StorageError 400 "invalid_expires_at")
    else
      i <- uuid4 ;; r <- uuid4 ;;
      create_link_row
        (ObjectShareLink i (token_urlsafe r) (o_id bo.2) (b_company_id bo.1) (p_user_id p) expires
           cap 0 None t (str_take 255 notes)).

(** [ordering = ['-created_at']] *)
Definition link_newer (l l' : share_link) : bool := l_created_at l' <=? l_created_at l.
Definition list_share_links_for_object (p : principal) (bucket_name path : string) :
    prog (list share_link) :=
  bo <- shareable_object p bucket_name path ;;
  d <- get_db ;;
  ret (filter (λ l, (l_object_id l == o_id bo.2) && (l_company_id l == b_company_id bo.1) &&
                    (p_is_company_owner p || p_is_staff p || (l_created_by_id l == p_user_id p))
                    = true) (sort_by link_newer (rows (db_links d)))).

Definition find_link (d : db) (token : string) : option share_link :=
  row_find (λ l, l_token l == token) (db_links d).

Definition with_revoked_at (t : datetime) (l : share_link) : share_link :=
  ObjectShareLink (l_id l) (l_token l) (l_object_id l) (l_company_id l) (l_created_by_id l)
    (l_expires_at l) (l_max_downloads l) (l_download_count l) (Some t) (l_created_at l) (l_notes l).
Definition count_download (l : share_link) : share_link :=
  ObjectShareLink (l_id l) (l_token l) (l_object_id l) (l_company_id l) (l_created_by_id l)
    (l_expires_at l) (l_max_downloads l) (l_download_count l + 1) (l_revoked_at l)
    (l_created_at l) (l_notes l).

Definition revoke_share_link (p : principal) (token : string) : prog share_link :=
  d <- get_db ;;
  match find_link d token with
  | None => raise (StorageError 404 "share_not_found")
  | Some l =>
      if bool_decide (p_company_id p ≠ Some (l_company_id l))
      then raise (StorageError 404 "share_not_found")
      else if negb ((l_created_by_id l == p_user_id p) || (p_is_company_owner p || p_is_staff p))
      then raise (StorageError 403 "share_revoke_denied")
      else if bool_decide (l_revoked_at l = None) then
        t <- now ;;
        modify_db (set_links (alter (with_revoked_at t) (l_id l))) ;;;
        ret (with_revoked_at t l)
      else ret l
  end.

(** [redeem_share_link]: the row is locked, checked and counted in one transaction. *)
Definition redeem_share_link (token : string) : prog (share_link * sobject) :=
  atomic (
    d <- get_db ;; t <- now ;;
    match find_link d token with
    | None => raise (StorageError 404 "share_not_found")
    | Some l =>
        if negb (is_active t l) then raise (StorageError 410 "share_inactive")
        else
          modify_db (set_links (alter count_download (l_id l))) ;;;
          match db_objects d !! l_object_id l with
          | None => raise IntegrityError (* excluded by the foreign key *)
          | Some o =>
              let o' := StorageObject (o_id o) (o_bucket_id o) (o_name o) (o_company_id o)
                          (o_owner_id o) (o_size o) (o_etag o) (o_mime_type o) (o_metadata o)
                          (o_storage_key o) (o_version o) (o_created_at o) (o_updated_at o)
                          (Some t) in
              modify_db (set_objects (insert (o_id o) o')) ;;;
              ret (count_download l, o')
          end
    end).

Definition serialize_share_link (t : datetime) (d : db) (l : share_link) (include_token : bool) :
    list (string * json) :=
  let o := db_objects d !! l_object_id l in
  let b := o ≫= obj_bucket d in
  let payload :=
    [ ("id", JStr (uuid_str (l_id l)));
      ("object_id", JStr (uuid_str (l_object_id l)));
      ("bucket", JStr (from_option b_name "" b));
      ("path", JStr (from_option o_name "" o));
      ("company_id", JInt (l_company_id l));
      ("created_by_id", JInt (l_created_by_id l));
      ("expires_at", opt_iso (l_expires_at l));
      ("max_downloads", opt_int (l_max_downloads l));
      ("download_count", JInt (l_download_count l));
      ("revoked_at", opt_iso (l_revoked_at l));
      ("created_at", JStr (iso_z (l_created_at l)));
      ("notes", JStr (l_notes l));
      ("active", JBool (is_active t l));
      ("path_url", JStr ("/storage/v1/share/link/" +:+ l_token l)) ] in
  if include_token then dict_set "token" (JStr (l_token l)) payload else payload.
End shares.

(** ** Histories of links *)
Inductive share_call :=
| Create (p : principal) (bucket_name path : string) (expires_at max_downloads : option json)
    (notes : string)
| Revoke (p : principal) (token : string)
| Redeem (token : string)
| Wait (dt : Z).

Section histories.
Context `{Receivers, !ReceiverLaws, DateParser, TokenSource}.

Definition run_share (c : share_call) : prog unit :=
  match c with
  | Create p b path e m notes => create_share_link p b path e m notes ;;; ret tt
  | Revoke p token => revoke_share_link p token ;;; ret tt
  | Redeem token => redeem_share_link token ;;; ret tt
  | Wait dt => modify (λ w, World (w_db w) (w_blobs w) (w_now w + Z.max 0 dt) (w_next_uuid w))
  end.

(** The number of downloads a token yields along a history of calls, each of which
    runs to its end before the next one starts (the row is locked). *)
Fixpoint downloads (token : string) (cs : list share_call) (w : world) : Z :=
  match cs with
  | [] => 0
  | c :: cs' =>
      (match c, (run_share c w).1 with
       | Redeem t, inr _ => if t == token then 1 else 0
       | _, _ => 0
       end) + downloads token cs' (run_share c w).2
  end.

Record share_inv (w : world) : Prop := ShareInv {
  si_id i l : db_links (w_db w) !! i = Some l → l_id l = i;
  si_fresh i l : db_links (w_db w) !! i = Some l → (i < w_next_uuid w)%N;
  si_token i j l l' : db_links (w_db w) !! i = Some l → db_links (w_db w) !! j = Some l' →
    l_token l = l_token l' → i = j }.

(** How the row of a link may evolve. *)
Record link_evolves (l l' : share_link) : Prop := LinkEvolves {
  le_max : l_max_downloads l' = l_max_downloads l;
  le_expires : l_expires_at l' = l_expires_at l;
  le_object : l_object_id l' = l_object_id l;
  le_revoked : l_revoked_at l ≠ None → l_revoked_at l' ≠ None;
  le_count : l_download_count l ≤ l_download_count l' }.
#[export] Instance link_evolves_preorder : PreOrder link_evolves.
Proof.
  split; [by intros l|]. intros l1 l2 l3 [] []. split; [congruence..|auto|lia].
Qed.

(** One call as the links see it: [n] is the number of downloads of [token]. *)
Record share_step (token : string) (n : Z) (w w' : world) : Prop := ShareStep {
  st_inv : share_inv w';
  st_now : w_now w ≤ w_now w';
  st_link l : find_link (w_db w) token = Some l → ∃ l', find_link (w_db w') token = Some l' ∧
    link_evolves l l' ∧ l_download_count l' = l_download_count l + n ∧
    (0 < n → is_active (w_now w) l = true) }.

Lemma find_link_iff w token l :
  share_inv w →
  find_link (w_db w) token = Some l ↔ db_links (w_db w) !! l_id l = Some l ∧ l_token l = token.
Proof.
  intros Hinv. split.
  - intros Hf. apply row_find_Some in Hf as [Ht [i Hi]]. apply bool_decide_eq_true in Ht.
    by rewrite (si_id w Hinv i l Hi).
  - intros [Hl Ht]. apply (row_find_unique _ _ (l_id l)); [done|by apply bool_decide_eq_true|].
    intros j l' Hl' Ht'. apply bool_decide_eq_true in Ht'.
    assert (j = l_id l) as -> by (eapply (si_token w Hinv); [done..|congruence]). congruence.
Qed.

(** Steps that leave the links alone. *)
Record links_same (w w' : world) : Prop := LinksSame {
  ls_links : db_links (w_db w') = db_links (w_db w);
  ls_now : w_now w ≤ w_now w';
  ls_uuid : (w_next_uuid w ≤ w_next_uuid w')%N }.
#[export] Instance links_same_preorder : PreOrder links_same.
Proof.
  split; [by intros w|]. intros w1 w2 w3 [] []. split; [congruence|lia|lia].
Qed.
Lemma links_same_inv w w' : links_same w w' → share_inv w → share_inv w'.
Proof.
  intros [El _ Eu] Hinv. split; rewrite El; [apply Hinv| |apply Hinv].
  intros i l Hl. pose proof (si_fresh w Hinv i l Hl). lia.
Qed.
Lemma links_same_step token w w' : links_same w w' → share_inv w → share_step token 0 w w'.
Proof.
  intros Hs Hinv. split; [by eapply links_same_inv|by apply Hs|].
  intros l Hl. exists l. split_and!; [|done|lia|lia].
  unfold find_link in *. by rewrite (ls_links _ _ Hs).
Qed.
Lemma share_step_before token n w w1 w' :
  links_same w w1 → share_inv w → (0 < n → w_now w1 = w_now w) →
  share_step token n w1 w' → share_step token n w w'.
Proof.
  intros Hs Hinv Hnow [Hi Hn Hl]. split; [done|pose proof (ls_now _ _ Hs); lia|].
  intros l Hf. destruct (Hl l) as (l' & Hf' & He & Hc & Ha).
  - unfold find_link in *. by rewrite (ls_links _ _ Hs).
  - exists l'. split_and!; try done. intros Hn0. rewrite <- (Hnow Hn0). auto.
Qed.
Lemma quiet_links w w' : quiet w w' → links_same w w'.
Proof. intros [[] _ En Eu]. split; [done|lia|done]. Qed.

Lemma links_same_stable w : setup_stable (links_same w).
Proof.
  split.
  - intros w1 i b []. by split.
  - intros w1 []. split; simpl; [done|done|lia].
  - intros w1 w2 Hq Hw. etrans; [exact Hw|by apply quiet_links].
Qed.
Lemma keeps_shareable_object w0 p bucket_name path :
  preserves (links_same w0) (shareable_object p bucket_name path).
Proof.
  unfold shareable_object, lift_sum, get_db.
  pose proof (preserves_get_accessible_bucket (links_same w0) (links_same_stable w0)).
  solve_preserves.
Qed.

(** *** One call *)
Lemma wp_seq_unit' {A} (m : prog A) (Q : world → Prop) (R : exn → world → Prop) w :
  wp m (λ _ w', Q w') R w → wp (m ;;; ret tt) (λ _ w', Q w') R w.
Proof. intros Hm. apply wp_bind. eapply wp_mono; [exact Hm| |done]. intros a w' HQ. by apply wp_ret. Qed.

Lemma wp_parse_expires_at v w : wp (parse_expires_at v) (λ _ w', w' = w) (λ _ w', w' = w) w.
Proof.
  unfold parse_expires_at. apply wp_if; intros _; [by wp_step|].
  by destruct (parse_datetime _) as [?|[?|]]; wp_step.
Qed.
Lemma wp_parse_max_downloads v w :
  wp (parse_max_downloads v) (λ m w', w' = w ∧ from_option (λ z, 1 <= z) True m) (λ _ w', w' = w) w.
Proof.
  unfold parse_max_downloads, lift_sum. apply wp_option; [intros j _|intros _; by wp_step].
  apply wp_bind. destruct (py_int j) as [e|z]; wp_step; [done|].
  apply wp_if; intros Hz; wp_step; [done|]. apply Z.ltb_ge in Hz. done.
Qed.

Lemma create_step token p bn path e m notes w :
  share_inv w →
  wp (create_share_link p bn path e m notes) (λ _ w', share_step token 0 w w')
    (λ _ w', share_step token 0 w w') w.
Proof.
  intros Hinv. unfold create_share_link. apply wp_bind.
  assert (Hsame : ∀ (e : exn) w', links_same w w' → share_step token 0 w w')
    by (intros ? w'; by intros; apply links_same_step).
  eapply wp_mono; [apply (wp_preserves (links_same w)); [apply keeps_shareable_object|done]| |done].
  intros [b o] w1 Hw1. apply wp_bind.
  eapply wp_mono; [apply wp_parse_expires_at| |by intros e' w2 ->; apply (Hsame ValueError)].
  intros expires w2 ->. apply wp_bind.
  eapply wp_mono; [apply wp_parse_max_downloads| |by intros e' w2 ->; apply (Hsame ValueError)].
  intros cap w2 [-> _]. revert w1 Hw1. intros w2 Hw2.
  apply wp_if; intros _; [apply wp_raise; by apply (Hsame ValueError)|].
  unfold now. wp_steps. apply wp_if; intros _; [apply wp_raise; by apply (Hsame ValueError)|].
  unfold uuid4, create_link_row, get_db, modify_db.
  unfold wp, bind, gets, modify. simpl.
  set (i := w_next_uuid w2). set (l := ObjectShareLink _ _ _ _ _ _ _ _ _ _ _).
  set (w3 := World (w_db w2) (w_blobs w2) (w_now w2) (N.succ (N.succ i))).
  assert (Hw3 : links_same w w3).
  { etrans; [exact Hw2|]. split; simpl; [done|lia|lia]. }
  destruct (row_exists _ _) eqn:Hex; simpl; [by apply (Hsame ValueError)|].
  rewrite row_exists_false in Hex. pose proof (links_same_inv w w2 Hw2 Hinv) as Hinv2.
  apply (share_step_before token 0 w w3); [done|done|lia|].
  assert (Hold : db_links (w_db w2) !! i = None).
  { apply eq_None_not_Some. intros [l0 Hl0]. pose proof (si_fresh w2 Hinv2 i l0 Hl0). lia. }
  assert (Hinv' : share_inv (set_db (set_links <[i:=l]>) w3)).
  { split; simpl.
    - intros j l0 [[<- <-]|[_ Hj]]%lookup_insert_Some; [done|by apply (si_id w2 Hinv2)].
    - intros j l0 [[<- <-]|[_ Hj]]%lookup_insert_Some; [lia|].
      pose proof (si_fresh w2 Hinv2 j l0 Hj). lia.
    - intros j k l1 l2 [[<- <-]|[_ G1]]%lookup_insert_Some [[<- <-]|[_ G2]]%lookup_insert_Some Ht;
        [done| | |by eapply (si_token w2 Hinv2)].
      + pose proof (Hex k l2 G2) as Hf. by apply bool_decide_eq_false in Hf.
      + pose proof (Hex j l1 G1) as Hf. by apply bool_decide_eq_false in Hf. }
  split; [done|simpl; lia|]. intros l0 Hf. exists l0. split_and!; [|done|lia|lia].
  apply (find_link_iff w3) in Hf as [Hl0 Ht]; [|by eapply links_same_inv].
  apply find_link_iff; [done|]. split; [|done]. simpl. rewrite lookup_insert_ne; [done|].
  intros Heq. simpl in Hl0. rewrite <- Heq, Hold in Hl0. done.
Qed.

(** Altering the row of one link in a way that keeps its identity. *)
Lemma alter_link_step token f l n w w' :
  share_inv w → find_link (w_db w) (l_token l) = Some l →
  db_links (w_db w') = alter f (l_id l) (db_links (w_db w)) →
  w_now w' = w_now w → (w_next_uuid w ≤ w_next_uuid w')%N →
  l_id (f l) = l_id l → l_token (f l) = l_token l → link_evolves l (f l) →
  (l_token l = token → l_download_count (f l) = l_download_count l + n) →
  (l_token l = token → 0 < n → is_active (w_now w) l = true) → (l_token l ≠ token → n = 0) →
  share_step token n w w'.
Proof.
  intros Hinv Hf El En Eu Hid Htok Hev Hc Hact Hn.
  apply find_link_iff in Hf as [Hl _]; [|done].
  assert (El' : db_links (w_db w') = <[l_id l := f l]> (db_links (w_db w))).
  { rewrite El. apply map_eq. intros j. destruct (decide (l_id l = j)) as [<-|Hj].
    - by rewrite lookup_alter_eq, lookup_insert_eq, Hl.
    - by rewrite lookup_alter_ne, lookup_insert_ne. }
  assert (Hinv' : share_inv w').
  { split; rewrite El'.
    - intros j l0 [[<- <-]|[_ Hj]]%lookup_insert_Some; [done|by apply (si_id w Hinv)].
    - intros j l0 [[<- <-]|[_ Hj]]%lookup_insert_Some.
      + pose proof (si_fresh w Hinv _ l Hl). lia.
      + pose proof (si_fresh w Hinv j l0 Hj). lia.
    - intros j k l1 l2 [[<- <-]|[_ G1]]%lookup_insert_Some [[<- <-]|[_ G2]]%lookup_insert_Some;
        rewrite ?Htok; by eapply (si_token w Hinv). }
  split; [done|lia|]. intros l0 Hf0. apply find_link_iff in Hf0 as [Hl0 Ht0]; [|done].
  destruct (decide (l_id l0 = l_id l)) as [Heq|Hne].
  - assert (l0 = l) as -> by congruence. exists (f l). split_and!; [|done| |auto].
    + apply find_link_iff; [done|]. rewrite Hid, El', lookup_insert_eq. split; [done|congruence].
    + by apply Hc.
  - assert (Hnt : l_token l ≠ token).
    { intros Ht. apply Hne. eapply (si_token w Hinv); [done..|congruence]. }
    exists l0. rewrite (Hn Hnt). split_and!; [|done|lia|lia].
    apply find_link_iff; [done|]. by rewrite El', lookup_insert_ne by done.
Qed.

Lemma find_link_token d token l : find_link d token = Some l → l_token l = token.
Proof. intros Hf. apply row_find_Some in Hf as [Ht _]. by apply bool_decide_eq_true in Ht. Qed.

Lemma revoke_step token p t w :
  share_inv w →
  wp (revoke_share_link p t) (λ _ w', share_step token 0 w w') (λ _ w', share_step token 0 w w') w.
Proof.
  intros Hinv. assert (Hrefl : share_step token 0 w w) by (by apply links_same_step).
  unfold revoke_share_link, get_db, now, modify_db. wp_steps.
  destruct (find_link (w_db w) t) as [l|] eqn:Hf; [|by wp_step].
  apply wp_if; intros _; [by wp_step|]. apply wp_if; intros _; [by wp_step|].
  apply wp_if; intros Hr; [|by wp_step]. apply bool_decide_eq_true in Hr. wp_steps.
  pose proof (find_link_token _ _ _ Hf) as Ht.
  apply (alter_link_step token (with_revoked_at (w_now w)) l); try done; [by rewrite Ht|].
  intros _. simpl. lia.
Qed.

Lemma redeem_step token t w :
  share_inv w →
  wp (redeem_share_link t)
    (λ _ w', share_step token (if t == token then 1 else 0) w w')
    (λ _ w', share_step token 0 w w') w.
Proof.
  intros Hinv. assert (Hrefl : share_step token 0 w w) by (by apply links_same_step).
  assert (Hback : share_step token 0 w (World (w_db w) (w_blobs w) (w_now w) (w_next_uuid w)))
    by (by destruct w).
  apply wp_atomic. unfold get_db, now, modify_db. wp_steps.
  destruct (find_link (w_db w) t) as [l|] eqn:Hf; [|by wp_step].
  apply wp_if; intros Ha; [by wp_step|]. apply negb_false_iff in Ha. wp_steps. simpl.
  destruct (db_objects (w_db w) !! l_object_id l) as [o|]; [|by wp_step]. wp_steps.
  pose proof (find_link_token _ _ _ Hf) as Ht.
  apply (alter_link_step token count_download l); try done; [by rewrite Ht| | |].
  - split; simpl; [done..|lia].
  - rewrite Ht. intros ->. by rewrite bool_decide_true.
  - rewrite Ht. intros Hne. by rewrite bool_decide_false.
Qed.

Lemma wait_step token dt w :
  share_inv w → share_step token 0 w (run_share (Wait dt) w).2.
Proof. intros Hinv. apply links_same_step; [|done]. split; simpl; [done|lia|lia]. Qed.

(** The downloads a call yields, as the links see it. *)
Lemma run_share_step token c w :
  share_inv w →
  share_step token
    (match c, (run_share c w).1 with Redeem t, inr _ => if t == token then 1 else 0 | _, _ => 0 end)
    w (run_share c w).2.
Proof.
  intros Hinv. destruct c as [p bn path e m notes|p t|t|dt].
  - pose proof (create_step token p bn path e m notes w Hinv) as Hwp.
    unfold wp in Hwp. simpl. unfold bind. by destruct (create_share_link p bn path e m notes w) as [[?|?] ?].
  - pose proof (revoke_step token p t w Hinv) as Hwp.
    unfold wp in Hwp. simpl. unfold bind. by destruct (revoke_share_link p t w) as [[?|?] ?].
  - pose proof (redeem_step token t w Hinv) as Hwp.
    unfold wp in Hwp. simpl. unfold bind. by destruct (redeem_share_link t w) as [[?|?] ?].
  - by apply wait_step.
Qed.

(** A link that is no longer active never becomes active again. *)
Lemma inactive_stays t t' l l' :
  t ≤ t' → link_evolves l l' → is_active t l = false → is_active t' l' = false.
Proof.
  intros Ht [Em Ee _ Hr Hc] Ha. unfold is_active in *. rewrite Em, Ee.
  destruct (bool_decide_reflect (l_revoked_at l ≠ None)) as [Hrev|Hrev].
  { by rewrite bool_decide_true by auto. }
  destruct (bool_decide (l_revoked_at l' ≠ None)); [done|].
  destruct (l_expires_at l) as [e|]; simpl in *.
  - destruct (Z.leb_spec e t); [by rewrite (proj2 (Z.leb_le _ _)) by lia|].
    destruct (e <=? t'); [done|]. destruct (l_max_downloads l) as [m|]; simpl in *; [|done].
    destruct (Z.leb_spec m (l_download_count l)); [|done]. by rewrite (proj2 (Z.leb_le _ _)) by lia.
  - destruct (l_max_downloads l) as [m|]; simpl in *; [|done].
    destruct (Z.leb_spec m (l_download_count l)); [|done]. by rewrite (proj2 (Z.leb_le _ _)) by lia.
Qed.
Lemma active_below t l m : is_active t l = true → l_max_downloads l = Some m → l_download_count l < m.
Proof.
  unfold is_active. intros Ha Hm. rewrite Hm in Ha. simpl in Ha.
  destruct (bool_decide _); [done|]. destruct (from_option _ false (l_expires_at l)); [done|].
  destruct (Z.leb_spec m (l_download_count l)); [done|lia].
Qed.

(** ** Properties *)

(** C29: a link never yields more downloads than its cap: along any history of calls
    (creations, revocations, redemptions, waiting), the downloads already counted
    plus those the history yields stay within [max_downloads]. *)
Theorem downloads_within_cap : ∀ cs w token l m,
  share_inv w → find_link (w_db w) token = Some l → l_max_downloads l = Some m →
  l_download_count l ≤ m → l_download_count l + downloads token cs w ≤ m.
Proof.
  intros cs. induction cs as [|c cs IH]; intros w token l m Hinv Hf Hm Hle; [simpl; lia|].
  cbn [downloads]. pose proof (run_share_step token c w Hinv) as [Hinv' _ Hl].
  destruct (Hl l Hf) as (l' & Hf' & Hev & Hc & Ha). set (n := match c with Redeem _ => _ | _ => _ end) in *.
  assert (Hle' : l_download_count l' ≤ m).
  { destruct (decide (0 < n)) as [Hn|Hn]; [|lia].
    pose proof (active_below _ l m (Ha Hn) Hm).
    assert (n ≤ 1); [|lia]. unfold n. destruct c; try lia. destruct (run_share _ w).1; [lia|].
    case_bool_decide; lia. }
  specialize (IH _ token l' m Hinv' Hf' ltac:(rewrite (le_max _ _ Hev); done) Hle'). lia.
Qed.

(** A dead link stays dead: once a link is revoked, expired or exhausted, no
    later history of calls yields a single download. *)
Theorem dead_links_stay_dead : ∀ cs w token l,
  share_inv w → find_link (w_db w) token = Some l → is_active (w_now w) l = false →
  downloads token cs w = 0.
Proof.
  intros cs. induction cs as [|c cs IH]; intros w token l Hinv Hf Hdead; [done|].
  cbn [downloads]. pose proof (run_share_step token c w Hinv) as [Hinv' Hnow Hl].
  destruct (Hl l Hf) as (l' & Hf' & Hev & Hc & Ha). set (n := match c with Redeem _ => _ | _ => _ end) in *.
  assert (Hn : 0 ≤ n).
  { unfold n. destruct c; try lia. destruct (run_share _ w).1; [lia|]. case_bool_decide; lia. }
  assert (n = 0) as ->.
  { destruct (decide (0 < n)) as [Hpos|]; [|lia]. rewrite (Ha Hpos) in Hdead. done. }
  rewrite (IH _ token l'); [done|done|done|]. by eapply inactive_stays.
Qed.

Lemma wp_shareable_object p bucket_name path w :
  wp (shareable_object p bucket_name path)
    (λ bo w', p_company_id p = Some (b_company_id bo.1) ∧
       safe_object_path path = inr (o_name bo.2) ∧ o_bucket_id bo.2 = b_id bo.1 ∧
       (∃ i, db_objects (w_db w') !! i = Some bo.2) ∧
       can_access_path (w_now w') (w_db w') p bo.1 (o_name bo.2) (Some (o_id bo.2)) true false = true)
    (λ _ _, True) w.
Proof.
  unfold shareable_object, lift_sum, get_db. apply wp_bind.
  eapply wp_mono; [apply wp_get_accessible_bucket| |done]. intros b w1 (Hco & _).
  apply wp_bind. destruct (safe_object_path path) as [e|name] eqn:Hp; [by wp_step|].
  apply wp_ret. wp_steps. destruct (find_object (w_db w1) (b_id b) name) as [o|] eqn:Ho; [|by wp_step].
  apply find_object_Some in Ho as (Hb & <- & Hrow). apply wp_bind.
  apply wp_assert_can_access_path; [|done]. intros Hacc. by apply wp_ret.
Qed.

(** Creating a link requires write access to the object, and the link is born
    limited and active: it is stored with no downloads counted, an expiry in the
    future or a cap of at least one (or both). *)
Theorem create_share_link_sound : ∀ p bucket_name path expires_at max_downloads notes w,
  wp (create_share_link p bucket_name path expires_at max_downloads notes)
    (λ l w', ∃ o, safe_object_path path = inr (o_name o) ∧ l_object_id l = o_id o ∧
       p_company_id p = Some (l_company_id l) ∧ l_created_by_id l = p_user_id p ∧
       (∃ b, b_id b = o_bucket_id o ∧ p_company_id p = Some (b_company_id b) ∧
          can_access_path (w_now w') (w_db w') p b (o_name o) (Some (o_id o)) true false = true) ∧
       db_links (w_db w') !! l_id l = Some l ∧ is_active (w_now w') l = true ∧
       l_download_count l = 0 ∧ (l_expires_at l ≠ None ∨ l_max_downloads l ≠ None))
    (λ _ _, True) w.
Proof.
  intros p bn path e m notes w. unfold create_share_link. apply wp_bind.
  eapply wp_mono; [apply wp_shareable_object| |done].
  intros [b o] w1 (Hco & Hp & Hb & _ & Hacc). simpl in *. apply wp_bind.
  eapply wp_mono; [apply wp_parse_expires_at| |done]. intros expires w2 ->. apply wp_bind.
  eapply wp_mono; [apply wp_parse_max_downloads| |done]. intros cap w2 [-> Hm].
  apply wp_if; intros Hlim; [by wp_step|].
  unfold now. wp_steps. apply wp_if; intros Hexp; [by wp_step|].
  unfold uuid4, create_link_row, get_db, modify_db, wp, bind, gets, modify. simpl.
  destruct (row_exists _ _); simpl; [done|]. exists o. split_and!; try done.
  - exists b. split_and!; [done|done|exact Hacc].
  - by rewrite lookup_insert_eq.
  - unfold is_active. simpl. destruct cap as [cap|]; simpl in *; [|by rewrite Hexp].
    rewrite Hexp. by rewrite (proj2 (Z.leb_gt _ _)) by lia.
  - apply andb_false_iff in Hlim as [Hl|Hl]; apply bool_decide_eq_false in Hl; auto.
Qed.

(** Redeeming a token, on every branch: an unknown token is 404, an inactive link
    410, and neither changes the database; an active link counts exactly one download
    on its own row and hands out the object it was made for. *)
Theorem redeem_share_link_outcome : ∀ token w,
  share_inv w → (∀ l, find_link (w_db w) token = Some l → is_Some (db_objects (w_db w) !! l_object_id l)) →
  match find_link (w_db w) token with
  | None => redeem_share_link token w = (inl (StorageError 404 "share_not_found"), w)
  | Some l =>
      if is_active (w_now w) l then
        ∃ o o' w', redeem_share_link token w = (inr (count_download l, o'), w') ∧
          db_objects (w_db w) !! l_object_id l = Some o ∧
          o_storage_key o' = o_storage_key o ∧ o_name o' = o_name o ∧
          db_links (w_db w') = <[l_id l := count_download l]> (db_links (w_db w))
      else redeem_share_link token w = (inl (StorageError 410 "share_inactive"), w)
  end.
Proof.
  intros token w Hinv Hfk. unfold redeem_share_link, atomic, bind, get_db, now, gets.
  destruct (find_link (w_db w) token) as [l|] eqn:Hf; simpl; [|by destruct w].
  destruct (is_active (w_now w) l); simpl; [|by destruct w].
  destruct (Hfk l eq_refl) as [o Ho]. rewrite Ho. eexists o, _, _. split_and!; try done.
  apply find_link_iff in Hf as [Hl _]; [|done]. simpl. apply map_eq. intros j.
  destruct (decide (l_id l = j)) as [<-|Hj].
  - by rewrite lookup_alter_eq, lookup_insert_eq, Hl.
  - by rewrite lookup_alter_ne, lookup_insert_ne.
Qed.
End histories.

(** ** Witnesses: a link with a cap of one download *)
Module ShareDemo.
#[export] Existing Instance silent.
#[export] Instance demo_dates : DateParser := λ _, inr None.
#[export] Instance demo_tokens : TokenSource := λ i, "t" +:+ str_int (Z.of_N i).
Definition demo_object : sobject :=
  StorageObject 3 1 "a.txt" 7 (Some 5) 3 "etag" "text/plain" [] "objects/k" 1 0 0 None.
Definition demo_link : share_link := ObjectShareLink 4 "tok" 3 7 5 None (Some 1) 0 None 0 "".
Definition share_world : world :=
  World (set_links (λ _, {[ 4%N := demo_link ]}) (set_objects (λ _, {[ 3%N := demo_object ]}) empty_db))
    ∅ 10 9.
Lemma share_world_inv : share_inv share_world.
Proof.
  split; simpl.
  - intros i l [<- <-]%lookup_singleton_Some. done.
  - intros i l [<- <-]%lookup_singleton_Some. lia.
  - intros i j l l' [<- <-]%lookup_singleton_Some [<- <-]%lookup_singleton_Some. done.
Qed.
End ShareDemo.
Import ShareDemo.

Lemma downloads_within_cap_witness :
  downloads "tok" [Redeem "tok"; Redeem "tok"] share_world = 1 ∧
  0 + downloads "tok" [Redeem "tok"; Redeem "tok"] share_world ≤ 1.
Proof.
  split; [vm_compute; reflexivity|].
  apply (downloads_within_cap [Redeem "tok"; Redeem "tok"] share_world "tok" demo_link 1
           share_world_inv); [vm_compute; reflexivity|reflexivity|simpl; lia].
Defined.
Lemma dead_links_stay_dead_witness :
  let w := (redeem_share_link "tok" share_world).2 in
  is_active (w_now w) (count_download demo_link) = false ∧
  downloads "tok" [Wait 5; Redeem "tok"] w = 0.
Proof.
  intros w. split; [vm_compute; reflexivity|].
  apply (dead_links_stay_dead [Wait 5; Redeem "tok"] w "tok" (count_download demo_link)).
  - apply (st_inv "tok" 1 share_world w). exact (run_share_step "tok" (Redeem "tok") share_world share_world_inv).
  - vm_compute. reflexivity.
  - vm_compute. reflexivity.
Defined.
Lemma redeem_share_link_outcome_witness :
  ∃ o' w', redeem_share_link "tok" share_world = (inr (count_download demo_link, o'), w') ∧
    o_storage_key o' = "objects/k".
Proof.
  assert (Hfk : ∀ l, find_link (w_db share_world) "tok" = Some l →
            is_Some (db_objects (w_db share_world) !! l_object_id l)).
  { intros l Hf. vm_compute in Hf. injection Hf as <-. vm_compute. by eexists. }
  pose proof (redeem_share_link_outcome "tok" share_world share_world_inv Hfk) as Hout.
  change (find_link (w_db share_world) "tok") with (Some demo_link) in Hout.
  change (is_active (w_now share_world) demo_link) with true in Hout.
  destruct Hout as (o & o' & w' & Hrun & Ho & Hk & _). exists o', w'. split; [exact Hrun|].
  vm_compute in Ho. injection Ho as <-. exact Hk.
Defined.
