(* ===== verification/Grants.v ===== *)
(** * Grants: managing access grants ([apps/storage/grants.py]) *)
From S2P Require Import Prelude PyStr Models PyData Mime Signals Access Quotas Backends Services FileStore Folders Downloads StoreSpec Listing Shares.

Section grants.
Context `{Settings, Backend, Receivers, DateParser}.

(** [_resolve_object]: by id, else by name. *)
Definition resolve_object (d : db) (b : bucket) (resource_id : string) : option sobject :=
  let by_id :=
    uid ← parse_uuid resource_id; o ← db_objects d !! uid;
    if o_bucket_id o == b_id b then Some o else None in
  match by_id with
  | Some o => Some o
  | None => find_object d (b_id b) resource_id
  end.

(** [_parse_expires_at] of this module: the same text as that of [shares.py]. *)
Definition grant_expires_at (value : option json) : prog (option datetime) :=
  parse_expires_at value.

Definition normalize_resource_id (resource_type resource_id : string) : prog string :=
  let rid := strip_char "/" (strip resource_id) in
  if (resource_type in_ (resource_value <$> [RESOURCE_BUCKET; RESOURCE_FOLDER; RESOURCE_OBJECT]))
     && negb (truthy rid)
  then raise (StorageError 400 "invalid_resource")
  else ret rid.

Definition is_company_admin (p : principal) : bool := p_is_company_owner p || p_is_staff p.

Definition assert_can_manage_resource (p : principal) (bucket_name : string) (rt : resource_type)
    (resource_path : string) (admin : bool) : prog unit :=
  if is_company_admin p then get_accessible_bucket p bucket_name false false ;;; ret tt
  else
    b <- get_accessible_bucket p bucket_name false false ;;
    if rt == RESOURCE_BUCKET then assert_can_access_bucket p b (negb admin) admin
    else assert_can_access_path p b resource_path None (negb admin) admin.

(** The member of an enumeration with a given value. *)
Definition member_of {A} (value : A → string) (members : list A) (v : string) : option A :=
  List.find (λ x, value x == v) members.
Definition all_subjects := [SUBJECT_USER; SUBJECT_GROUP; SUBJECT_COMPANY].
Definition all_resources := [RESOURCE_BUCKET; RESOURCE_FOLDER; RESOURCE_OBJECT].
Definition all_permissions := [READ; WRITE; ADMIN].
Definition all_effects := [ALLOW; DENY].
Definition choice {A} (value : A → string) (members : list A) (v code : string) : prog A :=
  match member_of value members v with
  | Some x => ret x
  | None => raise (StorageError 400 code)
  end.

Definition need_admin (eff : effect) (perm : permission) : bool := (eff == DENY) || (perm == ADMIN).

Definition create_grant (p : principal) (data : list (string * json)) : prog grant :=
  company_id <- require_company_id p ;;
  let subject_type := strip (data_text "subject_type" "" data) in
  let subject_id := strip (data_text "subject_id" "" data) in
  let resource_type := strip (data_text "resource_type" "" data) in
  resource_id <- normalize_resource_id resource_type (data_text "resource_id" "" data) ;;
  let permission := strip (data_text "permission" (permission_value READ) data) in
  let effect := strip (data_text "effect" (effect_value ALLOW) data) in
  let notes := str_take 255 (data_text "notes" "" data) in
  expires_at <- grant_expires_at (dict_get "expires_at" data) ;;
  st <- choice subject_value all_subjects subject_type "invalid_subject_type" ;;
  if negb (truthy subject_id) then raise (StorageError 400 "invalid_subject_id")
  else
    rt <- choice resource_value all_resources resource_type "invalid_resource_type" ;;
    perm <- choice permission_value all_permissions permission "invalid_permission" ;;
    eff <- choice effect_value all_effects effect "invalid_effect" ;;
    let bucket_name :=
      if rt == RESOURCE_BUCKET then resource_id
      else str_or (strip (data_text "bucket" COMPANY_BUCKET_NAME data)) COMPANY_BUCKET_NAME in
    b <- get_accessible_bucket p bucket_name false false ;;
    assert_can_manage_resource p bucket_name rt resource_id (need_admin eff perm) ;;;
    when ((eff == ALLOW) && (st == SUBJECT_COMPANY) && (rt != RESOURCE_BUCKET))
      (assert_can_open_to_company company_id bucket_name resource_id) ;;;
    target <- match rt with
              | RESOURCE_OBJECT =>
                  d <- get_db ;;
                  match resolve_object d b resource_id with
                  | Some o => ret (Some o)
                  | None => raise (StorageError 404 "object_not_found")
                  end
              | RESOURCE_FOLDER =>
                  o <- ensure_folder_marker b resource_id (Some (p_user_id p)) ;; ret (Some o)
              | RESOURCE_BUCKET => ret None
              end ;;
    create_grant_row company_id (b_id b) (o_id <$> target) st subject_id rt perm eff
      (Some (p_user_id p)) expires_at notes.

(** ** Listing *)
Definition newest_first (g g' : grant) : bool := g_created_at g' <=? g_created_at g.
(** [object__name=name]: no match without an object. *)
Definition object_named (d : db) (g : grant) (name : string) : bool :=
  from_option (λ o, o_name o == name) false (grant_object d g).
Definition bucket_named (d : db) (g : grant) (name : string) : bool :=
  from_option (λ b, b_name b == name) false (db_buckets d !! g_bucket_id g).
Definition grant_on_resource (d : db) (rt : option string) (resource_id : string) (g : grant) : bool :=
  let rid := strip_char "/" (strip resource_id) in
  let whole_bucket := bucket_named d g rid && bool_decide (g_object_id g = None) in
  if rt == Some "folder" then object_named d g (folder_placeholder_path rid)
  else if rt == Some "object" then
    object_named d g rid ||
    from_option (λ uid, g_object_id g == Some uid) false (parse_uuid rid)
  else if rt == Some "bucket" then whole_bucket
  else object_named d g rid || object_named d g (folder_placeholder_path rid) || whole_bucket.
(** The grants a caller who administers nothing may see. *)
Definition concerns (p : principal) (company_id : Z) (g : grant) : bool :=
  (g_created_by_id g == Some (p_user_id p)) ||
  ((g_subject_type g == SUBJECT_USER) && (g_subject_id g == str_int (p_user_id p))) ||
  ((g_subject_type g == SUBJECT_COMPANY) && (g_subject_id g == str_int company_id)).
Definition given (v : option string) : bool := from_option truthy false v.

Definition listed_grant (d : db) (p : principal) (company_id : Z)
    (resource_type resource_id bucket : option string) (g : grant) : bool :=
  (g_company_id g == company_id) &&
  (negb (given resource_type) || (Some (resource_value (g_resource_type g)) == resource_type)) &&
  (negb (given bucket) || bucket_named d g (default "" bucket)) &&
  (negb (given resource_id) || grant_on_resource d resource_type (default "" resource_id) g) &&
  (is_company_admin p || concerns p company_id g).

Definition list_grants (p : principal) (resource_type resource_id bucket : option string) :
    prog (list (list (string * json))) :=
  company_id <- require_company_id p ;;
  d <- get_db ;;
  ret (serialize_grant d <$>
       filter (λ g, listed_grant d p company_id resource_type resource_id bucket g = true)
         (sort_by newest_first (rows (db_grants d)))).

Definition list_grants_effective (p : principal) (resource_type resource_id bucket : option string) :
    prog (list (list (string * json)) * option string) :=
  company_id <- require_company_id p ;;
  let bucket_name :=
    str_or (strip (str_or (default "" bucket) COMPANY_BUCKET_NAME)) COMPANY_BUCKET_NAME in
  gs <- list_grants p resource_type resource_id bucket ;;
  let path := strip_char "/" (strip (default "" resource_id)) in
  t <- now ;; d <- get_db ;;
  ret (gs, if truthy path then nearest_private_ancestor_folder t d company_id bucket_name path
           else None).

(** ** Deletion *)
Definition delete_grant (p : principal) (grant_id : uuid) : prog unit :=
  company_id <- require_company_id p ;;
  d <- get_db ;;
  match db_grants d !! grant_id with
  | None => raise (StorageError 404 "grant_not_found")
  | Some g =>
      if g_company_id g != company_id then raise (StorageError 404 "grant_not_found")
      else if negb (is_company_admin p || (g_created_by_id g == Some (p_user_id p)))
      then raise (StorageError 403 "grant_delete_denied")
      else
        let bucket_name := from_option b_name "" (db_buckets d !! g_bucket_id g) in
        let path := resource_path d g in
        when (negb (is_company_admin p))
          (assert_can_manage_resource p bucket_name (g_resource_type g) path (g_effect g == DENY)) ;;;
        when ((g_effect g == DENY) && (g_subject_type g == SUBJECT_COMPANY) &&
              (g_permission g == READ) && (g_resource_type g != RESOURCE_BUCKET))
          (assert_can_open_to_company company_id bucket_name path) ;;;
        modify_db (set_grants (delete grant_id))
  end.
End grants.

(** ** What a new grant means *)
(** The company's bucket exists and is in order, as the first request of a member
    leaves it: from then on looking a bucket up changes nothing. *)
Definition provisioned (w : world) (c : Z) : Prop :=
  ∃ b, find_bucket (w_db w) c COMPANY_BUCKET_NAME = Some b ∧ b_kind b = KIND_COMPANY ∧
       b_public b = false.
(** The resource and the bucket a request names. *)
Definition requested_bucket (data : list (string * json)) (rt : resource_type) : string :=
  if rt == RESOURCE_BUCKET then strip_char "/" (strip (data_text "resource_id" "" data))
  else str_or (strip (data_text "bucket" COMPANY_BUCKET_NAME data)) COMPANY_BUCKET_NAME.
Definition requested_resource (data : list (string * json)) : string :=
  strip_char "/" (strip (data_text "resource_id" "" data)).
(** Authority over a resource. *)
Definition may_manage (w : world) (p : principal) (b : bucket) (rt : resource_type) (rid : string)
    (admin : bool) : Prop :=
  if rt == RESOURCE_BUCKET then can_access_bucket (w_now w) (w_db w) p b (negb admin) admin = true
  else can_access_path (w_now w) (w_db w) p b rid None (negb admin) admin = true.
(** No private folder above the resource. *)
Definition open_above (w : world) (cid : Z) (bucket_name rid : string) : Prop :=
  ∀ parent, nearest_private_ancestor_folder (w_now w) (w_db w) cid bucket_name rid = Some parent →
            parent = "".
(** The row a grant points at. *)
Definition points_at (w w' : world) (b : bucket) (rid : string) (g : grant) : Prop :=
  match g_resource_type g with
  | RESOURCE_BUCKET => g_object_id g = None
  | RESOURCE_FOLDER => ∃ o, g_object_id g = Some (o_id o) ∧ o_bucket_id o = b_id b ∧
      o_name o = folder_placeholder_path rid ∧ ∃ i, db_objects (w_db w') !! i = Some o
  | RESOURCE_OBJECT => ∃ o i, g_object_id g = Some (o_id o) ∧ o_bucket_id o = b_id b ∧
      db_objects (w_db w) !! i = Some o ∧ (o_name o = rid ∨ parse_uuid rid = Some i)
  end.
(** The rows say what the request asked for. *)
Record as_requested (data : list (string * json)) (g : grant) : Prop := AsRequested {
  ar_subject : subject_value (g_subject_type g) = strip (data_text "subject_type" "" data);
  ar_subject_id : g_subject_id g = strip (data_text "subject_id" "" data);
  ar_resource : resource_value (g_resource_type g) = strip (data_text "resource_type" "" data);
  ar_permission : permission_value (g_permission g) =
    strip (data_text "permission" (permission_value READ) data);
  ar_effect : effect_value (g_effect g) = strip (data_text "effect" (effect_value ALLOW) data) }.
(** The conditions under which [g] comes into being: all of them read the bucket, the
    grants and the paths of the world the request met. *)
Record authorized (w w' : world) (p : principal) (data : list (string * json)) (g : grant)
    (b : bucket) : Prop := Authorized {
  au_company : p_company_id p = Some (b_company_id b) ∧ g_company_id g = b_company_id b;
  au_bucket : g_bucket_id g = b_id b ∧
    find_bucket (w_db w) (b_company_id b) (requested_bucket data (g_resource_type g)) = Some b ∧
    can_access_bucket (w_now w) (w_db w) p b false false = true;
  au_creator : g_created_by_id g = Some (p_user_id p);
  au_requested : as_requested data g;
  au_manage : is_company_admin p = true ∨
    may_manage w p b (g_resource_type g) (requested_resource data)
      (need_admin (g_effect g) (g_permission g));
  au_open : g_effect g = ALLOW → g_subject_type g = SUBJECT_COMPANY →
    g_resource_type g ≠ RESOURCE_BUCKET →
    open_above w (b_company_id b) (b_name b) (requested_resource data);
  au_target : points_at w w' b (requested_resource data) g }.

(** ** Lemmas *)
Section lemmas.
Context `{Settings, Backend, Receivers, !ReceiverLaws, DateParser}.

Lemma wp_choice {A} (value : A → string) members v code w (Q : A → world → Prop) (R : exn → world → Prop) :
  (∀ x, value x = v → Q x w) → (∀ e, R e w) → wp (choice value members v code) Q R w.
Proof.
  intros HQ HR. unfold choice. apply wp_option; [intros x Hx|intros _; apply wp_raise, HR].
  apply wp_ret, HQ. apply List.find_some in Hx as [_ Hx]. by apply bool_decide_eq_true in Hx.
Qed.

Lemma wp_bucket_here c p name write admin w (Q : bucket → world → Prop) (R : exn → world → Prop) :
  provisioned w c → p_company_id p = Some c →
  (∀ b, find_bucket (w_db w) c name = Some b →
     can_access_bucket (w_now w) (w_db w) p b write admin = true → Q b w) →
  (∀ e, R e w) → wp (get_accessible_bucket p name write admin) Q R w.
Proof.
  intros (b0 & Hb0 & Hk & Hpub) Hp HQ HR.
  unfold get_accessible_bucket, require_company_id, ensure_company_bucket, get_db.
  rewrite Hp. wp_steps. rewrite Hb0. wp_steps.
  rewrite Hk, Hpub, bool_decide_true by done. cbn [negb orb]. wp_steps.
  destruct (find_bucket (w_db w) c name) as [b|] eqn:Hb; [|wp_steps; apply HR]. wp_steps.
  apply wp_assert_can_access_bucket; [|done]. intros Hacc. apply wp_ret. by apply HQ.
Qed.

Lemma wp_assert_can_manage c p bucket_name rt rid admin w :
  provisioned w c → p_company_id p = Some c →
  wp (assert_can_manage_resource p bucket_name rt rid admin)
    (λ _ w', w' = w ∧ ∃ b, find_bucket (w_db w) c bucket_name = Some b ∧
       (is_company_admin p = true ∨ may_manage w p b rt rid admin))
    (λ _ w', w' = w) w.
Proof.
  intros Hw Hp. unfold assert_can_manage_resource, may_manage.
  apply wp_if; intros Ha; apply wp_bind; apply (wp_bucket_here c); try done; intros b Hb _.
  - apply wp_ret. split; [done|]. exists b. auto.
  - destruct (rt == RESOURCE_BUCKET).
    + apply wp_assert_can_access_bucket; [|done]. intros Hok. split; [done|]. exists b. auto.
    + apply wp_assert_can_access_path; [|done]. intros Hok. split; [done|]. exists b. auto.
Qed.

Lemma wp_assert_can_open cid bn rid w (Q : unit → world → Prop) (R : exn → world → Prop) :
  (open_above w cid bn rid → Q tt w) → (∀ e, R e w) → wp (assert_can_open_to_company cid bn rid) Q R w.
Proof.
  intros HQ HR. unfold assert_can_open_to_company, now, get_db. wp_steps. unfold open_above in HQ.
  destruct (nearest_private_ancestor_folder _ _ _ _ _) as [parent|] eqn:Hp.
  - apply wp_if; intros Ht; [by apply wp_raise|]. apply wp_ret, HQ. intros q [= <-].
    by apply negb_false_iff, bool_decide_eq_true in Ht.
  - apply wp_ret, HQ. done.
Qed.

Lemma resolve_object_Some d b rid o :
  resolve_object d b rid = Some o →
  o_bucket_id o = b_id b ∧ ∃ i, db_objects d !! i = Some o ∧ (o_name o = rid ∨ parse_uuid rid = Some i).
Proof.
  unfold resolve_object. intros Hr.
  destruct (parse_uuid rid) as [i|] eqn:Hp; simpl in Hr.
  - destruct (db_objects d !! i) as [o'|] eqn:Ho; simpl in Hr.
    + destruct (bool_decide_reflect (o_bucket_id o' = b_id b)) as [Hb|]; simpl in Hr.
      * injection Hr as <-. eauto.
      * apply find_object_Some in Hr as (?&?&i'&?). eauto.
    + apply find_object_Some in Hr as (?&?&i'&?). eauto.
  - apply find_object_Some in Hr as (?&?&i'&?). eauto.
Qed.

Lemma wp_marker_target b rid owner w :
  wp (ensure_folder_marker b rid owner)
    (λ o w', o_bucket_id o = b_id b ∧ o_name o = folder_placeholder_path rid ∧
             (∃ i, db_objects (w_db w') !! i = Some o) ∧ db_grants (w_db w') = db_grants (w_db w))
    (λ _ w', db_grants (w_db w') = db_grants (w_db w)) w.
Proof.
  unfold ensure_folder_marker, get_db. wp_steps.
  apply wp_option; [intros o Ho|intros _].
  - apply wp_ret. by apply find_object_Some in Ho as (? & ? & ?).
  - set (I := λ w' : world, w_db w' = w_db w).
    apply wp_bind. eapply wp_mono; [apply (wp_preserves I); [by intros ?|done]| |].
    2: { intros e w1 Hw1. by rewrite Hw1. }
    intros i w1 Hw1. apply wp_bind. eapply wp_mono; [apply (wp_preserves I); [|exact Hw1]| |].
    + apply preserves_try; [|by intros e m [= <-]; apply preserves_raise].
      apply preserves_bind; [|intros; apply preserves_ret]. intros w2 Hw2. unfold default_storage_save.
      by destruct (storage_save _ _ _) as [[e|n] m].
    + intros [] w2 Hw2. unfold now, create_object_row, get_db, modify_db. wp_steps.
      apply wp_if; intros _; [apply wp_raise; by rewrite Hw2|]. wp_steps. split_and!; [done|done| |simpl; by rewrite Hw2].
      eexists. simpl. apply lookup_insert_eq.
    + intros e w2 Hw2. by rewrite Hw2.
Qed.

Lemma wp_new_grant cid bid oid st sid rt perm eff by_ exp notes w :
  wp (create_grant_row cid bid oid st sid rt perm eff by_ exp notes)
    (λ g w', (∃ i t, g = Grant i cid bid oid st sid rt perm eff by_ t t exp notes) ∧
       db_grants (w_db w') = <[g_id g := g]> (db_grants (w_db w)) ∧
       db_objects (w_db w') = db_objects (w_db w))
    (λ _ w', db_grants (w_db w') = db_grants (w_db w)) w.
Proof.
  unfold create_grant_row, uuid4, now, modify_db, wp, bind, gets, modify, ret, raise. simpl.
  case_bool_decide; simpl; [|done]. split_and!; [by eexists _, _|done|done].
Qed.
End lemmas.

(** *** The target of a grant *)
Section create.
Context `{Settings, Backend, Receivers, !ReceiverLaws, DateParser}.

Definition grant_target (b : bucket) (rt : resource_type) (rid : string) (uid : Z) :
    prog (option sobject) :=
  match rt with
  | RESOURCE_OBJECT =>
      d <- get_db ;;
      match resolve_object d b rid with
      | Some o => ret (Some o)
      | None => raise (StorageError 404 "object_not_found")
      end
  | RESOURCE_FOLDER => o <- ensure_folder_marker b rid (Some uid) ;; ret (Some o)
  | RESOURCE_BUCKET => ret None
  end.

Lemma wp_grant_target b rt rid uid w1 :
  wp (grant_target b rt rid uid)
    (λ o w2, db_grants (w_db w2) = db_grants (w_db w1) ∧
       ∀ g w3, g_resource_type g = rt → g_object_id g = o_id <$> o →
         db_objects (w_db w3) = db_objects (w_db w2) → points_at w1 w3 b rid g)
    (λ _ w2, db_grants (w_db w2) = db_grants (w_db w1)) w1.
Proof.
  unfold grant_target, points_at. destruct rt.
  - apply wp_ret. split; [done|]. intros g w3 -> ->. done.
  - apply wp_bind. eapply wp_mono; [apply wp_marker_target| |done].
    intros o w2 (Hb & Hn & (i & Hi) & Hg). apply wp_ret. split; [done|]. intros g w3 -> -> Hw3. exists o.
    rewrite Hw3. eauto.
  - unfold get_db. wp_steps. apply wp_option; [|done]. intros o Ho. apply wp_ret. split; [done|].
    apply resolve_object_Some in Ho as (Hb & i & Hi & Hn). intros g w3 -> -> _. exists o, i. eauto.
Qed.

Lemma wp_create_grant c p data w :
  provisioned w c → p_company_id p = Some c →
  wp (create_grant p data)
    (λ g w', db_grants (w_db w') = <[g_id g := g]> (db_grants (w_db w)) ∧
       ∃ b, authorized w w' p data g b)
    (λ _ w', db_grants (w_db w') = db_grants (w_db w)) w.
Proof.
  intros Hw Hp. unfold create_grant. cbv zeta. apply wp_bind. unfold require_company_id. rewrite Hp.
  apply wp_ret. apply wp_bind. unfold normalize_resource_id.
  apply wp_if; intros _; [done|]. apply wp_ret. fold (requested_resource data).
  apply wp_bind. eapply wp_mono; [apply wp_parse_expires_at| |by intros e w0 ->]. intros expires w0 ->.
  apply wp_bind, wp_choice; [intros st Hst|done].
  apply wp_if; intros _; [done|]. apply wp_bind, wp_choice; [intros rt Hrt|done].
  apply wp_bind, wp_choice; [intros perm Hperm|done]. apply wp_bind, wp_choice; [intros eff Heff|done].
  set (rid := requested_resource data). fold (requested_bucket data rt). set (bn := requested_bucket data rt).
  apply wp_bind, (wp_bucket_here c); [done..| |done]. intros b Hb Hacc. apply wp_bind.
  eapply wp_mono; [by apply (wp_assert_can_manage c)| |by intros e w1 ->].
  intros [] w1 (-> & b' & Hb' & Hmanage). assert (b' = b) as -> by congruence.
  pose proof (find_bucket_Some _ _ _ _ Hb) as (Hbc & Hbn & _).
  apply wp_bind. set (chk := (eff == ALLOW) && (st == SUBJECT_COMPANY) && (rt != RESOURCE_BUCKET)).
  assert (Hopen : wp (when chk (assert_can_open_to_company c bn rid))
    (λ _ w', w' = w ∧ (chk = true → open_above w c bn rid)) (λ _ w', w' = w) w).
  { apply wp_when; [|by intros ->]. intros _. by apply wp_assert_can_open. }
  eapply wp_mono; [exact Hopen| |by intros e w1 ->]. intros [] ? [-> Hop].
  apply wp_bind. fold (grant_target b rt rid (p_user_id p)).
  eapply wp_mono; [apply wp_grant_target| |done]. intros o w2 [Hg2 Ht].
  eapply wp_mono; [apply wp_new_grant| |by intros e w3 ->].
  intros g w3 ((i & t & ->) & Hg & Ho). split; [by rewrite Hg, Hg2|]. exists b.
  split; [| |done| |exact Hmanage| |by apply Ht].
  - rewrite Hbc. done.
  - rewrite Hbc. done.
  - by split.
  - intros He Hs Hr. rewrite Hbc, Hbn. apply Hop. unfold chk.
    change (eff = ALLOW) in He. change (st = SUBJECT_COMPANY) in Hs.
    change (rt ≠ RESOURCE_BUCKET) in Hr. by rewrite He, Hs, (bool_decide_false _ Hr).
Qed.
End create.

(** *** Deleting a grant *)
Section delete.
Context `{Receivers, !ReceiverLaws}.

Lemma wp_delete_grant c p id w :
  provisioned w c → p_company_id p = Some c →
  wp (delete_grant p id)
    (λ _ w', w' = set_db (set_grants (delete id)) w ∧ ∃ g, db_grants (w_db w) !! id = Some g ∧
        g_company_id g = c ∧
        (is_company_admin p = true ∨
         (g_created_by_id g = Some (p_user_id p) ∧
          ∃ b, find_bucket (w_db w) c (from_option b_name "" (db_buckets (w_db w) !! g_bucket_id g)) = Some b ∧
            may_manage w p b (g_resource_type g) (resource_path (w_db w) g) (g_effect g == DENY))) ∧
        (g_effect g = DENY → g_subject_type g = SUBJECT_COMPANY → g_permission g = READ →
         g_resource_type g ≠ RESOURCE_BUCKET →
         open_above w c (from_option b_name "" (db_buckets (w_db w) !! g_bucket_id g))
           (resource_path (w_db w) g)))
    (λ _ w', w' = w) w.
Proof.
  intros Hw Hp. unfold delete_grant, require_company_id, get_db, modify_db. rewrite Hp. wp_steps.
  apply wp_option; [|done]. intros g Hg.
  apply wp_if; intros Hco; [done|]. apply negb_false_iff, bool_decide_eq_true in Hco.
  apply wp_if; intros Hadm; [done|]. apply negb_false_iff, orb_true_iff in Hadm.
  set (bn := from_option b_name _ _). set (path := resource_path _ g).
  assert (Hmanage : wp (when (negb (is_company_admin p))
      (assert_can_manage_resource p bn (g_resource_type g) path (g_effect g == DENY)))
    (λ _ w', w' = w ∧ (is_company_admin p = true ∨
       ∃ b, find_bucket (w_db w) c bn = Some b ∧ may_manage w p b (g_resource_type g) path (g_effect g == DENY)))
    (λ _ w', w' = w) w).
  { apply wp_when; destruct (is_company_admin p) eqn:Ha; intros Hn; try done; [|by split; [|left]].
    eapply wp_mono; [by apply (wp_assert_can_manage c)| |done].
    intros [] w1 (-> & b & Hb & Hm). split; [done|]. right. exists b. split; [done|].
    by destruct Hm; [congruence|]. }
  apply wp_bind. eapply wp_mono; [exact Hmanage| |done]. intros [] ? [-> Hm]. apply wp_bind.
  set (chk := _ && _ && _ && _).
  assert (Hopen : wp (when chk (assert_can_open_to_company c bn path))
    (λ _ w', w' = w ∧ (chk = true → open_above w c bn path)) (λ _ w', w' = w) w).
  { apply wp_when; [|by intros ->]. intros _. by apply wp_assert_can_open. }
  eapply wp_mono; [exact Hopen| |done]. intros [] ? [-> Hop].
  wp_steps. split; [done|]. exists g. split_and!; [done|done| |].
  - destruct Hm as [Ha|Hm]; [by left|]. destruct Hadm as [Ha|Hcr]; [by left|right].
    apply bool_decide_eq_true in Hcr. by split.
  - intros He Hs Hpm Hrt. apply Hop. unfold chk. by rewrite He, Hs, Hpm, (bool_decide_false _ Hrt).
Qed.
End delete.

(** ** Properties *)

(** C28: who may grant what.  In a company whose bucket is in order, a request for a grant
    that succeeds adds one row, and that row is what the request asked for: its subject,
    resource, permission and effect, in the caller's company, on the bucket of that
    company that the request names, which the caller may read, and signed by the
    caller.  By the grants and paths that the request met, the caller is an owner or
    staff, or holds write access to that bucket, folder or path there, or admin access
    when the grant denies or gives admin; a company-wide grant never opens a path
    below a private folder; and the grant points at the row the request names: the
    folder's marker, or the object with that path or that id.  A request that fails
    changes no grant. *)
Theorem create_grant_authorized `{Settings, Backend, Receivers, !ReceiverLaws, DateParser} :
  ∀ c p data w, provisioned w c → p_company_id p = Some c →
  let '(r, w') := create_grant p data w in
  match r with
  | inr g => db_grants (w_db w') = <[g_id g := g]> (db_grants (w_db w)) ∧
             ∃ b, authorized w w' p data g b
  | inl _ => db_grants (w_db w') = db_grants (w_db w)
  end.
Proof.
  intros c p data w Hw Hp. pose proof (wp_create_grant c p data w Hw Hp) as Hwp.
  unfold wp in Hwp. by destruct (create_grant p data w) as [[e|g] w'].
Qed.

(** Deleting a grant removes that row and changes nothing else.  It succeeds only for
    owners and staff, or for the creator of the grant who may still manage the resource;
    a company-wide read denial below a private folder stays.  A refused deletion
    changes nothing at all. *)
Theorem delete_grant_outcome `{Receivers, !ReceiverLaws} : ∀ c p id w,
  provisioned w c → p_company_id p = Some c →
  let '(r, w') := delete_grant p id w in
  match r with
  | inr _ => w' = set_db (set_grants (delete id)) w ∧ ∃ g, db_grants (w_db w) !! id = Some g ∧
        g_company_id g = c ∧
        (is_company_admin p = true ∨
         (g_created_by_id g = Some (p_user_id p) ∧
          ∃ b, find_bucket (w_db w) c (from_option b_name "" (db_buckets (w_db w) !! g_bucket_id g)) = Some b ∧
            may_manage w p b (g_resource_type g) (resource_path (w_db w) g) (g_effect g == DENY))) ∧
        (g_effect g = DENY → g_subject_type g = SUBJECT_COMPANY → g_permission g = READ →
         g_resource_type g ≠ RESOURCE_BUCKET →
         open_above w c (from_option b_name "" (db_buckets (w_db w) !! g_bucket_id g))
           (resource_path (w_db w) g))
  | inl _ => w' = w
  end.
Proof.
  intros c p id w Hw Hp. pose proof (wp_delete_grant c p id w Hw Hp) as Hwp. unfold wp in Hwp.
  by destruct (delete_grant p id w) as [[e|[]] w'].
Qed.

(** ** The properties on a concrete company

    Alice uploads a file, which becomes private to her; Bob is a member of the same
    company. *)
Import StoreSpec.Demo.
Module GrantsDemo.
#[export] Instance no_dates : DateParser := λ _, inr None.
Definition bob : principal := StoragePrincipal 6 (Some 7) "b@x.io" "bob" false false false.
Definition file : sobject :=
  default (StorageObject 0 0 "" 0 None 0 "" "" [] "" 0 0 0 None)
    (find_object (w_db demo_world1) 1 "docs/a.txt").
Definition private_world : world := (apply_default_private_on_create file (Some 5) false demo_world1).2.
Definition bob_can (write : bool) (w : world) : bool :=
  can_access_path (w_now w) (w_db w) bob demo_bucket (o_name file) (Some (o_id file)) write false.
Definition share_docs : list (string * json) :=
  [ ("subject_type", JStr "user"); ("subject_id", JStr "6"); ("resource_type", JStr "folder");
    ("resource_id", JStr "/docs/"); ("permission", JStr "read") ].
(** Bob asks for a grant on the file to himself, by path and by id. *)
Definition ask (resource : string) : list (string * json) :=
  [ ("subject_type", JStr "user"); ("subject_id", JStr "6"); ("resource_type", JStr "object");
    ("resource_id", JStr resource); ("permission", JStr "write") ].
End GrantsDemo.
Import GrantsDemo.

Lemma private_provisioned : provisioned private_world 7.
Proof. exists demo_bucket. vm_compute. auto. Qed.

Lemma create_grant_authorized_witness :
  let '(r, w') := create_grant alice share_docs private_world in
  match r with
  | inr g => db_grants (w_db w') = <[g_id g := g]> (db_grants (w_db private_world)) ∧
             ∃ b, authorized private_world w' alice share_docs g b
  | inl _ => False
  end.
Proof.
  pose proof (create_grant_authorized 7 alice share_docs private_world private_provisioned eq_refl) as Hc.
  destruct (create_grant alice share_docs private_world) as [[e|g] w'] eqn:Hrun; [|exact Hc].
  vm_compute in Hrun. discriminate Hrun.
Defined.

Lemma delete_grant_outcome_witness :
  let '(r, w') := delete_grant bob 3 private_world in
  match r with inr _ => False | inl _ => w' = private_world end.
Proof.
  pose proof (delete_grant_outcome 7 bob 3 private_world private_provisioned eq_refl) as Hd.
  destruct (delete_grant bob 3 private_world) as [[e|[]] w'] eqn:Hrun; [exact Hd|].
  vm_compute in Hrun. discriminate Hrun.
Defined.

(** The id of an object is checked as if it were a path: by path the request is
    refused, by id it is granted. *)
Example grant_by_id_escapes_acl :
  bob_can false private_world = false ∧
  (create_grant bob (ask (o_name file)) private_world).1 = inl (StorageError 403 "path_access_denied") ∧
  bob_can true (create_grant bob (ask (uuid_str (o_id file))) private_world).2 = true.
Proof. vm_compute. auto. Qed.
