(* ===== verification/Views.v ===== *)
(** * Views: the REST handlers ([apps/storage/views.py], routed by [apps/storage/urls.py])

    A handler is a program from a request to a response.  An exception it does not
    catch propagates ([inl]): the framework answers 500.  Message texts are not
    modelled.  The body of a request is the value the parser of the framework
    returns; the decoded [x-metadata] header, when it is an object, is a field of the
    request. *)
From S2P Require Import Prelude PyStr Models PyData Mime Signals Access Quotas Backends Services FileStore Folders Downloads StoreSpec Listing Shares Grants.

(** ** Requests and responses *)
Inductive content := CJson (v : json) | CFile (d : download) | CEmpty.
Record response := Response { rs_status : Z; rs_content : content }.

Record upload_file := UploadFile { uf_content : bytes; uf_content_type : option string }.
Record http_request := HttpRequest {
  rq_user : option principal;                 (** [None]: not authenticated *)
  rq_data : json;
  rq_query : list (string * string);
  rq_headers : list (string * string);
  rq_metadata : json;                         (** the header [x-metadata], parsed; [JNull] when that fails *)
  rq_content_type : string;
  rq_files : list (string * upload_file);     (** multipart files and fields *)
  rq_fields : list (string * string);
  rq_body : bytes }.

(** [QueryDict.get] returns the last value of a key. *)
Definition last_get {V} (k : string) (l : list (string * V)) : option V := dict_get k (rev l).

Definition error_response (status : Z) (code : string) : response :=
  Response status (CJson (JObj [("statusCode", JStr (str_int status)); ("error", JStr code)])).
Definition error_message (status : Z) (code : string) : response := error_response status code.
Definition ok (v : json) : response := Response 200 (CJson v).

(** [try: a = m except StorageError: return _error(exc) (except ValueError: return
    _error_message(str(exc)))] followed by the rest of the handler. *)
Definition guarded {A} (value_errors : bool) (m : prog A) (k : A → prog response) : prog response :=
  r <- try_except (a <- m ;; ret (inr a))
         (λ e, match e with
               | StorageError status code => Some (ret (inl (error_response status code)))
               | ValueError => if value_errors then Some (ret (inl (error_message 400 "Error")))
                               else None
               | _ => None
               end) ;;
  match r with inl resp => ret resp | inr a => k a end.

(** [permission_classes = [IsAuthenticatedPrincipal]] and [[.., IsStaffOrCompanyOwner]]. *)
Definition with_principal (rq : http_request) (k : principal → prog response) : prog response :=
  match rq_user rq with
  | None => ret (Response 401 (CJson (JObj [])))
  | Some p => k p
  end.
Definition is_staff_or_company_owner (p : principal) : bool := p_is_staff p || p_is_company_owner p.
Definition with_administrator (rq : http_request) (k : principal → prog response) : prog response :=
  with_principal rq (λ p,
    if is_staff_or_company_owner p then k p else ret (Response 403 (CJson (JObj [])))).

(** ** Reading JSON bodies *)
(** [request.data if isinstance(request.data, dict) else {}] *)
Definition body_dict (rq : http_request) : list (string * json) :=
  match rq_data rq with JObj l => l | _ => [] end.
(** [a or b] *)
Definition json_or (a b : json) : json := if json_truthy a then a else b.
(** [body.get(k)] *)
Definition jget (k : string) (l : list (string * json)) : json := default JNull (dict_get k l).
(** A value used as text: other types lack the method that is called on them. *)
Definition as_text (v : json) : prog string :=
  match v with JStr s => ret s | _ => raise AttributeError end.
Definition as_int (v : json) : prog Z := lift_sum (py_int v).
Definition json_list (l : list (list (string * json))) : json := JList (JObj <$> l).

Section views.
Context `{Settings, Backend, MimeTypes, StrictMimeTypes, StorageUrl, Receivers, DateParser, TokenSource}.

(** ** Buckets *)
Definition BucketListCreateView_get (rq : http_request) : prog response :=
  with_principal rq (λ p,
    guarded false (list_accessible_buckets p) (λ bs,
      t <- now ;; d <- get_db ;;
      ret (ok (json_list ((λ b, serialize_bucket t d b (Some p)) <$> bs))))).
Definition BucketListCreateView_post (rq : http_request) : prog response :=
  with_principal rq (λ _, ret (error_message 403 "bucket_create_disabled")).
Definition BucketDetailView_get (bucket_id : string) (rq : http_request) : prog response :=
  with_principal rq (λ p,
    guarded false (get_accessible_bucket p bucket_id false false) (λ b,
      t <- now ;; d <- get_db ;; ret (ok (JObj (serialize_bucket t d b (Some p)))))).
Definition BucketDetailView_put (bucket_id : string) (rq : http_request) : prog response :=
  with_principal rq (λ _, ret (error_message 403 "bucket_immutable")).
Definition BucketDetailView_delete (bucket_id : string) (rq : http_request) : prog response :=
  with_principal rq (λ _, ret (error_message 403 "bucket_immutable")).
Definition BucketEmptyView_post (bucket_id : string) (rq : http_request) : prog response :=
  with_principal rq (λ p,
    guarded false
      (b <- get_accessible_bucket p bucket_id true false ;; empty_bucket b p (rq_user rq))
      (λ _, ret (ok (JBool true)))).

(** ** Objects *)
(** The [download] query parameter: as an attachment, and under which name. *)
Definition download_params (rq : http_request) : bool * option string :=
  let d := last_get "download" (rq_query rq) in
  (bool_decide (is_Some d),
   match d with
   | None => None
   | Some n => if n in_ [""; "true"; "1"] then None else Some n
   end).

Definition ObjectResourceView_get (bucket_id object_path : string) (rq : http_request) : prog response :=
  with_principal rq (λ p,
    guarded true (get_accessible_object p bucket_id object_path false false) (λ bo,
      let '(as_attachment, filename) := download_params rq in
      d <- build_download_response bo.2 as_attachment filename ;;
      ret (Response 200 (CFile d)))).

Definition ObjectResourceView_delete (bucket_id object_path : string) (rq : http_request) : prog response :=
  with_principal rq (λ p,
    guarded true
      (bo <- get_accessible_object p bucket_id object_path true false ;;
       delete_object bo.2 (rq_user rq))
      (λ _, ret (ok (JBool true)))).

(** [dict(metadata or {})].  A list has to hold pairs, be they lists, two characters or
    objects with two members; the JSON column stores keys that are no text as text. *)
Definition dict_key (k : json) : exn + string :=
  match k with
  | JStr s => inr s
  | JInt z => inr (str_int z)
  | JBool b => inr (if b then "true" else "false")
  | JNull => inr "null"
  | JList _ | JObj _ => inl TypeError
  end.
Definition dict_item (v : json) : exn + (string * json) :=
  match v with
  | JList [k; x] => match dict_key k with inl e => inl e | inr k => inr (k, x) end
  | JStr (String a (String b EmptyString)) => inr (String a EmptyString, JStr (String b EmptyString))
  | JObj [(k, _); (x, _)] => inr (k, JStr x)
  | JList _ | JStr _ | JObj _ => inl ValueError
  | _ => inl TypeError
  end.
Fixpoint dict_of_items (acc : list (string * json)) (l : list json) : exn + list (string * json) :=
  match l with
  | [] => inr acc
  | v :: l' =>
      match dict_item v with inl e => inl e | inr (k, x) => dict_of_items (dict_set k x acc) l' end
  end.
Definition as_dict (v : json) : exn + list (string * json) :=
  if negb (json_truthy v) then inr []
  else match v with
       | JObj l => inr l
       | JList l => dict_of_items [] l
       | JStr _ => inl ValueError
       | _ => inl TypeError
       end.

(** The uploaded file: the field [file], else the first field; else the raw body. *)
Definition uploaded_file (rq : http_request) : option upload_file :=
  match last_get "file" (rq_files rq) with
  | Some f => Some f
  | None => match rq_files rq with [] => None | (k, _) :: _ => last_get k (rq_files rq) end
  end.
Definition upload_cache_control (rq : http_request) : option string :=
  match rq_files rq with
  | [] => None
  | _ =>
      let v := last_get "cacheControl" (rq_fields rq) in
      if given v then v else last_get "cache_control" (rq_fields rq)
  end.
Definition upload_content_type (rq : http_request) : option string :=
  if truthy (rq_content_type rq) && startswith "multipart/" (rq_content_type rq)
  then uploaded_file rq ≫= uf_content_type
  else Some (rq_content_type rq).
Definition upload_upsert (default_upsert : bool) (rq : http_request) : bool :=
  default_upsert ||
  (lower (default "" (last_get "x-upsert" (rq_headers rq))) in_ ["true"; "1"; "yes"]).

Definition ObjectResourceView_upload (default_upsert : bool) (bucket_id object_path : string)
    (rq : http_request) : prog response :=
  with_principal rq (λ p,
    guarded true
      (b <- get_accessible_bucket p bucket_id true false ;;
       name <- lift_sum (safe_object_path object_path) ;;
       assert_can_access_path p b name None true false ;;;
       upload_object_with b object_path (from_option uf_content (rq_body rq) (uploaded_file rq))
         (Some (p_user_id p)) (upload_content_type rq) (upload_upsert default_upsert rq)
         (as_dict (rq_metadata rq)) (upload_cache_control rq) (rq_user rq))
      (λ o, ret (ok (JObj [ ("Id", JStr (uuid_str (o_id o)));
                            ("Key", JStr (bucket_id +:+ "/" +:+ o_name o)) ])))).
Definition ObjectResourceView_post := ObjectResourceView_upload false.
Definition ObjectResourceView_put := ObjectResourceView_upload true.

Definition ObjectPublicDownloadView_get (bucket_id object_path : string) (rq : http_request) :
    prog response := ret (error_message 403 "public_download_disabled").

Definition ObjectInfoView_get (bucket_id object_path : string) (rq : http_request) : prog response :=
  with_principal rq (λ p,
    guarded true (get_accessible_object p bucket_id object_path false false) (λ bo,
      t <- now ;; d <- get_db ;;
      ret (ok (JObj (serialize_object d bo.2 false (active_grants t d (b_company_id bo.1))))))).

Definition ObjectByIdView_get (object_id : uuid) (rq : http_request) : prog response :=
  with_principal rq (λ p,
    guarded false (resolve_item_by_id p (uuid_str object_id)) (λ v, ret (ok (JObj v)))).

(** [sort_column in {...}]: unhashable values raise. *)
Definition as_column (v : json) : prog string :=
  match v with
  | JStr s => ret s
  | JList _ | JObj _ => raise TypeError
  | _ => ret "name"
  end.
Definition ObjectListView_post (bucket_id : string) (rq : http_request) : prog response :=
  with_principal rq (λ p,
    guarded false
      (b <- get_accessible_bucket p bucket_id false false ;;
       let body := body_dict rq in
       let sort_by := match json_or (jget "sortBy" body) (JObj []) with JObj l => l | _ => [] end in
       limit <- as_int (json_or (jget "limit" body) (JInt 100)) ;;
       offset <- as_int (json_or (jget "offset" body) (JInt 0)) ;;
       prefix <- as_text (json_or (jget "prefix" body) (JStr "")) ;;
       column <- as_column (json_or (jget "column" sort_by) (JStr "name")) ;;
       order <- as_text (json_or (jget "order" sort_by) (JStr "asc")) ;;
       list_objects b prefix limit offset (py_str (json_or (jget "search" body) (JStr "")))
         column order (Some p))
      (λ entries, ret (ok (json_list entries)))).

Definition deletion_paths (rq : http_request) : json :=
  match rq_data rq with
  | JObj body => json_or (json_or (jget "prefixes" body) (jget "paths" body)) (JList [])
  | v => v
  end.
Definition ObjectDeleteManyView_delete (bucket_id : string) (rq : http_request) : prog response :=
  with_principal rq (λ p,
    guarded false
      (b <- get_accessible_bucket p bucket_id true false ;;
       match deletion_paths rq with
       | JList l => names <- delete_paths b (py_str <$> l) p (rq_user rq) ;; ret (Some names)
       | _ => ret None
       end)
      (λ deleted, ret match deleted with
                      | None => error_message 400 "Error"
                      | Some names => ok (json_list ((λ n, [("name", JStr n)]) <$> names))
                      end)).

(** ** Folders *)
Definition ObjectPrefixView_get (bucket_id : string) (rq : http_request) : prog response :=
  with_principal rq (λ p,
    guarded true
      (b <- get_accessible_bucket p bucket_id false false ;;
       let prefix := default "" (last_get "prefix" (rq_query rq)) in
       when (truthy prefix) (lift_sum (safe_object_path prefix) ;;; ret tt) ;;;
       summarize_prefix b prefix (Some p))
      (λ s, ret (ok (JObj
         [ ("prefix", JStr (ps_prefix s)); ("object_count", JInt (ps_object_count s));
           ("file_count", JInt (ps_file_count s)); ("placeholder_count", JInt (ps_placeholder_count s));
           ("total_bytes", JInt (ps_total_bytes s)) ])))).

Definition ObjectPrefixView_post (bucket_id : string) (rq : http_request) : prog response :=
  with_principal rq (λ p,
    guarded true
      (b <- get_accessible_bucket p bucket_id true false ;;
       let body := body_dict rq in
       let source := json_or (json_or (json_or (jget "from" body) (jget "prefix" body))
                                (jget "source" body)) (JStr "") in
       let dest := json_or (json_or (jget "to" body) (jget "destination" body)) (JStr "") in
       let source := strip_char "/" (py_str source) in
       let dest := strip_char "/" (py_str dest) in
       if negb (truthy source) || negb (truthy dest) then ret None
       else
         lift_sum (safe_object_path source) ;;;
         lift_sum (safe_object_path dest) ;;;
         assert_can_access_path p b source None true false ;;;
         assert_can_access_path p b dest None true false ;;;
         r <- rename_folder b source dest ;; ret (Some r))
      (λ r, ret match r with
                | None => error_message 400 "Error"
                | Some r => ok (JObj
                    [ ("from", JStr (rn_from r)); ("to", JStr (rn_to r));
                      ("moved", JInt (Z.of_nat (rn_moved r)));
                      ("grants_updated", JInt (Z.of_nat (rn_grants_updated r))) ])
                end)).

Definition ObjectPrefixView_delete (bucket_id : string) (rq : http_request) : prog response :=
  with_principal rq (λ p,
    guarded true
      (b <- get_accessible_bucket p bucket_id true false ;;
       let prefix := json_or (json_or (jget "prefix" (body_dict rq))
                                (opt_str (last_get "prefix" (rq_query rq)))) (JStr "") in
       if negb (truthy (strip_char "/" (py_str prefix))) then ret None
       else
         prefix <- as_text prefix ;;
         lift_sum (safe_object_path prefix) ;;;
         deleted <- delete_under_prefix b prefix p (rq_user rq) ;; ret (Some (prefix, deleted)))
      (λ r, ret match r with
                | None => error_message 400 "Error"
                | Some (prefix, deleted) => ok (JObj
                    [ ("prefix", JStr (strip_char "/" prefix));
                      ("deleted", JList (JStr <$> deleted));
                      ("count", JInt (Z.of_nat (length deleted))) ])
                end)).

(** ** Moves, copies and signed URLs *)
(** [bucket, _, path = key.partition('/')]; all four parts must be there. *)
Definition split_key (key : string) : string * string := partition_char "/" key.
Definition move_paths (data : list (string * json)) : prog (option (string * string * (string * string))) :=
  from <- as_text (json_or (json_or (jget "sourceKey" data) (jget "from" data)) (JStr "")) ;;
  to <- as_text (json_or (json_or (jget "destinationKey" data) (jget "to" data)) (JStr "")) ;;
  let src := split_key from in let dst := split_key to in
  ret (if truthy src.1 && truthy src.2 && truthy dst.1 && truthy dst.2 then Some (src, dst) else None).

Definition ObjectMoveView_post (rq : http_request) : prog response :=
  with_principal rq (λ p,
    guarded false
      (require_company_id p ;;;
       paths <- move_paths (body_dict rq) ;;
       match paths with
       | None => ret None
       | Some ((src_bucket_name, src_obj), (dst_bucket_name, dst_obj)) =>
           src_bucket <- get_accessible_bucket p src_bucket_name true false ;;
           dst_bucket <- get_accessible_bucket p dst_bucket_name true false ;;
           assert_can_access_path p src_bucket src_obj None true false ;;;
           assert_can_access_path p dst_bucket dst_obj None true false ;;;
           move_object src_bucket src_obj dst_bucket dst_obj ;;; ret (Some tt)
       end)
      (λ r, ret match r with
                | Some _ => ok (JObj [("message", JStr "Successfully moved")])
                | None => error_message 400 "Error"
                end)).

Definition ObjectCopyView_post (rq : http_request) : prog response :=
  with_principal rq (λ p,
    guarded false
      (require_company_id p ;;;
       paths <- move_paths (body_dict rq) ;;
       match paths with
       | None => ret None
       | Some ((src_bucket_name, src_obj), (dst_bucket_name, dst_obj)) =>
           src_bucket <- get_accessible_bucket p src_bucket_name false false ;;
           dst_bucket <- get_accessible_bucket p dst_bucket_name true false ;;
           assert_can_access_path p src_bucket src_obj None false false ;;;
           assert_can_access_path p dst_bucket dst_obj None true false ;;;
           o <- copy_object src_bucket src_obj dst_bucket dst_obj (Some (p_user_id p)) (rq_user rq) ;;
           ret (Some (dst_bucket_name +:+ "/" +:+ o_name o))
       end)
      (λ r, ret match r with
                | Some key => ok (JObj [("message", JStr "Successfully copied"); ("Key", JStr key)])
                | None => error_message 400 "Error"
                end)).

Definition ObjectSignView_post (bucket_id object_path : string) (rq : http_request) : prog response :=
  with_principal rq (λ p,
    guarded true
      (let data := body_dict rq in
       let path := json_or (json_or (JStr object_path) (jget "path" data)) (JStr "") in
       expires <- as_int (json_or (json_or (jget "expiresIn" data) (jget "expires_in" data))
                            (JInt SIGNED_URL_EXPIRES)) ;;
       bo <- match path with
             | JStr path => get_accessible_object p bucket_id path false false
             | _ => get_accessible_bucket p bucket_id false false ;;; raise AttributeError
             end ;;
       ret (build_signed_url bo.2 (Some expires)))
      (λ url, ret (ok (JObj [("signedURL", JStr url); ("signedUrl", JStr url)])))).

(** ** Quotas *)
Definition QuotaView_get (rq : http_request) : prog response :=
  with_principal rq (λ p,
    guarded false (require_company_id p) (λ company_id,
      snap <- snapshot company_id (Some (p_user_id p)) ;;
      ret (ok (JObj
        [ ("company_id", JInt company_id);
          ("company", JObj
             [ ("max_bytes", JInt (qs_company_max snap)); ("used_bytes", JInt (qs_company_used snap));
               ("remaining_bytes", JInt (Z.max 0 (qs_company_max snap - qs_company_used snap))) ]);
          ("user", JObj
             [ ("user_id", JInt (p_user_id p)); ("max_bytes", opt_int (qs_user_max snap));
               ("used_bytes", JInt (qs_user_used snap));
               ("remaining_bytes",
                  opt_int ((λ m, Z.max 0 (m - qs_user_used snap)) <$> qs_user_max snap)) ]) ])))).

(** Staff manage any company, owners their own. *)
Definition manages_company (p : principal) (company_id : Z) : bool :=
  p_is_staff p || (company_id == (if default 0 (p_company_id p) == 0 then -1
                                  else default 0 (p_company_id p))).

Definition CompanyQuotaAdminView_put (company_id : Z) (rq : http_request) : prog response :=
  with_administrator rq (λ p,
    if negb (manages_company p company_id) then ret (error_message 403 "forbidden")
    else
      let data := body_dict rq in
      quota <- get_or_create_company_quota company_id ;;
      max_bytes <- match dict_get "max_bytes" data with
                   | Some v => as_int v | None => ret (cq_max_bytes quota) end ;;
      per_user <- match dict_get "max_bytes_per_user" data with
                  | Some v => if blank v then ret None else z <- as_int v ;; ret (Some z)
                  | None => ret (cq_max_bytes_per_user quota)
                  end ;;
      let quota' := CompanyQuota max_bytes (cq_used_bytes quota) per_user in
      modify_db (set_company_quotas (insert company_id quota')) ;;;
      ret (ok (JObj
        [ ("company_id", JInt company_id); ("max_bytes", JInt max_bytes);
          ("used_bytes", JInt (cq_used_bytes quota)); ("max_bytes_per_user", opt_int per_user) ]))).

Definition UserQuotaAdminView_put (company_id user_id : Z) (rq : http_request) : prog response :=
  with_administrator rq (λ p,
    if negb (manages_company p company_id) then ret (error_message 403 "forbidden")
    else
      match dict_get "max_bytes" (body_dict rq) with
      | None => ret (error_message 400 "Error")
      | Some v =>
          max_bytes <- as_int v ;;
          d <- get_db ;;
          let used := from_option uq_used_bytes 0 (db_user_quotas d !! (company_id, user_id)) in
          modify_db (set_user_quotas (insert (company_id, user_id) (UserQuota max_bytes used))) ;;;
          ret (ok (JObj
            [ ("company_id", JInt company_id); ("user_id", JInt user_id);
              ("max_bytes", JInt max_bytes); ("used_bytes", JInt used) ]))
      end).

(** ** Grants *)
(** [request.query_params.get(k) or None] *)
Definition query_text (k : string) (rq : http_request) : option string :=
  let v := last_get k (rq_query rq) in if given v then v else None.

Definition AccessGrantListCreateView_get (rq : http_request) : prog response :=
  with_principal rq (λ p,
    let resource_type := query_text "resource_type" rq in
    let resource_id := query_text "resource_id" rq in
    let bucket := query_text "bucket" rq in
    if lower (default "" (query_text "include_effective" rq)) in_ ["1"; "true"; "yes"] then
      guarded false (list_grants_effective p resource_type resource_id bucket) (λ r,
        ret (ok (JObj [("grants", json_list r.1); ("private_ancestor", opt_str r.2)])))
    else
      guarded false (list_grants p resource_type resource_id bucket) (λ gs, ret (ok (json_list gs)))).

Definition AccessGrantListCreateView_post (rq : http_request) : prog response :=
  with_principal rq (λ p,
    guarded false (create_grant p (body_dict rq)) (λ g,
      d <- get_db ;; ret (Response 201 (CJson (JObj (serialize_grant d g)))))).

Definition AccessGrantDetailView_delete (grant_id : uuid) (rq : http_request) : prog response :=
  with_principal rq (λ p, guarded false (delete_grant p grant_id) (λ _, ret (Response 204 CEmpty))).

(** ** Share links *)
Definition ObjectShareView_get (bucket_id object_path : string) (rq : http_request) : prog response :=
  with_principal rq (λ p,
    guarded true (list_share_links_for_object p bucket_id object_path) (λ ls,
      t <- now ;; d <- get_db ;;
      ret (ok (json_list ((λ l, serialize_share_link t d l false) <$> ls))))).

Definition ObjectShareView_post (bucket_id object_path : string) (rq : http_request) : prog response :=
  with_principal rq (λ p,
    let data := body_dict rq in
    let max_downloads := default (jget "maxDownloads" data) (dict_get "max_downloads" data) in
    guarded true
      (create_share_link p bucket_id object_path
         (Some (json_or (jget "expires_at" data) (jget "expiresAt" data)))
         (if blank max_downloads then None else Some max_downloads)
         (data_text "notes" "" data))
      (λ l, t <- now ;; d <- get_db ;;
            ret (Response 201 (CJson (JObj (serialize_share_link t d l true)))))).

(** Anonymous: the token is the credential. *)
Definition ShareLinkView_get (token : string) (rq : http_request) : prog response :=
  guarded false (redeem_share_link token) (λ lo,
    let '(as_attachment, filename) := download_params rq in
    d <- build_download_response lo.2 as_attachment filename ;;
    ret (Response 200 (CFile d))).
Definition ShareLinkView_delete (token : string) (rq : http_request) : prog response :=
  with_principal rq (λ p,
    guarded false (revoke_share_link p token) (λ l,
      t <- now ;; d <- get_db ;; ret (ok (JObj (serialize_share_link t d l false))))).

(** ** Routes ([urls.py]) *)
Inductive endpoint :=
| BucketList | BucketCreate | BucketGet (b : string) | BucketPut (b : string)
| BucketDelete (b : string) | BucketEmpty (b : string)
| ObjectGet (b path : string) | ObjectPost (b path : string) | ObjectPut (b path : string)
| ObjectDelete (b path : string) | ObjectPublic (b path : string) | ObjectInfo (b path : string)
| ObjectById (i : uuid) | ObjectList (b : string) | ObjectDeleteMany (b : string)
| PrefixGet (b : string) | PrefixRename (b : string) | PrefixDelete (b : string)
| ObjectMove | ObjectCopy | ObjectSign (b path : string)
| QuotaGet | QuotaCompany (company_id : Z) | QuotaUser (company_id user_id : Z)
| GrantList | GrantCreate | GrantDelete (i : uuid)
| ShareList (b path : string) | ShareCreate (b path : string)
| ShareRedeem (token : string) | ShareRevoke (token : string).

Definition dispatch (e : endpoint) : http_request → prog response :=
  match e with
  | BucketList => BucketListCreateView_get | BucketCreate => BucketListCreateView_post
  | BucketGet b => BucketDetailView_get b | BucketPut b => BucketDetailView_put b
  | BucketDelete b => BucketDetailView_delete b | BucketEmpty b => BucketEmptyView_post b
  | ObjectGet b path => ObjectResourceView_get b path
  | ObjectPost b path => ObjectResourceView_post b path
  | ObjectPut b path => ObjectResourceView_put b path
  | ObjectDelete b path => ObjectResourceView_delete b path
  | ObjectPublic b path => ObjectPublicDownloadView_get b path
  | ObjectInfo b path => ObjectInfoView_get b path
  | ObjectById i => ObjectByIdView_get i | ObjectList b => ObjectListView_post b
  | ObjectDeleteMany b => ObjectDeleteManyView_delete b
  | PrefixGet b => ObjectPrefixView_get b | PrefixRename b => ObjectPrefixView_post b
  | PrefixDelete b => ObjectPrefixView_delete b
  | ObjectMove => ObjectMoveView_post | ObjectCopy => ObjectCopyView_post
  | ObjectSign b path => ObjectSignView_post b path
  | QuotaGet => QuotaView_get | QuotaCompany c => CompanyQuotaAdminView_put c
  | QuotaUser c u => UserQuotaAdminView_put c u
  | GrantList => AccessGrantListCreateView_get | GrantCreate => AccessGrantListCreateView_post
  | GrantDelete i => AccessGrantDetailView_delete i
  | ShareList b path => ObjectShareView_get b path | ShareCreate b path => ObjectShareView_post b path
  | ShareRedeem token => ShareLinkView_get token | ShareRevoke token => ShareLinkView_delete token
  end.
End views.

(** ** Lemmas *)
(** Endpoints that answer without a principal. *)
Definition is_public (e : endpoint) : bool :=
  match e with ObjectPublic _ _ | ShareRedeem _ => true | _ => false end.
(** Endpoints that stream a file. *)
Definition streams (e : endpoint) : bool :=
  match e with ObjectGet _ _ | ShareRedeem _ => true | _ => false end.

(** [m] answers without a file. *)
Definition no_file (m : prog response) : Prop :=
  ∀ w, wp m (λ r _, ∀ d, rs_content r ≠ CFile d) (λ _ _, True) w.

Lemma wp_guarded {A} ve (m : prog A) k w (Q : response → world → Prop) (R : exn → world → Prop) :
  wp m (λ a w', wp (k a) Q R w')
    (λ e w', R e w' ∧ (¬ is_backend_error e → ∀ st code, Q (error_response st code) w')) w →
  wp (guarded ve m k) Q R w.
Proof.
  intros Hm. unfold guarded. apply wp_bind, wp_try, wp_bind. eapply wp_mono; [exact Hm| |].
  - intros a w' Ha. by apply wp_ret.
  - intros e w' [HR HQ]. destruct e as [st code| | | | | | | |]; simpl; try done;
      [by apply wp_ret, wp_ret, HQ; intros [? [=]]|].
    destruct ve; [apply wp_ret, wp_ret, HQ; by intros [? [=]]|done].
Qed.
Lemma no_file_guarded {A} ve (m : prog A) k : (∀ a, no_file (k a)) → no_file (guarded ve m k).
Proof.
  intros Hk w. apply wp_guarded. unfold wp. destruct (m w) as [[e|a] w'].
  - split; [done|]. intros st code d. done.
  - apply Hk.
Qed.
Lemma no_file_bind {A} (m : prog A) k : (∀ a, no_file (k a)) → no_file (bind m k).
Proof.
  intros Hk w. apply wp_bind. unfold wp at 1. destruct (m w) as [[e|a] w']; [done|]. apply Hk.
Qed.
Lemma no_file_principal rq k : (∀ p, no_file (k p)) → no_file (with_principal rq k).
Proof. intros Hk w. unfold with_principal. destruct (rq_user rq); [apply Hk|by apply wp_ret]. Qed.
Lemma no_file_if (b : bool) m1 m2 : no_file m1 → no_file m2 → no_file (if b then m1 else m2).
Proof. by destruct b. Qed.
Lemma no_file_option {A} (o : option A) m1 m2 :
  (∀ a, no_file (m1 a)) → no_file m2 → no_file (match o with Some a => m1 a | None => m2 end).
Proof. destruct o; auto. Qed.
Lemma no_file_ret r : (∀ d, rs_content r ≠ CFile d) → no_file (ret r).
Proof. intros Hr w. by apply wp_ret. Qed.

(** Reduce [no_file m] to the responses [m] builds. *)
Ltac solve_no_file :=
  repeat (lazymatch goal with
  | |- ∀ _, _ => intros ?
  | |- no_file (guarded _ _ _) => apply no_file_guarded
  | |- no_file (with_principal _ _) => apply no_file_principal
  | |- no_file (if _ then _ else _) => apply no_file_if
  | |- no_file (match _ with Some _ => _ | None => _ end) => apply no_file_option
  | |- no_file (bind _ _) => apply no_file_bind
  | |- no_file (ret _) => apply no_file_ret
  end; cbv beta zeta);
  repeat match goal with
  | r : option _ |- _ => destruct r
  | r : (_ * _)%type |- _ => destruct r
  end; try discriminate.

Section lemmas.
Context `{Settings, Backend, MimeTypes, StrictMimeTypes, StorageUrl, Receivers, DateParser, TokenSource}.

Lemma dispatch_no_file e rq : streams e = false → no_file (dispatch e rq).
Proof.
  destruct e; intros He; try discriminate He; simpl;
    unfold BucketListCreateView_get, BucketListCreateView_post, BucketDetailView_get,
      BucketDetailView_put, BucketDetailView_delete, BucketEmptyView_post, ObjectResourceView_post,
      ObjectResourceView_put, ObjectResourceView_upload, ObjectResourceView_delete,
      ObjectPublicDownloadView_get, ObjectInfoView_get, ObjectByIdView_get, ObjectListView_post,
      ObjectDeleteManyView_delete, ObjectPrefixView_get, ObjectPrefixView_post,
      ObjectPrefixView_delete, ObjectMoveView_post, ObjectCopyView_post, ObjectSignView_post,
      QuotaView_get, CompanyQuotaAdminView_put, UserQuotaAdminView_put, AccessGrantListCreateView_get,
      AccessGrantListCreateView_post, AccessGrantDetailView_delete, ObjectShareView_get,
      ObjectShareView_post, ShareLinkView_delete, with_administrator; solve_no_file.
Qed.

Lemma wp_build_download `{!BackendLaws} o att name w :
  wp (build_download_response o att name)
    (λ d _, w_blobs w !! o_storage_key o = Some (dl_body d)) (λ _ _, True) w.
Proof.
  unfold build_download_response, now, modify_db. wp_steps.
  apply wp_default_storage_open; [|done]. intros c Hc. by apply wp_ret.
Qed.

Lemma wp_object_get `{!BackendLaws, !ReceiverLaws} bn path rq w :
  wp (ObjectResourceView_get bn path rq)
    (λ r _, ∀ d, rs_content r = CFile d → ∃ p b o w1, rq_user rq = Some p ∧ same_rules w w1 ∧
       p_company_id p = Some (b_company_id b) ∧ b_name b = bn ∧ o_bucket_id o = b_id b ∧
       safe_object_path path = inr (o_name o) ∧ (∃ i, db_objects (w_db w1) !! i = Some o) ∧
       can_access_path (w_now w1) (w_db w1) p b (o_name o) (Some (o_id o)) false false = true ∧
       w_blobs w !! o_storage_key o = Some (dl_body d))
    (λ _ _, True) w.
Proof.
  unfold ObjectResourceView_get, with_principal. destruct (rq_user rq) as [p|]; [|by apply wp_ret].
  apply wp_guarded. eapply wp_mono;
    [apply wp_and; [apply (wp_get_accessible_object p bn path false false)|
       apply (wp_preserves (same_rules w)); [|by split];
       apply (preserves_get_accessible_object _ (same_rules_stable w))]| |done].
  intros [b o] w1 [(Hc & Hn & Hp & Hb & _ & Ho & _ & Hacc) Hr].
  destruct (download_params rq) as [att name]. apply wp_bind.
  eapply wp_mono; [apply wp_build_download| |done]. intros d w2 Hd. apply wp_ret.
  intros d' [= <-]. exists p, b, o, w1. split_and!; try done. by rewrite <- (sr_blobs _ _ Hr).
Qed.

Lemma wp_share_get `{!BackendLaws} token rq w :
  wp (ShareLinkView_get token rq)
    (λ r _, ∀ d, rs_content r = CFile d → ∃ l o, find_link (w_db w) token = Some l ∧
       is_active (w_now w) l = true ∧ db_objects (w_db w) !! l_object_id l = Some o ∧
       w_blobs w !! o_storage_key o = Some (dl_body d))
    (λ _ _, True) w.
Proof.
  unfold ShareLinkView_get. apply wp_guarded. unfold redeem_share_link. apply wp_atomic.
  unfold get_db, now, modify_db. wp_steps.
  destruct (find_link (w_db w) token) as [l|] eqn:Hl; [|by apply wp_raise].
  apply wp_if; intros Ha; [by apply wp_raise|]. apply negb_false_iff in Ha. wp_steps.
  apply wp_option; [|done]. intros o Ho. wp_steps.
  destruct (download_params rq) as [att name]. apply wp_bind.
  eapply wp_mono; [apply wp_build_download| |done]. intros d w2 Hd. apply wp_ret.
  intros d' [= <-]. exists l, o. done.
Qed.
End lemmas.

(** ** Properties *)
Section properties.
Context `{Settings, Backend, !BackendLaws, MimeTypes, StrictMimeTypes, StorageUrl, Receivers}.
Context `{!ReceiverLaws, DateParser, TokenSource}.

(** C16: file bytes leave the REST API in two ways only.  A response that carries a file
    answers the download of a path by a member of the bucket's company whom the
    access rules let read that very object, or the redemption of a share link that is
    active; and the bytes are those the backend holds for that object. *)
Theorem files_need_permission : ∀ e rq w r w' d,
  dispatch e rq w = (inr r, w') → rs_content r = CFile d →
  (∃ bn path p b o w1, e = ObjectGet bn path ∧ rq_user rq = Some p ∧ same_rules w w1 ∧
     p_company_id p = Some (b_company_id b) ∧ b_name b = bn ∧ o_bucket_id o = b_id b ∧
     safe_object_path path = inr (o_name o) ∧ (∃ i, db_objects (w_db w1) !! i = Some o) ∧
     can_access_path (w_now w1) (w_db w1) p b (o_name o) (Some (o_id o)) false false = true ∧
     w_blobs w !! o_storage_key o = Some (dl_body d)) ∨
  (∃ token l o, e = ShareRedeem token ∧ find_link (w_db w) token = Some l ∧
     is_active (w_now w) l = true ∧ db_objects (w_db w) !! l_object_id l = Some o ∧
     w_blobs w !! o_storage_key o = Some (dl_body d)).
Proof.
  intros e rq w r w' d Hrun Hfile. destruct (streams e) eqn:Hs.
  - destruct e as [| | | | | |bn path| | | | | | | | | | | | | | | | | | | | | | |token|];
      try discriminate Hs; simpl in Hrun.
    + pose proof (wp_object_get bn path rq w) as Hwp. unfold wp in Hwp. rewrite Hrun in Hwp.
      left. destruct (Hwp d Hfile) as (p & b & o & w1 & Hok). exists bn, path, p, b, o, w1. tauto.
    + pose proof (wp_share_get token rq w) as Hwp. unfold wp in Hwp. rewrite Hrun in Hwp.
      right. destruct (Hwp d Hfile) as (l & o & Hok). exists token, l, o. tauto.
  - pose proof (dispatch_no_file e rq Hs w) as Hwp. unfold wp in Hwp. rewrite Hrun in Hwp.
    by destruct (Hwp d Hfile).
Qed.

(** Without a principal every endpoint but the two public ones answers 401 and
    changes nothing. *)
Theorem anonymous_rejected : ∀ e rq w,
  rq_user rq = None → is_public e = false →
  ∃ r, dispatch e rq w = (inr r, w) ∧ rs_status r = 401.
Proof.
  intros e rq w Hu Hp. exists (Response 401 (CJson (JObj []))). split; [|done].
  assert (Hno : ∀ k, with_principal rq k w = (inr (Response 401 (CJson (JObj []))), w))
    by (intros k; unfold with_principal; by rewrite Hu).
  destruct e; try discriminate Hp; apply Hno.
Qed.
End properties.

(** ** The properties on a concrete company *)
Import StoreSpec.Demo GrantsDemo ShareDemo.
Module ViewsDemo.
#[export] Instance no_strict : StrictMimeTypes := λ _, None.
#[export] Instance no_url : StorageUrl := λ _ _, None.
Definition request_of (p : option principal) (data : json) : http_request :=
  HttpRequest p data [] [] JNull "application/json" [] [] [].
Definition as_bob : http_request := request_of (Some bob) (JObj []).
Definition as_alice : http_request := request_of (Some alice) (JObj []).
Definition status (r : (exn + response) * world) : Z :=
  match r.1 with inr r => rs_status r | inl _ => 500 end.
Definition body (r : (exn + response) * world) : option bytes :=
  match r.1 with inr (Response _ (CFile d)) => Some (dl_body d) | _ => None end.
(** Bob copies Alice's private file, writing its path in another way. *)
Definition copy_request (source : string) : http_request :=
  request_of (Some bob)
    (JObj [("sourceKey", JStr ("company/" +:+ source)); ("destinationKey", JStr "company/mine.txt")]).
End ViewsDemo.
Import ViewsDemo.

Lemma files_need_permission_witness :
  let run := dispatch (ObjectGet "company" "docs/a.txt") as_alice private_world in
  body run = Some abc ∧
  ∃ p b o w1, rq_user as_alice = Some p ∧ same_rules private_world w1 ∧ o_bucket_id o = b_id b ∧
    can_access_path (w_now w1) (w_db w1) p b (o_name o) (Some (o_id o)) false false = true.
Proof.
  cbv zeta. split; [vm_compute; reflexivity|].
  destruct (dispatch (ObjectGet "company" "docs/a.txt") as_alice private_world) as [[e|r] w'] eqn:Hrun;
    [vm_compute in Hrun; discriminate Hrun|].
  destruct (rs_content r) as [v|d|] eqn:Hc.
  - vm_compute in Hrun. injection Hrun as <- <-. discriminate Hc.
  - destruct (files_need_permission _ _ _ _ _ d Hrun Hc)
      as [(bn & path & p & b & o & w1 & _ & Hu & Hr & _ & _ & Hb & _ & _ & Ha & _)
         |(token & l & o & He & _)]; [|discriminate He].
    exists p, b, o, w1. auto.
  - vm_compute in Hrun. injection Hrun as <- <-. discriminate Hc.
Defined.

Lemma anonymous_rejected_witness :
  ∃ r, dispatch ObjectCopy (request_of None (JObj [])) private_world = (inr r, private_world) ∧
       rs_status r = 401.
Proof. apply (anonymous_rejected ObjectCopy); reflexivity. Defined.

(** Moves and copies check the path as it was sent and act on its normal form: with
    [./] in front, a private file can be copied, and read, by any member. *)
Example copy_escapes_acl :
  status (dispatch (ObjectGet "company" "docs/a.txt") as_bob private_world) = 403 ∧
  status (dispatch ObjectCopy (copy_request "docs/a.txt") private_world) = 403 ∧
  let stolen := dispatch ObjectCopy (copy_request "./docs/a.txt") private_world in
  status stolen = 200 ∧ body (dispatch (ObjectGet "company" "mine.txt") as_bob stolen.2) = Some abc.
Proof. vm_compute. auto. Qed.

(** A path that does not normalise is not answered by 400: the exception escapes. *)
Example copy_bad_path_is_uncaught :
  (dispatch ObjectCopy (copy_request "../a.txt") private_world).1 = inl ValueError.
Proof. vm_compute. reflexivity. Qed.
