(* ===== verification/ApiSchema.v ===== *)
(** * ApiSchema: the documentation of the REST API ([storage/serializers.py], [extend_schema] in [storage/views.py])

    The serializers are declarations: no handler runs them, the OpenAPI document is generated
    from them.  Here they are data, with the meaning OpenAPI gives them ([conforms]), next to
    the tables of what each endpoint declares to accept and to answer.  [ApiSpec] compares
    them with the handlers.  [allow_blank] bears on request bodies only and is left out. *)
From S2P Require Import Prelude PyStr Models PyData Access Listing Grants Views.

(** ** Schemas *)
Inductive field_type :=
| CharField | IntegerField | BooleanField | DictField
| ChoiceField (choices : list string)
| ListField (child : field_type)
| Nested (s : list field)
with field := Field (name : string) (t : field_type) (required allow_null : bool).

Definition field_name (f : field) : string := let 'Field n _ _ _ := f in n.

Abbreviation req n t := (Field n t true false).
Abbreviation nullable n t := (Field n t true true).
Abbreviation optional n t := (Field n t false false).
Abbreviation optional_nullable n t := (Field n t false true).

(** What OpenAPI demands of a value; an object may have further members. *)
Fixpoint conforms (t : field_type) (v : json) : bool :=
  match t, v with
  | CharField, JStr _ => true
  | IntegerField, JInt _ => true
  | BooleanField, JBool _ => true
  | DictField, JObj _ => true
  | ChoiceField choices, JStr s => s in_ choices
  | ListField child, JList l => forallb (conforms child) l
  | Nested s, JObj l => forallb (field_conforms l) s
  | _, _ => false
  end
with field_conforms (l : list (string * json)) (f : field) {struct f} : bool :=
  let 'Field n t required allow_null := f in
  match dict_get n l with
  | Some JNull => allow_null
  | Some v => conforms t v
  | None => negb required
  end.

(** ** The serializers *)
Definition ErrorSerializer : list field :=
  [ req "statusCode" CharField; req "error" CharField; req "message" CharField;
    optional "request_id" CharField ].
Definition HealthSerializer : list field :=
  [ req "status" CharField; req "version" CharField; optional "storage_backend" CharField;
    optional "identity_jwks_source" CharField; optional_nullable "identity_jwks_url" CharField ].
Definition BucketAccessSerializer : list field :=
  [ req "writers" CharField; req "can_write" BooleanField ].
Definition BucketSerializer : list field :=
  [ req "id" CharField; req "name" CharField; req "display_name" CharField;
    req "kind" (ChoiceField (kind_value <$> [KIND_COMPANY; KIND_CONNECTOR]));
    nullable "owner" CharField; req "public" BooleanField;
    nullable "file_size_limit" IntegerField; nullable "allowed_mime_types" (ListField CharField);
    nullable "connector_provider" CharField; req "access" (Nested BucketAccessSerializer);
    req "created_at" CharField; req "updated_at" CharField ].
Definition ObjectMetadataSerializer : list field :=
  [ nullable "eTag" CharField; req "size" IntegerField; req "mimetype" CharField;
    req "cacheControl" CharField; req "lastModified" CharField;
    req "contentLength" IntegerField; req "httpStatusCode" IntegerField ].
Definition ObjectSerializer : list field :=
  [ nullable "id" CharField; optional_nullable "folder_id" CharField; req "name" CharField;
    req "bucket_id" CharField; nullable "owner" CharField; nullable "created_at" CharField;
    nullable "updated_at" CharField; nullable "last_accessed_at" CharField;
    nullable "metadata" (Nested ObjectMetadataSerializer); optional "access" DictField ].
Definition ObjectUploadResponseSerializer : list field := [ req "Id" CharField; req "Key" CharField ].
Definition ObjectListRequestSerializer : list field :=
  [ optional "prefix" CharField; optional "limit" IntegerField; optional "offset" IntegerField;
    optional "search" CharField; optional "sortBy" DictField ].
Definition ObjectByIdSerializer : list field :=
  [ req "id" CharField; req "bucket" CharField; req "path" CharField; req "name" CharField;
    req "type" (ChoiceField ["file"; "folder"]) ].
Definition PrefixSummarySerializer : list field :=
  [ req "prefix" CharField; req "object_count" IntegerField; req "file_count" IntegerField;
    req "placeholder_count" IntegerField; req "total_bytes" IntegerField ].
Definition PrefixRenameRequestSerializer : list field :=
  [ optional "prefix" CharField; optional "source" CharField; optional "destination" CharField;
    optional "to" CharField ].
Definition PrefixRenameResponseSerializer : list field :=
  [ req "moved" IntegerField; req "grants_updated" IntegerField; req "to" CharField ].
Definition PrefixDeleteRequestSerializer : list field := [ req "prefix" CharField ].
Definition PrefixDeleteResponseSerializer : list field :=
  [ req "prefix" CharField; req "deleted" (ListField CharField); req "count" IntegerField ].
Definition DeletedNameSerializer : list field := [ req "name" CharField ].
Definition ObjectDeleteManyRequestSerializer : list field :=
  [ optional "prefixes" (ListField CharField); optional "paths" (ListField CharField) ].
Definition ObjectMoveRequestSerializer : list field :=
  [ optional "sourceKey" CharField; optional "destinationKey" CharField; optional "to" CharField ].
Definition ObjectMoveResponseSerializer : list field := [ req "message" CharField ].
Definition ObjectCopyResponseSerializer : list field := [ req "message" CharField; req "Key" CharField ].
Definition SignRequestSerializer : list field :=
  [ optional "path" CharField; optional "expiresIn" IntegerField; optional "expires_in" IntegerField ].
Definition SignedUrlSerializer : list field := [ req "signedURL" CharField; req "signedUrl" CharField ].
Definition QuotaBytesSerializer : list field :=
  [ nullable "max_bytes" IntegerField; req "used_bytes" IntegerField;
    nullable "remaining_bytes" IntegerField; optional "user_id" IntegerField ].
Definition QuotaSerializer : list field :=
  [ req "company_id" IntegerField; req "company" (Nested QuotaBytesSerializer);
    req "user" (Nested QuotaBytesSerializer) ].
Definition CompanyQuotaUpdateSerializer : list field :=
  [ optional "max_bytes" IntegerField; optional_nullable "max_bytes_per_user" IntegerField ].
Definition CompanyQuotaSerializer : list field :=
  [ req "company_id" IntegerField; req "max_bytes" IntegerField; req "used_bytes" IntegerField;
    nullable "max_bytes_per_user" IntegerField ].
Definition UserQuotaUpdateSerializer : list field := [ req "max_bytes" IntegerField ].
Definition UserQuotaSerializer : list field :=
  [ req "company_id" IntegerField; req "user_id" IntegerField; req "max_bytes" IntegerField;
    req "used_bytes" IntegerField ].
Definition AccessGrantSerializer : list field :=
  [ req "id" CharField; req "company_id" IntegerField; nullable "bucket" CharField;
    req "subject_type" (ChoiceField (subject_value <$> all_subjects)); req "subject_id" CharField;
    req "resource_type" (ChoiceField (resource_value <$> all_resources));
    req "resource_id" CharField;
    req "permission" (ChoiceField (permission_value <$> all_permissions));
    req "effect" (ChoiceField (effect_value <$> all_effects));
    nullable "created_by_id" IntegerField; req "created_at" CharField; req "updated_at" CharField;
    nullable "expires_at" CharField; req "notes" CharField ].
Definition AccessGrantCreateSerializer : list field :=
  [ req "subject_type" (ChoiceField (subject_value <$> all_subjects)); req "subject_id" CharField;
    req "resource_type" (ChoiceField (resource_value <$> all_resources));
    req "resource_id" CharField; optional "bucket" CharField;
    optional "permission" (ChoiceField (permission_value <$> all_permissions));
    optional "effect" (ChoiceField (effect_value <$> all_effects));
    optional_nullable "expires_at" CharField; optional "notes" CharField ].
(** [AccessGrantSerializer(many=True)]: declared, and used by no endpoint. *)
Definition AccessGrantEffectiveSerializer : list field :=
  [ req "grants" (ListField (Nested AccessGrantSerializer)); nullable "private_ancestor" CharField ].
Definition ShareLinkSerializer : list field :=
  [ req "id" CharField; req "object_id" CharField; req "bucket" CharField; req "path" CharField;
    req "company_id" IntegerField; req "created_by_id" IntegerField;
    nullable "expires_at" CharField; nullable "max_downloads" IntegerField;
    req "download_count" IntegerField; nullable "revoked_at" CharField;
    req "created_at" CharField; req "notes" CharField; req "active" BooleanField;
    req "path_url" CharField; optional "token" CharField ].
Definition ShareLinkCreateSerializer : list field :=
  [ optional_nullable "expires_at" CharField; optional_nullable "expiresAt" CharField;
    optional_nullable "max_downloads" IntegerField; optional_nullable "maxDownloads" IntegerField;
    optional "notes" CharField ].

(** ** What the endpoints declare to answer *)
Inductive body_schema :=
| One (s : list field) | Many (s : list field) | BOOL | BINARY | NoBody.
Definition body_conforms (s : body_schema) (c : content) : bool :=
  match s, c with
  | One s, CJson v => conforms (Nested s) v
  | Many s, CJson v => conforms (ListField (Nested s)) v
  | BOOL, CJson (JBool _) => true
  | BINARY, CFile _ => true
  | NoBody, CEmpty => true
  | _, _ => false
  end.

Definition _SCHEMA_ERRORS : list (Z * body_schema) :=
  [ (400, One ErrorSerializer); (401, One ErrorSerializer); (403, One ErrorSerializer);
    (404, One ErrorSerializer) ].

(** *** [extend_schema], one value per operation *)
(** [request=]: the members of the body, [None] where it is declared as bytes;
    [parameters=]: those of the query string and the headers; [auth=[]]: no credentials;
    [responses=].  Tags, summaries and operation ids are names. *)
Record operation := Operation {
  op_request : option (list field);
  op_query : list string;
  op_headers : list string;
  op_auth : bool;
  op_responses : list (Z * body_schema) }.
Definition answering (responses : list (Z * body_schema)) : operation := Operation (Some []) [] [] true responses.
Definition reading (query : list string) (op : operation) : operation :=
  Operation (op_request op) query (op_headers op) (op_auth op) (op_responses op).
Definition taking (s : list field) (op : operation) : operation :=
  Operation (Some s) (op_query op) (op_headers op) (op_auth op) (op_responses op).
Definition taking_bytes (headers : list string) (op : operation) : operation :=
  Operation None (op_query op) headers (op_auth op) (op_responses op).
Definition anonymous (op : operation) : operation :=
  Operation (op_request op) (op_query op) (op_headers op) false (op_responses op).

Definition HealthView_get_schema := answering [(200, One HealthSerializer)].
Definition BucketListCreateView_get_schema := answering ((200, Many BucketSerializer) :: _SCHEMA_ERRORS).
Definition BucketListCreateView_post_schema := answering [(403, One ErrorSerializer)].
Definition BucketDetailView_get_schema := answering ((200, One BucketSerializer) :: _SCHEMA_ERRORS).
Definition BucketDetailView_put_schema := answering [(403, One ErrorSerializer)].
Definition BucketDetailView_delete_schema := answering [(403, One ErrorSerializer)].
Definition BucketEmptyView_post_schema := answering ((200, BOOL) :: _SCHEMA_ERRORS).
Definition ObjectResourceView_get_schema :=
  reading ["download"] (answering ((200, BINARY) :: _SCHEMA_ERRORS)).
Definition ObjectResourceView_post_schema :=
  taking_bytes ["x-upsert"] (answering ((200, One ObjectUploadResponseSerializer) :: _SCHEMA_ERRORS)).
Definition ObjectResourceView_put_schema :=
  taking_bytes [] (answering ((200, One ObjectUploadResponseSerializer) :: _SCHEMA_ERRORS)).
Definition ObjectResourceView_delete_schema := answering ((200, BOOL) :: _SCHEMA_ERRORS).
(** The alias [/object/authenticated/]: the handler is that of [ObjectResourceView]. *)
Definition ObjectDownloadView_get_schema :=
  reading ["download"] (answering ((200, BINARY) :: _SCHEMA_ERRORS)).
Definition ObjectPublicDownloadView_get_schema := anonymous (answering [(403, One ErrorSerializer)]).
Definition ObjectInfoView_get_schema := answering ((200, One ObjectSerializer) :: _SCHEMA_ERRORS).
Definition ObjectByIdView_get_schema := answering ((200, One ObjectByIdSerializer) :: _SCHEMA_ERRORS).
Definition ObjectListView_post_schema :=
  taking ObjectListRequestSerializer (answering ((200, Many ObjectSerializer) :: _SCHEMA_ERRORS)).
Definition ObjectDeleteManyView_delete_schema :=
  taking ObjectDeleteManyRequestSerializer (answering ((200, Many DeletedNameSerializer) :: _SCHEMA_ERRORS)).
Definition ObjectPrefixView_get_schema :=
  reading ["prefix"] (answering ((200, One PrefixSummarySerializer) :: _SCHEMA_ERRORS)).
Definition ObjectPrefixView_post_schema :=
  taking PrefixRenameRequestSerializer (answering ((200, One PrefixRenameResponseSerializer) :: _SCHEMA_ERRORS)).
Definition ObjectPrefixView_delete_schema :=
  taking PrefixDeleteRequestSerializer (answering ((200, One PrefixDeleteResponseSerializer) :: _SCHEMA_ERRORS)).
Definition ObjectMoveView_post_schema :=
  taking ObjectMoveRequestSerializer (answering ((200, One ObjectMoveResponseSerializer) :: _SCHEMA_ERRORS)).
Definition ObjectCopyView_post_schema :=
  taking ObjectMoveRequestSerializer (answering ((200, One ObjectCopyResponseSerializer) :: _SCHEMA_ERRORS)).
Definition ObjectSignPathView_post_schema :=
  taking SignRequestSerializer (answering ((200, One SignedUrlSerializer) :: _SCHEMA_ERRORS)).
Definition ObjectSignBodyView_post_schema :=
  taking SignRequestSerializer (answering ((200, One SignedUrlSerializer) :: _SCHEMA_ERRORS)).
Definition QuotaView_get_schema := answering ((200, One QuotaSerializer) :: _SCHEMA_ERRORS).
Definition CompanyQuotaAdminView_put_schema :=
  taking CompanyQuotaUpdateSerializer (answering ((200, One CompanyQuotaSerializer) :: _SCHEMA_ERRORS)).
Definition UserQuotaAdminView_put_schema :=
  taking UserQuotaUpdateSerializer (answering ((200, One UserQuotaSerializer) :: _SCHEMA_ERRORS)).
Definition AccessGrantListCreateView_get_schema :=
  reading ["resource_type"; "resource_id"; "bucket"; "include_effective"]
    (answering ((200, Many AccessGrantSerializer) :: _SCHEMA_ERRORS)).
Definition AccessGrantListCreateView_post_schema :=
  taking AccessGrantCreateSerializer (answering ((201, One AccessGrantSerializer) :: _SCHEMA_ERRORS)).
Definition AccessGrantDetailView_delete_schema := answering ((204, NoBody) :: _SCHEMA_ERRORS).
Definition ObjectShareView_get_schema := answering ((200, Many ShareLinkSerializer) :: _SCHEMA_ERRORS).
Definition ObjectShareView_post_schema :=
  taking ShareLinkCreateSerializer (answering ((201, One ShareLinkSerializer) :: _SCHEMA_ERRORS)).
Definition ShareLinkView_get_schema :=
  anonymous (reading ["download"] (answering ((200, BINARY) :: _SCHEMA_ERRORS))).
Definition ShareLinkView_delete_schema := answering ((200, One ShareLinkSerializer) :: _SCHEMA_ERRORS).

(** The two routes of a signature ([ObjectSignView]) are documented alike. *)
Example sign_schemas_agree : ObjectSignBodyView_post_schema = ObjectSignPathView_post_schema.
Proof. reflexivity. Qed.

Definition schema (e : endpoint) : operation :=
  match e with
  | BucketList => BucketListCreateView_get_schema
  | BucketCreate => BucketListCreateView_post_schema
  | BucketGet _ => BucketDetailView_get_schema
  | BucketPut _ => BucketDetailView_put_schema
  | BucketDelete _ => BucketDetailView_delete_schema
  | BucketEmpty _ => BucketEmptyView_post_schema
  | ObjectGet _ _ => ObjectResourceView_get_schema
  | ObjectPost _ _ => ObjectResourceView_post_schema
  | ObjectPut _ _ => ObjectResourceView_put_schema
  | ObjectDelete _ _ => ObjectResourceView_delete_schema
  | ObjectPublic _ _ => ObjectPublicDownloadView_get_schema
  | ObjectInfo _ _ => ObjectInfoView_get_schema
  | ObjectById _ => ObjectByIdView_get_schema
  | ObjectList _ => ObjectListView_post_schema
  | ObjectDeleteMany _ => ObjectDeleteManyView_delete_schema
  | PrefixGet _ => ObjectPrefixView_get_schema
  | PrefixRename _ => ObjectPrefixView_post_schema
  | PrefixDelete _ => ObjectPrefixView_delete_schema
  | ObjectMove => ObjectMoveView_post_schema
  | ObjectCopy => ObjectCopyView_post_schema
  | ObjectSign _ _ => ObjectSignPathView_post_schema
  | QuotaGet => QuotaView_get_schema
  | QuotaCompany _ => CompanyQuotaAdminView_put_schema
  | QuotaUser _ _ => UserQuotaAdminView_put_schema
  | GrantList => AccessGrantListCreateView_get_schema
  | GrantCreate => AccessGrantListCreateView_post_schema
  | GrantDelete _ => AccessGrantDetailView_delete_schema
  | ShareList _ _ => ObjectShareView_get_schema
  | ShareCreate _ _ => ObjectShareView_post_schema
  | ShareRedeem _ => ShareLinkView_get_schema
  | ShareRevoke _ => ShareLinkView_delete_schema
  end.
Definition declared (e : endpoint) : list (Z * body_schema) := op_responses (schema e).
Definition request_fields (e : endpoint) : option (list field) := op_request (schema e).
Definition query_parameters (e : endpoint) : list string := op_query (schema e).
Definition header_parameters (e : endpoint) : list string := op_headers (schema e).
