(* ===== verification/ApiSpec.v ===== *)
(** * ApiSpec: the documentation of the REST API against the handlers

    Which statuses a service can raise ([throws]), what a handler answers ([answers]), and
    which parts of a request it reads.  The theorems compare all three with the tables of
    [ApiSchema], and say exactly where they differ. *)
From S2P Require Import Prelude PyStr Models PyData Mime Signals Access Quotas Backends Services FileStore Folders Downloads StoreSpec Listing Shares Grants Views ApiSchema.

(** ** The statuses a program can raise *)
Section throws.
Context (L : list Z).

Definition thrown (e : exn) : Prop := match e with StorageError st _ => st ∈ L | _ => True end.
Definition throws {A} (m : prog A) : Prop := ∀ w, wp m (λ _ _, True) (λ e _, thrown e) w.

Lemma throws_ret {A} (a : A) : throws (ret a).
Proof. done. Qed.
Lemma throws_raise {A} e : thrown e → throws (raise (A := A) e).
Proof. by intros He w. Qed.
Lemma throws_gets {A} (f : world → A) : throws (gets f).
Proof. done. Qed.
Lemma throws_modify f : throws (modify f).
Proof. done. Qed.
Lemma throws_bind {A B} (m : prog A) (k : A → prog B) :
throws m → (∀ a, throws (k a)) → throws (bind m k).
Proof. intros Hm Hk w. apply wp_bind. eapply wp_mono; [apply Hm|intros; apply Hk|done]. Qed.
Lemma throws_atomic {A} (m : prog A) : throws m → throws (atomic m).
Proof. intros Hm w. specialize (Hm w). unfold wp, atomic in *. by destruct (m w) as [[e|a] w']. Qed.
Lemma throws_when c (m : prog unit) : throws m → throws (when c m).
Proof. by destruct c. Qed.
Lemma throws_for_each {A} (l : list A) f : (∀ x, throws (f x)) → throws (for_each l f).
Proof. intros Hf. induction l as [|x l IH]; [done|]. by apply throws_bind. Qed.
Lemma throws_map_m {A B} (f : A → prog B) l : (∀ x, throws (f x)) → throws (map_m f l).
Proof.
intros Hf. induction l as [|x l IH]; [done|]. cbn [map_m]. apply throws_bind; [done|]. intros y.
by apply throws_bind.
Qed.
(** A program that raises nothing, or nothing but errors of other kinds. *)
Lemma throws_law {A} (m : prog A) Q (R : exn → world → Prop) :
(∀ w, wp m (Q w) R w) → (∀ e w, R e w → thrown e) → throws m.
Proof. intros Hm HR w. eapply wp_mono; [apply Hm|done|apply HR]. Qed.
End throws.

Create HintDb throws.
#[export] Hint Resolve throws_ret throws_gets throws_modify : throws.

(** Discharge a question about lists of statuses. *)
Ltac solve_statuses := first [assumption | vm_compute; set_solver | set_solver].
#[export] Hint Extern 0 (_ ⊆ _) => solve_statuses : throws.
(** Follow the structure of a program down to the errors it raises. *)
Ltac solve_throws :=
  repeat (cbv zeta; lazymatch goal with
  | |- ∀ _, _ => intros ?
  | |- _ ⊆ _ => solve_statuses
  | |- throws _ (bind _ _) => apply throws_bind
  | |- throws _ (ret _) => apply throws_ret
  | |- throws _ (raise ?e) => apply throws_raise; cbn; first [exact I | solve_statuses]
  | |- throws _ (gets _) => apply throws_gets
  | |- throws _ (modify _) => apply throws_modify
  | |- throws _ (atomic _) => apply throws_atomic
  | |- throws _ (when _ _) => apply throws_when
  | |- throws _ (for_each _ _) => apply throws_for_each
  | |- throws _ (map_m _ _) => apply throws_map_m
  | |- throws _ (match ?x with _ => _ end) => destruct x
  | |- throws _ ?m => first [ solve [eauto 3 with throws] | progress unfold get_db, now, modify_db ]
  end).

(** ** The services, with the statuses each raises *)
Section services.
Context `{Settings, Backend, !BackendLaws, MimeTypes, StrictMimeTypes, StorageUrl, Receivers, !ReceiverLaws}.
Context `{DateParser, TokenSource}.
Context (L : list Z).


Lemma throws_lift_sum {A} (x : exn + A) : (∀ e, x = inl e → thrown L e) → throws L (lift_sum x).
Proof. intros Hx. destruct x; [by apply throws_raise, Hx|done]. Qed.
Lemma collect_parts_error l e : collect_parts l = inl e → e = ValueError.
Proof.
induction l as [|x l IH]; simpl; [done|]. repeat case_match; simplify_eq; naive_solver.
Qed.
Lemma throws_path path : throws L (lift_sum (safe_object_path path)).
Proof.
apply throws_lift_sum. intros e. unfold safe_object_path. case_match; [by intros [= <-]|].
destruct (collect_parts _) as [e'|l] eqn:Hc; [|by destruct l; intros [= <-]].
intros [= <-]. by rewrite (collect_parts_error _ _ Hc).
Qed.
Lemma throws_int v : throws L (as_int v).
Proof.
apply throws_lift_sum. intros e. unfold py_int. destruct v as [| | |s| |]; try naive_solver.
destruct (py_int_str 10 s); naive_solver.
Qed.
Lemma throws_text v : throws L (as_text v).
Proof. unfold as_text. solve_throws. Qed.
Lemma throws_column v : throws L (as_column v).
Proof. unfold as_column. solve_throws. Qed.
Lemma throws_uuid4 : throws L uuid4.
Proof. done. Qed.
Lemma throws_bucket_created b r p : throws L (bucket_created b r p).
Proof. by apply (throws_law L _ (λ w _, quiet w) (λ _ _, False)); [apply bucket_created_law|]. Qed.
Lemma throws_object_deleted i r : throws L (object_deleted i r).
Proof. by apply (throws_law L _ (λ w _, quiet w) (λ _ _, False)); [apply object_deleted_law|]. Qed.
Lemma throws_object_uploaded o c r : throws L (object_uploaded o c r).
Proof.
by apply (throws_law L _ (λ w o' w', quiet w w' ∧ erase_metadata o' = erase_metadata o) (λ _ _, False));
  [apply object_uploaded_law|].
Qed.
End services.
#[export] Hint Resolve throws_path throws_int throws_text throws_column throws_uuid4 throws_bucket_created throws_object_deleted
  throws_object_uploaded : throws.

Section access.
Context `{Settings, Backend, !BackendLaws, MimeTypes, StrictMimeTypes, StorageUrl, Receivers, !ReceiverLaws}.
Context (L : list Z).


Lemma throws_require_company_id p : [403] ⊆ L → throws L (require_company_id p).
Proof. unfold require_company_id. solve_throws. Qed.
Lemma throws_ensure_company_bucket cid r p : throws L (ensure_company_bucket cid r p).
Proof. unfold ensure_company_bucket. solve_throws. Qed.
Lemma throws_assert_bucket p b write admin : [403] ⊆ L → throws L (assert_can_access_bucket p b write admin).
Proof. unfold assert_can_access_bucket. solve_throws. Qed.
Lemma throws_assert_path p b path i write admin :
[403] ⊆ L → throws L (assert_can_access_path p b path i write admin).
Proof. unfold assert_can_access_path. solve_throws. Qed.
Hint Resolve throws_require_company_id throws_ensure_company_bucket throws_assert_bucket
throws_assert_path : throws.
Lemma throws_list_buckets p : [403] ⊆ L → throws L (list_accessible_buckets p).
Proof. unfold list_accessible_buckets. solve_throws. Qed.
Lemma throws_get_bucket p name write admin :
[403; 404] ⊆ L → throws L (get_accessible_bucket p name write admin).
Proof. unfold get_accessible_bucket. solve_throws. Qed.
Hint Resolve throws_get_bucket : throws.
Lemma throws_get_object p name path write admin :
[403; 404] ⊆ L → throws L (get_accessible_object p name path write admin).
Proof. unfold get_accessible_object. solve_throws. Qed.
Lemma throws_open_to_company cid name path : [400] ⊆ L → throws L (assert_can_open_to_company cid name path).
Proof. unfold assert_can_open_to_company. solve_throws. Qed.
Lemma throws_grant_row cid bid oid st sid rt perm eff cb ex notes :
throws L (create_grant_row cid bid oid st sid rt perm eff cb ex notes).
Proof. unfold create_grant_row. solve_throws. Qed.
Hint Resolve throws_grant_row : throws.
Lemma throws_private o uid f : throws L (apply_default_private_on_create o uid f).
Proof.
unfold apply_default_private_on_create, ensure_default_private_access, copy_folder_grants. solve_throws.
Qed.
Lemma throws_company_quota cid : throws L (get_or_create_company_quota cid).
Proof. unfold get_or_create_company_quota. solve_throws. Qed.
Hint Resolve throws_company_quota : throws.
Lemma throws_snapshot cid uid : throws L (snapshot cid uid).
Proof. unfold snapshot. solve_throws. Qed.
Lemma throws_usage cid uid delta : throws L (apply_usage_delta cid uid delta).
Proof. unfold apply_usage_delta. solve_throws. Qed.
Lemma throws_can_store cid uid n m : throws L (assert_can_store cid uid n m).
Proof. unfold assert_can_store. solve_throws. Qed.
Lemma throws_open k : throws L (default_storage_open k).
Proof. intros w. unfold wp, default_storage_open. by destruct (storage_open k _). Qed.
Lemma throws_delete_key k : throws L (delete_storage_key k).
Proof.
apply throws_bind; [|intros []; simpl; [|done]]; intros w; unfold wp, storage_exists, default_storage_delete.
- by destruct (storage_has k _).
- by destruct (storage_delete k _) as [[code|] m].
Qed.
Lemma throws_save k c : [500; 502] ⊆ L → throws L (save_blob k c).
Proof.
intros HL w. unfold save_blob. apply wp_try, wp_bind. unfold wp, default_storage_save.
destruct (storage_save k c _) as [[code|n] m]; [|done]. simpl. unfold blob_write_error.
repeat case_match; simpl; set_solver.
Qed.
End access.
#[export] Hint Resolve throws_require_company_id throws_ensure_company_bucket throws_assert_bucket throws_assert_path
  throws_list_buckets throws_get_bucket throws_get_object throws_open_to_company throws_grant_row throws_private
  throws_company_quota throws_snapshot throws_usage throws_can_store throws_open throws_delete_key throws_save : throws.

Section operations.
Context `{Settings, Backend, !BackendLaws, MimeTypes, StrictMimeTypes, StorageUrl, Receivers, !ReceiverLaws}.
Context `{DateParser, TokenSource}.
(** The date parser raises no error of the storage: it is a library. *)
Context (parser_errors : ∀ s e, parse_datetime s = inl e → ∀ st code, e ≠ StorageError st code).
Context (L : list Z).

Lemma throws_quota (m : prog unit) : [413] ⊆ L → throws L m → throws L (quota_as_storage_error m).
Proof.
  intros HL Hm w. unfold quota_as_storage_error. apply wp_try. eapply wp_mono; [apply Hm|done|].
  intros e w' He. destruct e; try done. apply wp_raise. simpl. set_solver.
Qed.
Lemma throws_object_row o : throws L (create_object_row o).
Proof. unfold create_object_row. solve_throws. Qed.
Hint Resolve throws_quota : throws.
Lemma throws_save_name o bid n : throws L (save_name o bid n).
Proof. unfold save_name. solve_throws. Qed.
Hint Resolve throws_object_row throws_save_name : throws.
Lemma throws_new_object b name data owner size etag mime meta r :
  [500; 502] ⊆ L → throws L (store_new_object b name data owner size etag mime meta r).
Proof. unfold store_new_object. solve_throws. Qed.
Lemma throws_overwrite b old data owner mime meta r :
  [500; 502] ⊆ L → throws L (overwrite_object b old data owner mime meta r).
Proof. unfold overwrite_object. solve_throws. Qed.
Hint Resolve throws_new_object throws_overwrite : throws.
Lemma dict_items_error acc l e : dict_of_items acc l = inl e → thrown L e.
Proof.
  revert acc. induction l as [|v l IH]; intros acc; [done|]. simpl.
  destruct (dict_item v) as [e'|[k x]] eqn:Hv; [|apply IH]. intros [= ->].
  unfold dict_item, dict_key in Hv. repeat case_match; by simplify_eq.
Qed.
Lemma throws_as_dict v : throws L (lift_sum (as_dict v)).
Proof.
  apply throws_lift_sum. intros e. unfold as_dict. destruct (negb _), v; try (by intros [= <-]); try done.
  apply dict_items_error.
Qed.
Hint Resolve throws_as_dict : throws.
Lemma throws_upload b path c owner ct upsert v cc r :
  [400; 413; 415; 500; 502] ⊆ L → throws L (upload_object_with b path c owner ct upsert (as_dict v) cc r).
Proof.
  unfold upload_object_with, read_upload_bytes. solve_throws.
Qed.
Lemma throws_marker b path owner : [500; 502] ⊆ L → throws L (ensure_folder_marker b path owner).
Proof. unfold ensure_folder_marker. solve_throws. Qed.
Lemma throws_delete_object o r : throws L (delete_object o r).
Proof. unfold delete_object. solve_throws. Qed.
Hint Resolve throws_delete_object : throws.
Lemma throws_collect b p paths : [403] ⊆ L → throws L (collect_to_delete b p paths).
Proof. intros HL. induction paths as [|x l IH]; [done|]. simpl. solve_throws. Qed.
Hint Resolve throws_collect : throws.
Lemma throws_delete_paths b paths p r : [403] ⊆ L → throws L (delete_paths b paths p r).
Proof. unfold delete_paths. solve_throws. Qed.
Lemma throws_delete_prefix b path p r : [403] ⊆ L → throws L (delete_under_prefix b path p r).
Proof. unfold delete_under_prefix, assert_can_write_all. solve_throws. Qed.
Lemma throws_empty_bucket b p r : [403] ⊆ L → throws L (empty_bucket b p r).
Proof. unfold empty_bucket, assert_can_write_all. solve_throws. Qed.
Lemma throws_rename_all b src dst objs : [400] ⊆ L → throws L (rename_all b src dst objs).
Proof. intros HL. induction objs as [|o l IH]; [done|]. simpl. solve_throws. Qed.
Hint Resolve throws_rename_all : throws.
Lemma throws_rename b src dst : [400; 404] ⊆ L → throws L (rename_folder b src dst).
Proof. unfold rename_folder. solve_throws. Qed.
Lemma throws_move b src b' dst : [400; 403; 404] ⊆ L → throws L (move_object b src b' dst).
Proof. unfold move_object. solve_throws. Qed.
Lemma throws_copy b src b' dst owner r :
  [400; 403; 404; 413; 500; 502] ⊆ L → throws L (copy_object b src b' dst owner r).
Proof. unfold copy_object. solve_throws. Qed.
Lemma throws_list_objects b prefix limit offset search column order p :
  throws L (list_objects b prefix limit offset search column order p).
Proof. unfold list_objects. solve_throws. Qed.
Lemma throws_summary b prefix p : throws L (summarize_prefix b prefix p).
Proof. unfold summarize_prefix. solve_throws. Qed.
Lemma throws_resolve p i : [400; 403; 404] ⊆ L → throws L (resolve_item_by_id p i).
Proof. unfold resolve_item_by_id. solve_throws. Qed.

(** *** Grants and links *)
Lemma throws_expires v : [400] ⊆ L → throws L (parse_expires_at v).
Proof.
  unfold parse_expires_at. intros HL. destruct (blank _); [done|].
  destruct (parse_datetime _) as [e|[t|]] eqn:He; [|done|solve_throws].
  apply throws_raise. destruct e; try done. by destruct (parser_errors _ _ He status code).
Qed.
Hint Resolve throws_expires : throws.
Lemma throws_choice {A} (value : A → string) members v code : [400] ⊆ L → throws L (choice value members v code).
Proof. unfold choice. solve_throws. Qed.
Lemma throws_manage p bn rt path admin : [403; 404] ⊆ L → throws L (assert_can_manage_resource p bn rt path admin).
Proof. unfold assert_can_manage_resource. solve_throws. Qed.
Lemma throws_resource_id rt rid : [400] ⊆ L → throws L (normalize_resource_id rt rid).
Proof. unfold normalize_resource_id. solve_throws. Qed.
Hint Resolve throws_choice throws_manage throws_resource_id throws_marker : throws.
Lemma throws_create_grant p data : [400; 403; 404; 500; 502] ⊆ L → throws L (create_grant p data).
Proof. unfold create_grant, grant_expires_at. solve_throws. Qed.
Lemma throws_list_grants p rt rid b : [403] ⊆ L → throws L (list_grants p rt rid b).
Proof. unfold list_grants. solve_throws. Qed.
Hint Resolve throws_list_grants : throws.
Lemma throws_list_effective p rt rid b : [403] ⊆ L → throws L (list_grants_effective p rt rid b).
Proof. unfold list_grants_effective. solve_throws. Qed.
Lemma throws_delete_grant p i : [400; 403; 404] ⊆ L → throws L (delete_grant p i).
Proof. unfold delete_grant. solve_throws. Qed.
Lemma throws_shareable p bn path : [403; 404] ⊆ L → throws L (shareable_object p bn path).
Proof. unfold shareable_object. solve_throws. Qed.
Hint Resolve throws_shareable : throws.
Lemma throws_list_links p bn path : [403; 404] ⊆ L → throws L (list_share_links_for_object p bn path).
Proof. unfold list_share_links_for_object. solve_throws. Qed.
Lemma throws_create_link p bn path ex cap notes :
  [400; 403; 404] ⊆ L → throws L (create_share_link p bn path ex cap notes).
Proof.
  unfold create_share_link, parse_max_downloads, create_link_row. fold (as_int). solve_throws.
Qed.
Lemma throws_revoke p token : [403; 404] ⊆ L → throws L (revoke_share_link p token).
Proof. unfold revoke_share_link. solve_throws. Qed.
Lemma throws_redeem token : [404; 410] ⊆ L → throws L (redeem_share_link token).
Proof. unfold redeem_share_link. solve_throws. Qed.
Lemma throws_download o att name : throws L (build_download_response o att name).
Proof. unfold build_download_response. solve_throws. Qed.
End operations.
#[export] Hint Resolve throws_upload throws_delete_object throws_delete_paths throws_delete_prefix throws_empty_bucket
  throws_rename throws_move throws_copy throws_list_objects throws_summary throws_resolve throws_create_grant
  throws_list_grants throws_list_effective throws_delete_grant throws_list_links throws_create_link throws_revoke
  throws_redeem throws_download : throws.

(** ** What a handler answers *)
(** Statuses an endpoint can answer that its documentation does not list. *)
Definition undeclared (e : endpoint) : list Z :=
  match e with
  | BucketCreate | BucketPut _ | BucketDelete _ => [401]
  | ObjectPost _ _ | ObjectPut _ _ => [413; 415; 500; 502]
  | ObjectCopy => [413; 500; 502]
  | GrantCreate => [500; 502]
  | ShareRedeem _ => [410]
  | _ => []
  end.
Definition failures (e : endpoint) : list Z :=
  filter (λ st, 300 <= st) ((declared e).*1 ++ undeclared e).
(** The body of an error, but for the text of its message, which is not modelled; and that
    of a refusal by the permission classes, which is the framework's ([[]] in the model). *)
Definition error_object (st : Z) (c : content) : bool :=
  match c with
  | CJson (JObj []) => (st == 401) || (st == 403)
  | CJson (JObj [(k, JStr s); (k', JStr _)]) => (k == "statusCode") && (s == str_int st) && (k' == "error")
  | _ => false
  end.
(** A success as the documentation describes it, or an error with a status of [failures]. *)
Definition documented (e : endpoint) (r : response) : bool :=
  if rs_status r <? 300
  then existsb (λ d, (d.1 == rs_status r) && body_conforms d.2 (rs_content r)) (declared e)
  else (rs_status r in_ failures e) && error_object (rs_status r) (rs_content r).
(** The metadata a client stores with a file leaves the fields of the service alone. *)
Definition clean_metadata (m : list (string * json)) : Prop :=
  (∀ f, f ∈ ObjectMetadataSerializer → field_name f ≠ "cacheControl" → dict_get (field_name f) m = None) ∧
  ∀ v, dict_get "cacheControl" m = Some v → ∃ s, v = JStr s.
Definition clean (w : world) : Prop := ∀ i o, db_objects (w_db w) !! i = Some o → clean_metadata (o_metadata o).

(** An answer: its status, its body where it is an error, and, provided [conf], its body
    where it is a success. *)
Record reply_ok (e : endpoint) (conf : Prop) (r : response) : Prop := ReplyOk {
  ro_success : rs_status r < 300 → rs_status r ∈ (declared e).*1 ∧
    (conf → ∃ s, (rs_status r, s) ∈ declared e ∧ body_conforms s (rs_content r) = true);
  ro_failure : 300 <= rs_status r →
    (rs_status r ∈ (declared e).*1 ∨ rs_status r ∈ undeclared e) ∧
    ((∃ code, r = error_response (rs_status r) code) ∨
     (rs_status r = 401 ∨ rs_status r = 403) ∧ rs_content r = CJson (JObj [])) }.
(** Every run of [m] from [w] answers as [e] documents. *)
Definition answers_at (e : endpoint) (m : prog response) (w : world) : Prop :=
  wp m (λ r w', reply_ok e (clean w') r) (λ _ _, True) w.
Definition answers (e : endpoint) (m : prog response) : Prop := ∀ w, answers_at e m w.

Lemma documented_reply e conf r : documented e r = true → reply_ok e conf r.
Proof.
  unfold documented. destruct (Z.ltb_spec (rs_status r) 300) as [Hst|Hst]; intros Hd; split; intros H300; try lia.
  - apply existsb_exists in Hd as ([st s] & Hin%list_elem_of_In & [Heq Hc]%andb_true_iff).
    apply bool_decide_eq_true in Heq. cbn in Heq, Hc. subst st.
    split; [by apply (list_elem_of_fmap_2 fst _ (rs_status r, s))|]. intros _. by exists s.
  - apply andb_true_iff in Hd as [Hin Hb]. apply bool_decide_eq_true in Hin.
    apply list_elem_of_filter in Hin as [_ Hin]. rewrite elem_of_app in Hin. split; [done|].
    destruct r as [st c]. cbn in *. unfold error_object in Hb.
    destruct c as [v| |]; try done. destruct v as [| | | | |l]; try done.
    destruct l as [|[k [| | |t| |]] [|[k' [| | |code| |]] [|]]]; try done.
    { right. split; [|done]. apply orb_true_iff in Hb. by rewrite !bool_decide_eq_true in Hb. }
    apply andb_true_iff in Hb as [[Hk Ht]%andb_true_iff Hk']. rewrite bool_decide_eq_true in Hk, Ht, Hk'.
    subst. left. by exists code.
Qed.
Lemma error_documented e st code : st ∈ failures e → documented e (error_response st code) = true.
Proof.
  intros Hst. unfold documented. cbn [rs_status error_response]. pose proof Hst as [H300 _]%list_elem_of_filter.
  rewrite (proj2 (Z.ltb_ge _ _) H300). apply andb_true_iff. split; [by apply bool_decide_eq_true|].
  unfold error_object, error_response. cbn [rs_content rs_status]. by rewrite !bool_decide_true.
Qed.
Lemma documented_error e conf st code : st ∈ failures e → reply_ok e conf (error_response st code).
Proof. intros Hst. by apply documented_reply, error_documented. Qed.
Lemma documented_success e st s c :
  (st, s) ∈ declared e → st < 300 → body_conforms s c = true → documented e (Response st c) = true.
Proof.
  intros Hin Hst Hc. unfold documented. cbn. rewrite (proj2 (Z.ltb_lt _ _) Hst).
  apply existsb_exists. exists (st, s). split; [by apply list_elem_of_In|]. cbn.
  by rewrite bool_decide_true, Hc.
Qed.
(** A success whose body conforms under a proviso. *)
Lemma reply_success e (conf : Prop) st s c :
  (st, s) ∈ declared e → st < 300 → (conf → body_conforms s c = true) → reply_ok e conf (Response st c).
Proof.
  intros Hin Hst Hc. split; cbn; intros H; [|lia].
  split; [by apply (list_elem_of_fmap_2 fst _ (st, s))|]. intros Hconf. exists s. auto.
Qed.
Lemma answers_ret e r : documented e r = true → answers e (ret r).
Proof. intros Hr w. by apply documented_reply. Qed.
Lemma answers_bind {A} e (m : prog A) k : (∀ a, answers e (k a)) → answers e (bind m k).
Proof.
  intros Hk w. apply wp_bind. unfold wp at 1. destruct (m w) as [[x|a] w']; [done|]. apply Hk.
Qed.
(** The two failures a guard answers with, and what follows a success. *)
Lemma answers_at_guarded {A} e ve (m : prog A) k Q w :
  throws (failures e) m → (ve = true → 400 ∈ failures e) → wp m Q (λ _ _, True) w →
  (∀ a w', Q a w' → answers_at e (k a) w') → answers_at e (guarded ve m k) w.
Proof.
  intros Hm Hve HQ Hk. unfold answers_at, guarded. apply wp_bind, wp_try, wp_bind.
  eapply wp_mono; [apply wp_and; [exact HQ|apply Hm]| |].
  - intros a w' [Ha _]. apply wp_ret. by apply Hk.
  - intros x w' [_ Hx]. destruct x as [st code| | | | | | | |]; simpl; try done.
    + apply wp_ret, wp_ret. by apply documented_error.
    + destruct ve; [|done]. apply wp_ret, wp_ret. by apply documented_error, Hve.
Qed.
Lemma answers_guarded {A} e ve (m : prog A) k :
  throws (failures e) m → (ve = true → 400 ∈ failures e) → (∀ a, answers e (k a)) →
  answers e (guarded ve m k).
Proof.
  intros Hm Hve Hk w. apply (answers_at_guarded e ve m k (λ _ _, True)); try done.
  - unfold wp. by destruct (m w) as [[x|a] w'].
  - intros a w' _. apply Hk.
Qed.
Lemma answers_principal e rq k : 401 ∈ failures e → (∀ p, answers e (k p)) → answers e (with_principal rq k).
Proof.
  intros H401 Hk. unfold with_principal. destruct (rq_user rq); [apply Hk|]. apply answers_ret.
  unfold documented. cbn -[failures]. apply andb_true_iff. by split; [apply bool_decide_eq_true_2|].
Qed.
Lemma answers_administrator e rq k :
  401 ∈ failures e → 403 ∈ failures e → (∀ p, answers e (k p)) → answers e (with_administrator rq k).
Proof.
  intros H401 H403 Hk. apply answers_principal; [done|]. intros p. case_match; [apply Hk|].
  apply answers_ret. unfold documented. cbn -[failures]. apply andb_true_iff. by split; [apply bool_decide_eq_true_2|].
Qed.

(** ** The rows conform to their serializers *)
Lemma many_conforms {A} s (f : A → list (string * json)) l :
  (∀ x, x ∈ l → conforms (Nested s) (JObj (f x)) = true) →
  body_conforms (Many s) (CJson (json_list (f <$> l))) = true.
Proof.
  intros Hf. apply forallb_forall. intros v Hv. apply list_elem_of_In in Hv.
  rewrite list_elem_of_fmap in Hv. destruct Hv as (x & -> & Hx).
  rewrite list_elem_of_fmap in Hx. destruct Hx as (y & -> & Hy). by apply Hf.
Qed.
Lemma texts_conform (l : list string) : forallb (conforms CharField) (JStr <$> l) = true.
Proof. by induction l. Qed.

Section conform.
Context (t : datetime) (d : db).
Lemma bucket_conforms b p : conforms (Nested BucketSerializer) (JObj (serialize_bucket t d b p)) = true.
Proof.
unfold serialize_bucket, opt_id. set (cw := match p with Some _ => _ | None => _ end).
assert (Htypes : ∀ l : list string, forallb (conforms CharField) (JStr <$> l) && true = true)
  by (intros l; by rewrite texts_conform).
destruct (b_owner_id b) as [z|]; [destruct (z == 0)|]; destruct (b_file_size_limit b), (truthy (b_connector_provider b));
  unfold access_summary; destruct (b_kind b); destruct (b_allowed_mime_types b) as [|x l];
  first [reflexivity|etransitivity; [|apply (Htypes (x :: l))]; reflexivity].
Qed.
Lemma grant_conforms g : conforms (Nested AccessGrantSerializer) (JObj (serialize_grant d g)) = true.
Proof.
unfold serialize_grant. destruct (g_subject_type g), (g_resource_type g), (g_permission g), (g_effect g),
  (g_created_by_id g), (g_expires_at g); reflexivity.
Qed.
Lemma link_conforms l token :
conforms (Nested ShareLinkSerializer) (JObj (serialize_share_link t d l token)) = true.
Proof.
unfold serialize_share_link. destruct (l_expires_at l), (l_max_downloads l), (l_revoked_at l), token; reflexivity.
Qed.
End conform.

(** *** Objects: the metadata of the client is merged over that of the service *)
Lemma conforms_ext s l l' :
  (∀ f, f ∈ s → dict_get (field_name f) l = dict_get (field_name f) l') →
  conforms (Nested s) (JObj l) = conforms (Nested s) (JObj l').
Proof.
  intros Hl. cbn. induction s as [|[n ty rq nl] s IH]; [done|]. cbn.
  rewrite IH by (intros; apply Hl; by right). f_equal. pose proof (Hl (Field n ty rq nl) ltac:(by left)) as E. cbn in E. by rewrite E.
Qed.
Lemma dict_get_merge {V} k (a b : list (string * V)) :
  dict_get k b = None → dict_get k (dict_merge a b) = dict_get k a.
Proof.
  unfold dict_merge. revert a. induction b as [|[k' v] b IH]; intros a Hb; [done|]. simpl in *.
  case_bool_decide as Hk; [done|]. rewrite IH, dict_get_set by done. by rewrite bool_decide_false.
Qed.
Lemma dict_get_filter {V} k k' (m : list (string * V)) :
  dict_get k m = None ∨ k = k' → dict_get k (filter (λ kv, kv.1 ≠ k') m) = None.
Proof.
  intros Hk. induction m as [|[k1 v] m IH]; [done|]. destruct (decide (k1 = k')) as [->|Hne].
  - rewrite filter_cons_False by (simpl; naive_solver). apply IH. destruct Hk as [Hk|Hk]; [|by right].
    left. simpl in Hk. by case_bool_decide.
  - rewrite filter_cons_True by done. simpl in *. case_bool_decide as H1.
    + exfalso. destruct Hk; congruence.
    + by apply IH.
Qed.
Lemma object_conforms d o f grants :
  clean_metadata (o_metadata o) → conforms (Nested ObjectSerializer) (JObj (serialize_object d o f grants)) = true.
Proof.
  intros [Hclean Hcache]. unfold serialize_object, opt_id.
  set (base := [("eTag", _); ("size", _); ("mimetype", _); _; _; _; _]).
  set (md := dict_merge base _).
  assert (Hmd : conforms (Nested ObjectMetadataSerializer) (JObj md) = true).
  { rewrite (conforms_ext _ md base).
    - unfold base. assert (∃ s, default (JStr "max-age=3600") (dict_get "cacheControl" (o_metadata o)) = JStr s) as [s ->].
      { destruct (dict_get _ _) as [v|] eqn:Hv; [by apply Hcache|by eexists]. }
      destruct (truthy (o_etag o)); reflexivity.
    - intros fd Hfd. apply dict_get_merge, dict_get_filter.
      destruct (decide (field_name fd = "cacheControl")); [by right|left; by apply Hclean]. }
  clearbody md. assert (Hmd' : conforms (Nested ObjectMetadataSerializer) (JObj md) && true = true) by (by rewrite Hmd).
  destruct (o_owner_id o) as [z|]; [destruct (z == 0)|]; destruct (o_last_accessed_at o);
    etransitivity; [|exact Hmd'| |exact Hmd'| |exact Hmd'| |exact Hmd'| |exact Hmd'| |exact Hmd']; reflexivity.
Qed.
Lemma folder_conforms d b pfx grants cs name :
  conforms (Nested ObjectSerializer) (JObj (folder_entry d b pfx grants cs name)) = true.
Proof. unfold folder_entry. by destruct (folder_id cs name). Qed.

(** The entries of a listing are folders, and files whose rows are in the database. *)
Lemma py_slice_elem {A} a b (l : list A) x : x ∈ py_slice a b l → x ∈ l.
Proof.
  unfold py_slice. intros (i & Hi & _)%elem_of_take. rewrite lookup_drop in Hi. by eapply list_elem_of_lookup_2.
Qed.
Lemma entries_conform t d b prefix search column order p e :
  (∀ i o, db_objects d !! i = Some o → clean_metadata (o_metadata o)) →
  let entries := listing_entries t d b prefix search column order p in
  e ∈ entries.1 ++ entries.2 → conforms (Nested ObjectSerializer) (JObj e) = true.
Proof.
  intros Hclean entries [He|He]%elem_of_app; unfold entries, listing_entries in He; simpl in He;
    rewrite elem_of_sort_by, list_elem_of_fmap in He.
  - destruct He as (n & -> & _). apply folder_conforms.
  - destruct He as (o & -> & (((i & Hi) & _) & _)%elem_of_files). by apply object_conforms, (Hclean i).
Qed.

(** ** The handlers answer as documented *)
(** [include_effective]: an object is answered where a list is declared. *)
Definition effective (e : endpoint) (rq : http_request) : bool :=
  match e with
  | GrantList => lower (default "" (query_text "include_effective" rq)) in_ ["1"; "true"; "yes"]
  | _ => false
  end.

Ltac solve_answers :=
  repeat (cbv beta zeta; lazymatch goal with
  | |- ∀ _, _ => intros ?
  | |- answers _ (with_principal _ _) => apply answers_principal; [vm_compute; set_solver|]
  | |- answers _ (with_administrator _ _) => apply answers_administrator; [vm_compute; set_solver|vm_compute; set_solver|]
  | |- answers _ (guarded _ _ _) =>
      apply answers_guarded; [solve_throws|first [discriminate|intros _; vm_compute; set_solver]|]
  | |- answers _ (bind _ _) => apply answers_bind
  | |- answers _ (ret _) => apply answers_ret
  | |- answers _ (raise _) => by intros w
  | |- answers _ (match ?x with _ => _ end) => destruct x
  end).

Section documentation.
Context `{Settings, Backend, !BackendLaws, MimeTypes, StrictMimeTypes, StorageUrl, Receivers, !ReceiverLaws}.
Context `{DateParser, TokenSource}.
Context (parser_errors : ∀ s e, parse_datetime s = inl e → ∀ st code, e ≠ StorageError st code).

Lemma wp_skip {A B} (m : prog A) (k : A → prog B) Q w :
  (∀ a w', wp (k a) Q (λ _ _, True) w') → wp (bind m k) Q (λ _ _, True) w.
Proof. intros Hk. apply wp_bind. unfold wp at 1. destruct (m w) as [[x|a] w']; [done|]. apply Hk. Qed.
Lemma answers_object_info b path rq : answers (ObjectInfo b path) (ObjectInfoView_get b path rq).
Proof.
  unfold ObjectInfoView_get. apply answers_principal; [vm_compute; set_solver|]. intros p w.
  eapply answers_at_guarded; [solve_throws|intros _; vm_compute; set_solver|apply wp_get_accessible_object|].
  intros [b' o] w' (_ & _ & _ & _ & _ & (i & Hi) & _). unfold answers_at, now, get_db. wp_steps.
  apply (reply_success _ _ 200 (One ObjectSerializer)); [by left|done|]. intros Hc.
  by apply object_conforms, (Hc i o Hi).
Qed.
Lemma answers_object_list b rq : answers (ObjectList b) (ObjectListView_post b rq).
Proof.
  unfold ObjectListView_post. apply answers_principal; [vm_compute; set_solver|]. intros p w.
  eapply (answers_at_guarded _ _ _ _ (λ es w', clean w' → ∀ e, e ∈ es → conforms (Nested ObjectSerializer) (JObj e) = true));
    [solve_throws|discriminate| |].
  - cbv zeta. do 6 (apply wp_skip; intros ? ?). unfold list_objects, now, get_db. wp_steps.
    destruct (listing_entries _ _ _ _ _ _ _ _) as [fs os] eqn:Hes. apply wp_ret. intros Hc e He%py_slice_elem.
    by eapply entries_conform; [exact Hc|rewrite Hes].
  - intros es w' Hes. apply wp_ret.
    apply (reply_success _ _ 200 (Many ObjectSerializer)); [by left|done|]. intros Hc.
    unfold json_list. rewrite <- (list_fmap_id es). apply (many_conforms _ id). intros e He. by apply Hes.
Qed.

Lemma answers_object_by_id i rq : answers (ObjectById i) (ObjectByIdView_get i rq).
Proof.
  unfold ObjectByIdView_get. apply answers_principal; [vm_compute; set_solver|]. intros p w.
  eapply (answers_at_guarded _ _ _ _ (λ v _, conforms (Nested ObjectByIdSerializer) (JObj v) = true));
    [solve_throws|discriminate| |].
  - unfold resolve_item_by_id. destruct (parse_uuid _) as [uid|]; [|done]. apply wp_skip. intros d w1.
    destruct (db_objects d !! uid) as [o|]; [|done]. destruct (from_option _ _ _); [done|].
    destruct (obj_bucket d o) as [b|]; [|done]. apply wp_skip. intros _ w2. cbv zeta.
    by destruct (is_placeholder _); apply wp_ret.
  - intros v w' Hv. apply wp_ret, documented_reply.
    by apply (documented_success _ 200 (One ObjectByIdSerializer)); [by left| |].
Qed.
Lemma answers_grant_list rq : effective GrantList rq = false → answers GrantList (AccessGrantListCreateView_get rq).
Proof.
  intros He. unfold AccessGrantListCreateView_get. apply answers_principal; [vm_compute; set_solver|].
  intros p. cbv zeta. unfold effective in He. rewrite He. intros w.
  eapply (answers_at_guarded _ _ _ _ (λ gs _, body_conforms (Many AccessGrantSerializer) (CJson (json_list gs)) = true));
    [solve_throws|discriminate| |].
  - unfold list_grants. apply wp_skip. intros cid w1. apply wp_skip. intros d w2. apply wp_ret.
    apply many_conforms. intros g _. apply grant_conforms.
  - intros gs w' Hgs. apply wp_ret, documented_reply.
    by apply (documented_success _ 200 (Many AccessGrantSerializer)); [by left| |].
Qed.

(** The other handlers build their answer from nothing but its parts. *)
Lemma answers_dispatch e rq : effective e rq = false → answers e (dispatch e rq).
Proof.
  intros He. destruct e; try apply answers_object_info; try apply answers_object_list;
    try apply answers_object_by_id; try (by apply answers_grant_list); simpl;
    unfold BucketListCreateView_get, BucketListCreateView_post, BucketDetailView_get,
      BucketDetailView_put, BucketDetailView_delete, BucketEmptyView_post, ObjectResourceView_get, ObjectResourceView_post,
      ObjectResourceView_put, ObjectResourceView_upload, ObjectResourceView_delete,
      ObjectPublicDownloadView_get, ObjectDeleteManyView_delete, ObjectPrefixView_get, ObjectPrefixView_post,
      ObjectPrefixView_delete, ObjectMoveView_post, ObjectCopyView_post, move_paths, ObjectSignView_post,
      QuotaView_get, CompanyQuotaAdminView_put, UserQuotaAdminView_put,
      AccessGrantListCreateView_post, AccessGrantDetailView_delete, ObjectShareView_get,
      ObjectShareView_post, ShareLinkView_get, ShareLinkView_delete.
  all: solve_answers; repeat match goal with a : option _ |- _ => destruct a end; try reflexivity.
  - apply (documented_success _ 200 (Many BucketSerializer)); [by left|done|].
    apply many_conforms. intros x _. apply bucket_conforms.
  - apply (documented_success _ 200 (One BucketSerializer)); [by left|done|]. apply bucket_conforms.
  - apply (documented_success _ 200 (Many DeletedNameSerializer)); [by left|done|]. by apply many_conforms.
  - destruct p0 as [prefix deleted]. apply (documented_success _ 200 (One PrefixDeleteResponseSerializer));
      [by left|done|]. change (forallb (conforms CharField) (JStr <$> deleted) && true = true). by rewrite texts_conform.
  - by destruct (qs_user_max a0).
  - apply (documented_success _ 201 (One AccessGrantSerializer)); [by left|done|]. apply grant_conforms.
  - apply (documented_success _ 200 (Many ShareLinkSerializer)); [by left|done|].
    apply many_conforms. intros x _. apply link_conforms.
  - apply (documented_success _ 201 (One ShareLinkSerializer)); [by left|done|]. apply link_conforms.
  - apply (documented_success _ 200 (One ShareLinkSerializer)); [by left|done|]. apply link_conforms.
Qed.

(** With [include_effective] a list of grants is answered as another object, whose
    serializer exists and is attached to no endpoint. *)
Lemma effective_reply rq w : effective GrantList rq = true →
  wp (AccessGrantListCreateView_get rq)
    (λ r _, rs_status r = 200 ∧ body_conforms (One AccessGrantEffectiveSerializer) (rs_content r) = true ∨
            300 <= rs_status r ∧ reply_ok GrantList False r) (λ _ _, True) w.
Proof.
  intros He. assert (Herr : ∀ st code, st ∈ failures GrantList → 300 <= st ∧ reply_ok GrantList False (error_response st code)).
  { intros st code Hst. split; [by apply list_elem_of_filter in Hst as [? _]|by apply documented_error]. }
  unfold AccessGrantListCreateView_get, with_principal. destruct (rq_user rq) as [p|].
  2: { apply wp_ret. right. split; [done|]. by apply documented_reply. }
  cbv zeta. unfold effective in He. rewrite He. unfold guarded. apply wp_bind, wp_try, wp_bind.
  eapply wp_mono; [apply (wp_and _ (λ gp _, Forall (λ g, conforms (Nested AccessGrantSerializer) (JObj g) = true) gp.1)
    (λ _ _, True)); [|apply (throws_list_effective (failures GrantList)); solve_statuses]| |].
  - unfold list_grants_effective, list_grants. apply wp_skip. intros cid w1. cbv zeta. apply wp_bind, wp_skip.
    intros cid' w2. apply wp_skip. intros d w3. apply wp_ret. do 2 (apply wp_skip; intros ? ?). apply wp_ret.
    cbn [fst]. apply Forall_fmap, Forall_forall. intros g _. apply grant_conforms.
  - intros [gs anc] w' [Hgs _]. apply wp_ret, wp_ret. left. split; [done|]. cbn [fst] in Hgs.
    assert (Hmany : conforms (ListField (Nested AccessGrantSerializer)) (json_list gs) = true).
    { rewrite <- (list_fmap_id gs). apply (many_conforms _ id). rewrite Forall_forall in Hgs. apply Hgs. }
    assert (Hcut : conforms (ListField (Nested AccessGrantSerializer)) (json_list gs) && true = true) by (by rewrite Hmany).
    destruct anc; exact Hcut.
  - intros x w' [_ Hx]. destruct x as [st code| | | | | | | |]; simpl; try done.
    apply wp_ret, wp_ret. right. by apply Herr.
Qed.

(** C14: what the REST API answers, against its documentation.  Whatever request an endpoint
    gets, on whatever state, an answer of its handler is one of two.  A success has the
    declared status; its body conforms to the declared serializer, provided that the
    metadata clients have stored leave the fields of the service alone
    ([metadata_overrides]) and that grants are not listed with [include_effective]; with
    that parameter the body conforms to another serializer, which no endpoint declares.
    An error has a status that is declared or is listed in [undeclared] (401, 410, 413,
    415, 500 and 502 where the handlers raise them), and the error object with that
    status as its body, or is a refusal by the permission classes (401 or 403), whose
    body is that of the framework.  The text of the message is not modelled, and nothing
    is said of an exception that leaves the handler. *)
Theorem responses_documented : ∀ e rq w r w', dispatch e rq w = (inr r, w') →
  (effective e rq = false → reply_ok e (clean w') r) ∧
  (effective e rq = true →
     rs_status r = 200 ∧ body_conforms (One AccessGrantEffectiveSerializer) (rs_content r) = true ∨
     300 <= rs_status r ∧ reply_ok e False r).
Proof.
  intros e rq w r w' Hrun. split; intros He.
  - pose proof (answers_dispatch e rq He w) as Hok. unfold answers_at, wp in Hok. by rewrite Hrun in Hok.
  - destruct e; try discriminate He. pose proof (effective_reply rq w He) as Hok. unfold wp in Hok.
    cbn [dispatch] in Hrun. by rewrite Hrun in Hok.
Qed.
End documentation.

(** ** What a handler reads of a request *)
(** Members of a body and query parameters that are read and not documented. *)
Definition undocumented_fields (e : endpoint) : list string :=
  match e with PrefixRename _ | ObjectMove | ObjectCopy => ["from"] | _ => [] end.
Definition undocumented_query (e : endpoint) : list string :=
  match e with PrefixDelete _ => ["prefix"] | _ => [] end.

(** The requests agree on what the endpoint documents: the caller, the members of the body
    (or, for an upload, its bytes), the query parameters and the headers. *)
Record same_documented (e : endpoint) (rq rq' : http_request) : Prop := SameDocumented {
  sd_user : rq_user rq = rq_user rq';
  sd_fields : ∀ k, k ∈ field_name <$> default [] (request_fields e) →
    dict_get k (body_dict rq) = dict_get k (body_dict rq');
  sd_bytes : request_fields e = None → rq_body rq = rq_body rq';
  sd_query : ∀ k, k ∈ query_parameters e → last_get k (rq_query rq) = last_get k (rq_query rq');
  sd_headers : ∀ k, k ∈ header_parameters e → last_get k (rq_headers rq) = last_get k (rq_headers rq') }.
(** What else an endpoint reads. *)
Record same_undocumented (e : endpoint) (rq rq' : http_request) : Prop := SameUndocumented {
  su_fields : ∀ k, k ∈ undocumented_fields e → dict_get k (body_dict rq) = dict_get k (body_dict rq');
  su_query : ∀ k, k ∈ undocumented_query e → last_get k (rq_query rq) = last_get k (rq_query rq');
  (** a deletion of many takes a bare array for its body as well *)
  su_array : match e with
             | ObjectDeleteMany _ => rq_data rq = rq_data rq' ∨ ∃ l l', rq_data rq = JObj l ∧ rq_data rq' = JObj l'
             | _ => True
             end;
  (** an upload takes a form as well, with a file and a cache control *)
  su_upload : request_fields e = None →
    rq_content_type rq = rq_content_type rq' ∧ rq_metadata rq = rq_metadata rq' ∧ rq_files rq = rq_files rq' ∧
    ∀ k, k ∈ ["cacheControl"; "cache_control"] → last_get k (rq_fields rq) = last_get k (rq_fields rq') }.

(** Membership in a concrete list. *)
Ltac solve_listed := by apply (bool_decide_eq_true_1 _); vm_compute.

Section requests.
Context `{Settings, Backend, MimeTypes, StrictMimeTypes, StorageUrl, Receivers, DateParser, TokenSource}.

Lemma create_grant_reads p data data' :
  (∀ k, k ∈ field_name <$> AccessGrantCreateSerializer → dict_get k data = dict_get k data') →
  create_grant p data = create_grant p data'.
Proof.
  intros Hk. unfold create_grant, data_text. by rewrite !Hk by solve_listed.
Qed.

(** C15: what the handlers read of a request.  Two requests of the same caller that agree on
    the documented inputs of an endpoint, and on the few inputs it reads without
    documenting them, are treated alike, in answer and in effect, whatever else they
    hold.  The undocumented inputs are [from] for renames, moves and copies, the query
    parameter [prefix] for the deletion of a folder, a bare array for the deletion of many,
    and the content type, the metadata header and the form of an upload; each of them
    matters ([undocumented_inputs_matter]). *)
Theorem inputs_suffice : ∀ e rq rq' w,
  same_documented e rq rq' → same_undocumented e rq rq' → dispatch e rq w = dispatch e rq' w.
Proof.
  intros e rq rq' w [Hu Hf0 Hb Hq0 Hh] [Hf1 Hq1 Hd Hup]. cut (dispatch e rq = dispatch e rq'); [congruence|].
  assert (Hf : ∀ k, k ∈ (field_name <$> default [] (request_fields e)) ++ undocumented_fields e →
            dict_get k (body_dict rq) = dict_get k (body_dict rq')) by (intros k [?|?]%elem_of_app; auto).
  assert (Hq : ∀ k, k ∈ query_parameters e ++ undocumented_query e →
            last_get k (rq_query rq) = last_get k (rq_query rq')) by (intros k [?|?]%elem_of_app; auto).
  clear Hf0 Hf1 Hq0 Hq1.
  destruct e; simpl;
    unfold BucketListCreateView_get, BucketListCreateView_post, BucketDetailView_get,
      BucketDetailView_put, BucketDetailView_delete, BucketEmptyView_post, ObjectResourceView_get, ObjectResourceView_post,
      ObjectResourceView_put, ObjectResourceView_upload, ObjectResourceView_delete, ObjectListView_post, ObjectInfoView_get,
      ObjectPublicDownloadView_get, ObjectByIdView_get, ObjectDeleteManyView_delete, ObjectPrefixView_get, ObjectPrefixView_post,
      ObjectPrefixView_delete, ObjectMoveView_post, ObjectCopyView_post, move_paths, ObjectSignView_post,
      QuotaView_get, CompanyQuotaAdminView_put, UserQuotaAdminView_put, AccessGrantListCreateView_get,
      AccessGrantListCreateView_post, AccessGrantDetailView_delete, ObjectShareView_get,
      ObjectShareView_post, ShareLinkView_get, ShareLinkView_delete, with_administrator, with_principal,
      download_params, query_text, jget, data_text, deletion_paths, upload_upsert, upload_content_type, upload_cache_control,
      uploaded_file; cbv zeta; rewrite <- ?Hu.
  all: try first [ reflexivity | rewrite !Hf by solve_listed; reflexivity | rewrite !Hq by solve_listed; reflexivity ].
  - destruct (Hup eq_refl) as (-> & -> & -> & Hfo). rewrite (Hb eq_refl). by rewrite !Hfo, !Hh by solve_listed.
  - destruct (Hup eq_refl) as (-> & -> & -> & Hfo). rewrite (Hb eq_refl). by rewrite !Hfo by solve_listed.
  - destruct Hd as [->|(l & l' & Hl & Hl')]; [done|]. unfold body_dict in Hf. rewrite Hl, Hl' in *.
    unfold jget. by rewrite !Hf by solve_listed.
  - by rewrite !Hf, !Hq by solve_listed.
  - destruct (rq_user rq); [|done]. by rewrite (create_grant_reads _ (body_dict rq) (body_dict rq')).
Qed.
End requests.

(** The endpoints documented without credentials are those that need none
    ([Views.anonymous_rejected]). *)
Lemma auth_documented e : op_auth (schema e) = negb (is_public e).
Proof. by destruct e. Qed.

(** ** Concrete requests *)
Import StoreSpec.Demo GrantsDemo ShareDemo ViewsDemo.
Module ApiDemo.
Definition demo_info : http_request → prog response := dispatch (ObjectInfo "company" "docs/a.txt").
Definition answer (r : (exn + response) * world) : response :=
  match r.1 with inr r => r | inl _ => Response 500 CEmpty end.
(** The same file, uploaded with a header [x-metadata] that names a size. *)
Definition sized_world : world :=
  (dispatch (ObjectPut "company" "docs/a.txt")
     (HttpRequest (Some alice) JNull [] [] (JObj [("size", JStr "large")]) "text/plain" [] [] abc) demo_world1).2.
Definition with_query (q : list (string * string)) : http_request :=
  HttpRequest (Some alice) JNull q [] JNull "" [] [] [].
Lemma clean_demo : clean demo_world1.
Proof.
  cut (map_Forall (λ _ o, o_metadata o = []) (db_objects (w_db demo_world1))).
  { intros Hall i o Hi. rewrite (Hall i o Hi). split; [done|]. intros v Hv. discriminate Hv. }
  apply (bool_decide_eq_true_1 _). vm_compute. reflexivity.
Qed.
Lemma demo_parser s e : parse_datetime s = inl e → ∀ st code, e ≠ StorageError st code.
Proof. intros He. discriminate He. Qed.
End ApiDemo.
Import ApiDemo.

Lemma responses_documented_witness :
  let r := answer (demo_info as_alice demo_world1) in
  rs_status r = 200 ∧ body_conforms (One ObjectSerializer) (rs_content r) = true.
Proof.
  cbv zeta. split; [vm_compute; reflexivity|].
  destruct (demo_info as_alice demo_world1) as [[e|r] w'] eqn:Hrun; [vm_compute in Hrun; discriminate Hrun|].
  destruct (responses_documented demo_parser (ObjectInfo "company" "docs/a.txt") as_alice demo_world1 r w' Hrun) as [Hok _].
  destruct (Hok eq_refl) as [Hsucc _]. cbn [answer fst].
  assert (Hst : rs_status r = 200) by (apply (f_equal fst) in Hrun; vm_compute in Hrun; by injection Hrun as <-).
  rewrite Hst in Hsucc. destruct (Hsucc eq_refl) as [_ Hbody]. destruct Hbody as (s & Hin & Hs).
  { assert (w' = demo_world1) as -> by (apply (f_equal snd) in Hrun; vm_compute in Hrun; exact (eq_sym Hrun)).
    exact clean_demo. }
  assert (s = One ObjectSerializer) as ->; [|exact Hs].
  cut (Forall (λ p, p.1 = 200 → p.2 = One ObjectSerializer) (declared (ObjectInfo "company" "docs/a.txt"))).
  { intros Hall. rewrite Forall_forall in Hall. exact (Hall _ Hin eq_refl). }
  unfold declared. vm_compute. repeat constructor; discriminate.
Defined.

(** A member that is not documented changes nothing. *)
Lemma inputs_suffice_witness :
  let noise := request_of (Some alice) (JObj [("prefix", JStr "docs"); ("colour", JStr "red")]) in
  let plain := request_of (Some alice) (JObj [("prefix", JStr "docs")]) in
  status (dispatch (PrefixDelete "company") plain demo_world1) = 200 ∧
  dispatch (PrefixDelete "company") noise demo_world1 = dispatch (PrefixDelete "company") plain demo_world1.
Proof.
  split; [vm_compute; reflexivity|]. apply inputs_suffice; split; try done.
  all: intros k Hk; vm_compute in Hk.
  - by apply list_elem_of_singleton in Hk as ->.
  - by apply elem_of_nil in Hk.
Defined.

(** Metadata that a client sends replaces the fields of the service in the answer. *)
Example metadata_overrides :
  let r := answer (demo_info as_alice sized_world) in
  rs_status r = 200 ∧ documented (ObjectInfo "company" "docs/a.txt") r = false.
Proof. vm_compute. auto. Qed.
(** [include_effective] answers an object where a list of grants is declared. *)
Example effective_differs :
  let r := answer (dispatch GrantList (with_query [("include_effective", "1")]) private_world) in
  rs_status r = 200 ∧ documented GrantList r = false ∧
  body_conforms (One AccessGrantEffectiveSerializer) (rs_content r) = true.
Proof. vm_compute. auto. Qed.
(** A file that is too large is answered by a status that is not declared. *)
Example upload_undeclared :
  let big := HttpRequest (Some alice) JNull [] [] JNull "text/plain" [] [] (repeat Byte.x61 60) in
  status (dispatch (ObjectPost "company" "big.txt") big demo_world1) = 413 ∧
  bool_decide (413 ∈ (declared (ObjectPost "company" "big.txt")).*1) = false.
Proof. vm_compute. auto. Qed.
(** Each input that is read without being documented changes what a request does. *)
Example undocumented_inputs_matter :
  let body fields := request_of (Some alice) (JObj fields) in
  let renamed key := status (dispatch (PrefixRename "company") (body [(key, JStr "docs"); ("to", JStr "papers")]) demo_world1) in
  let moved e key := status (dispatch e (body [(key, JStr "company/docs/a.txt"); ("to", JStr "company/b.txt")]) demo_world1) in
  renamed "from" = 200 ∧ renamed "colour" = 400 ∧
  moved ObjectMove "from" = 200 ∧ moved ObjectMove "colour" = 400 ∧
  moved ObjectCopy "from" = 200 ∧ moved ObjectCopy "colour" = 400 ∧
  status (dispatch (PrefixDelete "company") (with_query [("prefix", "docs")]) demo_world1) = 200 ∧
  status (dispatch (PrefixDelete "company") (with_query []) demo_world1) = 400.
Proof. vm_compute. tauto. Qed.
Example undocumented_upload_matters :
  let put_with md ct files fields :=
    dispatch (ObjectPut "company" "b.txt") (HttpRequest (Some alice) JNull [] [] md ct files fields abc) demo_world1 in
  let file := [("file", UploadFile [Byte.x61] (Some "text/plain"))] in
  let row (run : (exn + response) * world) :=
    (λ o, (o_size o, o_mime_type o, o_metadata o)) <$> find_object (w_db run.2) 1 "b.txt" in
  let plain := row (put_with JNull "text/plain" [] []) in
  row (put_with (JObj [("a", JStr "b")]) "text/plain" [] []) ≠ plain ∧
  row (put_with JNull "text/html" [] []) ≠ plain ∧
  row (put_with JNull "text/plain" file []) ≠ plain ∧
  row (put_with JNull "text/plain" file [("cacheControl", "60")]) ≠ row (put_with JNull "text/plain" file []).
Proof. vm_compute. split_and!; discriminate. Qed.
