(* ===== verification/RestSpec.v ===== *)
(** * RestSpec: tenant isolation of the REST API

    One request of a member of a company, on any endpoint and with any outcome, leaves
    the files of every other company as they were, and keeps the storage consistent
    but for two kinds of batch deletion. *)
From S2P Require Import Prelude PyStr Models PyData Mime Signals Access Quotas Backends Services FileStore Folders Downloads StoreSpec Listing Shares Grants Views.

(** The files of the other companies are unchanged; and the storage is consistent. *)
Definition others_kept (c : Z) (w w' : world) : Prop :=
  ∀ bid b name, db_buckets (w_db w) !! bid = Some b → b_company_id b ≠ c →
    files w' bid name = files w bid name.
Definition isolated `{Backend} (c : Z) (w w' : world) : Prop := storage_inv w' ∧ others_kept c w w'.

(** Requests whose answer deletes several objects. *)
Definition batch_request (e : endpoint) : bool :=
  match e with BucketEmpty _ | ObjectDeleteMany _ | PrefixDelete _ => true | _ => false end.
(** The paths of a batch deletion are pairwise distinct (see [delete_paths_twice]). *)
Definition distinct_paths (e : endpoint) (rq : http_request) : Prop :=
  match e with
  | ObjectDeleteMany _ => ∀ l, deletion_paths rq = JList l → NoDup (valid_paths (py_str <$> l))
  | _ => True
  end.
(** The caller, when there is one, belongs to the company. *)
Definition caller_of (c : Z) (rq : http_request) : Prop :=
  ∀ p, rq_user rq = Some p → p_company_id p = Some c.

(** ** Lemmas *)
Lemma preserves_as_text I v : preserves I (as_text v).
Proof. unfold as_text. destruct v; solve_preserves. Qed.
Lemma preserves_as_int I v : preserves I (as_int v).
Proof. unfold as_int, lift_sum. solve_preserves. Qed.
Lemma preserves_as_column I v : preserves I (as_column v).
Proof. unfold as_column. destruct v; solve_preserves. Qed.
Lemma preserves_lift_sum {A} I (r : exn + A) : preserves I (lift_sum r).
Proof. unfold lift_sum. solve_preserves. Qed.
Lemma preserves_get_db I : preserves I get_db.
Proof. apply preserves_gets. Qed.
Lemma preserves_now I : preserves I now.
Proof. apply preserves_gets. Qed.
#[export] Hint Resolve preserves_as_text preserves_as_int preserves_as_column preserves_lift_sum
  preserves_get_db preserves_now : preserve.
Lemma preserves_move_paths I data : preserves I (move_paths data).
Proof. unfold move_paths. solve_preserves. Qed.
Lemma preserves_list_objects I b prefix limit offset search column order p :
  preserves I (list_objects b prefix limit offset search column order p).
Proof.
  unfold list_objects. apply preserves_bind; [auto with preserve|intros t].
  apply preserves_bind; [auto with preserve|intros d].
  destruct (listing_entries t d b prefix search column order p). apply preserves_ret.
Qed.
Lemma preserves_summarize I b folder p : preserves I (summarize_prefix b folder p).
Proof.
  unfold summarize_prefix. apply preserves_bind; [auto with preserve|intros t].
  apply preserves_bind; [auto with preserve|intros d]. cbv zeta.
  destruct (foldl _ _ _) as [[n s] k]. apply preserves_ret.
Qed.
Lemma preserves_resolve_item I p i : preserves I (resolve_item_by_id p i).
Proof.
  unfold resolve_item_by_id. destruct (parse_uuid i); [|solve_preserves].
  apply preserves_bind; [auto with preserve|intros d]. apply preserves_option; [intros o|solve_preserves].
  apply preserves_if; [solve_preserves|]. apply preserves_option; [intros b|solve_preserves].
  apply preserves_bind; [auto with preserve|intros _]. apply preserves_if; apply preserves_ret.
Qed.
Lemma preserves_list_grants I p rt rid bk : preserves I (list_grants p rt rid bk).
Proof. unfold list_grants. solve_preserves. Qed.
Lemma preserves_list_grants_effective I p rt rid bk : preserves I (list_grants_effective p rt rid bk).
Proof.
  unfold list_grants_effective. pose proof (preserves_list_grants I p rt rid bk). solve_preserves.
Qed.
#[export] Hint Resolve preserves_move_paths preserves_list_objects preserves_summarize
  preserves_resolve_item preserves_list_grants preserves_list_grants_effective : preserve.
Lemma alter_touch (i : uuid) t (m : gmap uuid sobject) o : m !! i = Some o → alter (touch t) i m = <[i:=touch t o]> m.
Proof.
  intros Ho. apply map_eq. intros j. destruct (decide (i = j)) as [<-|].
  - by rewrite lookup_alter_eq, lookup_insert_eq, Ho.
  - by rewrite lookup_alter_ne, lookup_insert_ne.
Qed.
Lemma stored_bytes_touch d i t cid :
  stored_bytes (set_objects (alter (touch t) i) d) cid = stored_bytes d cid.
Proof.
  unfold stored_bytes. simpl. destruct (db_objects d !! i) as [o|] eqn:Ho.
  - rewrite (alter_touch i t _ o Ho).
    rewrite (row_sum_replace _ _ _ o _ Ho). simpl. lia.
  - f_equal. apply map_eq. intros j. destruct (decide (i = j)) as [<-|].
    + by rewrite lookup_alter_eq, Ho.
    + by rewrite lookup_alter_ne.
Qed.

(** *** Deletions in a bucket spare the other buckets

    Whatever becomes of a deletion, complete, repeated or cut short and rolled back,
    the rows of the other buckets and the blobs they refer to are as before. *)
Section spared.
Context `{Settings, Backend, !BackendLaws, Receivers, !ReceiverLaws}.
Context (w : world) (bid : uuid) (Hinv : storage_inv w).

Definition foreign_row (d : db) (i : uuid) (o : sobject) : Prop :=
  o_bucket_id o ≠ bid ∧ ∃ o', db_objects d !! i = Some o' ∧ erase_metadata o' = erase_metadata o.
Record spared_db (d : db) : Prop := SparedDb {
  sd_rows i o : foreign_row d i o ↔ foreign_row (w_db w) i o }.
Definition spared_blobs (m : gmap string bytes) : Prop :=
  ∀ i o, foreign_row (w_db w) i o → m !! o_storage_key o = w_blobs w !! o_storage_key o.
Definition spared (w' : world) : Prop := spared_db (w_db w') ∧ spared_blobs (w_blobs w').

Lemma spared_here : spared w.
Proof. by split. Qed.
Lemma foreign_erase d d' i o :
  erase_metadata <$> db_objects d' = erase_metadata <$> db_objects d →
  foreign_row d i o → foreign_row d' i o.
Proof.
  intros E [Hne (o' & Ho' & He)]. split; [done|]. pose proof (f_equal (.!! i) E) as Ei.
  rewrite !lookup_fmap, Ho' in Ei. simpl in Ei. destruct (db_objects d' !! i) as [o2|]; [|done].
  exists o2. split; [done|]. simpl in Ei. congruence.
Qed.
Lemma spared_db_erase d d' :
  erase_metadata <$> db_objects d' = erase_metadata <$> db_objects d → spared_db d → spared_db d'.
Proof.
  intros E [Hd]. split. intros i o. rewrite <- Hd. split; by apply foreign_erase.
Qed.
Lemma spared_files w' b name : spared w' → b ≠ bid → files w' b name = files w b name.
Proof.
  intros [[Hrows] Hblobs] Hb. destruct (find_object (w_db w') b name) as [o'|] eqn:Hf.
  - pose proof Hf as (Hbk & Hn & i & Ho')%find_object_Some.
    assert (Hfor : foreign_row (w_db w) i o').
    { apply Hrows. split; [congruence|]. by exists o'. }
    destruct Hfor as [_ (o & Ho & He)]. pose proof (erase_metadata_fields _ _ He) as (_ & Hb2 & Hn2 & _ & _ & _ & Hk).
    assert (Hfo : find_object (w_db w) b name = Some o).
    { apply find_object_iff; [apply Hinv|]. split; [by exists i|]. split; congruence. }
    unfold files. rewrite Hf, Hfo. simpl. rewrite Hk. apply (Hblobs i). split; [congruence|]. by exists o.
  - assert (Hfo : find_object (w_db w) b name = None).
    { apply find_object_None. intros i o Ho Hbk Hn.
      destruct (proj2 (Hrows i o)) as [_ (o' & Ho' & He)]; [split; [congruence|by exists o]|].
      pose proof (erase_metadata_fields _ _ He) as (_ & Hb2 & Hn2 & _).
      eapply (proj1 (find_object_None w' b name) Hf i o'); [done|congruence|congruence]. }
    unfold files. by rewrite Hf, Hfo.
Qed.

(** [o] is, or was, a row of the bucket. *)
Definition row_of_bucket (o : sobject) : Prop :=
  (∃ i, db_objects (w_db w) !! i = Some o) ∧ o_bucket_id o = bid.
Lemma foreign_other o i o' : row_of_bucket o → foreign_row (w_db w) i o' →
  i ≠ o_id o ∧ o_storage_key o' ≠ o_storage_key o.
Proof.
  intros [[j Ho] Hb] [Hne (o2 & Ho2 & He)]. pose proof (inv_object_id w (proj1 Hinv) j o Ho) as Hid.
  pose proof (erase_metadata_fields _ _ He) as (_ & Hb2 & _ & _ & _ & _ & Hk).
  assert (Hij : i ≠ j) by (intros ->; congruence). split; [congruence|].
  intros Heq. apply Hij. apply (key_inj w i j o2 o); [apply Hinv|done|done|congruence].
Qed.
Lemma spared_delete_object o r : row_of_bucket o → preserves spared (delete_object o r).
Proof.
  intros Ho. apply preserves_wp. intros w1 [Hd Hm]. unfold delete_object. apply wp_atomic.
  unfold get_db, modify_db. wp_steps. apply wp_delete_storage_key; [|intros e; by split].
  match goal with |- wp _ _ _ ?x => set (w2 := x) end.
  assert (Hw2 : spared w2).
  { split.
    - split. intros i o'. rewrite <- (sd_rows _ Hd). unfold w2, foreign_row. simpl.
      split; intros [Hne (o2 & Ho2 & He)]; split; try done; exists o2; split; try done.
      + by apply lookup_delete_Some in Ho2 as [_ ?].
      + rewrite lookup_delete_ne; [done|].
        assert (Hf : foreign_row (w_db w) i o') by (apply (sd_rows _ Hd); split; [done|by exists o2]).
        destruct (foreign_other o i o' Ho Hf). congruence.
    - intros i o' Hf. unfold w2. simpl. rewrite lookup_delete_ne; [by apply (Hm i)|].
      destruct (foreign_other o i o' Ho Hf). congruence. }
  apply wp_bind, wp_apply_usage_delta. intros w3 [_ Eo _ _] Ec _ _ _ _ _ _.
  eapply wp_mono; [apply object_deleted_law| |done]. intros u w4 Hq.
  pose proof (quiet_store _ _ Hq) as Hst. split.
  - eapply spared_db_erase, Hw2. by rewrite (ss_objects _ _ Hst), Eo.
  - rewrite (ss_blobs _ _ Hst), Ec. apply Hw2.
Qed.
Lemma spared_delete_each {A} (f : A → sobject) (g : A → string) l r :
  (∀ a, a ∈ l → row_of_bucket (f a)) → preserves spared (map_m (λ a, delete_object (f a) r ;;; ret (g a)) l).
Proof.
  induction l as [|a l IH]; intros Hl; cbn [map_m]; [apply preserves_ret|].
  apply preserves_bind; [|intros x; apply preserves_bind; [|intros; apply preserves_ret]].
  - apply preserves_bind; [|intros; apply preserves_ret]. apply spared_delete_object, Hl. by left.
  - apply IH. intros a' Ha'. apply Hl. by right.
Qed.
(** The whole batch, with its transaction. *)
Lemma wp_atomic_spared {A} (m : prog A) :
  wp m (λ _, spared) (λ _, spared) w → wp (atomic m) (λ _, spared) (λ _, spared) w.
Proof.
  intros Hm. apply wp_atomic. eapply wp_mono; [exact Hm|done|]. intros e w' [_ Hb].
  split; [apply spared_here|exact Hb].
Qed.
End spared.

Section spared_batches.
Context `{Settings, Backend, !BackendLaws, Receivers, !ReceiverLaws}.
Context (w : world) (b : bucket) (Hinv : storage_inv w).
Abbreviation spares m := (wp m (λ _, spared w (b_id b)) (λ _, spared w (b_id b)) w).

Lemma spares_each {A} (f : A → sobject) (g : A → string) l r :
  (∀ a, a ∈ l → row_of_bucket w (b_id b) (f a)) → spares (map_m (λ a, delete_object (f a) r ;;; ret (g a)) l).
Proof. intros Hl. apply wp_preserves; [by apply spared_delete_each|apply spared_here]. Qed.
Lemma spares_prefix folder p r : spares (delete_under_prefix b folder p r).
Proof.
  apply wp_atomic_spared. unfold get_db. wp_steps.
  apply wp_assert_can_write_all; [intros _|apply spared_here].
  apply (spares_each id). by intros o (? & ? & _)%elem_of_objects_under_prefix.
Qed.
Lemma spares_empty p r : spares (empty_bucket b p r).
Proof.
  apply wp_atomic_spared. unfold get_db. wp_steps.
  apply wp_assert_can_write_all; [intros _|apply spared_here].
  apply (wp_for_each_map_m _ o_name), (spares_each id). by intros o ?%elem_of_bucket_files.
Qed.
Lemma spares_paths paths p r : spares (delete_paths b paths p r).
Proof.
  apply wp_atomic_spared, wp_bind.
  eapply wp_mono; [apply (wp_collect_to_delete b p paths w (λ _ w', w' = w)); done| |].
  - intros l w' (-> & _ & Hall). apply (spares_each snd fst). intros [n o] Hin.
    apply Hall in Hin as [(? & ? & ?)%find_object_Some _]. done.
  - intros e w' ->. apply spared_here.
Qed.
End spared_batches.

Section isolation.
Context `{Settings, Backend, !BackendLaws, MimeTypes, StrictMimeTypes, StorageUrl}.
Context `{Receivers, !ReceiverLaws, DateParser, TokenSource}.
Context (c : Z) (w : world) (batch : bool) (Hinv : storage_inv w) (Hprov : provisioned w c).

Definition iso (w' : world) : Prop := isolated c w w'.
Definition iso_exn (e : exn) (w' : world) : Prop := (batch = true → ¬ is_backend_error e) → iso w'.
Definition own (b : bucket) : Prop := stored w b ∧ b_company_id b = c.

Lemma iso_here : iso w.
Proof. by split. Qed.
Lemma iso_error e : iso_exn e w.
Proof. intros _. apply iso_here. Qed.
Lemma iso_files w' : storage_inv w' → files w' ≡ files w → iso w'.
Proof. intros Hi Hf. split; [done|]. intros bid b name _ _. apply Hf. Qed.
Lemma iso_upload_error w' : upload_error w w' → iso w'.
Proof. intros (_ & Hi & Hf). by apply iso_files. Qed.
Lemma iso_own b w' :
  own b → storage_inv w' → (∀ bid name, bid ≠ b_id b → files w' bid name = files w bid name) → iso w'.
Proof.
  intros [Hb Hc] Hi Hf. split; [done|]. intros bid b' name Hb' Hne. apply Hf. intros ->.
  unfold stored in Hb. congruence.
Qed.
Lemma iso_write b name content w' :
  own b → storage_inv w' → written b name content w w' → iso w'.
Proof.
  intros Hb Hi [_ [Hf|Hf]]; [|by apply iso_files]. apply (iso_own b); [done..|]. intros bid n Hne. rewrite (Hf bid n).
  unfold fs_write. rewrite decide_False; [done|tauto].
Qed.
Lemma iso_remove_where b P w' :
  own b → storage_inv w' → files w' ≡ fs_remove_where (b_id b) P (files w) → iso w'.
Proof.
  intros Hb Hi Hf. apply (iso_own b); [done..|]. intros bid n Hne. rewrite (Hf bid n).
  unfold fs_remove_where. rewrite decide_False; [done|tauto].
Qed.

Lemma wp_own_bucket_checked p name wr ad (Q : bucket → world → Prop) (R : exn → world → Prop) :
  p_company_id p = Some c →
  (∀ b, own b → b_name b = name → can_access_bucket (w_now w) (w_db w) p b wr ad = true → Q b w) →
  (∀ e, R e w) → wp (get_accessible_bucket p name wr ad) Q R w.
Proof.
  intros Hp HQ HR. destruct Hprov as (b0 & Hb0 & Hk & Hpub).
  unfold get_accessible_bucket, require_company_id, ensure_company_bucket, get_db.
  rewrite Hp. wp_steps. rewrite Hb0. wp_steps.
  rewrite Hk, Hpub, bool_decide_true by done. cbn [negb orb]. wp_steps.
  destruct (find_bucket (w_db w) c name) as [b|] eqn:Hb; [|wp_steps; apply HR].
  apply find_bucket_Some in Hb as (Hc & Hn & i & Hi). wp_steps.
  apply wp_assert_can_access_bucket; [|done]. intros Hacc. apply wp_ret, HQ; [|done..]. split; [|done].
  unfold stored. by rewrite (inv_bucket_id w (proj1 Hinv) i b Hi).
Qed.
Lemma wp_own_bucket p name wr ad (Q : bucket → world → Prop) (R : exn → world → Prop) :
  p_company_id p = Some c → (∀ b, own b → Q b w) → (∀ e, R e w) →
  wp (get_accessible_bucket p name wr ad) Q R w.
Proof. intros Hp HQ HR. apply wp_own_bucket_checked; auto. Qed.
Lemma wp_own_object p bn path wr ad (Q : bucket * sobject → world → Prop) (R : exn → world → Prop) :
  p_company_id p = Some c →
  (∀ b o i, own b → db_objects (w_db w) !! i = Some o → o_bucket_id o = b_id b → Q (b, o) w) →
  (∀ e, R e w) → wp (get_accessible_object p bn path wr ad) Q R w.
Proof.
  intros Hp HQ HR. unfold get_accessible_object, lift_sum, get_db. apply wp_bind.
  apply wp_own_bucket; [done| |done]. intros b Hb. apply wp_bind.
  destruct (safe_object_path path) as [e|name]; [wp_steps; apply HR|]. wp_steps.
  destruct (find_object (w_db w) (b_id b) name) as [o|] eqn:Ho; [|wp_steps; apply HR].
  apply find_object_Some in Ho as (Hob & _ & i & Hi). wp_steps.
  apply wp_assert_can_access_path; [|done]. intros _. by apply wp_ret, (HQ b o i).
Qed.

(** The shape of every handler. *)
Lemma wp_handler (rq : http_request) k :
  caller_of c rq →
  (∀ p, p_company_id p = Some c → wp (k p) (λ _, iso) iso_exn w) →
  wp (with_principal rq k) (λ _, iso) iso_exn w.
Proof.
  intros Hrq Hk. unfold with_principal. destruct (rq_user rq) as [p|] eqn:Hp.
  - apply Hk. by apply Hrq.
  - apply wp_ret, iso_here.
Qed.
Lemma wp_guarded_iso {A} ve (m : prog A) (k : A → prog response) :
  wp m (λ a w', wp (k a) (λ _, iso) iso_exn w') iso_exn w →
  wp (guarded ve m k) (λ _, iso) iso_exn w.
Proof.
  intros Hm. apply wp_guarded. eapply wp_mono; [exact Hm|done|].
  intros e w' He. split; [done|]. intros Hb _ _. by apply He.
Qed.
(** A program that only reads ends in the world it started in. *)
Lemma wp_reads {A} (m : prog A) (Q : A → world → Prop) (R : exn → world → Prop) w1 :
  preserves (eq w1) m → (∀ a, Q a w1) → (∀ e, R e w1) → wp m Q R w1.
Proof.
  intros Hm HQ HR. eapply wp_mono; [apply (wp_preserves (eq w1)); [exact Hm|done]| |].
  - by intros a ? <-.
  - by intros e ? <-.
Qed.

(** *** The operations that change files *)
Lemma iso_upload b path content owner ct upsert meta cc r :
  own b → wp (upload_object_with b path content owner ct upsert meta cc r) (λ _, iso) iso_exn w.
Proof.
  intros Hb. eapply wp_mono; [apply wp_upload_object_with; [done|apply Hb]| |].
  - intros o w' (name & _ & [Hi Hf _ _ _ _] & _). by eapply iso_write.
  - intros e w' He _. by apply iso_upload_error.
Qed.
Lemma iso_copy b s b' d owner r :
  own b → own b' → wp (copy_object b s b' d owner r) (λ _, iso) iso_exn w.
Proof.
  intros Hb Hb'. eapply wp_mono; [apply wp_copy_object; [done|apply Hb|apply Hb']| |].
  - intros o w' (src & dst & x & _ & _ & _ & _ & [Hi Hf _ _ _ _] & _). by eapply iso_write.
  - intros e w' He _. by apply iso_upload_error.
Qed.
Lemma iso_move b s b' d :
  own b → own b' → wp (move_object b s b' d) (λ _, iso) iso_exn w.
Proof.
  intros Hb Hb'. eapply wp_mono; [apply wp_move_object; [done|apply Hb|apply Hb']| |].
  - intros o w' (src & dst & x & _ & _ & _ & _ & Hi & Hf & _). split; [done|].
    intros bid b0 name Hb0 Hne. rewrite (Hf bid name). unfold fs_move.
    assert (bid ≠ b_id b) by (intros ->; destruct Hb as [Hs ?]; unfold stored in Hs; congruence).
    assert (bid ≠ b_id b') by (intros ->; destruct Hb' as [Hs ?]; unfold stored in Hs; congruence).
    rewrite !decide_False; [done|tauto..].
  - intros e w' He _. by apply iso_upload_error.
Qed.
Lemma iso_rename b s d : own b → wp (rename_folder b s d) (λ _, iso) iso_exn w.
Proof.
  intros Hb. eapply wp_mono; [by apply wp_rename_folder| |].
  - intros res w' (src & dst & _ & _ & _ & _ & Hi & Hf & _). apply (iso_own b); [done..|].
    intros bid n Hne. rewrite (Hf bid n). unfold fs_rename. by rewrite decide_False.
  - intros e w' He _. by apply iso_upload_error.
Qed.
Lemma iso_delete b o i r :
  own b → db_objects (w_db w) !! i = Some o → o_bucket_id o = b_id b →
  wp (delete_object o r) (λ _, iso) iso_exn w.
Proof.
  intros Hb Ho Hbk. eapply wp_mono; [apply wp_delete_object; [done|]| |].
  - apply (current_row w i); [apply Hinv|done].
  - intros u w' (Hi & Hf & _). apply (iso_own b); [done..|]. intros bid n Hne.
    rewrite (Hf bid n). unfold fs_remove. rewrite decide_False; [done|]. rewrite Hbk. tauto.
  - intros e w' (_ & Ed & Eb & Eu) _. apply iso_upload_error. split; [done|].
    rewrite <- (atomic_restores w'), Ed. apply (rolled_back w w'); [done|].
    apply blobs_same_grow; [done|lia].
Qed.
Lemma iso_delete_failure e w' : batch = true → delete_failure w e w' → iso_exn e w'.
Proof.
  intros Hb [[-> ->]|[He _]]; [apply iso_error|]. intros Hno. by destruct (Hno Hb).
Qed.
Lemma iso_delete_prefix b folder p r :
  batch = true → own b → wp (delete_under_prefix b folder p r) (λ _, iso) iso_exn w.
Proof.
  intros Hbt Hb. eapply wp_mono; [by apply wp_delete_under_prefix| |].
  - intros names w' (Hi & Hf & _). by eapply iso_remove_where.
  - intros e w'. by apply iso_delete_failure.
Qed.
Lemma iso_empty b p r : batch = true → own b → wp (empty_bucket b p r) (λ _, iso) iso_exn w.
Proof.
  intros Hbt Hb. eapply wp_mono; [by apply wp_empty_bucket| |].
  - intros u w' (Hi & Hf & _). by eapply iso_remove_where.
  - intros e w'. by apply iso_delete_failure.
Qed.
Lemma iso_delete_paths b paths p r :
  batch = true → own b → NoDup (valid_paths paths) →
  wp (delete_paths b paths p r) (λ _, iso) iso_exn w.
Proof.
  intros Hbt Hb Hnd. eapply wp_mono; [by apply wp_delete_paths| |].
  - intros u w' (Hi & Hf & _). by eapply iso_remove_where.
  - intros e w'. by apply iso_delete_failure.
Qed.

(** *** The operations that change other tables *)
(** Changes that leave the buckets, the objects and the bytes used alone. *)
Lemma iso_change w1 d :
  db_buckets d = db_buckets (w_db w1) → db_objects d = db_objects (w_db w1) →
  (∀ cid, company_used d cid = company_used (w_db w1) cid) →
  iso w1 → iso (set_db (λ _, d) w1).
Proof.
  intros Eb Eo Eu [[Hi Hq] Hx].
  assert (Hst : store_step w1 (set_db (λ _, d) w1)) by (split; simpl; [done|by rewrite Eo|done|lia]).
  split; [split|].
  - by eapply store_step_inv.
  - intros cid. simpl. rewrite Eu, Hq. unfold stored_bytes. by rewrite Eo.
  - intros bid b name Hb Hne. rewrite (store_step_files _ _ Hst Hi bid name). by apply (Hx bid b).
Qed.
Lemma iso_grants w1 f : iso w1 → iso (set_db (set_grants f) w1).
Proof. intros Hw. by apply (iso_change w1 (set_grants f (w_db w1))). Qed.
Lemma iso_links w1 f : iso w1 → iso (set_db (set_links f) w1).
Proof. intros Hw. by apply (iso_change w1 (set_links f (w_db w1))). Qed.
Lemma iso_user_quotas w1 f : iso w1 → iso (set_db (set_user_quotas f) w1).
Proof. intros Hw. by apply (iso_change w1 (set_user_quotas f (w_db w1))). Qed.
Lemma iso_company_quota w1 cid q :
  cq_used_bytes q = company_used (w_db w1) cid → iso w1 →
  iso (set_db (set_company_quotas (insert cid q)) w1).
Proof.
  intros Hq Hw. apply (iso_change w1 (set_company_quotas (insert cid q) (w_db w1))); try done.
  intros cid'. unfold company_used at 1. simpl. rewrite lookup_insert.
  case_decide as Hc; [by subst cid'|done].
Qed.
Lemma iso_quota_step w1 w2 : quota_step w1 w2 → iso w1 → iso w2.
Proof.
  intros Hs [[Hi Hq] Hx]. pose proof (quota_step_store _ _ Hs) as Hst. split; [split|].
  - by eapply store_step_inv.
  - by eapply quota_exact_step.
  - intros bid b name Hb Hne. rewrite (store_step_files _ _ Hst Hi bid name). by apply (Hx bid b).
Qed.
Lemma iso_uuid w1 : iso w1 → iso (uuid4 w1).2.
Proof.
  intros [[Hi Hq] Hx].
  assert (Hst : store_step w1 (uuid4 w1).2) by (split; simpl; [done..|lia]).
  split; [split; [by eapply store_step_inv|exact Hq]|].
  intros bid b name Hb Hne. rewrite (store_step_files _ _ Hst Hi bid name). by apply (Hx bid b).
Qed.
Lemma iso_touch w1 i t : iso w1 → iso (set_db (set_objects (alter (touch t) i)) w1).
Proof.
  intros [[Hi Hq] Hx]. destruct (touch_step w1 i t Hi) as [Hi' Hf]. split; [split; [exact Hi'|]|].
  - intros cid. unfold company_used. simpl. fold (company_used (w_db w1) cid). rewrite Hq.
    symmetry. by apply stored_bytes_touch.
  - intros bid b name Hb Hne. rewrite (Hf bid name). by apply (Hx bid b).
Qed.

(** *** Handlers *)
Lemma iso_reads {A} (m : prog A) (Q : A → world → Prop) :
  preserves (eq w) m → (∀ a, Q a w) → wp m Q iso_exn w.
Proof. intros Hm HQ. eapply wp_reads; [done..|apply iso_error]. Qed.

Lemma handle_upload up bn path rq :
  caller_of c rq → wp (ObjectResourceView_upload up bn path rq) (λ _, iso) iso_exn w.
Proof.
  intros Hrq. apply wp_handler; [done|]. intros p Hp. apply wp_guarded_iso, wp_bind.
  apply wp_own_bucket; [done| |apply iso_error]. intros b Hb. unfold lift_sum. apply wp_bind.
  destruct (safe_object_path path); wp_step; [apply iso_error|]. apply wp_bind.
  apply wp_assert_can_access_path; [|intros; apply iso_error]. intros _.
  eapply wp_mono; [by apply iso_upload| |done]. intros o w' Hw. by apply wp_ret.
Qed.
Lemma handle_delete bn path rq :
  caller_of c rq → wp (ObjectResourceView_delete bn path rq) (λ _, iso) iso_exn w.
Proof.
  intros Hrq. apply wp_handler; [done|]. intros p Hp. apply wp_guarded_iso, wp_bind.
  apply wp_own_object; [done| |apply iso_error]. intros b o i Hb Ho Hbk.
  eapply wp_mono; [by eapply iso_delete| |done]. intros u w' Hw. by apply wp_ret.
Qed.
Lemma handle_get bn path rq :
  caller_of c rq → wp (ObjectResourceView_get bn path rq) (λ _, iso) iso_exn w.
Proof.
  intros Hrq. apply wp_handler; [done|]. intros p Hp. apply wp_guarded_iso.
  apply wp_own_object; [done| |apply iso_error]. intros b o i Hb Ho Hbk.
  destruct (download_params rq) as [att name]. unfold build_download_response, now, modify_db.
  wp_steps. assert (Ht := iso_touch w (o_id o) (w_now w) iso_here).
  apply wp_default_storage_open; [intros x _; by do 2 apply wp_ret|]. intros e _. exact Ht.
Qed.
Lemma handle_empty bn rq :
  batch = true → caller_of c rq → wp (BucketEmptyView_post bn rq) (λ _, iso) iso_exn w.
Proof.
  intros Hbt Hrq. apply wp_handler; [done|]. intros p Hp. apply wp_guarded_iso, wp_bind.
  apply wp_own_bucket; [done| |apply iso_error]. intros b Hb.
  eapply wp_mono; [by apply iso_empty| |done]. intros u w' Hw. by apply wp_ret.
Qed.
Lemma handle_delete_many bn rq :
  batch = true → caller_of c rq → distinct_paths (ObjectDeleteMany bn) rq →
  wp (ObjectDeleteManyView_delete bn rq) (λ _, iso) iso_exn w.
Proof.
  intros Hbt Hrq Hd. apply wp_handler; [done|]. intros p Hp. apply wp_guarded_iso, wp_bind.
  apply wp_own_bucket; [done| |apply iso_error]. intros b Hb. simpl in Hd.
  destruct (deletion_paths rq) as [| | | |l|]; try (do 2 apply wp_ret; apply iso_here).
  apply wp_bind. eapply wp_mono; [apply iso_delete_paths; [done..|by apply Hd]| |done].
  intros names w' Hw. by do 2 apply wp_ret.
Qed.
Lemma handle_prefix_delete bn rq :
  batch = true → caller_of c rq → wp (ObjectPrefixView_delete bn rq) (λ _, iso) iso_exn w.
Proof.
  intros Hbt Hrq. apply wp_handler; [done|]. intros p Hp. apply wp_guarded_iso, wp_bind.
  apply wp_own_bucket; [done| |apply iso_error]. intros b Hb. cbv zeta.
  apply wp_if; intros _; [do 2 apply wp_ret; apply iso_here|].
  apply wp_bind. apply iso_reads; [auto with preserve|].
  intros prefix. unfold lift_sum. apply wp_bind.
  destruct (safe_object_path prefix); wp_step; [apply iso_error|]. apply wp_bind.
  eapply wp_mono; [by apply iso_delete_prefix| |done].
  intros names w' Hw. by do 2 apply wp_ret.
Qed.
Lemma handle_rename bn rq :
  caller_of c rq → wp (ObjectPrefixView_post bn rq) (λ _, iso) iso_exn w.
Proof.
  intros Hrq. apply wp_handler; [done|]. intros p Hp. apply wp_guarded_iso, wp_bind.
  apply wp_own_bucket; [done| |apply iso_error]. intros b Hb. cbv zeta. unfold lift_sum.
  apply wp_if; intros _; [do 2 apply wp_ret; apply iso_here|].
  apply wp_bind. destruct (safe_object_path _); wp_step; [apply iso_error|].
  apply wp_bind. destruct (safe_object_path _); wp_step; [apply iso_error|].
  apply wp_bind, wp_assert_can_access_path; [intros _|intros; apply iso_error].
  apply wp_bind, wp_assert_can_access_path; [intros _|intros; apply iso_error].
  apply wp_bind. eapply wp_mono; [by apply iso_rename| |done].
  intros names w' Hw. by do 2 apply wp_ret.
Qed.
Lemma handle_move rq : caller_of c rq → wp (ObjectMoveView_post rq) (λ _, iso) iso_exn w.
Proof.
  intros Hrq. apply wp_handler; [done|]. intros p Hp. apply wp_guarded_iso, wp_bind.
  apply iso_reads; [auto with preserve|intros _]. apply wp_bind.
  apply iso_reads; [auto with preserve|]. intros [[[sb sp] [db_ dp]]|]; [|do 2 apply wp_ret; apply iso_here].
  apply wp_bind, wp_own_bucket; [done| |apply iso_error]. intros b Hb.
  apply wp_bind, wp_own_bucket; [done| |apply iso_error]. intros b' Hb'.
  apply wp_bind, wp_assert_can_access_path; [intros _|intros; apply iso_error].
  apply wp_bind, wp_assert_can_access_path; [intros _|intros; apply iso_error].
  apply wp_bind. eapply wp_mono; [by apply iso_move| |done]. intros o w' Hw. by do 2 apply wp_ret.
Qed.
Lemma handle_copy rq : caller_of c rq → wp (ObjectCopyView_post rq) (λ _, iso) iso_exn w.
Proof.
  intros Hrq. apply wp_handler; [done|]. intros p Hp. apply wp_guarded_iso, wp_bind.
  apply iso_reads; [auto with preserve|intros _]. apply wp_bind.
  apply iso_reads; [auto with preserve|]. intros [[[sb sp] [db_ dp]]|]; [|do 2 apply wp_ret; apply iso_here].
  apply wp_bind, wp_own_bucket; [done| |apply iso_error]. intros b Hb.
  apply wp_bind, wp_own_bucket; [done| |apply iso_error]. intros b' Hb'.
  apply wp_bind, wp_assert_can_access_path; [intros _|intros; apply iso_error].
  apply wp_bind, wp_assert_can_access_path; [intros _|intros; apply iso_error].
  apply wp_bind. eapply wp_mono; [by apply iso_copy| |done]. intros o w' Hw. by do 2 apply wp_ret.
Qed.

(** Handlers that read a bucket or an object of the company and answer. *)
Lemma handle_bucket_read {A} ve p bn wr (m : bucket → prog A) (k : A → prog response) :
  p_company_id p = Some c → (∀ b, preserves (eq w) (m b)) → (∀ a, preserves (eq w) (k a)) →
  wp (guarded ve (b <- get_accessible_bucket p bn wr false ;; m b) k) (λ _, iso) iso_exn w.
Proof.
  intros Hp Hm Hk. apply wp_guarded_iso, wp_bind, wp_own_bucket; [done| |apply iso_error].
  intros b Hb. apply iso_reads; [done|]. intros a. apply iso_reads; [done|]. intros r. apply iso_here.
Qed.
Lemma handle_bucket_read' ve p bn wr (k : bucket → prog response) :
  p_company_id p = Some c → (∀ b, preserves (eq w) (k b)) →
  wp (guarded ve (get_accessible_bucket p bn wr false) k) (λ _, iso) iso_exn w.
Proof.
  intros Hp Hk. apply wp_guarded_iso, wp_own_bucket; [done| |apply iso_error].
  intros b Hb. apply iso_reads; [done|]. intros r. apply iso_here.
Qed.
Lemma handle_object_read ve p bn path (k : bucket * sobject → prog response) :
  p_company_id p = Some c → (∀ b, preserves (eq w) (k b)) →
  wp (guarded ve (get_accessible_object p bn path false false) k) (λ _, iso) iso_exn w.
Proof.
  intros Hp Hk. apply wp_guarded_iso, wp_own_object; [done| |apply iso_error].
  intros b o i Hb Ho Hbk. apply iso_reads; [done|]. intros r. apply iso_here.
Qed.
Lemma handle_plain_read {A} ve (m : prog A) (k : A → prog response) :
  preserves (eq w) m → (∀ a, preserves (eq w) (k a)) →
  wp (guarded ve m k) (λ _, iso) iso_exn w.
Proof.
  intros Hm Hk. apply wp_guarded_iso, iso_reads; [done|]. intros a.
  apply iso_reads; [done|]. intros r. apply iso_here.
Qed.
Lemma handle_bucket_list rq : caller_of c rq → wp (BucketListCreateView_get rq) (λ _, iso) iso_exn w.
Proof.
  intros Hrq. apply wp_handler; [done|]. intros p Hp. apply wp_guarded_iso.
  destruct Hprov as (b0 & Hb0 & Hk & Hpub).
  unfold list_accessible_buckets, require_company_id, ensure_company_bucket, get_db, now.
  rewrite Hp. wp_steps. rewrite Hb0. wp_steps.
  rewrite Hk, Hpub, bool_decide_true by done. cbn [negb orb]. wp_steps. apply iso_here.
Qed.
Lemma handle_sign bn path rq :
  caller_of c rq → wp (ObjectSignView_post bn path rq) (λ _, iso) iso_exn w.
Proof.
  intros Hrq. apply wp_handler; [done|]. intros p Hp. apply wp_guarded_iso. cbv zeta.
  apply wp_bind, iso_reads; [auto with preserve|intros e]. apply wp_bind.
  destruct (json_or _ _);
    try (apply wp_bind, wp_own_bucket; [done|intros ? _; apply wp_raise, iso_error|apply iso_error]).
  apply wp_own_object; [done| |apply iso_error]. intros b' o i Hb Ho Hbk.
  do 2 apply wp_ret. apply iso_here.
Qed.

(** *** Quotas *)
Lemma handle_quota rq : caller_of c rq → wp (QuotaView_get rq) (λ _, iso) iso_exn w.
Proof.
  intros Hrq. apply wp_handler; [done|]. intros p Hp. apply wp_guarded_iso.
  apply iso_reads; [auto with preserve|]. intros cid. unfold snapshot, get_db. do 2 apply wp_bind.
  apply wp_get_company_quota_step. intros w1 Hs. wp_steps.
  destruct (resolve_user_limit _ _ _ _). do 2 apply wp_ret. by eapply iso_quota_step, iso_here.
Qed.
Lemma handle_company_quota cid rq :
  caller_of c rq → wp (CompanyQuotaAdminView_put cid rq) (λ _, iso) iso_exn w.
Proof.
  intros Hrq. apply wp_handler; [done|]. intros p Hp.
  apply wp_if; intros _; [|apply wp_ret, iso_here].
  apply wp_if; intros _; [apply wp_ret, iso_here|]. cbv zeta. apply wp_bind.
  apply wp_get_company_quota_step. intros w1 Hs. pose proof (iso_quota_step _ _ Hs iso_here) as Hw1.
  assert (He : ∀ e, iso_exn e w1) by (intros e _; exact Hw1).
  apply wp_bind, wp_reads; [solve_preserves|intros mx|done].
  apply wp_bind, wp_reads; [solve_preserves|intros pu|done].
  unfold modify_db. wp_steps. apply iso_company_quota; [|done].
  simpl. by rewrite quota_of_used, (qs_used _ _ Hs).
Qed.
Lemma handle_user_quota cid uid rq :
  caller_of c rq → wp (UserQuotaAdminView_put cid uid rq) (λ _, iso) iso_exn w.
Proof.
  intros Hrq. apply wp_handler; [done|]. intros p Hp.
  apply wp_if; intros _; [|apply wp_ret, iso_here].
  apply wp_if; intros _; [apply wp_ret, iso_here|].
  apply wp_option; [intros v _|intros _; apply wp_ret, iso_here].
  apply wp_bind, iso_reads; [auto with preserve|]. intros mx. unfold get_db, modify_db. wp_steps.
  apply iso_user_quotas, iso_here.
Qed.

(** *** Grants and links *)
Lemma iso_create_grant_row cid bid oid st sid rt perm eff by_ exp notes :
  preserves iso (create_grant_row cid bid oid st sid rt perm eff by_ exp notes).
Proof.
  unfold create_grant_row. apply preserves_bind; [exact iso_uuid|intros i].
  apply preserves_bind; [auto with preserve|intros t]. apply preserves_if; [|auto with preserve].
  apply preserves_bind; [intros w1; apply iso_grants|auto with preserve].
Qed.
Lemma wp_own_manage p bn rt rid ad (Q : unit → world → Prop) :
  p_company_id p = Some c → Q tt w → wp (assert_can_manage_resource p bn rt rid ad) Q iso_exn w.
Proof.
  intros Hp HQ. unfold assert_can_manage_resource.
  apply wp_if; intros _; apply wp_bind, wp_own_bucket; try done; try apply iso_error.
  intros b _. apply iso_reads; [|by intros []]. apply preserves_if; auto with preserve.
Qed.
Lemma preserves_choice {A} I (value : A → string) members v code :
  preserves I (choice value members v code).
Proof. unfold choice. solve_preserves. Qed.
Lemma handle_grant_create rq :
  caller_of c rq → wp (AccessGrantListCreateView_post rq) (λ _, iso) iso_exn w.
Proof.
  intros Hrq. apply wp_handler; [done|]. intros p Hp. apply wp_guarded_iso.
  assert (Hdone : ∀ cid bid oid st sid rt perm eff exp notes w1, iso w1 →
    wp (create_grant_row cid bid oid st sid rt perm eff (Some (p_user_id p)) exp notes)
      (λ g w', wp (d <- get_db ;; ret (Response 201 (CJson (JObj (serialize_grant d g)))))
                 (λ _, iso) iso_exn w') iso_exn w1).
  { intros. eapply wp_mono; [apply (wp_preserves iso); [apply iso_create_grant_row|done]| |].
    - intros g w' Hw'. unfold get_db. by wp_steps.
    - intros e w' Hw' _. done. }
  unfold create_grant. cbv zeta. apply wp_bind, iso_reads; [auto with preserve|intros cid].
  apply wp_bind, iso_reads; [unfold normalize_resource_id; solve_preserves|intros rid].
  apply wp_bind. eapply wp_mono; [apply wp_parse_expires_at| |intros e w' ->; apply iso_error].
  intros exp ? ->. apply wp_bind, iso_reads; [apply preserves_choice|intros st].
  apply wp_if; intros _; [apply wp_raise, iso_error|].
  apply wp_bind, iso_reads; [apply preserves_choice|intros rt].
  apply wp_bind, iso_reads; [apply preserves_choice|intros perm].
  apply wp_bind, iso_reads; [apply preserves_choice|intros eff].
  apply wp_bind, wp_own_bucket; [done| |apply iso_error]. intros b Hb.
  apply wp_bind, wp_own_manage; [done|].
  apply wp_bind, iso_reads; [apply preserves_when; auto with preserve|intros _]. apply wp_bind.
  destruct rt.
  - apply wp_ret, Hdone, iso_here.
  - apply wp_bind. eapply wp_mono; [apply wp_ensure_folder_marker; [done|apply Hb]| |].
    + intros o w' (Hi & _ & _ & _ & Hsame & Hnew & _). apply wp_ret, Hdone.
      destruct (files w (b_id b) (folder_placeholder_path rid)) as [x|] eqn:Hf.
      * rewrite (Hsame x eq_refl). apply iso_here.
      * eapply iso_write; [done..|]. by apply written_now, Hnew.
    + intros e w' He _. by apply iso_upload_error.
  - unfold get_db at 1. wp_steps. apply wp_option; [intros o _; apply wp_ret, Hdone, iso_here|].
    intros _. apply wp_raise, iso_error.
Qed.
Lemma handle_grant_delete i rq :
  caller_of c rq → wp (AccessGrantDetailView_delete i rq) (λ _, iso) iso_exn w.
Proof.
  intros Hrq. apply wp_handler; [done|]. intros p Hp. apply wp_guarded_iso. unfold delete_grant.
  apply wp_bind, iso_reads; [auto with preserve|intros cid]. unfold get_db, modify_db. wp_steps.
  apply wp_option; [intros g _|intros _; apply wp_raise, iso_error].
  apply wp_if; intros _; [apply wp_raise, iso_error|].
  apply wp_if; intros _; [apply wp_raise, iso_error|]. cbv zeta. apply wp_bind, wp_when; intros _.
  - apply wp_own_manage; [done|].
    apply wp_bind, iso_reads; [apply preserves_when; auto with preserve|intros _].
    wp_steps. apply iso_grants, iso_here.
  - apply wp_bind, iso_reads; [apply preserves_when; auto with preserve|intros _].
    wp_steps. apply iso_grants, iso_here.
Qed.
Lemma wp_own_shareable p bn path (Q : bucket * sobject → world → Prop) :
  p_company_id p = Some c → (∀ bo, Q bo w) → wp (shareable_object p bn path) Q iso_exn w.
Proof.
  intros Hp HQ. unfold shareable_object, get_db. apply wp_bind, wp_own_bucket; [done| |apply iso_error].
  intros b Hb. apply iso_reads; [|done]. solve_preserves.
Qed.
Lemma handle_share_create bn path rq :
  caller_of c rq → wp (ObjectShareView_post bn path rq) (λ _, iso) iso_exn w.
Proof.
  intros Hrq. apply wp_handler; [done|]. intros p Hp. cbv zeta. apply wp_guarded_iso.
  apply wp_bind, wp_own_shareable; [done|]. intros bo.
  apply wp_bind. eapply wp_mono; [apply wp_parse_expires_at| |intros e w' ->; apply iso_error].
  intros exp ? ->. apply wp_bind.
  eapply wp_mono; [apply wp_parse_max_downloads| |intros e w' ->; apply iso_error].
  intros cap ? [-> _]. apply wp_if; intros _; [apply wp_raise, iso_error|]. unfold now. wp_steps.
  apply wp_if; intros _; [apply wp_raise, iso_error|].
  pose proof (iso_uuid _ (iso_uuid w iso_here)) as Hw2. revert Hw2.
  unfold uuid4, create_link_row, get_db, modify_db, wp, bind, gets, modify. simpl. intros Hw2.
  destruct (row_exists _ _); simpl; [by intros _|]. by apply (iso_links _ _ Hw2).
Qed.
Lemma handle_share_list bn path rq :
  caller_of c rq → wp (ObjectShareView_get bn path rq) (λ _, iso) iso_exn w.
Proof.
  intros Hrq. apply wp_handler; [done|]. intros p Hp. apply wp_guarded_iso.
  apply wp_bind, wp_own_shareable; [done|]. intros bo. unfold get_db, now. wp_steps. apply iso_here.
Qed.
Lemma handle_share_redeem token rq : wp (ShareLinkView_get token rq) (λ _, iso) iso_exn w.
Proof.
  unfold ShareLinkView_get. apply wp_guarded_iso. unfold redeem_share_link. apply wp_atomic.
  assert (Hback : ∀ w1 e, w_blobs w1 = w_blobs w → w_now w1 = w_now w → w_next_uuid w1 = w_next_uuid w →
            iso_exn e (World (w_db w) (w_blobs w1) (w_now w1) (w_next_uuid w1))).
  { intros w1 e -> -> ->. rewrite atomic_restores. apply iso_error. }
  unfold get_db, now, modify_db. wp_steps.
  apply wp_option; [intros l _|intros _; by apply wp_raise, (Hback w)].
  apply wp_if; intros _; [by apply wp_raise, (Hback w)|]. wp_steps.
  apply wp_option; [intros o Ho|intros _; by apply wp_raise, Hback].
  wp_steps. destruct (download_params rq) as [att name].
  unfold build_download_response, now, modify_db. wp_steps.
  set (w1 := set_db (set_links _) w).
  assert (Hw1 : iso (set_db (set_objects (insert (o_id o) (touch (w_now w) o))) w1)).
  { replace (set_db _ w1) with (set_db (set_objects (alter (touch (w_now w)) (o_id o))) w1).
    - apply iso_touch, iso_links, iso_here.
    - unfold set_db, set_objects. simpl. rewrite (alter_touch _ _ _ o); [done|].
      by rewrite (inv_object_id w (proj1 Hinv) _ o Ho). }
  apply (iso_touch _ (o_id o) (w_now w)) in Hw1.
  apply wp_default_storage_open; [intros x _; by do 2 apply wp_ret|]. intros e _. exact Hw1.
Qed.
Lemma handle_share_revoke token rq :
  caller_of c rq → wp (ShareLinkView_delete token rq) (λ _, iso) iso_exn w.
Proof.
  intros Hrq. apply wp_handler; [done|]. intros p Hp. apply wp_guarded_iso.
  unfold revoke_share_link, get_db, now, modify_db. wp_steps.
  apply wp_option; [intros l _|intros _; apply wp_raise, iso_error].
  apply wp_if; intros _; [apply wp_raise, iso_error|].
  apply wp_if; intros _; [apply wp_raise, iso_error|].
  apply wp_if; intros _; wp_steps; [apply iso_links, iso_here|apply iso_here].
Qed.

(** *** Every endpoint *)
Lemma wp_dispatch e rq :
  caller_of c rq → distinct_paths e rq → (batch_request e = true → batch = true) →
  wp (dispatch e rq) (λ _, iso) iso_exn w.
Proof.
  intros Hrq Hd Hbt.
  assert (Hconst : ∀ r, wp (with_principal rq (λ _, ret r)) (λ _, iso) iso_exn w).
  { intros r. apply wp_handler; [done|]. intros p _. apply wp_ret, iso_here. }
  destruct e; cbn [dispatch batch_request] in *; try apply Hconst.
  - by apply handle_bucket_list.
  - apply wp_handler; [done|]. intros p Hp. apply handle_bucket_read'; [done|]. intros b0. solve_preserves.
  - apply handle_empty; auto.
  - by apply handle_get.
  - by apply handle_upload.
  - by apply handle_upload.
  - by apply handle_delete.
  - apply wp_ret, iso_here.
  - apply wp_handler; [done|]. intros p Hp. apply handle_object_read; [done|]. intros bo. solve_preserves.
  - apply wp_handler; [done|]. intros p Hp. apply handle_plain_read; solve_preserves.
  - apply wp_handler; [done|]. intros p Hp.
    apply handle_bucket_read; [done| |intros; solve_preserves]. intros b0. cbv zeta. solve_preserves.
  - apply handle_delete_many; auto.
  - apply wp_handler; [done|]. intros p Hp.
    apply handle_bucket_read; [done| |intros; solve_preserves]. intros b0. cbv zeta. solve_preserves.
  - by apply handle_rename.
  - apply handle_prefix_delete; auto.
  - by apply handle_move.
  - by apply handle_copy.
  - by apply handle_sign.
  - by apply handle_quota.
  - by apply handle_company_quota.
  - by apply handle_user_quota.
  - apply wp_handler; [done|]. intros p Hp. cbv zeta.
    apply wp_if; intros _; apply handle_plain_read; solve_preserves.
  - by apply handle_grant_create.
  - by apply handle_grant_delete.
  - by apply handle_share_list.
  - by apply handle_share_create.
  - apply handle_share_redeem.
  - by apply handle_share_revoke.
Qed.

(** *** Batches, whatever becomes of them *)
Abbreviation kept m := (wp m (λ _, others_kept c w) (λ _, others_kept c w) w).

Lemma kept_here : others_kept c w w.
Proof. done. Qed.
Lemma kept_spared b w' : own b → spared w (b_id b) w' → others_kept c w w'.
Proof.
  intros [Hb Hc] Hsp bid b' name Hb' Hne. eapply spared_files; [done..|]. intros ->.
  unfold stored in Hb. congruence.
Qed.
Lemma kept_mono {A} b (m : prog A) :
  own b → wp m (λ _, spared w (b_id b)) (λ _, spared w (b_id b)) w → kept m.
Proof. intros Hb Hm. eapply wp_mono; [exact Hm|..]; intros ? w'; by apply kept_spared. Qed.
(** A handler that deletes in a bucket of the company and answers. *)
Lemma kept_handler {A} ve bn rq (m : principal → bucket → prog A) (k : A → response) :
  caller_of c rq → (∀ p b, own b → kept (m p b)) →
  kept (with_principal rq (λ p, guarded ve (b <- get_accessible_bucket p bn true false ;; m p b)
                                  (λ a, ret (k a)))).
Proof.
  intros Hrq Hm. unfold with_principal. destruct (rq_user rq) as [p|] eqn:Hp; [|by apply wp_ret].
  apply wp_guarded, wp_bind. apply wp_own_bucket; [by apply Hrq| |done]. intros b Hb.
  eapply wp_mono; [by apply Hm|intros a w' Hw; by apply wp_ret|]. intros e w' Hw. by split.
Qed.
Lemma wp_batch e rq : caller_of c rq → batch_request e = true → kept (dispatch e rq).
Proof.
  intros Hrq Hbt. destruct e; try done; cbn [dispatch].
  - apply (kept_handler false _ rq (λ p b1, empty_bucket b1 p (rq_user rq))); [done|].
    intros p b1 Hb. by apply (kept_mono b1), spares_empty.
  - apply kept_handler; [done|]. intros p b1 Hb.
    destruct (deletion_paths rq) as [| | | |l|]; try by apply wp_ret. apply wp_bind.
    eapply wp_mono; [by apply (kept_mono b1), spares_paths| |done]. intros names w' Hw. by apply wp_ret.
  - apply kept_handler; [done|]. intros p b1 Hb. cbv zeta. apply wp_if; intros _; [by apply wp_ret|].
    apply wp_bind, wp_reads; [auto with preserve|intros prefix|done].
    unfold lift_sum. apply wp_bind. destruct (safe_object_path prefix); wp_step; [done|]. apply wp_bind.
    eapply wp_mono; [by apply (kept_mono b1), spares_prefix| |done]. intros names w' Hw. by apply wp_ret.
Qed.
End isolation.

(** ** Properties *)

(** C9: tenant isolation.  Whatever one request of a member of a company asks for, on
    any endpoint, and whatever the answer, every file in a bucket of another company
    keeps its content: without exception, a deletion of several objects that the blob
    backend stops half way included.  The storage also stays consistent, but for such
    a deletion and for a batch deletion that names a path twice
    ([delete_paths_twice]). *)
Theorem requests_are_isolated `{Settings, Backend, !BackendLaws, MimeTypes,
    StrictMimeTypes, StorageUrl, Receivers, !ReceiverLaws, DateParser, TokenSource} :
  ∀ e rq c w r w',
  storage_inv w → provisioned w c → caller_of c rq → dispatch e rq w = (r, w') →
  (∀ bid b name, db_buckets (w_db w) !! bid = Some b → b_company_id b ≠ c →
     files w' bid name = files w bid name) ∧
  (distinct_paths e rq → (batch_request e = true → ∀ code, r ≠ inl (BackendError code)) →
   storage_inv w').
Proof.
  intros e rq c w r w' Hinv Hprov Hrq Hrun.
  assert (Hiso : distinct_paths e rq → (batch_request e = true → ∀ code, r ≠ inl (BackendError code)) →
            isolated c w w').
  { intros Hd Hbatch.
    pose proof (wp_dispatch c w (batch_request e) Hinv Hprov e rq Hrq Hd id) as Hwp.
    unfold wp in Hwp. rewrite Hrun in Hwp. destruct r as [x|r]; [|done].
    apply Hwp. intros Hb [code ->]. by apply (Hbatch Hb code). }
  split; [|intros Hd Hb; by apply Hiso]. destruct (batch_request e) eqn:Hb.
  - pose proof (wp_batch c w Hinv Hprov e rq Hrq Hb) as Hwp. unfold wp in Hwp. rewrite Hrun in Hwp.
    by destruct r.
  - apply Hiso; [|done]. by destruct e.
Qed.

(** Two companies: a request of the first, and a file of the second. *)
Module TwoCompanies.
Definition other_bucket : bucket :=
  Bucket 2 COMPANY_BUCKET_NAME 8 KIND_COMPANY false None [] None "" 0 0.
Definition two_world0 : world :=
  World (set_buckets (λ _, {[ 1%N := Demo.demo_bucket; 2%N := other_bucket ]}) empty_db) ∅ 1000 3.
Definition secret_upload : prog sobject :=
  @upload_object demo_settings Demo.demo_backend Demo.demo_mime silent other_bucket "secret.txt"
    Demo.abc (Some 9) None false [] None None.
Definition two_world : world := (secret_upload two_world0).2.
Definition put_request : http_request :=
  HttpRequest (Some Demo.alice) JNull [] [] JNull "text/plain" [] [] [Byte.x61].
End TwoCompanies.
Import Demo ShareDemo GrantsDemo ViewsDemo TwoCompanies.

Lemma two_world0_inv : storage_inv two_world0.
Proof.
  split; [split|]; simpl; try (intros *; by rewrite lookup_empty).
  - intros i b [[<- <-]|[_ [<- <-]%lookup_singleton_Some]]%lookup_insert_Some; done.
  - by intros cid.
Qed.
Lemma two_world_inv : storage_inv two_world.
Proof.
  pose proof (wp_upload_object other_bucket "secret.txt" abc (Some 9) None false [] None None
    two_world0 two_world0_inv eq_refl) as Hwp.
  unfold two_world, secret_upload. unfold wp in Hwp.
  destruct (upload_object _ _ _ _ _ _ _ _ _ two_world0) as [[e|o] w']; simpl in *.
  - apply Hwp.
  - destruct Hwp as (name & _ & Hsa & _). apply Hsa.
Qed.

Lemma requests_are_isolated_witness :
  let run := dispatch (ObjectPut "company" "secret.txt") put_request two_world in
  status run = 200 ∧ files run.2 1%N "secret.txt" = Some [Byte.x61] ∧
  files run.2 2%N "secret.txt" = Some abc.
Proof.
  cbv zeta. split; [vm_compute; reflexivity|split; [vm_compute; reflexivity|]].
  destruct (requests_are_isolated (ObjectPut "company" "secret.txt") put_request 7 two_world
    (dispatch (ObjectPut "company" "secret.txt") put_request two_world).1
    (dispatch (ObjectPut "company" "secret.txt") put_request two_world).2) as [Hfiles _].
  - apply two_world_inv.
  - exists demo_bucket. vm_compute. auto.
  - intros p [= <-]. reflexivity.
  - apply surjective_pairing.
  - transitivity (files two_world 2%N "secret.txt"); [|vm_compute; reflexivity].
    apply (Hfiles 2%N other_bucket); [vm_compute; reflexivity|discriminate].
Defined.
