(* ===== verification/WebDav.v ===== *)
(** * WebDav: the WebDAV surface ([apps/webdav/views.py])

    Requests arrive with the caller that [_authenticate] found (or none).  The XML text
    of a multistatus body is not modelled: a body is the list of its entries.  A string
    holds characters up to U+00FF; escapes of other characters are outside the model. *)
From S2P Require Import Prelude PyStr Models PyData Mime Signals Access Quotas Backends Services FileStore Folders Downloads StoreSpec Listing Shares Grants Views RestSpec.

(** ** Percent encoding ([urllib.parse.quote] and [unquote]) *)
Definition code (c : ascii) : Z := Z.of_N (N_of_ascii c).
Definition char_of (k : Z) : ascii := ascii_of_N (Z.to_N k).
Definition upper_hex (n : Z) : ascii := char_of (if n <? 10 then 48 + n else 55 + n).
Definition escape_byte (k : Z) : string :=
  String "%" (String (upper_hex (k / 16)) (String (upper_hex (k mod 16)) EmptyString)).
Definition unreserved (c : ascii) : bool :=
  let k := code c in
  ((48 <=? k) && (k <=? 57)) || ((65 <=? k) && (k <=? 90)) || ((97 <=? k) && (k <=? 122)) ||
  (c in_ ["_"%char; "."%char; "-"%char; "~"%char]).
(** The UTF-8 bytes of a character, escaped. *)
Definition quote_char (c : ascii) : string :=
  let k := code c in
  if unreserved c then String c EmptyString
  else if k <? 128 then escape_byte k
  else escape_byte (192 + k / 64) +:+ escape_byte (128 + k mod 64).
Fixpoint quote (s : string) : string :=
  match s with EmptyString => "" | String c s' => quote_char c +:+ quote s' end.

Definition hex_value (c : ascii) : option Z :=
  v ← digit_of c; if v <? 16 then Some v else None.
(** The characters of a string, an escape standing for one byte (marked [true]). *)
Fixpoint unescape (s : string) : list (bool * Z) :=
  match s with
  | EmptyString => []
  | String c s' =>
      match s' with
      | String a (String b rest) =>
          if c == "%"%char then
            match hex_value a, hex_value b with
            | Some x, Some y => (true, 16 * x + y) :: unescape rest
            | _, _ => (false, code c) :: unescape s'
            end
          else (false, code c) :: unescape s'
      | _ => (false, code c) :: unescape s'
      end
  end.
(** Two escaped bytes of a two-byte UTF-8 sequence are a character from U+0080 to
    U+00FF.  Strings of the model hold no other character: escaped bytes from %80 on that
    form no such sequence, which Python decodes to a character beyond them or to U+FFFD,
    stand for themselves here, and the theorems say nothing of such paths. *)
Fixpoint decode_latin (l : list (bool * Z)) : string :=
  match l with
  | [] => ""
  | (ex, x) :: l' =>
      match l' with
      | (ey, y) :: rest =>
          if ex && ey && (194 <=? x) && (x <=? 195) && (128 <=? y) && (y <=? 191)
          then String (char_of ((x - 192) * 64 + (y - 128))) (decode_latin rest)
          else String (char_of x) (decode_latin l')
      | [] => String (char_of x) EmptyString
      end
  end.
Definition unquote (s : string) : string := decode_latin (unescape s).

(** ** Paths *)
(** [_parse_path]: bucket and object path of the rest of the URL. *)
Definition parse_path (path : string) : option string * string :=
  let cleaned := strip_char "/" (unquote path) in
  if negb (truthy cleaned) then (None, "")
  else
    let '(bucket, rest) := partition_char "/" cleaned in
    (if truthy bucket then Some bucket else None, strip_char "/" rest).

(** [_href] *)
Definition href (bucket : option string) (object_path : string) (collection : bool) : string :=
  let parts :=
    ["/dav"] ++ (match bucket with Some b => if truthy b then [quote b] else [] | None => [] end) ++
    (if truthy object_path
     then quote <$> filter (λ seg, seg ≠ "") (split_char "/" object_path) else []) in
  let h := join_char "/" parts in
  if collection && negb (endswith "/" h) then h +:+ "/" else h.

(** The path of [urlsplit(url)]: an unbalanced bracket in the host raises. *)
Definition scheme_char (c : ascii) : bool :=
  let k := code c in
  ((48 <=? k) && (k <=? 57)) || ((65 <=? k) && (k <=? 90)) || ((97 <=? k) && (k <=? 122)) ||
  (c in_ ["+"%char; "-"%char; "."%char]).
Definition is_alpha (c : ascii) : bool :=
  let k := code c in ((65 <=? k) && (k <=? 90)) || ((97 <=? k) && (k <=? 122)).
Definition drop_scheme (url : string) : string :=
  if has_char ":" url then
    let '(scheme, rest) := partition_char ":" url in
    if from_option is_alpha false (head_char scheme) && str_forall scheme_char scheme
    then rest else url
  else url.
Fixpoint split_netloc (s : string) : string * string :=
  match s with
  | EmptyString => ("", "")
  | String c s' =>
      if c in_ ["/"%char; "?"%char; "#"%char] then ("", s)
      else let '(n, r) := split_netloc s' in (String c n, r)
  end.
Definition before_char (a : ascii) (s : string) : string :=
  if has_char a s then (partition_char a s).1 else s.
Definition urlsplit_path (url : string) : exn + string :=
  let url := remove_char "009" (remove_char "010" (remove_char "013" url)) in
  let rest := drop_scheme url in
  let '(netloc, rest) :=
    if startswith "//" rest then split_netloc (str_drop 2 rest) else ("", rest) in
  if xorb (has_char "[" netloc) (has_char "]" netloc) then inl ValueError
  else inr (before_char "?" (before_char "#" rest)).
(** [re.search(r'/dav/(.+)$', path)], group 1. *)
Fixpoint find_dav (s : string) : option string :=
  match s with
  | EmptyString => None
  | String _ s' =>
      if startswith "/dav/" s then
        let rest := str_drop 5 s in
        let line := before_char "010" rest in
        if truthy line && ((rest == line) || (rest == line +:+ String "010" EmptyString))
        then Some line else find_dav s'
      else find_dav s'
  end.
(** [_destination_dav_path] *)
Definition destination_dav_path (destination : string) : exn + option string :=
  let raw := strip destination in
  if negb (truthy raw) then inr None
  else match urlsplit_path raw with
       | inl e => inl e
       | inr path => inr (find_dav (unquote (str_or path raw)))
       end.

Example parse_encoded : parse_path "/company/My%20File%C3%A9.pdf" =
  (Some "company", "My File" +:+ String (char_of 233) ".pdf").
Proof. vm_compute. reflexivity. Qed.
Example destination_absolute :
  destination_dav_path "https://host:8000/dav/company/a%20b?x=1" = inr (Some "company/a b").
Proof. vm_compute. reflexivity. Qed.

(** ** Responses *)
Inductive dav_entry :=
| DavCollection (href displayname : string)
| DavObject (href displayname contentlength contenttype : string) (etag : option string)
    (lastmodified : string).
Inductive dav_content :=
| DavNone
| DavMultistatus (l : list dav_entry)
| DavHead (contenttype contentlength : string) (etag : option string)
| DavFile (d : download).
Record dav_response := DavResponse { dv_status : Z; dv_content : dav_content }.
Definition dav (status : Z) : dav_response := DavResponse status DavNone.

(** [strftime('%a, %d %b %Y %H:%M:%S GMT')] of an aware UTC datetime *)
Definition nth_name (l : list string) (i : Z) : string := default "" (l !! Z.to_nat i).
Definition http_date (t : datetime) : string :=
  let days := t / us_per_day in
  let '(y, m, d) := civil_of_days days in
  let s := (t mod us_per_day) / 1000000 in
  nth_name ["Thu"; "Fri"; "Sat"; "Sun"; "Mon"; "Tue"; "Wed"] (days mod 7) +:+ ", " +:+
  pad_digits 2 d +:+ " " +:+
  nth_name [""; "Jan"; "Feb"; "Mar"; "Apr"; "May"; "Jun"; "Jul"; "Aug"; "Sep"; "Oct"; "Nov"; "Dec"] m
  +:+ " " +:+ pad_digits 4 y +:+ " " +:+ pad_digits 2 (s / 3600) +:+ ":" +:+
  pad_digits 2 (s / 60 mod 60) +:+ ":" +:+ pad_digits 2 (s mod 60) +:+ " GMT".
Example http_date_leap : http_date 1709210096123456 = "Thu, 29 Feb 2024 12:34:56 GMT".
Proof. vm_compute. reflexivity. Qed.

Definition prop_collection (h displayname : string) : dav_entry := DavCollection h displayname.
Definition prop_object (h : string) (o : sobject) : dav_entry :=
  DavObject h (o_basename o) (str_int (o_size o)) (o_mime_type o)
    (if truthy (o_etag o) then Some (quoted (o_etag o)) else None) (http_date (o_updated_at o)).

(** ** Requests *)
Inductive dav_method :=
| OPTIONS | PROPFIND (depth : string) | GET | HEAD | PUT (content_type : option string) (body : bytes)
| DELETE | MKCOL | MOVE (destination : string) | COPY (destination : string).

Section dav.
Context `{Settings, Backend, MimeTypes, StrictMimeTypes, StorageUrl, Receivers}.

(** [_append_children] *)
Definition dav_children (t : datetime) (d : db) (b : bucket) (prefix : string) (p : principal) :
    list dav_entry :=
  let cs := omap (child_of prefix)
    (filter (λ o, readable t d (Some p) b o = true)
       (sort_by name_le
          (filter (λ o, o_bucket_id o = b_id b ∧ startswith prefix (o_name o) = true)
             (rows (db_objects d))))) in
  ((λ name, prop_collection (href (Some (b_name b)) (strip_char "/" (prefix +:+ name)) true) name)
     <$> sorted_set (omap child_folder cs)) ++
  ((λ o, prop_object (href (Some (b_name b)) (o_name o) false) o)
     <$> filter (λ o, str_drop (String.length prefix) (o_name o) ≠ FOLDER_PLACEHOLDER_NAME)
           (omap child_file cs)).

Definition any_under (d : db) (b : bucket) (prefix : string) : bool :=
  row_exists (λ o, (o_bucket_id o == b_id b) && startswith prefix (o_name o)) (db_objects d).

Definition propfind (p : principal) (path depth : string) : prog dav_response :=
  require_company_id p ;;;
  let '(bucket_name, object_path) := parse_path path in
  match bucket_name with
  | None =>
      bs <- (if depth != "0" then list_accessible_buckets p else ret []) ;;
      ret (DavResponse 207 (DavMultistatus
        (prop_collection (href None "" true) "dav" ::
         ((λ b, prop_collection (href (Some (b_name b)) "" true) (b_name b)) <$> bs))))
  | Some bucket_name =>
      b <- get_accessible_bucket p bucket_name false false ;;
      t <- now ;; d <- get_db ;;
      if truthy object_path then
        name <- lift_sum (safe_object_path object_path) ;;
        match find_object d (b_id b) name with
        | Some o =>
            if negb (can_access_path t d p b (o_name o) (Some (o_id o)) false false) then ret (dav 403)
            else ret (DavResponse 207 (DavMultistatus
                   [prop_object (href (Some (b_name b)) (o_name o) false) o]))
        | None =>
            if negb (can_access_path t d p b name None false false) then ret (dav 403)
            else
              let prefix := rstrip_char "/" name +:+ "/" in
              if negb (any_under d b prefix) then ret (dav 404)
              else ret (DavResponse 207 (DavMultistatus
                (prop_collection (href (Some (b_name b)) name true) (after_last "/" name) ::
                 (if depth != "0" then dav_children t d b prefix p else []))))
        end
      else
        ret (DavResponse 207 (DavMultistatus
          (prop_collection (href (Some (b_name b)) "" true) (b_name b) ::
           (if depth != "0" then dav_children t d b "" p else []))))
  end.

(** [try: assert_can_access_path(...) except StorageError: return 403] *)
Definition or_forbidden (check : prog unit) (k : prog dav_response) : prog dav_response :=
  r <- try_except (check ;;; ret true)
         (λ e, match e with StorageError _ _ => Some (ret false) | _ => None end) ;;
  if r : bool then k else ret (dav 403).

Definition get_or_head (p : principal) (path : string) (head : bool) : prog dav_response :=
  require_company_id p ;;;
  let '(bucket_name, object_path) := parse_path path in
  match bucket_name with
  | None => ret (dav 404)
  | Some bucket_name =>
      if negb (truthy object_path) then ret (dav 404)
      else
        b <- get_accessible_bucket p bucket_name false false ;;
        name <- lift_sum (safe_object_path object_path) ;;
        d <- get_db ;;
        match find_object d (b_id b) name with
        | None => ret (dav 404)
        | Some o =>
            or_forbidden (assert_can_access_path p b name (Some (o_id o)) false false)
              (if head then
                 ret (DavResponse 200 (DavHead (o_mime_type o) (str_int (o_size o))
                        (if truthy (o_etag o) then Some (quoted (o_etag o)) else None)))
               else f <- build_download_response o false None ;; ret (DavResponse 200 (DavFile f)))
        end
  end.

Definition put (p : principal) (path : string) (content_type : option string) (content : bytes) :
    prog dav_response :=
  require_company_id p ;;;
  let '(bucket_name, object_path) := parse_path path in
  match bucket_name with
  | None => ret (dav 400)
  | Some bucket_name =>
      if negb (truthy object_path) then ret (dav 400)
      else
        b <- get_accessible_bucket p bucket_name true false ;;
        name <- lift_sum (safe_object_path object_path) ;;
        or_forbidden (assert_can_access_path p b name None true false)
          (d <- get_db ;;
           let created := bool_decide (find_object d (b_id b) name = None) in
           upload_object b object_path content (Some (p_user_id p)) content_type true [] None
             (Some p) ;;;
           ret (dav (if created then 201 else 204)))
  end.

(** The folder deletion skips what the caller cannot write. *)
Definition delete_writable (p : principal) (b : bucket) (objs : list sobject) : prog unit :=
  for_each objs (λ o,
    t <- now ;; d <- get_db ;;
    when (can_access_path t d p b (o_name o) (Some (o_id o)) true false) (delete_object o (Some p))).

Definition dav_delete (p : principal) (path : string) : prog dav_response :=
  require_company_id p ;;;
  let '(bucket_name, object_path) := parse_path path in
  match bucket_name with
  | None => ret (dav 400)
  | Some bucket_name =>
      if negb (truthy object_path) then ret (dav 400)
      else
        b <- get_accessible_bucket p bucket_name true false ;;
        name <- lift_sum (safe_object_path object_path) ;;
        d <- get_db ;;
        match find_object d (b_id b) name with
        | None =>
            match objects_under_prefix d b name with
            | [] => ret (dav 404)
            | objs => delete_writable p b objs ;;; ret (dav 204)
            end
        | Some o =>
            or_forbidden (assert_can_access_path p b name (Some (o_id o)) true false)
              (delete_object o (Some p) ;;; ret (dav 204))
        end
  end.

Definition mkcol (p : principal) (path : string) : prog dav_response :=
  require_company_id p ;;;
  let '(bucket_name, object_path) := parse_path path in
  match bucket_name with
  | None => ret (dav 403)
  | Some bucket_name =>
      b <- get_accessible_bucket p bucket_name true false ;;
      if negb (truthy object_path) then ret (dav 400)
      else
        name <- lift_sum (safe_object_path object_path) ;;
        or_forbidden (assert_can_access_path p b name None true false)
          (let placeholder := name +:+ "/" +:+ FOLDER_PLACEHOLDER_NAME in
           d <- get_db ;;
           if bool_decide (is_Some (find_object d (b_id b) placeholder)) then ret (dav 405)
           else if any_under d b (name +:+ "/") then ret (dav 405)
           else
             upload_object b placeholder [] (Some (p_user_id p)) (Some OCTET_STREAM) false [] None
               (Some p) ;;;
             ret (dav 201))
  end.

Definition move_or_copy (p : principal) (path destination : string) (copy : bool) :
    prog dav_response :=
  require_company_id p ;;;
  dest_tail <- lift_sum (destination_dav_path destination) ;;
  match dest_tail with
  | None => ret (dav 400)
  | Some dest_tail =>
      match parse_path dest_tail, parse_path path with
      | (Some dest_bucket_name, dest_path), (Some src_bucket_name, src_path) =>
          if negb (truthy dest_path) || negb (truthy src_path) then ret (dav 400)
          else
            src_bucket <- get_accessible_bucket p src_bucket_name (negb copy) false ;;
            dest_bucket <- get_accessible_bucket p dest_bucket_name true false ;;
            or_forbidden
              (assert_can_access_path p src_bucket src_path None (negb copy) false ;;;
               assert_can_access_path p dest_bucket dest_path None true false)
              ((if copy
                then copy_object src_bucket src_path dest_bucket dest_path (Some (p_user_id p))
                       (Some p) ;;; ret tt
                else move_object src_bucket src_path dest_bucket dest_path ;;; ret tt) ;;;
               ret (dav 201))
      | _, _ => ret (dav 400)
      end
  end.

(** [dispatch]: OPTIONS needs no caller; storage and value errors become responses. *)
Definition dav_handler (m : dav_method) (p : principal) (path : string) : prog dav_response :=
  match m with
  | OPTIONS => ret (dav 200)
  | PROPFIND depth => propfind p path depth
  | GET => get_or_head p path false
  | HEAD => get_or_head p path true
  | PUT ct content => put p path ct content
  | DELETE => dav_delete p path
  | MKCOL => mkcol p path
  | MOVE dest => move_or_copy p path dest false
  | COPY dest => move_or_copy p path dest true
  end.
Definition dav_dispatch (m : dav_method) (webdav_user : option principal) (path : string) :
    prog dav_response :=
  match m, webdav_user with
  | OPTIONS, _ => ret (dav 200)
  | _, None => ret (dav 401)
  | _, Some p =>
      try_except (dav_handler m p path)
        (λ e, match e with
              | StorageError status _ => Some (ret (dav status))
              | ValueError => Some (ret (dav 400))
              | _ => None
              end)
  end.
End dav.

(** ** Lemmas *)
(** *** What a folder deletion takes away

    The objects are visited in order; each is judged by the rules as the deletions
    before it have left them, for a deleted object takes its grants along. *)
Fixpoint writable_in_turn (t : datetime) (d : db) (p : principal) (b : bucket) (objs : list sobject) :
    list sobject :=
  match objs with
  | [] => []
  | o :: objs' =>
      if can_access_path t d p b (o_name o) (Some (o_id o)) true false
      then o :: writable_in_turn t (delete_object_row (o_id o) d) p b objs'
      else writable_in_turn t d p b objs'
  end.

(** What the access rules read is the grants and the names of their objects. *)
Record rules_agree (d d' : db) : Prop := RulesAgree {
  ra_grants : db_grants d' = db_grants d;
  ra_objects : erase_metadata <$> db_objects d' = erase_metadata <$> db_objects d }.
#[export] Instance rules_agree_preorder : PreOrder rules_agree.
Proof. split; [by intros d|]. intros d1 d2 d3 [] []. split; congruence. Qed.

Lemma agree_object_name d d' g : rules_agree d d' → grant_object_name d' g = grant_object_name d g.
Proof.
  intros [_ Eo]. unfold grant_object_name, grant_object. destruct (g_object_id g) as [i|]; [|done]. simpl.
  pose proof (f_equal (.!! i) Eo) as Ei. rewrite !lookup_fmap in Ei.
  destruct (db_objects d' !! i) as [o'|], (db_objects d !! i) as [o|]; try done. simpl in *.
  assert (He : erase_metadata o' = erase_metadata o) by congruence.
  by apply erase_metadata_fields in He as (_ & _ & Hn & _).
Qed.
Lemma agree_can_access_path t d d' p b path oid wr ad :
  rules_agree d d' → can_access_path t d' p b path oid wr ad = can_access_path t d p b path oid wr ad.
Proof.
  intros Ha. pose proof (λ g, agree_object_name d d' g Ha) as Hn.
  unfold can_access_path, evaluate_access. destruct (p_company_id p) as [cid|]; [|done].
  destruct (b_company_id b != cid); [done|].
  assert (Hm : matching_grants t d' cid p b (Some path) oid = matching_grants t d cid p b (Some path) oid).
  { unfold matching_grants, active_grants. rewrite (ra_grants _ _ Ha). apply list_filter_iff. intros g.
    unfold resource_matches_grant. by rewrite Hn. }
  assert (Hs : ∀ g, grant_specificity d' g = grant_specificity d g).
  { intros g. unfold grant_specificity. by rewrite Hn. }
  rewrite Hm. destruct (matching_grants t d cid p b (Some path) oid) as [|g gs]; [done|]. cbv zeta.
  rewrite Hs, (list_fmap_ext (grant_specificity d') (grant_specificity d) gs) by (intros; apply Hs).
  f_equal. apply list_filter_iff. intros g'. by rewrite Hs.
Qed.
Lemma agree_delete d d' i :
  rules_agree d d' → rules_agree (delete_object_row i d) (delete_object_row i d').
Proof. intros [Eg Eo]. split; simpl; [by rewrite Eg|]. by rewrite !fmap_delete, Eo. Qed.
Lemma agree_in_turn t d d' p b objs :
  rules_agree d d' → writable_in_turn t d' p b objs = writable_in_turn t d p b objs.
Proof.
  revert d d'. induction objs as [|o objs IH]; intros d d' Ha; simpl; [done|].
  rewrite (agree_can_access_path t d d') by done. destruct (can_access_path _ _ _ _ _ _ _ _).
  - f_equal. by apply IH, agree_delete.
  - by apply IH.
Qed.

Section deletion.
Context `{Settings, Backend, !BackendLaws, Receivers, !ReceiverLaws}.

Lemma wp_delete_object_rules o r w :
  wp (delete_object o r)
    (λ _ w', rules_agree (delete_object_row (o_id o) (w_db w)) (w_db w') ∧ w_now w' = w_now w)
    (λ _ _, True) w.
Proof.
  unfold delete_object. apply wp_atomic. unfold get_db, modify_db. wp_steps.
  apply wp_delete_storage_key; [|done]. apply wp_bind, wp_apply_usage_delta.
  intros w2 [_ Eo Eg _] _ En _ _ _ _ _.
  eapply wp_mono; [apply object_deleted_law| |done].
  intros [] w3 [[_ Eo3 Eg3 _ _ _] _ En3 _]. split; [split|].
  - rewrite <- Eg3. exact Eg.
  - rewrite <- Eo3. f_equal. exact Eo.
  - rewrite <- En3. exact En.
Qed.

Lemma remove_all_nil f : remove_all [] f ≡ f.
Proof. by intros b n. Qed.
(** A deletion that failed was rolled back, and its blob is still there. *)
Lemma delete_failed_same w w' :
  storage_inv w → w_db w' = w_db w → w_blobs w' = w_blobs w → w_next_uuid w' = w_next_uuid w →
  storage_inv w' ∧ files w' ≡ files w.
Proof.
  intros Hinv Ed Eb Eu. rewrite <- (atomic_restores w'), Ed. apply (rolled_back w w'); [done|].
  apply blobs_same_grow; [done|lia].
Qed.

Lemma wp_delete_writable p b objs w :
  storage_inv w → (∀ o, o ∈ objs → current w o) → NoDup (o_id <$> objs) →
  let turn := writable_in_turn (w_now w) (w_db w) p b objs in
  wp (delete_writable p b objs)
    (λ _ w', storage_inv w' ∧ files w' ≡ remove_all turn (files w))
    (λ e w', is_backend_error e ∧ storage_inv w' ∧
       ∃ gone, gone `prefix_of` turn ∧ files w' ≡ remove_all gone (files w)) w.
Proof.
  revert w. induction objs as [|o objs IH]; intros w Hinv Hcur Hnd; unfold delete_writable; cbn [for_each].
  { apply wp_ret. by split. }
  rewrite fmap_cons in Hnd. apply NoDup_cons in Hnd as [Hni Hnd]. cbn [writable_in_turn].
  unfold now, get_db. wp_steps. apply wp_when; intros Hacc; rewrite Hacc.
  2: { apply IH; [done| |done]. intros; by apply Hcur, list_elem_of_further. }
  eapply wp_mono; [apply wp_and; [apply wp_delete_object; [done|by apply Hcur, list_elem_of_here]|
     apply wp_delete_object_rules]| |].
  2: { intros e w' [(He & Ed & Eb & Eu) _]. destruct (delete_failed_same w w') as [Hi Hf]; [done..|].
       split_and!; [done..|]. exists []. split; [apply prefix_nil|]. by rewrite remove_all_nil. }
  intros u w1 [(Hi1 & Hf1 & _ & w0 & Hst & Eo) [Hag Hnow]].
  assert (Hturn : writable_in_turn (w_now w1) (w_db w1) p b objs =
            writable_in_turn (w_now w) (delete_object_row (o_id o) (w_db w)) p b objs).
  { rewrite Hnow. by apply agree_in_turn. }
  assert (Hf : ∀ gone, remove_all gone (files w1) ≡ remove_all (o :: gone) (files w)).
  { intros gone. rewrite Hf1. apply remove_all_cons. }
  eapply wp_mono; [apply IH; [done| |done]| |].
  - intros o' Ho'. apply (current_step w0 w1); [done|].
    destruct (Hcur o' ltac:(by right)) as (o2 & Ho2 & He). exists o2. split; [|done].
    rewrite Eo, lookup_delete_ne; [done|]. intros Heq. apply Hni.
    apply list_elem_of_fmap. by exists o'.
  - intros u' w' (Hi & Hf'). split; [done|]. by rewrite Hf', Hturn, Hf.
  - intros e w' (He & Hi & gone & Hpre & Hf'). split_and!; [done..|]. exists (o :: gone).
    rewrite Hturn in Hpre. split; [by apply prefix_cons|]. by rewrite Hf', Hf.
Qed.
End deletion.

(** *** Hrefs lead back to their object *)
Definition char_bytes (c : ascii) : list (bool * Z) :=
  let k := code c in
  if unreserved c then [(false, k)]
  else if k <? 128 then [(true, k)] else [(true, 192 + k / 64); (true, 128 + k mod 64)].
Lemma unescape_quote_char c t : unescape (quote_char c +:+ t) = char_bytes c ++ unescape t.
Proof.
  destruct t as [|a [|b t]]; destruct c as [[] [] [] [] [] [] [] []]; reflexivity.
Qed.
Lemma unescape_raw c t : c ≠ "%"%char → unescape (String c t) = (false, code c) :: unescape t.
Proof.
  intros Hc. destruct t as [|a [|b t]]; [done..|].
  change (unescape (String c (String a (String b t)))) with
    (if c == "%"%char then
       match hex_value a, hex_value b with
       | Some x, Some y => (true, 16 * x + y) :: unescape t
       | _, _ => (false, code c) :: unescape (String a (String b t))
       end
     else (false, code c) :: unescape (String a (String b t))).
  by rewrite bool_decide_false.
Qed.
Lemma decode_raw c l : decode_latin ((false, code c) :: l) = String c (decode_latin l).
Proof.
  assert (Hc : char_of (code c) = c).
  { unfold char_of, code. rewrite N2Z.id. apply ascii_N_embedding. }
  destruct l as [|[e y] l]; cbn [decode_latin andb]; by rewrite Hc.
Qed.
Lemma decode_char_bytes c l : decode_latin (char_bytes c ++ l) = String c (decode_latin l).
Proof.
  destruct l as [|[[] y] l]; destruct c as [[] [] [] [] [] [] [] []]; reflexivity.
Qed.
Lemma unquote_quote s t : unquote (quote s +:+ t) = s +:+ unquote t.
Proof.
  induction s as [|c s IH]; [done|]. cbn [quote]. rewrite str_app_assoc. unfold unquote in *.
  rewrite unescape_quote_char, decode_char_bytes, IH. done.
Qed.
Lemma unquote_raw c t : c ≠ "%"%char → unquote (String c t) = String c (unquote t).
Proof. intros Hc. unfold unquote. by rewrite unescape_raw, decode_raw. Qed.
Lemma unquote_plain s : has_char "%" s = false → unquote s = s.
Proof.
  induction s as [|c s IH]; [done|]. rewrite has_char_cons, orb_false_iff, bool_decide_eq_false.
  intros [Hc Hs]. rewrite unquote_raw by done. by rewrite IH.
Qed.
Lemma unquote_join l t : l ≠ [] →
  unquote (join_char "/" (quote <$> l) +:+ t) = join_char "/" l +:+ unquote t.
Proof.
  intros _. induction l as [|s l IH]; [done|]. rewrite fmap_cons. destruct l as [|s2 l].
  - apply unquote_quote.
  - rewrite fmap_cons, !join_char_cons by done. rewrite !str_app_assoc, unquote_quote.
    rewrite str_app_cons, unquote_raw by done. rewrite <- fmap_cons, IH.
    rewrite (join_char_cons _ s) by done. by rewrite str_app_assoc.
Qed.
Lemma unquote_path b segs coll :
  segs ≠ [] →
  let h := "/dav/" +:+ join_char "/" (quote <$> b :: segs) in
  let h' := if coll : bool then h +:+ "/" else h in
  unquote (str_drop 5 h') = b +:+ String "/" (join_char "/" segs +:+ if coll then "/" else "").
Proof.
  intros Hne h h'.
  assert (Hd : ∀ t, str_drop 5 ("/dav/" +:+ t) = t) by (intros t; apply (str_drop_app "/dav/")).
  unfold h', h. destruct coll.
  - rewrite str_app_assoc, Hd, unquote_join by done. rewrite join_char_cons by done.
    by rewrite str_app_assoc, str_app_cons.
  - rewrite Hd. rewrite <- (str_app_nil_r (join_char "/" (quote <$> b :: segs))).
    rewrite unquote_join, join_char_cons by done. by rewrite !str_app_nil_r.
Qed.
Lemma rstrip_trailing p s a : p a = true → rstrip_while p (s +:+ String a "") = rstrip_while p s.
Proof.
  intros Ha. induction s as [|c s IH].
  - rewrite str_app_empty_l, rstrip_while_cons, Ha. by rewrite bool_decide_true.
  - by rewrite str_app_cons, !rstrip_while_cons, IH.
Qed.
Lemma strip_slash q coll :
  q ≠ "" → (∀ c, head_char q = Some c → c ≠ "/"%char) → (∀ c, last_char q = Some c → c ≠ "/"%char) →
  strip_char "/" (q +:+ (if coll : bool then "/" else "")) = q.
Proof.
  intros Hne Hh Hl. assert (Hid : strip_char "/" q = q).
  { apply strip_while_id; intros c Hc; apply bool_decide_eq_false; auto. }
  destruct coll; [|by rewrite str_app_nil_r].
  unfold strip_char, strip_while in *. destruct q as [|c q]; [done|].
  assert (Hc : (λ x, x == "/"%char) c = false) by (by apply bool_decide_eq_false, Hh).
  rewrite str_app_cons, (lstrip_while_id _ c) by exact Hc. rewrite (lstrip_while_id _ c) in Hid by exact Hc.
  rewrite <- str_app_cons, rstrip_trailing; [exact Hid|done].
Qed.
Lemma has_char_join a l :
  a ≠ "/"%char → has_char a (join_char "/" l) = existsb (has_char a) l.
Proof.
  intros Ha. induction l as [|s l IH]; [done|]. destruct l as [|s2 l].
  - simpl. by rewrite orb_false_r.
  - rewrite join_char_cons by done. rewrite has_char_app, has_char_cons.
    rewrite bool_decide_false by done. cbn [orb existsb] in *. by rewrite IH.
Qed.
Lemma href_join b segs :
  b ≠ "" → segs ≠ [] → Forall seg_ok segs →
  join_char "/" (["/dav"] ++ [quote b] ++ (quote <$> filter (λ seg, seg ≠ "")
      (split_char "/" (join_char "/" segs)))) =
  "/dav/" +:+ join_char "/" (quote <$> b :: segs).
Proof.
  intros Hb Hne Hok. rewrite split_join_char; [|done|].
  - assert (filter (λ seg, seg ≠ "") segs = segs) as ->.
    { induction Hok as [|s l (Hs & _) _ IH]; [done|]. rewrite filter_cons_True by done. f_equal.
      destruct l; [done|by apply IH]. }
    by rewrite fmap_cons.
  - eapply Forall_impl; [exact Hok|]. by intros s (_ & _ & _ & ? & _).
Qed.

(** *** Requests of a company *)
Section company.
Context `{Settings, Backend, !BackendLaws, MimeTypes, StrictMimeTypes, StorageUrl}.
Context `{Receivers, !ReceiverLaws}.
Context (c : Z) (w : world) (Hinv : storage_inv w) (Hprov : provisioned w c).
Context (p : principal) (Hp : p_company_id p = Some c).

Abbreviation iso := (iso c w).
Abbreviation iso_exn := (iso_exn c w false).
Abbreviation safe m := (wp (A := dav_response) m (λ _, iso) iso_exn w).

Lemma wp_or_forbidden check k (Q : dav_response → world → Prop) (R : exn → world → Prop) w1 :
  wp check (λ _ w', w' = w1 ∧ wp k Q R w1) (λ e w', w' = w1 ∧ (∃ st code, e = StorageError st code)) w1 →
  Q (dav 403) w1 → wp (or_forbidden check k) Q R w1.
Proof.
  intros Hc HQ. unfold or_forbidden. apply wp_bind, wp_try, wp_bind. eapply wp_mono; [exact Hc| |].
  - intros u w' [-> Hk]. by apply wp_ret.
  - intros e w' [-> (st & code & ->)]. by apply wp_ret, wp_ret.
Qed.
Lemma wp_check_path b name oid wr k (Q : dav_response → world → Prop) (R : exn → world → Prop) w1 :
  (can_access_path (w_now w1) (w_db w1) p b name oid wr false = true → wp k Q R w1) → Q (dav 403) w1 →
  wp (or_forbidden (assert_can_access_path p b name oid wr false) k) Q R w1.
Proof.
  intros Hk HQ. apply wp_or_forbidden; [|done]. apply wp_assert_can_access_path; [by auto|].
  intros _. split; [done|]. by eexists _, _.
Qed.
Lemma wp_or_forbidden' b name oid k (Q : dav_response → world → Prop) (R : exn → world → Prop) w1 :
  (can_access_path (w_now w1) (w_db w1) p b name oid true false = true → wp k Q R w1) →
  (can_access_path (w_now w1) (w_db w1) p b name oid true false = false → Q (dav 403) w1) →
  wp (or_forbidden (assert_can_access_path p b name oid true false) k) Q R w1.
Proof.
  intros Hk HQ. unfold or_forbidden, assert_can_access_path, now, get_db.
  apply wp_bind, wp_try. wp_steps. destruct (can_access_path _ _ _ _ _ _ _ _).
  - do 2 apply wp_ret. by apply Hk.
  - apply wp_raise. do 2 apply wp_ret. by apply HQ.
Qed.
Lemma safe_ret r : safe (ret r).
Proof. by apply wp_ret, iso_here. Qed.
Lemma safe_company k : safe k → safe (require_company_id p ;;; k).
Proof. intros Hk. apply wp_bind. unfold require_company_id. rewrite Hp. by apply wp_ret. Qed.
Lemma safe_path {A} (r : exn + A) (k : A → prog dav_response) :
  (∀ a, safe (k a)) → safe (a <- lift_sum r ;; k a).
Proof.
  intros Hk. apply wp_bind. unfold lift_sum. destruct r; [apply wp_raise; by apply iso_error|by apply wp_ret].
Qed.
Lemma safe_bucket name wr k :
  (∀ b, own c w b → safe (k b)) → safe (b <- get_accessible_bucket p name wr false ;; k b).
Proof.
  intros Hk. apply wp_bind. apply (wp_own_bucket c w Hinv Hprov); [done..|].
  intros e. by apply iso_error.
Qed.

Lemma safe_propfind path depth : safe (propfind p path depth).
Proof.
  apply safe_company. destruct (parse_path path) as [[bn|] q].
  - apply safe_bucket. intros b Hb. unfold now, get_db. wp_steps.
    apply wp_if; intros _; [|by apply safe_ret]. apply safe_path. intros name.
    apply wp_option; intros; repeat (apply wp_if; intros _); by apply safe_ret.
  - apply wp_bind. destruct (depth != "0"); [|by apply wp_ret, safe_ret].
    destruct Hprov as (b0 & Hb0 & Hk & Hpub).
    unfold list_accessible_buckets, require_company_id, ensure_company_bucket, get_db, now.
    rewrite Hp. wp_steps. rewrite Hb0. wp_steps.
    rewrite Hk, Hpub, bool_decide_true by done. cbn [negb orb]. wp_steps. by apply iso_here.
Qed.
Lemma safe_get path head : safe (get_or_head p path head).
Proof.
  apply safe_company. destruct (parse_path path) as [[bn|] q]; [|by apply safe_ret].
  apply wp_if; intros _; [by apply safe_ret|]. apply safe_bucket. intros b Hb. apply safe_path.
  intros name. unfold get_db. wp_steps. apply wp_option; [intros o Ho|intros _; by apply safe_ret].
  apply wp_check_path; [intros _|by apply iso_here].
  apply wp_if; intros _; [by apply safe_ret|].
  unfold build_download_response, now, modify_db. wp_steps.
  pose proof (iso_touch c w w (o_id o) (w_now w) (iso_here c w Hinv)) as Ht.
  apply wp_default_storage_open; [intros x _; by do 2 apply wp_ret|]. intros e _. exact Ht.
Qed.
Lemma safe_put path ct content : safe (put p path ct content).
Proof.
  apply safe_company. destruct (parse_path path) as [[bn|] q]; [|by apply safe_ret].
  apply wp_if; intros _; [by apply safe_ret|]. apply safe_bucket. intros b Hb. apply safe_path.
  intros name. apply wp_check_path; [intros _|by apply iso_here]. unfold get_db. wp_steps.
  eapply wp_mono; [by apply iso_upload| |done]. intros o w' Hw. by apply wp_ret.
Qed.
Lemma safe_mkcol path : safe (mkcol p path).
Proof.
  apply safe_company. destruct (parse_path path) as [[bn|] q]; [|by apply safe_ret].
  apply safe_bucket. intros b Hb. apply wp_if; intros _; [by apply safe_ret|]. apply safe_path.
  intros name. apply wp_check_path; [intros _|by apply iso_here]. unfold get_db. wp_steps.
  do 2 (apply wp_if; intros _; [by apply safe_ret|]). apply wp_bind.
  eapply wp_mono; [by apply iso_upload| |done]. intros o w' Hw. by apply wp_ret.
Qed.
Lemma safe_move_or_copy path dest copy : safe (move_or_copy p path dest copy).
Proof.
  apply safe_company, safe_path. intros [tail|]; [|by apply safe_ret].
  destruct (parse_path tail) as [[db_|] dp]; [|by apply safe_ret].
  destruct (parse_path path) as [[sb|] sp]; [|by apply safe_ret].
  apply wp_if; intros _; [by apply safe_ret|].
  apply safe_bucket. intros b Hb. apply safe_bucket. intros b' Hb'.
  apply wp_or_forbidden; [|by apply iso_here].
  apply wp_bind, wp_assert_can_access_path; [intros _|intros _; split; [done|by eexists _, _]].
  apply wp_assert_can_access_path; [intros _|intros _; split; [done|by eexists _, _]].
  split; [done|]. apply wp_bind. destruct copy; apply wp_bind.
  - eapply wp_mono; [by apply iso_copy| |done]. intros o w' Hw. by do 2 apply wp_ret.
  - eapply wp_mono; [by apply iso_move| |done]. intros o w' Hw. by do 2 apply wp_ret.
Qed.

(** What DELETE does: refuse, with the world as it was; delete the object that is
    there, which the caller may write; or else delete, one by one, what lies below the
    folder and is writable when its turn comes. *)
Inductive dav_delete_refused (path : string) : exn + dav_response → Prop :=
| refused_path : (∃ q, parse_path path = (None, q)) ∨ (∃ bn, parse_path path = (Some bn, "")) →
    dav_delete_refused path (inr (dav 400))
| refused_raise e : dav_delete_refused path (inl e)
| refused_missing bn q b name : parse_path path = (Some bn, q) → own c w b → b_name b = bn →
    safe_object_path q = inr name → files w (b_id b) name = None →
    objects_under_prefix (w_db w) b name = [] → dav_delete_refused path (inr (dav 404))
| refused_access bn q b name o : parse_path path = (Some bn, q) → own c w b → b_name b = bn →
    safe_object_path q = inr name → find_object (w_db w) (b_id b) name = Some o →
    can_access_path (w_now w) (w_db w) p b name (Some (o_id o)) true false = false →
    dav_delete_refused path (inr (dav 403)).
Definition dav_deleted (path : string) (r : exn + dav_response) (w' : world) : Prop :=
  ∃ bn q b name, parse_path path = (Some bn, q) ∧ safe_object_path q = inr name ∧
    own c w b ∧ b_name b = bn ∧ can_access_bucket (w_now w) (w_db w) p b true false = true ∧
    storage_inv w' ∧ ∃ turn gone,
      turn = match find_object (w_db w) (b_id b) name with
             | Some o =>
                 if can_access_path (w_now w) (w_db w) p b name (Some (o_id o)) true false then [o] else []
             | None => writable_in_turn (w_now w) (w_db w) p b (objects_under_prefix (w_db w) b name)
             end ∧
      gone `prefix_of` turn ∧ files w' ≡ remove_all gone (files w) ∧
      ((r = inr (dav 204) ∧ gone = turn) ∨ ∃ code, r = inl (BackendError code)).
Definition dav_delete_outcome (path : string) (r : exn + dav_response) (w' : world) : Prop :=
  (w' = w ∧ dav_delete_refused path r) ∨ dav_deleted path r w'.

Lemma in_turn_sub t d b objs o : o ∈ writable_in_turn t d p b objs → o ∈ objs.
Proof.
  revert d. induction objs as [|o1 objs IH]; intros d; simpl; [done|].
  destruct (can_access_path _ _ _ _ _ _ _ _).
  - intros [->|Ho]%elem_of_cons; [by left|]. right. by eapply IH.
  - intros Ho. right. by eapply IH.
Qed.
Lemma deleted_iso path r w' : dav_delete_outcome path r w' → iso w'.
Proof.
  intros [[-> _]|(bn & q & b & name & _ & _ & Hb & _ & _ & Hi & turn & gone & Ht & Hpre & Hf & _)];
    [by apply iso_here|]. apply (iso_own c w b); [done..|].
  intros bid n Hne. rewrite (Hf bid n). unfold remove_all.
  destruct (existsb _ gone) eqn:Hex; [|done]. apply existsb_exists in Hex as (o & Ho & Hon).
  apply andb_true_iff in Hon as [Hon _]. apply bool_decide_eq_true in Hon. exfalso. apply Hne.
  assert (Hin : o ∈ turn) by (apply list_elem_of_In in Ho; destruct Hpre as [l ->]; set_solver).
  rewrite <- Hon. subst turn. destruct (find_object (w_db w) (b_id b) name) as [o1|] eqn:Ho1.
  - apply find_object_Some in Ho1 as [Hbk _]. destruct (can_access_path _ _ _ _ _ _ _ _); [|by apply not_elem_of_nil in Hin].
    by apply list_elem_of_singleton in Hin as ->.
  - apply in_turn_sub in Hin. by apply elem_of_objects_under_prefix in Hin as (_ & ? & _).
Qed.

Lemma wp_dav_delete path :
  wp (dav_delete p path) (λ r w', dav_delete_outcome path (inr r) w')
    (λ e w', dav_delete_outcome path (inl e) w') w.
Proof.
  unfold dav_delete, require_company_id. rewrite Hp. wp_steps.
  assert (Hraise : ∀ e, dav_delete_outcome path (inl e) w) by (intros e; left; split; [done|constructor]).
  destruct (parse_path path) as [[bn|] q] eqn:Hpath; [|apply wp_ret; left; split; [done|constructor; eauto]].
  apply wp_if; intros Hq.
  { apply wp_ret. left. split; [done|]. constructor. right. exists bn. rewrite Hpath.
    unfold truthy in Hq. rewrite negb_involutive in Hq. apply bool_decide_eq_true in Hq. by rewrite Hq. }
  apply wp_bind. apply (wp_own_bucket_checked c w Hinv Hprov); [done| |done].
  intros b Hb Hbn Hacc. unfold lift_sum, get_db.
  apply wp_bind. destruct (safe_object_path q) as [e|name] eqn:Hname; [by apply wp_raise|]. wp_steps.
  assert (Hcur : ∀ o, (∃ i, db_objects (w_db w) !! i = Some o) → current w o).
  { intros o [i Hi]. by apply (current_row w i); [apply Hinv|]. }
  destruct (find_object (w_db w) (b_id b) name) as [o|] eqn:Ho.
  - pose proof Ho as (Hbk & Hn & Hex)%find_object_Some.
    apply wp_or_forbidden'.
    2: { intros Hno. left. split; [done|]. by eapply (refused_access _ bn q b name o). }
    intros Hyes. apply wp_bind. eapply wp_mono; [by apply wp_delete_object, Hcur| |].
    + intros u w' (Hi & Hf & _). apply wp_ret. right. exists bn, q, b, name. split_and!; try done; [apply Hb..|].
      rewrite Ho, Hyes. exists [o], [o]. split_and!; [done|done| |by left].
      rewrite Hf. apply (remove_all_cons o []).
    + intros e w' ([code ->] & Ed & Eb & Eu). destruct (delete_failed_same w w') as [Hi Hf]; [done..|].
      right. exists bn, q, b, name. split_and!; try done; [apply Hb..|].
      rewrite Ho, Hyes. exists [o], []. split_and!; [done|apply prefix_nil| |right; by exists code].
      by rewrite remove_all_nil.
  - destruct (objects_under_prefix (w_db w) b name) as [|o objs] eqn:Hobjs.
    { apply wp_ret. left. split; [done|]. eapply (refused_missing _ bn q b name); try done.
      unfold files. by rewrite Ho. }
    rewrite <- Hobjs. apply wp_bind. eapply wp_mono; [apply wp_delete_writable; [done| |]| |].
    + intros o' Ho'. apply Hcur. by apply elem_of_objects_under_prefix in Ho' as (? & _).
    + unfold objects_under_prefix. apply nodup_filter_ids, Hinv.
    + intros u w' [Hi Hf]. apply wp_ret. right. exists bn, q, b, name. split_and!; try done; [apply Hb..|].
      rewrite Ho. do 2 eexists. split; [reflexivity|]. split; [reflexivity|]. split; [exact Hf|by left].
    + intros e w' ([code ->] & Hi & gone & Hpre & Hf). right. exists bn, q, b, name.
      split_and!; try done; [apply Hb..|].
      rewrite Ho. eexists. exists gone. split; [reflexivity|]. split_and!; [exact Hpre|exact Hf|right; by exists code].
Qed.
Lemma safe_delete path : safe (dav_delete p path).
Proof.
  eapply wp_mono; [apply wp_dav_delete| |]; [intros r w' Hd|intros e w' Hd _]; exact (deleted_iso _ _ _ Hd).
Qed.

Lemma safe_dav_dispatch m path : safe (dav_dispatch m (Some p) path).
Proof.
  assert (Hcatch : ∀ k, safe k → safe (try_except k (λ e, match e with
      | StorageError status _ => Some (ret (dav status)) | ValueError => Some (ret (dav 400))
      | _ => None end))).
  { intros k Hk. apply wp_try. eapply wp_mono; [exact Hk|done|]. intros e w' He.
    assert (Hw' : iso w') by (by apply He). by destruct e; [apply wp_ret| |..]; try apply wp_ret. }
  destruct m; cbn [dav_dispatch]; [by apply safe_ret|apply Hcatch; cbn [dav_handler]..].
  - apply safe_propfind.
  - apply safe_get.
  - apply safe_get.
  - apply safe_put.
  - apply safe_delete.
  - apply safe_mkcol.
  - apply safe_move_or_copy.
  - apply safe_move_or_copy.
Qed.
End company.

(** ** Properties *)

(** A client that follows an href reaches the object it was listed for: the path of
    the href, decoded once by the framework and once more by [_parse_path], gives back
    the bucket and the path, for any name without a percent sign (see
    [double_decoding]). *)
Theorem href_roundtrip : ∀ b path coll,
  b ≠ "" → has_char "/" b = false → has_char "%" b = false →
  canonical_path path → has_char "%" path = false →
  parse_path (unquote (str_drop 5 (href (Some b) path coll))) = (Some b, path).
Proof.
  intros b path coll Hb Hbs Hbp Hcan Hpp. pose proof (canonical_ends path Hcan) as [Hh Hl].
  pose proof (canonical_nonempty path Hcan) as Hpne.
  destruct Hcan as (segs & Hne & Hok & Hpath).
  assert (Ht : truthy b = true ∧ truthy path = true).
  { unfold truthy. by rewrite !bool_decide_false. }
  assert (Hun : ∃ coll' : bool, unquote (str_drop 5 (href (Some b) path coll)) =
            b +:+ String "/" (path +:+ if coll' then "/" else "")).
  { unfold href. rewrite (proj1 Ht), (proj2 Ht), Hpath, href_join by done. cbv zeta.
    destruct (coll && _).
    - exists true. exact (unquote_path b segs true Hne).
    - exists false. exact (unquote_path b segs false Hne). }
  destruct Hun as [coll' ->]. unfold parse_path.
  rewrite unquote_plain.
  2: { rewrite has_char_app, has_char_cons, has_char_app, Hbp, Hpp. by destruct coll'. }
  replace (b +:+ String "/" (path +:+ _))
    with ((b +:+ String "/" path) +:+ (if coll' then "/" else "")).
  2: { by rewrite str_app_assoc, str_app_cons. }
  rewrite strip_slash.
  - unfold truthy at 1. rewrite bool_decide_false by (by destruct b). cbn [negb].
    rewrite partition_char_app by done. rewrite (proj1 Ht). f_equal.
    pose proof (strip_slash path false Hpne Hh Hl) as Hs. simpl in Hs.
    by rewrite str_app_nil_r in Hs.
  - by destruct b.
  - intros c. rewrite head_char_app by done. by apply has_char_head.
  - intros c. rewrite last_char_app by done.
    change (String "/" path) with ("/" +:+ path). rewrite last_char_app by done. apply Hl.
Qed.

Lemma href_roundtrip_witness :
  parse_path (unquote (str_drop 5 (href (Some "company") "docs/My File.txt" false))) =
    (Some "company", "docs/My File.txt").
Proof.
  apply href_roundtrip; [discriminate|reflexivity|reflexivity| |reflexivity].
  apply (safe_object_path_canonical "docs/My File.txt"). vm_compute. reflexivity.
Defined.

(** The second decoding loses names that hold an escape themselves: following the href
    of [a%20b.txt] asks for [a b.txt]. *)
Example double_decoding :
  parse_path (unquote (str_drop 5 (href (Some "company") "a%20b.txt" false))) =
    (Some "company", "a b.txt").
Proof. vm_compute. reflexivity. Qed.

Section dav_properties.
Context `{Settings, Backend, !BackendLaws, MimeTypes, StrictMimeTypes, StorageUrl}.
Context `{Receivers, !ReceiverLaws}.

(** C32: the WebDAV surface isolates the companies.  Whatever one request of a member of a
    company asks for and whatever comes of it (a backend failure half way through a
    folder included), the storage stays consistent and every file of another company
    keeps its content. *)
Theorem dav_requests_are_isolated : ∀ m p path c w,
  storage_inv w → provisioned w c → p_company_id p = Some c →
  isolated c w (dav_dispatch m (Some p) path w).2.
Proof.
  intros m p path c w Hinv Hprov Hp.
  pose proof (safe_dav_dispatch c w Hinv Hprov p Hp m path) as Hwp. unfold wp in Hwp.
  destruct (dav_dispatch m (Some p) path w) as [[e|r] w']; [by apply Hwp|exact Hwp].
Qed.

(** C23: what a WebDAV DELETE takes away, exactly.  Either nothing has changed and the
    answer says why (a path without bucket or object, an error of the lookup, nothing
    at the path, an object the caller may not write), or the bucket is one of the
    caller's company that the caller may write, and the files that are gone are: the
    object at the path, which the caller may write; or, when there is none, the objects
    below the folder that the caller may write, each judged by the rules as the
    deletions before it left them.  The answer is 204 when all of those are gone;
    when the blob backend fails, a first part of them is.  Nothing else changes, and
    the storage stays consistent. *)
Theorem dav_delete_authorized : ∀ p path c w,
  storage_inv w → provisioned w c → p_company_id p = Some c →
  dav_delete_outcome c w p path (dav_delete p path w).1 (dav_delete p path w).2.
Proof.
  intros p path c w Hinv Hprov Hp.
  pose proof (wp_dav_delete c w Hinv Hprov p Hp path) as Hwp. unfold wp in Hwp.
  by destruct (dav_delete p path w) as [[e|r] w1].
Qed.
End dav_properties.

(** ** The properties on a concrete company *)
Import Demo GrantsDemo ShareDemo ViewsDemo TwoCompanies.
Module DavDemo.
Definition dav_status (r : (exn + dav_response) * world) : Z :=
  match r.1 with inr r => dv_status r | inl _ => 500 end.
Definition dav_body (r : (exn + dav_response) * world) : option bytes :=
  match r.1 with inr (DavResponse _ (DavFile d)) => Some (dl_body d) | _ => None end.
End DavDemo.
Import DavDemo.

Lemma dav_requests_are_isolated_witness :
  let run := dav_dispatch (PUT None [Byte.x61]) (Some alice) "company/secret.txt" two_world in
  dav_status run = 201 ∧ files run.2 2%N "secret.txt" = Some abc.
Proof.
  cbv zeta. split; [vm_compute; reflexivity|].
  destruct (dav_requests_are_isolated (PUT None [Byte.x61]) alice "company/secret.txt" 7 two_world)
    as [_ Hfiles].
  - apply two_world_inv.
  - exists demo_bucket. vm_compute. auto.
  - reflexivity.
  - transitivity (files two_world 2%N "secret.txt"); [|vm_compute; reflexivity].
    apply (Hfiles 2%N other_bucket); [vm_compute; reflexivity|discriminate].
Defined.

Lemma dav_delete_authorized_witness :
  dav_status (dav_delete alice "company/docs" demo_world1) = 204 ∧
  ∃ o, can_access_path 1000 (w_db demo_world1) alice demo_bucket "docs/a.txt" (Some (o_id o)) true false = true ∧
    files (dav_delete alice "company/docs" demo_world1).2 ≡ remove_all [o] (files demo_world1).
Proof.
  assert (Hst : dav_status (dav_delete alice "company/docs" demo_world1) = 204) by (vm_compute; reflexivity).
  split; [exact Hst|].
  destruct (dav_delete_authorized alice "company/docs" 7 demo_world1) as [[_ Href]|Hdel].
  - exact demo_inv1.
  - exists demo_bucket. vm_compute. auto.
  - reflexivity.
  - unfold dav_status in Hst. destruct Href; cbn in Hst; discriminate Hst.
  - destruct Hdel as (bn & q & b & name & Hpath & Hname & [Hb _] & Hbn & _ & _ & turn & gone & Ht & _ & Hf & Hr).
    vm_compute in Hpath. injection Hpath as <- <-. vm_compute in Hname. injection Hname as <-.
    assert (b = demo_bucket) as ->.
    { unfold stored in Hb. destruct (decide (b_id b = 1%N)) as [Hi|Hi].
      - rewrite Hi in Hb. vm_compute in Hb. injection Hb as <-. reflexivity.
      - replace (db_buckets (w_db demo_world1)) with ({[1%N := demo_bucket]} : gmap uuid bucket) in Hb
          by (vm_compute; reflexivity).
        apply lookup_singleton_Some in Hb as [Hb _]. congruence. }
    destruct Hr as [[_ ->]|[code Hr]]; [|unfold dav_status in Hst; rewrite Hr in Hst; discriminate Hst].
    destruct (find_object (w_db demo_world1) 1%N "docs/a.txt") as [o|] eqn:Ho; [|vm_compute in Ho; discriminate Ho].
    exists o. split; [vm_compute in Ho; injection Ho as <-; vm_compute; reflexivity|].
    replace [o] with turn; [exact Hf|]. rewrite Ht. vm_compute in Ho. injection Ho as <-. vm_compute. reflexivity.
Defined.

(** COPY and MOVE check the path as sent, as the REST handlers do. *)
Example dav_copy_escapes_acl :
  dav_status (dav_dispatch GET (Some bob) "company/docs/a.txt" private_world) = 403 ∧
  dav_status (dav_dispatch (COPY "/dav/company/mine.txt") (Some bob) "company/docs/a.txt" private_world)
    = 403 ∧
  let stolen := dav_dispatch (COPY "/dav/company/mine.txt") (Some bob) "company/./docs/a.txt"
                  private_world in
  dav_status stolen = 201 ∧ dav_body (dav_dispatch GET (Some bob) "company/mine.txt" stolen.2) = Some abc.
Proof. vm_compute. auto. Qed.
