(* ===== verification/Redact.v ===== *)
(** * Redact: no secret is stored or sent ([apps/actions/secret_redaction.py])

    The pattern for sign-in URLs is a value of a small type of regular expressions,
    whose matcher is proved against its relational meaning; [redact_secrets] walks a
    JSON value with it. *)
From S2P Require Import Prelude PyStr Models PyData.

(** ** The part of [re] the pattern uses *)
Inductive regex :=
| Eps
| Chr (p : ascii → bool)
| Many (p : ascii → bool)
| Eos
| Cat (r1 r2 : regex)
| Alt (r1 r2 : regex).

(** [$]: at the end, or before a line feed that ends the text. *)
Definition at_end (s : string) : bool := (s == "") || (s == String "010" "").

(** [re_match r k s]: some match of [r] at the start of [s] leaves a rest in [k]. *)
Fixpoint re_match (r : regex) (k : string → bool) (s : string) : bool :=
  match r with
  | Eps => k s
  | Chr p => match s with "" => false | String c s' => p c && k s' end
  | Many p =>
      (fix many s := k s || match s with "" => false | String c s' => p c && many s' end) s
  | Eos => at_end s && k s
  | Cat r1 r2 => re_match r1 (re_match r2 k) s
  | Alt r1 r2 => re_match r1 k s || re_match r2 k s
  end.
(** [pattern.search(s) is not None] *)
Fixpoint re_search (r : regex) (s : string) : bool :=
  re_match r (λ _, true) s || match s with "" => false | String _ s' => re_search r s' end.

(** The meaning: [r] matches the text between [s] and its suffix [t]. *)
Inductive matches : regex → string → string → Prop :=
| m_eps s : matches Eps s s
| m_chr p c s : p c = true → matches (Chr p) (String c s) s
| m_many_stop p s : matches (Many p) s s
| m_many_step p c s t : p c = true → matches (Many p) s t → matches (Many p) (String c s) t
| m_eos s : at_end s = true → matches Eos s s
| m_cat r1 r2 s t u : matches r1 s t → matches r2 t u → matches (Cat r1 r2) s u
| m_alt_l r1 r2 s t : matches r1 s t → matches (Alt r1 r2) s t
| m_alt_r r1 r2 s t : matches r2 s t → matches (Alt r1 r2) s t.

(** ** [_SIGN_IN_URL], with [re.IGNORECASE] *)
Definition same_letter (a c : ascii) : bool := lower_char c == lower_char a.
Definition one_of (l : string) (c : ascii) : bool := has_char (lower_char c) l.
Fixpoint lit (s : string) : regex :=
  match s with "" => Eps | String a s' => Cat (Chr (same_letter a)) (lit s') end.
Definition opt (r : regex) : regex := Alt r Eps.
Fixpoint alts (l : list regex) (r : regex) : regex :=
  match l with [] => r | r' :: l' => Alt r (alts l' r') end.
Definition cats (l : list regex) : regex := foldr Cat Eps l.

Definition query_char (c : ascii) : bool :=
  let n := Ascii.nat_of_ascii (lower_char c) in
  ((97 <=? n) && (n <=? 122) || (48 <=? n) && (n <=? 57))%nat || one_of "_.-" c.

Definition SIGN_IN_URL : regex :=
  alts
    [ cats [lit "/sign"; opt (lit "-"); lit "in"; Alt (Chr (one_of "/?#")) Eos];
      lit "/share/link/";
      cats [Chr (one_of "?&#"); Many query_char;
            alts [lit "secret"; lit "password"; cats [lit "api"; opt (Chr (one_of "_-")); lit "key"];
                  lit "signature"; lit "sig"] (lit "token");
            lit "="];
      cats [lit "X-Amz-";
            alts [lit "Credential"; lit "Signature"; lit "Security-Token"] (lit "Algorithm")];
      lit "AWSAccessKeyId=" ]
    (cats [lit "magic"; Chr (one_of "-_"); lit "link"]).

(** ** Redaction *)
Definition SENSITIVE_KEYS : list string :=
  ["magic_link"; "magic_link_url"; "token"; "raw_token"; "access_token"; "refresh_token";
   "id_token"; "setup_token"; "sign_in_url"; "sign_in_link"; "signin_url"; "signin_link";
   "password"; "passwd"; "pwd"; "secret"; "client_secret"; "api_key"; "apikey";
   "authorization"; "authorization_header"; "credential"; "credentials"; "private_key";
   "signing_secret"; "signed_url"; "signedurl"; "presigned_url"; "presignedurl"; "share_token";
   "share_url"].

Definition sensitive_key (key : string) : bool :=
  let name := replace_char "-" "_" (lower (strip key)) in
  (name in_ SENSITIVE_KEYS)
  || endswith "_token" name || endswith "_tokens" name || endswith "_secret" name
  || endswith "_password" name || endswith "_api_key" name.

Definition sensitive_string (value : string) : bool :=
  if negb (contains "://" value) then false else re_search SIGN_IN_URL value.

(** [None] is the sentinel [_DROP].  The keys of a [dict] are distinct, so rebuilding
    it in order is a filter. *)
Fixpoint without_secrets (value : json) : option json :=
  match value with
  | JObj l =>
      Some (JObj ((fix go l :=
        match l with
        | [] => []
        | (key, item) :: l' =>
            if sensitive_key key then go l'
            else match without_secrets item with
                 | None => go l'
                 | Some kept => (key, kept) :: go l'
                 end
        end) l))
  | JList l =>
      Some (JList ((fix go l :=
        match l with
        | [] => []
        | item :: l' => match without_secrets item with
                        | None => go l'
                        | Some kept => kept :: go l'
                        end
        end) l))
  | JStr s => if sensitive_string s then None else Some value
  | _ => Some value
  end.

Definition redact_secrets (value : json) : json :=
  match without_secrets value with
  | Some cleaned => cleaned
  | None => match value with JObj _ => JObj [] | JList _ => JList [] | _ => JStr "" end
  end.
(** [redact_secrets(d)] for a dictionary *)
Definition redact_dict (l : list (string * json)) : list (string * json) :=
  match redact_secrets (JObj l) with JObj l' => l' | _ => [] end.

Example redact_demo :
  redact_secrets (JObj [("path", JStr "a/b.pdf"); ("Share-Token", JStr "x"); ("size", JInt 3);
     ("links", JList [JStr "https://h/Sign-In"; JStr "https://h/ok"; JStr "https://h/?my_TOKEN=1"]);
     ("inner", JObj [("db_password", JStr "p"); ("url", JStr "s3://b/k?X-Amz-Signature=1")])])
  = JObj [("path", JStr "a/b.pdf"); ("size", JInt 3); ("links", JList [JStr "https://h/ok"]);
          ("inner", JObj [])].
Proof. vm_compute. reflexivity. Qed.

(** ** The matcher decides the relation *)
Lemma re_match_spec r k s : re_match r k s = true ↔ ∃ t, matches r s t ∧ k t = true.
Proof.
  revert k s. induction r as [|p|p| |r1 IH1 r2 IH2|r1 IH1 r2 IH2]; intros k s; cbn [re_match].
  - split; [intros Hk; eexists; split; [constructor|done]|]. by intros (t & Hm & Hk); inversion Hm; subst.
  - split.
    + destruct s as [|c s]; [done|]. intros [Hc Hk]%andb_true_iff. eexists. by split; [constructor|].
    + intros (t & Hm & Hk). inversion Hm; subst. by apply andb_true_iff.
  - induction s as [|c s IH].
    + rewrite orb_false_r. split; [intros Hk; eexists; split; [constructor|done]|].
      by intros (t & Hm & Hk); inversion Hm; subst.
    + rewrite orb_true_iff, andb_true_iff, IH. split.
      * intros [Hk|[Hc (t & Hm & Hk)]]; eexists; (split; [|done]); by constructor.
      * intros (t & Hm & Hk). inversion Hm; subst; eauto.
  - rewrite andb_true_iff. split; [intros [He Hk]; eexists; split; [by constructor|done]|].
    by intros (t & Hm & Hk); inversion Hm; subst.
  - rewrite IH1. split.
    + intros (t & Hm & (u & Hm' & Hk)%IH2). exists u. split; [by econstructor|done].
    + intros (u & Hm & Hk). inversion Hm; subst. eexists. split; [done|]. apply IH2. eauto.
  - rewrite orb_true_iff, IH1, IH2. split.
    + intros [(t & Hm & Hk)|(t & Hm & Hk)]; exists t; (split; [|done]); by constructor.
    + intros (t & Hm & Hk). inversion Hm; subst; eauto.
Qed.

Lemma re_search_spec r s :
  re_search r s = true ↔ ∃ a b t, s = a +:+ b ∧ matches r b t.
Proof.
  induction s as [|c s IH]; cbn [re_search].
  - rewrite orb_false_r, re_match_spec. split.
    + intros (t & Hm & _). by exists "", "", t.
    + intros (a & b & t & He & Hm). destruct a; [|done]. rewrite str_app_empty_l in He. rewrite <- He in Hm. eauto.
  - rewrite orb_true_iff, re_match_spec, IH. split.
    + intros [(t & Hm & _)|(a & b & t & -> & Hm)]; [by exists "", (String c s), t|].
      by exists (String c a), b, t.
    + intros (a & b & t & He & Hm). destruct a as [|c' a].
      * rewrite str_app_empty_l in He. rewrite <- He in Hm. left. eauto.
      * rewrite str_app_cons in He. injection He as -> ->. right. eauto.
Qed.

(** ** Induction over JSON values *)
Lemma json_ind' (P : json → Prop) :
  P JNull → (∀ b, P (JBool b)) → (∀ z, P (JInt z)) → (∀ s, P (JStr s)) →
  (∀ l, Forall P l → P (JList l)) → (∀ l, Forall (λ kv, P kv.2) l → P (JObj l)) → ∀ v, P v.
Proof.
  intros Hn Hb Hi Hs Hl Ho. fix IH 1.
  intros [|b|z|s|l|l]; [apply Hn|apply Hb|apply Hi|apply Hs| |].
  - apply Hl. induction l; constructor; auto.
  - apply Ho. induction l as [|[k v] l IHl]; constructor; simpl; auto.
Qed.

(** ** What a value says: its strings and keys, at any depth *)
Inductive says_string (s : string) : json → Prop :=
| says_here : says_string s (JStr s)
| says_item v l : v ∈ l → says_string s v → says_string s (JList l)
| says_field k v l : (k, v) ∈ l → says_string s v → says_string s (JObj l).
Inductive says_key (k : string) : json → Prop :=
| key_here v l : (k, v) ∈ l → says_key k (JObj l)
| key_item v l : v ∈ l → says_key k v → says_key k (JList l)
| key_field k' v l : (k', v) ∈ l → says_key k v → says_key k (JObj l).

(** No secret key and no secret string, at any depth. *)
Definition clean (v : json) : Prop :=
  (∀ s, says_string s v → sensitive_string s = false) ∧
  (∀ k, says_key k v → sensitive_key k = false).

Lemma clean_item v l : clean (JList l) → v ∈ l → clean v.
Proof.
  intros [Hs Hk] Hv. split; [intros s ?; apply Hs; by econstructor|intros k ?; apply Hk].
  by eapply key_item.
Qed.
Lemma clean_field k v l : clean (JObj l) → (k, v) ∈ l → clean v ∧ sensitive_key k = false.
Proof.
  intros [Hs Hk] Hv. split; [split|].
  - intros s ?. apply Hs. by econstructor.
  - intros k' ?. apply Hk. by eapply key_field.
  - apply Hk. by eapply key_here.
Qed.
Lemma clean_list l : Forall clean l → clean (JList l).
Proof.
  rewrite Forall_forall. intros Hl. split; intros x Hx; inversion Hx; subst; by eapply Hl.
Qed.
Lemma clean_obj l :
  Forall (λ kv, sensitive_key kv.1 = false ∧ clean kv.2) l → clean (JObj l).
Proof.
  rewrite Forall_forall. intros Hl.
  split; intros x Hx; inversion Hx as [|? ? Hin|? ? ? Hin]; subst;
    match goal with H : (_, _) ∈ l |- _ => destruct (Hl _ H) as [? []]; auto end.
Qed.

(** ** Redaction removes exactly what is secret *)
Definition redact_fields (l : list (string * json)) : list (string * json) :=
  omap (λ kv, if sensitive_key kv.1 then None else pair kv.1 <$> without_secrets kv.2) l.
Lemma without_secrets_obj l : without_secrets (JObj l) = Some (JObj (redact_fields l)).
Proof.
  cbn [without_secrets]. do 2 f_equal. induction l as [|[k v] l IH]; [done|].
  unfold redact_fields. cbn [omap list_omap fst snd]. destruct (sensitive_key k); [exact IH|].
  destruct (without_secrets v); simpl; [f_equal|]; exact IH.
Qed.
Lemma without_secrets_list l : without_secrets (JList l) = Some (JList (omap without_secrets l)).
Proof. reflexivity. Qed.
Lemma redact_dict_fields l : redact_dict l = redact_fields l.
Proof. unfold redact_dict, redact_secrets. by rewrite without_secrets_obj. Qed.

Lemma without_secrets_clean v v' : without_secrets v = Some v' → clean v'.
Proof.
  revert v'. induction v as [|b|z|s|l IH|l IH] using json_ind'; intros v'.
  1-3: intros [= <-]; split; intros x Hx; by inversion Hx.
  - cbn [without_secrets]. destruct (sensitive_string s) eqn:Hs; [done|]. intros [= <-].
    split; intros x Hx; inversion Hx; by subst.
  - rewrite without_secrets_list. intros [= <-]. apply clean_list, Forall_forall.
    intros x (v & Hv & Hx)%list_elem_of_omap. rewrite Forall_forall in IH. by eapply IH.
  - rewrite without_secrets_obj. intros [= <-]. apply clean_obj, Forall_forall.
    intros x ([k v] & Hv & Hx)%list_elem_of_omap. rewrite Forall_forall in IH. simpl in Hx.
    destruct (sensitive_key k) eqn:Hk; [done|].
    destruct (without_secrets v) as [u|] eqn:Hu; [|done]. injection Hx as <-.
    split; [done|]. by apply (IH _ Hv).
Qed.
Lemma clean_unchanged v : clean v → without_secrets v = Some v.
Proof.
  induction v as [|b|z|s|l IH|l IH] using json_ind'; intros Hc; [done..| | |].
  - cbn [without_secrets]. by rewrite (proj1 Hc s (says_here s)).
  - rewrite without_secrets_list. do 2 f_equal. induction l as [|v l IHl]; [done|].
    apply Forall_cons in IH as [Hv IH]. cbn [omap list_omap].
    rewrite Hv by (eapply clean_item; [done|by left]). f_equal. apply IHl; [done|].
    apply clean_list, Forall_forall. intros x Hx. eapply clean_item; [done|by right].
  - rewrite without_secrets_obj. do 2 f_equal. unfold redact_fields.
    induction l as [|[k v] l IHl]; [done|]. apply Forall_cons in IH as [Hv IH].
    destruct (clean_field k v _ Hc) as [Hcv Hk]; [by left|]. cbn [omap list_omap fst snd].
    simpl in Hv. rewrite Hk, Hv by done. simpl. f_equal. apply IHl; [done|].
    apply clean_obj, Forall_forall. intros [k' v'] Hx.
    destruct (clean_field k' v' _ Hc) as [? ?]; [by right|done].
Qed.
Lemma redact_clean v : clean (redact_secrets v).
Proof.
  unfold redact_secrets. destruct (without_secrets v) as [v'|] eqn:Hv.
  - by eapply without_secrets_clean.
  - destruct v; split; intros x Hx; inversion Hx; subst;
      first [done | match goal with H : _ ∈ [] |- _ => destruct (not_elem_of_nil _ H) end].
Qed.
Lemma redact_dict_clean l : clean (JObj (redact_dict l)).
Proof.
  rewrite redact_dict_fields. pose proof (redact_clean (JObj l)) as Hc.
  unfold redact_secrets in Hc. by rewrite without_secrets_obj in Hc.
Qed.
Lemma dict_get_None {V} k (l : list (string * V)) : k ∉ l.*1 → dict_get k l = None.
Proof.
  induction l as [|[k' v] l IH]; [done|]. rewrite fmap_cons, not_elem_of_cons. intros [Hne Hk].
  simpl. rewrite bool_decide_false by (by intros ->). auto.
Qed.
Lemma redact_dict_get k l : NoDup l.*1 →
  dict_get k (redact_dict l) =
  if sensitive_key k then None else dict_get k l ≫= without_secrets.
Proof.
  rewrite redact_dict_fields. unfold redact_fields. induction l as [|[k' v] l IH]; intros Hnd.
  - simpl. by destruct (sensitive_key k).
  - rewrite fmap_cons, NoDup_cons in Hnd. destruct Hnd as [Hk' Hnd]. simpl in Hk'.
    cbn [omap list_omap fst snd dict_get]. specialize (IH Hnd).
    destruct (bool_decide_reflect (k' = k)) as [->|Hne].
    + rewrite (dict_get_None _ _ Hk') in IH. simpl in IH. simpl.
      destruct (sensitive_key k); [exact IH|].
      destruct (without_secrets v); simpl; [by rewrite bool_decide_true|exact IH].
    + destruct (sensitive_key k'), (without_secrets v); simpl;
        rewrite ?bool_decide_false by done; exact IH.
Qed.

(** C33: Redaction is exact.  What [redact_secrets] returns holds, at any depth, no key
    that names a secret and no text that is a sign-in or signed URL; a value without
    secrets is returned unchanged (so redaction is idempotent); and a dictionary keeps
    every other field, redacted in turn, in its place. *)
Theorem redact_secrets_exact :
  (∀ v, clean (redact_secrets v)) ∧
  (∀ v, clean v → redact_secrets v = v) ∧
  (∀ v, redact_secrets (redact_secrets v) = redact_secrets v) ∧
  (∀ l, ∃ l', redact_secrets (JObj l) = JObj l' ∧ l'.*1 `sublist_of` l.*1 ∧
     (NoDup l.*1 → ∀ k, dict_get k l' =
        if sensitive_key k then None else dict_get k l ≫= without_secrets)).
Proof.
  assert (Hid : ∀ v, clean v → redact_secrets v = v).
  { intros v Hv. unfold redact_secrets. by rewrite clean_unchanged. }
  split_and!; [apply redact_clean|done|intros v; apply Hid, redact_clean|].
  intros l. exists (redact_dict l). split_and!.
  - unfold redact_dict, redact_secrets. by rewrite without_secrets_obj.
  - rewrite redact_dict_fields. unfold redact_fields.
    induction l as [|[k v] l IH]; [done|]. cbn [omap list_omap fst snd].
    destruct (sensitive_key k), (without_secrets v); simpl; by constructor.
  - intros Hnd k. by apply redact_dict_get.
Qed.
