(* ===== verification/Registry.v ===== *)
(** * Registry: the catalogue of domain events

    [apps/actions/registry.py] and the registrations of [apps/actions/storage_events.py]. *)
From S2P Require Import Prelude PyStr Models PyData.

Record EventFieldDoc := MkEventFieldDoc {
  f_name : string;
  f_description : string;
  f_example : json }.

Record DomainEventType := MkDomainEventType {
  et_id : string;
  et_label : string;
  et_description : string;
  et_payload_fields : list EventFieldDoc;
  et_emit_by_default : bool;
  et_webhook : bool;
  et_staff_only : bool }.

(** [_REGISTRY]: a dictionary from event ids *)
Definition registry := list (string * DomainEventType).

Definition register_event (event : DomainEventType) (reg : registry) : exn + registry :=
  if bool_decide (is_Some (dict_get (et_id event) reg)) then inl ValueError
  else if et_staff_only event && et_webhook event then inl ValueError
  else inr (dict_set (et_id event) event reg).

Fixpoint register_all (events : list DomainEventType) (reg : registry) : exn + registry :=
  match events with
  | [] => inr reg
  | event :: events' =>
      match register_event event reg with
      | inl e => inl e
      | inr reg' => register_all events' reg'
      end
  end.

(** ** [storage_events.py] *)
Definition OBJECT_FIELDS : list EventFieldDoc :=
  [ MkEventFieldDoc "object_id" "StorageObject UUID" (JStr "550e8400-e29b-41d4-a716-446655440000");
    MkEventFieldDoc "bucket_name" "Bucket slug within the company" (JStr "company");
    MkEventFieldDoc "bucket_kind" "Bucket kind (company or connector)" (JStr "company");
    MkEventFieldDoc "path" "Object path within the bucket" (JStr "docs/report.pdf");
    MkEventFieldDoc "size" "Object size in bytes" (JInt 4096);
    MkEventFieldDoc "mime_type" "Detected MIME type" (JStr "application/pdf");
    MkEventFieldDoc "version" "Monotonic content version after upload" (JInt 1);
    MkEventFieldDoc "created" "True when the object row was created; false on overwrite" (JBool true) ].
Definition BUCKET_FIELDS : list EventFieldDoc :=
  [ MkEventFieldDoc "bucket_id" "Bucket UUID" (JStr "550e8400-e29b-41d4-a716-446655440001");
    MkEventFieldDoc "bucket_name" "Bucket slug" (JStr "company");
    MkEventFieldDoc "bucket_kind" "Bucket kind" (JStr "company") ].
Definition SCHEDULED_JOB_FIELDS : list EventFieldDoc :=
  [ MkEventFieldDoc "run_id" "ScheduledJobRun id" (JInt 1234);
    MkEventFieldDoc "job" "Job name: retry_webhooks or purge_expired_data" (JStr "retry_webhooks");
    MkEventFieldDoc "trigger" "celery (in-container beat) or command (external scheduler)" (JStr "celery");
    MkEventFieldDoc "duration_ms" "Run duration in milliseconds" (JInt 412);
    MkEventFieldDoc "counts" "Items processed, per kind"
      (JObj [("webhook_deliveries_attempted", JInt 3); ("webhook_deliveries_succeeded", JInt 3);
             ("email_events_attempted", JInt 1); ("email_events_succeeded", JInt 1)]);
    MkEventFieldDoc "host" "Host name and process id that ran the job" (JStr "storage-7f9c:41") ].

Definition bucket_created_event : DomainEventType :=
  MkDomainEventType "storage.bucket.created" "Company bucket provisioned"
    "The system company bucket was created for a company (first storage access)."
    BUCKET_FIELDS true true false.
Definition object_uploaded_event : DomainEventType :=
  MkDomainEventType "storage.object.uploaded" "Object uploaded"
    "A file was uploaded or overwritten (REST, WebDAV, or internal services). Folder placeholders are omitted."
    OBJECT_FIELDS true true false.
Definition object_deleted_event : DomainEventType :=
  MkDomainEventType "storage.object.deleted" "Object deleted"
    "An object row and blob were removed. Folder placeholders are omitted."
    [ MkEventFieldDoc "bucket_name" "Bucket slug" (JStr "company");
      MkEventFieldDoc "path" "Object path" (JStr "docs/report.pdf");
      MkEventFieldDoc "size" "Former size in bytes" (JInt 4096);
      MkEventFieldDoc "mime_type" "Former MIME type" (JStr "application/pdf") ]
    true true false.
Definition job_succeeded_event : DomainEventType :=
  MkDomainEventType "storage.scheduled_job.succeeded" "Scheduled job succeeded"
    "A scheduled job run finished without error. Platform event, staff only."
    SCHEDULED_JOB_FIELDS true false true.
(** The example of the first field ends in a horizontal ellipsis in the source. *)
Definition job_failed_event : DomainEventType :=
  MkDomainEventType "storage.scheduled_job.failed" "Scheduled job failed"
    "A scheduled job run raised an error. Platform event, staff only."
    (SCHEDULED_JOB_FIELDS ++
     [ MkEventFieldDoc "error_key" "Stable error key (database_error, redis_error, ...)" (JStr "database_error");
       MkEventFieldDoc "error_class" "Exception class name" (JStr "OperationalError") ])
    true false true.

Definition storage_events : list DomainEventType :=
  [ bucket_created_event; object_uploaded_event; object_deleted_event; job_succeeded_event;
    job_failed_event ].
(** [_REGISTRY] once [storage_events.py] has been imported *)
Definition REGISTRY : registry :=
  match register_all storage_events [] with inr reg => reg | inl _ => [] end.

(** ** Queries *)
Section queries.
Context (reg : registry).

Definition get_event_type (event_id : string) : exn + DomainEventType :=
  match dict_get event_id reg with Some event => inr event | None => inl ValueError end.
Definition is_registered_event (event_id : string) : bool :=
  bool_decide (is_Some (dict_get event_id reg)).
Definition all_event_types : list DomainEventType :=
  sort_by (λ e e', str_le (et_id e) (et_id e')) (reg.*2).
Definition is_webhook_event (event_id : string) : bool :=
  match dict_get event_id reg with
  | None => false
  | Some event => et_webhook event && negb (et_staff_only event)
  end.
Definition webhook_event_types : list DomainEventType :=
  filter (λ e, et_webhook e && negb (et_staff_only e) = true) all_event_types.
Definition company_event_types : list DomainEventType :=
  filter (λ e, negb (et_staff_only e) = true) all_event_types.
Definition staff_only_event_types : list DomainEventType :=
  filter (λ e, et_staff_only e = true) all_event_types.
Definition event_choices : list (string * string) :=
  (λ e, (et_id e, et_label e +:+ " (" +:+ et_id e +:+ ")"
                  +:+ (if et_emit_by_default e then "" else " (not emitted yet)")))
  <$> webhook_event_types.
End queries.

Definition event_field_doc_dict (field : EventFieldDoc) : json :=
  JObj [("name", JStr (f_name field)); ("description", JStr (f_description field));
        ("example", f_example field)].

Example storage_events_register : register_all storage_events [] = inr REGISTRY.
Proof. reflexivity. Qed.
Example webhook_events :
  et_id <$> webhook_event_types REGISTRY
  = ["storage.bucket.created"; "storage.object.deleted"; "storage.object.uploaded"].
Proof. vm_compute. reflexivity. Qed.

(** ** Well-formed registries *)
(** The entries are keyed by their ids, and a platform event is never a webhook event. *)
Record registry_ok (reg : registry) : Prop := RegistryOk {
  reg_distinct : NoDup reg.*1;
  reg_keyed : Forall (λ kv, kv.1 = et_id kv.2) reg;
  reg_platform : Forall (λ kv, et_staff_only kv.2 = true → et_webhook kv.2 = false) reg }.

Lemma dict_set_fresh {V} k (v : V) l : dict_get k l = None → dict_set k v l = l ++ [(k, v)].
Proof.
  induction l as [|[k' v'] l IH]; [done|]. simpl. case_bool_decide; [done|]. intros Hk. by rewrite IH.
Qed.
Lemma dict_get_not_in {V} k (l : list (string * V)) : dict_get k l = None → k ∉ l.*1.
Proof.
  induction l as [|[k' v'] l IH]; simpl; [intros _; apply not_elem_of_nil|].
  case_bool_decide; [done|]. intros Hk. rewrite not_elem_of_cons. split; [by intros ->|auto].
Qed.
Lemma dict_get_in {V} k (v : V) l : dict_get k l = Some v → (k, v) ∈ l.
Proof.
  induction l as [|[k' v'] l IH]; simpl; [done|]. case_bool_decide as He.
  - intros [= ->]. subst. by left.
  - intros Hk. right. auto.
Qed.
Lemma dict_get_nodup {V} k (v : V) l : NoDup l.*1 → (k, v) ∈ l → dict_get k l = Some v.
Proof.
  induction l as [|[k' v'] l IH]; intros Hnd Hin; [by apply not_elem_of_nil in Hin|].
  rewrite fmap_cons, NoDup_cons in Hnd. destruct Hnd as [Hk' Hnd]. simpl in *.
  apply elem_of_cons in Hin as [[= -> ->]|Hin]; [by rewrite bool_decide_true|].
  rewrite bool_decide_false; [auto|]. intros ->. apply Hk'.
  by apply (list_elem_of_fmap_2 fst _ (k, v)).
Qed.

Lemma register_event_ok event reg :
  registry_ok reg →
  match register_event event reg with
  | inl e => e = ValueError ∧
      (is_Some (dict_get (et_id event) reg) ∨ et_staff_only event && et_webhook event = true)
  | inr reg' => registry_ok reg' ∧ reg' = reg ++ [(et_id event, event)]
  end.
Proof.
  intros [Hnd Hk Hp]. unfold register_event. case_bool_decide as Hin; [auto|].
  destruct (et_staff_only event && et_webhook event) eqn:He; [auto|].
  apply eq_None_not_Some in Hin. rewrite dict_set_fresh by done. split; [|done]. split.
  - rewrite fmap_app. apply NoDup_app. split_and!; [done| |apply NoDup_singleton].
    intros k Hkin Hk1. apply list_elem_of_singleton in Hk1 as ->.
    by apply dict_get_not_in in Hin.
  - apply Forall_app. split; [done|]. by constructor.
  - apply Forall_app. split; [done|]. constructor; [|done]. simpl. intros Hs.
    by rewrite Hs in He.
Qed.
Lemma register_all_ok events reg reg' :
  registry_ok reg → register_all events reg = inr reg' →
  registry_ok reg' ∧ reg' = reg ++ ((λ e, (et_id e, e)) <$> events).
Proof.
  revert reg. induction events as [|e events IH]; intros reg Hreg; cbn [register_all].
  - intros [= <-]. by rewrite app_nil_r.
  - pose proof (register_event_ok e reg Hreg) as Hok.
    destruct (register_event e reg) as [|reg1]; [done|]. destruct Hok as [Hok ->].
    intros Hall. apply IH in Hall as [? ->]; [|done]. split; [done|]. by rewrite <- app_assoc.
Qed.
Lemma REGISTRY_ok : registry_ok REGISTRY.
Proof.
  destruct (register_all_ok storage_events [] REGISTRY) as [? _];
    [split; constructor|apply storage_events_register|done].
Qed.

Lemma partition_perm {A} (p : A → bool) (l : list A) :
  filter (λ x, negb (p x) = true) l ++ filter (λ x, p x = true) l ≡ₚ l.
Proof.
  induction l as [|x l IH]; [done|]. rewrite !filter_cons. destruct (p x) eqn:Hx; simpl.
  - rewrite <- Permutation_middle. by constructor.
  - by constructor.
Qed.

(** Registering events yields a consistent catalogue: an id leads to the event
    registered under it and to nothing else, company events and platform events
    partition the catalogue, and the events offered as webhook triggers are exactly the
    webhook events, none of them a platform event. *)
Theorem catalogue_consistent events reg :
  register_all events [] = inr reg →
  (∀ id e, get_event_type reg id = inr e ↔ e ∈ events ∧ et_id e = id) ∧
  all_event_types reg ≡ₚ events ∧
  company_event_types reg ++ staff_only_event_types reg ≡ₚ events ∧
  (∀ e, e ∈ webhook_event_types reg ↔ e ∈ events ∧ et_webhook e = true) ∧
  (∀ e, e ∈ webhook_event_types reg → et_staff_only e = false) ∧
  (∀ id, is_webhook_event reg id = true ↔ ∃ e, e ∈ webhook_event_types reg ∧ et_id e = id).
Proof.
  intros Hall. apply register_all_ok in Hall as [Hok ->]; [|split; constructor].
  simpl app in *. set (reg := (λ e, (et_id e, e)) <$> events) in *.
  assert (Hin : ∀ id e, (id, e) ∈ reg ↔ e ∈ events ∧ et_id e = id).
  { intros id e. unfold reg. rewrite list_elem_of_fmap. split.
    - by intros (e' & [= -> ->] & He).
    - intros [He <-]. by exists e. }
  assert (Hget : ∀ id e, dict_get id reg = Some e ↔ e ∈ events ∧ et_id e = id).
  { intros id e. rewrite <- Hin. split; [apply dict_get_in|apply dict_get_nodup, Hok]. }
  assert (Hperm : all_event_types reg ≡ₚ events).
  { unfold all_event_types. rewrite sort_by_perm. unfold reg. rewrite <- list_fmap_compose.
    by rewrite list_fmap_id. }
  assert (Hplat : ∀ e, e ∈ events → et_staff_only e = true → et_webhook e = false).
  { intros e He. pose proof (reg_platform _ Hok) as Hp. rewrite Forall_forall in Hp.
    by apply (Hp (et_id e, e)), Hin. }
  assert (Hweb : ∀ e, e ∈ webhook_event_types reg ↔ e ∈ events ∧ et_webhook e = true).
  { intros e. unfold webhook_event_types. rewrite list_elem_of_filter, Hperm, andb_true_iff.
    split; [by intros [[] ?]|]. intros [He Hw]. split_and!; [done| |done].
    destruct (et_staff_only e) eqn:Hs; [|done]. rewrite Hplat in Hw; done. }
  assert (Hquery : ∀ id, is_webhook_event reg id = true ↔
            ∃ e, e ∈ webhook_event_types reg ∧ et_id e = id).
  { intros id. unfold is_webhook_event. setoid_rewrite Hweb. split.
    - destruct (dict_get id reg) as [e|] eqn:He; [|done]. apply Hget in He as [? ?].
      intros [? _]%andb_true_iff. eauto.
    - intros (e & [He Hw] & Hid). rewrite (proj2 (Hget id e)) by done. rewrite Hw. simpl.
      destruct (et_staff_only e) eqn:Hs; [|done]. rewrite Hplat in Hw; done. }
  split_and!; [|done| |done| |done].
  - intros id e. rewrite <- Hget. unfold get_event_type. by destruct (dict_get id reg); split; intros [= ->].
  - unfold company_event_types, staff_only_event_types. by rewrite partition_perm.
  - intros e [He Hw]%Hweb. destruct (et_staff_only e) eqn:Hs; [|done]. rewrite Hplat in Hw; done.
Qed.
Lemma catalogue_consistent_witness :
  register_all storage_events [] = inr REGISTRY ∧
  (∀ id e, get_event_type REGISTRY id = inr e ↔ e ∈ storage_events ∧ et_id e = id).
Proof.
  split; [reflexivity|]. exact (proj1 (catalogue_consistent storage_events REGISTRY eq_refl)).
Defined.
