(* ===== verification/Events.v ===== *)
(** * Events: recording and emitting domain events

    [apps/actions/event_log.py], [envelope.py], [company.py], the queueing half of
    [email_service.py] and [emit.py]. *)
From S2P Require Import Prelude PyStr Models PyData Signals Quotas Backends Redact Registry.

(** The settings the actions subsystem reads. *)
Class ActionSettings := {
  EMAIL_SERVICE_API_KEY : string;
  EMAIL_SERVICE_URL : string;
  EMAIL_SERVICE_ALLOW_PRIVATE : bool;
  ACTIONS_OUTBOX_MAX_ATTEMPTS : Z;
  ACTIONS_WEBHOOK_ALLOW_PRIVATE : bool;
  ACTIONS_WEBHOOK_RETRY_LEASE_SECONDS : Z;
  EVENT_LOG_RETENTION_DAYS : Z }.

Definition demo_actions : ActionSettings := {|
  EMAIL_SERVICE_API_KEY := "esk_1"; EMAIL_SERVICE_URL := "https://mail.example/";
  EMAIL_SERVICE_ALLOW_PRIVATE := false; ACTIONS_OUTBOX_MAX_ATTEMPTS := 3;
  ACTIONS_WEBHOOK_ALLOW_PRIVATE := false; ACTIONS_WEBHOOK_RETRY_LEASE_SECONDS := 120;
  EVENT_LOG_RETENTION_DAYS := 30 |}.

(** An event actor: [None] or a dictionary. *)
Abbreviation actor := (option (list (string * json))).
(** [(actor or {}).get(k)] *)
Definition actor_get (k : string) (a : actor) : option json := a ≫= dict_get k.
Definition get_actions : prog actions_db := gets (λ w, db_actions (w_db w)).
Definition modify_actions (f : actions_db → actions_db) : prog unit := modify_db (set_actions f).
(** The next primary key of a table whose keys the database counts up. *)
Definition next_pk : prog N :=
  a <- get_actions ;; modify_actions (set_next_id N.succ) ;;; ret (a_next_id a).
(** [t.isoformat()] of an aware UTC datetime *)
Definition iso_utc (t : datetime) : string := isoformat_naive t +:+ "+00:00".

(** ** [event_log.py] *)
Definition is_empty (v : json) : bool :=
  match v with
  | JNull | JStr "" | JList [] | JObj [] => true
  | _ => false
  end.
Definition is_false (v : json) : bool := match v with JBool b => negb b | _ => false end.
Definition SKIP : list string := ["company_id"; "user_id"].

Definition compact_event_data (payload : list (string * json)) (a : actor) : list (string * json) :=
  let raw := filter (λ kv, (kv.1 ∉ SKIP) ∧ (is_empty kv.2 || is_false kv.2) = false) payload in
  let data := redact_dict raw in
  match actor_get "email" a with
  | Some email => if json_truthy email then dict_set "actor_email" email data else data
  | None => data
  end.

Definition actor_user_id (a : actor) : option Z :=
  match actor_get "user_id" a with
  | Some (JInt raw) => if raw <=? 0 then None else Some raw
  | _ => None
  end.

Definition record_event (event_type : string) (company_id : Z) (payload : list (string * json))
  (a : actor) : prog event_log :=
  i <- next_pk ;;
  t <- now ;;
  let row := EventLog i (Some company_id) (actor_user_id a) event_type
               (compact_event_data payload a) t in
  modify_actions (set_events (λ l, l ++ [row])) ;;; ret row.

(** ** [company.py], [envelope.py] *)
Record company_context := CompanyContext { cc_id : Z; cc_slug : string; cc_name : string }.
Definition company_context_from_id (company_id : Z) (slug name : string) : company_context :=
  CompanyContext company_id (strip slug) (strip name).

Definition envelope_dict (event_type : string) (company : company_context)
  (data : list (string * json)) (a : actor) (i : uuid) (t : datetime) : list (string * json) :=
  let envelope :=
    [("id", JStr (uuid_str i)); ("type", JStr event_type); ("time", JStr (iso_utc t));
     ("company", JObj [("id", JInt (cc_id company)); ("slug", JStr (cc_slug company));
                       ("name", JStr (cc_name company))]);
     ("data", JObj (redact_dict data))] in
  match a with
  | Some ((_ :: _) as d) =>
      match redact_dict d with
      | [] => envelope
      | cleaned => envelope ++ [("actor", JObj cleaned)]
      end
  | _ => envelope
  end.
Definition build_envelope (event_type : string) (company : company_context)
  (data : list (string * json)) (a : actor) (event_id : option uuid)
  (occurred_at : option datetime) : prog (list (string * json)) :=
  i <- match event_id with Some i => ret i | None => uuid4 end ;;
  t <- match occurred_at with Some t => ret t | None => now end ;;
  ret (envelope_dict event_type company data a i t).

(** ** [email_service.py], up to the outbox *)
Section email.
Context `{ActionSettings}.

Definition SERVICE_NAME : string := "storage".
Definition EVENTS_PATH : string := "/api/v1/events".
Definition DEFAULT_ORIGIN : string := "https://email.shellui.com".
Definition REDACTED : string := "[redacted]".
(** [^[^@\s]+@[^@\s]+\.[^@\s]+$] *)
Definition EMAIL_RE : regex :=
let p c := negb (is_space c) && (c != "@"%char) in
cats [Chr p; Many p; Chr (λ c, c == "@"%char); Chr p; Many p; Chr (λ c, c == "."%char);
      Chr p; Many p; Eos].

Definition email_service_api_key : string := strip EMAIL_SERVICE_API_KEY.
Definition email_service_configured : bool := startswith "esk_" email_service_api_key.
Definition email_service_origin : string :=
str_or (rstrip_char "/" (strip EMAIL_SERVICE_URL)) DEFAULT_ORIGIN.
Definition email_events_url : string := email_service_origin +:+ EVENTS_PATH.
Definition redact_email_service_secret (value : string) : string :=
let key := email_service_api_key in
if negb (truthy key) || negb (contains key value) then value
else replace_sub key REDACTED value.

Definition recipient_hints (a : actor) : list json :=
match a with
| None | Some [] => []
| Some d =>
    let email := strip (data_text "email" "" d) in
    if negb (re_match EMAIL_RE (λ _, true) email) then []
    else
      let raw := opt_json (dict_get "user_id" d) in
      [JObj (("email", JStr email) ::
             (if blank raw then []
              else match py_int raw with inr i => [("user_id", JInt i)] | inl _ => [] end))]
end.

Definition email_event_payload (payload : list (string * json)) : list (string * json) :=
redact_dict payload.

Definition build_email_event_body (event_type : string) (company_id : Z)
  (payload : list (string * json)) (idempotency_key : string) (a : actor)
  (company : company_context) : list (string * json) :=
let data := email_event_payload payload in
let company_name := strip (cc_name company) in
let data := if truthy company_name && negb (truthy (strip (data_text "company_name" "" data)))
            then dict_set "company_name" (JStr company_name) data else data in
[("service", JStr SERVICE_NAME); ("event_type", JStr event_type);
 ("company_id", JInt company_id); ("idempotency_key", JStr idempotency_key);
 ("payload", JObj data); ("recipients", JList (recipient_hints a))].

(** [ActionOutbox.objects.create]: the other columns take their defaults. *)
Definition create_outbox_row (i : uuid) (company_id : Z) (rule : option N) (kind : delivery_kind)
  (event_type : string) (envelope : list (string * json)) : prog action_outbox :=
t <- now ;;
let row := ActionOutbox i company_id rule kind event_type (JObj envelope) STATUS_PENDING 0 None
             None "" t t None in
modify_actions (set_outbox (insert i row)) ;;; ret row.

Definition enqueue_email_event (event_type : string) (company_id : Z)
  (payload : list (string * json)) (a : actor) (company : company_context) :
  prog (option action_outbox) :=
if negb email_service_configured then ret None
else
  event_id <- uuid4 ;;
  let body := build_email_event_body event_type company_id payload (uuid_str event_id) a company in
  row <- create_outbox_row event_id company_id None KIND_EMAIL event_type body ;;
  ret (Some row).

(** ** [emit.py] *)
(** [delivery.schedule_outbox_delivery] *)
Definition schedule_outbox_delivery (outbox_ids : list uuid) : prog unit :=
match outbox_ids with
| [] => ret tt
| _ => modify_actions (set_on_commit (λ l, l ++ outbox_ids))
end.

Definition matching_rules (a : actions_db) (company_id : Z) (event_type : string) :
  list action_rule :=
sort_by (λ r r', (r_id r <=? r_id r')%N)
  (filter (λ r, r_company_id r = company_id ∧ r_event_type r = event_type ∧ r_enabled r = true
                ∧ r_action_kind r = ACTION_WEBHOOK) (rows (a_rules a))).

(** The rows for the rules, around one envelope. *)
Definition webhook_rows (event_type : string) (company_id : Z) (ctx : company_context)
  (payload : list (string * json)) (a : actor) (rules : list action_rule) :
  prog (list action_outbox) :=
match rules with
| [] => ret []
| _ =>
    envelope <- build_envelope event_type ctx payload a None None ;;
    map_m (λ rule, i <- uuid4 ;;
             create_outbox_row i company_id (Some (r_id rule)) KIND_WEBHOOK event_type envelope)
      rules
end.

Definition emit_event (event_type : string) (company_id : Z) (payload : list (string * json))
  (company : option company_context) (a : actor) (force : bool) : prog (list action_outbox) :=
match get_event_type REGISTRY event_type with
| inl e => raise e
| inr event =>
    if negb (et_emit_by_default event) && negb force then ret []
    else
      record_event event_type company_id payload a ;;;
      let ctx := default (company_context_from_id company_id "" "") company in
      acts <- get_actions ;;
      outbox_rows <-
        webhook_rows event_type company_id ctx payload a (matching_rules acts company_id event_type) ;;
      email_row <-
        (if negb (et_staff_only event)
         then enqueue_email_event event_type company_id payload a ctx else ret None) ;;
      schedule_outbox_delivery
        ((x_id <$> outbox_rows) ++ match email_row with Some r => [x_id r] | None => [] end) ;;;
      ret outbox_rows
end.

Definition emit_event_if_rules (event_type : string) (company_id : Z)
  (payload : list (string * json)) (company : option company_context) (a : actor)
  (force : bool) : prog (list action_outbox) :=
try_except (emit_event event_type company_id payload company a force)
  (λ e, if e == ValueError then Some (ret []) else None).
End email.

(** ** What queueing does to the world *)
Definition add_rows (l : list action_outbox) (m : gmap uuid action_outbox) :
  gmap uuid action_outbox := foldl (λ m x, <[x_id x := x]> m) m l.

(** From [w] to [w'] the rows [l] are added to the outbox, under UUIDs drawn in
    between, and nothing else happens. *)
Record queued (l : list action_outbox) (w w' : world) : Prop := Queued {
  q_db : w_db w' = set_actions (set_outbox (add_rows l)) (w_db w);
  q_blobs : w_blobs w' = w_blobs w;
  q_now : w_now w' = w_now w;
  q_uuid : (w_next_uuid w ≤ w_next_uuid w')%N;
  q_ids : Forall (λ x, (w_next_uuid w ≤ x_id x < w_next_uuid w')%N) l;
  q_distinct : NoDup (x_id <$> l) }.

Lemma set_outbox_id a : set_outbox (add_rows []) a = a.
Proof. by destruct a. Qed.
Lemma set_actions_id d f : (∀ a, f a = a) → set_actions f d = d.
Proof. intros Hf. destruct d. unfold set_actions. simpl. by rewrite Hf. Qed.
Lemma queued_draw w i : (w_next_uuid w ≤ i)%N →
  queued [] w (World (w_db w) (w_blobs w) (w_now w) i).
Proof.
  intros Hi. split; simpl; [|done..|constructor|constructor].
  by rewrite set_actions_id by apply set_outbox_id.
Qed.
Lemma queued_refl w : queued [] w w.
Proof. destruct w. by apply (queued_draw (World _ _ _ _)). Qed.
Lemma queued_trans l1 l2 w1 w2 w3 :
  queued l1 w1 w2 → queued l2 w2 w3 → queued (l1 ++ l2) w1 w3.
Proof.
  intros [Hd1 Hb1 Hn1 Hu1 Hi1 Ht1] [Hd2 Hb2 Hn2 Hu2 Hi2 Ht2]. split; [|congruence..|lia| |].
  - rewrite Hd2, Hd1. unfold set_actions, set_outbox, add_rows. simpl. by rewrite foldl_app.
  - apply Forall_app. split; [eapply Forall_impl; [exact Hi1|]|eapply Forall_impl; [exact Hi2|]];
      simpl; lia.
  - rewrite fmap_app. apply NoDup_app. split_and!; [done| |done].
    intros i (x & -> & Hx)%list_elem_of_fmap (y & Hy & Hyin)%list_elem_of_fmap.
    rewrite Forall_forall in Hi1, Hi2. specialize (Hi1 _ Hx). specialize (Hi2 _ Hyin). simpl in *. lia.
Qed.

Lemma wp_uuid4 (Q : uuid → world → Prop) R w :
  Q (w_next_uuid w) (World (w_db w) (w_blobs w) (w_now w) (N.succ (w_next_uuid w))) →
  wp uuid4 Q R w.
Proof. done. Qed.

Section queue.
Context `{ActionSettings}.

Definition outbox_row (cid : Z) (rule : option N) (kind : delivery_kind) (et : string)
  (env : list (string * json)) (t : datetime) (i : uuid) : action_outbox :=
ActionOutbox i cid rule kind et (JObj env) STATUS_PENDING 0 None None "" t t None.

Lemma wp_draw_and_create cid rule kind et env (Q : action_outbox → world → Prop) R w :
(∀ w', queued [outbox_row cid rule kind et (env (w_next_uuid w)) (w_now w) (w_next_uuid w)] w w' →
  Q (outbox_row cid rule kind et (env (w_next_uuid w)) (w_now w) (w_next_uuid w)) w') →
wp (i <- uuid4 ;; create_outbox_row i cid rule kind et (env i)) Q R w.
Proof.
intros HQ. unfold create_outbox_row. apply wp_bind, wp_uuid4.
unfold modify_actions, modify_db, now. wp_steps. apply HQ. split; simpl; [done..|lia| |].
- constructor; [simpl; lia|done].
- apply NoDup_singleton.
Qed.

Lemma wp_create_webhook_rows cid et env rules (Q : list action_outbox → world → Prop) R w :
(∀ l w', Forall2 (λ rule x, ∃ i, x = outbox_row cid (Some (r_id rule)) KIND_WEBHOOK et env (w_now w) i)
           rules l → queued l w w' → Q l w') →
wp (map_m (λ rule : action_rule, i <- uuid4 ;;
             create_outbox_row i cid (Some (r_id rule)) KIND_WEBHOOK et env) rules) Q R w.
Proof.
revert w Q. induction rules as [|r rules IH]; intros w Q HQ; cbn [map_m].
- wp_steps. apply HQ; [constructor|apply queued_refl].
- apply wp_bind. apply (wp_draw_and_create cid (Some (r_id r)) KIND_WEBHOOK et (λ _, env)).
  intros w1 Hq1. apply wp_bind. apply IH. intros l w2 Hl Hq2. wp_steps. apply HQ.
  + constructor; [by eexists|]. by rewrite <- (q_now _ _ _ Hq1).
  + by apply (queued_trans [_] l w w1 w2).
Qed.

(** The e-mail row of an event, if one is written. *)
Definition email_rows (event : DomainEventType) (cid : Z) (payload : list (string * json))
  (a : actor) (ctx : company_context) (t : datetime) (i : uuid) : list action_outbox :=
if negb (et_staff_only event) && email_service_configured
then [outbox_row cid None KIND_EMAIL (et_id event)
        (build_email_event_body (et_id event) cid payload (uuid_str i) a ctx) t i]
else [].

Lemma wp_email event cid payload a ctx (Q : option action_outbox → world → Prop) R w :
(∀ w', queued (email_rows event cid payload a ctx (w_now w) (w_next_uuid w)) w w' →
   Q (head (email_rows event cid payload a ctx (w_now w) (w_next_uuid w))) w') →
wp (if negb (et_staff_only event)
    then enqueue_email_event (et_id event) cid payload a ctx else ret None) Q R w.
Proof.
unfold email_rows, enqueue_email_event. intros HQ.
destruct (negb (et_staff_only event)); simpl in HQ; [|wp_steps; apply HQ, queued_refl].
destruct email_service_configured; simpl in *; [|wp_steps; apply HQ, queued_refl].
pose proof (wp_draw_and_create cid None KIND_EMAIL (et_id event)
  (λ i, build_email_event_body (et_id event) cid payload (uuid_str i) a ctx)
  (λ x w', Q (Some x) w') R w HQ) as Hwp.
apply wp_bind_inv in Hwp. apply wp_bind. eapply wp_mono; [exact Hwp| |done].
intros i w1 Hc. apply wp_bind. eapply wp_mono; [exact Hc| |done]. intros x w2 Hx. by wp_steps.
Qed.
End queue.

(** ** What an event leaves behind *)
Section emit.
Context `{ActionSettings}.

Definition log_row (acts : actions_db) (cid : Z) (et : string) (payload : list (string * json))
  (a : actor) (t : datetime) : event_log :=
EventLog (a_next_id acts) (Some cid) (actor_user_id a) et (compact_event_data payload a) t.

(** [w'] is [w] after one emission of [event] that returned [rows]: one log row; a
    pending row for each matching rule, in order, around one envelope; at most one
    e-mail row; all of them scheduled; nothing else. *)
Record emitted (event : DomainEventType) (cid : Z) (payload : list (string * json)) (a : actor)
  (ctx : company_context) (rows : list action_outbox) (w w' : world) : Prop := Emitted {
em_rows : ∃ env, (rows ≠ [] → ∃ i, env = envelope_dict (et_id event) ctx payload a i (w_now w)) ∧
  Forall2 (λ rule x, ∃ i, x = outbox_row cid (Some (r_id rule)) KIND_WEBHOOK (et_id event) env
                                (w_now w) i)
    (matching_rules (db_actions (w_db w)) cid (et_id event)) rows;
em_queue : ∃ i,
  let all := rows ++ email_rows event cid payload a ctx (w_now w) i in
  w_db w' = set_actions (λ acts,
      set_on_commit (λ l, l ++ (x_id <$> all))
        (set_outbox (add_rows all)
          (set_events (λ l, l ++ [log_row acts cid (et_id event) payload a (w_now w)])
            (set_next_id N.succ acts)))) (w_db w) ∧
  Forall (λ x, (w_next_uuid w ≤ x_id x < w_next_uuid w')%N) all ∧ NoDup (x_id <$> all);
em_blobs : w_blobs w' = w_blobs w;
em_now : w_now w' = w_now w;
em_uuid : (w_next_uuid w ≤ w_next_uuid w')%N }.

Definition logged_db (cid : Z) (et : string) (payload : list (string * json)) (a : actor)
  (t : datetime) : db → db :=
set_actions (λ acts, set_events (λ l, l ++ [log_row acts cid et payload a t])
                       (set_next_id N.succ acts)).
Lemma wp_record_event et cid payload a (Q : event_log → world → Prop) R w :
Q (log_row (db_actions (w_db w)) cid et payload a (w_now w))
  (set_db (logged_db cid et payload a (w_now w)) w) →
wp (record_event et cid payload a) Q R w.
Proof.
intros HQ. unfold record_event, next_pk, get_actions, modify_actions, modify_db, now.
wp_steps. exact HQ.
Qed.

Lemma wp_schedule l (Q : unit → world → Prop) R w :
Q tt (set_db (set_actions (set_on_commit (λ l', l' ++ l))) w) →
wp (schedule_outbox_delivery l) Q R w.
Proof.
intros HQ. destruct l as [|i l]; simpl.
- wp_steps. destruct w as [d ? ? ?]. unfold set_db in HQ. simpl in HQ.
  rewrite set_actions_id in HQ; [done|]. intros []. unfold set_on_commit. simpl. by rewrite app_nil_r.
- unfold modify_actions, modify_db. wp_steps. exact HQ.
Qed.

(** The rows for the rules. *)
Lemma wp_webhook_rows et cid ctx payload a rules (Q : list action_outbox → world → Prop) R w :
(∀ env l w',
   (l ≠ [] → ∃ i, env = envelope_dict et ctx payload a i (w_now w)) →
   Forall2 (λ rule x, ∃ i, x = outbox_row cid (Some (r_id rule)) KIND_WEBHOOK et env (w_now w) i)
     rules l → queued l w w' → Q l w') →
wp (webhook_rows et cid ctx payload a rules) Q R w.
Proof.
intros HQ. destruct rules as [|r rules].
- wp_steps. eapply (HQ []); [done|constructor|apply queued_refl].
- apply wp_bind. unfold build_envelope. apply wp_bind, wp_uuid4.
  unfold now. wp_steps.
  set (env := envelope_dict _ _ _ _ _ _).
  set (w1 := World _ _ _ _). assert (Hw1 : queued [] w w1) by (apply queued_draw; lia).
  apply wp_create_webhook_rows. intros l w' Hl Hq. apply (HQ env); [by eexists|exact Hl|].
  by apply (queued_trans [] l w w1 w').
Qed.

Lemma wp_emit_event et cid payload company a force w :
wp (emit_event et cid payload company a force)
  (λ rows w', ∃ event, dict_get et REGISTRY = Some event ∧ et_id event = et ∧
     if et_emit_by_default event || force
     then emitted event cid payload a (default (company_context_from_id cid "" "") company) rows w w'
     else rows = [] ∧ w' = w)
  (λ e w', e = ValueError ∧ dict_get et REGISTRY = None ∧ w' = w) w.
Proof.
unfold emit_event, get_event_type. destruct (dict_get et REGISTRY) as [event|] eqn:He.
2: { apply wp_raise. done. }
assert (Hid : et_id event = et).
{ pose proof (reg_keyed _ REGISTRY_ok) as Hk. rewrite Forall_forall in Hk.
  apply dict_get_in in He. by apply Hk in He. }
rewrite <- negb_orb. destruct (et_emit_by_default event || force) eqn:Hf; cbn [negb].
2: { wp_steps. exists event. rewrite Hf. done. }
apply wp_bind, wp_record_event. apply wp_bind. unfold get_actions. apply wp_gets.
set (w1 := set_db _ w). set (ctx := default _ _). apply wp_bind.
apply wp_webhook_rows. intros env l w2 Henv Hl Hq2.
apply wp_bind. rewrite <- Hid. apply wp_email. intros w3 Hq3.
assert (Hnow : w_now w2 = w_now w) by apply (q_now _ _ _ Hq2).
rewrite Hnow in Hq3 |- *. set (mails := email_rows _ _ _ _ _ _ _) in *.
replace (match head mails with Some r => [x_id r] | None => [] end) with (x_id <$> mails)
  by (unfold mails, email_rows; by destruct (_ && _)).
apply wp_bind, wp_schedule. apply wp_ret. exists event.
rewrite Hf. split_and!; [done|done|].
pose proof (queued_trans _ _ _ _ _ Hq2 Hq3) as [Hd Hb Hn Hu Hi Ht].
split; [|exists (w_next_uuid w2)|exact Hb|exact Hn|exact Hu].
- exists env. rewrite Hid. split; [exact Henv|].
  unfold w1, matching_rules in Hl. exact Hl.
- fold mails. split_and!; [|exact Hi|exact Ht].
  simpl. rewrite Hd, fmap_app. unfold w1, logged_db. rewrite Hid. reflexivity.
Qed.
End emit.

(** ** Reading the outbox afterwards *)
Definition acts (w : world) : actions_db := db_actions (w_db w).
(** Outbox rows are keyed by their ids, which were drawn before. *)
Definition outbox_fresh (w : world) : Prop :=
  ∀ i x, a_outbox (acts w) !! i = Some x → x_id x = i ∧ (i < w_next_uuid w)%N.

Lemma add_rows_lookup l m i : NoDup (x_id <$> l) →
  add_rows l m !! i = match List.find (λ x, x_id x == i) l with Some x => Some x | None => m !! i end.
Proof.
  revert m. induction l as [|x l IH]; intros m Hnd; [done|].
  rewrite fmap_cons, NoDup_cons in Hnd. destruct Hnd as [Hx Hnd].
  unfold add_rows in *. cbn [foldl List.find]. rewrite IH by done.
  case_bool_decide as Hi; [subst i|].
  - destruct (List.find _ l) as [y|] eqn:Hf; [|by rewrite lookup_insert_eq].
    apply List.find_some in Hf as [Hin He]. apply bool_decide_eq_true in He.
    destruct Hx. rewrite <- He. apply list_elem_of_fmap_2. by apply list_elem_of_In.
  - destruct (List.find _ l); [done|]. by rewrite lookup_insert_ne.
Qed.
Lemma add_rows_in l m x : NoDup (x_id <$> l) → x ∈ l → add_rows l m !! x_id x = Some x.
Proof.
  intros Hnd Hx. rewrite add_rows_lookup by done.
  destruct (List.find _ l) as [y|] eqn:Hf.
  - apply List.find_some in Hf as [Hin He]. apply bool_decide_eq_true in He. apply list_elem_of_In in Hin.
    apply list_elem_of_lookup in Hx as [a Ha], Hin as [b Hb].
    rewrite NoDup_alt in Hnd. specialize (Hnd a b (x_id x)).
    rewrite !list_lookup_fmap, Ha, Hb in Hnd. simpl in Hnd. rewrite He in Hnd.
    rewrite Hnd in Ha by done. congruence.
  - eapply List.find_none in Hf; [|by apply list_elem_of_In]. by rewrite bool_decide_true in Hf.
Qed.
Lemma add_rows_cases l m i x : NoDup (x_id <$> l) →
  add_rows l m !! i = Some x → m !! i = Some x ∨ (x ∈ l ∧ x_id x = i).
Proof.
  intros Hnd. rewrite add_rows_lookup by done. destruct (List.find _ l) as [y|] eqn:Hf; [|auto].
  apply List.find_some in Hf as [Hin He]. apply bool_decide_eq_true in He.
  intros [= ->]. right. by rewrite list_elem_of_In.
Qed.
Lemma add_rows_keeps l m i x : Forall (λ y, x_id y ≠ i) l → m !! i = Some x → add_rows l m !! i = Some x.
Proof.
  unfold add_rows. revert m. induction l as [|y l IH]; intros m Hl Hm; [done|].
  apply Forall_cons in Hl as [Hy Hl]. simpl. apply IH; [done|]. by rewrite lookup_insert_ne.
Qed.

Section outcome.
Context `{ActionSettings}.

Lemma email_rows_kind event cid payload a ctx t i x :
x ∈ email_rows event cid payload a ctx t i →
x_delivery_kind x = KIND_EMAIL ∧ x_status x = STATUS_PENDING ∧ x_company_id x = cid ∧
email_service_configured = true ∧ et_staff_only event = false.
Proof.
unfold email_rows. destruct (et_staff_only event), email_service_configured; simpl;
  rewrite ?list_elem_of_singleton; try (intros Hx; by apply not_elem_of_nil in Hx).
by intros ->.
Qed.

(** A pending row for a rule, around a redacted payload. *)
Definition webhook_row_ok (cid : Z) (et : string) (payload : list (string * json))
  (rule : action_rule) (x : action_outbox) : Prop :=
x_action_rule_id x = Some (r_id rule) ∧ x_company_id x = cid ∧ x_event_type x = et ∧
x_delivery_kind x = KIND_WEBHOOK ∧ x_status x = STATUS_PENDING ∧ x_attempt_count x = 0 ∧
∃ env, x_envelope x = JObj env ∧ dict_get "data" env = Some (JObj (redact_dict payload)) ∧
  clean (JObj (redact_dict payload)).
Lemma envelope_data et ctx payload a i t :
dict_get "data" (envelope_dict et ctx payload a i t) = Some (JObj (redact_dict payload)).
Proof.
unfold envelope_dict. destruct a as [[|kv d]|]; [reflexivity| |reflexivity].
destruct (redact_dict (kv :: d)); reflexivity.
Qed.
Lemma webhook_rows_sound cid et ctx payload a env t rules rows :
(rows ≠ [] → ∃ i, env = envelope_dict et ctx payload a i t) →
Forall2 (λ rule x, ∃ i, x = outbox_row cid (Some (r_id rule)) KIND_WEBHOOK et env t i) rules rows →
Forall2 (webhook_row_ok cid et payload) rules rows.
Proof.
intros Hex Hrows. induction Hrows as [|rule x rules rows [i ->] Hrest IH]; [by constructor|].
destruct Hex as [j ->]; [done|]. constructor; [|apply IH; intros _; by exists j].
split_and!; [done..|]. eexists. split_and!; [done|apply envelope_data|apply redact_dict_clean].
Qed.

(** The outcome of an emission.  An id outside the catalogue raises [ValueError] and
    changes nothing.  Otherwise (unless the event is off by default and not forced) the
    event log gains exactly one row of the company, the storage tables and the old
    outbox rows stay, and the new outbox rows are: for each enabled webhook rule of
    that company and event, in order, one pending row that was never attempted, whose
    data hold no secret; and e-mail rows only when the service is configured and the
    event is no platform event.  Every new row is scheduled for delivery on commit. *)
Theorem emit_event_outcome et cid payload company a force w :
outbox_fresh w →
wp (emit_event et cid payload company a force)
  (λ rows w', ∃ event, get_event_type REGISTRY et = inr event ∧
     if et_emit_by_default event || force then
       db_sim (w_db w) (w_db w') ∧ w_blobs w' = w_blobs w ∧ outbox_fresh w' ∧
       a_events (acts w') = a_events (acts w) ++ [log_row (acts w) cid et payload a (w_now w)] ∧
       Forall2 (webhook_row_ok cid et payload) (matching_rules (acts w) cid et) rows ∧
       (∀ i x, a_outbox (acts w) !! i = Some x → a_outbox (acts w') !! i = Some x) ∧
       (∀ i x, a_outbox (acts w') !! i = Some x →
          a_outbox (acts w) !! i = Some x ∨
          i ∈ a_on_commit (acts w') ∧
          (x ∈ rows ∨ x_delivery_kind x = KIND_EMAIL ∧ x_status x = STATUS_PENDING ∧
                      x_company_id x = cid ∧ email_service_configured = true ∧
                      et_staff_only event = false)) ∧
       (∀ x, x ∈ rows → a_outbox (acts w') !! x_id x = Some x)
     else rows = [] ∧ w' = w)
  (λ e w', e = ValueError ∧ get_event_type REGISTRY et = inl ValueError ∧ w' = w) w.
Proof.
intros Hfresh. eapply wp_mono; [apply wp_emit_event| |].
2: { intros e w' (-> & Hn & ->). unfold get_event_type. by rewrite Hn. }
intros rows w' (event & Hget & Hid & Hout). exists event.
split; [unfold get_event_type; by rewrite Hget|].
destruct (et_emit_by_default event || force); [|done].
destruct Hout as [(env & Henv & Hrows) (i0 & Hdb & Hids & Hnd) Hb Hn Hu]. subst et.
set (ctx := default _ _) in *. set (mails := email_rows _ _ _ _ _ _ _) in *.
assert (Hout : a_outbox (acts w') = add_rows (rows ++ mails) (a_outbox (acts w))).
{ unfold acts. by rewrite Hdb. }
assert (Hcommit : a_on_commit (acts w') = a_on_commit (acts w) ++ (x_id <$> rows ++ mails)).
{ unfold acts. by rewrite Hdb. }
assert (Hold : ∀ i x, a_outbox (acts w) !! i = Some x → a_outbox (acts w') !! i = Some x).
{ intros i x Hx. rewrite Hout. apply add_rows_keeps; [|done].
  eapply Forall_impl; [exact Hids|]. simpl. intros y Hy <-. apply Hfresh in Hx. lia. }
assert (Hnew : ∀ x, x ∈ rows ++ mails → a_outbox (acts w') !! x_id x = Some x).
{ intros x Hx. rewrite Hout. by apply add_rows_in. }
rewrite Forall_forall in Hids.
split_and!.
- rewrite Hdb. split; reflexivity.
- done.
- intros i x Hx. rewrite Hout in Hx. apply add_rows_cases in Hx as [Hx|[Hx <-]]; [| |done].
  + apply Hfresh in Hx. split; [apply Hx|]. lia.
  + split; [done|]. apply Hids in Hx. lia.
- unfold acts. by rewrite Hdb.
- by eapply webhook_rows_sound.
- exact Hold.
- intros i x Hx. pose proof Hx as Hx'. rewrite Hout in Hx'.
  apply add_rows_cases in Hx' as [Hx'|[Hin <-]]; [by left| |done]. right. split.
  + rewrite Hcommit. apply elem_of_app. right. by apply list_elem_of_fmap_2.
  + apply elem_of_app in Hin as [?|Hin]; [by left|right]. by eapply email_rows_kind.
- intros x Hx. apply Hnew, elem_of_app. by left.
Qed.
End outcome.

(** A company with two webhook rules for uploads, one of them disabled. *)
Module EventsDemo.
Definition hook (i : N) (enabled : bool) : action_rule :=
  ActionRule i 7 "hook" "" "storage.object.uploaded" enabled ACTION_WEBHOOK
    [("url", JStr "https://hooks.example/in"); ("secret", JStr "s3cret")] 0 0.
Definition hooked_world : world :=
  World (set_actions (set_rules (λ _, {[ 1%N := hook 1 true; 2%N := hook 2 false ]})) empty_db)
    ∅ 1000 5.
Lemma hooked_fresh : outbox_fresh hooked_world.
Proof. intros i x Hx. vm_compute in Hx. by destruct i. Qed.
Definition payload : list (string * json) :=
  [("path", JStr "a.md"); ("share_token", JStr "t"); ("created", JBool false)].
Definition bob : actor := Some [("user_id", JInt 3); ("email", JStr "bob@x.org")].
End EventsDemo.

Example emit_writes_two_rows :
  (λ x, (x_id x, x_delivery_kind x, x_action_rule_id x)) <$>
    rows (a_outbox (acts ((emit_event (H := demo_actions) "storage.object.uploaded" 7
      EventsDemo.payload None EventsDemo.bob false EventsDemo.hooked_world).2)))
  = [(6%N, KIND_WEBHOOK, Some 1%N); (7%N, KIND_EMAIL, None)].
Proof. vm_compute. reflexivity. Qed.

Lemma emit_event_outcome_witness :
  ∃ rows w', emit_event (H := demo_actions) "storage.object.uploaded" 7 EventsDemo.payload None
               EventsDemo.bob false EventsDemo.hooked_world = (inr rows, w') ∧
    a_events (acts w') = [log_row (acts EventsDemo.hooked_world) 7 "storage.object.uploaded"
                            EventsDemo.payload EventsDemo.bob 1000] ∧
    e_data <$> a_events (acts w') = [[("path", JStr "a.md"); ("actor_email", JStr "bob@x.org")]].
Proof.
  pose proof (emit_event_outcome (H := demo_actions) "storage.object.uploaded" 7
    EventsDemo.payload None EventsDemo.bob false EventsDemo.hooked_world EventsDemo.hooked_fresh) as Hwp.
  unfold wp in Hwp.
  destruct (emit_event (H := demo_actions) _ _ _ _ _ _ _) as [[e|rows] w'].
  - destruct Hwp as (_ & Hn & _). discriminate Hn.
  - exists rows, w'. split; [reflexivity|]. destruct Hwp as (event & Hget & Hout).
    injection Hget as <-. destruct Hout as (_ & _ & _ & Hlog & _).
    split; [exact Hlog|]. rewrite Hlog. vm_compute. reflexivity.
Defined.
