(* ===== verification/Hooks.v ===== *)
(** * Hooks: the listeners of the storage signals

    [apps/storage/signals.py] and [apps/actions/storage_hooks.py].  They are an instance
    of the interface of [Signals], and obey its laws; so every theorem on the services,
    the REST API and WebDAV holds with them plugged in. *)
From S2P Require Import Prelude PyStr Models PyData Mime Signals Access Quotas Backends Services.
From S2P Require Import Redact Registry Events.

(** The [markdown] package ([None] when it raises). *)
Class Markdown := { md_markdown : string → option string }.

(** ** [signals.py] *)
(** [re.sub(r'<[^>]+>', ' ', html)] *)
Fixpoint index_char (a : ascii) (s : string) : option nat :=
  match s with
  | "" => None
  | String c s' => if c == a then Some O else S <$> index_char a s'
  end.
Fixpoint blank_tags (skip : nat) (s : string) : string :=
  match s with
  | "" => ""
  | String c s' =>
      match skip with
      | S k => blank_tags k s'
      | O => if c == "<"%char then
               match index_char ">" s' with
               | Some (S n) => String " " (blank_tags (S (S n)) s')
               | _ => String c (blank_tags O s')
               end
             else String c (blank_tags O s')
      end
  end.
Definition strip_tags (html : string) : string :=
  strip (replace_sub "&nbsp;" " " (blank_tags O html)).

Definition is_markdown (o : sobject) : bool :=
  (lower (o_mime_type o) in_ ["text/markdown"; "text/x-markdown"])
  || endswith ".md" (lower (o_name o)) || endswith ".markdown" (lower (o_name o)).

(** [fh.read(n)]: everything when [n] is negative. *)
Definition read_bytes (n : Z) (c : bytes) : bytes := if n <? 0 then c else take (Z.to_nat n) c.

Definition with_metadata (meta : list (string * json)) (o : sobject) : sobject :=
  StorageObject (o_id o) (o_bucket_id o) (o_name o) (o_company_id o) (o_owner_id o) (o_size o)
    (o_etag o) (o_mime_type o) meta (o_storage_key o) (o_version o) (o_created_at o)
    (o_updated_at o) (o_last_accessed_at o).

Section hooks.
Context `{Backend, Utf8, Markdown, ActionSettings}.

Definition extract_markdown_sidecar (instance : sobject) : prog sobject :=
if negb (is_markdown instance) then ret instance
else
  raw <- try_except
           (c <- default_storage_open (o_storage_key instance) ;;
            ret (Some (read_bytes (Z.min (o_size instance) (2 * 1024 * 1024)) c)))
           (λ _, Some (ret None)) ;;
  match raw with
  | None => ret instance
  | Some raw =>
      let text := utf8_text raw in
      let plain := match md_markdown text with Some html => strip_tags html | None => text end in
      let meta := dict_set "markdown_chars" (JInt (Z.of_nat (String.length plain)))
                    (dict_set "markdown_text" (JStr (str_take (Z.to_nat 50000) plain)) (o_metadata instance)) in
      modify_db (set_objects (alter (with_metadata meta) (o_id instance))) ;;;
      ret (with_metadata meta instance)
  end.

(** ** [storage_hooks.py] *)
(** A principal is always authenticated. *)
Definition actor_from_user (user : option principal) : actor :=
match user with
| None => None
| Some p =>
    Some (("user_id", JInt (p_user_id p)) ::
          (if truthy (p_email p) then [("email", JStr (p_email p))] else []) ++
          (if truthy (p_username p) then [("username", JStr (p_username p))] else []))
end.
(** The user of the request, when there is a request. *)
Definition actor_from_request (r : request) : actor := actor_from_user r.

Definition is_folder_placeholder (object_name : string) : bool :=
let name := strip object_name in
(name == FOLDER_PLACEHOLDER_NAME) || endswith ("/" +:+ FOLDER_PLACEHOLDER_NAME) name.

(** Foreign keys to buckets are enforced by the database, so the lookup succeeds. *)
Definition uploaded_payload (d : db) (o : sobject) (created : bool) : list (string * json) :=
let b := obj_bucket d o in
[("object_id", JStr (uuid_str (o_id o)));
 ("bucket_name", JStr (from_option b_name "" b));
 ("bucket_kind", JStr (from_option (λ b, kind_value (b_kind b)) "" b));
 ("path", JStr (o_name o)); ("size", JInt (o_size o)); ("mime_type", JStr (o_mime_type o));
 ("version", JInt (o_version o)); ("created", JBool created)].
Definition actions_on_object_uploaded (o : sobject) (created : bool) (r : request) : prog unit :=
if is_folder_placeholder (o_name o) then ret tt
else
  d <- get_db ;;
  emit_event_if_rules "storage.object.uploaded" (o_company_id o) (uploaded_payload d o created)
    None (actor_from_request r) false ;;;
  ret tt.

Definition deleted_payload (i : deleted_info) : list (string * json) :=
[("bucket_name", JStr (di_bucket_name i)); ("path", JStr (di_object_name i));
 ("size", JInt (di_size i)); ("mime_type", JStr (di_mime_type i))].
Definition actions_on_object_deleted (i : deleted_info) (r : request) : prog unit :=
if is_folder_placeholder (di_object_name i) then ret tt
else
  emit_event_if_rules "storage.object.deleted" (di_company_id i) (deleted_payload i)
    None (actor_from_request r) false ;;;
  ret tt.

Definition created_payload (b : bucket) : list (string * json) :=
[("bucket_id", JStr (uuid_str (b_id b))); ("bucket_name", JStr (b_name b));
 ("bucket_kind", JStr (kind_value (b_kind b)))].
Definition emit_bucket_created (b : bucket) (r : request) (p : option principal) : prog unit :=
emit_event_if_rules "storage.bucket.created" (b_company_id b) (created_payload b) None
  (match actor_from_request r with Some a => Some a | None => actor_from_user p end) false ;;;
ret tt.

(** Receivers run in the order of their registration: [signals.py] (whose logging is
  not modelled) before [storage_hooks.py]. *)
#[export] Instance hooks : Receivers := {|
object_uploaded o created r :=
  o' <- extract_markdown_sidecar o ;; actions_on_object_uploaded o' created r ;;; ret o';
object_deleted i r := actions_on_object_deleted i r;
bucket_created b r p := emit_bucket_created b r p |}.

(** ** The laws of the interface *)
Lemma db_sim_set_actions f d : db_sim d (set_actions f d).
Proof. by split. Qed.
Lemma emitted_quiet event cid payload a ctx rows w w' :
emitted event cid payload a ctx rows w w' → quiet w w'.
Proof.
intros [_ (i & Hd & _) Hb Hn Hu]. split; [rewrite Hd; apply db_sim_set_actions|done..].
Qed.

(** An event of the catalogue that is on by default is emitted, always. *)
Lemma wp_emit_if_rules et event cid payload a w (Q : list action_outbox → world → Prop) R :
dict_get et REGISTRY = Some event → et_emit_by_default event = true →
(∀ rows w', emitted event cid payload a (company_context_from_id cid "" "") rows w w' → Q rows w') →
wp (emit_event_if_rules et cid payload None a false) Q R w.
Proof.
intros Hev Hdef HQ. apply wp_try. eapply wp_mono; [apply wp_emit_event| |].
- intros rows w' (event' & Hev' & _ & Hout). rewrite Hev in Hev'. injection Hev' as <-.
  rewrite Hdef in Hout. by apply HQ.
- intros e w' (_ & Hn & _). by rewrite Hn in Hev.
Qed.

Lemma erase_with_metadata meta o : erase_metadata (with_metadata meta o) = erase_metadata o.
Proof. done. Qed.
Lemma quiet_metadata meta i w : quiet w (set_db (set_objects (alter (with_metadata meta) i)) w).
Proof.
split; simpl; [|done|done|lia]. split; simpl; try done.
apply map_eq. intros j. rewrite !lookup_fmap.
destruct (decide (j = i)) as [->|Hj]; [|by rewrite lookup_alter_ne].
rewrite lookup_alter_eq. by destruct (db_objects (w_db w) !! i).
Qed.
Lemma wp_extract_markdown o w (Q : sobject → world → Prop) R :
(∀ meta w', quiet w w' → acts w' = acts w → Q (with_metadata meta o) w') →
wp (extract_markdown_sidecar o) Q R w.
Proof.
intros HQ. assert (Hsame : Q o w).
{ specialize (HQ (o_metadata o) w). destruct o. apply HQ; done. }
unfold extract_markdown_sidecar. apply wp_if; intros _; [by apply wp_ret|].
apply wp_bind, wp_try, wp_bind. unfold default_storage_open at 1. unfold wp at 1.
destruct (storage_open _ _) as [code|c].
- by repeat apply wp_ret.
- apply wp_ret. unfold modify_db. wp_steps. apply HQ; [apply quiet_metadata|done].
Qed.

#[export] Instance hooks_laws : ReceiverLaws.
Proof.
split.
- intros o c r w. apply wp_bind, wp_extract_markdown. intros meta w1 Hq1 _.
  unfold actions_on_object_uploaded. destruct (is_folder_placeholder _).
  { wp_steps. done. }
  unfold get_db. wp_steps. apply (wp_emit_if_rules _ object_uploaded_event); [done..|].
  intros rows w' Hem. wp_steps. split; [|done]. etrans; [done|]. by eapply emitted_quiet.
- intros i r w. unfold object_deleted, hooks, actions_on_object_deleted.
  destruct (is_folder_placeholder _); [by apply wp_ret|]. apply wp_bind.
  apply (wp_emit_if_rules _ object_deleted_event); [done..|].
  intros rows w' Hem. wp_steps. by eapply emitted_quiet.
- intros b r p w. apply wp_bind.
  apply (wp_emit_if_rules _ bucket_created_event); [done..|].
  intros rows w' Hem. wp_steps. by eapply emitted_quiet.
Qed.
End hooks.

Example strip_tags_demo : strip_tags "<h1>Plan</h1>&nbsp;<>a < b<br/>" = "Plan  <>a".
Proof. vm_compute. reflexivity. Qed.

(** ** Only the listeners write events

    [same_actions a t]: the actions tables are [a] and the clock shows [t].  Everything
    a service does before it fires its signal keeps both. *)
Definition same_actions (a : actions_db) (t : datetime) (w : world) : Prop :=
  acts w = a ∧ w_now w = t.

Section keep.
Context (a : actions_db) (t : datetime).

Lemma keep_modify_db f : (∀ d, db_actions (f d) = db_actions d) →
preserves (same_actions a t) (modify_db f).
Proof. intros Hf w [<- <-]. split; [|done]. apply Hf. Qed.
Lemma keep_uuid4 : preserves (same_actions a t) uuid4.
Proof. by intros w. Qed.
Lemma keep_now : preserves (same_actions a t) now.
Proof. by intros w. Qed.
Lemma keep_get_db : preserves (same_actions a t) get_db.
Proof. by intros w. Qed.
Lemma keep_atomic {A} (m : prog A) : preserves (same_actions a t) m → preserves (same_actions a t) (atomic m).
Proof.
intros Hm w Hw. specialize (Hm w Hw). unfold atomic. destruct (m w) as [[e|x] w']; [|done].
destruct Hw as [Hw _], Hm as [_ Hm]. by split.
Qed.
Lemma keep_lift_sum {A} (x : exn + A) : preserves (same_actions a t) (lift_sum x).
Proof. unfold lift_sum. destruct x; solve_preserves. Qed.
Lemma keep_assert_path p b path i write admin :
preserves (same_actions a t) (assert_can_access_path p b path i write admin).
Proof. unfold assert_can_access_path. pose proof keep_get_db. pose proof keep_now. solve_preserves. Qed.
Lemma keep_save `{Backend} k c : preserves (same_actions a t) (default_storage_save k c).
Proof.
intros w Hw. unfold default_storage_save. by destruct (storage_save k c (w_blobs w)) as [[] ?].
Qed.
Lemma keep_open `{Backend} k : preserves (same_actions a t) (default_storage_open k).
Proof. intros w Hw. unfold default_storage_open. by destruct (storage_open k (w_blobs w)). Qed.
Lemma keep_delete_key `{Backend} k : preserves (same_actions a t) (delete_storage_key k).
Proof.
unfold delete_storage_key. apply preserves_bind; [|intros here; apply preserves_when]; intros w Hw.
- unfold storage_exists. by destruct (storage_has k (w_blobs w)).
- unfold default_storage_delete. by destruct (storage_delete k (w_blobs w)) as [[] ?].
Qed.
End keep.
#[export] Hint Resolve keep_uuid4 keep_now keep_get_db keep_atomic keep_lift_sum keep_assert_path
  keep_save keep_open keep_delete_key : preserve.
#[export] Hint Extern 1 (preserves _ (modify_db _)) => (apply keep_modify_db; intros; reflexivity) : preserve.

Section services.
Context (a : actions_db) (t : datetime) `{Settings, Backend}.

Lemma keep_save_blob k c : preserves (same_actions a t) (save_blob k c).
Proof.
unfold save_blob. apply preserves_try; [solve_preserves|]. intros e m' [= <-]. solve_preserves.
Qed.
Lemma keep_company_quota cid : preserves (same_actions a t) (get_or_create_company_quota cid).
Proof. unfold get_or_create_company_quota. solve_preserves. Qed.
Lemma keep_usage cid uid delta : preserves (same_actions a t) (apply_usage_delta cid uid delta).
Proof.
unfold apply_usage_delta. apply keep_atomic. pose proof (keep_company_quota cid).
apply preserves_if; [solve_preserves|]. apply preserves_bind; [done|]. intros q.
apply preserves_bind; [solve_preserves|]. intros _. apply preserves_option; [|solve_preserves].
intros u. apply preserves_bind; [solve_preserves|]. intros d.
destruct (resolve_user_limit d cid q uid) as [[m|] [r|]]; solve_preserves.
Qed.
Lemma keep_can_store cid uid x y : preserves (same_actions a t) (assert_can_store cid uid x y).
Proof.
unfold assert_can_store. pose proof (keep_company_quota cid).
apply preserves_if; [solve_preserves|]. apply preserves_if; [solve_preserves|].
apply preserves_bind; [done|]. intros q. apply preserves_if; [solve_preserves|].
apply preserves_bind; [solve_preserves|]. intros d.
destruct (resolve_user_limit d cid q uid) as [[m|] r]; solve_preserves.
Qed.
Lemma keep_quota_error m : preserves (same_actions a t) m →
preserves (same_actions a t) (quota_as_storage_error m).
Proof.
intros Hm. apply preserves_try; [done|]. intros e m' He. destruct e; try done.
injection He as <-. solve_preserves.
Qed.
Lemma keep_read_upload c n : preserves (same_actions a t) (read_upload_bytes c n).
Proof. unfold read_upload_bytes. solve_preserves. Qed.
Lemma keep_create_row o : preserves (same_actions a t) (create_object_row o).
Proof. unfold create_object_row. solve_preserves. Qed.
Lemma keep_default_private o uid f : preserves (same_actions a t) (apply_default_private_on_create o uid f).
Proof.
assert (Hg : ∀ c bid oid st sid rt p e cb n ex,
  preserves (same_actions a t) (create_grant_row c bid oid st sid rt p e cb n ex)).
{ intros. unfold create_grant_row. solve_preserves. }
assert (He : ∀ u rt, preserves (same_actions a t) (ensure_default_private_access u o rt)).
{ intros u rt. unfold ensure_default_private_access, copy_folder_grants. solve_preserves.
  all: repeat case_match; solve_preserves. }
unfold apply_default_private_on_create. solve_preserves.
Qed.
End services.
#[export] Hint Resolve keep_save_blob keep_usage keep_can_store keep_quota_error keep_read_upload
  keep_create_row keep_default_private : preserve.

(** ** What a signal publishes *)
Record published `{ActionSettings} (et : string) (cid : Z) (payload : list (string * json))
  (a : actor) (w w' : world) : Prop := Published {
  pub_log : a_events (acts w') = a_events (acts w) ++ [log_row (acts w) cid et payload a (w_now w)];
  pub_queue : ∃ rows mails,
    Forall2 (webhook_row_ok cid et payload) (matching_rules (acts w) cid et) rows ∧
    Forall (λ x, x_delivery_kind x = KIND_EMAIL ∧ x_company_id x = cid) mails ∧
    length mails = (if email_service_configured then 1 else 0)%nat ∧
    a_outbox (acts w') = add_rows (rows ++ mails) (a_outbox (acts w)) ∧
    a_on_commit (acts w') = a_on_commit (acts w) ++ (x_id <$> rows ++ mails) }.

Section publish.
Context `{Settings, Backend, Utf8, Markdown, ActionSettings, MimeTypes}.

Lemma emitted_published event cid payload a ctx rows w w1 w' :
et_staff_only event = false →
same_actions (acts w) (w_now w) w1 → emitted event cid payload a ctx rows w1 w' →
published (et_id event) cid payload a w w'.
Proof.
intros Hst [Ha Hn] [(env & Henv & Hrows) (i & Hd & _) _ _ _].
change (db_actions (w_db w1)) with (acts w1) in Hrows. rewrite Ha in Hrows. rewrite Hn in Henv, Hrows, Hd.
assert (Hacts : acts w' = set_on_commit (λ l, l ++ (x_id <$> rows ++ email_rows event cid payload a ctx (w_now w) i))
  (set_outbox (add_rows (rows ++ email_rows event cid payload a ctx (w_now w) i))
    (set_events (λ l, l ++ [log_row (acts w) cid (et_id event) payload a (w_now w)])
      (set_next_id N.succ (acts w))))).
{ unfold acts at 1. rewrite Hd, <- Ha. reflexivity. }
split; rewrite Hacts; [done|].
exists rows, (email_rows event cid payload a ctx (w_now w) i). split_and!; [| | |done..].
- by eapply webhook_rows_sound.
- apply Forall_forall. intros x Hx. apply email_rows_kind in Hx. naive_solver.
- unfold email_rows. rewrite Hst. by destruct email_service_configured.
Qed.

Lemma wp_object_uploaded o created r w w1 (Q : sobject → world → Prop) R :
same_actions (acts w) (w_now w) w1 →
(∀ o' w', erase_metadata o' = erase_metadata o →
   (if is_folder_placeholder (o_name o) then acts w' = acts w
    else published "storage.object.uploaded" (o_company_id o)
           (uploaded_payload (w_db w') o created) (actor_from_request r) w w') → Q o' w') →
wp (object_uploaded o created r) Q R w1.
Proof.
intros Hw HQ. apply wp_bind, wp_extract_markdown. intros meta w2 Hq Ha.
assert (Hw2 : same_actions (acts w) (w_now w) w2).
{ destruct Hw as [<- <-]. split; [done|]. symmetry. apply Hq. }
unfold actions_on_object_uploaded. change (o_name (with_metadata meta o)) with (o_name o).
destruct (is_folder_placeholder _) eqn:Hph.
{ wp_steps. apply HQ; [done|]. apply Hw2. }
unfold get_db. wp_steps. apply (wp_emit_if_rules _ object_uploaded_event); [done..|].
intros rows w' Hem. wp_steps. apply HQ; [done|].
pose proof (emitted_quiet _ _ _ _ _ _ _ _ Hem) as Hq'.
replace (uploaded_payload (w_db w') o created) with (uploaded_payload (w_db w2) (with_metadata meta o) created).
- by eapply (emitted_published object_uploaded_event).
- unfold uploaded_payload, obj_bucket. simpl. by rewrite (sim_buckets _ _ (quiet_db _ _ Hq')).
Qed.
End publish.

Section composed.
Context `{Settings, Backend, Utf8, Markdown, ActionSettings, MimeTypes}.

(** Run a part that only keeps [same_actions], then go on. *)
Lemma wp_keep {A B} (m : prog A) (k : A → prog B) a t (Q : B → world → Prop) w :
preserves (same_actions a t) m → same_actions a t w →
(∀ x w', same_actions a t w' → wp (k x) Q (λ _ _, True) w') →
wp (bind m k) Q (λ _ _, True) w.
Proof.
intros Hm Hw Hk. apply wp_bind. eapply wp_mono; [by apply wp_preserves| |done].
intros x w' Hw'. by apply Hk.
Qed.

Lemma wp_create_row_same o a t (Q : sobject → world → Prop) w :
same_actions a t w → (∀ w', same_actions a t w' → Q o w') →
wp (create_object_row o) Q (λ _ _, True) w.
Proof.
intros Hw HQ. unfold create_object_row, get_db. wp_steps. case_bool_decide; [done|].
wp_steps. apply HQ. destruct Hw. by split.
Qed.

Definition upload_published (b : bucket) (r : request) (w : world) (o : sobject) (w' : world) : Prop :=
if is_folder_placeholder (o_name o) then acts w' = acts w
else published "storage.object.uploaded" (o_company_id o)
       (uploaded_payload (w_db w') o
          (bool_decide (find_object (w_db w) (b_id b) (o_name o) = None)))
       (actor_from_request r) w w'.

Lemma uploaded_published b created r w o w1 :
same_actions (acts w) (w_now w) w1 →
created = bool_decide (find_object (w_db w) (b_id b) (o_name o) = None) →
wp (object_uploaded o created r) (upload_published b r w) (λ _ _, True) w1.
Proof.
intros Hw ->. eapply wp_object_uploaded; [done|]. intros o' w' He Hpub. unfold upload_published.
assert (Hn : o_name o' = o_name o ∧ o_company_id o' = o_company_id o).
{ destruct (erase_metadata_fields _ _ He) as (_&_&?&?&_). done. }
destruct Hn as [-> ->]. destruct (is_folder_placeholder _); [done|].
replace (uploaded_payload (w_db w') o' _) with (uploaded_payload (w_db w') o
  (bool_decide (find_object (w_db w) (b_id b) (o_name o) = None))); [done|].
destruct o, o'. unfold erase_metadata in He. simpl in He. by injection He as -> -> -> -> -> -> -> -> -> -> -> -> ->.
Qed.

Lemma wp_overwrite_published b old data owner mime meta r w w1 :
same_actions (acts w) (w_now w) w1 →
find_object (w_db w) (b_id b) (o_name old) = Some old →
wp (overwrite_object b old data owner mime meta r) (upload_published b r w) (λ _ _, True) w1.
Proof.
intros Hw Hold. unfold overwrite_object.
do 4 (eapply wp_keep; [solve_preserves|done|clear w1 Hw; intros ? w1 Hw]).
apply uploaded_published; [done|]. simpl. by rewrite Hold.
Qed.
Lemma wp_store_new_published b name data owner size etag mime meta r w w1 :
same_actions (acts w) (w_now w) w1 → find_object (w_db w) (b_id b) name = None →
wp (store_new_object b name data owner size etag mime meta r) (upload_published b r w)
  (λ _ _, True) w1.
Proof.
intros Hw Hnone. unfold store_new_object.
do 3 (eapply wp_keep; [solve_preserves|done|clear w1 Hw; intros ? w1 Hw]).
apply wp_bind. eapply wp_create_row_same; [done|]. clear w1 Hw. intros w1 Hw.
do 2 (eapply wp_keep; [solve_preserves|done|clear w1 Hw; intros ? w1 Hw]).
apply uploaded_published; [done|]. simpl. by rewrite Hnone.
Qed.

(** C31: an upload is published exactly once.  A successful [upload_object] leaves in the
    event log one new row, of the type storage.object.uploaded and of the company of
    the object, with the fields of the stored row and [created] telling whether the
    path was free; and in the outbox one pending row per enabled webhook rule of the
    company, and one e-mail row if the e-mail service is configured, all scheduled for
    delivery.  Folder placeholders publish nothing, and an upload that fails neither:
    the database is as before. *)
Theorem upload_is_published b path content owner ct upsert meta cc r w :
wp (upload_object b path content owner ct upsert meta cc r) (upload_published b r w)
  (λ _ w', w_db w' = w_db w) w.
Proof.
apply wp_atomic. eapply wp_mono with (R := λ _ _, True); [|done|done].
assert (Hw : same_actions (acts w) (w_now w) w) by done.
apply wp_bind. eapply wp_mono with (Q := λ _ w', w' = w) (R := λ _ _, True); [|intros name w1 ->|done].
{ unfold lift_sum. destruct (safe_object_path path); done. }
apply wp_if; intros _; [done|]. unfold get_db. apply wp_bind, wp_gets.
apply wp_if; intros _; [done|].
eapply wp_keep; [solve_preserves|exact Hw|intros data w1 Hw1].
eapply wp_keep; [solve_preserves|exact Hw1|intros _ w2 Hw2]. apply wp_bind, wp_ret.
destruct (find_object (w_db w) (b_id b) name) as [old|] eqn:Hf.
- apply wp_overwrite_published; [done|]. pose proof (find_object_Some _ _ _ _ Hf) as (_ & -> & _). done.
- by apply wp_store_new_published.
Qed.
End composed.
