(* ===== verification/Url.v ===== *)
(** * Url: what the webhook guard uses of [urllib.parse] and [ipaddress]

    The Standard Library of Python 3.14 on texts of characters below U+0100 (on which
    [urllib.parse._checknetloc] accepts everything).  [None] is a [ValueError]. *)
From S2P Require Import Prelude PyStr Models PyData.

(** [s.partition(c)] when [c] occurs in [s]. *)
Fixpoint split_once (a : ascii) (s : string) : option (string * string) :=
  match s with
  | "" => None
  | String c s' =>
      if c == a then Some ("", s')
      else match split_once a s' with Some (l, r) => Some (String c l, r) | None => None end
  end.
Definition before (a : ascii) (s : string) : string := from_option fst s (split_once a s).
Definition after (a : ascii) (s : string) : string := from_option snd "" (split_once a s).
Definition all_digits (s : string) : bool := truthy s && str_forall is_digit s.

(** ** [ipaddress] *)
Inductive ip := IPv4 (n : Z) | IPv6 (n : Z).

Definition parse_octet (s : string) : option Z :=
  if negb (all_digits s) then None
  else if (3 <? String.length s)%nat then None
  else if (s != "0") && startswith "0" s then None
  else match py_int_str 10 s with
       | Some n => if 255 <? n then None else Some n
       | None => None
       end.
Definition combine_digits (base : Z) (l : list Z) : Z := foldl (λ acc n, acc * base + n) 0 l.
Definition ipv4_of_string (s : string) : option Z :=
  if has_char "/" s then None
  else match mapM parse_octet (split_char "." s) with
       | Some ([_; _; _; _] as octets) => Some (combine_digits 256 octets)
       | _ => None
       end.

Definition is_hex (c : ascii) : bool :=
  match digit_of c with Some v => v <? 16 | None => false end.
(** A part of an IPv6 text: as written, or a half of its IPv4 suffix. *)
Definition hextet (p : string + Z) : option Z :=
  match p with
  | inr n => Some n
  | inl s => if truthy s && str_forall is_hex s && (String.length s <=? 4)%nat
             then py_int_str 16 s else None
  end.
Definition empty_part (p : option (string + Z)) : bool :=
  match p with Some (inl s) => negb (truthy s) | _ => false end.

(** The parts between colons; a dotted last part becomes two. *)
Definition ipv6_parts (s : string) : option (list (string + Z)) :=
  let parts := split_char ":" s in
  if (length parts <? 3)%nat then None
  else
    let tail := List.last parts "" in
    if has_char "." tail then
      n ← ipv4_of_string tail;
      Some ((inl <$> List.removelast parts) ++ [inr (Z.shiftr n 16); inr (Z.land n 65535)])
    else Some (inl <$> parts).
Definition ipv6_of_parts (parts : list (string + Z)) : option Z :=
  let len := length parts in
  if (9 <? len)%nat then None
  else
    let first_empty := empty_part (head parts) in
    let last_empty := empty_part (last parts) in
    match filter (λ i, empty_part (parts !! i) = true) (seq 1 (len - 2)) with
    | [] =>
        if negb (len =? 8)%nat then None
        else hs ← mapM hextet parts; Some (combine_digits 65536 hs)
    | [skip] =>
        let hi := if first_empty then (skip - 1)%nat else skip in
        let lo := if last_empty then (len - skip - 2)%nat else (len - skip - 1)%nat in
        if first_empty && negb (hi =? 0)%nat then None
        else if last_empty && negb (lo =? 0)%nat then None
        else if (8 - (hi + lo) <? 1)%nat then None
        else
          his ← mapM hextet (take hi parts);
          los ← mapM hextet (drop (len - lo) parts);
          Some (Z.shiftl (combine_digits 65536 his) (16 * Z.of_nat (8 - hi))
                + combine_digits 65536 los)
    | _ => None
    end.
Definition ipv6_of_string (s : string) : option Z :=
  if has_char "/" s then None
  else
    let addr := before "%" s in
    let scope_ok := match split_once "%" s with
                    | None => true
                    | Some (_, scope) => truthy scope && negb (has_char "%" scope)
                    end in
    if negb scope_ok then None else ipv6_parts addr ≫= ipv6_of_parts.

Definition ip_address (s : string) : option ip :=
  match ipv4_of_string s with
  | Some n => Some (IPv4 n)
  | None => IPv6 <$> ipv6_of_string s
  end.

(** *** Networks: [ip in network], with [bits] the width of an address *)
Definition in_net (bits : Z) (n : Z) (net : Z * Z) : bool :=
  Z.shiftr n (bits - net.2) =? Z.shiftr net.1 (bits - net.2).
Definition v4 (a b c d : Z) : Z := combine_digits 256 [a; b; c; d].
Definition v6 (high : list Z) : Z :=
  Z.shiftl (combine_digits 65536 high) (16 * (8 - Z.of_nat (length high))).

Definition V4_PRIVATE : list (Z * Z) :=
  [(v4 0 0 0 0, 8); (v4 10 0 0 0, 8); (v4 127 0 0 0, 8); (v4 169 254 0 0, 16);
   (v4 172 16 0 0, 12); (v4 192 0 0 0, 24); (v4 192 0 0 170, 31); (v4 192 0 2 0, 24);
   (v4 192 168 0 0, 16); (v4 198 18 0 0, 15); (v4 198 51 100 0, 24); (v4 203 0 113 0, 24);
   (v4 240 0 0 0, 4); (v4 255 255 255 255, 32)].
Definition V4_EXCEPTIONS : list (Z * Z) := [(v4 192 0 0 9, 32); (v4 192 0 0 10, 32)].
Definition V4_SHARED : Z * Z := (v4 100 64 0 0, 10).
Definition V6_PRIVATE : list (Z * Z) :=
  [(1, 128); (0, 128); (Z.shiftl 65535 32, 96); (v6 [0x64; 0xff9b; 1], 48); (v6 [0x100], 64);
   (v6 [0x2001], 23); (v6 [0x2001; 0xdb8], 32); (v6 [0x2002], 16); (v6 [0x3fff], 20);
   (v6 [0xfc00], 7); (v6 [0xfe80], 10)].
Definition V6_EXCEPTIONS : list (Z * Z) :=
  [(v6 [0x2001; 1] + 1, 128); (v6 [0x2001; 1] + 2, 128); (v6 [0x2001; 3], 32);
   (v6 [0x2001; 4; 0x112], 48); (v6 [0x2001; 0x20], 28); (v6 [0x2001; 0x30], 28)].

Definition v4_is_private (n : Z) : bool :=
  existsb (in_net 32 n) V4_PRIVATE && negb (existsb (in_net 32 n) V4_EXCEPTIONS).
Definition v4_is_global (n : Z) : bool := negb (in_net 32 n V4_SHARED) && negb (v4_is_private n).
Definition ipv4_mapped (n : Z) : option Z :=
  if Z.shiftr n 32 =? 65535 then Some (Z.land n 0xFFFFFFFF) else None.
Definition v6_is_private (n : Z) : bool :=
  match ipv4_mapped n with
  | Some m => v4_is_private m
  | None => existsb (in_net 128 n) V6_PRIVATE && negb (existsb (in_net 128 n) V6_EXCEPTIONS)
  end.
Definition is_global (a : ip) : bool :=
  match a with
  | IPv4 n => v4_is_global n
  | IPv6 n => match ipv4_mapped n with Some m => v4_is_global m | None => negb (v6_is_private n) end
  end.

(** ** [urllib.parse.urlparse] *)
Record parse_result := ParseResult {
  u_scheme : string; u_netloc : string; u_path : string; u_query : string }.

Definition is_alpha (c : ascii) : bool :=
  let n := Ascii.nat_of_ascii c in
  ((65 <=? n) && (n <=? 90) || (97 <=? n) && (n <=? 122))%nat.
Definition scheme_char (c : ascii) : bool := is_alpha c || is_digit c || has_char c "+-.".
Definition split_scheme (url : string) : string * string :=
  match split_once ":" url with
  | Some (String c s, rest) =>
      if is_alpha c && str_forall scheme_char (String c s) then (lower (String c s), rest) else ("", url)
  | _ => ("", url)
  end.
(** The text up to the first of [/], [?] and [#], and the rest. *)
Fixpoint split_netloc (s : string) : string * string :=
  match s with
  | "" => ("", "")
  | String c s' =>
      if has_char c "/?#" then ("", s)
      else let '(l, r) := split_netloc s' in (String c l, r)
  end.
(** [\Av[a-fA-F0-9]+\..+\Z]; a dot of the pattern is any character but a line feed. *)
Definition ip_future (s : string) : bool :=
  match s with
  | String v s' =>
      match split_once "." s' with
      | Some (h, t) => truthy h && str_forall is_hex h && truthy t && negb (has_char "010" t)
      | None => false
      end
  | "" => false
  end.
Definition check_bracketed_netloc (netloc : string) : bool :=
  let host_port := after_last "@" netloc in
  match split_once "[" host_port with
  | Some (before_bracket, bracketed) =>
      let hostname := before "]" bracketed in
      let port := after "]" bracketed in
      negb (truthy before_bracket) && (negb (truthy port) || startswith ":" port) &&
      (if startswith "v" hostname then ip_future hostname
       else match ip_address hostname with Some (IPv6 _) => true | _ => false end)
  | None =>
      let hostname := before ":" host_port in
      if startswith "v" hostname then ip_future hostname
      else match ip_address hostname with Some (IPv6 _) => true | _ => false end
  end.
(** [_splitparams]: the parameters of the last segment are cut off. *)
Definition cut_params (path : string) : string :=
  if has_char "/" path then before_last "/" path +:+ "/" +:+ before ";" (after_last "/" path)
  else before ";" path.

Definition urlparse (url : string) : option parse_result :=
  let url := lstrip_while (λ c, (Ascii.nat_of_ascii c <=? 32)%nat) url in
  let url := remove_char "010" (remove_char "013" (remove_char "009" url)) in
  let '(scheme, rest) := split_scheme url in
  let '(netloc, rest) :=
    if startswith "//" rest then split_netloc (str_drop 2 rest) else ("", rest) in
  let opened := has_char "[" netloc in
  let closed := has_char "]" netloc in
  if xorb opened closed then None
  else if opened && closed && negb (check_bracketed_netloc netloc) then None
  else
    let rest := before "#" rest in
    let path := before "?" rest in
    let path := if (scheme in_ ["http"; "https"]) && has_char ";" path then cut_params path
                else path in
    Some (ParseResult scheme netloc path (after "?" rest)).

Definition hostinfo (netloc : string) : string * string :=
  let info := after_last "@" netloc in
  match split_once "[" info with
  | Some (_, bracketed) => (before "]" bracketed, after ":" (after "]" bracketed))
  | None => (before ":" info, after ":" info)
  end.
(** [parsed.hostname], [""] for [None] *)
Definition u_hostname (p : parse_result) : string :=
  let h := (hostinfo (u_netloc p)).1 in
  match split_once "%" h with
  | Some (name, zone) => lower name +:+ "%" +:+ zone
  | None => lower h
  end.
(** [parsed.port]: a [ValueError], or the port when there is one *)
Definition u_port (p : parse_result) : option (option Z) :=
  let port := (hostinfo (u_netloc p)).2 in
  if negb (truthy port) then Some None
  else if negb (all_digits port) then None
  else match py_int_str 10 port with
       | Some n => if n <=? 65535 then Some (Some n) else None
       | None => None
       end.

Example parse_demo :
  urlparse " HTTPS://u:p@Ex.com:99/a;b/c;d?x=1#y" = Some (ParseResult "https" "u:p@Ex.com:99" "/a;b/c" "x=1").
Proof. vm_compute. reflexivity. Qed.
Example host_demo : u_hostname (ParseResult "http" "u@[FE80::1%25Eth]:8080" "" "") = "fe80::1%25Eth".
Proof. vm_compute. reflexivity. Qed.
Example ip_demo : ip_address <$> ["127.0.0.1"; "::1"; "64:ff9b::127.0.0.1"; "1::"; "01.2.3.4"; "1:2:3:4:5:6:7:8:9"; "::ffff:10.0.0.1"]
  = [Some (IPv4 2130706433); Some (IPv6 1); Some (IPv6 524413980667603649783483183442952193);
     Some (IPv6 5192296858534827628530496329220096); None; None; Some (IPv6 281470849515521)].
Proof. vm_compute. reflexivity. Qed.
Example global_demo : is_global <$> [IPv4 (v4 8 8 8 8); IPv4 (v4 100 64 0 1); IPv4 (v4 172 31 255 1); IPv6 (v6 [0x2001; 0xdb8]);
   IPv6 (v6 [0x2606; 0x4700]); IPv4 (v4 192 0 0 9)] = [true; false; false; false; true; true].
Proof. vm_compute. reflexivity. Qed.
