(* ===== verification/Ssrf.v ===== *)
(** * Ssrf: webhooks reach public addresses only ([apps/actions/ssrf.py]) *)
From S2P Require Import Prelude PyStr Models PyData Url.

(** [socket.getaddrinfo]: [None] is [socket.gaierror]; otherwise the host and port of
    each answer. *)
Class Resolver := { getaddrinfo : string → Z → option (list (string * Z)) }.

(** An [SSRFError] is a [ValueError]; [UrlError] is any other [ValueError], of the
    Standard Library. *)
Inductive url_error := SSRFError (message : string) | UrlError.
#[export] Instance url_error_eq : EqDecision url_error.
Proof. solve_decision. Defined.

Record endpoint := ResolvedWebhookEndpoint {
  ep_original_url : string;
  ep_scheme : string;
  ep_connect_host : string;
  ep_port : Z;
  ep_host_header : string;
  ep_path : string }.

Definition NAT64 : Z * Z := (v6 [0x64; 0xff9b], 96).
Definition SIX2FOUR : Z * Z := (v6 [0x2002], 16).
Definition IPV4_COMPAT : Z * Z := (0, 96).
Definition IPV4_MAPPED : Z * Z := (Z.shiftl 65535 32, 96).

Definition embedded_ipv4 (n : Z) : option Z :=
  match ipv4_mapped n with
  | Some m => Some m
  | None =>
      if in_net 128 n NAT64 then Some (Z.land n 0xFFFFFFFF)
      else if in_net 128 n SIX2FOUR then Some (Z.land (Z.shiftr n 80) 0xFFFFFFFF)
      else if in_net 128 n IPV4_COMPAT && negb (in_net 128 n IPV4_MAPPED)
      then Some (Z.land n 0xFFFFFFFF)
      else None
  end.
Definition effective_ip (a : ip) : ip :=
  match a with
  | IPv6 n => from_option IPv4 a (embedded_ipv4 n)
  | IPv4 _ => a
  end.

(** [_validate_ip] accepts: it returns without an [SSRFError]. *)
Definition validate_ip (allow_private : bool) (a : ip) : bool :=
  allow_private || is_global (effective_ip a).
Definition blocked_hostname (allow_private : bool) (host : string) : bool :=
  (host in_ ["localhost"; "metadata.google.internal"]) && negb allow_private.

Definition private_address : url_error :=
  SSRFError "Webhook URL resolves to a private or non-public address.".
Definition could_not_resolve (hostname : string) : url_error :=
  SSRFError ("Could not resolve webhook hostname: " +:+ hostname).

Section resolve.
Context `{Resolver}.

(** The loop over the answers of the resolver: the first acceptable one. *)
Fixpoint first_public (allow_private : bool) (port : Z) (infos : list (string * Z)) :
  url_error + (string * Z) :=
match infos with
| [] => inl (SSRFError "Webhook hostname resolves only to private or non-public addresses.")
| (host, p) :: infos' =>
    match ip_address host with
    | None => inl UrlError
    | Some candidate =>
        if validate_ip allow_private candidate then inr (host, if p == 0 then port else p)
        else first_public allow_private port infos'
    end
end.

Definition connect_to (allow_private : bool) (hostname : string) (port : Z) :
  url_error + (string * Z) :=
match ip_address hostname with
| Some literal => if validate_ip allow_private literal then inr (hostname, port) else inl private_address
| None =>
    match getaddrinfo hostname port with
    | None => inl (could_not_resolve hostname)
    | Some [] => inl (could_not_resolve hostname)
    | Some infos => first_public allow_private port infos
    end
end.

Definition resolve_webhook_endpoint (url : string) (allow_private : bool) : url_error + endpoint :=
match urlparse (strip url) with
| None => inl UrlError
| Some parsed =>
    if negb (u_scheme parsed in_ ["http"; "https"])
    then inl (SSRFError "Webhook URL must use http or https.")
    else
      let hostname := lower (u_hostname parsed) in
      if negb (truthy hostname) then inl (SSRFError "Webhook URL must include a hostname.")
      else if blocked_hostname allow_private hostname
      then inl (SSRFError "Localhost webhook URLs are not allowed.")
      else
        match ip_address hostname, u_port parsed with
        | Some literal, None =>
            if validate_ip allow_private literal then inl UrlError else inl private_address
        | None, None => inl UrlError
        | _, Some parsed_port =>
            let port0 := default 0 parsed_port in
            let port := if port0 == 0 then if u_scheme parsed == "https" then 443 else 80
                        else port0 in
            match connect_to allow_private hostname port with
            | inl e => inl e
            | inr (connect_host, port') =>
                let path := str_or (u_path parsed) "/" in
                inr (ResolvedWebhookEndpoint (strip url) (u_scheme parsed) connect_host port'
                  (if negb (port0 in_ [0; 80; 443]) then hostname +:+ ":" +:+ str_int port0
                   else hostname)
                  (if truthy (u_query parsed) then path +:+ "?" +:+ u_query parsed else path))
            end
        end
end.

Definition validate_webhook_url (url : string) (allow_private : bool) : url_error + string :=
match resolve_webhook_endpoint url allow_private with
| inl e => inl e
| inr _ => inr (strip url)
end.
End resolve.

(** ** Networks as ranges *)
Lemma in_net_range bits n base len :
  len ≤ bits → (2 ^ (bits - len) | base) →
  in_net bits n (base, len) = true ↔ base ≤ n < base + 2 ^ (bits - len).
Proof.
  intros Hlen [q ->]. unfold in_net. cbn [fst snd]. set (k := bits - len).
  assert (Hk : 0 < 2 ^ k) by (apply Z.pow_pos_nonneg; lia).
  rewrite Z.eqb_eq, !Z.shiftr_div_pow2 by lia. rewrite Z.div_mul by lia.
  pose proof (Z.div_mod n (2 ^ k) ltac:(lia)). pose proof (Z.mod_pos_bound n (2 ^ k) Hk). split.
  - intros He. nia.
  - intros Hr. symmetry. apply (Z.div_unique n (2 ^ k) q (n - q * 2 ^ k)); lia.
Qed.

(** The internal IPv4 networks: this host, private (three blocks), shared, loopback,
    link-local, benchmarking, reserved; as first and last address. *)
Definition internal_v4 : list (Z * Z) :=
  [(v4 0 0 0 0, v4 0 255 255 255); (v4 10 0 0 0, v4 10 255 255 255);
   (v4 100 64 0 0, v4 100 127 255 255); (v4 127 0 0 0, v4 127 255 255 255);
   (v4 169 254 0 0, v4 169 254 255 255); (v4 172 16 0 0, v4 172 31 255 255);
   (v4 192 168 0 0, v4 192 168 255 255); (v4 198 18 0 0, v4 198 19 255 255);
   (v4 240 0 0 0, v4 255 255 255 255)].
(** The internal IPv6 networks: unspecified, loopback, unique local, link-local. *)
Definition internal_v6 : list (Z * Z) :=
  [(0, 0); (1, 1); (v6 [0xfc00], v6 [0xfe00] - 1); (v6 [0xfe80], v6 [0xfec0] - 1)].

Definition within (ranges : list (Z * Z)) (n : Z) : Prop := ∃ r, r ∈ ranges ∧ r.1 ≤ n ≤ r.2.
Definition internal (a : ip) : Prop :=
  match a with IPv4 n => within internal_v4 n | IPv6 n => within internal_v6 n end.

(** The network contains the range; the network and the range are disjoint. *)
Definition aligned (bits : Z) (net : Z * Z) : bool :=
  (net.2 <=? bits) && (net.1 mod 2 ^ (bits - net.2) =? 0).
Definition covers (bits : Z) (r net : Z * Z) : bool :=
  aligned bits net && (net.1 <=? r.1) && (r.2 <? net.1 + 2 ^ (bits - net.2)).
Definition avoids (bits : Z) (r net : Z * Z) : bool :=
  aligned bits net && ((r.2 <? net.1) || (net.1 + 2 ^ (bits - net.2) <=? r.1)).

Lemma aligned_spec bits net :
  aligned bits net = true → net.2 ≤ bits ∧ (2 ^ (bits - net.2) | net.1).
Proof.
  intros [Hl Hd]%andb_true_iff. apply Z.leb_le in Hl. apply Z.eqb_eq in Hd. split; [done|].
  apply Z.mod_divide; [|done]. pose proof (Z.pow_pos_nonneg 2 (bits - net.2)). lia.
Qed.
Lemma covers_in bits r net n : covers bits r net = true → r.1 ≤ n ≤ r.2 → in_net bits n net = true.
Proof.
  intros [[Ha H1%Z.leb_le]%andb_true_iff H2%Z.ltb_lt]%andb_true_iff Hn. destruct net as [b l].
  apply aligned_spec in Ha as [Hl Hd]. apply in_net_range; [done..|]. simpl in *. lia.
Qed.
Lemma avoids_out bits r net n : avoids bits r net = true → r.1 ≤ n ≤ r.2 → in_net bits n net = false.
Proof.
  intros [Ha Hr]%andb_true_iff Hn. destruct net as [b l].
  apply aligned_spec in Ha as [Hl Hd]. apply not_true_is_false. rewrite in_net_range by done.
  apply orb_true_iff in Hr. rewrite Z.ltb_lt, Z.leb_le in Hr. simpl in *. lia.
Qed.

(** Every range of [ranges] lies in a network of [nets] and outside [exceptions]. *)
Definition listed (bits : Z) (nets exceptions ranges : list (Z * Z)) : bool :=
  forallb (λ r, existsb (covers bits r) nets && forallb (avoids bits r) exceptions) ranges.
Lemma listed_within bits nets exceptions ranges n :
  listed bits nets exceptions ranges = true → within ranges n →
  existsb (in_net bits n) nets = true ∧ existsb (in_net bits n) exceptions = false.
Proof.
  unfold listed. rewrite forallb_forall. intros Hl (r & Hr & Hn).
  apply list_elem_of_In, Hl, andb_true_iff in Hr as [Hc Ha]. split.
  - apply existsb_exists in Hc as (net & Hin & Hc). apply existsb_exists. exists net.
    split; [done|]. by eapply covers_in.
  - apply not_true_is_false. intros (net & Hin & Ht)%existsb_exists.
    rewrite forallb_forall in Ha. apply Ha in Hin. by rewrite (avoids_out _ _ _ _ Hin Hn) in Ht.
Qed.

Lemma internal_v4_not_global n : within internal_v4 n → v4_is_global n = false.
Proof.
  intros Hn. destruct (listed_within 32 (V4_SHARED :: V4_PRIVATE) V4_EXCEPTIONS internal_v4 n)
    as [Hin Hout]; [by vm_compute|done|]. cbn [existsb] in Hin.
  unfold v4_is_global, v4_is_private. rewrite Hout.
  by destruct (in_net 32 n V4_SHARED), (existsb (in_net 32 n) V4_PRIVATE).
Qed.
Lemma internal_v6_not_global n : within internal_v6 n → ipv4_mapped n = None → is_global (IPv6 n) = false.
Proof.
  intros Hn Hm. destruct (listed_within 128 V6_PRIVATE V6_EXCEPTIONS internal_v6 n)
    as [Hin Hout]; [by vm_compute|done|].
  unfold is_global, v6_is_private. rewrite Hm, Hin, Hout. done.
Qed.
Lemma global_not_internal a :
  (∀ n, a = IPv6 n → ipv4_mapped n = None) → is_global a = true → ¬ internal a.
Proof.
  intros Hm Hg Hi. destruct a as [n|n].
  - pose proof (internal_v4_not_global n Hi). cbn [is_global] in Hg. congruence.
  - pose proof (internal_v6_not_global n Hi (Hm n eq_refl)). congruence.
Qed.
Lemma valid_not_internal a : validate_ip false a = true → ¬ internal (effective_ip a).
Proof.
  apply global_not_internal. intros n He. destruct a as [m|m]; [done|].
  cbn [effective_ip] in He. destruct (embedded_ipv4 m) as [k|] eqn:Hk; [done|].
  cbn [from_option] in He. injection He as ->. unfold embedded_ipv4 in Hk. by destruct (ipv4_mapped n).
Qed.

Section sound.
Context `{Resolver}.

Lemma first_public_sound port infos h p :
first_public false port infos = inr (h, p) →
∃ a, ip_address h = Some a ∧ validate_ip false a = true ∧ ∃ q, (h, q) ∈ infos.
Proof.
induction infos as [|[host q] infos IH]; cbn [first_public]; [done|].
destruct (ip_address host) as [a|] eqn:Ha; [|done].
destruct (validate_ip false a) eqn:Hv.
- intros Hr. injection Hr as <- <-. exists a. split_and!; [done..|]. exists q. by left.
- intros Hf. apply IH in Hf as (a' & Ha' & Hv' & q' & Hq). exists a'. split_and!; [done..|].
  exists q'. by right.
Qed.
Lemma connect_to_sound hostname port h p :
connect_to false hostname port = inr (h, p) →
∃ a, ip_address h = Some a ∧ validate_ip false a = true ∧
  (h = hostname ∨ ∃ infos q, getaddrinfo hostname port = Some infos ∧ (h, q) ∈ infos).
Proof.
unfold connect_to. destruct (ip_address hostname) as [a|] eqn:Ha.
- destruct (validate_ip false a) eqn:Hv; [|done]. intros Hr. injection Hr as <- <-. eauto.
- destruct (getaddrinfo hostname port) as [infos|] eqn:Hg; [|done].
  destruct infos as [|i infos]; [done|]. intros Hf.
  apply first_public_sound in Hf as (a & ? & ? & q & ?). exists a. split_and!; [done..|].
  right. by exists (i :: infos), q.
Qed.
Lemma resolve_connects url allow ep :
resolve_webhook_endpoint url allow = inr ep →
∃ parsed port port', urlparse (strip url) = Some parsed ∧ ep_scheme ep = u_scheme parsed ∧
  u_scheme parsed ∈ ["http"; "https"] ∧ blocked_hostname allow (lower (u_hostname parsed)) = false ∧
  connect_to allow (lower (u_hostname parsed)) port = inr (ep_connect_host ep, port').
Proof.
unfold resolve_webhook_endpoint. destruct (urlparse (strip url)) as [parsed|] eqn:Hp; [|done].
case_bool_decide as Hs; simpl; [|done]. destruct (negb (truthy _)); [done|].
destruct (blocked_hostname _ _) eqn:Hb; [done|].
destruct (u_port parsed) as [pp|]; [|by destruct (ip_address _) as [a|]; [destruct (validate_ip _ a)|]].
intros Hr. exists parsed. set (port := if default 0 pp == 0 then _ else _) in *.
exists port. destruct (connect_to allow (lower (u_hostname parsed)) port) as [|[h p]] eqn:Hc.
- by destruct (ip_address _).
- exists p. destruct (ip_address (lower (u_hostname parsed))); injection Hr as <-; done.
Qed.

(** A webhook that may not use private URLs never connects inside.  Whatever the URL
    and whatever the resolver answers, the address [resolve_webhook_endpoint] connects
    to is an IP address, that of the URL or one of the answers, and it is not internal,
    also not as an IPv4 address mapped, translated (NAT64) or embedded (6to4 or
    compatible) into IPv6; the scheme is http or https and the host is not localhost. *)
Lemma resolve_never_internal url ep :
resolve_webhook_endpoint url false = inr ep →
∃ a hostname, ip_address (ep_connect_host ep) = Some a ∧ ¬ internal (effective_ip a) ∧
  ep_scheme ep ∈ ["http"; "https"] ∧
  hostname ≠ "localhost" ∧ hostname ≠ "metadata.google.internal" ∧
  (ep_connect_host ep = hostname ∨
   ∃ port infos q, getaddrinfo hostname port = Some infos ∧ (ep_connect_host ep, q) ∈ infos).
Proof.
intros Hr. apply resolve_connects in Hr as (parsed & port & port' & _ & Hs & Hin & Hb & Hc).
apply connect_to_sound in Hc as (a & Ha & Hv & Hfrom).
exists a, (lower (u_hostname parsed)). rewrite Hs.
split_and!; [done|by apply valid_not_internal|done| | |].
- intros He. by rewrite He in Hb.
- intros He. by rewrite He in Hb.
- destruct Hfrom as [?|(infos & q & ? & ?)]; [by left|right; by exists port, infos, q].
Qed.
Lemma resolve_never_internal' url ep :
resolve_webhook_endpoint url false = inr ep →
∃ a, ip_address (ep_connect_host ep) = Some a ∧ ¬ internal (effective_ip a).
Proof. intros (a & _ & ? & ? & _)%resolve_never_internal. by exists a. Qed.
End sound.

(** A resolver that gives a private and a public answer for every name. *)
Definition demo_resolver : Resolver :=
  {| getaddrinfo host port := Some [("10.0.0.8", port); ("93.184.216.34", port)] |}.

Lemma resolve_never_internal_witness :
  ∃ ep, resolve_webhook_endpoint (H := demo_resolver) "https://hooks.example/in?x=1" false = inr ep ∧
    ep_connect_host ep = "93.184.216.34" ∧
    ∃ a, ip_address (ep_connect_host ep) = Some a ∧ ¬ internal (effective_ip a).
Proof.
  eexists. split; [vm_compute; reflexivity|]. split; [reflexivity|].
  destruct (resolve_never_internal (H := demo_resolver) "https://hooks.example/in?x=1" _ eq_refl)
    as (a & h & Ha & Hi & _).
  exists a. split; [exact Ha|exact Hi].
Defined.

(** Refused, whatever the resolver says. *)
Example disguised_addresses_refused `{Resolver} :
  (λ u, match resolve_webhook_endpoint u false with inl (SSRFError _) => true | _ => false end) <$>
    ["http://127.0.0.1/"; "http://[::ffff:169.254.169.254]/"; "http://[64:ff9b::a00:1]/";
     "http://[2002:7f00:1::]/"; "http://[::1]/"; "http://LOCALHOST:80/"; "ftp://8.8.8.8/"]
  = replicate 7 true.
Proof. vm_compute. reflexivity. Qed.
(** The deprecated site-local network of IPv6 passes the check. *)
Example site_local_accepted `{Resolver} :
  ep_connect_host <$> (match resolve_webhook_endpoint "http://[fec0::1]/" false with inr ep => Some ep | _ => None end)
  = Some "fec0::1".
Proof. vm_compute. reflexivity. Qed.
(** The parameters of the last segment are not sent. *)
Example path_parameters_dropped `{Resolver} :
  ep_path <$> (match resolve_webhook_endpoint "http://8.8.8.8/hook;key=1?x" false with inr ep => Some ep | _ => None end)
  = Some "/hook?x".
Proof. vm_compute. reflexivity. Qed.
