(* ===== verification/Wire.v ===== *)
(** * Wire: bytes and texts on the network

    [json.dumps], UTF-8 and Base64 as the code uses them. *)
From S2P Require Import Prelude PyStr Models PyData.

(** ** Bytes *)
Definition byte_val (b : Byte.byte) : Z := Z.of_N (Byte.to_N b).
Definition byte_of (z : Z) : Byte.byte := default Byte.x00 (Byte.of_N (Z.to_N z)).

Lemma byte_val_range b : 0 ≤ byte_val b < 256.
Proof. unfold byte_val. pose proof (Byte.to_N_bounded b). lia. Qed.
Lemma byte_of_val b : byte_of (byte_val b) = b.
Proof. unfold byte_of, byte_val. by rewrite N2Z.id, Byte.of_to_N. Qed.

(** [s.encode('utf-8')] for characters below U+0100 *)
Fixpoint utf8_encode (s : string) : bytes :=
  match s with
  | "" => []
  | String c s' =>
      let k := Z.of_N (N_of_ascii c) in
      (if k <? 128 then [byte_of k] else [byte_of (192 + k / 64); byte_of (128 + k mod 64)])
      ++ utf8_encode s'
  end.

(** ** [json.dumps(v, separators=(',', ':'), sort_keys=True, ensure_ascii=False)] *)
Definition json_char (c : ascii) : string :=
  let k := Z.of_N (N_of_ascii c) in
  if c == dquote then String "\" (String dquote EmptyString)
  else if c == "\"%char then "\\"
  else if k =? 8 then "\b" else if k =? 9 then "\t" else if k =? 10 then "\n"
  else if k =? 12 then "\f" else if k =? 13 then "\r"
  else if k <? 32 then "\u00" +:+ hex_digit (k / 16) +:+ hex_digit (k mod 16)
  else String c EmptyString.
Definition json_string (s : string) : string :=
  quoted (String.concat "" (json_char <$> String.list_ascii_of_string s)).
Fixpoint json_dumps (v : json) : string :=
  match v with
  | JNull => "null"
  | JBool b => if b then "true" else "false"
  | JInt z => str_int z
  | JStr s => json_string s
  | JList l => "[" +:+ String.concat "," (map json_dumps l) +:+ "]"
  | JObj l =>
      "{" +:+ String.concat ","
        (map (λ kv, json_string kv.1 +:+ ":" +:+ kv.2)
           (sort_by (λ a b, str_le a.1 b.1) (map (λ kv, (kv.1, json_dumps kv.2)) l))) +:+ "}"
  end.

(** ** Base64 *)
Definition B64 : string := "ABCDEFGHIJKLMNOPQRSTUVWXYZabcdefghijklmnopqrstuvwxyz0123456789+/".
Definition b64_char (v : Z) : ascii := default "="%char (String.get (Z.to_nat v) B64).
Fixpoint index_from (n : Z) (a : ascii) (s : string) : option Z :=
  match s with
  | "" => None
  | String c s' => if c == a then Some n else index_from (n + 1) a s'
  end.
Definition b64_val (c : ascii) : option Z := index_from 0 c B64.

Fixpoint b64encode (l : bytes) : string :=
  match l with
  | [] => ""
  | [a] =>
      let x := byte_val a in
      String (b64_char (x / 4)) (String (b64_char (x mod 4 * 16)) "==")
  | [a; b] =>
      let x := byte_val a in let y := byte_val b in
      String (b64_char (x / 4)) (String (b64_char (x mod 4 * 16 + y / 16))
        (String (b64_char (y mod 16 * 4)) "="))
  | a :: b :: c :: l' =>
      let x := byte_val a in let y := byte_val b in let z := byte_val c in
      String (b64_char (x / 4)) (String (b64_char (x mod 4 * 16 + y / 16))
        (String (b64_char (y mod 16 * 4 + z / 64)) (String (b64_char (z mod 64)) (b64encode l'))))
  end.
(** [base64.b64decode(s, validate=True)]: groups of four, with padding in the last group
    only; [None] is a [ValueError]. *)
Fixpoint b64decode (s : string) : option bytes :=
  match s with
  | "" => Some []
  | String c1 (String c2 (String c3 (String c4 s'))) =>
      match b64_val c1, b64_val c2 with
      | Some p, Some q =>
          let x := byte_of (p * 4 + q / 16) in
          if c3 == "="%char then
            if (c4 == "="%char) && (s' == "") then Some [x] else None
          else
            match b64_val c3 with
            | None => None
            | Some r =>
                let y := byte_of (q mod 16 * 16 + r / 4) in
                if c4 == "="%char then if s' == "" then Some [x; y] else None
                else
                  match b64_val c4, b64decode s' with
                  | Some t, Some l => Some (x :: y :: byte_of (r mod 4 * 64 + t) :: l)
                  | _, _ => None
                  end
            end
      | _, _ => None
      end
  | _ => None
  end.

Example b64_demo : b64encode (utf8_encode "light w") = "bGlnaHQgdw==".
Proof. vm_compute. reflexivity. Qed.
Example b64_bad : b64decode <$> ["QQ=="; "QQ="; "QQ==QQ=="; "Q==="; "QU-="]
  = [Some [Byte.x41]; None; None; None; None].
Proof. vm_compute. reflexivity. Qed.
Example json_demo :
  json_dumps (JObj [("b", JList [JInt 1; JNull; JBool true]); ("a", JStr "x/y")]) =
  "{" +:+ quoted "a" +:+ ":" +:+ quoted "x/y" +:+ "," +:+ quoted "b" +:+ ":[1,null,true]}".
Proof. vm_compute. reflexivity. Qed.

Lemma b64_digit v : 0 ≤ v < 64 → b64_val (b64_char v) = Some v ∧ b64_char v ≠ "="%char ∧
  is_space (b64_char v) = false.
Proof.
  intros Hv. rewrite <- (Z2Nat.id v) by lia.
  assert (Hall : forallb (λ n, bool_decide (b64_val (b64_char (Z.of_nat n)) = Some (Z.of_nat n)) &&
            negb (bool_decide (b64_char (Z.of_nat n) = "="%char)) &&
            negb (is_space (b64_char (Z.of_nat n)))) (seq 0 64) = true) by (by vm_compute).
  rewrite forallb_forall in Hall. specialize (Hall (Z.to_nat v)).
  rewrite in_seq in Hall. specialize (Hall ltac:(lia)).
  apply andb_true_iff in Hall as [[H1 H2]%andb_true_iff H3].
  apply bool_decide_eq_true in H1. apply negb_true_iff, bool_decide_eq_false in H2.
  by apply negb_true_iff in H3.
Qed.

(** Induction three bytes at a time. *)
Lemma bytes_ind3 (P : bytes → Prop) :
  P [] → (∀ a, P [a]) → (∀ a b, P [a; b]) → (∀ a b c l, P l → P (a :: b :: c :: l)) → ∀ l, P l.
Proof.
  intros H0 H1 H2 H3. fix IH 1. intros [|a [|b [|c l]]]; [done|done|done|]. apply H3, IH.
Qed.

Ltac b64_digits :=
  repeat match goal with
  | |- context [b64_val (b64_char ?v)] =>
      let H := fresh in
      assert (H : 0 ≤ v < 64) by (Z.to_euclidean_division_equations; lia);
      rewrite (proj1 (b64_digit v H)), ?(bool_decide_false _ (proj1 (proj2 (b64_digit v H))))
  end.
Lemma byte_of_eq z b : z = byte_val b → byte_of z = b.
Proof. intros ->. apply byte_of_val. Qed.

Ltac byte_arith := apply byte_of_eq; Z.to_euclidean_division_equations; lia.
Lemma b64_roundtrip l : b64decode (b64encode l) = Some l.
Proof.
  induction l as [|a|a b|a b c l IH] using bytes_ind3; [done| | |].
  - pose proof (byte_val_range a). cbn [b64encode b64decode]. b64_digits. simpl. do 2 f_equal. byte_arith.
  - pose proof (byte_val_range a). pose proof (byte_val_range b). cbn [b64encode b64decode].
    b64_digits. rewrite !bool_decide_true by done. do 3 f_equal; [|f_equal]; byte_arith.
  - pose proof (byte_val_range a). pose proof (byte_val_range b). pose proof (byte_val_range c).
    cbn [b64encode b64decode]. b64_digits. rewrite IH.
    do 2 f_equal; [|f_equal; [|f_equal]]; byte_arith.
Qed.
