(* ===== verification/Webhook.v ===== *)
(** * Webhook: one HTTP delivery

    [apps/actions/webhook_signing.py], [webhook_retry.py], [webhook_transport.py],
    [handlers/webhook.py] and the delivering half of [email_service.py].  What the
    network answers is an argument of each delivery. *)
From S2P Require Import Prelude PyStr Models PyData Quotas Backends Redact Registry Events.
From S2P Require Import Url Ssrf Wire.

(** ** [webhook_signing.py] *)
(** HMAC-SHA256 of the Standard Library. *)
Class Hmac := { hmac_sha256 : bytes → bytes → bytes }.

Definition WHSEC : string := "whsec_".
(** With the 32 random bytes of [secrets.token_bytes] as argument. *)
Definition generate_webhook_signing_secret (raw : bytes) : string := WHSEC +:+ b64encode raw.

(** [None] is a [ValueError]. *)
Definition normalize_webhook_signing_secret (secret : string) : option bytes :=
  let secret := strip secret in
  if startswith WHSEC secret then
    let payload := strip (str_drop (String.length WHSEC) secret) in
    if negb (truthy payload) then None
    else match b64decode payload with
         | None | Some [] => None
         | Some key => Some key
         end
  else Some (utf8_encode secret).

Definition encode_webhook_envelope (envelope : list (string * json)) : bytes :=
  utf8_encode (json_dumps (JObj envelope)).

Definition sign_webhook_body `{Hmac} (secret : string) (body : bytes) (webhook_id : string)
  (t : datetime) : option (list (string * string)) :=
  match normalize_webhook_signing_secret secret with
  | None => None
  | Some key =>
      let ts := str_int (t / 1000000) in
      let signed_content := utf8_encode (webhook_id +:+ "." +:+ ts +:+ ".") ++ body in
      Some [("webhook-id", webhook_id); ("webhook-timestamp", ts);
            ("webhook-signature", "v1," +:+ b64encode (hmac_sha256 key signed_content))]
  end.

(** ** [webhook_retry.py] *)
Definition PERMANENT_HTTP_STATUSES : list Z := [400; 401; 403; 405; 410; 413; 422].
Definition RETRYABLE_HTTP_STATUSES : list Z := [404; 408; 409; 425; 429].
Definition MAX_BACKOFF_SECONDS : Z := 3600.

Definition is_permanent_http_status (status : option Z) : bool :=
  match status with
  | None => false
  | Some status =>
      if status in_ PERMANENT_HTTP_STATUSES then true
      else if status in_ RETRYABLE_HTTP_STATUSES then false
      else if (500 <=? status) && (status <? 600) then false
      else if (400 <=? status) && (status <? 500) then false
      else false
  end.

(** [email.utils.parsedate_to_datetime]: [None] when it raises. *)
Class HttpDate := { parsedate_to_datetime : string → option datetime }.
(** [json.loads] of the Standard Library: [None] is a [ValueError]. *)
Class JsonLoads := { json_loads : string → option json }.
(** [str.isdigit] on characters below U+0100: it also accepts superscripts. *)
Definition py_digit (c : ascii) : bool :=
  is_digit c || (Ascii.nat_of_ascii c =? 178)%nat || (Ascii.nat_of_ascii c =? 179)%nat
  || (Ascii.nat_of_ascii c =? 185)%nat.

(** [None] is the [ValueError] of [int]. *)
Definition parse_retry_after_header `{HttpDate} (value : option string) (t : datetime) :
  option (option Z) :=
  match value with
  | None => Some None
  | Some value =>
      let raw := strip value in
      if negb (truthy raw) then Some None
      else if str_forall py_digit raw then
        match py_int_str 10 raw with
        | None => None
        | Some seconds => Some (if 0 <=? seconds then Some (Z.max 0 seconds) else None)
        end
      else Some ((λ target, Z.max 0 (Z.quot (target - t) 1000000)) <$> parsedate_to_datetime raw)
  end.

Definition compute_retry_delay_seconds (attempt_number : Z) (http_status retry_after_seconds : option Z)
  (base_backoff_seconds : Z) : Z :=
  let delay :=
    match http_status, retry_after_seconds with
    | Some st, Some ra => if st in_ [429; 503] then Z.max base_backoff_seconds ra
                          else base_backoff_seconds
    | _, _ => base_backoff_seconds
    end in
  Z.min MAX_BACKOFF_SECONDS (Z.max 1 delay).

(** ** [webhook_transport.py] *)
Definition RESPONSE_EXCERPT_MAX : nat := 512.

(** What the network does with a request: a response (status, the bytes read of its
    body, its Retry-After header), an [OSError], or another exception ([http.client]
    raises some). *)
Inductive reply :=
| Response (status : Z) (raw : bytes) (retry_after : option string)
| ReplyOSError (text : string)
| ReplyError (text : string).

Record http_request := HttpRequest {
  rq_endpoint : endpoint; rq_body : bytes; rq_headers : list (string * string) }.
Definition network := http_request → reply.

Record post_result := WebhookPostResult {
  pr_status : Z; pr_excerpt : string; pr_retry_after_seconds : option Z }.
(** Exceptions of a post: [WebhookHTTPError] (raised for a refused URL only, without a
    status), [OSError], or any other. *)
Inductive post_error :=
| WebhookHTTPError (text : string) (permanent : bool)
| PostOSError (text : string)
| PostOther (text : string).

(** The host for TLS: the [Host] value without its port. *)
Definition tls_server_name (ep : endpoint) : string :=
  let h := ep_host_header ep in
  match h with
  | String "[" rest => match split_once "]" rest with Some (name, _) => name | None => h end
  | _ => if has_char ":" h && truthy (after_last ":" h) && str_forall py_digit (after_last ":" h)
         then before_last ":" h else h
  end.

Section deliver.
Context `{ActionSettings, Utf8, Resolver, Hmac, HttpDate, JsonLoads}.
(** The text of the exceptions the Standard Library raises in here. *)
Context (value_error : string).

(** A cut excerpt ends in an ellipsis, written here with three dots. *)
Definition read_response_excerpt (raw : bytes) : string :=
match raw with
| [] => ""
| _ =>
    let text := utf8_text (take RESPONSE_EXCERPT_MAX raw) in
    strip (if (RESPONSE_EXCERPT_MAX <? length raw)%nat then text +:+ "..." else text)
end.

Definition post_resolved_webhook (net : network) (ep : endpoint) (body : bytes)
  (headers : list (string * string)) (t : datetime) : post_error + post_result :=
match net (HttpRequest ep body (dict_set "Host" (ep_host_header ep) headers)) with
| ReplyOSError text => inl (PostOSError text)
| ReplyError text => inl (PostOther text)
| Response status raw retry_raw =>
    match parse_retry_after_header retry_raw t with
    | None => inl (PostOther value_error)
    | Some retry_after =>
        inr (WebhookPostResult status (read_response_excerpt raw) retry_after)
    end
end.

Definition post_webhook_url (net : network) (url : string) (body : bytes)
  (headers : list (string * string)) (allow_private : bool) (t : datetime) :
  post_error + post_result :=
match resolve_webhook_endpoint url allow_private with
| inl (SSRFError text) => inl (WebhookHTTPError text true)
| inl UrlError => inl (PostOther value_error)
| inr ep => post_resolved_webhook net ep body headers t
end.

(** ** [handlers/webhook.py] *)
Record webhook_delivery_error := WebhookDeliveryError {
we_text : string; we_http_status : option Z; we_response_excerpt : string;
we_permanent : bool; we_retry_after_seconds : option Z }.

Definition config_text (key : string) (config : list (string * json)) : exn + string :=
match dict_get key config with
| Some v => if json_truthy v then match v with JStr s => inr (strip s) | _ => inl AttributeError end
            else inr ""
| None => inr ""
end.
Definition allow_private_webhook_urls (config : list (string * json)) : bool :=
ACTIONS_WEBHOOK_ALLOW_PRIVATE || json_truthy (opt_json (dict_get "allow_private_urls" config)).

(** [inl None] is an exception that is not a [WebhookDeliveryError]. *)
Definition deliver_webhook_action (net : network) (config envelope : list (string * json))
  (attempt_number : Z) (request_id : string) (t : datetime) :
  (webhook_delivery_error + string) + unit :=
let failure text := inl (inl (WebhookDeliveryError text None "" true None)) in
match config_text "url" config, config_text "secret" config with
| inl _, _ => inl (inr value_error)
| inr "", _ => failure "Webhook URL is not configured."
| inr _, inl _ => inl (inr value_error)
| inr _, inr "" => failure "Webhook signing secret is not configured."
| inr url, inr secret =>
    let id := opt_json (dict_get "id" envelope) in
    if negb (json_truthy id) then failure "Envelope id is required for webhook delivery."
    else
      let body := encode_webhook_envelope envelope in
      match sign_webhook_body secret body (py_str id) t, config_text "authorization_header" config with
      | None, _ => inl (inr value_error)
      | _, inl _ => inl (inr value_error)
      | Some signature, inr auth_header =>
          let headers :=
            [("Content-Type", "application/json; charset=utf-8");
             ("User-Agent", "shellui-storage-actions/1.0");
             ("X-Shellui-Event", data_text "type" "" envelope);
             ("X-Shellui-Delivery-Attempt", str_int (Z.max 1 attempt_number))] ++ signature ++
            (if truthy request_id && (request_id != "-") then [("X-Request-ID", request_id)] else []) ++
            (if truthy auth_header then [("Authorization", auth_header)] else []) in
          match post_webhook_url net url body headers (allow_private_webhook_urls config) t with
          | inl (WebhookHTTPError text permanent) =>
              inl (inl (WebhookDeliveryError text None "" (permanent || is_permanent_http_status None) None))
          | inl (PostOSError text) => inl (inl (WebhookDeliveryError text None "" false None))
          | inl (PostOther text) => inl (inr text)
          | inr result =>
              if 400 <=? pr_status result
              then inl (inl (WebhookDeliveryError
                     ("Webhook returned HTTP " +:+ str_int (pr_status result))
                     (Some (pr_status result)) (pr_excerpt result)
                     (is_permanent_http_status (Some (pr_status result)))
                     (pr_retry_after_seconds result)))
              else inr tt
          end
      end
end.

(** ** [email_service.py], the delivery *)
Record attempt_meta := AttemptMeta {
am_http_status : option Z; am_response_excerpt : string; am_error_message : string;
am_permanent : bool; am_retry_after_seconds : option Z; am_duration_ms : option Z }.

Definition email_failure_is_permanent (status : option Z) : bool :=
match status with
| Some st => if (200 <=? st) && (st <? 300) then false else is_permanent_http_status status
| None => is_permanent_http_status None
end.
Definition failure_message (status : option Z) (error_code detail : string) : string :=
match status with
| None => "Email event request failed" +:+
          (if truthy detail then " (" +:+ detail +:+ ")" else "") +:+ "."
| Some st =>
    "Email event was not accepted (HTTP " +:+ str_int st +:+
    (if truthy error_code then ", " +:+ error_code else "") +:+ ")."
end.
Definition email_service_error_message (text : string) : string :=
let message := redact_email_service_secret text in
if startswith "Webhook URL" message
then "Email service URL" +:+ str_drop (String.length "Webhook URL") message else message.
(** [_attempt_meta], with the time the clock measured *)
Definition email_attempt_meta (duration_ms : Z) (http_status : option Z) (error_message : string) (permanent : bool)
  (retry_after_seconds : option Z) : attempt_meta :=
AttemptMeta http_status "" (redact_email_service_secret error_message) permanent
  retry_after_seconds (Some duration_ms).
Definition waits (status : option Z) : bool :=
match status with Some st => st in_ [429; 503] | None => false end.

(** [_error_code_from_excerpt] *)
Definition error_code_from_excerpt (excerpt : string) : string :=
match json_loads excerpt with Some (JObj l) => data_text "error_code" "" l | _ => "" end.

(** The success flag and the details of an attempt; [inl] is an exception that
  [deliver_email_event] lets through. *)
Definition deliver_email_event (net : network) (body : list (string * json)) (request_id : string)
  (t : datetime) (duration_ms : Z) : string + (bool * attempt_meta) :=
let email_attempt_meta := email_attempt_meta duration_ms in
if negb (startswith "esk_" email_service_api_key)
then inr (false, email_attempt_meta None "Email service is not configured." true None)
else
  let headers :=
    [("Authorization", "Bearer " +:+ email_service_api_key);
     ("Content-Type", "application/json; charset=utf-8"); ("Accept", "application/json");
     ("User-Agent", "shellui-storage-service/1.0")] ++
    (if truthy request_id && (request_id != "-") then [("X-Request-ID", request_id)] else []) in
  match post_webhook_url net email_events_url (encode_webhook_envelope body) headers
          EMAIL_SERVICE_ALLOW_PRIVATE t with
  | inl (WebhookHTTPError text permanent) =>
      inr (false, email_attempt_meta None (email_service_error_message text)
                    (permanent || email_failure_is_permanent None) None)
  | inl (PostOSError text) =>
      inr (false, email_attempt_meta None
                    (failure_message None "" (redact_email_service_secret text)) false None)
  | inl (PostOther text) => inl text
  | inr result =>
      let status := pr_status result in
      if (200 <=? status) && (status <? 300)
      then inr (true, email_attempt_meta (Some status) "" false None)
      else
        inr (false, email_attempt_meta (Some status)
                      (failure_message (Some status) (error_code_from_excerpt (pr_excerpt result)) "")
                      (email_failure_is_permanent (Some status))
                      (if waits (Some status) then pr_retry_after_seconds result else None))
  end.
End deliver.

(** ** Signing secrets *)
Definition no_space (s : string) : bool := str_forall (λ c, negb (is_space c)) s.
Lemma str_forall_ends p s c :
  str_forall p s = true → head_char s = Some c ∨ last_char s = Some c → p c = true.
Proof.
  induction s as [|a s IH]; [by intros _ [?|?]|]. cbn [str_forall].
  intros [Ha Hs]%andb_true_iff [Hc|Hc].
  - by injection Hc as <-.
  - destruct s as [|b s]; [by injection Hc as <-|]. apply IH; [done|]. by right.
Qed.
Lemma strip_no_space s : no_space s = true → strip s = s.
Proof.
  intros Hs. apply strip_while_id; intros a Ha; apply negb_true_iff;
    apply (str_forall_ends (λ c, negb (is_space c)) s); auto.
Qed.
Lemma b64encode_no_space l : no_space (b64encode l) = true.
Proof.
  assert (Hd : ∀ v, 0 ≤ v < 64 → negb (is_space (b64_char v)) = true).
  { intros v Hv. apply negb_true_iff. by apply b64_digit. }
  induction l as [|a|a b|a b c l IH] using bytes_ind3; [done| | |];
    pose proof (byte_val_range a); try pose proof (byte_val_range b);
    try pose proof (byte_val_range c); unfold no_space in *; cbn [b64encode str_forall];
    rewrite ?Hd by (Z.to_euclidean_division_equations; lia); [done..|exact IH].
Qed.

(** A generated signing secret gives its key back.  The secret [whsec_<base64>] made
    from random bytes normalises to exactly these bytes, so that signer and receiver use
    the same key; and any other secret stands for the UTF-8 of its text. *)
Theorem signing_secret_roundtrip :
  (∀ raw, raw ≠ [] →
     normalize_webhook_signing_secret (generate_webhook_signing_secret raw) = Some raw) ∧
  (∀ raw raw', generate_webhook_signing_secret raw = generate_webhook_signing_secret raw' → raw = raw') ∧
  (∀ secret, startswith WHSEC (strip secret) = false →
     normalize_webhook_signing_secret secret = Some (utf8_encode (strip secret))).
Proof.
  split_and!.
  - intros raw Hraw. unfold normalize_webhook_signing_secret, generate_webhook_signing_secret.
    pose proof (b64encode_no_space raw) as Hns.
    rewrite strip_no_space by (unfold no_space; rewrite str_forall_app; by apply andb_true_iff).
    rewrite startswith_app, str_drop_app, strip_no_space, b64_roundtrip by done.
    unfold truthy. case_bool_decide as He; simpl; [|by destruct raw].
    pose proof (b64_roundtrip raw) as Hrt. rewrite He in Hrt. by injection Hrt as <-.
  - intros raw raw' He. apply str_app_inv_head in He.
    pose proof (b64_roundtrip raw) as H1. rewrite He, b64_roundtrip in H1. by injection H1.
  - intros secret Hs. unfold normalize_webhook_signing_secret. by rewrite Hs.
Qed.

(** ** The network is reached at public addresses only *)
Definition public_endpoint (ep : endpoint) : Prop :=
  ∃ a, ip_address (ep_connect_host ep) = Some a ∧ ¬ internal (effective_ip a).
(** Two networks that answer alike outside. *)
Definition same_outside (net net' : network) : Prop :=
  ∀ rq, public_endpoint (rq_endpoint rq) → net rq = net' rq.

Section guard.
Context `{ActionSettings, Utf8, Resolver, Hmac, HttpDate, JsonLoads} (err : string).

Lemma post_same_outside net net' url body headers t :
same_outside net net' →
post_webhook_url err net url body headers false t = post_webhook_url err net' url body headers false t.
Proof.
intros Hnet. unfold post_webhook_url.
destruct (resolve_webhook_endpoint url false) as [[]|ep] eqn:Hr; [done..|].
apply resolve_never_internal' in Hr.
unfold post_resolved_webhook. by rewrite Hnet.
Qed.

(** C34: No delivery talks to an internal address.  Unless the rule or the settings allow
    private URLs, what a webhook delivery does is decided by the public part of the
    network alone: two networks that differ only at internal addresses (or at hosts
    that are no addresses) give the same result, so nothing is sent there.  The same
    holds for the events posted to the e-mail service. *)
Theorem deliveries_stay_outside net net' :
same_outside net net' →
(∀ config envelope n request_id t, allow_private_webhook_urls config = false →
   deliver_webhook_action err net config envelope n request_id t =
   deliver_webhook_action err net' config envelope n request_id t) ∧
(∀ body request_id t ms, EMAIL_SERVICE_ALLOW_PRIVATE = false →
   deliver_email_event err net body request_id t ms =
   deliver_email_event err net' body request_id t ms).
Proof.
intros Hnet. split.
- intros config envelope n request_id t Hp. unfold deliver_webhook_action. rewrite Hp.
  destruct (config_text "url" config) as [|url], (config_text "secret" config) as [|secret]; try done.
  destruct (sign_webhook_body _ _ _ _), (config_text "authorization_header" config); try done.
  by rewrite (post_same_outside net net').
- intros body request_id t ms Hp. unfold deliver_email_event. rewrite Hp.
  by rewrite (post_same_outside net net').
Qed.
End guard.

(** ** Concrete runs *)
Module WebhookDemo.
#[export] Instance utf8 : Utf8 := {| utf8_text _ := "" |}.
#[export] Instance hmac : Hmac := {| hmac_sha256 k m := k |}.
#[export] Instance dates : HttpDate := {| parsedate_to_datetime _ := None |}.
#[export] Instance loads : JsonLoads := {| json_loads _ := None |}.
#[export] Instance resolver : Resolver := demo_resolver.
#[export] Instance settings : ActionSettings := demo_actions.
Definition config : list (string * json) :=
  [("url", JStr "https://hooks.example/in"); ("secret", JStr "s3cret")].
Definition envelope : list (string * json) :=
  [("id", JStr "e1"); ("type", JStr "storage.object.uploaded")].
Definition answering (status : Z) (retry_after : option string) : network :=
  λ _, Response status [] retry_after.
(** Answers on the local host, and refuses everywhere else. *)
Definition leaky : network :=
  λ rq, if ep_connect_host (rq_endpoint rq) == "127.0.0.1" then Response 200 [] None
        else ReplyOSError "refused".
Definition refusing : network := λ _, ReplyOSError "refused".
Lemma leaky_outside : same_outside leaky refusing.
Proof.
  intros rq (a & Ha & Hi). unfold leaky. case_bool_decide as He; [|done].
  exfalso. rewrite He in Ha.
  assert (a = IPv4 (v4 127 0 0 1)) as -> by (vm_compute in Ha; vm_compute; congruence).
  apply Hi. exists (v4 127 0 0 0, v4 127 255 255 255).
  split; [do 3 right; by left|vm_compute; split; discriminate].
Qed.
End WebhookDemo.
Import WebhookDemo.

Lemma deliveries_stay_outside_witness :
  deliver_webhook_action "" leaky config envelope 1 "-" 0 =
  deliver_webhook_action "" refusing config envelope 1 "-" 0 ∧
  deliver_email_event "" leaky [] "-" 0 5 = deliver_email_event "" refusing [] "-" 0 5.
Proof.
  destruct (deliveries_stay_outside "" leaky refusing leaky_outside) as [H1 H2].
  split; [apply H1|apply H2]; reflexivity.
Defined.

(** A redirect is not followed, and counts as a delivery. *)
Example redirect_is_delivered :
  deliver_webhook_action "" (answering 302 None) config envelope 1 "-" 0 = inr tt.
Proof. vm_compute. reflexivity. Qed.
(** A Retry-After of superscript digits raises in the middle of an e-mail delivery. *)
Example superscript_retry_after :
  deliver_email_event "ValueError" (answering 503 (Some (String "178" ""))) [] "-" 0 5 = inl "ValueError".
Proof. vm_compute. reflexivity. Qed.
(** The TLS name of an IPv6 address loses its last group. *)
Example tls_name_of_ipv6 :
  match resolve_webhook_endpoint "https://[2606:4700::1111]/in" false with
  | inr ep => tls_server_name ep | inl _ => "" end = "2606:4700:".
Proof. vm_compute. reflexivity. Qed.
