(* ===== verification/Delivery.v ===== *)
(** * Delivery: the outbox ([apps/actions/delivery.py])

    A delivery has two database transactions around one HTTP request: [begin_delivery]
    reads the row under its lock and takes a snapshot of its attempt count; the request
    runs outside any transaction; [finish_delivery] locks the row again and records the
    attempt, unless the count has moved on.  [deliver_outbox_row] is their sequence.  A
    step relation runs any number of them, and everything else that touches the outbox,
    interleaved. *)
From S2P Require Import Prelude PyStr Models PyData Quotas Backends Redact Registry Events.
From S2P Require Import Url Ssrf Wire Webhook.

Section settings.
Context `{ActionSettings}.

Definition max_attempts : Z := ACTIONS_OUTBOX_MAX_ATTEMPTS.
Definition backoff_seconds (attempt_number : Z) : Z :=
Z.min 3600 (30 * 2 ^ Z.max 0 (attempt_number - 1)).
Definition lease_seconds : Z := ACTIONS_WEBHOOK_RETRY_LEASE_SECONDS.
(** [timedelta(seconds=n)] *)
Definition seconds (n : Z) : Z := n * 1000000.

(** ** Recording an attempt *)
Definition format_attempt_error (error_message : string) (http_status : option Z)
  (response_excerpt : string) : string :=
String.concat " | "
  ([str_or (strip error_message) "Delivery failed."] ++
   match http_status with Some st => ["HTTP " +:+ str_int st] | None => [] end ++
   (if truthy response_excerpt then ["body: " +:+ str_take 512 response_excerpt] else [])).

(** The row after an attempt. *)
Definition delivered_row (t : datetime) (x : action_outbox) : action_outbox :=
ActionOutbox (x_id x) (x_company_id x) (x_action_rule_id x) (x_delivery_kind x)
  (x_event_type x) (x_envelope x) STATUS_DELIVERED (x_attempt_count x + 1) None None ""
  (x_created_at x) t (Some t).
Definition dead_row (t : datetime) (error : string) (x : action_outbox) : action_outbox :=
ActionOutbox (x_id x) (x_company_id x) (x_action_rule_id x) (x_delivery_kind x)
  (x_event_type x) (x_envelope x) STATUS_DEAD (x_attempt_count x + 1) None None error
  (x_created_at x) t (x_delivered_at x).
Definition failed_row (t : datetime) (error : string) (delay : Z) (x : action_outbox) : action_outbox :=
ActionOutbox (x_id x) (x_company_id x) (x_action_rule_id x) (x_delivery_kind x)
  (x_event_type x) (x_envelope x) STATUS_FAILED (x_attempt_count x + 1)
  (Some (t + seconds delay)) None error (x_created_at x) t (x_delivered_at x).

Definition apply_delivery_result (row : action_outbox) (terminal_error : option string)
  (success : bool) (meta : attempt_meta) (trigger : attempt_trigger) (run : option Z) :
  prog action_outbox :=
let attempt_number := x_attempt_count row + 1 in
let terminal := bool_decide (is_Some terminal_error) in
let success := if terminal then false else success in
let permanent := if terminal then true else am_permanent meta in
let http_status := if terminal then None else am_http_status meta in
let duration_ms := if terminal then None else am_duration_ms meta in
let attempt_error := redact_email_service_secret
  (match terminal_error with
   | Some e => e
   | None => format_attempt_error (am_error_message meta) http_status (am_response_excerpt meta)
   end) in
t <- now ;;
modify_actions (set_attempts (λ l, l ++
  [DeliveryAttempt (x_id row) (if success then STATUS_SUCCESS else STATUS_FAILURE) http_status
     (if success then "" else attempt_error) attempt_number duration_ms trigger run t])) ;;;
let row' :=
  if success then delivered_row t row
  else if permanent || (max_attempts <=? attempt_number) then dead_row t attempt_error row
  else
    let delay := compute_retry_delay_seconds attempt_number http_status
                   (if terminal then None else am_retry_after_seconds meta)
                   (backoff_seconds attempt_number) in
    failed_row t attempt_error delay row in
modify_actions (set_outbox (insert (x_id row) row')) ;;;
ret row'.

(** ** One delivery *)
Definition load_rule_for_delivery (a : actions_db) (row : action_outbox) : string + action_rule :=
match x_action_rule_id row with
| None => inl "Action rule deleted."
| Some r =>
    match a_rules a !! r with
    | None => inl "Action rule deleted."
    | Some rule =>
        if negb (r_enabled rule) then inl "Action rule disabled."
        else if r_action_kind rule != ACTION_WEBHOOK
        then inl "Unsupported action kind (webhook only)."
        else inr rule
    end
end.
Definition email_event_body (row : action_outbox) : option (list (string * json)) :=
if x_delivery_kind row == KIND_EMAIL
then match x_envelope row with JObj body => Some body | _ => None end
else None.

(** What the first transaction decides.  A job remembers the attempt count it saw. *)
Inductive task :=
| Refuse (error : string)
| PostEmail (body : list (string * json))
| PostWebhook (config envelope : list (string * json)).
Record job := Job { j_outbox_id : uuid; j_snapshot : Z; j_task : task }.

Definition task_of (a : actions_db) (row : action_outbox) : task :=
match email_event_body row with
| Some body => if email_service_configured then PostEmail body
               else Refuse "Email service is not configured."
| None =>
    match load_rule_for_delivery a row with
    | inl error => Refuse error
    | inr rule => PostWebhook (r_config rule)
                    (match x_envelope row with JObj l => l | _ => [] end)
    end
end.
Definition begin_delivery (outbox_id : uuid) : prog (option action_outbox + job) :=
a <- get_actions ;;
ret match a_outbox a !! outbox_id with
    | None => inl None
    | Some row =>
        if (x_status row == STATUS_DELIVERED) || (x_status row == STATUS_DEAD)
        then inl (Some row)
        else inr (Job outbox_id (x_attempt_count row) (task_of a row))
    end.

(** The second transaction. *)
Definition finish_delivery (j : job) (success : bool) (meta : attempt_meta)
  (trigger : attempt_trigger) (run : option Z) : prog action_outbox :=
a <- get_actions ;;
match a_outbox a !! j_outbox_id j with
| None => raise DoesNotExist
| Some row =>
    if x_attempt_count row != j_snapshot j then ret row
    else apply_delivery_result row
           (match j_task j with Refuse error => Some error | _ => None end) success meta trigger run
end.
End settings.

(** No attempt was made: the details of a refused delivery. *)
Definition no_meta : attempt_meta := AttemptMeta None "" "" false None None.

Section deliver.
Context `{ActionSettings, Utf8, Resolver, Hmac, HttpDate, JsonLoads}.
(** The network, the text of other exceptions, the request id of the context and the
  time a request took, by row and attempt. *)
Context (net : network) (err : string) (request_id : string) (elapsed : uuid → Z → Z).

Definition perform_http_delivery (config envelope : list (string * json)) (attempt_number : Z)
  (t : datetime) (duration_ms : Z) : bool * attempt_meta :=
match deliver_webhook_action err net config envelope attempt_number request_id t with
| inr _ => (true, AttemptMeta None "" "" false None (Some duration_ms))
| inl (inl e) =>
    (false, AttemptMeta (we_http_status e) (we_response_excerpt e) (we_text e) (we_permanent e)
              (we_retry_after_seconds e) (Some duration_ms))
| inl (inr text) => (false, AttemptMeta None "" text false None (Some duration_ms))
end.

(** The request between the two transactions; [inl] is an exception it lets through. *)
Definition perform (j : job) (t : datetime) : string + (bool * attempt_meta) :=
let ms := elapsed (j_outbox_id j) (j_snapshot j) in
match j_task j with
| Refuse _ => inr (false, no_meta)
| PostEmail body => deliver_email_event err net body request_id t ms
| PostWebhook config envelope =>
    inr (perform_http_delivery config envelope (j_snapshot j + 1) t ms)
end.

Definition deliver_outbox_row (outbox_id : uuid) (trigger : attempt_trigger) (run : option Z) :
  prog (option action_outbox) :=
r <- atomic (begin_delivery outbox_id) ;;
match r with
| inl row => ret row
| inr j =>
    t <- now ;;
    match perform j t with
    | inl text => raise (OtherError text)
    | inr (success, meta) =>
        row <- atomic (finish_delivery j success meta trigger run) ;; ret (Some row)
    end
end.

(** [_safe_deliver_outbox_row]: any exception is logged. *)
Definition safe_deliver_outbox_row (outbox_id : uuid) : prog unit :=
try_except (deliver_outbox_row outbox_id TRIGGER_DISPATCH None ;;; ret tt) (λ _, Some (ret tt)).
(** What [transaction.on_commit] runs when the delivery is synchronous. *)
Definition run_on_commit : prog unit :=
a <- get_actions ;;
modify_actions (set_on_commit (λ _, [])) ;;;
for_each (a_on_commit a) safe_deliver_outbox_row.

(** ** Retries *)
(** [_pending_outbox_filter] *)
Definition due (t : datetime) (x : action_outbox) : bool :=
((x_status x == STATUS_PENDING) || (x_status x == STATUS_FAILED))
&& from_option (λ n, n <=? t) true (x_next_attempt_at x)
&& from_option (λ l, l <=? t) true (x_locked_until x).
(** The order of PostgreSQL: no date comes last. *)
Definition claim_le (x y : action_outbox) : bool :=
match x_next_attempt_at x, x_next_attempt_at y with
| Some a, Some b => (a <? b) || ((a =? b) && (x_created_at x <=? x_created_at y))
| Some _, None => true
| None, Some _ => false
| None, None => x_created_at x <=? x_created_at y
end.
Definition with_lock (t : datetime) (until : option datetime) (x : action_outbox) : action_outbox :=
ActionOutbox (x_id x) (x_company_id x) (x_action_rule_id x) (x_delivery_kind x)
  (x_event_type x) (x_envelope x) (x_status x) (x_attempt_count x) (x_next_attempt_at x) until
  (x_last_error x) (x_created_at x) t (x_delivered_at x).

(** [select_for_update(skip_locked=True)] skips rows another transaction holds: [held]. *)
Definition claim_next_pending_outbox (held : uuid → bool) (t : datetime) : prog (option action_outbox) :=
a <- get_actions ;;
match sort_by claim_le (filter (λ x, due t x && negb (held (x_id x)) = true) (rows (a_outbox a))) with
| [] => ret None
| row :: _ =>
    u <- now ;;
    let row' := with_lock u (Some (t + seconds lease_seconds)) row in
    modify_actions (set_outbox (insert (x_id row) row')) ;;;
    ret (Some row')
end.

Record retry_stats := RetryStats {
rs_processed : Z; rs_delivered : Z; rs_retried : Z; rs_dead : Z;
rs_email_processed : Z; rs_email_delivered : Z; rs_email_retried : Z; rs_email_dead : Z }.
Definition empty_retry_stats : retry_stats := RetryStats 0 0 0 0 0 0 0 0.
Definition merge (a b : retry_stats) : retry_stats :=
RetryStats (rs_processed a + rs_processed b) (rs_delivered a + rs_delivered b)
  (rs_retried a + rs_retried b) (rs_dead a + rs_dead b)
  (rs_email_processed a + rs_email_processed b) (rs_email_delivered a + rs_email_delivered b)
  (rs_email_retried a + rs_email_retried b) (rs_email_dead a + rs_email_dead b).
Definition summarize_delivery_result (before_status : outbox_status) (after : option action_outbox) :
  retry_stats :=
match after with
| None => empty_retry_stats
| Some x =>
    let '(d, r, g) :=
      match x_status x with
      | STATUS_DELIVERED => (1, 0, 0)
      | STATUS_DEAD => (0, 0, 1)
      | STATUS_FAILED => (0, 1, 0)
      | STATUS_PENDING =>
          (0, if before_status in_ [STATUS_PENDING; STATUS_FAILED] then 1 else 0, 0)
      end in
    if x_delivery_kind x == KIND_EMAIL then RetryStats 1 d r g 1 d r g
    else RetryStats 1 d r g 0 0 0 0
end.

(** [retry_pending_webhooks] with one worker.  [ticks] bounds the passes the clock allows
  before the deadline; the batch size bounds them too. *)
Fixpoint retry_loop (ticks : nat) (batch_size : Z) (dry_run : bool) (t : datetime)
  (run : option Z) (stats : retry_stats) : prog retry_stats :=
match ticks with
| O => ret stats
| S ticks' =>
    if batch_size <=? rs_processed stats then ret stats
    else
      row <- atomic (claim_next_pending_outbox (λ _, false) t) ;;
      match row with
      | None => ret stats
      | Some x =>
          if dry_run then
            modify_actions (set_outbox (alter (λ y, with_lock (x_updated_at y) None y) (x_id x))) ;;;
            retry_loop ticks' batch_size dry_run t run
              (merge stats (RetryStats 1 0 0 0 (if x_delivery_kind x == KIND_EMAIL then 1 else 0) 0 0 0))
          else
            after <- deliver_outbox_row (x_id x) TRIGGER_AUTOMATIC_RETRY run ;;
            retry_loop ticks' batch_size dry_run t run
              (merge stats (summarize_delivery_result (x_status x) after))
      end
end.
Definition retry_pending_webhooks (ticks : nat) (batch_size : Z) (dry_run : bool) (run : option Z) :
  prog retry_stats :=
t <- now ;; retry_loop ticks batch_size dry_run t run empty_retry_stats.
End deliver.

(** ** Interleavings

    The world, the deliveries in flight, and (a ghost) the rows an administrator has
    re-queued.  Steps are the transactions of the program, in any order; what a request
    yields is arbitrary, so is the moment it ends; a worker may die. *)
Record system := System { sy_world : world; sy_jobs : list job; sy_requeues : list uuid }.

(** The update of [ShellUIAdminActionDeliveryRequeueView.post]. *)
Definition requeued_row (x : action_outbox) : action_outbox :=
  ActionOutbox (x_id x) (x_company_id x) (x_action_rule_id x) (x_delivery_kind x)
    (x_event_type x) (x_envelope x) STATUS_PENDING (x_attempt_count x) None None ""
    (x_created_at x) (x_updated_at x) (x_delivered_at x).
(** A deleted outbox row takes its attempts along. *)
Definition delete_outbox_row (i : uuid) (a : actions_db) : actions_db :=
  set_attempts (filter (λ t, t_outbox_id t ≠ i)) (set_outbox (delete i) a).

Section interleaving.
Context `{ActionSettings}.

Inductive step : system → system → Prop :=
| step_begin i j w w' js rq :
  atomic (begin_delivery i) w = (inr (inr j), w') →
  step (System w js rq) (System w' (j :: js) rq)
| step_finish j success meta trigger run w js js' rq :
  js ≡ₚ j :: js' →
  step (System w js rq) (System (atomic (finish_delivery j success meta trigger run) w).2 js' rq)
| step_crash w js js' rq : js' ⊆+ js → step (System w js rq) (System w js' rq)
| step_claim held t w js rq :
  step (System w js rq) (System (atomic (claim_next_pending_outbox held t) w).2 js rq)
| step_release i w js rq :
  step (System w js rq)
    (System (set_db (set_actions (set_outbox (alter (λ y, with_lock (x_updated_at y) None y) i))) w) js rq)
| step_requeue i w js rq :
  step (System w js rq)
    (System (set_db (set_actions (set_outbox (alter requeued_row i))) w) js (i :: rq))
| step_emit et cid payload company a force w js rq :
  step (System w js rq) (System (emit_event et cid payload company a force w).2 js rq)
| step_purge i w js rq :
  step (System w js rq) (System (set_db (set_actions (delete_outbox_row i)) w) js rq)
| step_other w w' js rq :
  a_outbox (acts w') = a_outbox (acts w) → a_attempts (acts w') = a_attempts (acts w) →
  (w_next_uuid w ≤ w_next_uuid w')%N → step (System w js rq) (System w' js rq).

(** ** The invariant *)
Definition live (x : action_outbox) : Prop := x_status x = STATUS_PENDING ∨ x_status x = STATUS_FAILED.
Definition attempts_of (i : uuid) (w : world) : list delivery_attempt :=
filter (λ t, t_outbox_id t = i) (a_attempts (acts w)).
Definition successes (i : uuid) (w : world) : Z :=
Z.of_nat (length (filter (λ t, t_status t = STATUS_SUCCESS) (attempts_of i w))).
Definition requeues (i : uuid) (rq : list uuid) : Z := Z.of_nat (length (filter (λ k, k = i) rq)).
Definition attempt_limit : Z := Z.max 1 max_attempts.

Record row_ok (i : uuid) (x : action_outbox) (w : world) (rq : list uuid) : Prop := RowOk {
ro_id : x_id x = i;
ro_fresh : (i < w_next_uuid w)%N;
ro_count : 0 ≤ x_attempt_count x;
ro_numbers : t_attempt_number <$> attempts_of i w = seqZ 1 (x_attempt_count x);
ro_bound : x_attempt_count x ≤ attempt_limit + requeues i rq;
ro_live : live x → x_attempt_count x < attempt_limit + requeues i rq;
ro_success : successes i w ≤ (if x_status x == STATUS_DELIVERED then 1 else 0) + requeues i rq;
ro_delivered : x_status x = STATUS_DELIVERED → 1 ≤ successes i w }.

Record system_ok (s : system) : Prop := SystemOk {
so_rows : ∀ i x, a_outbox (acts (sy_world s)) !! i = Some x → row_ok i x (sy_world s) (sy_requeues s);
so_none : ∀ i, a_outbox (acts (sy_world s)) !! i = None → attempts_of i (sy_world s) = [];
so_jobs : ∀ j, j ∈ sy_jobs s → (j_outbox_id j < w_next_uuid (sy_world s))%N ∧
  ∀ x, a_outbox (acts (sy_world s)) !! j_outbox_id j = Some x →
    j_snapshot j ≤ x_attempt_count x ∧ (j_snapshot j = x_attempt_count x → live x) }.

(** A row change that keeps the count, and a live row live. *)
Lemma alter_ok f i w js rq rq' :
(∀ x, x_id (f x) = x_id x ∧ x_attempt_count (f x) = x_attempt_count x ∧ (live x → live (f x))) →
(∀ k, requeues k rq ≤ requeues k rq') →
(∀ x, a_outbox (acts w) !! i = Some x →
   (live (f x) → live x ∨ requeues i rq < requeues i rq') ∧
   (x_status (f x) = x_status x ∨ x_status (f x) = STATUS_PENDING ∧ requeues i rq < requeues i rq')) →
system_ok (System w js rq) →
system_ok (System (set_db (set_actions (set_outbox (alter f i))) w) js rq').
Proof.
intros Hf Hrq Hi [Hrows Hnone Hjobs]. simpl in *.
assert (Hat : ∀ k, attempts_of k (set_db (set_actions (set_outbox (alter f i))) w) = attempts_of k w) by done.
split; simpl.
- intros k x Hk. unfold acts in Hk. simpl in Hk.
  destruct (decide (k = i)) as [->|Hne];
    [rewrite lookup_alter_eq in Hk; apply fmap_Some in Hk as (y & Hy & ->)
    |rewrite lookup_alter_ne in Hk by done].
  + destruct (Hrows i y Hy) as [Hid Hfr Hc Hn Hb Hl Hs Hd]. destruct (Hf y) as (Hfid & Hfc & Hfl).
    destruct (Hi y Hy) as [Hil Hist]. specialize (Hrq i).
    split; [by rewrite Hfid|done|by rewrite Hfc|by rewrite Hfc, Hat|rewrite Hfc; lia| | |].
    * rewrite Hfc. intros Hlive. destruct (Hil Hlive) as [Hx|Hx]; [specialize (Hl Hx)|]; lia.
    * unfold successes in *. rewrite Hat. destruct Hist as [->|[_ Hx]]; [lia|].
      repeat case_bool_decide; lia.
    * unfold successes in *. rewrite Hat. destruct Hist as [->|[-> _]]; [done|discriminate].
  + destruct (Hrows k x Hk) as [Hid Hfr Hc Hn Hb Hl Hs Hd]. specialize (Hrq k).
    split; [done..|lia| | |].
    * intros Hx. specialize (Hl Hx). lia.
    * unfold successes in *. rewrite Hat. lia.
    * unfold successes in *. by rewrite Hat.
- intros k Hk. rewrite Hat. apply Hnone. unfold acts in Hk. simpl in Hk.
  by rewrite lookup_alter_None in Hk.
- intros j Hj. destruct (Hjobs j Hj) as [Hfr Hx]. split; [done|]. intros x Hjx. unfold acts in Hjx. simpl in Hjx.
  apply lookup_alter_Some in Hjx as [[He (y & Hy & ->)]|[_ Hy]]; [|by apply Hx].
  destruct (Hf y) as (_ & Hfc & Hfl). destruct (Hx y Hy) as [Hle Hlv]. rewrite Hfc. split; [done|auto].
Qed.

Lemma requeues_nonneg i rq : 0 ≤ requeues i rq.
Proof. unfold requeues. lia. Qed.
Lemma limit_pos : 1 ≤ attempt_limit.
Proof. unfold attempt_limit. lia. Qed.
Lemma requeues_cons i k rq : requeues k (i :: rq) = requeues k rq + (if decide (i = k) then 1 else 0).
Proof. unfold requeues. rewrite filter_cons. case_decide; simpl; lia. Qed.

Lemma lock_ok g until i w js rq :
system_ok (System w js rq) →
system_ok (System (set_db (set_actions (set_outbox (alter (λ y, with_lock (g y) until y) i))) w) js rq).
Proof. intros Hok. apply (alter_ok _ i w js rq rq); [done|done| |done]. intros x _. split; by left. Qed.

Lemma requeue_ok i w js rq :
system_ok (System w js rq) →
system_ok (System (set_db (set_actions (set_outbox (alter requeued_row i))) w) js (i :: rq)).
Proof.
intros Hok. apply (alter_ok _ i w js rq); [| | |done].
- intros x. split_and!; [done..|]. intros _. by left.
- intros k. rewrite requeues_cons. case_decide; lia.
- intros x _. rewrite requeues_cons, decide_True by done. split; right; [lia|split; [done|lia]].
Qed.

Lemma claim_ok held t w js rq :
system_ok (System w js rq) →
system_ok (System (atomic (claim_next_pending_outbox held t) w).2 js rq).
Proof.
intros Hok. unfold atomic, claim_next_pending_outbox, get_actions, now, modify_actions, modify_db, bind, gets.
cbv beta iota. destruct (sort_by _ _) as [|row l] eqn:Hs; [done|]. simpl.
assert (Hrow : a_outbox (acts w) !! x_id row = Some row).
{ assert (Hin : row ∈ row :: l) by left. rewrite <- Hs, elem_of_sort_by in Hin.
  apply list_elem_of_filter in Hin as [_ Hin]. apply elem_of_rows in Hin as [i Hi].
  destruct (so_rows _ Hok i row Hi) as [-> _ _ _ _ _ _ _]. done. }
pose proof (lock_ok (λ _, w_now w) (Some (t + seconds lease_seconds)) (x_id row) w js rq Hok) as Hl.
unfold set_db, set_actions in *. simpl in *.
unfold set_outbox in *. simpl in *.
replace (<[x_id row:=with_lock (w_now w) (Some (t + seconds lease_seconds)) row]> (a_outbox (db_actions (w_db w))))
  with (alter (λ y, with_lock (w_now w) (Some (t + seconds lease_seconds)) y) (x_id row)
          (a_outbox (db_actions (w_db w)))); [done|].
apply map_eq. intros k. destruct (decide (k = x_id row)) as [->|Hk].
- rewrite lookup_alter_eq, lookup_insert_eq. unfold acts in Hrow. by rewrite Hrow.
- by rewrite lookup_alter_ne, lookup_insert_ne.
Qed.

(** *** Recording an attempt *)

(** What an attempt at [t] makes of [row]: the row after it, and its record. *)
Record outcome_of (t : datetime) (success permanent : bool) (retry_after : option Z)
  (http_status : option Z) (trigger : attempt_trigger) (run : option Z) (row row' : action_outbox)
  (att : delivery_attempt) : Prop := OutcomeOf {
oc_same : (x_id row', x_company_id row', x_action_rule_id row', x_delivery_kind row',
           x_event_type row', x_envelope row', x_created_at row') =
          (x_id row, x_company_id row, x_action_rule_id row, x_delivery_kind row,
           x_event_type row, x_envelope row, x_created_at row);
oc_counted : x_attempt_count row' = x_attempt_count row + 1;
oc_unlocked : x_locked_until row' = None;
oc_att : (t_outbox_id att, t_attempt_number att, t_trigger att, t_scheduled_job_run_id att, t_created_at att) =
         (x_id row, x_attempt_count row', trigger, run, t);
oc_error : t_error_message att = x_last_error row';
oc_verdict :
  if success then
    x_status row' = STATUS_DELIVERED ∧ x_delivered_at row' = Some t ∧ x_last_error row' = "" ∧
    t_status att = STATUS_SUCCESS
  else t_status att = STATUS_FAILURE ∧ x_delivered_at row' = x_delivered_at row ∧
    if permanent || (max_attempts <=? x_attempt_count row') then
      x_status row' = STATUS_DEAD ∧ x_next_attempt_at row' = None
    else
      x_status row' = STATUS_FAILED ∧
      x_next_attempt_at row' = Some (t + seconds (compute_retry_delay_seconds
        (x_attempt_count row') http_status retry_after (backoff_seconds (x_attempt_count row')))) }.

Definition record_world (row' : action_outbox) (att : delivery_attempt) (w : world) : world :=
set_db (set_actions (λ a, set_outbox (insert (x_id row') row') (set_attempts (λ l, l ++ [att]) a))) w.

Lemma apply_records row te success meta tr run w :
∃ row' att,
  outcome_of (w_now w) (if te is Some _ then false else success)
    (if te is Some _ then true else am_permanent meta)
    (if te is Some _ then None else am_retry_after_seconds meta)
    (if te is Some _ then None else am_http_status meta) tr run row row' att ∧
  apply_delivery_result row te success meta tr run w = (inr row', record_world row' att w).
Proof.
unfold apply_delivery_result, now, modify_actions, modify_db, bind, gets, modify, ret.
cbv beta iota zeta. set (e := redact_email_service_secret _).
set (delay := compute_retry_delay_seconds _ _ _ _).
destruct (max_attempts <=? x_attempt_count row + 1) eqn:Hm.
- destruct te as [te|]; [exists (dead_row (w_now w) e row)
    |destruct success; [exists (delivered_row (w_now w) row)|exists (dead_row (w_now w) e row)]];
  (eexists; split; [|rewrite ?orb_true_r; reflexivity]); split; simpl; rewrite ?Hm, ?orb_true_r; done.
- destruct te as [te|]; [exists (dead_row (w_now w) e row)
    |destruct success; [exists (delivered_row (w_now w) row)
    |destruct (am_permanent meta) eqn:Hp; [exists (dead_row (w_now w) e row)
    |exists (failed_row (w_now w) e delay row)]]];
  (eexists; split; [|try rewrite Hp; reflexivity]); split; simpl; rewrite ?Hm; done.
Qed.

(** What the invariant needs of it. *)
Record recorded (row row' : action_outbox) (att : delivery_attempt) : Prop := Recorded {
rc_id : x_id row' = x_id row;
rc_att : t_outbox_id att = x_id row;
rc_number : t_attempt_number att = x_attempt_count row + 1;
rc_count : x_attempt_count row' = x_attempt_count row + 1;
rc_success : t_status att = STATUS_SUCCESS ↔ x_status row' = STATUS_DELIVERED;
rc_live : live row' → x_attempt_count row + 1 < max_attempts }.
Lemma outcome_recorded t ok perm ra st tr run row row' att :
outcome_of t ok perm ra st tr run row row' att → recorded row row' att.
Proof.
intros [Hsame Hc _ Hatt _ Hv]. simplify_eq.
assert (Hs : (t_status att = STATUS_SUCCESS ↔ x_status row' = STATUS_DELIVERED) ∧
  (live row' → x_attempt_count row + 1 < max_attempts)).
{ destruct ok; [|destruct (_ || _) eqn:Hd]; destruct_and?; (split; [split; congruence|]);
    intros [|]; try congruence.
  apply orb_false_elim in Hd as [_ Hd]. apply Z.leb_gt in Hd. by rewrite <- Hc. }
destruct Hs. split; congruence || done.
Qed.

Lemma attempts_of_record i row' att w :
attempts_of i (record_world row' att w) =
attempts_of i w ++ (if decide (t_outbox_id att = i) then [att] else []).
Proof.
unfold attempts_of, record_world, acts. simpl. by rewrite filter_app.
Qed.
Lemma seqZ_snoc n : 0 ≤ n → seqZ 1 (n + 1) = seqZ 1 n ++ [n + 1].
Proof.
intros Hn. rewrite seqZ_app by lia. f_equal. rewrite seqZ_cons, seqZ_nil by lia. f_equal. lia.
Qed.

Lemma record_ok row row' att w js rq :
system_ok (System w js rq) →
a_outbox (acts w) !! x_id row = Some row → live row → recorded row row' att →
system_ok (System (record_world row' att w) js rq).
Proof.
intros [Hrows Hnone Hjobs] Hrow Hlive [Hid Hatt Hnum Hcount Hsucc Hlv]. simpl in *.
assert (Hout : a_outbox (acts (record_world row' att w)) = <[x_id row := row']> (a_outbox (acts w))).
{ unfold acts, record_world. simpl. by rewrite Hid. }
split; cbn [sy_world sy_jobs sy_requeues].
- intros i x Hx. rewrite Hout in Hx. apply lookup_insert_Some in Hx as [[<- <-]|[Hne Hx]].
  + destruct (Hrows _ _ Hrow) as [_ Hfr Hc Hn Hb Hl Hs _].
    specialize (Hl Hlive). split; [done|done|lia| |lia| | |].
    * rewrite attempts_of_record, decide_True, fmap_app, Hn by done. simpl.
      rewrite Hnum, Hcount. by rewrite seqZ_snoc.
    * intros Hlive'. specialize (Hlv Hlive'). unfold attempt_limit.
      pose proof (requeues_nonneg (x_id row) rq). rewrite Hcount. lia.
    * assert (Hnd : (if x_status row == STATUS_DELIVERED then 1 else 0) = 0).
      { destruct Hlive as [-> | ->]; reflexivity. }
      rewrite Hnd in Hs. unfold successes in *.
      rewrite attempts_of_record, decide_True, filter_app, length_app by done.
      rewrite filter_cons, filter_nil. destruct (decide (t_status att = STATUS_SUCCESS)) as [Hd|Hd].
      -- rewrite bool_decide_true by by apply Hsucc. simpl. lia.
      -- rewrite bool_decide_false by (by rewrite <- Hsucc). simpl. lia.
    * intros Hd. apply Hsucc in Hd. unfold successes.
      rewrite attempts_of_record, decide_True, filter_app, length_app, filter_cons by done.
      rewrite decide_True by done. simpl. lia.
  + destruct (Hrows i x Hx) as [Hid' Hfr Hc Hn Hb Hl Hs Hd].
    assert (Hsame : attempts_of i (record_world row' att w) = attempts_of i w).
    { rewrite attempts_of_record, decide_False by (by rewrite Hatt). apply app_nil_r. }
    split; [done..|by rewrite Hsame|done|done| |]; unfold successes in *; by rewrite Hsame.
- intros i Hi. rewrite Hout in Hi. apply lookup_insert_None in Hi as [Hi Hne].
  rewrite attempts_of_record, decide_False, app_nil_r by (by rewrite Hatt). by apply Hnone.
- intros k Hk. destruct (Hjobs k Hk) as [Hfr Hx]. split; [done|]. intros x Hkx.
  rewrite Hout in Hkx. apply lookup_insert_Some in Hkx as [[He <-]|[_ Hkx]]; [|by apply Hx].
  rewrite <- He in Hx. destruct (Hx row Hrow) as [Hle _]. rewrite Hcount. split; [lia|]. lia.
Qed.

Lemma crash_ok w js js' rq :
(∀ j, j ∈ js' → j ∈ js) → system_ok (System w js rq) → system_ok (System w js' rq).
Proof. intros Hsub [Hrows Hnone Hjobs]. split; [done|done|]. intros j Hj. by apply Hjobs, Hsub. Qed.

Lemma finish_ok j success meta trigger run w js rq :
j ∈ js → system_ok (System w js rq) →
system_ok (System (atomic (finish_delivery j success meta trigger run) w).2 js rq).
Proof.
intros Hj Hok. unfold atomic, finish_delivery, get_actions, gets, bind. fold (acts w).
destruct (a_outbox (acts w) !! j_outbox_id j) as [row|] eqn:Hrow; [|by destruct w].
destruct (so_jobs _ Hok j Hj) as [_ Hlive]. destruct (Hlive row Hrow) as [_ Hl].
case_bool_decide as Hc; cbn [negb]; [|done].
destruct (so_rows _ Hok _ row Hrow) as [Hid _ _ _ _ _ _ _].
destruct (apply_records row (match j_task j with Refuse error => Some error | _ => None end)
  success meta trigger run w) as (row' & att & Hrec & ->). cbn [snd].
eapply record_ok; [done| |by apply Hl|by eapply outcome_recorded]. by rewrite Hid.
Qed.

Lemma begin_ok i j w w' js rq :
atomic (begin_delivery i) w = (inr (inr j), w') →
system_ok (System w js rq) → system_ok (System w' (j :: js) rq).
Proof.
unfold atomic, begin_delivery, get_actions, gets, bind, ret. fold (acts w).
destruct (a_outbox (acts w) !! i) as [row|] eqn:Hrow; [|done].
destruct (_ || _) eqn:Hst; [done|]. intros [= <- <-] Hok.
apply orb_false_elim in Hst as [Hd Hg]. apply bool_decide_eq_false in Hd, Hg.
destruct (so_rows _ Hok i row Hrow) as [_ Hfr _ _ _ _ _ _]. destruct Hok as [Hrows Hnone Hjobs].
split; [done|done|]. intros k Hk. apply elem_of_cons in Hk as [->|Hk]; [|by apply Hjobs].
simpl in *. split; [done|]. intros x Hx. rewrite Hrow in Hx. injection Hx as <-.
split; [done|]. intros _. unfold live. destruct (x_status row); auto; done.
Qed.

(** Rows may appear, if they are new and pending; rows may go, with their attempts. *)
Lemma outbox_ok w w' js rq :
(w_next_uuid w ≤ w_next_uuid w')%N →
(∀ i, attempts_of i w' = attempts_of i w ∨
      attempts_of i w' = [] ∧ a_outbox (acts w') !! i = None) →
(∀ i x, a_outbox (acts w') !! i = Some x → a_outbox (acts w) !! i = Some x ∨
   a_outbox (acts w) !! i = None ∧ x_id x = i ∧ (w_next_uuid w ≤ i < w_next_uuid w')%N ∧
   x_attempt_count x = 0 ∧ x_status x = STATUS_PENDING) →
(∀ i, a_outbox (acts w') !! i = None → attempts_of i w' = []) →
system_ok (System w js rq) → system_ok (System w' js rq).
Proof.
intros Hu Hat Hout Hgone [Hrows Hnone Hjobs]. simpl in *. split; simpl; [|exact Hgone|].
- intros i x Hx.
  assert (Ha : attempts_of i w' = attempts_of i w).
  { destruct (Hat i) as [?|[_ Hn]]; [done|by rewrite Hn in Hx]. }
  destruct (Hout i x Hx) as [Hold|(Hn & Hid & Hnew & Hc & Hst)].
  + destruct (Hrows i x Hold) as [Hid Hfr Hc Hn Hb Hl Hs Hd].
    split; [done|lia|done|by rewrite Ha|done|done| |]; unfold successes in *; by rewrite Ha.
  + pose proof (requeues_nonneg i rq). pose proof limit_pos.
    split; [done|lia|lia|by rewrite Ha, (Hnone i Hn), Hc|lia|lia| |].
    * unfold successes. rewrite Ha, (Hnone i Hn), Hst. simpl. lia.
    * by rewrite Hst.
- intros j Hj. destruct (Hjobs j Hj) as [Hfr Hx]. split; [lia|]. intros x Hjx.
  destruct (Hout _ x Hjx) as [Hold|(_ & _ & Hnew & _)]; [by apply Hx|lia].
Qed.

Lemma webhook_row_pending cid event env t (rules : list action_rule) rows :
Forall2 (λ rule x, ∃ i, x = outbox_row cid (Some (r_id rule)) KIND_WEBHOOK event env t i) rules rows →
Forall (λ x, x_attempt_count x = 0 ∧ x_status x = STATUS_PENDING) rows.
Proof. induction 1 as [|rule x rules rows [i ->] _ IH]; constructor; done. Qed.
Lemma email_row_pending event cid payload a ctx t i :
Forall (λ x, x_attempt_count x = 0 ∧ x_status x = STATUS_PENDING)
  (email_rows event cid payload a ctx t i).
Proof. unfold email_rows. destruct (_ && _); repeat constructor. Qed.

Lemma emit_ok et cid payload company a force w js rq :
system_ok (System w js rq) →
system_ok (System (emit_event et cid payload company a force w).2 js rq).
Proof.
intros Hok. pose proof (wp_emit_event et cid payload company a force w) as Hwp. unfold wp in Hwp.
destruct (emit_event et cid payload company a force w) as [[e|rows] w']; simpl.
{ by destruct Hwp as (_ & _ & ->). }
destruct Hwp as (event & _ & _ & Hout).
destruct (et_emit_by_default event || force); [|by destruct Hout as [_ ->]].
destruct Hout as [(env & _ & Hrows) (i0 & Hdb & Hids & Hnd) _ _ Hu].
set (mails := email_rows _ _ _ _ _ _ _) in *.
assert (Hnew : Forall (λ x, x_attempt_count x = 0 ∧ x_status x = STATUS_PENDING) (rows ++ mails)).
{ apply Forall_app. split; [by eapply webhook_row_pending|apply email_row_pending]. }
assert (Hbox : a_outbox (acts w') = add_rows (rows ++ mails) (a_outbox (acts w))).
{ unfold acts. by rewrite Hdb. }
assert (Hat : ∀ i, attempts_of i w' = attempts_of i w).
{ intros i. unfold attempts_of, acts. by rewrite Hdb. }
rewrite Forall_forall in Hids, Hnew.
apply (outbox_ok w); [done| | | |done].
- intros i. by left.
- intros i x Hx. rewrite Hbox in Hx. apply add_rows_cases in Hx as [Hx|[Hx <-]]; [by left| |done].
  right. destruct (Hids x Hx) as [Hlo Hhi], (Hnew x Hx) as [Hc Hst]. split_and!; try done.
  destruct (a_outbox (acts w) !! x_id x) as [y|] eqn:Hy; [|done].
  destruct (so_rows _ Hok _ y Hy) as [_ Hfr _ _ _ _ _ _]. simpl in Hfr. lia.
- intros i Hi. rewrite Hat. apply (so_none _ Hok). simpl. rewrite Hbox in Hi.
  destruct (a_outbox (acts w) !! i) as [y|] eqn:Hy; [|done].
  destruct (so_rows _ Hok _ y Hy) as [_ Hfr _ _ _ _ _ _]. simpl in Hfr.
  rewrite (add_rows_keeps _ _ _ y) in Hi; [done| |done].
  apply Forall_forall. intros z Hz <-. apply Hids in Hz. lia.
Qed.

Lemma purge_ok i w js rq :
system_ok (System w js rq) →
system_ok (System (set_db (set_actions (delete_outbox_row i)) w) js rq).
Proof.
intros Hok. set (w' := set_db _ w).
assert (Hbox : a_outbox (acts w') = delete i (a_outbox (acts w))) by done.
assert (Hat : ∀ k, attempts_of k w' = if decide (k = i) then [] else attempts_of k w).
{ intros k. unfold attempts_of, w', acts, set_db, delete_outbox_row. simpl.
  rewrite list_filter_filter. case_decide as Hk; [subst k|].
  - induction (a_attempts _) as [|t l IH]; [done|]. rewrite filter_cons_False; [done|tauto].
  - apply list_filter_iff. intros t. split; [by intros []|]. intros <-. done. }
apply (outbox_ok w); [done| | | |done].
- intros k. rewrite Hat, Hbox. case_decide as Hk; [subst k; right|by left].
  split; [done|apply lookup_delete_eq].
- intros k x Hx. rewrite Hbox in Hx. apply lookup_delete_Some in Hx as [_ Hx]. by left.
- intros k Hk. rewrite Hat. case_decide as He; [done|]. rewrite Hbox, lookup_delete_ne in Hk by done.
  by apply (so_none _ Hok).
Qed.

Lemma other_ok w w' js rq :
a_outbox (acts w') = a_outbox (acts w) → a_attempts (acts w') = a_attempts (acts w) →
(w_next_uuid w ≤ w_next_uuid w')%N → system_ok (System w js rq) → system_ok (System w' js rq).
Proof.
intros Ho Ha Hu Hok. assert (Hat : ∀ i, attempts_of i w' = attempts_of i w).
{ intros i. unfold attempts_of. by rewrite Ha. }
apply (outbox_ok w); [done| | | |done].
- intros i. by left.
- intros i x. rewrite Ho. by left.
- intros i. rewrite Ho, Hat. apply (so_none _ Hok).
Qed.

Lemma step_ok s s' : step s s' → system_ok s → system_ok s'.
Proof.
destruct 1 as [i j w w' js rq Hb|j success meta trigger run w js js' rq Hj|w js js' rq Hsub
  |held t w js rq|i w js rq|i w js rq|et cid payload company a force w js rq|i w js rq
  |w w' js rq Ho Ha Hu]; intros Hok.
- by eapply begin_ok.
- apply (crash_ok _ js); [intros k Hk; rewrite Hj; by right|].
  apply finish_ok; [rewrite Hj; by left|done].
- apply (crash_ok _ js); [|done]. intros j Hj. by eapply elem_of_submseteq.
- by apply claim_ok.
- by apply (lock_ok (λ y, x_updated_at y)).
- by apply requeue_ok.
- by apply emit_ok.
- by apply purge_ok.
- by eapply other_ok.
Qed.

(** A world before any delivery: every row is pending and was never attempted. *)
Record never_attempted (w : world) : Prop := NeverAttempted {
na_rows : ∀ i x, a_outbox (acts w) !! i = Some x → x_id x = i ∧ (i < w_next_uuid w)%N ∧
  x_attempt_count x = 0 ∧ x_status x = STATUS_PENDING;
na_attempts : a_attempts (acts w) = [] }.

Lemma fresh_ok w : never_attempted w → system_ok (System w [] []).
Proof.
intros [Hrows Hat]. assert (Hno : ∀ i, attempts_of i w = []).
{ intros i. unfold attempts_of. by rewrite Hat. }
split; simpl; [|done|intros j Hj; by apply elem_of_nil in Hj].
intros i x Hx. destruct (Hrows i x Hx) as (Hid & Hfr & Hc & Hst). pose proof (requeues_nonneg i []).
pose proof limit_pos. split; [done|done|lia|by rewrite Hno, Hc|lia|lia| |].
- unfold successes. rewrite Hno, Hst. done.
- by rewrite Hst.
Qed.

(** C19: Whatever the order in which deliveries begin, end, are claimed, released,
    re-queued, die, or new events are emitted and old rows purged: the attempts on record
    for an outbox row are numbered 1, 2, ..., [attempt_count] in the order they were
    written, without gaps or repetitions; there are at most [max 1 max_attempts] of them
    and one more for each time an administrator re-queued the row; and a row that was
    never re-queued has one successful attempt if it is delivered and none otherwise. *)
Theorem delivery_history w s i x :
never_attempted w → rtc step (System w [] []) s →
a_outbox (acts (sy_world s)) !! i = Some x →
t_attempt_number <$> attempts_of i (sy_world s) = seqZ 1 (x_attempt_count x) ∧
x_attempt_count x ≤ Z.max 1 max_attempts + requeues i (sy_requeues s) ∧
successes i (sy_world s) ≤
  (if x_status x == STATUS_DELIVERED then 1 else 0) + requeues i (sy_requeues s) ∧
(x_status x = STATUS_DELIVERED → 1 ≤ successes i (sy_world s)).
Proof.
intros Hna Hsteps Hx.
assert (Hok : system_ok s).
{ pose proof (fresh_ok w Hna) as Hok. clear Hna Hx.
  induction Hsteps as [|a b c Hab _ IH]; [done|]. by apply IH, (step_ok a). }
by destruct (so_rows s Hok i x Hx) as [_ _ _ Hn Hb _ Hs Hd].
Qed.
End interleaving.

(** An outbox with a webhook row and an e-mail row, and one row delivered twice because it
    was re-queued in between. *)
Module DeliveryDemo.
Definition pending (i : uuid) (rule : option N) (kind : delivery_kind) : action_outbox :=
  ActionOutbox i 7 rule kind "storage.object.uploaded" (JObj WebhookDemo.envelope) STATUS_PENDING
    0 None None "" 900 900 None.
Definition queue_world : world :=
  World (set_actions (λ a,
      set_rules (λ _, {[ 1%N := EventsDemo.hook 1 true ]})
        (set_outbox (λ _, {[ 5%N := pending 5 (Some 1%N) KIND_WEBHOOK;
                             6%N := pending 6 None KIND_EMAIL ]}) a)) empty_db)
    ∅ 1000 7.
Lemma queue_rows i x : a_outbox (acts queue_world) !! i = Some x →
  x = pending 5 (Some 1%N) KIND_WEBHOOK ∧ i = 5%N ∨ x = pending 6 None KIND_EMAIL ∧ i = 6%N.
Proof.
  intros Hx. change (a_outbox (acts queue_world)) with
    ({[ 5%N := pending 5 (Some 1%N) KIND_WEBHOOK; 6%N := pending 6 None KIND_EMAIL ]} : gmap uuid action_outbox) in Hx.
  apply lookup_insert_Some in Hx as [[<- <-]|[_ Hx]]; [by left|].
  apply lookup_singleton_Some in Hx as [<- <-]. by right.
Qed.
Lemma queue_fresh : outbox_fresh queue_world.
Proof. by intros i x [[-> ->]|[-> ->]]%queue_rows. Qed.
Lemma queue_new : never_attempted queue_world.
Proof. split; [|done]. by intros i x [[-> ->]|[-> ->]]%queue_rows. Qed.

Definition the_job (n : Z) : job :=
  Job 5%N n (PostWebhook WebhookDemo.config WebhookDemo.envelope).
Definition good : attempt_meta := AttemptMeta (Some 200) "" "" false None (Some 12).
Definition finished (n : Z) (w : world) : world :=
  (atomic (finish_delivery (H := demo_actions) (the_job n) true good TRIGGER_DISPATCH None) w).2.
Definition requeued (w : world) : world := set_db (set_actions (set_outbox (alter requeued_row 5%N))) w.
Definition twice : world := finished 1 (requeued (finished 0 queue_world)).
End DeliveryDemo.
Import DeliveryDemo.

Lemma delivery_history_witness :
  rtc (step (H := demo_actions)) (System queue_world [] []) (System twice [] [5%N]) ∧
  successes 5%N twice = 2 ∧ (t_attempt_number <$> attempts_of 5%N twice) = [1; 2] ∧
  ∃ x, a_outbox (acts twice) !! 5%N = Some x ∧
    x_attempt_count x ≤ Z.max 1 3 + requeues 5%N [5%N] ∧
    successes 5%N twice ≤ 1 + requeues 5%N [5%N].
Proof.
  assert (Hb : ∀ n w, atomic (begin_delivery (H := demo_actions) 5%N) w = (inr (inr (the_job n)), w) →
    ∀ rq, rtc (step (H := demo_actions)) (System w [] rq) (System (finished n w) [] rq)).
  { intros n w Hw rq. eapply rtc_l; [by apply (step_begin 5%N (the_job n))|].
    eapply rtc_l; [|done]. apply (step_finish (the_job n)). done. }
  assert (Hs : rtc (step (H := demo_actions)) (System queue_world [] []) (System twice [] [5%N])).
  { etrans; [apply (Hb 0); vm_compute; reflexivity|].
    eapply rtc_l; [apply (step_requeue 5%N)|]. apply (Hb 1). vm_compute. reflexivity. }
  split; [exact Hs|]. split; [vm_compute; reflexivity|]. split; [vm_compute; reflexivity|].
  eexists. split; [vm_compute; reflexivity|].
  pose proof (delivery_history (H := demo_actions) queue_world (System twice [] [5%N]) 5%N _
    queue_new Hs ltac:(vm_compute; reflexivity)) as (_ & Hn & Hsucc & _).
  split; [exact Hn|exact Hsucc].
Defined.
