(* ===== verification/Retries.v ===== *)
(** * Retries: what one delivery and one retry run do

    The outcome of [deliver_outbox_row] on every branch, the bounds of the delay before
    the next attempt, and the run of [retry_pending_webhooks] with one worker: it tries
    every row that is due once, until the batch is full. *)
From S2P Require Import Prelude PyStr Models PyData Quotas Backends Redact Registry Events.
From S2P Require Import Url Ssrf Wire Webhook Delivery.

(** ** The delay *)
Section delay.
Lemma backoff_doubles n : 1 ≤ n →
backoff_seconds n ≤ backoff_seconds (n + 1) ≤ 2 * backoff_seconds n.
Proof.
intros Hn. unfold backoff_seconds.
replace (Z.max 0 (n + 1 - 1)) with (Z.max 0 (n - 1) + 1) by lia.
rewrite Z.pow_add_r by lia. pose proof (Z.pow_pos_nonneg 2 (Z.max 0 (n - 1))). lia.
Qed.
Lemma backoff_bounds n : 30 ≤ backoff_seconds n ≤ 3600.
Proof.
unfold backoff_seconds. pose proof (Z.pow_pos_nonneg 2 (Z.max 0 (n - 1))). lia.
Qed.
Lemma delay_bounds n st ra :
30 ≤ compute_retry_delay_seconds n st ra (backoff_seconds n) ≤ 3600.
Proof.
pose proof (backoff_bounds n). unfold compute_retry_delay_seconds, MAX_BACKOFF_SECONDS.
destruct st, ra; try case_match; lia.
Qed.

(** The delay before the next attempt: always between thirty seconds and an hour; no
    shorter than the backoff, which starts at thirty seconds and at most doubles from one
    attempt to the next; a Retry-After on 429 or 503 is waited for, up to an hour; on every other
    answer the delay is the backoff itself. *)
Theorem retry_delay_bounds n st ra : 1 ≤ n →
let delay k := compute_retry_delay_seconds k st ra (backoff_seconds k) in
30 ≤ delay n ≤ 3600 ∧ backoff_seconds 1 = 30 ∧ backoff_seconds n ≤ delay n ∧
delay n ≤ delay (n + 1) ≤ 2 * delay n ∧
match st, ra with
| Some code, Some wait => (code = 429 ∨ code = 503 → Z.min 3600 wait ≤ delay n) ∧
                          (code ≠ 429 ∧ code ≠ 503 → delay n = backoff_seconds n)
| _, _ => delay n = backoff_seconds n
end.
Proof.
intros Hn delay. split; [apply delay_bounds|]. split; [done|]. subst delay.
pose proof (backoff_bounds n). pose proof (backoff_bounds (n + 1)). pose proof (backoff_doubles n Hn).
unfold compute_retry_delay_seconds, MAX_BACKOFF_SECONDS.
destruct st as [code|], ra as [wait|]; try (split_and!; lia).
destruct (decide (code = 429 ∨ code = 503)) as [Hc|Hc].
- rewrite bool_decide_true by set_solver. split_and!; lia.
- rewrite bool_decide_false by set_solver. split_and!; lia.
Qed.
End delay.

(** ** One delivery *)
Section deliver.
Context `{ActionSettings, Utf8, Resolver, Hmac, HttpDate, JsonLoads}.
Context (net : network) (err : string) (request_id : string) (elapsed : uuid → Z → Z).

Lemma atomic_begin i w :
atomic (begin_delivery i) w =
(inr match a_outbox (acts w) !! i with
     | None => inl None
     | Some x =>
         if (x_status x == STATUS_DELIVERED) || (x_status x == STATUS_DEAD) then inl (Some x)
         else inr (Job i (x_attempt_count x) (task_of (acts w) x))
     end, w).
Proof. reflexivity. Qed.
Lemma atomic_finish j x success meta trigger run w row' att :
a_outbox (acts w) !! j_outbox_id j = Some x → j_snapshot j = x_attempt_count x →
apply_delivery_result x (match j_task j with Refuse error => Some error | _ => None end)
  success meta trigger run w = (inr row', record_world row' att w) →
atomic (finish_delivery j success meta trigger run) w = (inr row', record_world row' att w).
Proof.
intros Hx Hs Ha. unfold atomic, finish_delivery, get_actions, gets, bind. fold (acts w).
rewrite Hx, Hs, bool_decide_true by done. cbn [negb]. by rewrite Ha.
Qed.

Lemma deliver_eq i trigger run w :
deliver_outbox_row net err request_id elapsed i trigger run w =
match a_outbox (acts w) !! i with
| None => (inr None, w)
| Some x =>
    if (x_status x == STATUS_DELIVERED) || (x_status x == STATUS_DEAD) then (inr (Some x), w)
    else
      let j := Job i (x_attempt_count x) (task_of (acts w) x) in
      match perform net err request_id elapsed j (w_now w) with
      | inl text => (inl (OtherError text), w)
      | inr (success, meta) =>
          (row <- atomic (finish_delivery j success meta trigger run) ;; ret (Some row)) w
      end
end.
Proof.
unfold deliver_outbox_row, bind at 1. rewrite atomic_begin.
destruct (a_outbox (acts w) !! i) as [x|]; [|done]. destruct (_ || _); [done|].
unfold now, gets, bind at 1. cbv beta iota zeta. by destruct (perform _ _ _ _ _ (w_now w)) as [|[]].
Qed.

Definition refused (j : job) : bool := if j_task j is Refuse _ then true else false.

(** One delivery, on every branch.  A row that is gone, delivered or dead is left
    alone.  Otherwise one attempt is recorded with the next number, whoever asked for it:
    success makes the row delivered; a refusal, a permanent failure or the last attempt
    makes it dead; any other failure schedules the next attempt after the retry delay.
    An exception the request lets through records nothing. *)
Theorem deliver_outbox_row_outcome i trigger run w :
let out := deliver_outbox_row net err request_id elapsed i trigger run w in
match a_outbox (acts w) !! i with
| None => out = (inr None, w)
| Some x =>
    if (x_status x == STATUS_DELIVERED) || (x_status x == STATUS_DEAD) then out = (inr (Some x), w)
    else
      let j := Job i (x_attempt_count x) (task_of (acts w) x) in
      match perform net err request_id elapsed j (w_now w) with
      | inl text => out = (inl (OtherError text), w)
      | inr (success, meta) =>
          ∃ row' att, out = (inr (Some row'), record_world row' att w) ∧
            outcome_of (w_now w) success (refused j || am_permanent meta)
              (am_retry_after_seconds meta) (am_http_status meta) trigger run x row' att
      end
end.
Proof.
intros out. subst out. rewrite deliver_eq.
destruct (a_outbox (acts w) !! i) as [x|] eqn:Hx; [|done].
destruct (_ || _) eqn:Hst; [done|]. set (j := Job _ _ _). cbv zeta.
destruct (perform _ _ _ _ j (w_now w)) as [text|[success meta]] eqn:Hp; [done|].
destruct (apply_records x (match j_task j with Refuse error => Some error | _ => None end)
  success meta trigger run w) as (row' & att & Hout & Heq).
unfold bind. rewrite (atomic_finish j x success meta trigger run w row' att Hx eq_refl Heq).
exists row', att. split; [done|]. unfold refused.
unfold perform in Hp. destruct (j_task j); [|exact Hout..].
injection Hp as <- <-. exact Hout.
Qed.

(** ** A retry run *)
Definition due_rows (t : datetime) (w : world) : gmap uuid action_outbox :=
filter (λ kx, due t kx.2 = true) (a_outbox (acts w)).

(** One turn of the loop. *)
Definition pass (t : datetime) (run : option Z) : prog (option (action_outbox * option action_outbox)) :=
row <- atomic (claim_next_pending_outbox (λ _, false) t) ;;
match row with
| None => ret None
| Some x =>
    after <- deliver_outbox_row net err request_id elapsed (x_id x) TRIGGER_AUTOMATIC_RETRY run ;;
    ret (Some (x, after))
end.
Lemma loop_eq n batch t run stats w :
retry_loop net err request_id elapsed (S n) batch false t run stats w =
if batch <=? rs_processed stats then (inr stats, w)
else match pass t run w with
     | (inl e, w') => (inl e, w')
     | (inr None, w') => (inr stats, w')
     | (inr (Some (x, after)), w') =>
         retry_loop net err request_id elapsed n batch false t run
           (merge stats (summarize_delivery_result (x_status x) after)) w'
     end.
Proof.
cbn [retry_loop]. destruct (batch <=? rs_processed stats); [done|]. unfold pass, bind at 1 3.
destruct (atomic _ w) as [[e|[x|]] w']; [done| |done]. unfold bind.
by destruct (deliver_outbox_row _ _ _ _ _ _ _ w') as [[e|after] w''].
Qed.

Lemma claim_eq t w :
outbox_fresh w →
due_rows t w = ∅ ∧ atomic (claim_next_pending_outbox (λ _, false) t) w = (inr None, w) ∨
∃ x, a_outbox (acts w) !! x_id x = Some x ∧ due t x = true ∧
  let x' := with_lock (w_now w) (Some (t + seconds lease_seconds)) x in
  atomic (claim_next_pending_outbox (λ _, false) t) w =
  (inr (Some x'), set_db (set_actions (set_outbox (insert (x_id x) x'))) w).
Proof.
intros Hfresh. unfold atomic, claim_next_pending_outbox, get_actions, now, modify_actions, modify_db, bind, gets.
cbv beta iota. fold (acts w). destruct (sort_by _ _) as [|x l] eqn:Hs; [left|right].
- split; [|done]. apply map_empty. intros i. apply map_lookup_filter_None. right.
  intros x Hx Hd. simpl in Hd.
  assert (Hin : x ∈ []).
  { rewrite <- Hs, elem_of_sort_by. apply list_elem_of_filter. rewrite Hd.
    split; [done|]. apply elem_of_rows. by exists i. }
  by apply elem_of_nil in Hin.
- assert (Hin : x ∈ x :: l) by left. rewrite <- Hs, elem_of_sort_by in Hin.
  apply list_elem_of_filter in Hin as [Hd Hin]. apply elem_of_rows in Hin as [i Hi].
  destruct (Hfresh i x Hi) as [<- _]. exists x. rewrite andb_true_iff in Hd.
  split_and!; [done|apply Hd|done].
Qed.

Lemma due_live t x : due t x = true → live x.
Proof.
unfold due, live. rewrite !andb_true_iff, orb_true_iff, !bool_decide_eq_true. tauto.
Qed.
Lemma live_open x : live x → (x_status x == STATUS_DELIVERED) || (x_status x == STATUS_DEAD) = false.
Proof. by intros [-> | ->]. Qed.

(** An attempt takes its row out of the rows that are due. *)
Lemma outcome_not_due t t' ok perm ra st tr run x x' att :
t ≤ t' → outcome_of t' ok perm ra st tr run x x' att → due t x' = false ∧ x_status x' ≠ STATUS_PENDING.
Proof.
intros Ht [_ _ _ _ _ Hv]. unfold due. destruct ok; [by destruct Hv as [-> _]|].
destruct Hv as (_ & _ & Hv). destruct (_ || _); [by destruct Hv as [-> _]|].
destruct Hv as [-> ->]. split; [|done]. simpl.
pose proof (delay_bounds (x_attempt_count x') st ra). unfold seconds.
rewrite (proj2 (Z.leb_gt _ _)) by lia. done.
Qed.
Lemma outcome_keys t ok perm ra st tr run x x' att :
outcome_of t ok perm ra st tr run x x' att →
x_id x' = x_id x ∧ t_outbox_id att = x_id x ∧ t_trigger att = tr ∧ t_scheduled_job_run_id att = run.
Proof. intros [Hsame _ _ Hatt _ _]. by simplify_eq. Qed.

Definition attempted (run : option Z) (t : datetime) (w w' : world) (new : list delivery_attempt) : Prop :=
a_attempts (acts w') = a_attempts (acts w) ++ new ∧ NoDup (t_outbox_id <$> new) ∧
Forall (λ att, t_trigger att = TRIGGER_AUTOMATIC_RETRY ∧ t_scheduled_job_run_id att = run ∧
  is_Some (due_rows t w !! t_outbox_id att)) new.

Lemma pass_spec t run w :
outbox_fresh w → w_now w = t →
match pass t run w with
| (inl _, w') => a_attempts (acts w') = a_attempts (acts w)
| (inr None, w') => w' = w ∧ due_rows t w = ∅
| (inr (Some (x, after)), w') =>
    ∃ x' att, after = Some x' ∧ attempted run t w w' [att] ∧ x_status x' ≠ STATUS_PENDING ∧
      due_rows t w' = delete (t_outbox_id att) (due_rows t w) ∧ outbox_fresh w' ∧ w_now w' = t ∧
      (∀ i, i ≠ t_outbox_id att → a_outbox (acts w') !! i = a_outbox (acts w) !! i)
end.
Proof.
intros Hfresh Hnow. unfold pass, bind at 1.
destruct (claim_eq t w Hfresh) as [[Hd ->]|(x & Hx & Hd & Hc)]; [done|].
cbv zeta in Hc. set (x1 := with_lock _ _ x) in *. set (w1 := set_db _ w) in *. rewrite Hc.
assert (Hx1 : a_outbox (acts w1) !! x_id x = Some x1) by apply lookup_insert_eq.
unfold bind. rewrite deliver_eq. change (x_id x1) with (x_id x). rewrite Hx1.
rewrite live_open by apply (due_live t x Hd). cbv zeta.
set (j := Job _ _ _). destruct (perform _ _ _ _ j _) as [text|[ok meta]]; [done|].
destruct (apply_records x1 (match j_task j with Refuse error => Some error | _ => None end)
  ok meta TRIGGER_AUTOMATIC_RETRY run w1) as (x' & att & Hout & Heq).
unfold bind. rewrite (atomic_finish j x1 ok meta _ run w1 x' att Hx1 eq_refl Heq).
change (w_now w1) with (w_now w) in Hout. rewrite Hnow in Hout. cbn [ret].
destruct (outcome_not_due _ _ _ _ _ _ _ _ _ _ _ (Z.le_refl t) Hout) as [Hnd Hns].
destruct (outcome_keys _ _ _ _ _ _ _ _ _ _ Hout) as (Hid & Hat & Htr & Hrun).
change (x_id x1) with (x_id x) in *.
assert (Hbox : a_outbox (acts (record_world x' att w1)) = <[x_id x := x']> (a_outbox (acts w))).
{ unfold record_world, w1, acts. simpl. by rewrite Hid, insert_insert_eq. }
exists x', att. split; [done|]. split; [|split; [done|]].
{ split; [done|]. split; [apply NoDup_singleton|]. apply Forall_singleton. rewrite Hat.
  split_and!; [done|done|]. exists x. by apply map_lookup_filter_Some_2. }
split_and!; [|intros i y Hy|done|].
- unfold due_rows. rewrite Hbox, Hat. rewrite map_filter_insert_False by (simpl; by rewrite Hnd).
  apply map_filter_delete.
- rewrite Hbox in Hy. change (w_next_uuid _) with (w_next_uuid w).
  apply lookup_insert_Some in Hy as [[<- <-]|[_ Hy]]; [|by apply Hfresh].
  split; [done|]. by destruct (Hfresh _ _ Hx).
- intros i Hi. rewrite Hbox, lookup_insert_ne; [done|congruence].
Qed.

Definition tallied (s : retry_stats) : Prop :=
rs_processed s = rs_delivered s + rs_retried s + rs_dead s.
Lemma summary_counts before x : x_status x ≠ STATUS_PENDING →
let s := summarize_delivery_result before (Some x) in rs_processed s = 1 ∧ tallied s.
Proof.
intros Hx. unfold tallied, summarize_delivery_result. by destruct (x_status x), (x_delivery_kind x).
Qed.
Lemma tally stats before x : x_status x ≠ STATUS_PENDING →
let s := merge stats (summarize_delivery_result before (Some x)) in
rs_processed s = rs_processed stats + 1 ∧ (tallied stats → tallied s).
Proof.
intros Hx. unfold tallied, summarize_delivery_result.
destruct (x_status x), (x_delivery_kind x); simpl; done || (split; [lia|intros; lia]).
Qed.

Lemma attempted_cons t run w w1 w' att new :
attempted run t w w1 [att] → due_rows t w1 = delete (t_outbox_id att) (due_rows t w) →
attempted run t w1 w' new → attempted run t w w' (att :: new).
Proof.
intros (Ha & _ & Hp) Hd (Ha' & Hnd & Hp'). rewrite Hd in Hp'. unfold attempted.
apply Forall_inv in Hp. split_and!.
- by rewrite Ha', Ha, <- app_assoc.
- rewrite fmap_cons. constructor; [|done]. intros Hin.
  apply list_elem_of_fmap in Hin as (a & Heq & Hin). rewrite Forall_forall in Hp'.
  destruct (Hp' a Hin) as (_ & _ & [y Hy]). rewrite <- Heq, lookup_delete_eq in Hy. done.
- constructor; [exact Hp|]. eapply Forall_impl; [exact Hp'|]. intros a (? & ? & [y Hy]). split_and!; [done..|].
  apply lookup_delete_Some in Hy as [_ Hy]. by exists y.
Qed.

(** What a run leaves behind: [r] is its result, [w'] the world after it. *)
Definition run_result (ticks : nat) (batch t : Z) (run : option Z) (stats : retry_stats) (w : world)
  (r : exn + retry_stats) (w' : world) : Prop :=
∃ new, attempted run t w w' new ∧
  (length new ≤ size (due_rows t w))%nat ∧
  match r with
  | inl _ => True
  | inr s => rs_processed s = rs_processed stats + Z.of_nat (length new) ∧ (tallied stats → tallied s) ∧
      (∀ i, i ∉ t_outbox_id <$> new → a_outbox (acts w') !! i = a_outbox (acts w) !! i) ∧
      ((size (due_rows t w) ≤ ticks)%nat →
       Z.of_nat (length new) = Z.min (Z.max 0 (batch - rs_processed stats)) (Z.of_nat (size (due_rows t w))))
  end.

Lemma stop_here ticks batch t run stats w :
batch <= rs_processed stats ∨ due_rows t w = ∅ ∨ ticks = O →
run_result ticks batch t run stats w (inr stats) w.
Proof.
intros Hstop. exists []. unfold attempted. rewrite app_nil_r. simpl. rewrite Z.add_0_r.
split_and!; [done|constructor|constructor|lia|done|done|done|].
intros Hs. destruct Hstop as [?|[-> | ->]]; [|rewrite map_size_empty|]; lia.
Qed.

Lemma loop_spec ticks batch t run stats w :
outbox_fresh w → w_now w = t →
let '(r, w') := retry_loop net err request_id elapsed ticks batch false t run stats w in
run_result ticks batch t run stats w r w'.
Proof.
revert stats w. induction ticks as [|n IH]; intros stats w Hfresh Hnow.
{ apply stop_here. auto. }
rewrite loop_eq. destruct (batch <=? rs_processed stats) eqn:Hb.
{ apply stop_here. left. by apply Z.leb_le. }
apply Z.leb_gt in Hb. pose proof (pass_spec t run w Hfresh Hnow) as Hpass.
destruct (pass t run w) as [[e|[[x after]|]] w1].
- exists []. unfold attempted. rewrite Hpass, app_nil_r. simpl. split_and!; [done|constructor|constructor|lia|done].
- destruct Hpass as (x' & att & -> & Hat & Hns & Hdue & Hfresh1 & Hnow1 & Hrest).
  destruct (tally stats (x_status x) x' Hns) as [Hp Ht].
  set (s1 := merge stats _) in *. specialize (IH s1 w1 Hfresh1 Hnow1).
  destruct (retry_loop _ _ _ _ n _ _ _ _ s1 w1) as [r w']. destruct IH as (new & Hnew & Hlen & Hr).
  assert (Hsize : size (due_rows t w) = S (size (due_rows t w1))).
  { rewrite Hdue. destruct Hat as (_ & _ & Hat). apply Forall_inv in Hat as (_ & _ & Hy).
    rewrite map_size_delete_Some by done. apply map_size_ne_0_lookup_2 in Hy. lia. }
  exists (att :: new). split; [by eapply attempted_cons|]. rewrite Hsize. simpl. split; [lia|].
  destruct r as [e|s]; [done|]. destruct Hr as (Hps & Hts & Hkeep & Hmin). split_and!; [lia|auto| |lia].
  intros i Hi. apply not_elem_of_cons in Hi as [Hi1 Hi2]. rewrite Hkeep by done. by apply Hrest.
- destruct Hpass as [-> Hd]. apply stop_here. auto.
Qed.

(** One retry run with one worker, when no request lets an exception through, ends
    after at most as many passes as rows are due, and in these passes tries each of them
    exactly once, up to the batch size: the new attempts are automatic retries of
    distinct due rows and carry the number of the run; all other rows stay as they are;
    and the statistics count the attempts, each as delivered, retried or dead.  Even when
    an exception ends the run early, no row was tried twice. *)
Theorem retry_run ticks batch run w :
outbox_fresh w →
let '(r, w') := retry_pending_webhooks net err request_id elapsed ticks batch false run w in
∃ new, attempted run (w_now w) w w' new ∧
  match r with
  | inl _ => True
  | inr stats =>
      rs_processed stats = Z.of_nat (length new) ∧
      rs_processed stats = rs_delivered stats + rs_retried stats + rs_dead stats ∧
      (∀ i, i ∉ t_outbox_id <$> new → a_outbox (acts w') !! i = a_outbox (acts w) !! i) ∧
      ((size (due_rows (w_now w) w) ≤ ticks)%nat →
       Z.of_nat (length new) = Z.min (Z.max 0 batch) (Z.of_nat (size (due_rows (w_now w) w))))
  end.
Proof.
intros Hfresh. pose proof (loop_spec ticks batch (w_now w) run empty_retry_stats w Hfresh eq_refl) as Hl.
unfold retry_pending_webhooks, now, gets, bind.
destruct (retry_loop _ _ _ _ ticks _ _ _ _ _ w) as [r w'].
destruct Hl as (new & Hnew & _ & Hr). exists new. split; [done|]. destruct r as [|s]; [done|].
destruct Hr as (Hp & Ht & Hkeep & Hmin). split_and!; [exact Hp|by apply Ht|done|].
intros Hs. rewrite (Hmin Hs). cbn [rs_processed empty_retry_stats]. by rewrite Z.sub_0_r.
Qed.
End deliver.

Import WebhookDemo DeliveryDemo.
Lemma retry_delay_bounds_witness :
  30 ≤ compute_retry_delay_seconds 3 (Some 429) (Some 900) (backoff_seconds 3) ≤ 3600 ∧
  compute_retry_delay_seconds 3 (Some 429) (Some 900) (backoff_seconds 3) = 900.
Proof.
  destruct (retry_delay_bounds 3 (Some 429) (Some 900)) as [H _]; [lia|]. split; [exact H|reflexivity].
Defined.

(** Both rows are due; the network refuses: each is tried once and will be tried again. *)
Definition demo_run (batch : Z) (dry_run : bool) (w : world) :=
  retry_pending_webhooks refusing "" "-" (λ _ _, 5) 8 batch dry_run (Some 1) w.
Lemma retry_run_witness :
  ∃ new, attempted (Some 1) 1000 queue_world (demo_run 50 false queue_world).2 new ∧
    length new = 2%nat ∧
    (demo_run 50 false queue_world).1 = inr (RetryStats 2 0 2 0 1 0 1 0).
Proof.
  pose proof (retry_run refusing "" "-" (λ _ _, 5) 8 50 (Some 1) queue_world queue_fresh) as Hr.
  fold (demo_run 50 false queue_world) in Hr.
  assert (Hs : (demo_run 50 false queue_world).1 = inr (RetryStats 2 0 2 0 1 0 1 0)) by (vm_compute; reflexivity).
  destruct (demo_run 50 false queue_world) as [r w']. simpl in Hs |- *. subst r.
  destruct Hr as (new & Hnew & Hp & _). exists new. split; [exact Hnew|]. split; [|reflexivity].
  simpl in Hp. lia.
Defined.
(** A dry run releases the row it has counted and claims it again: one due row fills the
    batch. *)
Example dry_run_counts_one_row_again :
  size (due_rows 1000 (set_db (set_actions (delete_outbox_row 6%N)) queue_world)) = 1%nat ∧
  (demo_run 3 true (set_db (set_actions (delete_outbox_row 6%N)) queue_world)).1 =
  inr (RetryStats 3 0 0 0 0 0 0 0).
Proof. split; vm_compute; reflexivity. Qed.
