(* ===== verification/RetryPool.v ===== *)
(** * RetryPool: a retry run with a pool of workers

    [retry_pending_webhooks] with more than one worker, which is the default.  The main
    thread claims rows and hands each to a worker of a [ThreadPoolExecutor]; a worker runs
    [deliver_outbox_row], two transactions around one request.  The state of the run holds
    the futures in flight; a schedule, any list of events, says who moves next, when the
    clock advances and when the deadline passes.  An event that is not enabled changes
    nothing.  Other processes are not part of this model: [Delivery.delivery_history]
    interleaves them. *)
From S2P Require Import Prelude PyStr Models PyData Quotas Backends Redact Registry Events.
From S2P Require Import Url Ssrf Wire Webhook Delivery Retries.

(** ** The state of a run *)
(** What a worker has done: nothing; its first transaction, with the time at which the
    request was sent; everything, with the result of the future. *)
Inductive work := Queued | Requesting (j : job) (sent : datetime) | Ended (r : exn + retry_stats).
Record future := Future { f_row : uuid; f_before : outbox_status; f_work : work }.

(** Where the main thread is: in the first loop; in the [wait] of that loop when no row is
    left to claim; in the second loop; in [executor.shutdown(wait=True)]; done. *)
Inductive run_stage :=
| Looping
| Waiting
| Draining
| Closing (r : exn + retry_stats)
| Returned (r : exn + retry_stats).
(** Before the deadline; after it; more than a second after it. *)
Inductive moment := Early | Late | Over.

Record pool := Pool {
  p_world : world;
  p_stats : retry_stats;
  p_futures : list future;      (** [in_flight], in the order of submission *)
  p_stage : run_stage;
  p_moment : moment }.
Definition set_stage (s : run_stage) (p : pool) : pool :=
  Pool (p_world p) (p_stats p) (p_futures p) s (p_moment p).
Definition set_world (w : world) (p : pool) : pool :=
  Pool w (p_stats p) (p_futures p) (p_stage p) (p_moment p).

Definition ended (f : future) : bool := if f_work f is Ended _ then true else false.
Definition succeeded (f : future) : bool := if f_work f is Ended (inr _) then true else false.

(** [_merge(fut.result())] for each future that is done: the first exception leaves. *)
Fixpoint merge_results (stats : retry_stats) (l : list future) : exn + retry_stats :=
  match l with
  | [] => inr stats
  | f :: l' =>
      match f_work f with
      | Ended (inl e) => inl e
      | Ended (inr d) => merge_results (merge stats d) l'
      | _ => merge_results stats l'
      end
  end.
(** What follows a [wait]: the futures that are done are merged and dropped. *)
Definition collect_done (next : run_stage) (p : pool) : pool :=
  match merge_results (p_stats p) (p_futures p) with
  | inl e => set_stage (Closing (inl e)) p
  | inr stats =>
      Pool (p_world p) stats (filter (λ f, ended f = false) (p_futures p)) next (p_moment p)
  end.

(** Who moves next: the clock by some microseconds, the deadline, a worker, the main
    thread. *)
Inductive event := Clock (n : N) | Deadline | Worker (k : nat) | Main.

Section pool.
Context `{ActionSettings, Utf8, Resolver, Hmac, HttpDate, JsonLoads}.
Context (net : network) (err : string) (request_id : string) (elapsed : uuid → Z → Z).
Context (batch_size workers : Z) (dry_run : bool) (t : datetime) (run : option Z).

(** [_worker] *)
Definition work_pass (f : future) (w : world) : world * work :=
  match f_work f with
  | Queued =>
      match atomic (begin_delivery (f_row f)) w with
      | (inl e, w') => (w', Ended (inl e))
      | (inr (inl row), w') => (w', Ended (inr (summarize_delivery_result (f_before f) row)))
      | (inr (inr j), w') => (w', Requesting j (w_now w'))
      end
  | Requesting j sent =>
      match perform net err request_id elapsed j sent with
      | inl text => (w, Ended (inl (OtherError text)))
      | inr (success, meta) =>
          match atomic (finish_delivery j success meta TRIGGER_AUTOMATIC_RETRY run) w with
          | (inl e, w') => (w', Ended (inl e))
          | (inr row, w') => (w', Ended (inr (summarize_delivery_result (f_before f) (Some row))))
          end
      end
  | Ended r => (w, Ended r)
  end.
Definition worker_pass (k : nat) (p : pool) : pool :=
  match p_futures p !! k with
  | Some f =>
      let '(w, work) := work_pass f (p_world p) in
      Pool w (p_stats p) (<[k := Future (f_row f) (f_before f) work]> (p_futures p)) (p_stage p) (p_moment p)
  | None => p
  end.

(** A pass of the first loop, before the deadline and with room in the batch. *)
Definition claim_pass (p : pool) : pool :=
  if workers <=? Z.of_nat (length (p_futures p)) then collect_done Looping p
  else
    match atomic (claim_next_pending_outbox (λ _, false) t) (p_world p) with
    | (inl e, w) => set_stage (Closing (inl e)) (set_world w p)
    | (inr None, w) =>
        set_stage (match p_futures p with [] => Draining | _ => Waiting end) (set_world w p)
    | (inr (Some x), w) =>
        if dry_run then
          Pool (set_db (set_actions (set_outbox (alter (λ y, with_lock (x_updated_at y) None y) (x_id x)))) w)
            (merge (p_stats p) (RetryStats 1 0 0 0 (if x_delivery_kind x == KIND_EMAIL then 1 else 0) 0 0 0))
            (p_futures p) Looping (p_moment p)
        else
          Pool w (p_stats p) (p_futures p ++ [Future (x_id x) (x_status x) Queued]) Looping (p_moment p)
    end.
Definition main_pass (p : pool) : pool :=
  match p_stage p with
  | Looping =>
      match p_moment p with
      | Early => if rs_processed (p_stats p) <? batch_size then claim_pass p else set_stage Draining p
      | _ => set_stage Draining p
      end
  | Waiting =>
      match p_moment p with
      | Early => if existsb ended (p_futures p) then collect_done Looping p else p
      | _ => collect_done Looping p
      end
  | Draining =>
      match p_futures p, p_moment p with
      | [], _ | _, Over => set_stage (Closing (inr (p_stats p))) p
      | _, Late => if existsb ended (p_futures p) then collect_done Draining p
                   else set_stage (Closing (inr (p_stats p))) p
      | _, Early => if forallb ended (p_futures p) then collect_done Draining p else p
      end
  | Closing r => if forallb ended (p_futures p) then set_stage (Returned r) p else p
  | Returned _ => p
  end.

Definition pool_step (p : pool) (e : event) : pool :=
  match e with
  | Clock n =>
      let w := p_world p in
      set_world (World (w_db w) (w_blobs w) (w_now w + Z.of_N n) (w_next_uuid w)) p
  | Deadline =>
      Pool (p_world p) (p_stats p) (p_futures p) (p_stage p)
        (match p_moment p with Early => Late | _ => Over end)
  | Worker k => worker_pass k p
  | Main => main_pass p
  end.
End pool.

(** The run under a schedule; [now] is read once, before the loop. *)
Definition retry_pool `{ActionSettings, Utf8, Resolver, Hmac, HttpDate, JsonLoads} net err request_id elapsed
  (batch_size workers : Z) (dry_run : bool) (run : option Z) (schedule : list event) (w : world) : pool :=
  foldl (pool_step net err request_id elapsed batch_size workers dry_run (w_now w) run)
    (Pool w empty_retry_stats [] Looping Early) schedule.

(** ** The invariant of a run *)
Section invariant.
Context `{ActionSettings, Utf8, Resolver, Hmac, HttpDate, JsonLoads}.
Context (net : network) (err : string) (request_id : string) (elapsed : uuid → Z → Z).
Context (batch_size workers : Z) (t : datetime) (run : option Z) (w0 : world).
Context (Hlease : 0 < lease_seconds) (Hworkers : 0 < workers).

(** What a future knows of its row. *)
Definition future_ok (w : world) (f : future) : Prop :=
  match f_work f with
  | Queued => ∃ x, a_outbox (acts w) !! f_row f = Some x ∧ live x
  | Requesting j _ => j_outbox_id j = f_row f ∧
      ∃ x, a_outbox (acts w) !! f_row f = Some x ∧ x_attempt_count x = j_snapshot j
  | Ended (inr s) => rs_processed s = 1 ∧ tallied s
  | Ended (inl _) => True
  end.
Definition claimed (merged : list uuid) (p : pool) : list uuid := merged ++ (f_row <$> p_futures p).
Definition by_this_run (att : delivery_attempt) : Prop :=
  t_trigger att = TRIGGER_AUTOMATIC_RETRY ∧ t_scheduled_job_run_id att = run.
(** Nothing is left to claim. *)
Definition exhausted (merged : list uuid) (p : pool) : Prop :=
  batch_size ≤ rs_processed (p_stats p) ∨ ∀ i, is_Some (due_rows t w0 !! i) → i ∈ claimed merged p.
Definition stage_ok (merged : list uuid) (p : pool) : Prop :=
  match p_stage p with
  | Looping => True
  | Waiting => p_futures p ≠ []
  | Draining => p_moment p = Early → exhausted merged p
  | Closing r | Returned r =>
      (∀ s, r = inr s → s = p_stats p ∧ (p_moment p = Early → p_futures p = [] ∧ exhausted merged p)) ∧
      (p_stage p = Returned r → forallb ended (p_futures p) = true)
  end.

(** [merged]: the rows whose results are in the statistics; [new]: the attempts so far. *)
Record pool_inv (merged : list uuid) (new : list delivery_attempt) (p : pool) : Prop := PoolInv {
  pi_nodup : NoDup (claimed merged p);
  pi_due : ∀ i, i ∈ claimed merged p → is_Some (due_rows t w0 !! i);
  pi_others : ∀ i, i ∉ claimed merged p → a_outbox (acts (p_world p)) !! i = a_outbox (acts w0) !! i;
  pi_leased : ∀ i x, i ∈ claimed merged p → a_outbox (acts (p_world p)) !! i = Some x → due t x = false;
  pi_fresh : outbox_fresh (p_world p);
  pi_now : t ≤ w_now (p_world p);
  pi_attempts : a_attempts (acts (p_world p)) = a_attempts (acts w0) ++ new;
  pi_new : t_outbox_id <$> new ≡ₚ merged ++ (f_row <$> filter (λ f, succeeded f = true) (p_futures p));
  pi_run : Forall by_this_run new;
  pi_futures : Forall (future_ok (p_world p)) (p_futures p);
  pi_stats : rs_processed (p_stats p) = Z.of_nat (length merged) ∧ tallied (p_stats p);
  pi_room : claimed merged p = [] ∨
    0 < batch_size ∧ Z.of_nat (length (claimed merged p)) ≤ batch_size + workers - 1;
  pi_stage : stage_ok merged p }.

Lemma future_ok_frame w w' f :
  a_outbox (acts w') !! f_row f = a_outbox (acts w) !! f_row f → future_ok w f → future_ok w' f.
Proof. intros He. unfold future_ok. by rewrite He. Qed.

(** *** The main thread *)
Lemma merge_results_spec w l stats :
  Forall (future_ok w) l →
  match merge_results stats l with
  | inl _ => True
  | inr s =>
      rs_processed s = rs_processed stats + Z.of_nat (length (filter (λ f, ended f = true) l)) ∧
      (tallied stats → tallied s) ∧
      filter (λ f, succeeded f = true) l = filter (λ f, ended f = true) l
  end.
Proof.
  revert stats. induction l as [|f l IH]; intros stats Hl; [simpl; split_and!; [lia|done..]|].
  apply Forall_cons in Hl as [Hf Hl]. simpl. rewrite !filter_cons. unfold ended, succeeded, future_ok in *.
  destruct (f_work f) as [|j sent|[e|d]]; [exact (IH stats Hl)..|done|].
  destruct Hf as [Hp Ht]. specialize (IH (merge stats d) Hl).
  destruct (merge_results (merge stats d) l) as [e|s]; [done|]. destruct IH as (Hs & Htl & Hfl).
  rewrite !decide_True by done. rewrite Hfl. simpl. split_and!; [rewrite Hs; simpl; lia| |done].
  intros Hts. apply Htl. unfold tallied in *. simpl. lia.
Qed.

Lemma claimed_collect merged (p : pool) :
  merged ++ (f_row <$> filter (λ f, ended f = true) (p_futures p)) ++
    (f_row <$> filter (λ f, ended f = false) (p_futures p)) ≡ₚ claimed merged p.
Proof.
  unfold claimed. apply Permutation_app_head. induction (p_futures p) as [|f l IH]; [done|].
  rewrite !filter_cons. destruct (ended f); rewrite ?decide_True, ?decide_False by done; simpl.
  - by constructor.
  - by rewrite <- Permutation_middle, IH.
Qed.
Lemma running_none (l : list future) :
  filter (λ f, succeeded f = true) (filter (λ f, ended f = false) l) = [].
Proof.
  rewrite list_filter_filter. induction l as [|f l IH]; [done|]. rewrite filter_cons, decide_False, IH; [done|].
  unfold ended, succeeded. by destruct (f_work f) as [| |[]]; intros [].
Qed.

Lemma collect_ok merged new next p :
  pool_inv merged new p → next = Looping ∨ next = Draining ∧ p_stage p = Draining →
  ∃ merged', pool_inv merged' new (collect_done next p).
Proof.
  intros [Hnd Hdue Hoth Hleased Hfresh Hnow Hat Hnew Hrun Hfut [Hstats Htally] Hroom Hstage] Hnext.
  unfold collect_done. pose proof (merge_results_spec (p_world p) (p_futures p) (p_stats p) Hfut) as Hm.
  destruct (merge_results _ _) as [e|stats].
  { exists merged. by split. }
  destruct Hm as (Hp & Ht & Hfl). set (p' := Pool _ _ _ _ _).
  set (merged' := merged ++ (f_row <$> filter (λ f, ended f = true) (p_futures p))). exists merged'.
  assert (Hperm : claimed merged' p' ≡ₚ claimed merged p).
  { rewrite <- (claimed_collect merged p), app_assoc. done. }
  assert (Hex : exhausted merged p → exhausted merged' p').
  { intros [Hb|Hall]; [left; simpl; lia|right; intros i Hi; rewrite Hperm; auto]. }
  split; try done.
  - by rewrite Hperm.
  - intros i. rewrite Hperm. apply Hdue.
  - intros i. rewrite Hperm. apply Hoth.
  - intros i x. rewrite Hperm. apply Hleased.
  - simpl. rewrite Hnew, Hfl, running_none. simpl. unfold merged'. by rewrite app_nil_r.
  - simpl. apply Forall_forall. intros f Hf. apply list_elem_of_filter in Hf as [_ Hf].
    rewrite Forall_forall in Hfut. by apply Hfut.
  - simpl. split; [|by apply Ht]. unfold merged'. rewrite length_app, length_fmap. lia.
  - destruct Hroom as [Hr|Hr]; [left|right; by rewrite (Permutation_length Hperm)].
    rewrite Hr in Hperm. by apply Permutation_nil_r in Hperm.
  - destruct Hnext as [-> | [-> Hs]]; [done|]. unfold stage_ok in Hstage |- *. rewrite Hs in Hstage.
    intros Hearly. by apply Hex, Hstage.
Qed.

Lemma stage_move merged new s p :
  pool_inv merged new p → stage_ok merged (set_stage s p) → pool_inv merged new (set_stage s p).
Proof. by intros [] ?; split. Qed.

Lemma leased_not_due u x : due t (with_lock u (Some (t + seconds lease_seconds)) x) = false.
Proof.
  unfold due. simpl. rewrite (proj2 (Z.leb_gt _ _)); [by rewrite andb_false_r|]. unfold seconds. lia.
Qed.
Lemma due_cases w i x : a_outbox (acts w) !! i = Some x → due t x = true → due_rows t w !! i = Some x.
Proof. intros. by apply map_lookup_filter_Some_2. Qed.

(** A claimed row is due, was so at the start, and is not claimed again. *)
Lemma pool_claim_ok merged new p :
  pool_inv merged new p → p_stage p = Looping → p_moment p = Early → rs_processed (p_stats p) < batch_size →
  ∃ merged', pool_inv merged' new (claim_pass workers false t p).
Proof.
  intros Hinv Hs Hm Hb. unfold claim_pass. destruct (Z.leb_spec workers (Z.of_nat (length (p_futures p)))) as [|Hw].
  { apply (collect_ok merged); auto. }
  exists merged. destruct Hinv as [Hnd Hdue Hoth Hleased Hfresh Hnow Hat Hnew Hrun Hfut Hstats Hroom Hstage].
  destruct (claim_eq t (p_world p) Hfresh) as [[Hnone ->]|(x & Hx & Hd & Hc)].
  { replace (set_world (p_world p) p) with p by (by destruct p). apply stage_move; [by split|].
    unfold stage_ok. simpl. destruct (p_futures p) as [|f l]; [|done]. intros _. right. intros i Hi.
    destruct (decide (i ∈ claimed merged p)) as [|Hni]; [done|]. destruct Hi as [x Hi].
    apply map_lookup_filter_Some in Hi as [Hi Hd]. rewrite <- Hoth in Hi by done.
    pose proof (due_cases _ _ _ Hi Hd) as Hl. by rewrite Hnone, lookup_empty in Hl. }
  cbv zeta in Hc. rewrite Hc. set (x' := with_lock _ _ x) in *. set (w' := set_db _ _). set (p' := Pool _ _ _ _ _).
  assert (Hni : x_id x ∉ claimed merged p) by (intros Hi; specialize (Hleased _ _ Hi Hx); congruence).
  assert (Hcl : claimed merged p' = claimed merged p ++ [x_id x]).
  { unfold claimed. simpl. by rewrite fmap_app, app_assoc. }
  assert (Hbox : a_outbox (acts w') = <[x_id x := x']> (a_outbox (acts (p_world p)))) by done.
  split; try done; rewrite ?Hcl.
  - apply NoDup_app. split_and!; [done| |apply NoDup_singleton].
    intros i Hi ->%list_elem_of_singleton. done.
  - intros i [Hi|Hi%list_elem_of_singleton]%elem_of_app; [by apply Hdue|]. subst i.
    exists x. apply due_cases; [|done]. by rewrite <- Hoth.
  - intros i [Hi Hne]%not_elem_of_app. rewrite list_elem_of_singleton in Hne.
    change (p_world p') with w'. rewrite Hbox, lookup_insert_ne by done. by apply Hoth.
  - intros i y Hi. change (p_world p') with w'. rewrite Hbox. intros [[<- <-]|[Hne Hy]]%lookup_insert_Some.
    + apply leased_not_due.
    + apply elem_of_app in Hi as [Hi|Hi%list_elem_of_singleton]; [by eapply Hleased|congruence].
  - intros i y. change (p_world p') with w'. rewrite Hbox.
    intros [[<- <-]|[Hne Hy]]%lookup_insert_Some; [|by apply Hfresh]. split; [done|]. by destruct (Hfresh _ _ Hx).
  - simpl. by rewrite filter_app, app_nil_r.
  - simpl. apply Forall_app. split.
    + rewrite Forall_forall in Hfut |- *. intros f Hf. eapply future_ok_frame; [|by apply Hfut].
      change (p_world p') with w'. rewrite Hbox, lookup_insert_ne; [done|]. intros He. apply Hni. rewrite He.
      apply elem_of_app. right. by apply list_elem_of_fmap_2.
    + apply Forall_singleton. exists x'. split; [apply lookup_insert_eq|]. by apply (due_live t x Hd).
  - right. destruct Hstats as [Hst _]. rewrite length_app. simpl. unfold claimed. rewrite length_app, length_fmap. lia.
Qed.

(** *** The workers *)
Lemma futures_split (l : list future) k f f' :
  l !! k = Some f → ∃ l1 l2, l = l1 ++ f :: l2 ∧ <[k := f']> l = l1 ++ f' :: l2.
Proof.
  intros Hk. exists (take k l), (drop (S k) l). rewrite take_drop_middle by done. split; [done|].
  apply insert_take_drop. by eapply lookup_lt_Some.
Qed.

(** A future moves on: the world may change in its row, and gains its attempt when it
    ends well. *)
Lemma future_moves merged new p k f wk w' extra :
  pool_inv merged new p → p_futures p !! k = Some f → ended f = false →
  let f' := Future (f_row f) (f_before f) wk in
  future_ok w' f' → a_attempts (acts w') = a_attempts (acts (p_world p)) ++ extra →
  (t_outbox_id <$> extra) = (if succeeded f' then [f_row f] else []) → Forall by_this_run extra →
  (∀ i, i ≠ f_row f → a_outbox (acts w') !! i = a_outbox (acts (p_world p)) !! i) →
  (∀ x, a_outbox (acts w') !! f_row f = Some x → due t x = false) → outbox_fresh w' → t ≤ w_now w' →
  pool_inv merged (new ++ extra) (Pool w' (p_stats p) (<[k := f']> (p_futures p)) (p_stage p) (p_moment p)).
Proof.
  intros [Hnd Hdue Hoth Hleased Hfresh Hnow Hat Hnew Hrun Hfut Hstats Hroom Hstage] Hk He f' Hf' Hat' Hex Hbr
    Hsame Hrow Hfresh' Hnow'.
  destruct (futures_split _ _ _ f' Hk) as (l1 & l2 & Hl & Hl'). set (p' := Pool _ _ _ _ _).
  assert (Hcl : claimed merged p' = claimed merged p).
  { unfold claimed. cbn [p_futures p']. by rewrite Hl', Hl, !fmap_app. }
  assert (Hin : f_row f ∈ claimed merged p).
  { apply elem_of_app. right. apply list_elem_of_fmap_2. by eapply list_elem_of_lookup_2. }
  split; rewrite ?Hcl; try done.
  - intros i Hi. change (p_world p') with w'. rewrite Hsame; [by apply Hoth|]. by intros ->.
  - intros i x Hi. change (p_world p') with w'. destruct (decide (i = f_row f)) as [->|Hne]; [by apply Hrow|].
    rewrite Hsame by done. by apply Hleased.
  - change (p_world p') with w'. by rewrite Hat', Hat, app_assoc.
  - rewrite fmap_app, Hnew, Hex. cbn [p_futures p']. rewrite Hl', Hl, !filter_app, !filter_cons.
    assert (Hsf : succeeded f = false) by (unfold ended, succeeded in *; by destruct (f_work f) as [| |[]]).
    rewrite Hsf. rewrite decide_False by done. destruct (succeeded f').
    + rewrite decide_True by done. rewrite !fmap_app, fmap_cons, <- !app_assoc. do 2 apply Permutation_app_head.
      apply Permutation_sym, Permutation_cons_append.
    + rewrite decide_False by done. by rewrite app_nil_r.
  - by apply Forall_app.
  - cbn [p_futures p' p_world]. rewrite Hl'. rewrite Hl in Hfut. apply Forall_app in Hfut as [Hfl1 Hfl2].
    apply Forall_cons in Hfl2 as [_ Hfl2]. unfold claimed in Hnd. rewrite Hl, fmap_app, fmap_cons in Hnd.
    apply NoDup_app in Hnd as (_ & _ & Hnd). apply NoDup_app in Hnd as (_ & Hn1 & Hn2).
    apply NoDup_cons in Hn2 as [Hn2 _].
    assert (Hframe : ∀ l, f_row f ∉ f_row <$> l → Forall (future_ok (p_world p)) l → Forall (future_ok w') l).
    { intros l Hni Hfl. rewrite Forall_forall in Hfl |- *. intros g Hg. eapply future_ok_frame; [|by apply Hfl].
      apply Hsame. intros Heq. apply Hni. rewrite <- Heq. by apply list_elem_of_fmap_2. }
    apply Forall_app. split; [apply Hframe; [|done]; intros Hi; apply (Hn1 _ Hi); by left|].
    constructor; [done|]. by apply Hframe.
  - unfold stage_ok in *. change (p_stage p') with (p_stage p). change (p_moment p') with (p_moment p).
    assert (Hne : p_futures p ≠ []) by (by intros Hnil; rewrite Hnil in Hk).
    assert (Hall : forallb ended (p_futures p) = true → False).
    { intros Hall. rewrite forallb_forall in Hall. rewrite Hall in He; [done|]. apply list_elem_of_In.
      by eapply list_elem_of_lookup_2. }
    unfold exhausted in *. rewrite Hcl. cbn [p_futures p' p_stats]. destruct (p_stage p) as [| | |r|r].
    + done.
    + intros Hnil. rewrite Hnil in Hl'. by destruct l1.
    + done.
    + destruct Hstage as [Hr _]. split; [|done]. intros s' Hs'. destruct (Hr s' Hs') as [-> Hemp].
      split; [done|]. intros Hearly. by destruct (Hemp Hearly).
    + destruct Hstage as [_ Hr]. by destruct (Hall (Hr eq_refl)).
Qed.

Lemma worker_ok merged new p k :
  pool_inv merged new p →
  ∃ new', pool_inv merged new' (worker_pass net err request_id elapsed run k p).
Proof.
  intros Hinv. unfold worker_pass. destruct (p_futures p !! k) as [f|] eqn:Hk; [|by exists new].
  pose proof (pi_futures _ _ _ Hinv) as Hfut. rewrite Forall_forall in Hfut.
  pose proof (list_elem_of_lookup_2 _ _ _ Hk) as Hin. specialize (Hfut f Hin). unfold future_ok in Hfut.
  assert (Hc : f_row f ∈ claimed merged p) by (apply elem_of_app; right; by apply list_elem_of_fmap_2).
  pose proof (λ x, pi_leased _ _ _ Hinv _ x Hc) as Hleased.
  pose proof (pi_fresh _ _ _ Hinv) as Hfresh. pose proof (pi_now _ _ _ Hinv) as Hnow.
  unfold work_pass. destruct (f_work f) as [|j sent|r] eqn:Hw.
  - destruct Hfut as (x & Hx & Hl). rewrite atomic_begin, Hx, live_open by done. exists (new ++ []).
    apply (future_moves merged new p k f _ (p_world p) []); try done; [by unfold ended; rewrite Hw| |by rewrite app_nil_r].
    simpl. split; [done|]. by exists x.
  - destruct Hfut as (Hj & x & Hx & Hn). destruct (perform _ _ _ _ j sent) as [text|[ok meta]].
    { exists (new ++ []). apply (future_moves merged new p k f _ (p_world p) []); try done;
        [by unfold ended; rewrite Hw|by rewrite app_nil_r]. }
    destruct (apply_records x (match j_task j with Refuse error => Some error | _ => None end)
      ok meta TRIGGER_AUTOMATIC_RETRY run (p_world p)) as (x' & att & Hout & Heq).
    rewrite <- Hj in Hx.
    rewrite (atomic_finish j x ok meta _ run (p_world p) x' att Hx (eq_sym Hn) Heq).
    destruct (outcome_not_due t _ _ _ _ _ _ _ _ _ _ Hnow Hout) as [Hnd Hns].
    destruct (outcome_keys _ _ _ _ _ _ _ _ _ _ Hout) as (Hid & Hta & Htr & Hru).
    destruct (Hfresh _ _ Hx) as [Hxid _]. rewrite Hj in *.
    assert (Hbox : a_outbox (acts (record_world x' att (p_world p))) = <[f_row f := x']> (a_outbox (acts (p_world p)))).
    { unfold record_world, acts. simpl. by rewrite Hid, Hxid. }
    exists (new ++ [att]). apply (future_moves merged new p k f); try done.
    + by unfold ended; rewrite Hw.
    + by apply summary_counts.
    + simpl. by rewrite Hta, Hxid.
    + by apply Forall_singleton.
    + intros i Hi. by rewrite Hbox, lookup_insert_ne.
    + intros y. rewrite Hbox, lookup_insert_eq. by intros [= <-].
    + intros i y. rewrite Hbox. intros [[<- <-]|[_ Hy]]%lookup_insert_Some; [|by apply Hfresh].
      split; [congruence|]. by destruct (Hfresh _ _ Hx).
  - exists new. destruct f as [i b wk]. simpl in *. subst wk. rewrite list_insert_id by done. by destruct p.
Qed.

Local Abbreviation step := (pool_step net err request_id elapsed batch_size workers false t run).
Lemma main_ok merged new p :
  pool_inv merged new p → ∃ merged', pool_inv merged' new (main_pass batch_size workers false t p).
Proof.
  intros Hinv. pose proof (pi_stage _ _ _ Hinv) as Hstage. unfold stage_ok in Hstage.
  unfold main_pass. destruct (p_stage p) as [| | |r|r] eqn:Hs.
  - destruct (p_moment p) eqn:Hm; [destruct (Z.ltb_spec (rs_processed (p_stats p)) batch_size) as [Hb|Hb]|..].
    + by apply (pool_claim_ok merged).
    + exists merged. apply stage_move; [done|]. intros _. by left.
    + exists merged. apply stage_move; [done|]. unfold stage_ok. simpl. congruence.
    + exists merged. apply stage_move; [done|]. unfold stage_ok. simpl. congruence.
  - destruct (p_moment p); [destruct (existsb ended (p_futures p))|..]; [|by exists merged|..];
      apply (collect_ok merged); auto.
  - assert (Hclose : (p_moment p = Early → p_futures p = []) →
      pool_inv merged new (set_stage (Closing (inr (p_stats p))) p)).
    { intros Hemp. apply stage_move; [done|]. split; [|done]. intros s [= <-]. split; [done|]. auto. }
    destruct (p_futures p) as [|f l] eqn:Hf; [exists merged; by apply Hclose|].
    destruct (p_moment p) eqn:Hm; simpl.
    + case_match; [apply (collect_ok merged); auto|by exists merged].
    + case_match; [apply (collect_ok merged); auto|exists merged; by apply Hclose].
    + exists merged. by apply Hclose.
  - destruct (forallb ended (p_futures p)) eqn:Hall; [|by exists merged]. exists merged.
    apply stage_move; [done|]. split; [apply Hstage|done].
  - by exists merged.
Qed.

Lemma pool_step_ok merged new p e : pool_inv merged new p → ∃ merged' new', pool_inv merged' new' (step p e).
Proof.
  intros Hinv. destruct e as [n| |k|]; simpl.
  - exists merged, new. destruct Hinv. split; try done. simpl. lia.
  - exists merged, new. pose proof (pi_stage _ _ _ Hinv) as Hs. destruct Hinv. split; try done.
    unfold stage_ok in *. simpl. destruct (p_stage p) as [| | |r|r]; [done|done|by destruct (p_moment p)|..];
      (destruct Hs as [Hs1 Hs2]; split; [|exact Hs2]; intros s Hr; destruct (Hs1 s Hr) as [-> _];
       split; [done|]; by destruct (p_moment p)).
  - exists merged. by apply (worker_ok merged new).
  - destruct (main_ok merged new p Hinv) as [merged' Hm]. by exists merged', new.
Qed.
Lemma pool_steps_ok l merged new p :
  pool_inv merged new p → ∃ merged' new', pool_inv merged' new' (foldl step p l).
Proof.
  revert merged new p. induction l as [|e l IH]; intros merged new p Hinv; [by exists merged, new|].
  destruct (pool_step_ok _ _ _ e Hinv) as (merged' & new' & Hinv'). by apply (IH merged' new').
Qed.
Lemma pool_start_ok : outbox_fresh w0 → t = w_now w0 → pool_inv [] [] (Pool w0 empty_retry_stats [] Looping Early).
Proof.
  intros Hf ->. split; try done; simpl.
  - constructor.
  - by intros i Hi%elem_of_nil.
  - by intros i x Hi%elem_of_nil.
  - lia.
  - by rewrite app_nil_r.
  - by left.
Qed.

(** What the invariant says of a run. *)
Definition run_facts (w' : world) (new : list delivery_attempt) (p : pool) : Prop :=
  (new = [] ∨ 0 < batch_size ∧ Z.of_nat (length new) ≤ batch_size + workers - 1) ∧
  match p_stage p with
  | Returned (inr s) =>
      tallied s ∧ rs_processed s ≤ Z.of_nat (length new) ∧
      (p_moment p = Early →
         rs_processed s = Z.of_nat (length new) ∧
         Z.min batch_size (Z.of_nat (size (due_rows t w0))) ≤ Z.of_nat (length new) ∧
         ∀ i, i ∉ t_outbox_id <$> new → a_outbox (acts w') !! i = a_outbox (acts w0) !! i)
  | _ => True
  end.
Lemma inv_run merged new p :
  pool_inv merged new p → attempted run t w0 (p_world p) new ∧ run_facts (p_world p) new p.
Proof.
  intros [Hnd Hdue Hoth Hleased Hfresh Hnow Hat Hnew Hrun Hfut [Hst Htally] Hroom Hstage].
  assert (Hsub : merged ++ (f_row <$> filter (λ f, succeeded f = true) (p_futures p)) ⊆+ claimed merged p).
  { unfold claimed. apply submseteq_skips_l, fmap_submseteq, sublist_submseteq, sublist_filter. }
  assert (Hids : t_outbox_id <$> new ⊆+ claimed merged p) by (by rewrite Hnew).
  pose proof (submseteq_length _ _ Hids) as Hlen. rewrite length_fmap in Hlen.
  pose proof (Permutation_length Hnew) as Hnl. rewrite length_fmap, length_app, length_fmap in Hnl.
  assert (Hndn : NoDup (t_outbox_id <$> new)).
  { apply submseteq_Permutation in Hids as [k Hk]. rewrite Hk in Hnd. by apply NoDup_app in Hnd as []. }
  split; [split_and!; [done..|]|split].
  - rewrite Forall_forall in Hrun |- *. intros a Ha. destruct (Hrun a Ha) as [Htr Hr]. split_and!; [done..|].
    apply Hdue. eapply elem_of_submseteq, Hids. by apply list_elem_of_fmap_2.
  - destruct Hroom as [Hr|Hr]; [left|right; lia].
    rewrite Hr in Hlen. simpl in Hlen. destruct new; [done|simpl in Hlen; lia].
  - unfold stage_ok in Hstage. destruct (p_stage p) as [| | |r|[e|s]]; try done.
    destruct Hstage as [Hs _]. destruct (Hs s eq_refl) as [-> Hearly]. rewrite Hst. split_and!; [done|lia|].
    intros He. destruct (Hearly He) as [Hemp Hexh]. unfold exhausted, claimed in *.
    rewrite Hemp in *. simpl in *. rewrite app_nil_r in *. split_and!; [lia| |].
    + destruct Hexh as [Hb|Hall]; [lia|].
      assert (Hk : (map_to_list (due_rows t w0)).*1 ⊆+ merged).
      { apply NoDup_submseteq; [apply NoDup_fst_map_to_list|]. intros i Hi.
        apply list_elem_of_fmap in Hi as ([k x] & -> & Hx). apply elem_of_map_to_list in Hx. apply Hall. by exists x. }
      apply submseteq_length in Hk. rewrite length_fmap, length_map_to_list in Hk. lia.
    + intros i Hi. apply Hoth. by rewrite <- Hnew.
Qed.

(** *** Termination: the workers end, then each pass of the main thread makes progress *)
Definition weight (f : future) : nat := match f_work f with Queued => 2 | Requesting _ _ => 1 | Ended _ => 0 end.
Definition pending (p : pool) : nat := sum_list_with weight (p_futures p).
Definition same_run (p p' : pool) : Prop :=
  p_stage p' = p_stage p ∧ p_moment p' = p_moment p ∧ p_stats p' = p_stats p ∧
  f_row <$> p_futures p' = f_row <$> p_futures p.

Lemma worker_same k p : same_run p (worker_pass net err request_id elapsed run k p).
Proof.
  unfold worker_pass. destruct (p_futures p !! k) as [f|] eqn:Hk; [|done].
  destruct (work_pass _ _ _ _ _ f (p_world p)) as [w' wk]. split_and!; [done..|]. simpl.
  rewrite list_fmap_insert. apply list_insert_id. simpl. by rewrite list_lookup_fmap, Hk.
Qed.
Lemma worker_progress k p f :
  p_futures p !! k = Some f → ended f = false →
  (pending (worker_pass net err request_id elapsed run k p) < pending p)%nat.
Proof.
  intros Hk He. unfold worker_pass, pending. rewrite Hk.
  assert (Hw : (match (work_pass net err request_id elapsed run f (p_world p)).2 with
                | Queued => 2 | Requesting _ _ => 1 | Ended _ => 0 end < weight f)%nat).
  { unfold work_pass, weight, ended in *. destruct (f_work f) as [|j sent|r]; [| |done].
    - destruct (atomic _ _) as [[e|[row|j]] w']; simpl; lia.
    - destruct (perform _ _ _ _ _ _) as [|[ok meta]]; [simpl; lia|]. destruct (atomic _ _) as [[e|row] w']; simpl; lia. }
  destruct (work_pass _ _ _ _ _ f (p_world p)) as [w' wk]. simpl in Hw |- *.
  destruct (futures_split _ _ _ (Future (f_row f) (f_before f) wk) Hk) as (l1 & l2 & Hl & ->). rewrite Hl.
  rewrite !sum_list_with_app. simpl. unfold weight at 2. simpl. lia.
Qed.

Lemma not_all_ended (l : list future) :
  forallb ended l = false → ∃ k f, l !! k = Some f ∧ ended f = false.
Proof.
  induction l as [|f l IH]; [done|]. simpl. destruct (ended f) eqn:Hf; [|by exists 0%nat, f].
  intros (k & g & Hk & Hg)%IH. by exists (S k), g.
Qed.

(** The due rows are not changed by the workers. *)
Lemma due_shrinks merged new new' p p' :
  pool_inv merged new p → pool_inv merged new' p' → claimed merged p' = claimed merged p →
  (size (due_rows t (p_world p')) ≤ size (due_rows t (p_world p)))%nat.
Proof.
  intros Hp Hp' Hcl. apply map_subseteq_size, map_subseteq_spec. intros i x Hi.
  apply map_lookup_filter_Some in Hi as [Hi Hd]. simpl in Hd.
  assert (Hni : i ∉ claimed merged p').
  { intros Hin. by rewrite (pi_leased _ _ _ Hp' _ _ Hin Hi) in Hd. }
  apply due_cases; [|done]. rewrite (pi_others _ _ _ Hp' _ Hni) in Hi. rewrite Hcl in Hni.
  by rewrite (pi_others _ _ _ Hp _ Hni).
Qed.

Lemma workers_end n merged new p : pool_inv merged new p → (pending p ≤ n)%nat →
  ∃ l new', Forall (λ e, e ≠ Deadline) l ∧ pool_inv merged new' (foldl step p l) ∧
    same_run p (foldl step p l) ∧ forallb ended (p_futures (foldl step p l)) = true.
Proof.
  revert new p. induction n as [|n IH]; intros new p Hinv Hn;
    (destruct (forallb ended (p_futures p)) eqn:Hall; [by exists [], new|]);
    destruct (not_all_ended _ Hall) as (k & f & Hk & Hf); pose proof (worker_progress k p f Hk Hf) as Hlt; [lia|].
  destruct (worker_ok merged new p k Hinv) as [new' Hinv']. set (p1 := worker_pass _ _ _ _ _ k p) in *.
  destruct (IH new' p1 Hinv') as (l & new'' & Hl & Hi & (Hs & Hm & Hst & Hid) & He); [lia|].
  destruct (worker_same k p) as (Hs1 & Hm1 & Hst1 & Hid1). fold p1 in Hs1, Hm1, Hst1, Hid1.
  exists (Worker k :: l), new''. split_and!; [by constructor|done| |done].
  simpl. fold p1. unfold same_run. by rewrite Hs, Hm, Hst, Hid.
Qed.

Definition rank (s : run_stage) : nat := match s with Looping => 3 | Waiting => 2 | Draining => 1 | _ => 0 end.
Definition measure (p : pool) : nat :=
  4 * size (due_rows t (p_world p)) + (match p_futures p with [] => 0 | _ => 2 end) + rank (p_stage p).
Definition returned (p : pool) : Prop := ∃ r, p_stage p = Returned r.

Lemma collect_progress next p :
  forallb ended (p_futures p) = true → p_futures p ≠ [] →
  p_moment (collect_done next p) = p_moment p ∧
  ((rank next < 2 + rank (p_stage p))%nat → (0 < rank (p_stage p))%nat → (measure (collect_done next p) < measure p)%nat).
Proof.
  intros Hall Hne. unfold collect_done. destruct (merge_results _ _); (split; [done|]); intros Hr1 Hr2; unfold measure; simpl.
  - lia.
  - assert (filter (λ f, ended f = false) (p_futures p) = []) as ->.
    { rewrite forallb_forall in Hall. apply elem_of_nil_inv. intros f Hf.
      apply list_elem_of_filter in Hf as [Hf Hin]. rewrite Hall in Hf; [done|]. by apply list_elem_of_In. }
    destruct (p_futures p); [done|]. lia.
Qed.

(** A pass of the main thread, when no worker is running, comes closer to the end. *)
Lemma main_progress merged new p :
  pool_inv merged new p → forallb ended (p_futures p) = true →
  let p' := main_pass batch_size workers false t p in
  p_moment p' = p_moment p ∧ (returned p' ∨ (measure p' < measure p)%nat).
Proof.
  intros Hinv Hall p'. subst p'. unfold main_pass. pose proof (pi_stage _ _ _ Hinv) as Hstage.
  unfold stage_ok in Hstage.
  assert (Hmove : ∀ s, (rank s < rank (p_stage p))%nat → (measure (set_stage s p) < measure p)%nat)
    by (intros s Hr; unfold measure; simpl; lia).
  assert (Hcol : ∀ next, p_futures p ≠ [] → (rank next < 2 + rank (p_stage p))%nat → (0 < rank (p_stage p))%nat →
    p_moment (collect_done next p) = p_moment p ∧ (returned (collect_done next p) ∨ (measure (collect_done next p) < measure p)%nat)).
  { intros next Hne Hr1 Hr2. destruct (collect_progress next p Hall Hne) as [Hm Hc]. split; [done|right; auto]. }
  assert (Hany : p_futures p ≠ [] → existsb ended (p_futures p) = true).
  { destruct (p_futures p) as [|f l]; [done|]. simpl in Hall |- *. intros _. by destruct (ended f). }
  destruct (p_stage p) as [| | |r|r] eqn:Hs.
  - destruct (p_moment p) eqn:Hm; [destruct (rs_processed (p_stats p) <? batch_size)|..];
      try (split; [done|right; apply Hmove; simpl; lia]).
    unfold claim_pass. destruct (Z.leb_spec workers (Z.of_nat (length (p_futures p)))) as [Hle|Hlt].
    { apply Hcol; simpl; [|lia..]. intros Hnil. rewrite Hnil in Hle. simpl in Hle. lia. }
    destruct (claim_eq t (p_world p) (pi_fresh _ _ _ Hinv)) as [[_ ->]|(x & Hx & Hd & Hc)].
    + split; [done|right]. unfold measure. simpl. rewrite Hs. destruct (p_futures p); simpl; lia.
    + cbv zeta in Hc. rewrite Hc. split; [done|right]. unfold measure. simpl. rewrite Hs.
      set (x' := with_lock _ _ x). set (w' := set_db _ _).
      assert (Hdue : due_rows t w' = delete (x_id x) (due_rows t (p_world p))).
      { unfold due_rows, w'. change (a_outbox (acts (set_db _ _))) with (<[x_id x := x']> (a_outbox (acts (p_world p)))).
        rewrite map_filter_insert_False by (unfold x'; cbn [snd]; by rewrite leased_not_due). apply map_filter_delete. }
      rewrite Hdue, map_size_delete_Some by (exists x; by apply due_cases).
      assert (0 < size (due_rows t (p_world p)))%nat.
      { pose proof (due_cases _ _ _ Hx Hd) as Hl. apply mk_is_Some, map_size_ne_0_lookup_2 in Hl. lia. }
      destruct (p_futures p); simpl; lia.
  - rewrite Hany by done. destruct (p_moment p) eqn:Hm; apply Hcol; simpl; try lia; done.
  - destruct (p_futures p) as [|f l] eqn:Hf; [split; [done|right; apply Hmove; simpl; lia]|].
    rewrite Hany by done. simpl in Hall |- *. rewrite Hall.
    destruct (p_moment p) eqn:Hm; [apply Hcol; [done|simpl; lia..]..|].
    split; [done|right; apply Hmove; simpl; lia].
  - rewrite Hall. split; [done|left]. by exists r.
  - split; [done|left]. by exists r.
Qed.

Lemma pool_returns n merged new p : pool_inv merged new p → (measure p ≤ n)%nat →
  ∃ l, Forall (λ e, e ≠ Deadline) l ∧ returned (foldl step p l) ∧ p_moment (foldl step p l) = p_moment p.
Proof.
  revert merged new p. induction n as [n IH] using lt_wf_ind. intros merged new p Hinv Hn.
  destruct (workers_end (pending p) merged new p Hinv) as (l & new' & Hl & Hinv' & Hsame & Hall); [done|].
  set (p1 := foldl step p l) in *. destruct (main_progress merged new' p1 Hinv' Hall) as [Hm Hprog].
  destruct Hsame as (Hs & Hm1 & Hst & Hid).
  assert (Hle : (measure p1 ≤ measure p)%nat).
  { assert (Hd : (size (due_rows t (p_world p1)) ≤ size (due_rows t (p_world p)))%nat).
    { apply (due_shrinks merged new new'); [done..|]. unfold claimed. by rewrite Hid. }
    unfold measure. rewrite Hs. destruct (p_futures p1), (p_futures p); try discriminate Hid; lia. }
  destruct (main_ok merged new' p1 Hinv') as [merged' Hinv2]. set (p2 := main_pass _ _ _ _ p1) in *.
  destruct Hprog as [Hr|Hlt].
  - exists (l ++ [Main]). rewrite foldl_app. simpl. fold p1 p2. split_and!; [|done|congruence].
    apply Forall_app. by split; [|constructor].
  - destruct (IH (measure p2) ltac:(lia) merged' new' p2 Hinv2) as (l' & Hl' & Hr & Hm'); [done|].
    exists (l ++ Main :: l'). rewrite foldl_app. simpl. fold p1 p2. split_and!; [|done|congruence].
    apply Forall_app. by split; [|constructor].
Qed.
End invariant.

Section theorem.
Context `{ActionSettings, Utf8, Resolver, Hmac, HttpDate, JsonLoads}.
Context (net : network) (err : string) (request_id : string) (elapsed : uuid → Z → Z).

(** C35: a retry run with a pool of workers, which is the default, whatever the order in which
    the workers and the main thread move, whatever each request yields and whenever the
    deadline passes, when no other process works on the outbox.  No row is tried twice:
    the new attempts are automatic retries of distinct rows that were due at the start,
    and carry the number of the run.  There are at most the batch size and the number of
    workers, less one, of them: rows already handed to a worker are not counted against
    the batch ([batch_exceeded]).  The statistics count attempts, each as delivered,
    retried or dead, and never more than were made.  When the run ends before its
    deadline and no exception leaves it, they count them all, the attempts fill the batch
    or cover every due row, and all other rows are as they were.  The run always ends:
    from wherever it stands, the workers and the main thread can bring it to its end
    without waiting for the deadline. *)
Theorem pool_run : ∀ batch_size workers run schedule w,
  0 < lease_seconds → 1 < workers → outbox_fresh w →
  let step := pool_step net err request_id elapsed batch_size workers false (w_now w) run in
  let p := retry_pool net err request_id elapsed batch_size workers false run schedule w in
  let due := Z.of_nat (size (due_rows (w_now w) w)) in
  (∃ new, attempted run (w_now w) w (p_world p) new ∧
     (new = [] ∨ 0 < batch_size ∧ Z.of_nat (length new) ≤ batch_size + workers - 1) ∧
     ∀ s, p_stage p = Returned (inr s) →
       rs_processed s = rs_delivered s + rs_retried s + rs_dead s ∧
       rs_processed s ≤ Z.of_nat (length new) ∧
       (p_moment p = Early →
          rs_processed s = Z.of_nat (length new) ∧ Z.min batch_size due ≤ Z.of_nat (length new) ∧
          ∀ i, i ∉ t_outbox_id <$> new → a_outbox (acts (p_world p)) !! i = a_outbox (acts w) !! i)) ∧
  ∃ rest, Forall (λ e, e ≠ Deadline) rest ∧ ∃ r, p_stage (foldl step p rest) = Returned r.
Proof.
  intros batch workers run schedule w Hlease Hworkers Hfresh step p due.
  pose proof (pool_start_ok batch workers (w_now w) run w Hfresh eq_refl) as H0'.
  destruct (pool_steps_ok net err request_id elapsed batch workers (w_now w) run w Hlease schedule [] [] _ H0')
    as (merged & new & Hinv).
  change (pool_inv batch workers (w_now w) run w merged new p) in Hinv. split.
  - exists new. destruct (inv_run _ _ _ _ _ _ _ _ Hinv) as [Hat [Hlen Hfacts]].  split_and!; [done..|].
    intros s Hs. by rewrite Hs in Hfacts.
  - destruct (pool_returns net err request_id elapsed batch workers (w_now w) run w Hlease ltac:(lia)
      (measure (w_now w) p) merged new p Hinv) as (rest & Hr & Hret & _); [done|]. by exists rest.
Qed.
End theorem.

(** ** Two due rows, two workers, a batch of one *)
Import WebhookDemo DeliveryDemo.
Definition demo_pool (schedule : list event) : pool :=
  retry_pool refusing "" "-" (λ _ _, 5) 1 2 false (Some 1) schedule queue_world.
Definition both_at_once : list event :=
  [Main; Main; Worker 1; Worker 0; Main; Worker 0; Worker 1; Main; Main; Main; Main].
(** Both rows are claimed before the first result is merged, and both are tried. *)
Example batch_exceeded :
  p_stage (demo_pool both_at_once) = Returned (inr (RetryStats 2 0 2 0 1 0 1 0)) ∧
  (t_outbox_id <$> a_attempts (acts (p_world (demo_pool both_at_once)))) = [6%N; 5%N].
Proof. vm_compute. auto. Qed.
Lemma pool_run_witness :
  ∃ new, attempted (Some 1) 1000 queue_world (p_world (demo_pool both_at_once)) new ∧ length new = 2%nat.
Proof.
  destruct (pool_run refusing "" "-" (λ _ _, 5) 1 2 (Some 1) both_at_once queue_world) as [(new & Hnew & _ & Hs) _];
    [vm_compute; reflexivity..|exact queue_fresh|].
  exists new. split; [exact Hnew|].
  destruct (Hs (RetryStats 2 0 2 0 1 0 1 0)) as (_ & _ & Hearly); [vm_compute; reflexivity|].
  destruct Hearly as [Hp _]; [vm_compute; reflexivity|]. change (2 = Z.of_nat (length new)) in Hp. lia.
Defined.
(** After the deadline the run ends with results that it has not merged. *)
Example late_results_not_counted :
  let late := [Main; Deadline; Main; Main; Worker 0; Worker 0; Main] in
  p_stage (demo_pool late) = Returned (inr empty_retry_stats) ∧
  length (a_attempts (acts (p_world (demo_pool late)))) = 1%nat.
Proof. vm_compute. auto. Qed.
