(* ===== verification/RuleConfig.v ===== *)
(** * RuleConfig: the configuration of a webhook rule ([apps/actions/rule_config.py])

    [existing] is the dictionary stored with the rule; the other arguments are [None] when
    the request does not send the field.  [raw] are the random bytes of a new secret. *)
From S2P Require Import Prelude PyStr Models PyData Events.
From S2P Require Import Url Ssrf Wire Webhook.

(** [d.pop(k, None)] *)
Definition dict_pop {V} (k : string) (l : list (string * V)) : list (string * V) :=
  filter (λ kv, kv.1 ≠ k) l.
Lemma dict_get_pop {V} k k' (l : list (string * V)) :
  dict_get k' (dict_pop k l) = if k' == k then None else dict_get k' l.
Proof.
  unfold dict_pop. induction l as [|[k0 v] l IH]; [by case_match|].
  rewrite filter_cons. cbn [fst]. destruct (decide (k0 ≠ k)) as [Hk|Hk]; cbn [dict_get]; rewrite IH.
  - destruct (bool_decide_reflect (k0 = k')) as [->|]; [by rewrite bool_decide_false|done].
  - destruct (decide (k0 = k)) as [->|]; [|by destruct Hk].
    destruct (bool_decide_reflect (k' = k)) as [->|]; [done|]. by rewrite bool_decide_false.
Qed.

Definition secret_hint (secret : string) : string :=
  let s := strip secret in
  if negb (truthy s) then ""
  else if (String.length s <=? 4)%nat then "****"
  else str_drop (String.length s - 4) s.

Inductive config_error := UrlRequired | Raises (e : exn).
(** [existing.get(k)] is truthy. *)
Definition is_set (k : string) (config : list (string * json)) : bool :=
  json_truthy (opt_json (dict_get k config)).

(** The secret of the new configuration: [Some v] is written, [None] leaves the entry. *)
Definition new_secret (raw : bytes) (existing : list (string * json)) (secret : option string)
  (partial : bool) : option json :=
  match secret with
  | Some s =>
      let secret_s := strip s in
      if truthy secret_s then Some (JStr secret_s)
      else if is_set "secret" existing then dict_get "secret" existing
      else if negb partial then Some (JStr (generate_webhook_signing_secret raw))
      else None
  | None =>
      if negb partial && negb (is_set "secret" existing)
      then Some (JStr (generate_webhook_signing_secret raw))
      else if is_set "secret" existing then dict_get "secret" existing
      else None
  end.
Definition set_opt (k : string) (v : option json) (config : list (string * json)) :
  list (string * json) := match v with Some x => dict_set k x config | None => config end.

Definition with_authorization (existing : list (string * json)) (authorization_header : option string)
  (cfg : list (string * json)) : list (string * json) :=
  match authorization_header with
  | Some h => let auth_s := strip h in
              if truthy auth_s then dict_set "authorization_header" (JStr auth_s) cfg
              else dict_pop "authorization_header" cfg
  | None => if is_set "authorization_header" existing
            then set_opt "authorization_header" (dict_get "authorization_header" existing) cfg
            else cfg
  end.
Definition with_private_urls (existing : list (string * json)) (allow_private_urls : option bool)
  (is_superuser url_changed partial : bool) (cfg : list (string * json)) : list (string * json) :=
  if is_superuser then
    match allow_private_urls with
    | Some true => dict_set "allow_private_urls" (JBool true) cfg
    | Some false => dict_pop "allow_private_urls" cfg
    | None => cfg
    end
  else if url_changed then dict_pop "allow_private_urls" cfg
  else if negb partial && is_set "allow_private_urls" existing
  then dict_set "allow_private_urls" (JBool true) cfg
  else cfg.

Definition build_webhook_config (raw : bytes) (existing : list (string * json))
  (url secret authorization_header : option string) (allow_private_urls : option bool)
  (is_superuser partial : bool) : config_error + list (string * json) :=
  match config_text "url" existing with
  | inl e => inl (Raises e)
  | inr previous_url =>
      let writes_url := bool_decide (is_Some url) || negb partial in
      let new_url := from_option strip previous_url url in
      let url_changed := bool_decide (is_Some url) && (new_url != previous_url) in
      let cfg := if writes_url then dict_set "url" (JStr new_url) existing else existing in
      if negb (is_set "url" cfg) then inl UrlRequired
      else
        let cfg := set_opt "secret" (new_secret raw existing secret partial) cfg in
        let cfg := with_authorization existing authorization_header cfg in
        inr (with_private_urls existing allow_private_urls is_superuser url_changed partial cfg)
  end.

Definition mask_config_for_response (config : list (string * json)) (action_kind : string) :
  list (string * json) :=
  if action_kind == ACTION_WEBHOOK then
    let raw_secret := opt_json (dict_get "secret" config) in
    let cfg := dict_pop "authorization_header" (dict_pop "secret" config) in
    let cfg := dict_set "has_secret" (JBool (json_truthy raw_secret)) cfg in
    let cfg := dict_set "secret_hint"
                 (JStr (secret_hint (if json_truthy raw_secret then py_str raw_secret else ""))) cfg in
    dict_set "authorization_header_set" (JBool (is_set "authorization_header" config)) cfg
  else config.

(** ** Reading entries of the result *)
Lemma get_set_opt k k' v l :
  dict_get k' (set_opt k v l) = if k' == k then match v with Some x => Some x | None => dict_get k l end
                                else dict_get k' l.
Proof.
  destruct v as [x|]; simpl; [by rewrite dict_get_set|].
  by destruct (bool_decide_reflect (k' = k)) as [->|].
Qed.
Lemma get_with_authorization existing h cfg k : k ≠ "authorization_header" →
  dict_get k (with_authorization existing h cfg) = dict_get k cfg.
Proof.
  intros Hk. unfold with_authorization. destruct h; case_match;
    rewrite ?dict_get_set, ?dict_get_pop, ?get_set_opt, ?bool_decide_false by done; done.
Qed.
Lemma get_with_private existing a su uc p cfg k : k ≠ "allow_private_urls" →
  dict_get k (with_private_urls existing a su uc p cfg) = dict_get k cfg.
Proof.
  intros Hk. unfold with_private_urls. repeat case_match;
    rewrite ?dict_get_set, ?dict_get_pop, ?bool_decide_false by done; done.
Qed.

(** The address a configuration sends to. *)
Definition url_of (config : list (string * json)) : string := default "" (match config_text "url" config with inr s => Some s | inl _ => None end).

(** What a new configuration of a rule holds.  It always has an address; a complete
    one always has a signing secret, and a secret is never lost, only replaced by the one
    sent; only a superuser can let a rule reach private addresses, and when anybody else
    changes the address the permission is gone; entries the request does not speak of
    stay. *)
Theorem build_webhook_config_sound raw existing url secret auth allow superuser partial cfg :
  build_webhook_config raw existing url secret auth allow superuser partial = inr cfg →
  is_set "url" cfg = true ∧
  (∀ u, url = Some u → dict_get "url" cfg = Some (JStr (strip u))) ∧
  (partial = false → is_set "secret" cfg = true) ∧
  (∀ s, secret = Some s → truthy (strip s) = true → dict_get "secret" cfg = Some (JStr (strip s))) ∧
  (is_set "secret" existing = true → from_option (λ s, truthy (strip s)) false secret = false →
     dict_get "secret" cfg = dict_get "secret" existing) ∧
  (superuser = false → is_set "allow_private_urls" cfg = true →
     is_set "allow_private_urls" existing = true ∧ from_option strip (url_of existing) url = url_of existing) ∧
  (∀ k, k ∉ ["url"; "secret"; "authorization_header"; "allow_private_urls"] →
     dict_get k cfg = dict_get k existing).
Proof.
  unfold build_webhook_config, url_of.
  destruct (config_text "url" existing) as [e|previous] eqn:Hprev; [done|]. cbn [default].
  set (writes := _ || _). set (new_url := from_option strip previous url).
  set (cfg1 := if writes then _ else existing). set (changed := bool_decide _ && _).
  destruct (is_set "url" cfg1) eqn:Hurl; [|done]. cbn [negb]. intros [= <-].
  assert (H1 : ∀ k, k ≠ "url" → dict_get k cfg1 = dict_get k existing).
  { intros k Hk. unfold cfg1. destruct writes; [|done]. by rewrite dict_get_set, bool_decide_false. }
  assert (Hsec : dict_get "secret" (with_private_urls existing allow superuser changed partial
      (with_authorization existing auth (set_opt "secret" (new_secret raw existing secret partial) cfg1)))
    = match new_secret raw existing secret partial with Some x => Some x | None => dict_get "secret" existing end).
  { rewrite get_with_private, get_with_authorization, get_set_opt by done. simpl. by rewrite H1. }
  split_and!.
  - unfold is_set in *. rewrite get_with_private, get_with_authorization, get_set_opt by done. exact Hurl.
  - intros u ->. rewrite get_with_private, get_with_authorization, get_set_opt by done. simpl.
    assert (Hw : writes = true) by done. unfold cfg1. rewrite Hw.
    by rewrite dict_get_set, bool_decide_true.
  - intros ->. unfold is_set. rewrite Hsec. unfold new_secret, is_set.
    destruct secret as [s|]; [destruct (truthy (strip s)) eqn:Hs; [done|]|];
      destruct (json_truthy (opt_json (dict_get "secret" existing))) eqn:Hx; try done; simpl;
      by destruct (dict_get "secret" existing).
  - intros s -> Hs. rewrite Hsec. unfold new_secret. by rewrite Hs.
  - intros Hx Hs. rewrite Hsec. unfold new_secret. rewrite Hx.
    destruct secret as [s|]; simpl in Hs; cbn [negb]; rewrite ?Hs, ?andb_false_r; by destruct (dict_get "secret" existing).
  - intros -> Ha. unfold with_private_urls in Ha.
    assert (Hbase : is_set "allow_private_urls" (with_authorization existing auth
      (set_opt "secret" (new_secret raw existing secret partial) cfg1)) = is_set "allow_private_urls" existing).
    { unfold is_set. rewrite get_with_authorization, get_set_opt by done. simpl. by rewrite H1. }
    destruct changed eqn:Hch.
    { unfold is_set in Ha. by rewrite dict_get_pop, bool_decide_true in Ha. }
    split.
    + destruct (negb partial && is_set "allow_private_urls" existing) eqn:Hp; [by apply andb_prop in Hp as []|].
      by rewrite Hbase in Ha.
    + unfold changed in Hch. destruct url as [u|]; [|done]. simpl in *.
      apply negb_false_iff, bool_decide_eq_true in Hch. exact Hch.
  - intros k Hk. rewrite get_with_private, get_with_authorization, get_set_opt by set_solver.
    rewrite bool_decide_false by set_solver. apply H1. set_solver.
Qed.

Definition old_config : list (string * json) :=
  [("url", JStr "https://hooks.example/in"); ("secret", JStr "s3cret-1"); ("allow_private_urls", JBool true)].
(** Anybody but a superuser who changes the address loses the permission; a superuser who
    does not mention it keeps it. *)
Example new_address :
  let build superuser := build_webhook_config [] old_config (Some "http://10.0.0.1/in") None None None superuser true in
  build false = inr [("url", JStr "http://10.0.0.1/in"); ("secret", JStr "s3cret-1")] ∧
  build true = inr [("url", JStr "http://10.0.0.1/in"); ("secret", JStr "s3cret-1");
                    ("allow_private_urls", JBool true)].
Proof. split; vm_compute; reflexivity. Qed.
Example masked :
  mask_config_for_response old_config ACTION_WEBHOOK =
  [("url", JStr "https://hooks.example/in"); ("allow_private_urls", JBool true); ("has_secret", JBool true);
   ("secret_hint", JStr "et-1"); ("authorization_header_set", JBool false)].
Proof. vm_compute. reflexivity. Qed.

Lemma build_webhook_config_sound_witness :
  ∃ cfg, build_webhook_config [] old_config (Some "http://10.0.0.1/in") None None (Some true) false true = inr cfg ∧
    dict_get "secret" cfg = Some (JStr "s3cret-1") ∧ is_set "allow_private_urls" cfg = false.
Proof.
  eexists. split; [vm_compute; reflexivity|].
  match goal with |- dict_get _ ?cfg = _ ∧ _ =>
    destruct (build_webhook_config_sound [] old_config (Some "http://10.0.0.1/in") None None (Some true)
      false true cfg ltac:(vm_compute; reflexivity)) as (_ & _ & _ & _ & Hs & _) end.
  split; [by apply Hs|reflexivity].
Defined.
