(* ===== verification/Retention.v ===== *)
(** * Retention: the purge of old rows ([apps/actions/retention.py] and [purge_old_runs] of
    [apps/actions/scheduled_jobs.py])

    Rows are deleted in batches of primary keys until none is left or the deadline has
    passed.  The deadline is a number of batches the clock allows ([None]: no deadline);
    the targets share it. *)
From S2P Require Import Prelude PyStr Models PyData Events.

(** ** Deleting in batches *)
Section batches.
(** The keys that match now, in an order of the database, and the deletion of rows by key. *)
Context {K : Type} `{EqDecision K} (matching : actions_db → list K) (delete_keys : list K → actions_db → actions_db).

(** [deadline is not None and time.monotonic() >= deadline] *)
Definition expired (budget : option nat) : bool := bool_decide (budget = Some O).

(** The result: the tables, the number of deleted rows, whether it finished, and what is
  left of the budget.  Each pass deletes a row at least, so as many passes as there are
  rows are enough fuel (see [delete_in_batches_spec]). *)
Fixpoint batch_passes (fuel : nat) (batch_size : nat) (budget : option nat) (deleted : Z) (a : actions_db) :
  option (actions_db * Z * bool * option nat) :=
if expired budget then Some (a, deleted, false, budget)
else
  match take batch_size (matching a) with
  | [] => Some (a, deleted, true, budget)
  | ids =>
      match fuel with
      | O => None
      | S fuel' => batch_passes fuel' batch_size (Nat.pred <$> budget)
                     (deleted + Z.of_nat (length ids)) (delete_keys ids a)
      end
  end.
Definition delete_in_batches (batch_size : nat) (budget : option nat) (a : actions_db) :
  option (actions_db * Z * bool * option nat) :=
batch_passes (length (matching a)) batch_size budget 0 a.

(** What a deletion by keys does. *)
Record batch_laws : Prop := BatchLaws {
bl_nodup : ∀ ids a, NoDup (matching a) → NoDup (matching (delete_keys ids a));
bl_rest : ∀ ids a k, k ∈ matching (delete_keys ids a) ↔ k ∈ matching a ∧ k ∉ ids;
bl_app : ∀ l l' a, delete_keys l' (delete_keys l a) = delete_keys (l ++ l') a;
bl_nil : ∀ a, delete_keys [] a = a }.

Lemma take_deletes (laws : batch_laws) n a : NoDup (matching a) →
matching (delete_keys (take n (matching a)) a) ≡ₚ drop n (matching a).
Proof.
intros Hnd. apply list.NoDup_Permutation.
- by apply (bl_nodup laws).
- rewrite <- (take_drop n (matching a)) in Hnd. by apply NoDup_app in Hnd as (_ & _ & ?).
- intros k. rewrite (bl_rest laws). rewrite <- (take_drop n (matching a)) in Hnd.
  apply NoDup_app in Hnd as (_ & Hdis & _).
  rewrite <- (take_drop n (matching a)) at 1. rewrite elem_of_app. set_solver.
Qed.

(** Whatever the deadline, the passes delete distinct matching rows and count them; with
  no deadline, or when they finish, they delete all of them. *)
Definition batches_done (budget : option nat) (deleted0 : Z) (a : actions_db)
  (r : option (actions_db * Z * bool * option nat)) : Prop :=
∃ ids budget' (complete : bool),
  r = Some (delete_keys ids a, deleted0 + Z.of_nat (length ids), complete, budget') ∧
  ids ⊆+ matching a ∧ (complete = true → ids ≡ₚ matching a) ∧
  (budget = None → complete = true ∧ budget' = None).

Lemma batch_passes_spec (laws : batch_laws) fuel n budget deleted a :
(0 < n)%nat → NoDup (matching a) → (length (matching a) <= fuel)%nat →
batches_done budget deleted a (batch_passes fuel n budget deleted a).
Proof.
intros Hn. revert budget deleted a. induction fuel as [|fuel IH]; intros budget deleted a Hnd Hf.
- assert (Hm : matching a = []) by (apply nil_length_inv; lia).
  simpl. rewrite Hm, take_nil. unfold expired. case_bool_decide as Hb.
  + exists [], budget, false. rewrite Z.add_0_r, (bl_nil laws), Hm. by rewrite Hb.
  + exists [], budget, true. rewrite Z.add_0_r, (bl_nil laws), Hm. done.
- cbn [batch_passes]. unfold expired. case_bool_decide as Hb.
  { exists [], budget, false. rewrite Z.add_0_r, (bl_nil laws), Hb.
    split_and!; [done|apply submseteq_nil_l|done|done]. }
  destruct (take n (matching a)) as [|k ids] eqn:Htake.
  { exists [], budget, true. rewrite Z.add_0_r, (bl_nil laws). destruct (matching a); [done|].
    destruct n; [lia|done]. }
  assert (Hrest := take_deletes laws n a Hnd). rewrite Htake in Hrest.
  set (l := k :: ids) in *.
  destruct (IH (Nat.pred <$> budget) (deleted + Z.of_nat (length l)) (delete_keys l a))
    as (ids' & budget' & complete & -> & Hsub & Hall & Hnone).
  { by apply (bl_nodup laws). }
  { rewrite Hrest, length_drop. lia. }
  exists (l ++ ids'), budget', complete. rewrite (bl_app laws), length_app. split_and!.
  + do 4 f_equal. lia.
  + rewrite Hrest in Hsub. rewrite <- (take_drop n (matching a)), Htake. by apply submseteq_skips_l.
  + intros Hc. rewrite (Hall Hc), Hrest, <- Htake. by rewrite take_drop.
  + intros ->. by apply Hnone.
Qed.

Lemma delete_in_batches_spec (laws : batch_laws) n budget a :
(0 < n)%nat → NoDup (matching a) → batches_done budget 0 a (delete_in_batches n budget a).
Proof. intros Hn Hnd. by apply batch_passes_spec. Qed.
End batches.

(** ** The targets *)
Section retention.
Context `{ActionSettings}.

Definition retention_days : Z := Z.max 1 EVENT_LOG_RETENTION_DAYS.
(** [timedelta(days=n)] *)
Definition days (n : Z) : Z := n * us_per_day.
Definition STALE_GRACE : Z := days 1.
Definition RUN_RETENTION_DAYS : Z := 7.

Definition finished_delivery (x : action_outbox) : bool :=
(x_status x == STATUS_DELIVERED) || (x_status x == STATUS_DEAD).
Definition old_event (cutoff : datetime) (e : event_log) : bool := e_created_at e <? cutoff.
Definition old_delivery (kind : delivery_kind) (cutoff : datetime) (x : action_outbox) : bool :=
finished_delivery x && (x_delivery_kind x == kind) && (x_created_at x <? cutoff).
Definition old_run (cutoff : datetime) (r : scheduled_job_run) : bool := n_started_at r <? cutoff.

Definition old_events (cutoff : datetime) (a : actions_db) : list N :=
e_id <$> filter (λ e, old_event cutoff e = true) (a_events a).
Definition old_deliveries (kind : delivery_kind) (cutoff : datetime) (a : actions_db) : list uuid :=
(map_to_list (filter (λ kx, old_delivery kind cutoff kx.2 = true) (a_outbox a))).*1.
Definition old_runs (cutoff : datetime) (a : actions_db) : list N :=
(map_to_list (filter (λ kr, old_run cutoff kr.2 = true) (a_runs a))).*1.

Definition delete_events (ids : list N) : actions_db → actions_db :=
set_events (filter (λ e, e_id e ∉ ids)).
(** The attempts of a delivery go with it. *)
Definition delete_deliveries (ids : list uuid) (a : actions_db) : actions_db :=
set_attempts (filter (λ t, t_outbox_id t ∉ ids)) (set_outbox (filter (λ kx, kx.1 ∉ ids)) a).
Definition delete_runs (ids : list N) : actions_db → actions_db :=
set_runs (filter (λ kr, kr.1 ∉ ids)).

Definition retention_status (company_id : Z) (t : datetime) (a : actions_db) :
  list (string * json) :=
let oldest :=
  head (sort_by Z.leb (e_created_at <$> filter (λ e, e_company_id e = Some company_id) (a_events a))) in
[("data_retention_days", JInt retention_days);
 ("oldest_event_at", opt_str (iso_utc <$> oldest));
 ("stale_events", JBool (from_option (λ o, o <? t - days retention_days - STALE_GRACE) false oldest))].

Definition purge_old_runs (t : datetime) (batch_size : nat) (budget : option nat) (a : actions_db) :
  option (actions_db * Z * bool * option nat) :=
delete_in_batches (old_runs (t - days RUN_RETENTION_DAYS)) delete_runs batch_size budget a.
Definition count_old_runs (t : datetime) (a : actions_db) : Z :=
Z.of_nat (length (old_runs (t - days RUN_RETENTION_DAYS) a)).

Record purge_stats := PurgeStats {
ps_events : Z; ps_webhook_deliveries : Z; ps_email_events : Z; ps_scheduled_job_runs : Z;
ps_complete : bool }.

(** The targets in the order of [_PURGE_TARGETS], then the runs. *)
Definition purge_expired_data (batch_size : nat) (budget : option nat) (dry_run : bool)
  (t : datetime) (a : actions_db) : option (actions_db * purge_stats) :=
let cutoff := t - days retention_days in
if dry_run then
  Some (a, PurgeStats (Z.of_nat (length (old_events cutoff a)))
             (Z.of_nat (length (old_deliveries KIND_WEBHOOK cutoff a)))
             (Z.of_nat (length (old_deliveries KIND_EMAIL cutoff a))) (count_old_runs t a) true)
else
  '(a, events, finished, budget) ← delete_in_batches (old_events cutoff) delete_events batch_size budget a;
  if negb finished then Some (a, PurgeStats events 0 0 0 false) else
  '(a, webhooks, finished, budget) ←
    delete_in_batches (old_deliveries KIND_WEBHOOK cutoff) delete_deliveries batch_size budget a;
  if negb finished then Some (a, PurgeStats events webhooks 0 0 false) else
  '(a, emails, finished, budget) ←
    delete_in_batches (old_deliveries KIND_EMAIL cutoff) delete_deliveries batch_size budget a;
  if negb finished then Some (a, PurgeStats events webhooks emails 0 false) else
  '(a, runs, finished, _) ← purge_old_runs t batch_size budget a;
  Some (a, PurgeStats events webhooks emails runs finished).

(** ** The laws of the deletions *)
(** Projections of explicit tables. *)
Ltac read_tables := cbn [a_rules a_outbox a_attempts a_events a_on_commit a_runs a_states a_counters a_deletions a_next_id].
Lemma list_filter_app_keys {A} (key : A → N) (l l' : list N) (rows : list A) :
filter (λ x, key x ∉ l') (filter (λ x, key x ∉ l) rows) = filter (λ x, key x ∉ l ++ l') rows.
Proof.
rewrite list_filter_filter. apply list_filter_iff. intros x. rewrite elem_of_app. tauto.
Qed.
Lemma map_filter_app_keys {A} (l l' : list N) (m : gmap N A) :
filter (λ kx, kx.1 ∉ l') (filter (λ kx, kx.1 ∉ l) m) = filter (λ kx, kx.1 ∉ l ++ l') m.
Proof.
apply map_eq. intros i. apply option_eq. intros x. rewrite !map_lookup_filter_Some. simpl.
rewrite elem_of_app. tauto.
Qed.
Lemma elem_of_keys {A} (P : N * A → Prop) `{∀ x, Decision (P x)} (m : gmap N A) k :
k ∈ (map_to_list (filter P m)).*1 ↔ ∃ x, m !! k = Some x ∧ P (k, x).
Proof.
rewrite list_elem_of_fmap. split.
- intros ([k' x] & -> & Hx%elem_of_map_to_list%map_lookup_filter_Some). by exists x.
- intros (x & Hx & Hp). exists (k, x). split; [done|]. by apply elem_of_map_to_list, map_lookup_filter_Some.
Qed.
Lemma filter_keys_nil {A} (m : gmap N A) : filter (λ kx, kx.1 ∉ []) m = m.
Proof. apply map_filter_id. intros. apply not_elem_of_nil. Qed.
Lemma list_filter_keys_nil {A} (key : A → N) (l : list A) : filter (λ x, key x ∉ []) l = l.
Proof. induction l as [|x l IH]; [done|]. rewrite filter_cons_True by apply not_elem_of_nil. by rewrite IH. Qed.

Lemma list_filter_comm {A} (P Q : A → Prop) `{∀ x, Decision (P x)} `{∀ x, Decision (Q x)} (l : list A) :
filter P (filter Q l) = filter Q (filter P l).
Proof. rewrite !list_filter_filter. apply list_filter_iff. tauto. Qed.

Lemma delete_events_laws cutoff : batch_laws (old_events cutoff) delete_events.
Proof.
split.
- intros ids a Hnd. unfold old_events, delete_events. simpl. rewrite list_filter_comm.
  by apply NoDup_fmap_filter.
- intros ids a k. unfold old_events, delete_events. simpl. rewrite !list_elem_of_fmap. split.
  + intros (e & -> & [He [Hk He']%list_elem_of_filter]%list_elem_of_filter). split; [|done].
    exists e. split; [done|]. by apply list_elem_of_filter.
  + intros [(e & -> & [He He']%list_elem_of_filter) Hk]. exists e. split; [done|].
    apply list_elem_of_filter. split; [done|]. by apply list_elem_of_filter.
- intros l l' a. unfold delete_events, set_events. simpl. by rewrite (list_filter_app_keys e_id).
- intros a. unfold delete_events, set_events. rewrite (list_filter_keys_nil e_id). by destruct a.
Qed.
Lemma NoDup_keys {A} (m : gmap N A) : NoDup (map_to_list m).*1.
Proof. apply NoDup_fst_map_to_list. Qed.
Lemma delete_deliveries_laws kind cutoff : batch_laws (old_deliveries kind cutoff) delete_deliveries.
Proof.
split.
- intros ids a _. apply NoDup_keys.
- intros ids a k. unfold old_deliveries, delete_deliveries. simpl. rewrite !elem_of_keys.
  setoid_rewrite map_lookup_filter_Some. simpl. naive_solver.
- intros l l' a. unfold delete_deliveries, set_attempts, set_outbox. simpl.
  by rewrite (list_filter_app_keys t_outbox_id), map_filter_app_keys.
- intros []. unfold delete_deliveries, set_attempts, set_outbox. read_tables.
  by rewrite (list_filter_keys_nil t_outbox_id), filter_keys_nil.
Qed.
Lemma delete_runs_laws cutoff : batch_laws (old_runs cutoff) delete_runs.
Proof.
split.
- intros ids a _. apply NoDup_keys.
- intros ids a k. unfold old_runs, delete_runs. simpl. rewrite !elem_of_keys.
  setoid_rewrite map_lookup_filter_Some. simpl. naive_solver.
- intros l l' a. unfold delete_runs, set_runs. simpl. by rewrite map_filter_app_keys.
- intros a. unfold delete_runs, set_runs. rewrite filter_keys_nil. by destruct a.
Qed.

(** A deletion of deliveries of one kind leaves the old ones of the other. *)
Lemma other_kind kind kind' cutoff ids a : kind ≠ kind' → ids ⊆+ old_deliveries kind cutoff a →
old_deliveries kind' cutoff (delete_deliveries ids a) ≡ₚ old_deliveries kind' cutoff a.
Proof.
intros Hk Hids. apply list.NoDup_Permutation; [apply NoDup_keys..|]. intros k.
rewrite (bl_rest _ _ (delete_deliveries_laws kind' cutoff)). split; [tauto|]. intros Hin. split; [done|].
intros Hd. eapply elem_of_submseteq in Hd; [|exact Hids]. unfold old_deliveries in *.
rewrite elem_of_keys in Hin, Hd. destruct Hin as (x & Hx & Hp), Hd as (x' & Hx' & Hp').
simplify_eq. simpl in *. unfold old_delivery in *. rewrite !andb_true_iff, !bool_decide_eq_true in *.
destruct Hp as [[_ ?] _], Hp' as [[_ ?] _]. congruence.
Qed.

(** ** What a purge does *)
(** The keys the purge has deleted, by target. *)
Record deletions := Deletions {
dl_events : list N; dl_webhooks : list uuid; dl_emails : list uuid; dl_runs : list N }.
Definition after_deletions (d : deletions) (a : actions_db) : actions_db :=
delete_runs (dl_runs d)
  (delete_deliveries (dl_emails d) (delete_deliveries (dl_webhooks d) (delete_events (dl_events d) a))).
(** Everything that is too old. *)
Definition all_old (t : datetime) (a : actions_db) : deletions :=
let cutoff := t - days retention_days in
Deletions (old_events cutoff a) (old_deliveries KIND_WEBHOOK cutoff a) (old_deliveries KIND_EMAIL cutoff a)
  (old_runs (t - days RUN_RETENTION_DAYS) a).
Definition within_deletions (d d' : deletions) : Prop :=
dl_events d ⊆+ dl_events d' ∧ dl_webhooks d ⊆+ dl_webhooks d' ∧ dl_emails d ⊆+ dl_emails d' ∧
dl_runs d ⊆+ dl_runs d'.
Definition same_deletions (d d' : deletions) : Prop :=
dl_events d ≡ₚ dl_events d' ∧ dl_webhooks d ≡ₚ dl_webhooks d' ∧ dl_emails d ≡ₚ dl_emails d' ∧
dl_runs d ≡ₚ dl_runs d'.
Definition counts (d : deletions) (complete : bool) : purge_stats :=
PurgeStats (Z.of_nat (length (dl_events d))) (Z.of_nat (length (dl_webhooks d)))
  (Z.of_nat (length (dl_emails d))) (Z.of_nat (length (dl_runs d))) complete.

Lemma purge_spec n budget t a :
(0 < n)%nat → NoDup (e_id <$> a_events a) →
∃ d complete, purge_expired_data n budget false t a = Some (after_deletions d a, counts d complete) ∧
  within_deletions d (all_old t a) ∧ (complete = true → same_deletions d (all_old t a)) ∧
  (budget = None → complete = true).
Proof.
intros Hn Hnd. unfold purge_expired_data. set (cutoff := t - days retention_days).
assert (Hnil : ∀ ids1 ids2, delete_deliveries [] (delete_deliveries ids2 (delete_events ids1 a)) =
  delete_deliveries ids2 (delete_events ids1 a)).
{ intros. apply (bl_nil _ _ (delete_deliveries_laws KIND_EMAIL cutoff)). }
assert (Hnil' : ∀ b, delete_deliveries [] b = b) by apply (bl_nil _ _ (delete_deliveries_laws KIND_EMAIL cutoff)).
assert (Hnilr : ∀ b, delete_runs [] b = b) by apply (bl_nil _ _ (delete_runs_laws cutoff)).
destruct (delete_in_batches_spec _ _ (delete_events_laws cutoff) n budget a Hn
  ltac:(by apply NoDup_fmap_filter)) as (ev & b1 & [] & -> & Hev & Hevc & Hev0); simpl; cycle 1.
{ exists (Deletions ev [] [] []), false. unfold after_deletions, within_deletions. simpl.
  rewrite Hnilr, !Hnil'. split_and!; try done; try apply submseteq_nil_l. intros Hb. by destruct (Hev0 Hb). }
destruct (delete_in_batches_spec _ _ (delete_deliveries_laws KIND_WEBHOOK cutoff) n b1 (delete_events ev a) Hn
  (NoDup_keys _)) as (wh & b2 & [] & -> & Hwh & Hwhc & Hwh0); simpl; cycle 1.
{ exists (Deletions ev wh [] []), false. unfold after_deletions, within_deletions. simpl.
  rewrite Hnilr, !Hnil'. split_and!; try done; try apply submseteq_nil_l. intros Hb.
  destruct (Hev0 Hb) as [_ Hb1]. by destruct (Hwh0 Hb1). }
set (a2 := delete_deliveries wh (delete_events ev a)).
assert (Hem : old_deliveries KIND_EMAIL cutoff a2 ≡ₚ old_deliveries KIND_EMAIL cutoff a).
{ unfold a2. by rewrite (other_kind KIND_WEBHOOK KIND_EMAIL cutoff). }
destruct (delete_in_batches_spec _ _ (delete_deliveries_laws KIND_EMAIL cutoff) n b2 a2 Hn
  (NoDup_keys _)) as (em & b3 & [] & -> & Hems & Hemc & Hem0); simpl; cycle 1.
{ exists (Deletions ev wh em []), false. unfold after_deletions, within_deletions. simpl.
  rewrite Hnilr, Hem in *. split_and!; try done; try apply submseteq_nil_l. intros Hb.
  destruct (Hev0 Hb) as [_ Hb1]. destruct (Hwh0 Hb1) as [_ Hb2]. by destruct (Hem0 Hb2). }
unfold purge_old_runs. set (a3 := delete_deliveries em a2).
destruct (delete_in_batches_spec _ _ (delete_runs_laws (t - days RUN_RETENTION_DAYS)) n b3 a3 Hn
  (NoDup_keys _)) as (rn & b4 & complete & -> & Hrn & Hrnc & Hrn0); simpl.
exists (Deletions ev wh em rn), complete. rewrite Hem in Hems, Hemc. split_and!; try done.
- intros Hc. split_and!; [by apply Hevc|by apply Hwhc|by apply Hemc|by apply Hrnc].
- intros Hb. destruct (Hev0 Hb) as [_ Hb1]. destruct (Hwh0 Hb1) as [_ Hb2]. destruct (Hem0 Hb2) as [_ Hb3].
  by destruct (Hrn0 Hb3).
Qed.

(** *** Counting *)
Lemma count_list {A} (key : A → N) ids (l : list A) : ids ⊆+ key <$> l → NoDup (key <$> l) →
Z.of_nat (length ids) = Z.of_nat (length l) - Z.of_nat (length (filter (λ x, key x ∉ ids) l)).
Proof.
intros Hids Hnd.
assert (Hlen : ∀ l : list A, length (filter (λ x, key x ∉ ids) l) = length (filter (λ k, k ∉ ids) (key <$> l))).
{ clear. intros l. induction l as [|x l IH]; [done|]. rewrite fmap_cons, !filter_cons.
  case_decide; simpl; congruence. }
rewrite Hlen, <- (length_fmap key l). apply submseteq_Permutation in Hids as [rest Hp].
rewrite Hp in Hnd |- *. apply NoDup_app in Hnd as (_ & Hdis & _). rewrite filter_app, !length_app.
assert (Hno : ∀ l, (∀ k, k ∈ l → k ∈ ids) → filter (λ k, k ∉ ids) l = []).
{ clear. intros l Hl. induction l as [|k l IH]; [done|]. rewrite filter_cons_False.
  - apply IH. intros k' Hk'. apply Hl. by right.
  - intros Hk. apply Hk, Hl. by left. }
rewrite Hno by done. assert (Hyes : filter (λ k, k ∉ ids) rest = rest).
{ clear -Hdis. induction rest as [|k rest IH]; [done|].
  rewrite filter_cons_True by (intros Hk; eapply Hdis; [exact Hk|by left]).
  f_equal. apply IH. intros k' Hk' Hin. eapply Hdis; [exact Hk'|by right]. }
rewrite Hyes. simpl. lia.
Qed.
Lemma count_map {A} ids (m : gmap N A) : NoDup ids → (∀ k, k ∈ ids → is_Some (m !! k)) →
Z.of_nat (length ids) = Z.of_nat (size m) - Z.of_nat (size (filter (λ kx, kx.1 ∉ ids) m)).
Proof.
intros Hnd Hids.
assert (Hd : dom (filter (λ kx, kx.1 ∉ ids) m) = dom m ∖ list_to_set ids).
{ apply set_eq. intros k. rewrite elem_of_difference, elem_of_list_to_set, !elem_of_dom. split.
  - intros [x [Hx Hk]%map_lookup_filter_Some]. split; [by exists x|done].
  - intros [[x Hx] Hk]. exists x. by apply map_lookup_filter_Some. }
rewrite <- (size_dom (filter _ m)), Hd, <- (size_dom m), size_difference.
2: { intros k. rewrite elem_of_list_to_set, elem_of_dom. apply Hids. }
rewrite size_list_to_set by done.
assert (Hle : (length ids <= size (dom m))%nat).
{ rewrite <- (size_list_to_set (C := gset N)) by done. apply subseteq_size.
  intros k. rewrite elem_of_list_to_set, elem_of_dom. apply Hids. }
lia.
Qed.

(** Which rows are too old: the events of more than [retention_days], the deliveries of
    that age that are finished, the runs of more than a week. *)
Definition old_row (t : datetime) (x : action_outbox) : Prop :=
(x_status x = STATUS_DELIVERED ∨ x_status x = STATUS_DEAD) ∧ x_created_at x < t - days retention_days.
Lemma finished_delivery_iff x : finished_delivery x = true ↔ x_status x = STATUS_DELIVERED ∨ x_status x = STATUS_DEAD.
Proof. unfold finished_delivery. by rewrite orb_true_iff, !bool_decide_eq_true. Qed.

Lemma old_deliveries_iff t a k :
k ∈ old_deliveries KIND_WEBHOOK (t - days retention_days) a ++
    old_deliveries KIND_EMAIL (t - days retention_days) a ↔
∃ x, a_outbox a !! k = Some x ∧ old_row t x.
Proof.
rewrite elem_of_app. unfold old_deliveries. rewrite !elem_of_keys. unfold old_row, old_delivery. simpl.
setoid_rewrite andb_true_iff. setoid_rewrite andb_true_iff. setoid_rewrite finished_delivery_iff.
setoid_rewrite bool_decide_eq_true.
setoid_rewrite Z.ltb_lt. split.
- intros [(x & Hx & [? _] & ?)|(x & Hx & [? _] & ?)]; eauto.
- intros (x & Hx & ? & ?). destruct (x_delivery_kind x) eqn:Hk; [left|right]; exists x; auto.
Qed.

Lemma old_runs_iff t a k : k ∈ old_runs t a ↔ ∃ r, a_runs a !! k = Some r ∧ n_started_at r < t.
Proof.
unfold old_runs. rewrite elem_of_keys. unfold old_run. simpl. by setoid_rewrite Z.ltb_lt.
Qed.
Lemma old_deliveries_nodup cutoff a :
NoDup (old_deliveries KIND_WEBHOOK cutoff a ++ old_deliveries KIND_EMAIL cutoff a).
Proof.
apply NoDup_app. split_and!; [apply NoDup_keys| |apply NoDup_keys]. intros k Hk Hk'.
unfold old_deliveries in *. rewrite elem_of_keys in Hk, Hk'.
destruct Hk as (x & Hx & Hp), Hk' as (y & Hy & Hq). simplify_eq. simpl in *. unfold old_delivery in *.
rewrite !andb_true_iff, !bool_decide_eq_true in *. destruct Hp as [[_ ?] _], Hq as [[_ ?] _]. congruence.
Qed.
(** What a deletion of the keys [ids] does to a table, when all of them satisfy [P]. *)
Lemma nodup_key_inj {A} (key : A → N) (l : list A) x y : NoDup (key <$> l) → x ∈ l → y ∈ l →
key x = key y → x = y.
Proof.
induction l as [|z l IH]; intros Hnd Hx Hy Hk; [by apply elem_of_nil in Hx|].
rewrite fmap_cons in Hnd. apply NoDup_cons in Hnd as [Hz Hnd].
apply elem_of_cons in Hx as [->|Hx], Hy as [->|Hy]; [done| | |by apply IH].
- destruct Hz. rewrite Hk. by apply list_elem_of_fmap_2.
- destruct Hz. rewrite <- Hk. by apply list_elem_of_fmap_2.
Qed.
Lemma submseteq_nodup {A} (l k : list A) : NoDup k → l ⊆+ k → NoDup l.
Proof. intros Hk [r Hp]%submseteq_Permutation. rewrite Hp in Hk. by apply NoDup_app in Hk as []. Qed.
Lemma sublist_fmap_filter {A B} (f : A → B) (P : A → Prop) `{∀ x, Decision (P x)} (l : list A) :
f <$> filter P l `sublist_of` f <$> l.
Proof.
induction l as [|x l IH]; [done|]. rewrite filter_cons, fmap_cons. case_decide; [rewrite fmap_cons|]; by constructor.
Qed.
Lemma events_part cutoff ev a : NoDup (e_id <$> a_events a) → ev ⊆+ old_events cutoff a →
let l := filter (λ e, e_id e ∉ ev) (a_events a) in
(∀ e, e ∈ l → e ∈ a_events a) ∧
(∀ e, e ∈ a_events a → e ∉ l → e_created_at e < cutoff) ∧
Z.of_nat (length ev) = Z.of_nat (length (a_events a)) - Z.of_nat (length l) ∧
(ev ≡ₚ old_events cutoff a → ∀ e, e ∈ l → cutoff ≤ e_created_at e).
Proof.
intros Hnd Hev l. split_and!.
- intros e [_ ?]%list_elem_of_filter. done.
- intros e He Hl. destruct (decide (e_id e ∈ ev)) as [Hin|Hin].
  + eapply elem_of_submseteq in Hin; [|exact Hev].
    apply list_elem_of_fmap in Hin as (e' & Hk & [Hold He']%list_elem_of_filter).
    rewrite (nodup_key_inj e_id (a_events a) e e') by done. by apply Z.ltb_lt.
  + destruct Hl. by apply list_elem_of_filter.
- apply count_list; [|done]. etrans; [exact Hev|]. apply sublist_submseteq.
  unfold old_events. apply sublist_fmap_filter.
- intros Hp e [Hni He]%list_elem_of_filter. rewrite Hp in Hni.
  destruct (Z.ltb_spec (e_created_at e) cutoff) as [Hlt|]; [|done]. destruct Hni.
  apply list_elem_of_fmap. exists e. split; [done|]. apply list_elem_of_filter. split; [|done]. by apply Z.ltb_lt.
Qed.
Lemma map_part {A} (P : A → Prop) (ids : list N) (m : gmap N A) : NoDup ids →
(∀ k, k ∈ ids → ∃ x, m !! k = Some x ∧ P x) →
let m' := filter (λ kx, kx.1 ∉ ids) m in
(∀ i x, m' !! i = Some x → m !! i = Some x) ∧
(∀ i x, m !! i = Some x → m' !! i = None → P x) ∧
(∀ i, i ∈ ids ↔ is_Some (m !! i) ∧ m' !! i = None) ∧
Z.of_nat (length ids) = Z.of_nat (size m) - Z.of_nat (size m') ∧
((∀ k x, m !! k = Some x → P x → k ∈ ids) → ∀ i x, m' !! i = Some x → ¬ P x).
Proof.
intros Hnd Hids m'.
assert (Hin : ∀ i x, m !! i = Some x → m' !! i = None → i ∈ ids).
{ intros i x Hx Hn. apply map_lookup_filter_None in Hn as [Hn|Hn]; [by rewrite Hx in Hn|].
  specialize (Hn x Hx). simpl in Hn. by destruct (decide (i ∈ ids)). }
split_and!.
- intros i x [? _]%map_lookup_filter_Some. done.
- intros i x Hx Hn. destruct (Hids i (Hin i x Hx Hn)) as (x' & Hx' & HP). by simplify_eq.
- intros i. split; [|intros [[x Hx] Hn]; by eapply Hin].
  intros Hi. destruct (Hids i Hi) as (x & Hx & _). split; [by exists x|].
  apply map_lookup_filter_None. right. intros y _ Hy. by apply Hy.
- apply count_map; [done|]. intros k Hk. destruct (Hids k Hk) as (x & ? & _). by exists x.
- intros Hall i x [Hx Hni]%map_lookup_filter_Some HP. apply Hni. by eapply Hall.
Qed.

(** C21: The purge removes nothing but what is too old: events past the retention period,
    deliveries past it that are delivered or dead together with their attempts, and runs
    of more than a week; a delivery that is still to be retried stays whatever its age.
    Without a deadline, or when it reports to be complete, nothing of this is left; and
    its counts are the numbers of rows that went. *)
Theorem purge_expired_exact n budget t a :
(0 < n)%nat → NoDup (e_id <$> a_events a) →
∃ a' stats, purge_expired_data n budget false t a = Some (a', stats) ∧
  (∀ e, e ∈ a_events a' → e ∈ a_events a) ∧
  (∀ e, e ∈ a_events a → e ∉ a_events a' → e_created_at e < t - days retention_days) ∧
  (∀ i x, a_outbox a' !! i = Some x → a_outbox a !! i = Some x) ∧
  (∀ i x, a_outbox a !! i = Some x → a_outbox a' !! i = None → old_row t x) ∧
  (∀ att, att ∈ a_attempts a' ↔ att ∈ a_attempts a ∧
     ¬ (is_Some (a_outbox a !! t_outbox_id att) ∧ a_outbox a' !! t_outbox_id att = None)) ∧
  (∀ i r, a_runs a' !! i = Some r → a_runs a !! i = Some r) ∧
  (∀ i r, a_runs a !! i = Some r → a_runs a' !! i = None → n_started_at r < t - days RUN_RETENTION_DAYS) ∧
  ps_events stats = Z.of_nat (length (a_events a)) - Z.of_nat (length (a_events a')) ∧
  ps_webhook_deliveries stats + ps_email_events stats =
    Z.of_nat (size (a_outbox a)) - Z.of_nat (size (a_outbox a')) ∧
  ps_scheduled_job_runs stats = Z.of_nat (size (a_runs a)) - Z.of_nat (size (a_runs a')) ∧
  (ps_complete stats = true →
     (∀ e, e ∈ a_events a' → t - days retention_days ≤ e_created_at e) ∧
     (∀ i x, a_outbox a' !! i = Some x → ¬ old_row t x) ∧
     (∀ i r, a_runs a' !! i = Some r → t - days RUN_RETENTION_DAYS ≤ n_started_at r)) ∧
  (budget = None → ps_complete stats = true).
Proof.
intros Hn Hnd. destruct (purge_spec n budget t a Hn Hnd) as (d & complete & Hp & Hw & Hc & Hb).
exists (after_deletions d a), (counts d complete). split; [exact Hp|]. clear Hp.
destruct d as [ev wh em rn], Hw as (Hev & Hwh & Hem & Hrn). unfold same_deletions in Hc.
cbn [dl_events dl_webhooks dl_emails dl_runs all_old] in *.
destruct (events_part _ ev a Hnd Hev) as (He1 & He2 & He3 & He4).
destruct (map_part (old_row t) (wh ++ em) (a_outbox a)) as (Ho1 & Ho2 & Ho3 & Ho4 & Ho5).
{ eapply submseteq_nodup; [|by apply submseteq_app; [exact Hwh|exact Hem]]. apply old_deliveries_nodup. }
{ intros k Hk. apply old_deliveries_iff. eapply elem_of_submseteq; [exact Hk|]. by apply submseteq_app. }
destruct (map_part (λ r, n_started_at r < t - days RUN_RETENTION_DAYS) rn (a_runs a)) as (Hr1 & Hr2 & _ & Hr4 & Hr5).
{ eapply submseteq_nodup; [|exact Hrn]. apply NoDup_keys. }
{ intros k Hk. eapply elem_of_submseteq in Hk; [|exact Hrn]. by apply old_runs_iff. }
rewrite <- map_filter_app_keys in Ho1, Ho2, Ho3, Ho4, Ho5. rewrite length_app in Ho4.
split_and!; [exact He1|exact He2|exact Ho1|exact Ho2| |exact Hr1|exact Hr2|exact He3| |exact Hr4| |exact Hb].
- intros att. rewrite <- (Ho3 (t_outbox_id att)). unfold after_deletions. simpl.
  rewrite (list_filter_app_keys t_outbox_id), list_elem_of_filter. tauto.
- simpl. rewrite <- Nat2Z.inj_add. exact Ho4.
- intros Hcomplete. destruct (Hc Hcomplete) as (Hpe & Hpw & Hpm & Hpr). split_and!.
  + intros e He. by apply He4.
  + apply Ho5. intros k x Hx Hold. rewrite Hpw, Hpm. apply old_deliveries_iff. eauto.
  + intros i r Hr. apply Z.nlt_ge. revert i r Hr. apply Hr5. intros k x Hx Hold. rewrite Hpr.
    apply old_runs_iff. eauto.
Qed.
End retention.

(** An old event and a new one, an old delivery that is done and one that is not. *)
Module RetentionDemo.
Definition row (i : uuid) (st : outbox_status) : action_outbox :=
  ActionOutbox i 7 None KIND_EMAIL "storage.object.uploaded" JNull st 1 None None "" 0 0 None.
Definition attempt (i : uuid) : delivery_attempt :=
  DeliveryAttempt i STATUS_FAILURE None "refused" 1 None TRIGGER_DISPATCH None 0.
Definition tables : actions_db :=
  ActionsDb ∅ {[ 5%N := row 5 STATUS_DEAD; 6%N := row 6 STATUS_FAILED ]} [attempt 5; attempt 6]
    [EventLog 1 (Some 7) None "storage.object.uploaded" [] 0;
     EventLog 2 (Some 7) None "storage.object.uploaded" [] (99 * us_per_day)] [] ∅ ∅ ∅ ∅ 3.
End RetentionDemo.
Import RetentionDemo.
Lemma purge_expired_exact_witness :
  ∃ a' stats, purge_expired_data (H := demo_actions) 10 None false (100 * us_per_day) tables = Some (a', stats) ∧
    stats = PurgeStats 1 0 1 0 true ∧ e_id <$> a_events a' = [2%N] ∧
    (∀ i x, a_outbox a' !! i = Some x → a_outbox tables !! i = Some x) ∧
    t_outbox_id <$> a_attempts a' = [6%N].
Proof.
  destruct (purge_expired_exact (H := demo_actions) 10 None (100 * us_per_day) tables)
    as (a' & stats & Heq & _ & _ & Hout & _); [lia|by vm_compute; repeat constructor; set_solver|].
  exists a', stats. split; [exact Heq|]. assert (Heq' := Heq). vm_compute in Heq'. injection Heq' as <- <-.
  split; [reflexivity|]. split; [reflexivity|]. split; [exact Hout|reflexivity].
Defined.
(** A purge with time for one batch stops, and says so. *)
Example purge_out_of_time :
  snd <$> purge_expired_data (H := demo_actions) 10 (Some 1%nat) false (100 * us_per_day) tables
  = Some (PurgeStats 1 0 0 0 false).
Proof. vm_compute. reflexivity. Qed.
