(* ===== verification/Jobs.v ===== *)
(** * Jobs: run recording and health of the scheduled jobs ([apps/actions/scheduled_jobs.py])

    A run is recorded in two steps around the work of the job: [start_run] writes a row
    with status running and closes rows of workers that died; [finish_run] writes the
    outcome, an event, the latest timestamps and the counters.  [record_run] is their
    composition.  The text that describes an exception and the name of the host are
    parameters; logging and Sentry are not modelled. *)
From S2P Require Import Prelude PyStr Models PyData Access Registry Events.

(** ** The jobs *)
Record JobSpec := Spec {
  js_name : string;
  js_interval_seconds : Z;
  js_overdue_after_seconds : Z;
  js_max_runtime_seconds : Z;
  js_item_kinds : list string;
  js_cron_minute : option Z }.

Definition us (seconds : Z) : Z := seconds * 1000000.
(** [moment.replace(minute=m, second=0, microsecond=0)] *)
Definition at_minute (m : Z) (moment : datetime) : datetime :=
  moment - moment mod us 3600 + us (60 * m).
Definition next_after (spec : JobSpec) (moment : datetime) : datetime :=
  match js_cron_minute spec with
  | None => moment + us (js_interval_seconds spec)
  | Some m => let candidate := at_minute m moment in
              if candidate <=? moment then candidate + us 3600 else candidate
  end.

Definition RETRY_WEBHOOKS : JobSpec :=
  Spec "retry_webhooks" 60 180 120
    ["webhook_deliveries_attempted"; "webhook_deliveries_succeeded"; "webhook_deliveries_failed";
     "webhook_deliveries_given_up"; "email_events_attempted"; "email_events_succeeded";
     "email_events_failed"; "email_events_given_up"] None.
Definition PURGE_EXPIRED_DATA : JobSpec :=
  Spec "purge_expired_data" 3600 8100 900
    ["events"; "webhook_deliveries"; "email_events"; "scheduled_job_runs"] (Some 17).
Definition JOBS : list JobSpec := [RETRY_WEBHOOKS; PURGE_EXPIRED_DATA].
Definition get_job (name : string) : exn + JobSpec :=
  match List.find (λ s, js_name s == name) JOBS with Some s => inr s | None => inl ValueError end.

Definition ERROR_INTERRUPTED : string := "interrupted".
Definition EVENT_SUCCEEDED : string := "storage.scheduled_job.succeeded".
Definition EVENT_FAILED : string := "storage.scheduled_job.failed".
Definition trigger_value (t : run_trigger) : string :=
  match t with TRIGGER_CELERY => "celery" | TRIGGER_COMMAND => "command" end.
Definition run_status_value (s : run_status) : string :=
  match s with
  | STATUS_RUNNING => "running" | STATUS_SUCCEEDED => "succeeded"
  | STATUS_RUN_FAILED => "failed" | STATUS_SKIPPED_LOCKED => "skipped_locked" end.

(** ** Counters and state *)
Definition runs_counter (s : run_status) : string := "runs." +:+ run_status_value s.
Definition increment (job name : string) (amount : Z) : prog unit :=
  if amount <=? 0 then ret tt
  else modify_actions (set_counters (partial_alter (λ v, Some (default 0 v + amount)) (job, name))).
Definition fresh_state (t : datetime) : scheduled_job_state := ScheduledJobState t None None None None None.
Definition ensure_state (job : string) : prog unit :=
  t <- now ;;
  modify_actions (set_states (partial_alter (λ s, Some (default (fresh_state t) s)) job)).
Definition ensure_states : prog unit := for_each (js_name <$> JOBS) ensure_state.
Definition int_counts (spec : JobSpec) (counts : list (string * json)) : list (string * Z) :=
  omap (λ kind, match dict_get kind counts with Some (JInt n) => Some (kind, n) | _ => None end)
    (js_item_kinds spec).

(** ** Recording *)
Definition with_outcome (status : run_status) (finished : datetime) (duration_ms : option Z)
  (counts : list (string * json)) (error : string * string * string) (event : option N)
  (r : scheduled_job_run) : scheduled_job_run :=
  let '(key, class, message) := error in
  ScheduledJobRun (n_id r) (n_job r) (n_trigger r) status (n_started_at r) (Some finished) duration_ms
    counts key class message (n_host r) event.
Definition stale (spec : JobSpec) (current r : scheduled_job_run) : bool :=
  (n_job r == js_name spec) && (n_status r == STATUS_RUNNING)
  && (n_started_at r <? n_started_at current - us (js_max_runtime_seconds spec))
  && (n_id r != n_id current).
(** The update of the stale rows: duration, counts and event stay. *)
Definition interrupted (current r : scheduled_job_run) : scheduled_job_run :=
  with_outcome STATUS_RUN_FAILED (n_started_at current) (n_duration_ms r) (n_counts r)
    (ERROR_INTERRUPTED, "", "") (n_event_log_id r) r.
Definition close_stale (spec : JobSpec) (current : scheduled_job_run) : prog Z :=
  a <- get_actions ;;
  let count := Z.of_nat (size (filter (λ kr, stale spec current kr.2 = true) (a_runs a))) in
  modify_actions (set_runs (fmap (λ r, if stale spec current r then interrupted current r else r))) ;;;
  ret count.
Definition mark_interrupted (spec : JobSpec) (current : scheduled_job_run) : prog unit :=
  count <- close_stale spec current ;;
  increment (js_name spec) (runs_counter STATUS_RUN_FAILED) count.

Definition platform_payload (run : scheduled_job_run) : list (string * json) :=
  [("run_id", JInt (Z.of_N (n_id run))); ("job", JStr (n_job run));
   ("trigger", JStr (trigger_value (n_trigger run))); ("duration_ms", opt_int (n_duration_ms run));
   ("counts", JObj (n_counts run)); ("host", JStr (n_host run)); ("error_key", JStr (n_error_key run));
   ("error_class", JStr (n_error_class run))].
Definition record_platform_event (run : scheduled_job_run) : prog N :=
  id <- next_pk ;; t <- now ;;
  let et := if n_status run == STATUS_SUCCEEDED then EVENT_SUCCEEDED else EVENT_FAILED in
  modify_actions (set_events (λ l, l ++ [EventLog id None None et (platform_payload run) t])) ;;;
  ret id.

(** What the database does on [save(update_fields=...)] of a row that is gone. *)
Definition no_rows_affected : exn := OtherError "DatabaseError".
Definition save_run (run : scheduled_job_run) : prog unit :=
  a <- get_actions ;;
  match a_runs a !! n_id run with
  | None => raise no_rows_affected
  | Some _ => modify_actions (set_runs (insert (n_id run) run))
  end.
Definition note_outcome (ok : bool) (t : datetime) (duration_ms : Z) (s : scheduled_job_state) :
  scheduled_job_state :=
  ScheduledJobState (s_created_at s) (s_last_started_at s)
    (if ok then Some t else s_last_success_at s) (if ok then s_last_failure_at s else Some t)
    (s_last_skipped_at s) (Some duration_ms).
Definition note_started (t : datetime) (s : scheduled_job_state) : scheduled_job_state :=
  ScheduledJobState (s_created_at s) (Some t) (s_last_success_at s) (s_last_failure_at s)
    (s_last_skipped_at s) (s_last_duration_ms s).
Definition note_skipped (t : datetime) (s : scheduled_job_state) : scheduled_job_state :=
  ScheduledJobState (s_created_at s) (s_last_started_at s) (s_last_success_at s)
    (s_last_failure_at s) (Some t) (s_last_duration_ms s).

(** [describe_error]: the key, the class and the sanitised message of an exception. *)
Class ErrorText := { describe_error : exn → string * string * string }.

Section recording.
Context `{ErrorText} (host_id : string).

Definition create_run (spec : JobSpec) (trigger : run_trigger) : prog scheduled_job_run :=
id <- next_pk ;; t <- now ;;
let run := ScheduledJobRun id (js_name spec) trigger STATUS_RUNNING t None None [] "" "" "" host_id None in
modify_actions (set_runs (insert id run)) ;;;
ret run.
Definition start_run (spec : JobSpec) (trigger : run_trigger) : prog scheduled_job_run :=
run <- create_run spec trigger ;;
ensure_state (js_name spec) ;;;
modify_actions (set_states (alter (note_started (n_started_at run)) (js_name spec))) ;;;
mark_interrupted spec run ;;;
ret run.

(** The fields [_finish] sets; [exc] is the exception of a failed run. *)
Definition ended_run (run : scheduled_job_run) (t : datetime) (duration_ms : Z)
  (counts : list (string * json)) (exc : option exn) : scheduled_job_run :=
with_outcome (if exc is Some _ then STATUS_RUN_FAILED else STATUS_SUCCEEDED) t (Some (Z.max 0 duration_ms)) counts
  (match exc with Some e => describe_error e | None => (n_error_key run, n_error_class run, n_error_message run) end)
  (n_event_log_id run) run.
Definition with_event (event : N) (r : scheduled_job_run) : scheduled_job_run :=
ScheduledJobRun (n_id r) (n_job r) (n_trigger r) (n_status r) (n_started_at r) (n_finished_at r)
  (n_duration_ms r) (n_counts r) (n_error_key r) (n_error_class r) (n_error_message r) (n_host r) (Some event).
(** [duration_ms]: the time the clock measured.  The statements run one by one, without a
    transaction; [JobHistory] interleaves them. *)
Definition finish_run (run : scheduled_job_run) (spec : JobSpec) (duration_ms : Z)
  (counts : list (string * json)) (exc : option exn) : prog unit :=
t <- now ;;
let run' := ended_run run t duration_ms counts exc in
event <- record_platform_event run' ;;
save_run (with_event event run') ;;;
modify_actions (set_states (alter (note_outcome (bool_decide (exc = None)) t (Z.max 0 duration_ms)) (js_name spec))) ;;;
increment (js_name spec) (runs_counter (n_status run')) 1 ;;;
for_each (int_counts spec counts) (λ kn, increment (js_name spec) ("items." +:+ kn.1) kn.2).
(** An exception of [_finish] is logged. *)
Definition safe_finish (run : scheduled_job_run) (spec : JobSpec) (duration_ms : Z)
  (counts : list (string * json)) (exc : option exn) : prog unit :=
try_except (finish_run run spec duration_ms counts exc) (λ _, Some (ret tt)).

(** The block of [with record_run(job, trigger) as recorder] after the run was written:
  [result, counts = work(recorder.run.pk); recorder.set_counts(counts)]. *)
Definition run_block {A} (spec : JobSpec) (run : scheduled_job_run) (duration_ms : Z)
  (work : N → prog (A * list (string * json))) : prog (A * N) :=
r <- try_except (work (n_id run)) (λ e, Some (safe_finish run spec duration_ms [] (Some e) ;;; raise e)) ;;
let '(result, counts) := r in
safe_finish run spec duration_ms counts None ;;;
ret (result, n_id run).
Definition record_run {A} (job : string) (trigger : run_trigger) (duration_ms : Z)
  (work : N → prog (A * list (string * json))) : prog (A * N) :=
spec <- lift_sum (get_job job) ;;
run <- start_run spec trigger ;;
run_block spec run duration_ms work.

(** [ScheduledJobFailed] *)
Definition run_failed (job : string) (run_id : string) (e : exn) : exn :=
let '(_, error_class, message) := describe_error e in
OtherError (job +:+ " failed: " +:+ error_class +:+ ": " +:+ message +:+ " (run_id=" +:+ run_id +:+ ")").
Definition run_recorded {A} (job : string) (trigger : run_trigger) (duration_ms : Z)
  (work : N → prog (A * list (string * json))) : prog (A * N) :=
started <- try_except (spec <- lift_sum (get_job job) ;; run <- start_run spec trigger ;; ret (spec, run))
             (λ e, Some (raise (run_failed job "-" e))) ;;
let '(spec, run) := started in
try_except (run_block spec run duration_ms work)
  (λ e, Some (raise (run_failed job (str_int (Z.of_N (n_id run))) e))).

Definition record_skipped (job : string) : prog unit :=
spec <- lift_sum (get_job job) ;;
ensure_state (js_name spec) ;;;
t <- now ;;
modify_actions (set_states (alter (note_skipped t) (js_name spec))) ;;;
increment (js_name spec) (runs_counter STATUS_SKIPPED_LOCKED) 1.
(** Never raises. *)
Definition record_failure_before_start (job : string) (trigger : run_trigger) (duration_ms : Z) (exc : exn) :
  prog unit :=
try_except (record_run (A := unit) job trigger duration_ms (λ _, raise exc) ;;; ret tt) (λ _, Some (ret tt)).
End recording.

(** ** The effect of an increment *)
Definition bump (job name : string) (n : Z) (a : actions_db) : actions_db :=
if n <=? 0 then a else set_counters (partial_alter (λ v, Some (default 0 v + n)) (job, name)) a.
#[local] Arguments bump : simpl never.
Lemma wp_increment job name n (Q : unit → world → Prop) R w :
Q tt (set_db (set_actions (bump job name n)) w) → wp (increment job name n) Q R w.
Proof.
unfold increment, bump. intros HQ. destruct (n <=? 0).
- apply wp_ret. destruct w. unfold set_db in HQ. simpl in HQ. by rewrite set_actions_id in HQ.
- exact HQ.
Qed.
Lemma bump_lookup job name n a key :
default 0 (a_counters (bump job name n a) !! key) =
default 0 (a_counters a !! key) + (if key == (job, name) then Z.max 0 n else 0).
Proof.
unfold bump. destruct (Z.leb_spec n 0).
- destruct (key == (job, name)); lia.
- simpl. destruct (bool_decide_reflect (key = (job, name))) as [->|Hk].
  + rewrite lookup_partial_alter_eq. simpl. lia.
  + rewrite lookup_partial_alter_ne by congruence. lia.
Qed.
Lemma acts_set f w : acts (set_db (set_actions f) w) = f (acts w).
Proof. done. Qed.
Lemma bump_runs job name n a : a_runs (bump job name n a) = a_runs a.
Proof. unfold bump. by destruct (n <=? 0). Qed.
Lemma bump_next job name n a : a_next_id (bump job name n a) = a_next_id a.
Proof. unfold bump. by destruct (n <=? 0). Qed.

(** A purge that outlives its maximal time: the next run declares it interrupted, then it
    ends well. *)
Module JobsDemo.
#[export] Instance error_text : ErrorText := {| describe_error _ := ("unexpected_error", "ValueError", "boom") |}.
Definition at_time (t : Z) (w : world) : world := World (w_db w) (w_blobs w) t (w_next_uuid w).
Definition idle : world := World empty_db ∅ 0 0.
Definition start (w : world) : world := (start_run "h:1" PURGE_EXPIRED_DATA TRIGGER_COMMAND w).2.
Definition the_run (id : N) (t : Z) : scheduled_job_run :=
  ScheduledJobRun id "purge_expired_data" TRIGGER_COMMAND STATUS_RUNNING t None None [] "" "" "" "h:1" None.
Definition started : world := start idle.
Definition overtaken : world := start (at_time (us 1000) started).
Definition done_late : world :=
  (safe_finish (the_run 1 0) PURGE_EXPIRED_DATA 1000000 [("events", JInt 4)] None overtaken).2.
End JobsDemo.
