(* ===== verification/JobHealth.v ===== *)
(** * JobHealth: outcomes, schedule and health of the scheduled jobs

    What one recorded run leaves behind, when a job is due next, and the health that
    [apps/actions/scheduled_jobs.py] computes from the rows; the staff pages of
    [apps/actions/scheduled_job_views.py] show them. *)
From S2P Require Import Prelude PyStr Models PyData Access Registry Events Jobs.

(** ** The outcome of a run *)
Section outcome.
Context `{ErrorText} (host : string).

Definition same_rows (w w' : world) : Prop :=
a_runs (acts w') = a_runs (acts w) ∧ a_events (acts w') = a_events (acts w) ∧
a_states (acts w') = a_states (acts w).
Lemma wp_increment_same job name n w0 w : same_rows w0 w →
wp (increment job name n) (λ _, same_rows w0) (λ _ _, False) w.
Proof. intros Hs. unfold increment. destruct (n <=? 0); [by apply wp_ret|]. exact Hs. Qed.

(** The record of a run that ended at [t], and its event. *)
Record run_outcome (t ms : Z) (counts : list (string * json)) (exc : option exn) (run row : scheduled_job_run)
  (ev : event_log) : Prop := RunOutcome {
ro_same : (n_id row, n_job row, n_trigger row, n_started_at row, n_host row) =
          (n_id run, n_job run, n_trigger run, n_started_at run, n_host run);
ro_status : n_status row = if exc is Some _ then STATUS_RUN_FAILED else STATUS_SUCCEEDED;
ro_finished : n_finished_at row = Some t ∧ n_duration_ms row = Some (Z.max 0 ms) ∧ n_counts row = counts;
ro_error : (n_error_key row, n_error_class row, n_error_message row) =
           match exc with Some e => describe_error e | None => ("", "", "") end;
ro_event : n_event_log_id row = Some (e_id ev) ∧ e_company_id ev = None ∧ e_data ev = platform_payload row ∧
           e_event_type ev = (if exc is Some _ then EVENT_FAILED else EVENT_SUCCEEDED) ∧ e_created_at ev = t }.

Lemma wp_finish_outcome run spec ms counts exc w :
(n_error_key run, n_error_class run, n_error_message run) = ("", "", "") →
is_Some (a_runs (acts w) !! n_id run) →
wp (safe_finish run spec ms counts exc)
  (λ _ w', ∃ row ev, run_outcome (w_now w) ms counts exc run row ev ∧
     a_runs (acts w') = <[n_id run := row]> (a_runs (acts w)) ∧ a_events (acts w') = a_events (acts w) ++ [ev] ∧
     a_states (acts w') = alter (note_outcome (bool_decide (exc = None)) (w_now w) (Z.max 0 ms)) (js_name spec)
                            (a_states (acts w)))
  (λ _ _, False) w.
Proof.
intros Herr [r Hr]. unfold safe_finish. apply wp_try.
unfold finish_run, ended_run, record_platform_event, next_pk, save_run, get_actions, modify_actions, modify_db, now.
wp_steps. unfold with_event. cbn [n_id with_outcome].
destruct (match exc with Some e => describe_error e | None => (n_error_key run, n_error_class run, n_error_message run) end) as [[key class] message] eqn:Hd.
cbn [n_id with_outcome n_status].
match goal with |- wp (match ?m !! ?i with _ => _ end) _ _ _ => change m with (a_runs (acts w)) end.
rewrite Hr. wp_steps.
match goal with |- wp _ _ _ ?w0 => set (w1 := w0) end.
eapply wp_mono; [by apply (wp_increment_same _ _ _ w1)| |done]. intros u w2 Hw2. cbv beta.
eapply (wp_mono _ _ _ (λ _ _, False)); [apply (wp_for_each_inv (same_rows w1)); [exact Hw2|]| |done].
{ intros kn w3 Hkn Hw3. eapply wp_mono; [by apply wp_increment_same|done|done]. }
intros u' w' (Hruns & Hevents & Hstates).
eexists _, _. split_and!; [|rewrite Hruns; reflexivity|rewrite Hevents; reflexivity|rewrite Hstates; reflexivity].
destruct exc as [e|]; split; simpl; try done.
- etrans; [symmetry; exact Hd|exact Herr].
Qed.

Lemma wp_start_blank spec trigger w :
wp (start_run host spec trigger)
  (λ run _, (n_error_key run, n_error_class run, n_error_message run) = ("", "", "")) (λ _ _, False) w.
Proof.
unfold start_run, create_run, next_pk, ensure_state, mark_interrupted, close_stale, get_actions, modify_actions, modify_db, now.
wp_steps. apply wp_increment. by wp_steps.
Qed.

(** One run of a job, recorded.  Once the run has started, whatever the work does that
    leaves the row of the run alone: the row ends with the outcome of the work, its counts or
    the description of its exception; one staff event with the same facts is logged, for no
    company; the latest timestamps of the job are noted; and the caller gets the result
    of the work, or an exception that carries no more than the description. *)
Theorem run_recorded_outcome {A} job spec trigger ms (work : N → prog (A * list (string * json))) w run w1 r w2 :
get_job job = inr spec → start_run host spec trigger w = (inr run, w1) →
work (n_id run) w1 = (r, w2) → is_Some (a_runs (acts w2) !! n_id run) →
let '(out, w') := run_recorded host job trigger ms work w in
let exc := match r with inl e => Some e | inr _ => None end in
out = match r with
      | inr (result, _) => inr (result, n_id run)
      | inl e => inl (run_failed job (str_int (Z.of_N (n_id run))) e)
      end ∧
∃ row ev,
  run_outcome (w_now w2) ms (match r with inr (_, counts) => counts | inl _ => [] end) exc run row ev ∧
  a_runs (acts w') = <[n_id run := row]> (a_runs (acts w2)) ∧ a_events (acts w') = a_events (acts w2) ++ [ev] ∧
  a_states (acts w') = alter (note_outcome (bool_decide (exc = None)) (w_now w2) (Z.max 0 ms)) (js_name spec)
                         (a_states (acts w2)).
Proof.
intros Hjob Hstart Hwork Hrow.
assert (Herr : (n_error_key run, n_error_class run, n_error_message run) = ("", "", "")).
{ pose proof (wp_start_blank spec trigger w) as Hwp. unfold wp in Hwp. by rewrite Hstart in Hwp. }
assert (Hblock : run_block spec run ms work w1 =
  match r with
  | inr (result, counts) => (inr (result, n_id run), (safe_finish run spec ms counts None w2).2)
  | inl e => (inl e, (safe_finish run spec ms [] (Some e) w2).2)
  end).
{ unfold run_block, bind at 1, try_except. rewrite Hwork. destruct r as [e|[result counts]].
  - pose proof (wp_finish_outcome run spec ms [] (Some e) w2 Herr Hrow) as Hwp. unfold wp in Hwp. unfold bind.
    by destruct (safe_finish _ _ _ _ _ w2) as [[]].
  - pose proof (wp_finish_outcome run spec ms counts None w2 Herr Hrow) as Hwp. unfold wp in Hwp. unfold bind.
    by destruct (safe_finish _ _ _ _ _ w2) as [[]]. }
assert (Hrec : run_recorded host job trigger ms work w =
  match r with
  | inr (result, counts) => (inr (result, n_id run), (safe_finish run spec ms counts None w2).2)
  | inl e => (inl (run_failed job (str_int (Z.of_N (n_id run))) e), (safe_finish run spec ms [] (Some e) w2).2)
  end).
{ unfold run_recorded, lift_sum, bind at 1, try_except at 1. rewrite Hjob. unfold bind, ret. rewrite Hstart.
  unfold try_except. rewrite Hblock. by destruct r as [e|[result counts]]. }
rewrite Hrec. destruct r as [e|[result counts]]; (split; [done|]).
- pose proof (wp_finish_outcome run spec ms [] (Some e) w2 Herr Hrow) as Hwp. unfold wp in Hwp.
  by destruct (safe_finish _ _ _ _ _ w2) as [[]].
- pose proof (wp_finish_outcome run spec ms counts None w2 Herr Hrow) as Hwp. unfold wp in Hwp.
  by destruct (safe_finish _ _ _ _ _ w2) as [[]].
Qed.
End outcome.

(** ** The schedule *)
Lemma at_minute_mod m moment : 0 ≤ m < 60 → at_minute m moment mod us 3600 = us (60 * m).
Proof.
intros Hm. unfold at_minute. replace (moment - moment mod us 3600 + us (60 * m))
  with (us (60 * m) + (moment / us 3600) * us 3600).
- rewrite Z.mod_add by done. apply Z.mod_small. unfold us. lia.
- pose proof (Z.div_mod moment (us 3600) ltac:(done)). lia.
Qed.

(** The next run of a job lies after the moment it is computed from, at most one
    interval away; and the next run of an hourly job is the first moment at its minute. *)
Theorem next_after_first spec moment : spec ∈ JOBS →
moment < next_after spec moment ≤ moment + us (js_interval_seconds spec) ∧
(∀ m, js_cron_minute spec = Some m →
   next_after spec moment mod us 3600 = us (60 * m) ∧
   ∀ t, moment < t → t mod us 3600 = us (60 * m) → next_after spec moment ≤ t).
Proof.
unfold JOBS. rewrite !elem_of_cons, elem_of_nil. intros [->|[->|[]]].
- split; [|done]. unfold next_after, us. simpl. lia.
- unfold next_after. cbn [js_cron_minute js_interval_seconds PURGE_EXPIRED_DATA].
  pose proof (at_minute_mod 17 moment ltac:(lia)) as Hmod.
  pose proof (Z.mod_pos_bound moment (us 3600) ltac:(done)) as Hb.
  pose proof (Z.div_mod moment (us 3600) ltac:(done)) as Hdm.
  assert (Hat : at_minute 17 moment = us 3600 * (moment / us 3600) + us 1020) by (unfold at_minute; change (us (60 * 17)) with (us 1020); lia).
  set (h := moment / us 3600) in *. change (us (60 * 17)) with (us 1020) in *.
  assert (Hus : us 3600 = 3600000000 ∧ us 1020 = 1020000000) by done. destruct Hus as [H1 H2].
  rewrite Hat in *. rewrite H1, H2 in *.
  assert (Hnext : ∀ t, moment < t → t mod 3600000000 = 1020000000 →
    (if 3600000000 * h + 1020000000 <=? moment then 3600000000 * h + 1020000000 + 3600000000
     else 3600000000 * h + 1020000000) ≤ t).
  { intros t Ht Htm. pose proof (Z.div_mod t 3600000000 ltac:(done)). case_match; nia. }
  split; [|intros m [= <-]; split].
  + destruct (Z.leb_spec (3600000000 * h + 1020000000) moment); lia.
  + change (us (60 * 17)) with 1020000000.
    destruct (3600000000 * h + 1020000000 <=? moment).
    * replace (3600000000 * h + 1020000000 + 3600000000) with (1020000000 + (h + 1) * 3600000000) by lia.
      by rewrite Z.mod_add.
    * replace (3600000000 * h + 1020000000) with (1020000000 + h * 3600000000) by lia. by rewrite Z.mod_add.
  + exact Hnext.
Qed.

(** ** Health *)
Inductive health := HEALTH_HEALTHY | HEALTH_OVERDUE | HEALTH_FAILING | HEALTH_DISABLED.
#[export] Instance health_eq : EqDecision health.
Proof. solve_decision. Defined.
Definition health_value (h : health) : string :=
  match h with HEALTH_HEALTHY => "healthy" | HEALTH_OVERDUE => "overdue"
             | HEALTH_FAILING => "failing" | HEALTH_DISABLED => "disabled" end.

Definition is_overdue (spec : JobSpec) (state : scheduled_job_state) (t : datetime) : bool :=
  let reference := default (s_created_at state) (s_last_success_at state) in
  us (js_overdue_after_seconds spec) <? t - reference.
Definition compute_health (spec : JobSpec) (state : scheduled_job_state)
  (last_finished : option scheduled_job_run) (t : datetime) (enabled : bool) : health :=
  let ever_ran := bool_decide (is_Some (s_last_started_at state)) || bool_decide (is_Some last_finished) in
  if negb enabled && negb ever_ran then HEALTH_DISABLED
  else if from_option (λ r, n_status r == STATUS_RUN_FAILED) false last_finished then HEALTH_FAILING
  else if is_overdue spec state t then HEALTH_OVERDUE
  else HEALTH_HEALTHY.
Definition next_expected_at (spec : JobSpec) (state : scheduled_job_state) (t : datetime) : datetime :=
  next_after spec (default t (s_last_started_at state)).

(** A job is shown healthy only if it succeeded in time and its last finished run did not
    fail. *)
Lemma healthy_iff spec state last t enabled :
  compute_health spec state last t enabled = HEALTH_HEALTHY ↔
  (enabled = true ∨ is_Some (s_last_started_at state) ∨ is_Some last) ∧
  (∀ r, last = Some r → n_status r ≠ STATUS_RUN_FAILED) ∧
  t - default (s_created_at state) (s_last_success_at state) ≤ us (js_overdue_after_seconds spec).
Proof.
  unfold compute_health, is_overdue.
  destruct (negb enabled && _) eqn:Hd.
  { split; [done|]. intros [Hrun _]. rewrite andb_true_iff, !negb_true_iff, orb_false_iff, !bool_decide_eq_false in Hd.
    destruct Hd as (-> & ? & ?). by destruct Hrun as [|[]]. }
  assert (Hrun : enabled = true ∨ is_Some (s_last_started_at state) ∨ is_Some last).
  { rewrite andb_false_iff, !negb_false_iff, orb_true_iff, !bool_decide_eq_true in Hd. tauto. }
  destruct last as [r|]; simpl; [destruct (bool_decide_reflect (n_status r = STATUS_RUN_FAILED)) as [Hr|Hr]|].
  - split; [done|]. intros (_ & Hf & _). by destruct (Hf r).
  - destruct (Z.ltb_spec (us (js_overdue_after_seconds spec)) (t - default (s_created_at state) (s_last_success_at state)));
      (split; [|intros (_ & _ & ?)]; [done || (intros _; split_and!; [done|by intros ? [= <-]|lia])|lia || done]).
  - destruct (Z.ltb_spec (us (js_overdue_after_seconds spec)) (t - default (s_created_at state) (s_last_success_at state)));
      (split; [|intros (_ & _ & ?)]; [done || (intros _; split_and!; [done|done|lia])|lia || done]).
Qed.

Definition request_id (run : scheduled_job_run) : string := "sjr-" +:+ str_int (Z.of_N (n_id run)).
(** [s or None] *)
Definition text_or_none (s : string) : json := if truthy s then JStr s else JNull.
Definition iso (t : option datetime) : json := opt_str (iso_utc <$> t).
Definition run_payload (run : scheduled_job_run) : list (string * json) :=
  [("id", JInt (Z.of_N (n_id run))); ("job", JStr (n_job run));
   ("trigger", JStr (trigger_value (n_trigger run))); ("status", JStr (run_status_value (n_status run)));
   ("started_at", JStr (iso_utc (n_started_at run))); ("finished_at", iso (n_finished_at run));
   ("duration_ms", opt_int (n_duration_ms run)); ("counts", JObj (n_counts run));
   ("error_key", text_or_none (n_error_key run)); ("error_class", text_or_none (n_error_class run));
   ("error_message", text_or_none (n_error_message run)); ("host", JStr (n_host run));
   ("request_id", JStr (request_id run)); ("event_log_id", opt_int (Z.of_N <$> n_event_log_id run))].

(** [.order_by('-started_at', '-id')] *)
Definition newer (r r' : scheduled_job_run) : bool :=
  (n_started_at r' <? n_started_at r) || ((n_started_at r =? n_started_at r') && (n_id r' <=? n_id r)%N).
Definition runs_of (name : string) (P : scheduled_job_run → bool) (a : actions_db) : list scheduled_job_run :=
  sort_by newer (filter (λ r, (n_job r == name) && P r = true) (rows (a_runs a))).
Definition last_run (name : string) (a : actions_db) : option scheduled_job_run :=
  head (runs_of name (λ _, true) a).
Definition last_finished_run (name : string) (a : actions_db) : option scheduled_job_run :=
  head (runs_of name (λ r, n_status r != STATUS_RUNNING) a).
Definition last_success_run (name : string) (a : actions_db) : option scheduled_job_run :=
  match last_finished_run name a with
  | Some r => if n_status r == STATUS_SUCCEEDED then Some r
              else head (runs_of name (λ r, n_status r == STATUS_SUCCEEDED) a)
  | None => head (runs_of name (λ r, n_status r == STATUS_SUCCEEDED) a)
  end.
Definition runs_since (name : string) (st : run_status) (since : datetime) (a : actions_db) : Z :=
  Z.of_nat (length (runs_of name (λ r, (n_status r == st) && (since <=? n_started_at r)) a)).

Definition BEAT_STALE_AFTER : Z := us 180.
Definition job_overview (enabled : bool) (t : datetime) (a : actions_db) (spec : JobSpec)
  (state : scheduled_job_state) : json :=
  let name := js_name spec in
  JObj [("job", JStr name);
        ("health", JStr (health_value (compute_health spec state (last_finished_run name a) t enabled)));
        ("overdue", JBool (is_overdue spec state t));
        ("interval_seconds", JInt (js_interval_seconds spec));
        ("overdue_after_seconds", JInt (js_overdue_after_seconds spec));
        ("last_run", from_option (λ r, JObj (run_payload r)) JNull (last_run name a));
        ("last_success_at", iso (s_last_success_at state));
        ("last_failure_at", iso (s_last_failure_at state));
        ("last_skipped_at", iso (s_last_skipped_at state));
        ("last_duration_ms", opt_int (s_last_duration_ms state));
        ("last_counts", JObj (from_option n_counts [] (last_success_run name a)));
        ("next_expected_at", iso (Some (next_expected_at spec state t)));
        ("last_24h", JObj [("succeeded", JInt (runs_since name STATUS_SUCCEEDED (t - us 86400) a));
                           ("failed", JInt (runs_since name STATUS_RUN_FAILED (t - us 86400) a))]);
        ("skipped_locked_total", JInt (default 0 (a_counters a !! (name, runs_counter STATUS_SKIPPED_LOCKED))))].
(** [enabled]: the scheduler setting; [redis]: what a PING yields; [beat]: the heartbeat. *)
Definition jobs_overview (enabled : bool) (redis : option bool) (beat : option datetime) : prog json :=
  ensure_states ;;;
  t <- now ;; a <- get_actions ;;
  ret (JObj [("generated_at", JStr (iso_utc t)); ("scheduler_enabled", JBool enabled);
             ("redis_reachable", from_option JBool JNull redis); ("beat_last_seen_at", iso beat);
             ("beat_stale", JBool (enabled && from_option (λ b, BEAT_STALE_AFTER <? t - b) true beat));
             ("jobs", JList (omap (λ spec, job_overview enabled t a spec <$> (a_states a !! js_name spec)) JOBS))]).

(** ** Examples *)
Import JobsDemo.
Definition failing_work (_ : N) : prog (unit * list (string * json)) := raise ValueError.
Lemma run_recorded_outcome_witness :
  ∃ w', run_recorded "h:1" "retry_webhooks" TRIGGER_CELERY 12 failing_work idle =
          (inl (OtherError "retry_webhooks failed: ValueError: boom (run_id=1)"), w') ∧
    ∃ row ev, run_outcome 0 12 [] (Some ValueError)
                (ScheduledJobRun 1 "retry_webhooks" TRIGGER_CELERY STATUS_RUNNING 0 None None [] "" "" "" "h:1" None) row ev ∧
      a_events (acts w') = [ev].
Proof.
  set (started := start_run "h:1" RETRY_WEBHOOKS TRIGGER_CELERY idle).
  assert (Hrow : is_Some (a_runs (acts started.2) !! 1%N)) by (vm_compute; eauto).
  pose proof (run_recorded_outcome "h:1" "retry_webhooks" RETRY_WEBHOOKS TRIGGER_CELERY 12 failing_work idle
    _ _ _ _ eq_refl eq_refl eq_refl Hrow) as Hout.
  destruct (run_recorded "h:1" "retry_webhooks" TRIGGER_CELERY 12 failing_work idle) as [out w'] eqn:Heq.
  destruct Hout as (-> & row & ev & Hro & _ & Hev & _). exists w'.
  split; [reflexivity|]. exists row, ev. split; [exact Hro|exact Hev].
Defined.
Lemma next_after_first_witness :
  us 0 < next_after PURGE_EXPIRED_DATA (us 0) ≤ us 0 + us 3600 ∧ next_after PURGE_EXPIRED_DATA (us 0) = us (60 * 17).
Proof.
  split; [|reflexivity]. apply next_after_first. right. left.
Defined.
(** The overdue limit of the hourly job is not three times its interval. *)
Example overdue_before_three_intervals :
  js_overdue_after_seconds PURGE_EXPIRED_DATA < 3 * js_interval_seconds PURGE_EXPIRED_DATA ∧
  is_overdue PURGE_EXPIRED_DATA (fresh_state 0) (us 9000) = true.
Proof. split; [reflexivity|vm_compute; reflexivity]. Qed.
