(* ===== verification/JobHistory.v ===== *)
(** * JobHistory: runs of scheduled jobs, statement by statement

    [record_run] and [record_skipped] use no transaction: every statement commits on its
    own, so a worker may be overtaken or die between any two of them.  A phase is the
    point a worker has reached; [advance] runs its next statement.  Running all phases of
    a worker is [Jobs.start_run] and [Jobs.finish_run] ([start_run_phases],
    [finish_run_phases]); the step relation interleaves any number of workers, and records
    what happened. *)
From S2P Require Import Prelude PyStr Models PyData Access Registry Events Jobs.

(** ** Phases *)
(** How a run ended, as [_finish] has it in memory. *)
Record ending := Ending { en_run : scheduled_job_run; en_time : datetime; en_ms : Z; en_counts : list (string * json) }.
Definition en_ok (e : ending) : bool := n_status (en_run e) == STATUS_SUCCEEDED.

Inductive run_phase :=
(** the row is written *)
| Created (run : scheduled_job_run)
(** the state of the job exists *)
| Ensured (run : scheduled_job_run)
(** the start is noted in the state *)
| StartNoted (run : scheduled_job_run)
(** stale rows are closed, and not yet counted *)
| Closed (run : scheduled_job_run) (count : Z)
(** the block of [record_run] runs *)
| Working (run : scheduled_job_run)
(** it has ended *)
| Finishing (e : ending)
(** the event is in the log *)
| Logged (e : ending)
(** the row has the outcome *)
| Saved (e : ending)
(** the state has it too *)
| OutcomeNoted (e : ending)
(** the run is counted, these items are not *)
| Counting (items : list (string * Z))
(** [record_skipped]: at its start, with a state, with the skip noted *)
| Skipping
| SkipEnsured
| SkipNoted
| Over.

Section phases.
Context `{ErrorText}.

Definition advance (spec : JobSpec) (ph : run_phase) : prog run_phase :=
  let job := js_name spec in
  match ph with
  | Created run => ensure_state job ;;; ret (Ensured run)
  | Ensured run => modify_actions (set_states (alter (note_started (n_started_at run)) job)) ;;; ret (StartNoted run)
  | StartNoted run => count <- close_stale spec run ;; ret (Closed run count)
  | Closed run count => increment job (runs_counter STATUS_RUN_FAILED) count ;;; ret (Working run)
  | Working run => ret (Working run)
  | Finishing e =>
      event <- record_platform_event (en_run e) ;;
      ret (Logged (Ending (with_event event (en_run e)) (en_time e) (en_ms e) (en_counts e)))
  | Logged e => save_run (en_run e) ;;; ret (Saved e)
  | Saved e =>
      modify_actions (set_states (alter (note_outcome (en_ok e) (en_time e) (en_ms e)) job)) ;;; ret (OutcomeNoted e)
  | OutcomeNoted e =>
      increment job (runs_counter (n_status (en_run e))) 1 ;;; ret (Counting (int_counts spec (en_counts e)))
  | Counting [] => ret Over
  | Counting (kn :: items) => increment job ("items." +:+ kn.1) kn.2 ;;; ret (Counting items)
  | Skipping => ensure_state job ;;; ret SkipEnsured
  | SkipEnsured => t <- now ;; modify_actions (set_states (alter (note_skipped t) job)) ;;; ret SkipNoted
  | SkipNoted => increment job (runs_counter STATUS_SKIPPED_LOCKED) 1 ;;; ret Over
  | Over => ret Over
  end.
(** The end of the block at [t]. *)
Definition finishing (run : scheduled_job_run) (t : datetime) (duration_ms : Z)
  (counts : list (string * json)) (exc : option exn) : run_phase :=
  Finishing (Ending (ended_run run t duration_ms counts exc) t (Z.max 0 duration_ms) counts).

(** *** A worker alone *)
Fixpoint advance_n (n : nat) (spec : JobSpec) (ph : run_phase) : prog run_phase :=
  match n with O => ret ph | S n' => ph' <- advance spec ph ;; advance_n n' spec ph' end.

(** One statement on both sides of an equation. *)
Ltac next_statement m := destruct m as [[?e|?r] ?w]; [done|];
  unfold bind, ret; cbv beta iota zeta; cbn [advance_n advance en_run en_time en_ms en_counts];
  unfold bind, ret; cbv beta iota zeta.
Lemma start_run_phases host spec trigger w :
  start_run host spec trigger w =
  (run <- create_run host spec trigger ;; advance_n 4 spec (Created run) ;;; ret run) w.
Proof.
  unfold start_run, mark_interrupted. cbn [advance_n advance]. unfold bind, ret.
  next_statement (create_run host spec trigger w). next_statement (ensure_state (js_name spec) w0).
  next_statement (modify_actions (set_states (alter (note_started (n_started_at r)) (js_name spec))) w1).
  next_statement (close_stale spec r w2). by destruct (increment _ _ _ w3) as [[e|u] w4].
Qed.
Lemma items_phases spec (items : list (string * Z)) w :
  (for_each items (λ kn, increment (js_name spec) ("items." +:+ kn.1) kn.2)) w =
  (advance_n (S (length items)) spec (Counting items) ;;; ret tt) w.
Proof.
  revert w. induction items as [|kn l IH]; intros w; [done|].
  cbn [for_each length advance_n advance]. unfold bind, ret in *.
  destruct (increment _ _ _ w) as [[e|u] w1]; [done|apply IH].
Qed.
Lemma finish_run_phases run spec ms counts exc w :
  finish_run run spec ms counts exc w =
  (t <- now ;;
   advance_n (5 + length (int_counts spec counts)) spec (finishing run t ms counts exc) ;;; ret tt) w.
Proof.
  unfold finish_run, finishing, now, gets. cbn [Nat.add advance_n advance]. unfold bind. cbv beta iota zeta.
  set (run' := ended_run run (w_now w) ms counts exc).
  assert (Hok : ∀ event t ms counts, en_ok (Ending (with_event event run') t ms counts) = bool_decide (exc = None)).
  { intros. unfold en_ok, run', ended_run, with_outcome. destruct exc as [x|]; [by destruct (describe_error x) as [[]]|done]. }
  cbn [en_run en_time en_ms en_counts]. next_statement (record_platform_event run' w).
  next_statement (save_run (with_event r run') w0).
  rewrite Hok.
  next_statement (modify_actions (set_states (alter (note_outcome (bool_decide (exc = None)) (w_now w) (Z.max 0 ms))
    (js_name spec))) w1).
  change (n_status (with_event r run')) with (n_status run').
  destruct (increment (js_name spec) (runs_counter (n_status run')) 1 w2) as [[e|r2] w3]; [done|].
  rewrite items_phases. reflexivity.
Qed.
End phases.

(** ** Interleavings

    The world; the workers, each at its phase; those that died, at the phase they died in;
    and what has happened so far, in order.  A purge of old rows, and anything else that
    leaves the tables of the jobs alone, may come in between. *)
Record worker := Worker { k_spec : JobSpec; k_phase : run_phase }.
Inductive happened :=
| HStarted (job : string) (t : datetime)
| HInterrupted (job : string) (count : Z)
| HEnded (job : string) (st : run_status)
| HNoted (job : string) (ok : bool) (t : datetime) (duration_ms : Z)
| HSkipped (job : string) (t : datetime).
Record system := System {
  sy_world : world;
  sy_workers : list worker;
  sy_dead : list worker;
  sy_trace : list happened }.

(** What a statement makes happen. *)
Definition announced (spec : JobSpec) (t : datetime) (ph ph' : run_phase) : list happened :=
  let job := js_name spec in
  match ph, ph' with
  | Ensured run, _ => [HStarted job (n_started_at run)]
  | StartNoted _, Closed _ count => [HInterrupted job count]
  | Logged e, _ => [HEnded job (n_status (en_run e))]
  | Saved e, _ => [HNoted job (en_ok e) (en_time e) (en_ms e)]
  | SkipEnsured, _ => [HSkipped job t]
  | _, _ => []
  end.

Section history.
Context `{ErrorText}.

Inductive step : system → system → Prop :=
| step_start host spec trigger w run w' ks ds tr :
  spec ∈ JOBS → create_run host spec trigger w = (inr run, w') →
  step (System w ks ds tr) (System w' (Worker spec (Created run) :: ks) ds tr)
| step_skip spec w ks ds tr :
  spec ∈ JOBS → step (System w ks ds tr) (System w (Worker spec Skipping :: ks) ds tr)
| step_advance spec ph ph' w w' l1 l2 ds tr :
  advance spec ph w = (inr ph', w') →
  step (System w (l1 ++ Worker spec ph :: l2) ds tr)
       (System w' (l1 ++ Worker spec ph' :: l2) ds (tr ++ announced spec (w_now w) ph ph'))
| step_raise spec ph e w w' l1 l2 ds tr :
  advance spec ph w = (inl e, w') →
  step (System w (l1 ++ Worker spec ph :: l2) ds tr) (System w' (l1 ++ l2) (Worker spec ph :: ds) tr)
| step_finish spec run ms counts exc w l1 l2 ds tr :
  step (System w (l1 ++ Worker spec (Working run) :: l2) ds tr)
       (System w (l1 ++ Worker spec (finishing run (w_now w) ms counts exc) :: l2) ds tr)
| step_crash k w l1 l2 ds tr : step (System w (l1 ++ k :: l2) ds tr) (System w (l1 ++ l2) (k :: ds) tr)
| step_purge (ids : list N) w ks ds tr :
  step (System w ks ds tr)
       (System (set_db (set_actions (set_runs (filter (λ kr, kr.1 ∉ ids)))) w) ks ds tr)
| step_other w w' ks ds tr :
  a_runs (acts w') = a_runs (acts w) → a_counters (acts w') = a_counters (acts w) →
  a_states (acts w') = a_states (acts w) → (a_next_id (acts w) ≤ a_next_id (acts w'))%N →
  step (System w ks ds tr) (System w' ks ds tr).

(** *** What the theorem compares *)
Definition counter (job : string) (st : run_status) (w : world) : Z :=
  default 0 (a_counters (acts w) !! (job, runs_counter st)).
Definition runs_with (job : string) (st : run_status) (w : world) : Z :=
  Z.of_nat (size (filter (λ kr, n_job kr.2 = job ∧ n_status kr.2 = st) (a_runs (acts w)))).
Definition final (st : run_status) : Prop := st = STATUS_SUCCEEDED ∨ st = STATUS_RUN_FAILED.
Definition total {A} (f : A → Z) (l : list A) : Z := foldr (λ x n, f x + n) 0 l.

(** How often runs of a job have come to a status, interruptions and skips included. *)
Definition counts_as (job : string) (st : run_status) (h : happened) : Z :=
  match h with
  | HInterrupted j n => if bool_decide (j = job ∧ st = STATUS_RUN_FAILED) then n else 0
  | HEnded j s => if bool_decide (j = job ∧ st = s) then 1 else 0
  | HSkipped j _ => if bool_decide (j = job ∧ st = STATUS_SKIPPED_LOCKED) then 1 else 0
  | _ => 0
  end.
(** What a worker has made happen and has not counted yet. *)
Definition uncounted (job : string) (st : run_status) (k : worker) : Z :=
  let here s := bool_decide (js_name (k_spec k) = job ∧ st = s) in
  match k_phase k with
  | Closed _ count => if here STATUS_RUN_FAILED then count else 0
  | Saved e | OutcomeNoted e => if here (n_status (en_run e)) then 1 else 0
  | SkipNoted => if here STATUS_SKIPPED_LOCKED then 1 else 0
  | _ => 0
  end.
(** The last of what has happened that [f] picks. *)
Definition latest {A} (f : happened → option A) (tr : list happened) : option A := last (omap f tr).
Definition start_of (job : string) (h : happened) : option datetime :=
  match h with HStarted j t => if bool_decide (j = job) then Some t else None | _ => None end.
Definition outcome_of (job : string) (ok : bool) (h : happened) : option datetime :=
  match h with HNoted j b t _ => if bool_decide (j = job ∧ b = ok) then Some t else None | _ => None end.
Definition duration_of (job : string) (h : happened) : option Z :=
  match h with HNoted j _ _ ms => if bool_decide (j = job) then Some ms else None | _ => None end.
Definition skip_of (job : string) (h : happened) : option datetime :=
  match h with HSkipped j t => if bool_decide (j = job) then Some t else None | _ => None end.
(** The state of a job tells the latest of each. *)
Record state_tells (job : string) (w : world) (tr : list happened) : Prop := StateTells {
  st_started : a_states (acts w) !! job ≫= s_last_started_at = latest (start_of job) tr;
  st_success : a_states (acts w) !! job ≫= s_last_success_at = latest (outcome_of job true) tr;
  st_failure : a_states (acts w) !! job ≫= s_last_failure_at = latest (outcome_of job false) tr;
  st_skipped : a_states (acts w) !! job ≫= s_last_skipped_at = latest (skip_of job) tr;
  st_duration : a_states (acts w) !! job ≫= s_last_duration_ms = latest (duration_of job) tr }.

(** *** Sums, and the latest of a trace *)
Lemma total_app {A} (f : A → Z) l l' : total f (l ++ l') = total f l + total f l'.
Proof. induction l as [|x l IH]; [done|]. simpl. rewrite IH. lia. Qed.
Lemma total_middle {A} (f : A → Z) l1 k l2 ds :
  total f ((l1 ++ k :: l2) ++ ds) = f k + total f ((l1 ++ l2) ++ ds).
Proof. rewrite !total_app. simpl. lia. Qed.
Lemma latest_nil {A} (f : happened → option A) tr : latest f (tr ++ []) = latest f tr.
Proof. by rewrite app_nil_r. Qed.
Lemma latest_snoc {A} (f : happened → option A) tr h :
  latest f (tr ++ [h]) = match f h with Some a => Some a | None => latest f tr end.
Proof.
  unfold latest. rewrite omap_app. simpl. destruct (f h) as [a|]; [apply last_snoc|by rewrite app_nil_r].
Qed.

(** *** The moved of one statement *)
Lemma increment_eq job name n w : increment job name n w = (inr tt, set_db (set_actions (bump job name n)) w).
Proof.
  unfold increment, bump. destruct (n <=? 0); [|done]. unfold ret. f_equal.
  destruct w. unfold set_db. simpl. by rewrite set_actions_id.
Qed.
Definition increased (spec : JobSpec) (ph : run_phase) (key : string * string) : Z :=
  let add name n := if key == (js_name spec, name) then Z.max 0 n else 0 in
  match ph with
  | Closed _ count => add (runs_counter STATUS_RUN_FAILED) count
  | OutcomeNoted e => add (runs_counter (n_status (en_run e))) 1
  | Counting (kn :: _) => add ("items." +:+ kn.1) kn.2
  | SkipNoted => add (runs_counter STATUS_SKIPPED_LOCKED) 1
  | _ => 0
  end.
Definition close_rows (spec : JobSpec) (run : scheduled_job_run) : gmap N scheduled_job_run → gmap N scheduled_job_run :=
  fmap (λ r, if stale spec run r then interrupted run r else r).
Definition new_states (spec : JobSpec) (t : datetime) (ph : run_phase) :
  gmap string scheduled_job_state → gmap string scheduled_job_state :=
  let job := js_name spec in
  match ph with
  | Created _ | Skipping => partial_alter (λ s, Some (default (fresh_state t) s)) job
  | Ensured run => alter (note_started (n_started_at run)) job
  | Saved e => alter (note_outcome (en_ok e) (en_time e) (en_ms e)) job
  | SkipEnsured => alter (note_skipped t) job
  | _ => id
  end.
Definition follows (spec : JobSpec) (w : world) (ph ph' : run_phase) : Prop :=
  match ph with
  | Created run => ph' = Ensured run
  | Ensured run => ph' = StartNoted run
  | StartNoted run =>
      ph' = Closed run (Z.of_nat (size (filter (λ kr, stale spec run kr.2 = true) (a_runs (acts w)))))
  | Closed run _ | Working run => ph' = Working run
  | Finishing e => ∃ event, ph' = Logged (Ending (with_event event (en_run e)) (en_time e) (en_ms e) (en_counts e))
  | Logged e => ph' = Saved e ∧ is_Some (a_runs (acts w) !! n_id (en_run e))
  | Saved e => ph' = OutcomeNoted e
  | OutcomeNoted _ => ∃ items, ph' = Counting items
  | Counting items => ph' = match items with [] => Over | _ :: l => Counting l end
  | Skipping => ph' = SkipEnsured
  | SkipEnsured => ph' = SkipNoted
  | SkipNoted | Over => ph' = Over
  end.
Record moved (spec : JobSpec) (ph ph' : run_phase) (w w' : world) : Prop := Moved {
  ef_runs : a_runs (acts w') =
    match ph with
    | StartNoted run => close_rows spec run (a_runs (acts w))
    | Logged e => <[n_id (en_run e) := en_run e]> (a_runs (acts w))
    | _ => a_runs (acts w)
    end;
  ef_counters : ∀ key, default 0 (a_counters (acts w') !! key) =
    default 0 (a_counters (acts w) !! key) + increased spec ph key;
  ef_states : a_states (acts w') = new_states spec (w_now w) ph (a_states (acts w));
  ef_next : (a_next_id (acts w) ≤ a_next_id (acts w'))%N;
  ef_follows : follows spec w ph ph' }.

Lemma bump_states job name n a : a_states (bump job name n a) = a_states a.
Proof. unfold bump. by destruct (n <=? 0). Qed.
Lemma bump_moved spec ph ph' job name n w :
  (match ph with Created _ | Skipping | Ensured _ | Saved _ | SkipEnsured | StartNoted _ | Logged _ => False | _ => True end) →
  (∀ key, increased spec ph key = if key == (job, name) then Z.max 0 n else 0) → follows spec w ph ph' →
  moved spec ph ph' w (set_db (set_actions (bump job name n)) w).
Proof.
  intros Hph Hinc Hf. split; [| | | |done]; rewrite ?acts_set.
  - rewrite bump_runs. by destruct ph.
  - intros key. by rewrite bump_lookup, Hinc.
  - rewrite bump_states. by destruct ph.
  - by rewrite bump_next.
Qed.
Lemma advance_moved spec ph ph' w w' : advance spec ph w = (inr ph', w') → moved spec ph ph' w w'.
Proof.
  destruct ph as [run|run|run|run n|run|e|e|e|e|[|kn items]| | | |]; cbn [advance];
    unfold bind, ret; rewrite ?increment_eq; cbv beta iota zeta.
  - intros [= <- <-]. split; try done. intros key. symmetry. apply Z.add_0_r.
  - intros [= <- <-]. split; try done. intros key. symmetry. apply Z.add_0_r.
  - intros [= <- <-]. split; try done. intros key. symmetry. apply Z.add_0_r.
  - intros [= <- <-]. by apply bump_moved.
  - intros [= <- <-]. split; try done. intros key. symmetry. apply Z.add_0_r.
  - intros [= <- <-]. split; try done; [intros key; symmetry; apply Z.add_0_r|unfold acts; simpl; lia|by eexists].
  - unfold save_run, get_actions, gets, bind. cbv beta iota. fold (acts w).
    destruct (a_runs (acts w) !! n_id (en_run e)) as [r|] eqn:Hr; [|done]. intros [= <- <-].
    split; try done. intros key. symmetry. apply Z.add_0_r.
  - intros [= <- <-]. split; try done. intros key. symmetry. apply Z.add_0_r.
  - intros [= <- <-]. apply bump_moved; [done..|by eexists].
  - intros [= <- <-]. split; try done. intros key. symmetry. apply Z.add_0_r.
  - intros [= <- <-]. by apply bump_moved.
  - intros [= <- <-]. split; try done. intros key. symmetry. apply Z.add_0_r.
  - intros [= <- <-]. split; try done. intros key. symmetry. apply Z.add_0_r.
  - intros [= <- <-]. by apply bump_moved.
  - intros [= <- <-]. split; try done. intros key. symmetry. apply Z.add_0_r.
Qed.
Lemma advance_raises spec ph e w w' :
  advance spec ph w = (inl e, w') → w' = w ∧ (∃ en, ph = Logged en) .
Proof.
  destruct ph as [run|run|run|run n|run|en|en|en|en|[|kn items]| | | |]; cbn [advance];
    unfold bind, ret; rewrite ?increment_eq; try discriminate.
  unfold save_run, get_actions, gets, bind. cbv beta iota. fold (acts w).
  destruct (a_runs (acts w) !! n_id (en_run en)); [discriminate|]. intros [= _ <-]. split; [done|by eexists].
Qed.

(** *** Counting rows *)
Lemma size_filter_le {A} (P Q R : N * A → Prop) `{∀ x, Decision (P x)} `{∀ x, Decision (Q x)}
  `{∀ x, Decision (R x)} (m' m : gmap N A) :
(∀ k x, m' !! k = Some x → P (k, x) → ∃ y, m !! k = Some y ∧ (Q (k, y) ∨ R (k, y))) →
(size (filter P m') <= size (filter Q m) + size (filter R m))%nat.
Proof.
intros HP. rewrite <- !size_dom.
etrans; [apply (subseteq_size _ (dom (filter Q m) ∪ dom (filter R m)))|].
- intros k. rewrite elem_of_union, !elem_of_dom. intros [x [Hx Hp]%map_lookup_filter_Some].
  destruct (HP k x Hx Hp) as (y & Hy & [Hq|Hr]); [left|right]; exists y; by apply map_lookup_filter_Some.
- rewrite size_union_alt. apply Nat.add_le_mono_l, subseteq_size. set_solver.
Qed.
Lemma size_filter_mono {A} (P Q : N * A → Prop) `{∀ x, Decision (P x)} `{∀ x, Decision (Q x)} (m' m : gmap N A) :
(∀ k x, m' !! k = Some x → P (k, x) → ∃ y, m !! k = Some y ∧ Q (k, y)) →
(size (filter P m') <= size (filter Q m))%nat.
Proof.
intros HP. rewrite <- !size_dom. apply subseteq_size. intros k. rewrite !elem_of_dom.
intros [x [Hx Hp]%map_lookup_filter_Some]. destruct (HP k x Hx Hp) as (y & Hy & Hq).
exists y. by apply map_lookup_filter_Some.
Qed.
Lemma size_filter_insert_False {A} (P : N * A → Prop) `{∀ x, Decision (P x)} (m : gmap N A) i x : ¬ P (i, x) →
(size (filter P (<[i := x]> m)) <= size (filter P m))%nat.
Proof.
intros HP. rewrite map_filter_insert_False, map_filter_delete, map_size_delete by done. case_match; unfold id; lia.
Qed.
Lemma size_filter_insert {A} (P : N * A → Prop) `{∀ x, Decision (P x)} (m : gmap N A) i x :
(size (filter P (<[i := x]> m)) <= size (filter P m) + 1)%nat.
Proof.
destruct (decide (P (i, x))) as [HP|HP]; [|pose proof (size_filter_insert_False P m i x HP); lia].
rewrite map_filter_insert_True, map_size_insert by done. case_match; unfold id; lia.
Qed.
Lemma runs_counter_inj st st' : runs_counter st = runs_counter st' → st = st'.
Proof. by destruct st, st'. Qed.
Lemma counter_key (job job' : string) st st' :
((job, runs_counter st) == (job', runs_counter st')) = bool_decide (job' = job ∧ st = st').
Proof.
apply bool_decide_ext. split; [|by intros [-> ->]]. intros He. split.
- exact (eq_sym (f_equal fst He)).
- exact (runs_counter_inj _ _ (f_equal snd He)).
Qed.
Lemma item_key (job job' : string) st kind : ((job, runs_counter st) == (job', "items." +:+ kind)) = false.
Proof. apply bool_decide_eq_false. intros He. apply (f_equal snd) in He. destruct st; discriminate He. Qed.

(** *** The invariant *)
(** The run a worker will still write the outcome of. *)
Definition open_run (ph : run_phase) : option scheduled_job_run :=
match ph with
| Created run | Ensured run | StartNoted run | Closed run _ | Working run => Some run
| Finishing e | Logged e => Some (en_run e)
| _ => None
end.
Definition open_ids (ks : list worker) : list N := omap (λ k, n_id <$> open_run (k_phase k)) ks.
Definition pending_row (w : world) (run : scheduled_job_run) : Prop :=
(n_id run < a_next_id (acts w))%N ∧
∀ row, a_runs (acts w) !! n_id run = Some row → n_status row ≠ STATUS_SUCCEEDED.
Record worker_ok (w : world) (k : worker) : Prop := WorkerOk {
wk_open : ∀ run, open_run (k_phase k) = Some run → n_job run = js_name (k_spec k) ∧ pending_row w run;
wk_state : match k_phase k with Created _ | Skipping => True | _ => is_Some (a_states (acts w) !! js_name (k_spec k)) end;
wk_count : match k_phase k with Closed _ n => 0 ≤ n | _ => True end }.
Record history_ok (s : system) : Prop := HistoryOk {
ho_counted : ∀ job st, counter job st (sy_world s) + total (uncounted job st) (sy_workers s ++ sy_dead s) =
  total (counts_as job st) (sy_trace s);
ho_rows : ∀ job st, final st → runs_with job st (sy_world s) ≤ total (counts_as job st) (sy_trace s);
ho_keyed : ∀ i r, a_runs (acts (sy_world s)) !! i = Some r → n_id r = i ∧ (i < a_next_id (acts (sy_world s)))%N;
ho_ids : NoDup (open_ids (sy_workers s));
ho_workers : Forall (worker_ok (sy_world s)) (sy_workers s);
ho_states : ∀ job, state_tells job (sy_world s) (sy_trace s) }.

(** *** One statement *)
Lemma balance spec ph ph' w t job st :
follows spec w ph ph' → worker_ok w (Worker spec ph) →
increased spec ph (job, runs_counter st) + uncounted job st (Worker spec ph') =
uncounted job st (Worker spec ph) + total (counts_as job st) (announced spec t ph ph').
Proof.
intros Hf [_ _ Hc]. unfold increased, uncounted. rewrite ?counter_key. simpl in Hc |- *.
destruct ph as [run|run|run|run n|run|e|e|e|e|[|kn items]| | | |]; simpl in *; destruct_and?; simplify_eq; simpl;
  rewrite ?counter_key, ?item_key; try (case_bool_decide; lia); try done.
- destruct Hf as [event ->]. done.
- destruct Hf as [items ->]. simpl. case_bool_decide; lia.
Qed.

Lemma closed_rows_count spec run m job st : final st →
Z.of_nat (size (filter (λ kr, n_job kr.2 = job ∧ n_status kr.2 = st) (close_rows spec run m))) ≤
Z.of_nat (size (filter (λ kr, n_job kr.2 = job ∧ n_status kr.2 = st) m)) +
  if bool_decide (js_name spec = job ∧ st = STATUS_RUN_FAILED)
  then Z.of_nat (size (filter (λ kr, stale spec run kr.2 = true) m)) else 0.
Proof.
intros Hst. case_bool_decide as Hcase.
- rewrite <- Nat2Z.inj_add. apply Nat2Z.inj_le, size_filter_le. intros k x Hx [Hj Hs]. unfold close_rows in Hx.
  rewrite lookup_fmap in Hx. apply fmap_Some in Hx as (y & Hy & ->). exists y. split; [done|]. simpl in *.
  destruct (stale spec run y); [by right|by left].
- rewrite Z.add_0_r. apply Nat2Z.inj_le, size_filter_mono. intros k x Hx [Hj Hs]. unfold close_rows in Hx.
  rewrite lookup_fmap in Hx. apply fmap_Some in Hx as (y & Hy & ->). exists y. split; [done|]. simpl in *.
  destruct (stale spec run y) eqn:Hstale; [|done]. destruct Hcase. simpl in Hs, Hj.
  unfold stale in Hstale. rewrite !andb_true_iff, !bool_decide_eq_true in Hstale. destruct_and?. split; congruence.
Qed.
Lemma rows_step spec ph ph' w w' t job st :
moved spec ph ph' w w' → worker_ok w (Worker spec ph) → final st →
runs_with job st w' ≤ runs_with job st w + total (counts_as job st) (announced spec t ph ph').
Proof.
intros [Hr _ _ _ Hf] [Hopen _ _] Hst. unfold runs_with. rewrite Hr.
destruct ph as [run|run|run|run n|run|e|e|e|e|items| | | |]; simpl in *; try (rewrite ?Z.add_0_r; lia); try (subst; simpl; lia).
- subst ph'. simpl. rewrite Z.add_0_r. by apply closed_rows_count.
- destruct (Hopen _ eq_refl) as [Hjob _]. rewrite Z.add_0_r. case_bool_decide as Hc.
  + rewrite <- (Z2Nat.id 1), <- Nat2Z.inj_add by lia. apply Nat2Z.inj_le, size_filter_insert.
  + rewrite Z.add_0_r. apply Nat2Z.inj_le, size_filter_insert_False. simpl. intros [Hj Hs]. apply Hc.
    by rewrite <- Hjob.
- rewrite Z.add_0_r. destruct Hst as [-> | ->]; (rewrite bool_decide_false by (by intros [_ ?])); lia.
Qed.

(** *** What the states tell *)
Definition silent (job : string) (h : happened) : Prop :=
start_of job h = None ∧ outcome_of job true h = None ∧ outcome_of job false h = None ∧
skip_of job h = None ∧ duration_of job h = None.
Lemma tells_silent job w w' tr hs :
Forall (silent job) hs → a_states (acts w') !! job = a_states (acts w) !! job →
state_tells job w tr → state_tells job w' (tr ++ hs).
Proof.
intros Hs Heq [Hst Hsu Hfa Hsk Hdu].
assert (Hl : ∀ A (f : happened → option A), Forall (λ h, f h = None) hs → latest f (tr ++ hs) = latest f tr).
{ intros A f Hf. unfold latest. rewrite omap_app.
  assert (omap f hs = []) as ->; [|by rewrite app_nil_r].
  induction Hf as [|h l Hh _ IH]; [done|]. cbn. rewrite Hh. apply IH. by apply Forall_inv_tail in Hs. }
split; rewrite Heq, Hl by (eapply Forall_impl; [exact Hs|]; by intros h (? & ? & ? & ? & ?)); done.
Qed.
Lemma announced_silent spec t ph ph' job : job ≠ js_name spec → Forall (silent job) (announced spec t ph ph').
Proof.
intros Hj. destruct ph, ph'; simpl; repeat constructor; unfold silent; simpl; rewrite ?bool_decide_false; naive_solver.
Qed.
Lemma new_states_other spec t ph m job : job ≠ js_name spec → new_states spec t ph m !! job = m !! job.
Proof. intros Hj. destruct ph; simpl; rewrite ?lookup_partial_alter_ne, ?lookup_alter_ne; done. Qed.
Lemma states_step spec ph ph' w w' tr job :
moved spec ph ph' w w' → worker_ok w (Worker spec ph) → state_tells job w tr →
state_tells job w' (tr ++ announced spec (w_now w) ph ph').
Proof.
intros [_ _ Hs _ Hf] [_ Hstate _] Htells. simpl in Hstate. destruct (decide (job = js_name spec)) as [->|Hj].
2: { apply (tells_silent job w); [by apply announced_silent|by rewrite Hs, new_states_other|done]. }
assert (Hsame : a_states (acts w') = a_states (acts w) → Forall (silent (js_name spec)) (announced spec (w_now w) ph ph') →
  state_tells (js_name spec) w' (tr ++ announced spec (w_now w) ph ph')).
{ intros Heq Hq. apply (tells_silent _ w); [done|by rewrite Heq|done]. }
destruct ph as [run|run|run|run n|run|e|e|e|e|items| | | |]; simpl in *;
  try (apply Hsame; [exact Hs|]; destruct_and?; subst; repeat constructor; done);
  destruct Htells as [Hst Hsu Hfa Hsk Hdu].
all: split; rewrite ?app_nil_r, ?latest_snoc; simpl;
  rewrite Hs, ?lookup_partial_alter_eq, ?lookup_alter_eq; simpl; rewrite ?bool_decide_true by done.
all: destruct (a_states (acts w) !! js_name spec) as [s0|]; simpl in *; try done; try (by destruct Hstate).
all: destruct (en_ok e); rewrite ?bool_decide_true by done; rewrite ?bool_decide_false by (by intros []); done.
Qed.

(** *** The rest of the invariant, statement by statement *)
Lemma new_states_some spec t ph m job : is_Some (m !! job) → is_Some (new_states spec t ph m !! job).
Proof.
intros [s0 Hs]. destruct (decide (job = js_name spec)) as [->|Hj]; [|rewrite new_states_other by done; by exists s0].
destruct ph; simpl; rewrite ?lookup_partial_alter_eq, ?lookup_alter_eq, ?Hs; by eexists.
Qed.
Lemma close_rows_lookup spec run m i r : close_rows spec run m !! i = Some r →
∃ y, m !! i = Some y ∧ n_id r = n_id y ∧ (n_status r = STATUS_SUCCEEDED → r = y).
Proof.
unfold close_rows. rewrite lookup_fmap. intros (y & Hy & ->)%fmap_Some. exists y.
by destruct (stale spec run y).
Qed.
Lemma pending_step spec ph ph' w w' run :
moved spec ph ph' w w' → pending_row w run → (∀ e, ph = Logged e → n_id (en_run e) ≠ n_id run) → pending_row w' run.
Proof.
intros [Hr _ _ Hn _] [Hlt Hrow] Hne. split; [lia|]. intros row. rewrite Hr.
destruct ph as [ |  |run0| | | |e| | | | | | | ]; try apply Hrow.
- intros (y & Hy & _ & Hs)%close_rows_lookup Hsucc. specialize (Hs Hsucc). subst. by apply (Hrow y).
- rewrite lookup_insert_ne by (by apply Hne). apply Hrow.
Qed.
Lemma worker_step spec ph ph' w w' k :
moved spec ph ph' w w' → worker_ok w k →
(∀ e run, ph = Logged e → open_run (k_phase k) = Some run → n_id (en_run e) ≠ n_id run) → worker_ok w' k.
Proof.
intros Hef [Ho Hs Hc] Hne. split; [| |done].
- intros run Hrun. destruct (Ho run Hrun) as [Hj Hp]. split; [done|]. eapply pending_step; [done..|].
  intros e He. by apply Hne.
- rewrite (ef_states _ _ _ _ _ Hef). destruct (k_phase k); try done; by apply new_states_some.
Qed.
Lemma self_step spec ph ph' w w' :
moved spec ph ph' w w' → worker_ok w (Worker spec ph) → worker_ok w' (Worker spec ph') ∧
(n_id <$> open_run ph' = n_id <$> open_run ph ∨ open_run ph' = None).
Proof.
intros Hef [Ho Hs Hc]. simpl in *. pose proof (ef_follows _ _ _ _ _ Hef) as Hf.
assert (Hst : is_Some (a_states (acts w') !! js_name spec)).
{ rewrite (ef_states _ _ _ _ _ Hef).
  destruct ph; try (by apply new_states_some); simpl; rewrite lookup_partial_alter_eq; by eexists. }
assert (Hpend : ∀ run, open_run ph = Some run → (∀ e, ph ≠ Logged e) → n_job run = js_name spec ∧ pending_row w' run).
{ intros run Hrun Hph. destruct (Ho run Hrun) as [Hj Hp]. split; [done|]. eapply pending_step; [done..|].
  intros e He. by destruct (Hph e). }
destruct ph as [run|run|run|run n|run|e|e|e|e|items| | | |]; simpl in *; destruct_and?; subst;
  try (split; [split; simpl; [intros r [= <-]; by apply Hpend|done|done || lia]|by left]);
  try (split; [by split|by right]).
- destruct Hf as [event ->]. split; [|by left]. split; simpl; [|done|done].
  intros r [= <-]. destruct (Hpend (en_run e) eq_refl) as [Hj [Hlt Hrow]]; [done|]. by split.
- destruct Hf as [items ->]. split; [by split|by right].
- split; [destruct items; by split|right; by destruct items].
Qed.

(** *** Every step *)
(** Along a step counters do not fall, and a succeeded run stays as it is or is purged. *)
#[local] Arguments acts : simpl never.
Record keeps (w w' : world) : Prop := Keeps {
ke_counters : ∀ key, default 0 (a_counters (acts w) !! key) ≤ default 0 (a_counters (acts w') !! key);
ke_next : (a_next_id (acts w) ≤ a_next_id (acts w'))%N;
ke_none : ∀ i, (i < a_next_id (acts w))%N → a_runs (acts w) !! i = None → a_runs (acts w') !! i = None;
ke_done : ∀ i r, a_runs (acts w) !! i = Some r → n_status r = STATUS_SUCCEEDED →
  a_runs (acts w') !! i = None ∨ a_runs (acts w') !! i = Some r }.
Lemma keeps_refl w : keeps w w.
Proof. split; auto. lia. Qed.

Lemma increased_nonneg spec ph key : 0 ≤ increased spec ph key.
Proof. destruct ph as [ | | | | | | | | |[]| | | |]; simpl; try case_bool_decide; lia. Qed.
Lemma open_ids_middle l1 k l2 :
open_ids (l1 ++ k :: l2) ≡ₚ match open_run (k_phase k) with Some run => [n_id run] | None => [] end ++ open_ids (l1 ++ l2).
Proof.
unfold open_ids. rewrite !omap_app. simpl. destruct (open_run (k_phase k)); simpl; [|done].
by rewrite <- Permutation_middle.
Qed.
Lemma open_ids_in k run ks : k ∈ ks → open_run (k_phase k) = Some run → n_id run ∈ open_ids ks.
Proof. intros Hk Hr. apply list_elem_of_omap. exists k. by rewrite Hr. Qed.

Lemma advance_ok spec ph ph' w w' l1 l2 ds tr :
history_ok (System w (l1 ++ Worker spec ph :: l2) ds tr) → advance spec ph w = (inr ph', w') →
history_ok (System w' (l1 ++ Worker spec ph' :: l2) ds (tr ++ announced spec (w_now w) ph ph')) ∧ keeps w w'.
Proof.
intros [Hc Hr Hk Hi Hw Hs] Hadv. simpl in *. apply advance_moved in Hadv.
pose proof (ef_follows _ _ _ _ _ Hadv) as Hf.
apply Forall_app in Hw as [Hw1 Hw2]. apply Forall_cons in Hw2 as [Hself Hw2].
destruct (self_step _ _ _ _ _ Hadv Hself) as [Hself' Hid].
rewrite open_ids_middle in Hi. simpl in Hi.
assert (Hothers : ∀ k, k ∈ l1 ++ l2 → worker_ok w k → worker_ok w' k).
{ intros k Hin Hok. eapply worker_step; [done..|]. intros e run -> Hrun Heq. simpl in Hi.
  apply NoDup_cons in Hi as [Hi _]. apply Hi. rewrite Heq. by eapply open_ids_in. }
split; [split; simpl|split].
- intros job st. specialize (Hc job st). unfold counter in *. rewrite (ef_counters _ _ _ _ _ Hadv).
  rewrite total_middle in Hc |- *. rewrite (total_app _ tr).
  pose proof (balance spec ph ph' w (w_now w) job st Hf Hself). lia.
- intros job st Hst. rewrite total_app. specialize (Hr job st Hst).
  pose proof (rows_step spec ph ph' w w' (w_now w) job st Hadv Hself Hst). lia.
- intros i r. rewrite (ef_runs _ _ _ _ _ Hadv). pose proof (ef_next _ _ _ _ _ Hadv) as Hn.
  assert (Hold : a_runs (acts w) !! i = Some r → n_id r = i ∧ (i < a_next_id (acts w'))%N).
  { intros Hx. destruct (Hk i r Hx). split; [done|lia]. }
  destruct ph as [ | |run| | | |e| | | | | | | ]; try exact Hold.
  + intros (y & Hy & -> & _)%close_rows_lookup. destruct (Hk i y Hy). split; [done|lia].
  + intros [[<- <-]|[_ Hx]]%lookup_insert_Some; [|by apply Hold]. split; [done|].
    destruct (wk_open _ _ Hself (en_run e) eq_refl) as [_ [Hlt _]]. lia.
- rewrite open_ids_middle. simpl. destruct Hid as [Hid| -> ].
  + destruct (open_run ph), (open_run ph'); simpl in *; try discriminate Hid; [|done].
    by injection Hid as ->.
  + by apply NoDup_app in Hi as (_ & _ & Hi).
- apply Forall_app. split; [|constructor; [done|]].
  + rewrite Forall_forall in Hw1 |- *. intros k Hin. apply Hothers; [apply elem_of_app; by left|by apply Hw1].
  + rewrite Forall_forall in Hw2 |- *. intros k Hin. apply Hothers; [apply elem_of_app; by right|by apply Hw2].
- intros job. by apply states_step.
- intros key. rewrite (ef_counters _ _ _ _ _ Hadv). pose proof (increased_nonneg spec ph key). lia.
- apply Hadv.
- intros i _ Hx. rewrite (ef_runs _ _ _ _ _ Hadv). destruct ph as [ | |run| | | |e| | | | | | | ]; try done.
  + unfold close_rows. by rewrite lookup_fmap, Hx.
  + destruct Hf as [_ [r Hr']]. rewrite lookup_insert_ne; [done|]. congruence.
- intros i r Hx Hsucc. right. rewrite (ef_runs _ _ _ _ _ Hadv).
  destruct ph as [ | |run| | | |e| | | | | | | ]; try done.
  + unfold close_rows. rewrite lookup_fmap, Hx. simpl. destruct (stale spec run r) eqn:Hst; [|done].
    unfold stale in Hst. rewrite !andb_true_iff, !bool_decide_eq_true in Hst. destruct_and?. congruence.
  + rewrite lookup_insert_ne; [done|]. intros <-.
    destruct (wk_open _ _ Hself (en_run e) eq_refl) as [_ [_ Hns]]. by apply (Hns r).
Qed.

Lemma create_run_eq host spec trigger w run w' : create_run host spec trigger w = (inr run, w') →
n_id run = a_next_id (acts w) ∧ n_job run = js_name spec ∧ n_status run = STATUS_RUNNING ∧
a_runs (acts w') = <[n_id run := run]> (a_runs (acts w)) ∧ a_counters (acts w') = a_counters (acts w) ∧
a_states (acts w') = a_states (acts w) ∧ a_next_id (acts w') = N.succ (a_next_id (acts w)).
Proof. intros [= <- <-]. done. Qed.
Lemma run_start_ok host spec trigger w run w' ks ds tr :
history_ok (System w ks ds tr) → create_run host spec trigger w = (inr run, w') →
history_ok (System w' (Worker spec (Created run) :: ks) ds tr) ∧ keeps w w'.
Proof.
intros [Hc Hr Hk Hi Hw Hs] Hrun. apply create_run_eq in Hrun as (Hid & Hjob & Hst & Hru & Hcn & Hsa & Hn). simpl in *.
assert (Hnew : a_runs (acts w) !! n_id run = None).
{ destruct (a_runs (acts w) !! n_id run) as [r|] eqn:Hx; [|done]. apply Hk in Hx as [_ Hlt]. lia. }
assert (Hold : ∀ k, worker_ok w k → worker_ok w' k).
{ intros k [Ho Hks Hkc]. split; [|by rewrite Hsa|done]. intros r Hkr. destruct (Ho r Hkr) as [Hj [Hlt Hp]].
  split; [done|]. split; [lia|]. intros row. rewrite Hru, lookup_insert_ne by lia. apply Hp. }
split; [split; simpl|split].
- intros job st. unfold counter, uncounted at 1. rewrite Hcn. simpl. rewrite Z.add_0_l. apply Hc.
- intros job st Hfin. etrans; [|by apply Hr]. unfold runs_with. rewrite Hru.
  apply Nat2Z.inj_le, size_filter_insert_False. simpl. intros [_ He]. destruct Hfin; congruence.
- intros i r. rewrite Hru, Hn. intros [[<- <-]|[_ Hx]]%lookup_insert_Some; [split; [done|lia]|].
  apply Hk in Hx as [? ?]. split; [done|lia].
- unfold open_ids. simpl. constructor; [|done]. rewrite list_elem_of_omap. intros (k & Hin & Hkid).
  destruct (open_run (k_phase k)) as [r|] eqn:Hkr; [|done]. injection Hkid as Hkid.
  rewrite Forall_forall in Hw. destruct (wk_open _ _ (Hw k Hin) r Hkr) as [_ [Hlt _]]. lia.
- constructor; [|by eapply Forall_impl]. split; [|done|done]. intros r [= <-]. split; [done|]. split; [lia|].
  intros row. rewrite Hru, lookup_insert_eq. intros [= <-]. by rewrite Hst.
- intros job. destruct (Hs job). by split; rewrite Hsa.
- intros key. by rewrite Hcn.
- lia.
- intros i Hlt Hx. rewrite Hru, lookup_insert_ne; [done|lia].
- intros i r Hx _. right. rewrite Hru, lookup_insert_ne; [done|congruence].
Qed.

(** A worker moves on without a statement, or is lost. *)
Lemma ended_same run t ms counts exc :
n_id (ended_run run t ms counts exc) = n_id run ∧ n_job (ended_run run t ms counts exc) = n_job run.
Proof. unfold ended_run, with_outcome. by destruct (match exc with Some e => describe_error e | None => _ end) as [[] ?]. Qed.
Lemma run_finish_ok spec run t ms counts exc w l1 l2 ds tr :
history_ok (System w (l1 ++ Worker spec (Working run) :: l2) ds tr) →
history_ok (System w (l1 ++ Worker spec (finishing run t ms counts exc) :: l2) ds tr).
Proof.
intros [Hc Hr Hk Hi Hw Hs]. destruct (ended_same run t ms counts exc) as [Hid Hjob].
simpl in *. rewrite open_ids_middle in Hi. split; try done; simpl in *.
- intros job st. specialize (Hc job st). rewrite total_middle in Hc |- *. exact Hc.
- rewrite open_ids_middle. simpl. by rewrite Hid.
- apply Forall_app in Hw as [Hw1 Hw2]. apply Forall_cons in Hw2 as [[Ho Hks _] Hw2].
  apply Forall_app. split; [done|]. constructor; [|done]. split; [|done|done]. simpl in *.
  intros r [= <-]. unfold pending_row. rewrite Hid, Hjob. by apply Ho.
Qed.
Lemma lost_ok k w l1 l2 ds tr :
history_ok (System w (l1 ++ k :: l2) ds tr) → history_ok (System w (l1 ++ l2) (k :: ds) tr).
Proof.
intros [Hc Hr Hk Hi Hw Hs]. split; try done; simpl in *.
- intros job st. specialize (Hc job st). rewrite total_middle in Hc. rewrite total_app. simpl. rewrite total_app in Hc. lia.
- rewrite open_ids_middle in Hi. by apply NoDup_app in Hi as (_ & _ & Hi).
- apply Forall_app in Hw as [Hw1 Hw2]. apply Forall_app. split; [done|]. by apply Forall_cons in Hw2 as [_ Hw2].
Qed.
(** Rows may go; ids may be used up. *)
Lemma fewer_ok w w' ks ds tr :
(∀ i r, a_runs (acts w') !! i = Some r → a_runs (acts w) !! i = Some r) →
a_counters (acts w') = a_counters (acts w) → a_states (acts w') = a_states (acts w) →
(a_next_id (acts w) ≤ a_next_id (acts w'))%N → history_ok (System w ks ds tr) →
history_ok (System w' ks ds tr) ∧ keeps w w'.
Proof.
intros Hru Hcn Hsa Hn [Hc Hr Hk Hi Hw Hs]. simpl in *. split; [split; simpl; try done|split].
- intros job st. unfold counter. rewrite Hcn. apply Hc.
- intros job st Hfin. etrans; [|by apply Hr]. apply Nat2Z.inj_le, size_filter_mono.
  intros i x Hx Hp. exists x. split; [by apply Hru|done].
- intros i r Hx. apply Hru, Hk in Hx as [? ?]. split; [done|lia].
- eapply Forall_impl; [exact Hw|]. intros k [Ho Hks Hkc]. split; [|by rewrite Hsa|done].
  intros r Hkr. destruct (Ho r Hkr) as [Hj [Hlt Hp]]. split; [done|]. split; [lia|]. intros row Hx. by apply Hp, Hru.
- intros job. destruct (Hs job). by split; rewrite Hsa.
- intros key. by rewrite Hcn.
- done.
- intros i _ Hx. destruct (a_runs (acts w') !! i) eqn:He; [|done]. apply Hru in He. congruence.
- intros i r Hx _. destruct (a_runs (acts w') !! i) as [r'|] eqn:He; [right|by left]. apply Hru in He. congruence.
Qed.
Lemma history_step_ok s s' : step s s' → history_ok s → history_ok s' ∧ keeps (sy_world s) (sy_world s').
Proof.
destruct 1 as [host spec trigger w run w' ks ds tr _ Hrun|spec w ks ds tr _|spec ph ph' w w' l1 l2 ds tr Hadv
  |spec ph e w w' l1 l2 ds tr Hadv|spec run ms counts exc w l1 l2 ds tr|k w l1 l2 ds tr|ids w ks ds tr
  |w w' ks ds tr Hr Hc Hs Hn]; intros Hok; simpl.
- by eapply run_start_ok.
- split; [|apply keeps_refl]. destruct Hok as [Hc Hr Hk Hi Hw Hs]. split; try done. by constructor.
- by eapply advance_ok.
- apply advance_raises in Hadv as [-> _]. split; [by apply lost_ok|apply keeps_refl].
- split; [by apply run_finish_ok|apply keeps_refl].
- split; [by apply lost_ok|apply keeps_refl].
- apply fewer_ok; try done. intros i r Hx. by apply map_lookup_filter_Some in Hx as [].
- apply fewer_ok; try done. by rewrite Hr.
Qed.
Lemma history_steps_ok s s' : rtc step s s' → history_ok s → history_ok s' ∧ keeps (sy_world s) (sy_world s').
Proof.
induction 1 as [s|s s1 s' Hstep _ IH]; intros Hok; [split; [done|apply keeps_refl]|].
destruct (history_step_ok s s1 Hstep Hok) as [Hok1 [Hc1 Hn1 Hno1 Hd1]]. destruct (IH Hok1) as [Hok' [Hc Hn Hno Hd]].
split; [done|]. split.
- intros key. etrans; [apply Hc1|apply Hc].
- lia.
- intros i Hi Hx. apply Hno; [lia|]. by apply Hno1.
- intros i r Hx Hs. destruct (Hd1 i r Hx Hs) as [Hnone|Hsome]; [left|by apply Hd].
  apply Hno; [|done]. apply (ho_keyed _ Hok) in Hx. lia.
Qed.

(** C36: the rows, counters and state of the scheduled jobs.  Runs start, work, end, fail, are
    skipped, overlap, and die between any two statements, and old rows are purged; from
    empty tables on, at any moment:
    - each counter of a job and a status is the number of times that status was reached
      (runs that ended with it, runs closed as interrupted, skips), less those whose worker
      has not counted them yet or died before it did;
    - the rows with a final status are at most as many as that number; it may exceed them,
      for rows are purged and a run that outlives its time is counted twice
      ([overrun_counted_twice]);
    - the state of a job tells the latest start, success, failure, skip and duration that
      was noted;
    - from then on no counter falls, and a run that has succeeded keeps its row unchanged
      until it is purged: it is never declared interrupted. *)
Theorem jobs_history w s s' :
a_runs (acts w) = ∅ → a_counters (acts w) = ∅ → a_states (acts w) = ∅ →
rtc step (System w [] [] []) s → rtc step s s' →
(∀ job st, counter job st (sy_world s) + total (uncounted job st) (sy_workers s ++ sy_dead s) =
   total (counts_as job st) (sy_trace s)) ∧
(∀ job st, final st → runs_with job st (sy_world s) ≤ total (counts_as job st) (sy_trace s)) ∧
(∀ job, state_tells job (sy_world s) (sy_trace s)) ∧
(∀ key, default 0 (a_counters (acts (sy_world s)) !! key) ≤ default 0 (a_counters (acts (sy_world s')) !! key)) ∧
(∀ i r, a_runs (acts (sy_world s)) !! i = Some r → n_status r = STATUS_SUCCEEDED →
   a_runs (acts (sy_world s')) !! i = None ∨ a_runs (acts (sy_world s')) !! i = Some r).
Proof.
intros Hr Hc Hst Hs Hs'. assert (Hok0 : history_ok (System w [] [] [])).
{ split; simpl; try done.
  - intros job st. unfold counter. by rewrite Hc, lookup_empty.
  - intros job st _. unfold runs_with. by rewrite Hr, map_filter_empty, map_size_empty.
  - intros i r. by rewrite Hr, lookup_empty.
  - constructor.
  - intros job. by split; rewrite Hst, lookup_empty. }
destruct (history_steps_ok _ _ Hs Hok0) as [Hok _]. destruct (history_steps_ok _ _ Hs' Hok) as [_ [Hcn _ _ Hd]].
split_and!; [apply Hok..|exact Hcn|exact Hd].
Qed.

(** *** Schedules as functions *)
Definition move (s : system) (n : nat) : system :=
match sy_workers s !! n with
| None => s
| Some k =>
    match advance (k_spec k) (k_phase k) (sy_world s) with
    | (inr ph, w) =>
        System w (<[n := Worker (k_spec k) ph]> (sy_workers s)) (sy_dead s)
          (sy_trace s ++ announced (k_spec k) (w_now (sy_world s)) (k_phase k) ph)
    | (inl _, w) => System w (delete n (sy_workers s)) (k :: sy_dead s) (sy_trace s)
    end
end.
Lemma move_steps n s : rtc step s (move s n).
Proof.
unfold move. destruct s as [w ks ds tr]. simpl. destruct (ks !! n) as [[spec ph]|] eqn:Hk; [|done]. simpl.
pose proof (lookup_lt_Some _ _ _ Hk) as Hlt. rewrite <- (take_drop_middle ks n _ Hk) at 1.
destruct (advance spec ph w) as [[e|ph'] w'] eqn:Hadv; apply rtc_once.
- rewrite delete_take_drop. by eapply step_raise.
- rewrite insert_take_drop by done. by apply step_advance.
Qed.
Lemma moves_steps l s : rtc step s (foldl move s l).
Proof. revert s. induction l as [|n l IH]; intros s; [done|]. etrans; [apply move_steps|apply IH]. Qed.
Definition begin_run host spec trigger (s : system) : system :=
match create_run host spec trigger (sy_world s) with
| (inr run, w) => System w (Worker spec (Created run) :: sy_workers s) (sy_dead s) (sy_trace s)
| _ => s
end.
Lemma begin_steps host spec trigger s : spec ∈ JOBS → rtc step s (begin_run host spec trigger s).
Proof.
intros Hs. unfold begin_run. destruct s as [w ks ds tr]. simpl.
destruct (create_run host spec trigger w) as [[e|run] w'] eqn:Hc; [done|]. by eapply rtc_once, (step_start host spec trigger).
Qed.
Definition end_run ms counts exc (s : system) (n : nat) : system :=
match sy_workers s !! n with
| Some (Worker spec (Working run)) =>
    System (sy_world s) (<[n := Worker spec (finishing run (w_now (sy_world s)) ms counts exc)]> (sy_workers s))
      (sy_dead s) (sy_trace s)
| _ => s
end.
Lemma end_steps ms counts exc s n : rtc step s (end_run ms counts exc s n).
Proof.
unfold end_run. destruct s as [w ks ds tr]. simpl. destruct (ks !! n) as [[spec ph]|] eqn:Hk; [|done].
destruct ph as [| | | |run| | | | | | | | |]; try done. rewrite insert_take_drop by (exact (lookup_lt_Some _ _ _ Hk)).
rewrite <- (take_drop_middle ks n _ Hk) at 1. apply rtc_once, step_finish.
Qed.
Definition at_moment (t : datetime) (s : system) : system :=
System (World (w_db (sy_world s)) (w_blobs (sy_world s)) t (w_next_uuid (sy_world s)))
  (sy_workers s) (sy_dead s) (sy_trace s).
Lemma moment_steps t s : rtc step s (at_moment t s).
Proof. destruct s as [w ks ds tr]. by apply rtc_once, step_other. Qed.
End history.

(** A purge that outlives its maximal time: the next run closes its row as interrupted,
    then it ends well, and both counters count it. *)
Import JobsDemo.
Definition start_up (s : system) : system :=
  foldl move (begin_run "h:1" PURGE_EXPIRED_DATA TRIGGER_COMMAND s) [0; 0; 0; 0]%nat.
Definition overrun : system :=
  foldl move
    (end_run 1000000 [("events", JInt 4)] None
       (start_up (at_moment (us 1000) (start_up (System idle [] [] [])))) 1)
    [1; 1; 1; 1; 1; 1]%nat.
Lemma overrun_reached : rtc step (System idle [] [] []) overrun.
Proof.
  assert (Hup : ∀ s, rtc step s (start_up s)).
  { intros s. etrans; [|apply moves_steps]. apply begin_steps. right. left. }
  unfold overrun. etrans; [|apply moves_steps]. etrans; [|apply end_steps]. etrans; [|apply Hup].
  etrans; [apply Hup|apply moment_steps].
Qed.
Example overrun_counted_twice :
  let job := "purge_expired_data" in let w := sy_world overrun in
  (runs_with job STATUS_SUCCEEDED w, runs_with job STATUS_RUN_FAILED w,
   counter job STATUS_SUCCEEDED w, counter job STATUS_RUN_FAILED w) = (1, 0, 1, 1) ∧
  sy_trace overrun =
    [HStarted job 0; HInterrupted job 0; HStarted job (us 1000); HInterrupted job 1;
     HEnded job STATUS_SUCCEEDED; HNoted job true (us 1000) 1000000].
Proof. split; vm_compute; reflexivity. Qed.
Lemma jobs_history_witness :
  let job := "purge_expired_data" in
  rtc step (System idle [] [] []) overrun ∧
  counter job STATUS_SUCCEEDED (sy_world overrun) + 0 = 1 ∧
  (a_states (acts (sy_world overrun)) !! job ≫= s_last_success_at) = Some (us 1000).
Proof.
  split; [exact overrun_reached|].
  destruct (jobs_history idle overrun overrun eq_refl eq_refl eq_refl overrun_reached (rtc_refl _ _))
    as (Hc & _ & Hs & _).
  split; [exact (Hc "purge_expired_data" STATUS_SUCCEEDED)|].
  rewrite (st_success _ _ _ (Hs "purge_expired_data")). vm_compute. reflexivity.
Defined.
(** A worker that dies after its row was saved leaves a run that no counter counts. *)
Example crash_before_count :
  let job := "purge_expired_data" in
  let died := foldl move (end_run 1 [] None (start_up (System idle [] [] [])) 0) [0; 0; 0]%nat in
  (runs_with job STATUS_SUCCEEDED (sy_world died), counter job STATUS_SUCCEEDED (sy_world died)) = (1, 0).
Proof. vm_compute. reflexivity. Qed.
