(* ===== verification/Migrations.v ===== *)
(** * Migrations: the schema the migrations build is the schema the models declare

    [storage/migrations] and [actions/migrations] against [storage/models.py] and
    [actions/models.py].  Migrations and models are data; [replay] runs the operations of
    the framework on the state it keeps of an application (models, fields, options, indexes,
    constraints), as [makemigrations --check] does.  The functions that [RunPython] calls
    change rows and no schema: they are in [GrantMigration]. *)
From S2P Require Import Prelude PyStr.

(** ** Fields and models *)
(** An argument of a field: a literal, the name of an object of the program or of the
    framework, choices, validators with their bound, or a list of names. *)
Inductive value :=
| VStr (s : string) | VInt (z : Z) | VBool (b : bool) | VNone | VName (path : string)
| VChoices (l : list (string * string)) | VCalls (l : list (string * Z)) | VStrings (l : list string).
#[export] Instance value_eq_dec : EqDecision value.
Proof. solve_decision. Defined.

Inductive field := Field (class : string) (args : list (string * value)).
(** [models.Index]: a name, or none and the framework makes one up; the condition of a
    partial index is a disjunction of conjunctions. *)
Definition condition := list (list (string * value)).
Inductive index := Index (name : string) (fields : list string) (cond : condition).
Inductive constraint := Unique (name : string) (fields : list string) | CheckThat (name : string) (cond : condition).
#[export] Instance constraint_eq_dec : EqDecision constraint.
Proof. solve_decision. Defined.

(** Arguments are keywords: their order does not matter. *)
Record field_def := FieldDef { fd_class : string; fd_args : gmap string value }.
#[export] Instance field_def_eq_dec : EqDecision field_def.
Proof. solve_decision. Defined.
Record model := Model {
  m_fields : gmap string field_def;
  m_options : gmap string value;
  m_indexes : list index;
  m_constraints : list constraint }.
(** The models of an application by their names in lower case. *)
Definition app_state := gmap string model.

Definition field_def_of (f : field) : field_def := let 'Field c args := f in FieldDef c (list_to_map args).
Definition is_primary (f : field_def) : bool := fd_args f !! "primary_key" == Some (VBool true).
(** A primary key is not serialized. *)
Definition contribute (f : field_def) : field_def :=
  if is_primary f then FieldDef (fd_class f) (<["serialize":=VBool false]> (fd_args f)) else f.
(** [DEFAULT_AUTO_FIELD], for a model without a primary key. *)
Definition auto_id : field_def :=
  field_def_of (Field "BigAutoField" [("auto_created", VBool true); ("primary_key", VBool true);
    ("serialize", VBool false); ("verbose_name", VStr "ID")]).
Definition declare (fields : list (string * field)) (options : list (string * value))
    (indexes : list index) (constraints : list constraint) : model :=
  let fs := (λ x : string * field, (x.1, contribute (field_def_of x.2))) <$> fields in
  Model (list_to_map (if existsb (λ x : string * field_def, is_primary x.2) fs then fs else ("id", auto_id) :: fs))
    (list_to_map options) indexes constraints.

(** ** Operations *)
Inductive operation :=
| CreateModel (name : string) (fields : list (string * field)) (options : list (string * value))
    (indexes : list index) (constraints : list constraint)
| AddField (model name : string) (f : field)
| AlterField (model name : string) (f : field)
| RemoveField (model name : string)
| AddIndex (model : string) (i : index)
| RemoveIndex (model name : string)
| AddConstraint (model : string) (c : constraint)
| AlterModelOptions (name : string) (options : list (string * value))
| RunPython (code : string).

Definition index_name (i : index) : string := let 'Index n _ _ := i in n.
Definition on_model (name : string) (s : app_state) (f : model → option model) : option app_state :=
  m ← s !! lower name; m' ← f m; Some (<[lower name:=m']> s).
Definition with_fields (fs : gmap string field_def) (m : model) : model :=
  Model fs (m_options m) (m_indexes m) (m_constraints m).
Definition apply_operation (o : operation) (s : app_state) : option app_state :=
  match o with
  | CreateModel n fields options indexes constraints =>
      match s !! lower n with
      | Some _ => None
      | None => Some (<[lower n:=Model (list_to_map ((λ x : string * field, (x.1, field_def_of x.2)) <$> fields))
                                  (list_to_map options) indexes constraints]> s)
      end
  | AddField n x f => on_model n s (λ m,
      if bool_decide (is_Some (m_fields m !! x)) then None
      else Some (with_fields (<[x:=field_def_of f]> (m_fields m)) m))
  | AlterField n x f => on_model n s (λ m,
      _ ← m_fields m !! x; Some (with_fields (<[x:=field_def_of f]> (m_fields m)) m))
  | RemoveField n x => on_model n s (λ m,
      _ ← m_fields m !! x; Some (with_fields (delete x (m_fields m)) m))
  | AddIndex n i => on_model n s (λ m,
      Some (Model (m_fields m) (m_options m) (m_indexes m ++ [i]) (m_constraints m)))
  | RemoveIndex n x => on_model n s (λ m,
      if existsb (λ i, index_name i == x) (m_indexes m)
      then Some (Model (m_fields m) (m_options m) (filter (λ i, index_name i ≠ x) (m_indexes m)) (m_constraints m))
      else None)
  | AddConstraint n c => on_model n s (λ m,
      Some (Model (m_fields m) (m_options m) (m_indexes m) (m_constraints m ++ [c])))
  | AlterModelOptions n options => on_model n s (λ m,
      Some (Model (m_fields m) (list_to_map options) (m_indexes m) (m_constraints m)))
  | RunPython _ => Some s
  end.

(** ** What a schema must obey *)
(** The columns an index, a constraint or an ordering names: a leading minus means
    descending, a suffix after two underscores is a lookup. *)
Fixpoint before_lookup (x : string) : string :=
  match x with
  | EmptyString => ""
  | String c x' => if startswith "__" x then "" else String c (before_lookup x')
  end.
Definition column_of (x : string) : string :=
  before_lookup (match x with String "-" x' => x' | _ => x end).
Definition condition_columns (c : condition) : list string :=
  mjoin ((λ l : list (string * value), column_of ∘ fst <$> l) <$> c).
Definition index_columns (i : index) : list string :=
  let 'Index _ fields c := i in (column_of <$> fields) ++ condition_columns c.
Definition constraint_columns (c : constraint) : list string :=
  match c with Unique _ fields => column_of <$> fields | CheckThat _ c => condition_columns c end.
Definition ordering_columns (m : model) : list string :=
  match m_options m !! "ordering" with Some (VStrings l) => column_of <$> l | _ => [] end.
(** One primary key; every column that an index or a constraint names exists; a foreign key points at a model of
    the application. *)
Definition model_ok (app : string) (s : app_state) (m : model) : bool :=
  (Nat.eqb (length (filter (λ x : string * field_def, is_primary x.2 = true) (map_to_list (m_fields m)))) 1) &&
  forallb (λ x, bool_decide (is_Some (m_fields m !! x)))
    (mjoin (index_columns <$> m_indexes m) ++ mjoin (constraint_columns <$> m_constraints m)) &&
  forallb (λ x : string * field_def,
      match fd_args x.2 !! "to" with
      | Some (VStr t) => existsb (λ n : string * model, t == app +:+ "." +:+ n.1) (map_to_list s)
      | Some _ => false
      | None => true
      end) (map_to_list (m_fields m)).
Definition state_ok (app : string) (s : app_state) : bool :=
  forallb (λ x : string * model, model_ok app s x.2) (map_to_list s).

(** An ordering is no part of the database: it may name a column the next operation adds. *)
Definition orderings_ok (s : app_state) : bool :=
  forallb (λ x : string * model,
    forallb (λ c, bool_decide (is_Some (m_fields x.2 !! c))) (ordering_columns x.2)) (map_to_list s).

(** The operations in order; every state on the way must obey the rules above. *)
Fixpoint replay (app : string) (l : list operation) (s : app_state) : option app_state :=
  match l with
  | [] => Some s
  | o :: l' => s' ← apply_operation o s; if state_ok app s' then replay app l' s' else None
  end.

(** ** What [makemigrations] compares *)
(** An index without a name has the one the framework makes of its columns. *)
Definition same_index (i j : index) : bool :=
  let 'Index n fields c := i in let 'Index n' fields' c' := j in
  ((n' == "") || (n == n')) && (fields == fields') && (c == c').
Definition same_set {A} (same : A → A → bool) (l l' : list A) : bool :=
  (Nat.eqb (length l) (length l')) && forallb (λ x, existsb (same x) l') l &&
  forallb (λ y, existsb (λ x, same x y) l) l'.
Definition same_model (m m' : model) : bool :=
  (m_fields m == m_fields m') && (m_options m == m_options m') &&
  same_set same_index (m_indexes m) (m_indexes m') &&
  same_set (λ c c', c == c') (m_constraints m) (m_constraints m').
Definition same_state (s s' : app_state) : bool :=
  bool_decide (dom (D := gset string) s = dom s') &&
  forallb (λ x : string * model, match s' !! x.1 with Some m' => same_model x.2 m' | None => false end) (map_to_list s).

(** ** The migrations of [apps/storage] *)
Definition storage_0001 : list operation :=
  [ CreateModel "CompanyQuota"
      [("id", Field "BigAutoField" [("auto_created", VBool true); ("primary_key", VBool true);
          ("serialize", VBool false); ("verbose_name", VStr "ID")]);
       ("company_id", Field "PositiveIntegerField" [("unique", VBool true)]);
       ("max_bytes", Field "BigIntegerField" [("validators", VCalls [("MinValueValidator", 0)])]);
       ("used_bytes", Field "BigIntegerField" [("default", VInt 0);
           ("validators", VCalls [("MinValueValidator", 0)])]);
       ("max_bytes_per_user", Field "BigIntegerField" [("blank", VBool true);
           ("help_text", VStr "Optional default per-user quota for this company. Null/0 disables.");
           ("null", VBool true); ("validators", VCalls [("MinValueValidator", 0)])]);
       ("updated_at", Field "DateTimeField" [("auto_now", VBool true)])]
      [("verbose_name", VStr "company quota"); ("verbose_name_plural", VStr "company quotas")]
      []
      [];
    CreateModel "Bucket"
      [("id", Field "UUIDField" [("default", VName "uuid.uuid4"); ("editable", VBool false);
          ("primary_key", VBool true); ("serialize", VBool false)]);
       ("name", Field "SlugField" [("max_length", VInt 100)]);
       ("company_id", Field "PositiveIntegerField" [("db_index", VBool true)]);
       ("public", Field "BooleanField" [("default", VBool false)]);
       ("file_size_limit", Field "BigIntegerField" [("blank", VBool true);
           ("help_text", VStr "Optional max object size in bytes for this bucket."); ("null", VBool true);
           ("validators", VCalls [("MinValueValidator", 1)])]);
       ("allowed_mime_types", Field "JSONField" [("blank", VBool true); ("default", VName "list");
           ("help_text", VStr "Empty list = allow all. Otherwise list of MIME types / prefixes (e.g. image/*).")]);
       ("owner_id", Field "PositiveIntegerField" [("blank", VBool true); ("null", VBool true)]);
       ("created_at", Field "DateTimeField" [("default", VName "timezone.now")]);
       ("updated_at", Field "DateTimeField" [("auto_now", VBool true)])]
      [("ordering", VStrings ["name"])]
      [Index "storage_buc_company_4764d5_idx" ["company_id"; "name"] []]
      [Unique "storage_bucket_company_name_uniq" ["company_id"; "name"]];
    CreateModel "UserQuota"
      [("id", Field "BigAutoField" [("auto_created", VBool true); ("primary_key", VBool true);
          ("serialize", VBool false); ("verbose_name", VStr "ID")]);
       ("company_id", Field "PositiveIntegerField" [("db_index", VBool true)]);
       ("user_id", Field "PositiveIntegerField" [("db_index", VBool true)]);
       ("max_bytes", Field "BigIntegerField" [("validators", VCalls [("MinValueValidator", 0)])]);
       ("used_bytes", Field "BigIntegerField" [("default", VInt 0);
           ("validators", VCalls [("MinValueValidator", 0)])]);
       ("updated_at", Field "DateTimeField" [("auto_now", VBool true)])]
      [("verbose_name", VStr "user quota"); ("verbose_name_plural", VStr "user quotas")]
      []
      [Unique "storage_userquota_company_user_uniq" ["company_id"; "user_id"]];
    CreateModel "StorageObject"
      [("id", Field "UUIDField" [("default", VName "uuid.uuid4"); ("editable", VBool false);
          ("primary_key", VBool true); ("serialize", VBool false)]);
       ("name", Field "CharField" [("db_index", VBool true); ("max_length", VInt 1024)]);
       ("company_id", Field "PositiveIntegerField" [("db_index", VBool true)]);
       ("owner_id", Field "PositiveIntegerField" [("blank", VBool true); ("db_index", VBool true);
           ("null", VBool true)]);
       ("size", Field "BigIntegerField" [("default", VInt 0); ("validators", VCalls [("MinValueValidator", 0)])]);
       ("etag", Field "CharField" [("blank", VBool true); ("default", VStr ""); ("max_length", VInt 64)]);
       ("mime_type", Field "CharField" [("default", VStr "application/octet-stream"); ("max_length", VInt 255)]);
       ("metadata", Field "JSONField" [("blank", VBool true); ("default", VName "dict")]);
       ("storage_key", Field "CharField" [("max_length", VInt 2048)]);
       ("version", Field "PositiveIntegerField" [("default", VInt 1)]);
       ("created_at", Field "DateTimeField" [("default", VName "timezone.now")]);
       ("updated_at", Field "DateTimeField" [("auto_now", VBool true)]);
       ("last_accessed_at", Field "DateTimeField" [("blank", VBool true); ("null", VBool true)]);
       ("bucket", Field "ForeignKey" [("on_delete", VName "CASCADE"); ("related_name", VStr "files");
           ("to", VStr "storage.bucket")])]
      [("ordering", VStrings ["name"])]
      [Index "storage_sto_bucket__17b8e6_idx" ["bucket"; "name"] [];
       Index "storage_sto_company_10a51a_idx" ["company_id"; "owner_id"] [];
       Index "storage_sto_bucket__2b3578_idx" ["bucket"; "name"; "updated_at"] []]
      [Unique "storage_object_bucket_name_uniq" ["bucket"; "name"]] ].
Definition storage_0002 : list operation :=
  [ CreateModel "StorageAccessGrant"
      [("id", Field "UUIDField" [("default", VName "uuid.uuid4"); ("editable", VBool false);
          ("primary_key", VBool true); ("serialize", VBool false)]);
       ("company_id", Field "PositiveIntegerField" [("db_index", VBool true)]);
       ("subject_type", Field "CharField" [("choices", VChoices [("user", "User"); ("group", "Group");
           ("company", "Company")]); ("max_length", VInt 16)]);
       ("subject_id", Field "CharField" [("help_text", VStr
           "User id, group id, or company id depending on subject_type."); ("max_length", VInt 64)]);
       ("resource_type", Field "CharField" [("choices", VChoices [("bucket", "Bucket"); ("folder", "Folder prefix");
           ("object", "Object")]); ("max_length", VInt 16)]);
       ("resource_id", Field "CharField" [("help_text", VStr "Bucket name, folder prefix, or object path / UUID.");
           ("max_length", VInt 1024)]);
       ("permission", Field "CharField" [("choices", VChoices [("read", "Read"); ("write", "Write");
           ("admin", "Admin")]); ("max_length", VInt 16)]);
       ("effect", Field "CharField" [("choices", VChoices [("allow", "Allow"); ("deny", "Deny (block)")]);
           ("default", VStr "allow"); ("max_length", VInt 8)]);
       ("created_by_id", Field "PositiveIntegerField" [("blank", VBool true); ("null", VBool true)]);
       ("created_at", Field "DateTimeField" [("default", VName "timezone.now")]);
       ("updated_at", Field "DateTimeField" [("auto_now", VBool true)]);
       ("expires_at", Field "DateTimeField" [("blank", VBool true); ("null", VBool true)]);
       ("notes", Field "CharField" [("blank", VBool true); ("default", VStr ""); ("max_length", VInt 255)])]
      [("verbose_name", VStr "storage access grant"); ("verbose_name_plural", VStr "storage access grants")]
      []
      [];
    AlterModelOptions "bucket" [("ordering", VStrings ["kind"; "name"])];
    AddField "bucket" "connector_provider"
      (Field "CharField" [("blank", VBool true); ("default", VStr ""); ("max_length", VInt 64)]);
    AddField "bucket" "kind"
      (Field "CharField" [("choices", VChoices [("company", "Company private"); ("user", "User private");
          ("connector", "External connector")]); ("db_index", VBool true); ("default", VStr "company");
          ("max_length", VInt 32)]);
    AlterField "bucket" "owner_id"
      (Field "PositiveIntegerField" [("blank", VBool true); ("db_index", VBool true); ("null", VBool true)]);
    AlterField "bucket" "public"
      (Field "BooleanField" [("default", VBool false);
          ("help_text", VStr "v1: always false. Public buckets are disabled.")]);
    AddIndex "bucket" (Index "storage_buc_company_25e417_idx" ["company_id"; "kind"] []);
    AddIndex "bucket" (Index "storage_buc_company_406129_idx" ["company_id"; "owner_id"] []);
    AddIndex "storageaccessgrant" (Index "storage_sto_company_d79254_idx" ["company_id"; "resource_type";
        "resource_id"] []);
    AddIndex "storageaccessgrant" (Index "storage_sto_company_e1914b_idx" ["company_id"; "subject_type";
        "subject_id"] []) ].
Definition storage_0003 : list operation :=
  [ AddField "storageaccessgrant" "bucket_name"
      (Field "SlugField" [("blank", VBool true); ("default", VStr "");
          ("help_text", VStr "Bucket this grant applies to. Empty means company bucket for folder/object grants.");
          ("max_length", VInt 100)]);
    AlterField "bucket" "kind"
      (Field "CharField" [("choices", VChoices [("company", "Company"); ("user", "User private (legacy)");
          ("connector", "External connector")]); ("db_index", VBool true); ("default", VStr "company");
          ("max_length", VInt 32)]);
    AlterField "bucket" "public"
      (Field "BooleanField" [("default", VBool false);
          ("help_text", VStr "Always false. Anonymous access uses capability share links, not public buckets.")]);
    CreateModel "ObjectShareLink"
      [("id", Field "UUIDField" [("default", VName "uuid.uuid4"); ("editable", VBool false);
          ("primary_key", VBool true); ("serialize", VBool false)]);
       ("token", Field "CharField" [("db_index", VBool true); ("default", VName "_default_share_token");
           ("max_length", VInt 64); ("unique", VBool true)]);
       ("company_id", Field "PositiveIntegerField" [("db_index", VBool true)]);
       ("created_by_id", Field "PositiveIntegerField" [("db_index", VBool true)]);
       ("expires_at", Field "DateTimeField" [("blank", VBool true);
           ("help_text", VStr "Optional absolute expiry. Required if max_downloads is unset.");
           ("null", VBool true)]);
       ("max_downloads", Field "PositiveIntegerField" [("blank", VBool true);
           ("help_text", VStr "Optional download cap. Required if expires_at is unset."); ("null", VBool true);
           ("validators", VCalls [("MinValueValidator", 1)])]);
       ("download_count", Field "PositiveIntegerField" [("default", VInt 0)]);
       ("revoked_at", Field "DateTimeField" [("blank", VBool true); ("null", VBool true)]);
       ("created_at", Field "DateTimeField" [("default", VName "timezone.now")]);
       ("notes", Field "CharField" [("blank", VBool true); ("default", VStr ""); ("max_length", VInt 255)]);
       ("object", Field "ForeignKey" [("on_delete", VName "CASCADE"); ("related_name", VStr "share_links");
           ("to", VStr "storage.storageobject")])]
      [("verbose_name", VStr "object share link"); ("verbose_name_plural", VStr "object share links");
          ("ordering", VStrings ["-created_at"])]
      [Index "storage_obj_company_51730a_idx" ["company_id"; "object"] [];
       Index "storage_obj_created_cfdd61_idx" ["created_by_id"; "created_at"] []]
      [] ].
Definition storage_0004 : list operation :=
  [ RunPython "delete_user_buckets";
    AlterField "bucket" "kind"
      (Field "CharField" [("choices", VChoices [("company", "Company"); ("connector", "External connector")]);
          ("db_index", VBool true); ("default", VStr "company"); ("max_length", VInt 32)]) ].
Definition storage_0005 : list operation :=
  [ AddField "storageaccessgrant" "bucket"
      (Field "ForeignKey" [("null", VBool true); ("on_delete", VName "CASCADE");
          ("related_name", VStr "access_grants"); ("to", VStr "storage.bucket")]);
    AddField "storageaccessgrant" "object"
      (Field "ForeignKey" [("blank", VBool true); ("null", VBool true); ("on_delete", VName "CASCADE");
          ("related_name", VStr "access_grants"); ("to", VStr "storage.storageobject")]);
    RunPython "forwards_grant_fks";
    AlterField "storageaccessgrant" "bucket"
      (Field "ForeignKey" [("on_delete", VName "CASCADE"); ("related_name", VStr "access_grants");
          ("to", VStr "storage.bucket")]);
    RemoveIndex "storageaccessgrant" "storage_sto_company_d79254_idx";
    RemoveField "storageaccessgrant" "bucket_name";
    RemoveField "storageaccessgrant" "resource_id";
    AddIndex "storageaccessgrant" (Index "storage_sto_company_1169ae_idx" ["company_id"; "resource_type"] []);
    AddIndex "storageaccessgrant" (Index "storage_sto_bucket__814848_idx" ["bucket"; "resource_type"] []);
    AddConstraint "storageaccessgrant" (CheckThat "storage_grant_object_matches_type" [[("resource_type", VStr
        "bucket"); ("object__isnull", VBool true)]; [("resource_type__in", VStrings ["folder"; "object"]);
        ("object__isnull", VBool false)]]) ].
Definition storage_migrations : list operation :=
  storage_0001 ++ storage_0002 ++ storage_0003 ++ storage_0004 ++ storage_0005.

(** ** The migrations of [apps/actions] *)
Definition actions_0001 : list operation :=
  [ CreateModel "ActionRule"
      [("id", Field "BigAutoField" [("auto_created", VBool true); ("primary_key", VBool true);
          ("serialize", VBool false); ("verbose_name", VStr "ID")]);
       ("company_id", Field "PositiveIntegerField" [("db_index", VBool true)]);
       ("name", Field "CharField" [("max_length", VInt 200)]);
       ("description", Field "TextField" [("blank", VBool true)]);
       ("event_type", Field "CharField" [("choices", VName "_event_type_field_choices"); ("max_length", VInt 128)]);
       ("enabled", Field "BooleanField" [("default", VBool true)]);
       ("action_kind", Field "CharField" [("choices", VChoices [("webhook", "Webhook")]); ("default", VStr "webhook");
           ("max_length", VInt 16)]);
       ("config", Field "JSONField" [("blank", VBool true); ("default", VName "dict")]);
       ("created_at", Field "DateTimeField" [("auto_now_add", VBool true)]);
       ("updated_at", Field "DateTimeField" [("auto_now", VBool true)])]
      [("ordering", VStrings ["company_id"; "event_type"; "name"])]
      [Index "actions_act_company_2491c6_idx" ["company_id"; "event_type"; "enabled"] []]
      [];
    CreateModel "ActionOutbox"
      [("id", Field "UUIDField" [("default", VName "uuid.uuid4"); ("editable", VBool false);
          ("primary_key", VBool true); ("serialize", VBool false)]);
       ("company_id", Field "PositiveIntegerField" [("db_index", VBool true)]);
       ("event_type", Field "CharField" [("max_length", VInt 128)]);
       ("envelope", Field "JSONField" []);
       ("status", Field "CharField" [("choices", VChoices [("pending", "Pending"); ("delivered", "Delivered");
           ("failed", "Failed"); ("dead", "Dead")]); ("db_index", VBool true); ("default", VStr "pending");
           ("max_length", VInt 16)]);
       ("attempt_count", Field "PositiveIntegerField" [("default", VInt 0)]);
       ("next_attempt_at", Field "DateTimeField" [("blank", VBool true); ("db_index", VBool true);
           ("null", VBool true)]);
       ("locked_until", Field "DateTimeField" [("blank", VBool true); ("db_index", VBool true);
           ("null", VBool true)]);
       ("last_error", Field "TextField" [("blank", VBool true)]);
       ("created_at", Field "DateTimeField" [("auto_now_add", VBool true)]);
       ("updated_at", Field "DateTimeField" [("auto_now", VBool true)]);
       ("delivered_at", Field "DateTimeField" [("blank", VBool true); ("null", VBool true)]);
       ("action_rule", Field "ForeignKey" [("on_delete", VName "CASCADE"); ("related_name", VStr "outbox_rows");
           ("to", VStr "actions.actionrule")])]
      [("verbose_name", VStr "Action delivery"); ("verbose_name_plural", VStr "Action deliveries");
          ("ordering", VStrings ["-created_at"])]
      []
      [];
    CreateModel "DeliveryAttempt"
      [("id", Field "BigAutoField" [("auto_created", VBool true); ("primary_key", VBool true);
          ("serialize", VBool false); ("verbose_name", VStr "ID")]);
       ("status", Field "CharField" [("choices", VChoices [("success", "Success"); ("failure", "Failure")]);
           ("max_length", VInt 16)]);
       ("http_status", Field "PositiveIntegerField" [("blank", VBool true); ("null", VBool true)]);
       ("error_message", Field "TextField" [("blank", VBool true)]);
       ("attempt_number", Field "PositiveIntegerField" []);
       ("duration_ms", Field "PositiveIntegerField" [("blank", VBool true); ("null", VBool true)]);
       ("created_at", Field "DateTimeField" [("auto_now_add", VBool true)]);
       ("outbox", Field "ForeignKey" [("on_delete", VName "CASCADE"); ("related_name", VStr "delivery_attempts");
           ("to", VStr "actions.actionoutbox")])]
      [("verbose_name", VStr "Delivery attempt"); ("verbose_name_plural", VStr "Delivery attempts");
          ("ordering", VStrings ["-created_at"])]
      []
      [];
    AddIndex "actionoutbox" (Index "actions_act_status_dbeabd_idx" ["status"; "next_attempt_at"] []) ].
Definition actions_0002 : list operation :=
  [ CreateModel "EventLog"
      [("id", Field "BigAutoField" [("primary_key", VBool true); ("serialize", VBool false)]);
       ("company_id", Field "PositiveIntegerField" []);
       ("user_id", Field "PositiveIntegerField" [("blank", VBool true); ("null", VBool true)]);
       ("event_type", Field "CharField" [("max_length", VInt 64)]);
       ("data", Field "JSONField" [("blank", VBool true); ("default", VName "dict")]);
       ("created_at", Field "DateTimeField" [("default", VName "timezone.now")])]
      [("verbose_name", VStr "Event log entry"); ("verbose_name_plural", VStr "Event log");
          ("ordering", VStrings ["-created_at"; "-id"])]
      [Index "actions_eventlog_company_idx" ["company_id"; "-created_at"] [];
       Index "actions_eventlog_user_idx" ["company_id"; "user_id"; "-created_at"] []]
      [] ].
Definition actions_0003 : list operation :=
  [ AlterField "eventlog" "company_id"
      (Field "PositiveIntegerField" [("blank", VBool true); ("null", VBool true)]);
    CreateModel "ScheduledJobCounter"
      [("id", Field "BigAutoField" [("auto_created", VBool true); ("primary_key", VBool true);
          ("serialize", VBool false); ("verbose_name", VStr "ID")]);
       ("job", Field "CharField" [("max_length", VInt 64)]);
       ("name", Field "CharField" [("max_length", VInt 64)]);
       ("value", Field "BigIntegerField" [("default", VInt 0)])]
      [("verbose_name", VStr "Scheduled job counter"); ("verbose_name_plural", VStr "Scheduled job counters")]
      []
      [];
    CreateModel "ScheduledJobRun"
      [("id", Field "BigAutoField" [("primary_key", VBool true); ("serialize", VBool false)]);
       ("job", Field "CharField" [("max_length", VInt 64)]);
       ("trigger", Field "CharField" [("choices", VChoices [("celery", "Celery beat");
           ("command", "Management command")]); ("max_length", VInt 16)]);
       ("status", Field "CharField" [("choices", VChoices [("running", "Running"); ("succeeded", "Succeeded");
           ("failed", "Failed"); ("skipped_locked", "Skipped (lock held)")]); ("default", VStr "running");
           ("max_length", VInt 16)]);
       ("started_at", Field "DateTimeField" [("default", VName "timezone.now")]);
       ("finished_at", Field "DateTimeField" [("blank", VBool true); ("null", VBool true)]);
       ("duration_ms", Field "PositiveIntegerField" [("blank", VBool true); ("null", VBool true)]);
       ("counts", Field "JSONField" [("blank", VBool true); ("default", VName "dict")]);
       ("error_key", Field "CharField" [("blank", VBool true); ("max_length", VInt 32)]);
       ("error_class", Field "CharField" [("blank", VBool true); ("max_length", VInt 128)]);
       ("error_message", Field "CharField" [("blank", VBool true); ("max_length", VInt 300)]);
       ("host", Field "CharField" [("blank", VBool true); ("max_length", VInt 128)]);
       ("event_log_id", Field "BigIntegerField" [("blank", VBool true); ("null", VBool true)])]
      [("verbose_name", VStr "Scheduled job run"); ("verbose_name_plural", VStr "Scheduled job runs");
          ("ordering", VStrings ["-started_at"; "-id"])]
      []
      [];
    CreateModel "ScheduledJobState"
      [("job", Field "CharField" [("max_length", VInt 64); ("primary_key", VBool true); ("serialize", VBool false)]);
       ("created_at", Field "DateTimeField" [("default", VName "timezone.now")]);
       ("last_started_at", Field "DateTimeField" [("blank", VBool true); ("null", VBool true)]);
       ("last_success_at", Field "DateTimeField" [("blank", VBool true); ("null", VBool true)]);
       ("last_failure_at", Field "DateTimeField" [("blank", VBool true); ("null", VBool true)]);
       ("last_skipped_at", Field "DateTimeField" [("blank", VBool true); ("null", VBool true)]);
       ("last_duration_ms", Field "PositiveIntegerField" [("blank", VBool true); ("null", VBool true)])]
      [("verbose_name", VStr "Scheduled job state"); ("verbose_name_plural", VStr "Scheduled job states")]
      []
      [];
    AddField "deliveryattempt" "scheduled_job_run_id"
      (Field "BigIntegerField" [("blank", VBool true); ("null", VBool true)]);
    AddField "deliveryattempt" "trigger"
      (Field "CharField" [("blank", VBool true); ("choices", VChoices [("dispatch", "Dispatch");
          ("automatic_retry", "Automatic retry")]); ("max_length", VInt 16)]);
    AddIndex "deliveryattempt" (Index "actions_attempt_sjrun_idx" ["scheduled_job_run_id"]
        [[("scheduled_job_run_id__isnull", VBool false)]]);
    AddConstraint "scheduledjobcounter" (Unique "actions_sjcounter_job_name_uniq" ["job"; "name"]);
    AddIndex "scheduledjobrun" (Index "actions_sjrun_job_idx" ["job"; "-started_at"] []);
    AddIndex "scheduledjobrun" (Index "actions_sjrun_started_idx" ["started_at"] []);
    RunPython "create_job_states" ].
Definition actions_0004 : list operation :=
  [ AddField "actionoutbox" "delivery_kind"
      (Field "CharField" [("choices", VChoices [("webhook", "Webhook"); ("email", "Email")]);
          ("db_index", VBool true); ("default", VStr "webhook"); ("max_length", VInt 16)]);
    AlterField "actionoutbox" "action_rule"
      (Field "ForeignKey" [("blank", VBool true); ("null", VBool true); ("on_delete", VName "CASCADE");
          ("related_name", VStr "outbox_rows"); ("to", VStr "actions.actionrule")]) ].
Definition actions_0005 : list operation :=
  [ CreateModel "CompanyDeletion"
      [("id", Field "BigAutoField" [("auto_created", VBool true); ("primary_key", VBool true);
          ("serialize", VBool false); ("verbose_name", VStr "ID")]);
       ("company_id", Field "PositiveIntegerField" [("unique", VBool true)]);
       ("requested_at", Field "DateTimeField" [("auto_now_add", VBool true)]);
       ("completed_at", Field "DateTimeField" [("blank", VBool true); ("null", VBool true)])]
      []
      []
      [] ].
Definition actions_migrations : list operation :=
  actions_0001 ++ actions_0002 ++ actions_0003 ++ actions_0004 ++ actions_0005.

(** ** The models of [apps/storage] *)
Definition Bucket_model : model :=
  declare
    [("id", Field "UUIDField" [("primary_key", VBool true); ("default", VName "uuid.uuid4");
        ("editable", VBool false)]);
     ("name", Field "SlugField" [("max_length", VInt 100)]);
     ("company_id", Field "PositiveIntegerField" [("db_index", VBool true)]);
     ("kind", Field "CharField" [("max_length", VInt 32); ("choices", VChoices [("company", "Company");
         ("connector", "External connector")]); ("default", VStr "company"); ("db_index", VBool true)]);
     ("public", Field "BooleanField" [("default", VBool false);
         ("help_text", VStr "Always false. Anonymous access uses capability share links, not public buckets.")]);
     ("file_size_limit", Field "BigIntegerField" [("null", VBool true); ("blank", VBool true);
         ("validators", VCalls [("MinValueValidator", 1)]);
         ("help_text", VStr "Optional max object size in bytes for this bucket.")]);
     ("allowed_mime_types", Field "JSONField" [("default", VName "list"); ("blank", VBool true);
         ("help_text", VStr "Empty list = allow all. Otherwise list of MIME types / prefixes (e.g. image/*).")]);
     ("owner_id", Field "PositiveIntegerField" [("null", VBool true); ("blank", VBool true);
         ("db_index", VBool true)]);
     ("connector_provider", Field "CharField" [("max_length", VInt 64); ("blank", VBool true); ("default", VStr "")]);
     ("created_at", Field "DateTimeField" [("default", VName "timezone.now")]);
     ("updated_at", Field "DateTimeField" [("auto_now", VBool true)])]
    [("ordering", VStrings ["kind"; "name"])]
    [Index "" ["company_id"; "name"] [];
     Index "" ["company_id"; "kind"] [];
     Index "" ["company_id"; "owner_id"] []]
    [Unique "storage_bucket_company_name_uniq" ["company_id"; "name"]].
Definition StorageObject_model : model :=
  declare
    [("id", Field "UUIDField" [("primary_key", VBool true); ("default", VName "uuid.uuid4");
        ("editable", VBool false)]);
     ("bucket", Field "ForeignKey" [("to", VStr "storage.bucket"); ("on_delete", VName "CASCADE");
         ("related_name", VStr "files")]);
     ("name", Field "CharField" [("max_length", VInt 1024); ("db_index", VBool true)]);
     ("company_id", Field "PositiveIntegerField" [("db_index", VBool true)]);
     ("owner_id", Field "PositiveIntegerField" [("null", VBool true); ("blank", VBool true);
         ("db_index", VBool true)]);
     ("size", Field "BigIntegerField" [("default", VInt 0); ("validators", VCalls [("MinValueValidator", 0)])]);
     ("etag", Field "CharField" [("max_length", VInt 64); ("blank", VBool true); ("default", VStr "")]);
     ("mime_type", Field "CharField" [("max_length", VInt 255); ("default", VStr "application/octet-stream")]);
     ("metadata", Field "JSONField" [("default", VName "dict"); ("blank", VBool true)]);
     ("storage_key", Field "CharField" [("max_length", VInt 2048)]);
     ("version", Field "PositiveIntegerField" [("default", VInt 1)]);
     ("created_at", Field "DateTimeField" [("default", VName "timezone.now")]);
     ("updated_at", Field "DateTimeField" [("auto_now", VBool true)]);
     ("last_accessed_at", Field "DateTimeField" [("null", VBool true); ("blank", VBool true)])]
    [("ordering", VStrings ["name"])]
    [Index "" ["bucket"; "name"] [];
     Index "" ["company_id"; "owner_id"] [];
     Index "" ["bucket"; "name"; "updated_at"] []]
    [Unique "storage_object_bucket_name_uniq" ["bucket"; "name"]].
Definition CompanyQuota_model : model :=
  declare
    [("company_id", Field "PositiveIntegerField" [("unique", VBool true)]);
     ("max_bytes", Field "BigIntegerField" [("validators", VCalls [("MinValueValidator", 0)])]);
     ("used_bytes", Field "BigIntegerField" [("default", VInt 0); ("validators", VCalls [("MinValueValidator", 0)])]);
     ("max_bytes_per_user", Field "BigIntegerField" [("null", VBool true); ("blank", VBool true);
         ("validators", VCalls [("MinValueValidator", 0)]);
         ("help_text", VStr "Optional default per-user quota for this company. Null/0 disables.")]);
     ("updated_at", Field "DateTimeField" [("auto_now", VBool true)])]
    [("verbose_name", VStr "company quota"); ("verbose_name_plural", VStr "company quotas")]
    []
    [].
Definition UserQuota_model : model :=
  declare
    [("company_id", Field "PositiveIntegerField" [("db_index", VBool true)]);
     ("user_id", Field "PositiveIntegerField" [("db_index", VBool true)]);
     ("max_bytes", Field "BigIntegerField" [("validators", VCalls [("MinValueValidator", 0)])]);
     ("used_bytes", Field "BigIntegerField" [("default", VInt 0); ("validators", VCalls [("MinValueValidator", 0)])]);
     ("updated_at", Field "DateTimeField" [("auto_now", VBool true)])]
    [("verbose_name", VStr "user quota"); ("verbose_name_plural", VStr "user quotas")]
    []
    [Unique "storage_userquota_company_user_uniq" ["company_id"; "user_id"]].
Definition StorageAccessGrant_model : model :=
  declare
    [("id", Field "UUIDField" [("primary_key", VBool true); ("default", VName "uuid.uuid4");
        ("editable", VBool false)]);
     ("company_id", Field "PositiveIntegerField" [("db_index", VBool true)]);
     ("bucket", Field "ForeignKey" [("to", VStr "storage.bucket"); ("on_delete", VName "CASCADE");
         ("related_name", VStr "access_grants")]);
     ("object", Field "ForeignKey" [("to", VStr "storage.storageobject"); ("on_delete", VName "CASCADE");
         ("null", VBool true); ("blank", VBool true); ("related_name", VStr "access_grants")]);
     ("subject_type", Field "CharField" [("max_length", VInt 16); ("choices", VChoices [("user", "User");
         ("group", "Group"); ("company", "Company")])]);
     ("subject_id", Field "CharField" [("max_length", VInt 64);
         ("help_text", VStr "User id, group id, or company id depending on subject_type.")]);
     ("resource_type", Field "CharField" [("max_length", VInt 16); ("choices", VChoices [("bucket", "Bucket");
         ("folder", "Folder prefix"); ("object", "Object")])]);
     ("permission", Field "CharField" [("max_length", VInt 16); ("choices", VChoices [("read", "Read");
         ("write", "Write"); ("admin", "Admin")])]);
     ("effect", Field "CharField" [("max_length", VInt 8); ("choices", VChoices [("allow", "Allow");
         ("deny", "Deny (block)")]); ("default", VStr "allow")]);
     ("created_by_id", Field "PositiveIntegerField" [("null", VBool true); ("blank", VBool true)]);
     ("created_at", Field "DateTimeField" [("default", VName "timezone.now")]);
     ("updated_at", Field "DateTimeField" [("auto_now", VBool true)]);
     ("expires_at", Field "DateTimeField" [("null", VBool true); ("blank", VBool true)]);
     ("notes", Field "CharField" [("max_length", VInt 255); ("blank", VBool true); ("default", VStr "")])]
    [("verbose_name", VStr "storage access grant"); ("verbose_name_plural", VStr "storage access grants")]
    [Index "" ["company_id"; "resource_type"] [];
     Index "" ["company_id"; "subject_type"; "subject_id"] [];
     Index "" ["bucket"; "resource_type"] []]
    [CheckThat "storage_grant_object_matches_type" [[("resource_type", VStr "bucket");
        ("object__isnull", VBool true)]; [("resource_type__in", VStrings ["folder"; "object"]);
        ("object__isnull", VBool false)]]].
Definition ObjectShareLink_model : model :=
  declare
    [("id", Field "UUIDField" [("primary_key", VBool true); ("default", VName "uuid.uuid4");
        ("editable", VBool false)]);
     ("token", Field "CharField" [("max_length", VInt 64); ("unique", VBool true);
         ("default", VName "_default_share_token"); ("db_index", VBool true)]);
     ("object", Field "ForeignKey" [("to", VStr "storage.storageobject"); ("on_delete", VName "CASCADE");
         ("related_name", VStr "share_links")]);
     ("company_id", Field "PositiveIntegerField" [("db_index", VBool true)]);
     ("created_by_id", Field "PositiveIntegerField" [("db_index", VBool true)]);
     ("expires_at", Field "DateTimeField" [("null", VBool true); ("blank", VBool true);
         ("help_text", VStr "Optional absolute expiry. Required if max_downloads is unset.")]);
     ("max_downloads", Field "PositiveIntegerField" [("null", VBool true); ("blank", VBool true);
         ("validators", VCalls [("MinValueValidator", 1)]);
         ("help_text", VStr "Optional download cap. Required if expires_at is unset.")]);
     ("download_count", Field "PositiveIntegerField" [("default", VInt 0)]);
     ("revoked_at", Field "DateTimeField" [("null", VBool true); ("blank", VBool true)]);
     ("created_at", Field "DateTimeField" [("default", VName "timezone.now")]);
     ("notes", Field "CharField" [("max_length", VInt 255); ("blank", VBool true); ("default", VStr "")])]
    [("verbose_name", VStr "object share link"); ("verbose_name_plural", VStr "object share links");
        ("ordering", VStrings ["-created_at"])]
    [Index "" ["company_id"; "object"] [];
     Index "" ["created_by_id"; "created_at"] []]
    [].
Definition storage_models : app_state :=
  list_to_map [ ("bucket", Bucket_model);
    ("storageobject", StorageObject_model);
    ("companyquota", CompanyQuota_model);
    ("userquota", UserQuota_model);
    ("storageaccessgrant", StorageAccessGrant_model);
    ("objectsharelink", ObjectShareLink_model) ].

(** ** The models of [apps/actions] *)
Definition ActionRule_model : model :=
  declare
    [("company_id", Field "PositiveIntegerField" [("db_index", VBool true)]);
     ("name", Field "CharField" [("max_length", VInt 200)]);
     ("description", Field "TextField" [("blank", VBool true)]);
     ("event_type", Field "CharField" [("max_length", VInt 128); ("choices", VName "_event_type_field_choices")]);
     ("enabled", Field "BooleanField" [("default", VBool true)]);
     ("action_kind", Field "CharField" [("max_length", VInt 16); ("choices", VChoices [("webhook", "Webhook")]);
         ("default", VStr "webhook")]);
     ("config", Field "JSONField" [("default", VName "dict"); ("blank", VBool true)]);
     ("created_at", Field "DateTimeField" [("auto_now_add", VBool true)]);
     ("updated_at", Field "DateTimeField" [("auto_now", VBool true)])]
    [("ordering", VStrings ["company_id"; "event_type"; "name"])]
    [Index "" ["company_id"; "event_type"; "enabled"] []]
    [].
Definition ActionOutbox_model : model :=
  declare
    [("id", Field "UUIDField" [("primary_key", VBool true); ("default", VName "uuid.uuid4");
        ("editable", VBool false)]);
     ("company_id", Field "PositiveIntegerField" [("db_index", VBool true)]);
     ("action_rule", Field "ForeignKey" [("to", VStr "actions.actionrule"); ("on_delete", VName "CASCADE");
         ("related_name", VStr "outbox_rows"); ("null", VBool true); ("blank", VBool true)]);
     ("delivery_kind", Field "CharField" [("max_length", VInt 16); ("choices", VChoices [("webhook", "Webhook");
         ("email", "Email")]); ("default", VStr "webhook"); ("db_index", VBool true)]);
     ("event_type", Field "CharField" [("max_length", VInt 128)]);
     ("envelope", Field "JSONField" []);
     ("status", Field "CharField" [("max_length", VInt 16); ("choices", VChoices [("pending", "Pending");
         ("delivered", "Delivered"); ("failed", "Failed"); ("dead", "Dead")]); ("default", VStr "pending");
         ("db_index", VBool true)]);
     ("attempt_count", Field "PositiveIntegerField" [("default", VInt 0)]);
     ("next_attempt_at", Field "DateTimeField" [("null", VBool true); ("blank", VBool true);
         ("db_index", VBool true)]);
     ("locked_until", Field "DateTimeField" [("null", VBool true); ("blank", VBool true); ("db_index", VBool true)]);
     ("last_error", Field "TextField" [("blank", VBool true)]);
     ("created_at", Field "DateTimeField" [("auto_now_add", VBool true)]);
     ("updated_at", Field "DateTimeField" [("auto_now", VBool true)]);
     ("delivered_at", Field "DateTimeField" [("null", VBool true); ("blank", VBool true)])]
    [("verbose_name", VStr "Action delivery"); ("verbose_name_plural", VStr "Action deliveries");
        ("ordering", VStrings ["-created_at"])]
    [Index "" ["status"; "next_attempt_at"] []]
    [].
Definition DeliveryAttempt_model : model :=
  declare
    [("outbox", Field "ForeignKey" [("to", VStr "actions.actionoutbox"); ("on_delete", VName "CASCADE");
        ("related_name", VStr "delivery_attempts")]);
     ("status", Field "CharField" [("max_length", VInt 16); ("choices", VChoices [("success", "Success");
         ("failure", "Failure")])]);
     ("http_status", Field "PositiveIntegerField" [("null", VBool true); ("blank", VBool true)]);
     ("error_message", Field "TextField" [("blank", VBool true)]);
     ("attempt_number", Field "PositiveIntegerField" []);
     ("duration_ms", Field "PositiveIntegerField" [("null", VBool true); ("blank", VBool true)]);
     ("trigger", Field "CharField" [("max_length", VInt 16); ("choices", VChoices [("dispatch", "Dispatch");
         ("automatic_retry", "Automatic retry")]); ("blank", VBool true)]);
     ("scheduled_job_run_id", Field "BigIntegerField" [("null", VBool true); ("blank", VBool true)]);
     ("created_at", Field "DateTimeField" [("auto_now_add", VBool true)])]
    [("verbose_name", VStr "Delivery attempt"); ("verbose_name_plural", VStr "Delivery attempts");
        ("ordering", VStrings ["-created_at"])]
    [Index "actions_attempt_sjrun_idx" ["scheduled_job_run_id"] [[("scheduled_job_run_id__isnull", VBool false)]]]
    [].
Definition EventLog_model : model :=
  declare
    [("id", Field "BigAutoField" [("primary_key", VBool true)]);
     ("company_id", Field "PositiveIntegerField" [("null", VBool true); ("blank", VBool true)]);
     ("user_id", Field "PositiveIntegerField" [("null", VBool true); ("blank", VBool true)]);
     ("event_type", Field "CharField" [("max_length", VInt 64)]);
     ("data", Field "JSONField" [("default", VName "dict"); ("blank", VBool true)]);
     ("created_at", Field "DateTimeField" [("default", VName "timezone.now")])]
    [("verbose_name", VStr "Event log entry"); ("verbose_name_plural", VStr "Event log");
        ("ordering", VStrings ["-created_at"; "-id"])]
    [Index "actions_eventlog_company_idx" ["company_id"; "-created_at"] [];
     Index "actions_eventlog_user_idx" ["company_id"; "user_id"; "-created_at"] []]
    [].
Definition ScheduledJobRun_model : model :=
  declare
    [("id", Field "BigAutoField" [("primary_key", VBool true)]);
     ("job", Field "CharField" [("max_length", VInt 64)]);
     ("trigger", Field "CharField" [("max_length", VInt 16); ("choices", VChoices [("celery", "Celery beat");
         ("command", "Management command")])]);
     ("status", Field "CharField" [("max_length", VInt 16); ("choices", VChoices [("running", "Running");
         ("succeeded", "Succeeded"); ("failed", "Failed"); ("skipped_locked", "Skipped (lock held)")]);
         ("default", VStr "running")]);
     ("started_at", Field "DateTimeField" [("default", VName "timezone.now")]);
     ("finished_at", Field "DateTimeField" [("null", VBool true); ("blank", VBool true)]);
     ("duration_ms", Field "PositiveIntegerField" [("null", VBool true); ("blank", VBool true)]);
     ("counts", Field "JSONField" [("default", VName "dict"); ("blank", VBool true)]);
     ("error_key", Field "CharField" [("max_length", VInt 32); ("blank", VBool true)]);
     ("error_class", Field "CharField" [("max_length", VInt 128); ("blank", VBool true)]);
     ("error_message", Field "CharField" [("max_length", VInt 300); ("blank", VBool true)]);
     ("host", Field "CharField" [("max_length", VInt 128); ("blank", VBool true)]);
     ("event_log_id", Field "BigIntegerField" [("null", VBool true); ("blank", VBool true)])]
    [("verbose_name", VStr "Scheduled job run"); ("verbose_name_plural", VStr "Scheduled job runs");
        ("ordering", VStrings ["-started_at"; "-id"])]
    [Index "actions_sjrun_job_idx" ["job"; "-started_at"] [];
     Index "actions_sjrun_started_idx" ["started_at"] []]
    [].
Definition ScheduledJobState_model : model :=
  declare
    [("job", Field "CharField" [("max_length", VInt 64); ("primary_key", VBool true)]);
     ("created_at", Field "DateTimeField" [("default", VName "timezone.now")]);
     ("last_started_at", Field "DateTimeField" [("null", VBool true); ("blank", VBool true)]);
     ("last_success_at", Field "DateTimeField" [("null", VBool true); ("blank", VBool true)]);
     ("last_failure_at", Field "DateTimeField" [("null", VBool true); ("blank", VBool true)]);
     ("last_skipped_at", Field "DateTimeField" [("null", VBool true); ("blank", VBool true)]);
     ("last_duration_ms", Field "PositiveIntegerField" [("null", VBool true); ("blank", VBool true)])]
    [("verbose_name", VStr "Scheduled job state"); ("verbose_name_plural", VStr "Scheduled job states")]
    []
    [].
Definition ScheduledJobCounter_model : model :=
  declare
    [("job", Field "CharField" [("max_length", VInt 64)]);
     ("name", Field "CharField" [("max_length", VInt 64)]);
     ("value", Field "BigIntegerField" [("default", VInt 0)])]
    [("verbose_name", VStr "Scheduled job counter"); ("verbose_name_plural", VStr "Scheduled job counters")]
    []
    [Unique "actions_sjcounter_job_name_uniq" ["job"; "name"]].
Definition CompanyDeletion_model : model :=
  declare
    [("company_id", Field "PositiveIntegerField" [("unique", VBool true)]);
     ("requested_at", Field "DateTimeField" [("auto_now_add", VBool true)]);
     ("completed_at", Field "DateTimeField" [("null", VBool true); ("blank", VBool true)])]
    []
    []
    [].
Definition actions_models : app_state :=
  list_to_map [ ("actionrule", ActionRule_model);
    ("actionoutbox", ActionOutbox_model);
    ("deliveryattempt", DeliveryAttempt_model);
    ("eventlog", EventLog_model);
    ("scheduledjobrun", ScheduledJobRun_model);
    ("scheduledjobstate", ScheduledJobState_model);
    ("scheduledjobcounter", ScheduledJobCounter_model);
    ("companydeletion", CompanyDeletion_model) ].

(** ** Properties *)
Definition reaches (app : string) (l : list operation) (target : app_state) : bool :=
  match replay app l ∅ with Some s => orderings_ok s && same_state s target | None => false end.
Lemma reaches_spec app l target : reaches app l target = true → 
  ∃ s, replay app l ∅ = Some s ∧ orderings_ok s = true ∧ same_state s target = true.
Proof.
  unfold reaches. destruct (replay app l ∅) as [s|]; [|done]. rewrite andb_true_iff. by exists s.
Qed.

(** The migrations are complete.  Applied in order to an empty database, the migrations of
    each application never fail and never leave a broken schema on the way (a dropped column
    that an index or a constraint still names, a foreign key to nowhere); and
    they end in the very schema the models declare: there is nothing left to migrate. *)
Theorem migrations_reach_models :
  (∃ s, replay "storage" storage_migrations ∅ = Some s ∧ orderings_ok s = true ∧
     same_state s storage_models = true) ∧
  (∃ s, replay "actions" actions_migrations ∅ = Some s ∧ orderings_ok s = true ∧
     same_state s actions_models = true).
Proof. split; apply reaches_spec; vm_compute; reflexivity. Qed.
