(* ===== verification/GrantMigration.v ===== *)
(** * GrantMigration: the migrations that move rows ([storage/migrations/0004], [0005], [actions/migrations/0003])

    Grants used to name their bucket and their resource by text; [forwards_grant_fks] gives
    them foreign keys instead, and the operations after it make the keys mandatory and drop
    the texts.  [delete_user_buckets] drops a kind of bucket that is gone.  The rows as they
    were are [legacy_grant]; the schema itself is in [Migrations]. *)
From S2P Require Import Prelude PyStr Models PyData Mime Signals Access Quotas Backends Services FileStore StoreSpec UploadsInv Downloads Listing Grants Jobs.

(** ** The rows before the migration *)
(** The columns of 0003, and the two that 0005 adds, which are empty at first.  Texts with
    choices are texts: the database does not check choices. *)
Record legacy_grant := LegacyGrant {
  lg_id : uuid;
  lg_company_id : Z;
  lg_subject_type : string;
  lg_subject_id : string;
  lg_resource_type : string;
  lg_resource_id : string;
  lg_bucket_name : string;
  lg_permission : string;
  lg_effect : string;
  lg_created_by_id : option Z;
  lg_created_at : datetime;
  lg_updated_at : datetime;
  lg_expires_at : option datetime;
  lg_notes : string;
  lg_bucket : option uuid;
  lg_object : option uuid }.
Definition with_target (b o : option uuid) (g : legacy_grant) : legacy_grant :=
  LegacyGrant (lg_id g) (lg_company_id g) (lg_subject_type g) (lg_subject_id g) (lg_resource_type g)
    (lg_resource_id g) (lg_bucket_name g) (lg_permission g) (lg_effect g) (lg_created_by_id g)
    (lg_created_at g) (lg_updated_at g) (lg_expires_at g) (lg_notes g) b o.
(** The database during the migration: its table of grants is [mg_grants]. *)
Record mig := Mig { mg_world : world; mg_grants : gmap uuid legacy_grant }.
Definition mg_db (s : mig) : db := w_db (mg_world s).

(** ** [forwards_grant_fks] *)
Definition _placeholder_name (folder_path : string) : string :=
  let folder := strip_char "/" (strip folder_path) in
  if truthy folder then folder +:+ "/" +:+ FOLDER_PLACEHOLDER_NAME else FOLDER_PLACEHOLDER_NAME.
Definition _storage_key (company_id : Z) (bucket_name object_name : string) (object_id : uuid) : string :=
  let basename := str_or (after_last "/" object_name) "blob" in
  "shellui/" +:+ str_int company_id +:+ "/" +:+ bucket_name +:+ "/" +:+ uuid_str object_id +:+ "/" +:+ basename.

Definition legacy_bucket_name (g : legacy_grant) : string :=
  let name := strip (lg_bucket_name g) in
  let name := if lg_resource_type g == "bucket" then str_or name (strip (lg_resource_id g)) else name in
  str_or name "company".
Definition legacy_path (g : legacy_grant) : string := strip_char "/" (strip (lg_resource_id g)).
(** The file an object grant names: by id, else by path. *)
Definition legacy_object (d : db) (b : bucket) (rid : string) : option sobject :=
  let by_id := uid ← parse_uuid rid; o ← db_objects d !! uid;
               if o_bucket_id o == b_id b then Some o else None in
  match by_id with
  | Some o => Some o
  | None => if truthy rid then find_object d (b_id b) rid else None
  end.
Definition new_marker (b : bucket) (name : string) (w : world) : sobject :=
  let i := w_next_uuid w in
  StorageObject i (b_id b) name (b_company_id b) None 0 "" OCTET_STREAM []
    (_storage_key (b_company_id b) (b_name b) name i) 1 (w_now w) (w_now w) None.
Definition create_marker (o : sobject) (w : world) : world :=
  World (set_objects (insert (o_id o) o) (w_db w)) (w_blobs w) (w_now w) (N.succ (w_next_uuid w)).

Definition drop_grant (g : legacy_grant) (s : mig) : mig := Mig (mg_world s) (delete (lg_id g) (mg_grants s)).
(** [grant.save(update_fields=['bucket', 'object'])] *)
Definition save_grant (g : legacy_grant) (b : bucket) (o : option uuid) (s : mig) : mig :=
  Mig (mg_world s) (<[lg_id g:=with_target (Some (b_id b)) o g]> (mg_grants s)).
Definition forwards_grant (s : mig) (g : legacy_grant) : mig :=
  match find_bucket (mg_db s) (lg_company_id g) (legacy_bucket_name g) with
  | None => drop_grant g s
  | Some b =>
      if lg_resource_type g == "bucket" then save_grant g b None s
      else if lg_resource_type g == "object" then
        match legacy_object (mg_db s) b (legacy_path g) with
        | None => drop_grant g s
        | Some o => save_grant g b (Some (o_id o)) s
        end
      else if lg_resource_type g == "folder" then
        let name := _placeholder_name (legacy_path g) in
        match find_object (mg_db s) (b_id b) name with
        | Some o => save_grant g b (Some (o_id o)) s
        | None => let o := new_marker b name (mg_world s) in
                  save_grant g b (Some (o_id o)) (Mig (create_marker o (mg_world s)) (mg_grants s))
        end
      else drop_grant g s
  end.
Definition forwards_grant_fks (s : mig) : mig := foldl forwards_grant s (rows (mg_grants s)).

(** *** The operations after it *)
(** The bucket becomes mandatory, the texts go, the check constraint comes. *)
Definition object_matches_type (rt : resource_type) (o : option uuid) : bool :=
  match rt with RESOURCE_BUCKET => bool_decide (o = None) | _ => bool_decide (is_Some o) end.
Definition grant_of (g : legacy_grant) : option grant :=
  b ← lg_bucket g;
  st ← member_of subject_value all_subjects (lg_subject_type g);
  rt ← member_of resource_value all_resources (lg_resource_type g);
  perm ← member_of permission_value all_permissions (lg_permission g);
  eff ← member_of effect_value all_effects (lg_effect g);
  if object_matches_type rt (lg_object g) then
    Some (Grant (lg_id g) (lg_company_id g) b (lg_object g) st (lg_subject_id g) rt perm eff
            (lg_created_by_id g) (lg_created_at g) (lg_updated_at g) (lg_expires_at g) (lg_notes g))
  else None.
(** [None]: a row violates the new schema and the migration fails. *)
Definition migrate_grants (s : mig) : option world :=
  let s' := forwards_grant_fks s in
  if forallb (λ g, bool_decide (is_Some (grant_of g))) (rows (mg_grants s'))
  then Some (set_db (set_grants (λ _, omap grant_of (mg_grants s'))) (mg_world s')) else None.

(** ** [delete_user_buckets] *)
(** [kind] is the column before the migration, which may hold the value [user]; the deletion
    cascades to the files and to their links, grants have no foreign key yet. *)
Definition delete_user_buckets (kind : bucket → string) (d : db) : db :=
  let gone o := from_option (λ b, kind b == "user") false (obj_bucket d o) in
  set_links (row_delete (λ l, from_option gone false (db_objects d !! l_object_id l)))
    (set_objects (row_delete gone) (set_buckets (row_delete (λ b, kind b == "user")) d)).

(** ** [create_job_states] *)
Definition create_job_states : prog unit := for_each ["retry_webhooks"; "purge_expired_data"] ensure_state.

(** ** What the migration promises *)
(** The rows of files are as they were, but for new empty folder markers. *)
Record extends (d d' : db) : Prop := Extends {
  ex_buckets : db_buckets d' = db_buckets d;
  ex_links : db_links d' = db_links d;
  ex_company : db_company_quotas d' = db_company_quotas d;
  ex_user : db_user_quotas d' = db_user_quotas d;
  ex_actions : db_actions d' = db_actions d;
  ex_kept i o : db_objects d !! i = Some o → db_objects d' !! i = Some o;
  ex_new i o : db_objects d' !! i = Some o → db_objects d !! i = Some o ∨
    o_size o = 0 ∧ o_owner_id o = None ∧ ∃ path, o_name o = _placeholder_name path;
  ex_bytes cid : stored_bytes d' cid = stored_bytes d cid }.
(** The keys a grant gets point at what its texts named. *)
Definition target (d : db) (b : bucket) (g : legacy_grant) (oid : option uuid) : Prop :=
  (lg_resource_type g = "bucket" ∧ oid = None) ∨
  (∃ i o, oid = Some i ∧ db_objects d !! i = Some o ∧ o_bucket_id o = b_id b ∧
     (lg_resource_type g = "folder" ∧ o_name o = _placeholder_name (legacy_path g) ∨
      lg_resource_type g = "object" ∧ (o_name o = legacy_path g ∨ parse_uuid (legacy_path g) = Some i))).
(** There is nothing the texts of a grant name. *)
Definition lost (d : db) (g : legacy_grant) : Prop :=
  ∀ b, find_bucket d (lg_company_id g) (legacy_bucket_name g) = Some b →
    lg_resource_type g ≠ "bucket" ∧ lg_resource_type g ≠ "folder" ∧
    (lg_resource_type g = "object" → legacy_object d b (legacy_path g) = None).
(** What becomes of a grant: [r] is its row afterwards, [d] a state on the way. *)
Definition outcome (d d' : db) (g : legacy_grant) (r : option legacy_grant) : Prop :=
  match r with
  | None => lost d g
  | Some g' => ∃ b oid, find_bucket d (lg_company_id g) (legacy_bucket_name g) = Some b ∧
      g' = with_target (Some (b_id b)) oid g ∧ target d' b g oid
  end.
Record sound (w : world) : Prop := Sound {
  sd_rows : rows_inv w;
  sd_bucket i b : db_buckets (w_db w) !! i = Some b → b_id b = i }.
Definition choices_ok (g : legacy_grant) : Prop :=
  is_Some (member_of subject_value all_subjects (lg_subject_type g)) ∧
  is_Some (member_of permission_value all_permissions (lg_permission g)) ∧
  is_Some (member_of effect_value all_effects (lg_effect g)).

(** ** Lemmas *)
#[export] Instance extends_refl : Reflexive extends.
Proof. intros d. split; auto. Qed.
#[export] Instance extends_trans : Transitive extends.
Proof.
  intros d1 d2 d3 [] []. split; try congruence; naive_solver.
Qed.
Lemma placeholder_name_eq path : _placeholder_name path = folder_placeholder_path path.
Proof. unfold _placeholder_name, folder_placeholder_path. by destruct (truthy _). Qed.

Lemma find_bucket_extends d d' cid n : extends d d' → find_bucket d' cid n = find_bucket d cid n.
Proof. intros Hx. unfold find_bucket. by rewrite (ex_buckets _ _ Hx). Qed.
Lemma target_extends d d' b g oid : extends d d' → target d b g oid → target d' b g oid.
Proof.
  intros Hx [?|(i & o & -> & Hi & ?)]; [by left|]. right. exists i, o.
  split; [done|]. split; [by apply (ex_kept _ _ Hx)|done].
Qed.
Lemma find_object_extends d d' bid n o :
  extends d d' → find_object d bid n = Some o → is_Some (find_object d' bid n).
Proof.
  intros Hx (Hb & Hn & i & Hi)%find_object_Some. apply not_eq_None_Some. intros Hf.
  pose proof (row_find_None _ _ Hf i o (ex_kept _ _ Hx i o Hi)) as Hno. simpl in Hno.
  by rewrite Hb, Hn, !bool_decide_true in Hno.
Qed.
Lemma legacy_object_extends d d' b rid o :
  extends d d' → legacy_object d b rid = Some o → is_Some (legacy_object d' b rid).
Proof.
  intros Hx. unfold legacy_object.
  destruct (parse_uuid rid) as [uid|] eqn:Hu; simpl.
  - destruct (db_objects d !! uid) as [o1|] eqn:Ho; simpl.
    + rewrite (ex_kept _ _ Hx _ _ Ho). simpl. destruct (o_bucket_id o1 == b_id b); [by intros; eexists|].
      destruct (truthy rid); [|done]. apply (find_object_extends _ _ _ _ _ Hx).
    + destruct (truthy rid); [|done]. intros Hf. destruct (find_object_extends _ _ _ _ _ Hx Hf) as [o2 ->].
      by case_match; eexists.
  - destruct (truthy rid); [|done]. apply (find_object_extends _ _ _ _ _ Hx).
Qed.
Lemma lost_extends d d' g : extends d d' → lost d' g → lost d g.
Proof.
  intros Hx Hl b Hb. rewrite <- (find_bucket_extends _ _ _ _ Hx) in Hb. destruct (Hl b Hb) as (? & ? & Ho).
  split_and!; try done. intros Hrt. destruct (legacy_object d b _) as [o|] eqn:Hlo; [|done].
  destruct (legacy_object_extends _ _ _ _ _ Hx Hlo) as [o' Ho']. rewrite (Ho Hrt) in Ho'. done.
Qed.
Lemma legacy_object_spec d b rid o :
  (∀ i o, db_objects d !! i = Some o → o_id o = i) → legacy_object d b rid = Some o →
  db_objects d !! o_id o = Some o ∧ o_bucket_id o = b_id b ∧ (o_name o = rid ∨ parse_uuid rid = Some (o_id o)).
Proof.
  intros Hid. unfold legacy_object.
  assert (Hname : (if truthy rid then find_object d (b_id b) rid else None) = Some o →
            db_objects d !! o_id o = Some o ∧ o_bucket_id o = b_id b ∧ (o_name o = rid ∨ parse_uuid rid = Some (o_id o))).
  { destruct (truthy rid); [|done]. intros (Hb & Hn & i & Hi)%find_object_Some.
    rewrite (Hid i o Hi). auto. }
  destruct (parse_uuid rid) as [uid|] eqn:Hu; simpl; [|done].
  destruct (db_objects d !! uid) as [o1|] eqn:Ho; simpl; [|done].
  case_bool_decide as Hb; [|done]. intros [= ->]. rewrite (Hid uid o Ho). auto.
Qed.

Lemma find_bucket_spec w cid n b :
  sound w → find_bucket (w_db w) cid n = Some b →
  db_buckets (w_db w) !! b_id b = Some b ∧ b_company_id b = cid ∧ b_name b = n.
Proof.
  intros Hs [Hp [i Hi]]%row_find_Some. rewrite (sd_bucket _ Hs i b Hi).
  apply andb_true_iff in Hp as [?%bool_decide_eq_true ?%bool_decide_eq_true]. done.
Qed.

(** A marker is a row like any other, but that no blob goes with it. *)
Lemma create_marker_sound b path w :
  sound w → db_buckets (w_db w) !! b_id b = Some b →
  find_object (w_db w) (b_id b) (_placeholder_name path) = None →
  let o := new_marker b (_placeholder_name path) w in
  let w' := create_marker o w in
  sound w' ∧ extends (w_db w) (w_db w') ∧ db_objects (w_db w') !! o_id o = Some o.
Proof.
  intros [Hr Hbid] Hb Hnone o w'.
  assert (Hfresh : db_objects (w_db w) !! w_next_uuid w = None).
  { destruct (db_objects (w_db w) !! w_next_uuid w) as [o1|] eqn:Ho; [|done].
    pose proof (ri_fresh _ Hr _ _ Ho). lia. }
  assert (Hold : ∀ i o1, db_objects (w_db w) !! i = Some o1 → i ≠ w_next_uuid w) by (intros i o1 Hi ->; congruence).
  assert (Hname : ∀ i o1, db_objects (w_db w) !! i = Some o1 → o_bucket_id o1 = b_id b → o_name o1 ≠ o_name o).
  { intros i o1 Hi Hb1 Hn1. pose proof (row_find_None _ _ Hnone i o1 Hi) as Hno. simpl in Hno.
    by rewrite Hb1, Hn1, !bool_decide_true in Hno. }
  split_and!.
  - split; [split|]; simpl.
    + intros i o1 [[<- <-]|[_ Hi]]%lookup_insert_Some; [done|by apply (ri_id _ Hr)].
    + intros i o1 [[<- <-]|[_ Hi]]%lookup_insert_Some; [lia|]. pose proof (ri_fresh _ Hr _ _ Hi). lia.
    + intros i j o1 o2 [[<- <-]|[_ Hi]]%lookup_insert_Some [[<- <-]|[_ Hj]]%lookup_insert_Some Hb1 Hn1; [done| | |].
      * by destruct (Hname j o2 Hj).
      * by destruct (Hname i o1 Hi).
      * by apply (ri_unique _ Hr i j o1 o2).
    + intros i o1 [[<- <-]|[_ Hi]]%lookup_insert_Some; [by exists b|by apply (ri_company _ Hr i)].
    + intros i o1 [[<- <-]|[_ Hi]]%lookup_insert_Some; [done|by apply (ri_size _ Hr i)].
    + done.
  - split; try done; simpl.
    + intros i o1 Hi. rewrite lookup_insert_ne; [done|]. simpl. intros He. by apply (Hold i o1).
    + intros i o1 [[<- <-]|[_ Hi]]%lookup_insert_Some; [right|by left]. split_and!; try done. by exists path.
    + intros cid. unfold stored_bytes. simpl. rewrite row_sum_insert by done. simpl. by case_bool_decide.
  - simpl. apply lookup_insert_eq.
Qed.

(** One grant: its row is the only row of grants that changes. *)
Definition put (g : legacy_grant) (r : option legacy_grant) (m : gmap uuid legacy_grant) : gmap uuid legacy_grant :=
  match r with Some g' => <[lg_id g:=g']> m | None => delete (lg_id g) m end.
Lemma forwards_grant_spec s g :
  sound (mg_world s) → let s' := forwards_grant s g in
  sound (mg_world s') ∧ extends (mg_db s) (mg_db s') ∧
  ∃ r, mg_grants s' = put g r (mg_grants s) ∧ outcome (mg_db s) (mg_db s') g r.
Proof.
  intros Hs s'. unfold s', forwards_grant, mg_db in *.
  destruct (find_bucket _ _ _) as [b|] eqn:Hb.
  2: { split_and!; [done|done|]. exists None. split; [done|]. intros b. by rewrite Hb. }
  destruct (find_bucket_spec _ _ _ _ Hs Hb) as (Hbi & Hbc & Hbn).
  assert (Hid : ∀ i o, db_objects (w_db (mg_world s)) !! i = Some o → o_id o = i) by apply (ri_id _ (sd_rows _ Hs)).
  case_bool_decide as Hr1; [|case_bool_decide as Hr2; [|case_bool_decide as Hr3]].
  - split_and!; [done|done|]. exists (Some (with_target (Some (b_id b)) None g)). split; [done|].
    exists b, None. split_and!; [done|done|by left].
  - destruct (legacy_object _ _ _) as [o|] eqn:Ho.
    + destruct (legacy_object_spec _ _ _ _ Hid Ho) as (Ho1 & Ho2 & Ho3).
      split_and!; [done|done|]. eexists (Some _). split; [done|]. exists b, (Some (o_id o)).
      split_and!; [done|done|]. right. exists (o_id o), o. simpl. tauto.
    + split_and!; [done|done|]. exists None. split; [done|]. intros b' Hb'. simplify_eq.
      split_and!; congruence.
  - destruct (find_object _ _ _) as [o|] eqn:Ho.
    + apply find_object_Some in Ho as (Ho1 & Ho2 & i & Hi). pose proof (Hid i o Hi) as Hoi. subst i.
      split_and!; [done|done|]. eexists (Some _). split; [done|]. exists b, (Some (o_id o)).
      split_and!; [done|done|]. right. exists (o_id o), o. simpl. tauto.
    + destruct (create_marker_sound b _ _ Hs Hbi Ho) as (Hs' & Hx & Hlook).
      split_and!; [done|done|]. eexists (Some _). split; [done|].
      eexists b, (Some _). split_and!; [done|done|]. right. eexists _, _. split; [done|]. split; [exact Hlook|].
      simpl. split; [done|]. by left.
  - split_and!; [done|done|]. exists None. split; [done|]. intros b' Hb'. simplify_eq. split_and!; congruence.
Qed.

(** The loop. *)
Lemma forwards_all_spec l s :
  sound (mg_world s) → NoDup (lg_id <$> l) → let s' := foldl forwards_grant s l in
  sound (mg_world s') ∧ extends (mg_db s) (mg_db s') ∧
  (∀ i, i ∉ lg_id <$> l → mg_grants s' !! i = mg_grants s !! i) ∧
  (∀ g, g ∈ l → outcome (mg_db s) (mg_db s') g (mg_grants s' !! lg_id g)).
Proof.
  revert s. induction l as [|g l IH]; intros s Hs Hnd; [split_and!; by try intros ? ?%not_elem_of_nil|].
  apply NoDup_cons in Hnd as [Hg Hnd].
  destruct (forwards_grant_spec s g Hs) as (Hs1 & Hx1 & r & Hput & Hout).
  destruct (IH (forwards_grant s g) Hs1 Hnd) as (Hs2 & Hx2 & Hrest & Hall). simpl.
  split_and!; [done|by etrans| |].
  - intros i Hi. apply not_elem_of_cons in Hi as [Hi1 Hi2].
    rewrite (Hrest i Hi2), Hput. destruct r; simpl; [by rewrite lookup_insert_ne|by rewrite lookup_delete_ne].
  - intros g' [->|Hg']%elem_of_cons.
    + rewrite (Hrest (lg_id g) Hg), Hput. destruct r as [g1|]; simpl;
        [rewrite lookup_insert_eq|by rewrite lookup_delete_eq].
      destruct Hout as (b & oid & Hb & -> & Ht). exists b, oid. split_and!; [done|done|].
      by apply (target_extends _ _ _ _ _ Hx2).
    + specialize (Hall g' Hg'). destruct (mg_grants _ !! _) as [g1|]; simpl in *.
      * by setoid_rewrite <- (find_bucket_extends _ _ _ _ Hx1).
      * by apply (lost_extends _ _ _ Hx1).
Qed.

(** ** Properties *)
Lemma member_of_value {A} (value : A → string) members v x :
  member_of value members v = Some x → value x = v.
Proof. unfold member_of. intros [_ Hx]%List.find_some. by apply bool_decide_eq_true in Hx. Qed.

(** A grant with its keys obeys the new schema, and keeps its other columns. *)
Record carried (d : db) (g : legacy_grant) (g' : grant) : Prop := Carried {
  ca_id : g_id g' = lg_id g;
  ca_company : g_company_id g' = lg_company_id g;
  ca_subject : subject_value (g_subject_type g') = lg_subject_type g ∧ g_subject_id g' = lg_subject_id g;
  ca_type : resource_value (g_resource_type g') = lg_resource_type g;
  ca_rights : permission_value (g_permission g') = lg_permission g ∧ effect_value (g_effect g') = lg_effect g;
  ca_rest : (g_created_by_id g', g_created_at g', g_updated_at g', g_expires_at g', g_notes g') =
            (lg_created_by_id g, lg_created_at g, lg_updated_at g, lg_expires_at g, lg_notes g);
  ca_bucket : ∃ b, db_buckets d !! g_bucket_id g' = Some b ∧ b_company_id b = lg_company_id g ∧
    b_name b = legacy_bucket_name g ∧ target d b g (g_object_id g');
  ca_check : object_matches_type (g_resource_type g') (g_object_id g') = true }.
#[local] Arguments member_of : simpl never.
Lemma grant_of_carried d b oid g :
  choices_ok g → db_buckets d !! b_id b = Some b → b_company_id b = lg_company_id g →
  b_name b = legacy_bucket_name g → target d b g oid →
  ∃ g', grant_of (with_target (Some (b_id b)) oid g) = Some g' ∧ carried d g g'.
Proof.
  intros ([st Hst] & [perm Hperm] & [eff Heff]) Hb Hc Hn Ht.
  assert (∃ rt, member_of resource_value all_resources (lg_resource_type g) = Some rt ∧
            object_matches_type rt oid = true) as (rt & Hrt & Hm).
  { destruct Ht as [[-> ->]|(i & o & -> & _ & _ & [[-> _]|[-> _]])];
      [by exists RESOURCE_BUCKET|by exists RESOURCE_FOLDER|by exists RESOURCE_OBJECT]. }
  unfold grant_of. simpl. rewrite Hst, Hrt, Hperm, Heff. simpl. rewrite Hm. eexists. split; [done|].
  split; simpl; try done.
  - split; [by apply (member_of_value _ all_subjects)|done].
  - by apply (member_of_value _ all_resources).
  - split; [by apply (member_of_value _ all_permissions)|by apply (member_of_value _ all_effects)].
  - by exists b.
Qed.

(** C13: The migration of grants to foreign keys cannot fail, and grants nobody anything new.
    From any consistent database: every grant that is left has its bucket, of its company and
    with the name it had, and the very file or folder marker its texts named, obeys the new
    check constraint, and keeps its subject, permission, effect and expiry; a grant is dropped
    only when there is nothing it names; files, quotas and links are as before, but for empty
    folder markers, and the tables are consistent again. *)
Theorem grants_migrated : ∀ s,
  sound (mg_world s) → (∀ i g, mg_grants s !! i = Some g → lg_id g = i ∧ choices_ok g) →
  ∃ w', migrate_grants s = Some w' ∧ sound w' ∧ extends (mg_db s) (w_db w') ∧
    (∀ i g', db_grants (w_db w') !! i = Some g' → ∃ g, mg_grants s !! i = Some g ∧ carried (w_db w') g g') ∧
    (∀ i g, mg_grants s !! i = Some g → db_grants (w_db w') !! i = None → lost (mg_db s) g).
Proof.
  intros s Hs Hg. unfold migrate_grants, forwards_grant_fks. set (l := rows (mg_grants s)).
  assert (Hids : lg_id <$> l = (map_to_list (mg_grants s)).*1).
  { unfold l, rows. rewrite <- list_fmap_compose. apply list_fmap_ext. intros k [i g] Hk.
    apply list_elem_of_lookup_2, elem_of_map_to_list, Hg in Hk as [<- _]. done. }
  assert (Hnd : NoDup (lg_id <$> l)) by (rewrite Hids; apply NoDup_fst_map_to_list).
  destruct (forwards_all_spec l s Hs Hnd) as (Hs' & Hx & Hrest & Hall).
  set (s' := foldl forwards_grant s l) in *.
  assert (Hnone : ∀ i, mg_grants s !! i = None → mg_grants s' !! i = None).
  { intros i Hi. rewrite <- Hi. apply Hrest. rewrite Hids. intros Hin.
    apply list_elem_of_fmap in Hin as ([j g] & -> & Hj%elem_of_map_to_list). simpl in Hi. congruence. }
  assert (Hsome : ∀ i g1, mg_grants s' !! i = Some g1 →
            ∃ g g', mg_grants s !! i = Some g ∧ grant_of g1 = Some g' ∧ carried (mg_db s') g g').
  { intros i g1 Hi. destruct (mg_grants s !! i) as [g|] eqn:Hgi; [|by rewrite (Hnone i Hgi) in Hi].
    destruct (Hg i g Hgi) as [Hid Hch].
    assert (Hin : g ∈ l) by (apply elem_of_rows; by exists i). specialize (Hall g Hin). rewrite Hid, Hi in Hall.
    destruct Hall as (b & oid & Hb & -> & Ht). destruct (find_bucket_spec _ _ _ _ Hs Hb) as (Hbi & Hbc & Hbn).
    destruct (grant_of_carried (mg_db s') b oid g) as (g' & Hg' & Hca); try done; [by rewrite (ex_buckets _ _ Hx)|].
    by exists g, g'. }
  rewrite (proj2 (forallb_forall _ _)).
  2: { intros g1 Hin%list_elem_of_In%elem_of_rows. destruct Hin as [i Hi].
       destruct (Hsome i g1 Hi) as (g & g' & _ & -> & _). by apply bool_decide_eq_true. }
  eexists. split; [done|]. split_and!.
  - destruct Hs' as [[] ?]. by split.
  - destruct Hx. by split.
  - intros i g'. simpl. rewrite lookup_omap. destruct (mg_grants s' !! i) as [g1|] eqn:Hi; [|done].
    destruct (Hsome i g1 Hi) as (g & g2 & Hgi & Hg2 & Hca). simpl. rewrite Hg2. intros [= <-]. exists g. split; [done|].
    destruct Hca. by split.
  - intros i g Hi. simpl. rewrite lookup_omap. destruct (mg_grants s' !! i) as [g1|] eqn:Hi'.
    + destruct (Hsome i g1 Hi') as (g0 & g2 & _ & Hg2 & _). simpl. by rewrite Hg2.
    + intros _. destruct (Hg i g Hi) as [Hid _].
      assert (Hin : g ∈ l) by (apply elem_of_rows; by exists i). specialize (Hall g Hin). by rewrite Hid, Hi' in Hall.
Qed.

(** The migration of job states makes the rows the jobs need, no more and no fewer. *)
Lemma create_job_states_complete : create_job_states = ensure_states.
Proof. reflexivity. Qed.

(** Dropping a kind of bucket leaves the other buckets and their files. *)
Lemma delete_user_buckets_spec kind w : sound w →
  let w' := set_db (delete_user_buckets kind) w in
  sound w' ∧
  (∀ i b, db_buckets (w_db w') !! i = Some b ↔ db_buckets (w_db w) !! i = Some b ∧ kind b ≠ "user") ∧
  (∀ i o, db_objects (w_db w') !! i = Some o ↔
     db_objects (w_db w) !! i = Some o ∧ ∃ b, obj_bucket (w_db w) o = Some b ∧ kind b ≠ "user").
Proof.
  intros [Hr Hbid] w'.
  assert (Hb : ∀ i b, db_buckets (w_db w') !! i = Some b ↔ db_buckets (w_db w) !! i = Some b ∧ kind b ≠ "user").
  { intros i b. simpl. rewrite lookup_row_delete. destruct (db_buckets (w_db w) !! i) as [b'|]; simpl; [|naive_solver].
    case_bool_decide; naive_solver. }
  assert (Ho : ∀ i o, db_objects (w_db w') !! i = Some o ↔
     db_objects (w_db w) !! i = Some o ∧ ∃ b, obj_bucket (w_db w) o = Some b ∧ kind b ≠ "user").
  { intros i o. simpl. rewrite lookup_row_delete. destruct (db_objects (w_db w) !! i) as [o'|] eqn:Hi; simpl; [|naive_solver].
    destruct (ri_company _ Hr i o' Hi) as (b & Hob & _). unfold obj_bucket. rewrite Hob. simpl.
    case_bool_decide as Hk; naive_solver. }
  split_and!; [|done|done]. split; [split|].
  - intros i o [Hi _]%Ho. by apply (ri_id _ Hr).
  - intros i o [Hi _]%Ho. by apply (ri_fresh _ Hr) in Hi.
  - intros i j o o' [Hi _]%Ho [Hj _]%Ho. by apply (ri_unique _ Hr).
  - intros i o [Hi (b & Hob & Hk)]%Ho. destruct (ri_company _ Hr i o Hi) as (b' & Hb' & Hc). exists b'.
    split; [|done]. apply Hb. split; [done|]. unfold obj_bucket in Hob. congruence.
  - intros i o [Hi _]%Ho. by apply (ri_size _ Hr) in Hi.
  - intros i b [Hi _]%Hb. by apply Hbid.
Qed.

(** ** A concrete company *)
Import StoreSpec.Demo.
Module MigrationDemo.
Definition row (i : uuid) (subject_type subject_id resource_type resource_id bucket permission effect : string) :
    uuid * legacy_grant :=
  (i, LegacyGrant i 7 subject_type subject_id resource_type resource_id bucket permission effect (Some 5) 0 0 None ""
        None None).
(** Two grants on one folder that has no marker yet, one on the file by its path, one on a
    file that is not there, one in a bucket that is not there. *)
Definition demo_rows : gmap uuid legacy_grant := list_to_map
  [ row 100 "user" "6" "folder" "/docs/" "" "read" "allow";
    row 101 "user" "8" "folder" "docs" "company" "write" "allow";
    row 102 "company" "7" "object" "docs/a.txt" "company" "read" "deny";
    row 103 "user" "6" "object" "docs/b.txt" "company" "read" "deny";
    row 104 "user" "6" "folder" "docs" "personal" "read" "allow" ].
Definition demo_mig : mig := Mig demo_world1 demo_rows.
Definition migrated : world := default demo_world1 (migrate_grants demo_mig).
Definition summary (w : world) : list (uuid * string) :=
  (λ x : uuid * grant, (x.1, resource_path (w_db w) x.2)) <$> map_to_list (db_grants (w_db w)).
Lemma demo_sound : sound demo_world1.
Proof. destruct demo_inv1 as [Hi _]. split; [by apply storage_rows|]. apply (inv_bucket_id _ Hi). Qed.
Lemma demo_rows_ok i g : demo_rows !! i = Some g → lg_id g = i ∧ choices_ok g.
Proof.
  intros Hi. apply elem_of_list_to_map_2 in Hi. unfold row in Hi.
  repeat (apply elem_of_cons in Hi as [[= -> ->]|Hi]; [by split; [|split_and!; eexists]|]).
  by apply not_elem_of_nil in Hi.
Qed.
End MigrationDemo.
Import MigrationDemo.

(** Three of the grants go on; the folder's share one new marker. *)
Example demo_migrated :
  bool_decide (dom (D := gset uuid) (db_grants (w_db migrated)) = {[ 100%N; 101%N; 102%N ]}) = true ∧
  forallb (λ x : uuid * string, x.2 in_ ["docs"; "docs/a.txt"]) (summary migrated) = true ∧
  bool_decide (g_object_id <$> db_grants (w_db migrated) !! 100%N = g_object_id <$> db_grants (w_db migrated) !! 101%N) = true.
Proof. vm_compute. auto. Qed.
Lemma grants_migrated_witness :
  ∃ w', migrate_grants demo_mig = Some w' ∧ sound w' ∧
    ∀ i g', db_grants (w_db w') !! i = Some g' → ∃ g, demo_rows !! i = Some g ∧ carried (w_db w') g g'.
Proof.
  destruct (grants_migrated demo_mig demo_sound demo_rows_ok) as (w' & Hm & Hs & _ & Hg & _).
  exists w'. split; [exact Hm|]. split; [exact Hs|]. exact Hg.
Defined.

(** The markers the migration makes have rows and no blobs, under a prefix that is not the
    configured one: the storage cannot open them. *)
Example marker_without_blob :
  match find_object (w_db migrated) 1 "docs/.emptyFolderPlaceholder" with
  | Some o => startswith "shellui/7/company/" (o_storage_key o) = true ∧ w_blobs migrated !! o_storage_key o = None ∧
              (default_storage_open (o_storage_key o) migrated).1 = inl (BackendError "404")
  | None => False
  end.
Proof. vm_compute. auto. Qed.
(** Dropping a personal bucket gives no bytes back, and leaves its blobs behind. *)
Example user_bucket_quota_drifts :
  let w := set_db (delete_user_buckets (λ _, "user")) demo_world1 in
  bool_decide (db_objects (w_db w) = ∅) = true ∧ stored_bytes (w_db w) 7 = 0 ∧ company_used (w_db w) 7 = 3 ∧
  bool_decide (w_blobs w = ∅) = false.
Proof. vm_compute. auto. Qed.
