(* ===== verification/Deletion.v ===== *)
(** * Deletion: deleted companies ([apps/actions/company_deletion.py] and
    [apps/storage/company_deletion.py])

    The identity service asks for the deletion of a company; a request only sets a flag.
    A periodic run removes the files of flagged companies from the backend and then every
    row that carries their id.  A deletion of rows takes along what refers to them (all
    foreign keys cascade, so no deletion is refused and one pass over the models is
    enough). *)
From S2P Require Import Prelude PyStr Models PyData Quotas Backends Services Events.

Definition DELETION_SCOPE : string := "company.delete".
Definition MAX_LIFETIME : Z := 120.
(** [timedelta(hours=1)] *)
Definition SWEEP_WINDOW : Z := 3600 * 1000000.

(** ** The assertion of the identity service

    The library decodes the token and checks signature, audience, issuer and the presence
    of the claims: [claims] is what it returns, [None] when it refuses (with the keys of
    the issuer, or with the shared secret where that fallback is allowed). *)
Inductive assertion_error := REJECTED | BAD_SCOPE | TOO_LONG | BAD_COMPANY | ClaimRaises (e : exn).
Definition verify_deletion_assertion (claims : option (list (string * json))) : assertion_error + Z :=
  match claims with
  | None => inl REJECTED
  | Some c =>
      if match opt_json (dict_get "scope" c) with JStr s => s != DELETION_SCOPE | _ => true end then inl BAD_SCOPE
      else
        match py_int (opt_json (dict_get "exp" c)), py_int (opt_json (dict_get "iat" c)) with
        | inl e, _ => inl (ClaimRaises e)
        | _, inl e => inl (ClaimRaises e)
        | inr exp, inr iat =>
            if MAX_LIFETIME <? exp - iat then inl TOO_LONG
            else match dict_get "company_id" c with
                 | Some (JInt id) => if id <=? 0 then inl BAD_COMPANY else inr id
                 | _ => inl BAD_COMPANY
                 end
        end
  end.

(** The token is decoded with the keys of the issuer ([inl]: that raised; [inr None]: no key);
    after an exception the shared secret is tried, where settings allow it. *)
Definition decode_assertion (rs256 : string → exn + option (list (string * json)))
  (hs256 : string → option (list (string * json))) (has_secret debug allow_fallback : bool) (raw : string) :
  option (list (string * json)) :=
  match rs256 raw with
  | inr claims => claims
  | inl _ => if has_secret && (debug || allow_fallback) then hs256 raw else None
  end.

(** ** The flag *)
Definition flag_company_deletion (company_id : Z) : prog unit :=
  t <- now ;;
  modify_actions (set_deletions (partial_alter (λ row,
    Some (match row with
          | None => CompanyDeletion t None
          | Some r => CompanyDeletion (cd_requested_at r) None
          end)) company_id)).
(** [CompanyDeletionView.post]: the status and, on success, the company.  [auth] is the
    Authorization header. *)
Definition CompanyDeletionView_post (decode : string → option (list (string * json))) (auth : string) :
  prog (Z * option Z) :=
  if negb (startswith "bearer " (lower auth)) then ret (401, None)
  else
    match verify_deletion_assertion (decode (strip (str_drop 7 auth))) with
    | inl (ClaimRaises e) => raise e
    | inl _ => ret (401, None)
    | inr company_id => flag_company_deletion company_id ;;; ret (202, Some company_id)
    end.

(** ** Deleting rows *)
(** [StorageObject.objects.filter(P).delete()]: grants and links of the objects go too. *)
Definition delete_objects_where (P : sobject → bool) (d : db) : db :=
  let gone i := from_option P false (db_objects d !! i) in
  set_links (row_delete (λ l, gone (l_object_id l)))
    (set_grants (row_delete (λ g, from_option gone false (g_object_id g)))
      (set_objects (row_delete P) d)).
Definition delete_buckets_where (P : bucket → bool) (d : db) : db :=
  let gone i := from_option P false (db_buckets d !! i) in
  set_grants (row_delete (λ g, gone (g_bucket_id g)))
    (set_buckets (row_delete P) (delete_objects_where (λ o, gone (o_bucket_id o)) d)).
Definition delete_outbox_where (P : action_outbox → bool) (a : actions_db) : actions_db :=
  let gone i := from_option P false (a_outbox a !! i) in
  set_attempts (filter (λ t, gone (t_outbox_id t) = false)) (set_outbox (row_delete P) a).
Definition delete_rules_where (P : action_rule → bool) (a : actions_db) : actions_db :=
  let gone i := from_option P false (a_rules a !! i) in
  set_rules (row_delete P) (delete_outbox_where (λ x, from_option gone false (x_action_rule_id x)) a).

(** The models with a column [company_id], in the order Django lists them. *)
Inductive scoped_model :=
| ModelBucket | ModelStorageObject | ModelCompanyQuota | ModelUserQuota | ModelStorageAccessGrant
| ModelObjectShareLink | ModelActionRule | ModelActionOutbox | ModelEventLog.
Definition company_scoped_models : list scoped_model :=
  [ModelBucket; ModelStorageObject; ModelCompanyQuota; ModelUserQuota; ModelStorageAccessGrant;
   ModelObjectShareLink; ModelActionRule; ModelActionOutbox; ModelEventLog].
(** [model._base_manager.filter(company_id=company_id).delete()] *)
Definition delete_model_rows (c : Z) (m : scoped_model) : db → db :=
  match m with
  | ModelBucket => delete_buckets_where (λ b, b_company_id b == c)
  | ModelStorageObject => delete_objects_where (λ o, o_company_id o == c)
  | ModelCompanyQuota => set_company_quotas (delete c)
  | ModelUserQuota => set_user_quotas (filter (λ kr, kr.1.1 ≠ c))
  | ModelStorageAccessGrant => set_grants (row_delete (λ g, g_company_id g == c))
  | ModelObjectShareLink => set_links (row_delete (λ l, l_company_id l == c))
  | ModelActionRule => set_actions (delete_rules_where (λ r, r_company_id r == c))
  | ModelActionOutbox => set_actions (delete_outbox_where (λ x, x_company_id x == c))
  | ModelEventLog => set_actions (set_events (filter (λ e, e_company_id e ≠ Some c)))
  end.
Definition delete_company_rows (c : Z) : prog unit :=
  for_each company_scoped_models (λ m, atomic (modify_db (delete_model_rows c m))).

(** ** Deleting files *)
Definition BATCH : nat := 500.
Section files.
Context `{Settings, Backend}.

Definition objects_of (c : Z) (d : db) : list sobject :=
rows (filter (λ io, o_company_id io.2 = c) (db_objects d)).
(** The loop of [delete_company_files].  Each pass deletes a row at least, so one pass more than
  the company has objects is enough (see [wp_delete_company_files]). *)
Fixpoint delete_file_batches (fuel : nat) (c : Z) (deleted : Z) : prog Z :=
match fuel with
| O => ret deleted
| S fuel' =>
    d <- get_db ;;
    match take BATCH (objects_of c d) with
    | [] => ret deleted
    | batch =>
        for_each batch (λ o, delete_storage_key (o_storage_key o)) ;;;
        modify_db (delete_objects_where (λ o, o_id o in_ (o_id <$> batch))) ;;;
        delete_file_batches fuel' c (deleted + Z.of_nat (length batch))
    end
end.
Definition delete_company_files (c : Z) : prog Z :=
d <- get_db ;; delete_file_batches (S (length (objects_of c d))) c 0.
Definition purge_company (c : Z) : prog unit :=
delete_company_files c ;;; delete_company_rows c.

(** ** The periodic run *)
Record deletion_stats := DeletionStats { ds_purged : Z; ds_failed : Z; ds_released : Z }.
Definition by_request (x y : Z * company_deletion) : bool := cd_requested_at x.2 <=? cd_requested_at y.2.
(** One row of the loop; the flags were read before it. *)
Definition purge_flagged (t : datetime) (flag : Z * company_deletion) (s : deletion_stats) : prog deletion_stats :=
let '(c, row) := flag in
if from_option (λ done, done <? t - SWEEP_WINDOW) false (cd_completed_at row) then
  modify_actions (set_deletions (delete c)) ;;;
  ret (DeletionStats (ds_purged s) (ds_failed s) (ds_released s + 1))
else
  ok <- try_except (purge_company c ;;; ret true) (λ _, Some (ret false)) ;;
  if negb ok then ret (DeletionStats (ds_purged s) (ds_failed s + 1) (ds_released s))
  else if bool_decide (cd_completed_at row = None) then
    modify_actions (set_deletions (alter (λ r, CompanyDeletion (cd_requested_at r) (Some t)) c)) ;;;
    ret (DeletionStats (ds_purged s + 1) (ds_failed s) (ds_released s))
  else ret s.
Fixpoint purge_each (t : datetime) (flags : list (Z * company_deletion)) (s : deletion_stats) : prog deletion_stats :=
match flags with
| [] => ret s
| flag :: flags' => s' <- purge_flagged t flag s ;; purge_each t flags' s'
end.
(** [ticks]: how many rows the clock allows before the deadline. *)
Definition purge_deleted_companies (ticks : nat) : prog deletion_stats :=
t <- now ;; a <- get_actions ;;
purge_each t (take ticks (sort_by by_request (map_to_list (a_deletions a)))) (DeletionStats 0 0 0).
End files.

(** ** What a deletion of rows leaves *)
Definition none_of (c : Z) (m : scoped_model) (d : db) : Prop :=
  match m with
  | ModelBucket => ∀ i b, db_buckets d !! i = Some b → b_company_id b ≠ c
  | ModelStorageObject => ∀ i o, db_objects d !! i = Some o → o_company_id o ≠ c
  | ModelCompanyQuota => db_company_quotas d !! c = None
  | ModelUserQuota => ∀ u, db_user_quotas d !! (c, u) = None
  | ModelStorageAccessGrant => ∀ i g, db_grants d !! i = Some g → g_company_id g ≠ c
  | ModelObjectShareLink => ∀ i l, db_links d !! i = Some l → l_company_id l ≠ c
  | ModelActionRule => ∀ i r, a_rules (db_actions d) !! i = Some r → r_company_id r ≠ c
  | ModelActionOutbox => ∀ i x, a_outbox (db_actions d) !! i = Some x → x_company_id x ≠ c
  | ModelEventLog => ∀ e, e ∈ a_events (db_actions d) → e_company_id e ≠ Some c
  end.
Definition no_rows (c : Z) (d : db) : Prop := ∀ m, none_of c m d.

(** Rows only go. *)
Record shrinks (d d' : db) : Prop := Shrinks {
  sh_buckets : db_buckets d' ⊆ db_buckets d;
  sh_objects : db_objects d' ⊆ db_objects d;
  sh_grants : db_grants d' ⊆ db_grants d;
  sh_links : db_links d' ⊆ db_links d;
  sh_company_quotas : db_company_quotas d' ⊆ db_company_quotas d;
  sh_user_quotas : db_user_quotas d' ⊆ db_user_quotas d;
  sh_rules : a_rules (db_actions d') ⊆ a_rules (db_actions d);
  sh_outbox : a_outbox (db_actions d') ⊆ a_outbox (db_actions d);
  sh_attempts : a_attempts (db_actions d') ⊆ a_attempts (db_actions d);
  sh_events : a_events (db_actions d') ⊆ a_events (db_actions d) }.
Lemma shrinks_refl d : shrinks d d.
Proof. by split. Qed.
Lemma shrinks_trans d1 d2 d3 : shrinks d1 d2 → shrinks d2 d3 → shrinks d1 d3.
Proof. intros [] []. split; by etrans. Qed.

Lemma row_delete_sub {K A} `{Countable K} (P : A → bool) (m : gmap K A) : row_delete P m ⊆ m.
Proof. apply map_filter_subseteq. Qed.
Lemma row_delete_Some {K A} `{Countable K} (P : A → bool) (m : gmap K A) i x :
  row_delete P m !! i = Some x ↔ m !! i = Some x ∧ P x = false.
Proof. unfold row_delete. by rewrite map_lookup_filter_Some. Qed.
Lemma list_filter_sub {A} (P : A → Prop) `{∀ x, Decision (P x)} (l : list A) : filter P l ⊆ l.
Proof. intros x Hx. by apply list_elem_of_filter in Hx as []. Qed.

Ltac shrink := split; simpl;
  repeat first [done | apply row_delete_sub | apply map_filter_subseteq | apply list_filter_sub
               | apply delete_subseteq | etrans; [apply row_delete_sub|]].
Lemma delete_objects_shrinks P d : shrinks d (delete_objects_where P d).
Proof. shrink. Qed.
Lemma delete_model_shrinks c m d : shrinks d (delete_model_rows c m d).
Proof. destruct m; shrink. Qed.

Lemma none_of_shrinks c m d d' : shrinks d d' → none_of c m d → none_of c m d'.
Proof.
  intros [Hb Ho Hg Hl Hq Hu Hr Hx _ He]. destruct m; simpl; intros Hn.
  - intros i b Hi. eapply Hn, lookup_weaken; eauto.
  - intros i b Hi. eapply Hn, lookup_weaken; eauto.
  - destruct (db_company_quotas d' !! c) eqn:Hi; [|done]. eapply lookup_weaken in Hi; [|exact Hq]. congruence.
  - intros u. destruct (db_user_quotas d' !! (c, u)) eqn:Hi; [|done].
    eapply lookup_weaken in Hi; [|exact Hu]. by rewrite Hn in Hi.
  - intros i b Hi. eapply Hn, lookup_weaken; eauto.
  - intros i b Hi. eapply Hn, lookup_weaken; eauto.
  - intros i b Hi. eapply Hn, lookup_weaken; eauto.
  - intros i b Hi. eapply Hn, lookup_weaken; eauto.
  - intros e Hin. apply Hn. by apply He.
Qed.
Lemma delete_model_none c m d : none_of c m (delete_model_rows c m d).
Proof.
  destruct m; simpl; try (intros i x [_ Hx]%row_delete_Some; by apply bool_decide_eq_false in Hx).
  - apply lookup_delete_eq.
  - intros u. apply map_lookup_filter_None. right. intros x _ Hx. by apply Hx.
  - intros e Hin. by apply list_elem_of_filter in Hin as [].
Qed.

(** *** Rows that do not belong to a deleted company stay *)
Section kept.
Context (C : Z → Prop).
Definition other_object (d : db) (o : sobject) : Prop :=
  ¬ C (o_company_id o) ∧ ∀ b, db_buckets d !! o_bucket_id o = Some b → ¬ C (b_company_id b).
Definition other_grant (d : db) (g : grant) : Prop :=
  ¬ C (g_company_id g) ∧ (∀ b, db_buckets d !! g_bucket_id g = Some b → ¬ C (b_company_id b)) ∧
  (∀ i o, g_object_id g = Some i → db_objects d !! i = Some o → other_object d o).
Definition other_link (d : db) (l : share_link) : Prop :=
  ¬ C (l_company_id l) ∧ ∀ o, db_objects d !! l_object_id l = Some o → other_object d o.
Definition other_delivery (d : db) (x : action_outbox) : Prop :=
  ¬ C (x_company_id x) ∧
  ∀ i r, x_action_rule_id x = Some i → a_rules (db_actions d) !! i = Some r → ¬ C (r_company_id r).
Record kept (d d' : db) : Prop := Kept {
  kp_bucket i b : db_buckets d !! i = Some b → ¬ C (b_company_id b) → db_buckets d' !! i = Some b;
  kp_object i o : db_objects d !! i = Some o → other_object d o → db_objects d' !! i = Some o;
  kp_grant i g : db_grants d !! i = Some g → other_grant d g → db_grants d' !! i = Some g;
  kp_link i l : db_links d !! i = Some l → other_link d l → db_links d' !! i = Some l;
  kp_company_quota k : ¬ C k → db_company_quotas d' !! k = db_company_quotas d !! k;
  kp_user_quota k u : ¬ C k → db_user_quotas d' !! (k, u) = db_user_quotas d !! (k, u);
  kp_rule i r : a_rules (db_actions d) !! i = Some r → ¬ C (r_company_id r) → a_rules (db_actions d') !! i = Some r;
  kp_delivery i x : a_outbox (db_actions d) !! i = Some x → other_delivery d x →
    a_outbox (db_actions d') !! i = Some x;
  kp_attempt t : t ∈ a_attempts (db_actions d) →
    (∀ x, a_outbox (db_actions d) !! t_outbox_id t = Some x → other_delivery d x) →
    t ∈ a_attempts (db_actions d');
  kp_event e : e ∈ a_events (db_actions d) → (∀ k, e_company_id e = Some k → ¬ C k) → e ∈ a_events (db_actions d') }.

Lemma kept_refl d : kept d d.
Proof. by split. Qed.
Lemma other_object_shrinks d d' o : shrinks d d' → other_object d o → other_object d' o.
Proof. intros Hs [Hc Hb]. split; [done|]. intros b Hi. eapply Hb, lookup_weaken; [exact Hi|apply Hs]. Qed.
Lemma other_delivery_shrinks d d' x : shrinks d d' → other_delivery d x → other_delivery d' x.
Proof. intros Hs [Hc Hr]. split; [done|]. intros i r Hx Hi. eapply Hr, lookup_weaken; [exact Hx|exact Hi|apply Hs]. Qed.
Lemma kept_trans d1 d2 d3 : shrinks d1 d2 → kept d1 d2 → kept d2 d3 → kept d1 d3.
Proof.
  intros Hs K1 K2. split.
  - intros i b Hi Hc. apply K2; [by apply K1|done].
  - intros i o Hi Ho. apply K2; [by apply K1|by eapply other_object_shrinks].
  - intros i g Hi Hg. apply K2; [by apply K1|]. destruct Hg as (Hc & Hb & Ho). split_and!; [done| |].
    + intros b Hx. eapply Hb, lookup_weaken; [exact Hx|apply Hs].
    + intros j o Hj Hx. eapply other_object_shrinks; [exact Hs|].
      eapply Ho; [exact Hj|]. eapply lookup_weaken; [exact Hx|apply Hs].
  - intros i l Hi Hl. apply K2; [by apply K1|]. destruct Hl as [Hc Ho]. split; [done|]. intros o Hx.
    eapply other_object_shrinks; [exact Hs|]. eapply Ho, lookup_weaken; [exact Hx|apply Hs].
  - intros k Hk. rewrite (kp_company_quota _ _ K2) by done. by apply K1.
  - intros k u Hk. rewrite (kp_user_quota _ _ K2) by done. by apply K1.
  - intros i r Hi Hc. apply K2; [by apply K1|done].
  - intros i x Hi Hx. apply K2; [by apply K1|by eapply other_delivery_shrinks].
  - intros t Ht Hx. apply K2; [by apply K1|]. intros x Hi. eapply other_delivery_shrinks; [exact Hs|].
    eapply Hx, lookup_weaken; [exact Hi|apply Hs].
  - intros e He Hc. apply K2; [by apply K1|done].
Qed.

(** A deletion of objects, if all of them belong to the company. *)
Lemma gone_false {K A} `{Countable K} (P : A → bool) (m : gmap K A) i :
  (∀ x, m !! i = Some x → P x = false) → from_option P false (m !! i) = false.
Proof. destruct (m !! i); simpl; auto. Qed.
Lemma gone_opt {K A} `{Countable K} (P : A → bool) (m : gmap K A) (j : option K) :
  (∀ i x, j = Some i → m !! i = Some x → P x = false) →
  from_option (λ i, from_option P false (m !! i)) false j = false.
Proof. intros Hp. destruct j as [i|]; [|done]. apply gone_false. intros x. by apply Hp. Qed.
Lemma delete_objects_kept P d :
  (∀ i o, db_objects d !! i = Some o → other_object d o → P o = false) → kept d (delete_objects_where P d).
Proof.
  intros HP. split; simpl; try done.
  - intros i o Hi Ho. apply row_delete_Some. split; [done|]. by eapply HP.
  - intros i g Hi (_ & _ & Ho). apply row_delete_Some. split; [done|]. apply gone_opt.
    intros j o Hj Hx. eapply HP, Ho; done.
  - intros i l Hi [_ Ho]. apply row_delete_Some. split; [done|]. apply gone_false. intros o Hx.
    eapply HP; [exact Hx|by apply Ho].
Qed.
Lemma delete_outbox_kept P d :
  (∀ i x, a_outbox (db_actions d) !! i = Some x → other_delivery d x → P x = false) →
  kept d (set_actions (delete_outbox_where P) d).
Proof.
  intros HP. split; simpl; try done.
  - intros i x Hi Hx. apply row_delete_Some. split; [done|]. by eapply HP.
  - intros t Ht Hx. apply list_elem_of_filter. split; [|done]. apply gone_false. intros x Hi.
    eapply HP; [exact Hi|by apply Hx].
Qed.
Lemma delete_model_kept c m d : C c → kept d (delete_model_rows c m d).
Proof.
  intros Hcc. assert (Hne : ∀ k, ¬ C k → k ≠ c) by congruence.
  destruct m; cbn [delete_model_rows].
  - unfold delete_buckets_where. cbv zeta.
    set (gone := λ i, from_option (λ b, b_company_id b == c) false (db_buckets d !! i)).
    assert (Hgone : ∀ i, (∀ b, db_buckets d !! i = Some b → ¬ C (b_company_id b)) → gone i = false).
    { intros i Hb. apply gone_false. intros b Hi. eapply bool_decide_eq_false, Hne, Hb, Hi. }
    eapply kept_trans; [apply delete_objects_shrinks|apply (delete_objects_kept (λ o, gone (o_bucket_id o)))|].
    { intros i o _ [_ Hb]. by apply Hgone. }
    split; simpl; try done.
    + intros i b Hi Hc. apply row_delete_Some. split; [done|]. by apply bool_decide_eq_false, Hne.
    + intros i g Hi (_ & Hb & _). apply row_delete_Some. split; [done|]. by apply Hgone.
  - apply delete_objects_kept. intros i o _ [Hc _]. by apply bool_decide_eq_false, Hne.
  - split; simpl; try done. intros k Hk. rewrite lookup_delete_ne; [done|]. intros ->. done.
  - split; simpl; try done. intros k u Hk. apply option_eq. intros q. rewrite map_lookup_filter_Some. simpl.
    specialize (Hne k Hk). tauto.
  - split; simpl; try done. intros i g Hi [Hc _]. apply row_delete_Some. split; [done|]. by apply bool_decide_eq_false, Hne.
  - split; simpl; try done. intros i l Hi [Hc _]. apply row_delete_Some. split; [done|]. by apply bool_decide_eq_false, Hne.
  - set (gone := λ i, from_option (λ r, r_company_id r == c) false (a_rules (db_actions d) !! i)).
    eapply kept_trans; [|apply (delete_outbox_kept (λ x, from_option gone false (x_action_rule_id x)))|].
    + shrink.
    + intros i x _ [_ Hr]. apply gone_opt. intros j r Hj Hx. apply bool_decide_eq_false, Hne. by eapply Hr.
    + split; simpl; try done. intros i r Hi Hc. apply row_delete_Some. split; [done|]. by apply bool_decide_eq_false, Hne.
  - apply delete_outbox_kept. intros i x _ [Hc _]. by apply bool_decide_eq_false, Hne.
  - split; simpl; try done. intros e He Hc. apply list_elem_of_filter. split; [|done]. intros Hx. by eapply Hc.
Qed.
End kept.

(** ** A purge of one company *)
Section purge.
Context `{Settings, Backend, !BackendLaws}.

Definition delete_all_rows (c : Z) (d : db) : db :=
foldl (λ d m, delete_model_rows c m d) d company_scoped_models.
Lemma wp_delete_models c l w (Q : unit → world → Prop) R :
Q tt (set_db (λ d, foldl (λ d m, delete_model_rows c m d) d l) w) →
wp (for_each l (λ m, atomic (modify_db (delete_model_rows c m)))) Q R w.
Proof.
revert w. induction l as [|m l IH]; intros w HQ; cbn [for_each].
- apply wp_ret. by destruct w.
- apply wp_bind. unfold wp at 1, atomic, modify_db, modify. apply IH. exact HQ.
Qed.
Lemma wp_delete_company_rows c w (Q : unit → world → Prop) R :
Q tt (set_db (delete_all_rows c) w) → wp (delete_company_rows c) Q R w.
Proof.
intros HQ. unfold delete_company_rows. unfold delete_all_rows in HQ.
generalize dependent company_scoped_models. intros l HQ. apply wp_delete_models. exact HQ.
Qed.
Lemma delete_models_spec (C : Z → Prop) c l d : C c →
let d' := foldl (λ d m, delete_model_rows c m d) d l in
shrinks d d' ∧ kept C d d' ∧ ∀ m, m ∈ l → none_of c m d'.
Proof.
intros Hc. revert d. induction l as [|m l IH]; intros d; simpl.
- split; [apply shrinks_refl|]. split; [apply kept_refl|]. intros m Hm. by apply elem_of_nil in Hm.
- destruct (IH (delete_model_rows c m d)) as (Hs & Hk & Hn). split_and!.
  + eapply shrinks_trans; [apply delete_model_shrinks|exact Hs].
  + eapply kept_trans; [apply delete_model_shrinks|by apply delete_model_kept|exact Hk].
  + intros m' [->|Hm]%elem_of_cons; [|by apply Hn].
    eapply none_of_shrinks; [exact Hs|apply delete_model_none].
Qed.
Lemma all_models m : m ∈ company_scoped_models.
Proof. unfold company_scoped_models. destruct m; set_solver. Qed.
Lemma delete_all_rows_spec (C : Z → Prop) c d : C c →
shrinks d (delete_all_rows c d) ∧ kept C d (delete_all_rows c d) ∧ no_rows c (delete_all_rows c d).
Proof.
intros Hc. unfold delete_all_rows. pose proof all_models as Hall.
generalize dependent company_scoped_models. intros l Hall.
destruct (delete_models_spec C c l d Hc) as (Hs & Hk & Hn). split_and!; [exact Hs|exact Hk|].
intros m. apply Hn, Hall.
Qed.

(** The company of a file is that of its bucket; rows are found under their ids. *)
Definition refs_ok (d : db) : Prop :=
∀ i o, db_objects d !! i = Some o → o_id o = i ∧
  ∀ b, db_buckets d !! o_bucket_id o = Some b → b_company_id b = o_company_id o.
Lemma refs_ok_shrinks d d' : shrinks d d' → refs_ok d → refs_ok d'.
Proof.
intros Hs Hr i o Hi. destruct (Hr i o) as [Hid Hb]; [eapply lookup_weaken; [exact Hi|apply Hs]|].
split; [done|]. intros b Hx. eapply Hb, lookup_weaken; [exact Hx|apply Hs].
Qed.
Lemma kept_weaken (C C' : Z → Prop) d d' : (∀ k, C k → C' k) → kept C d d' → kept C' d d'.
Proof.
intros HC [Hb Ho Hg Hl Hq Hu Hr Hx Ht He].
assert (Hobj : ∀ o, other_object C' d o → other_object C d o).
{ intros o [A1 A2]. split; [auto|]. intros b Hi. specialize (A2 b Hi). auto. }
assert (Hdel : ∀ x, other_delivery C' d x → other_delivery C d x).
{ intros x [A1 A2]. split; [auto|]. intros i r A3 A4. specialize (A2 i r A3 A4). auto. }
split; try (by eauto).
- intros i g Hi (A1 & A2 & A3). apply Hg; [done|]. split_and!; [auto| |].
  + intros b Hi'. specialize (A2 b Hi'). auto.
  + intros j o Hj Hx'. apply Hobj. by eapply A3.
- intros i l Hi [A1 A2]. apply Hl; [done|]. split; [auto|]. intros o Hx'. apply Hobj. by apply A2.
- intros e Hin Hc. apply He; [done|]. intros k Hk HCk. eapply Hc; [exact Hk|auto].
Qed.

(** What is left at any moment of a purge of companies [C] that began at [w0]: no row
  but theirs is gone, no blob but those of their files, and a file of theirs whose row
  is gone has no blob; [fl] are the flags now. *)
Record purging (C : Z → Prop) (fl : gmap Z company_deletion) (w0 w : world) : Prop := Purging {
pg_shrinks : shrinks (w_db w0) (w_db w);
pg_kept : kept C (w_db w0) (w_db w);
pg_blobs : ∀ k, w_blobs w !! k = w_blobs w0 !! k ∨
  w_blobs w !! k = None ∧ ∃ i o, db_objects (w_db w0) !! i = Some o ∧ C (o_company_id o) ∧ o_storage_key o = k;
pg_files : ∀ i o, db_objects (w_db w0) !! i = Some o → C (o_company_id o) →
  db_objects (w_db w) !! i = Some o ∨ w_blobs w !! o_storage_key o = None;
pg_now : w_now w = w_now w0;
pg_flags : a_deletions (acts w) = fl }.
Lemma purging_refl C w : purging C (a_deletions (acts w)) w w.
Proof. split; [apply shrinks_refl|apply kept_refl|by left|by left|done|done]. Qed.

Lemma delete_objects_flags P d : a_deletions (db_actions (delete_objects_where P d)) = a_deletions (db_actions d).
Proof. done. Qed.
Lemma delete_all_flags c d : a_deletions (db_actions (delete_all_rows c d)) = a_deletions (db_actions d).
Proof.
unfold delete_all_rows. generalize company_scoped_models. intros l. revert d.
induction l as [|m l IH]; intros d; simpl; [done|]. rewrite IH. by destruct m.
Qed.

(** A backend that answers and deletes when asked. *)
Definition healthy : Prop :=
(∀ k m, ∃ b, storage_has k m = inr b) ∧ ∀ k m, (storage_delete k m).1 = None.
Lemma wp_delete_key k w (Q : unit → world → Prop) R :
Q tt (set_blobs (delete k) w) → (∀ e, ¬ healthy → R e w) → wp (delete_storage_key k) Q R w.
Proof.
intros HQ HR.
assert (Hsick : ∀ e, (delete_storage_key k w).1 = inl e → ¬ healthy).
{ intros e He [Hhas Hdel]. unfold delete_storage_key, storage_exists, default_storage_delete, when, bind in He.
  destruct (Hhas k (w_blobs w)) as [b Hb]. rewrite Hb in He. destruct b; [|done].
  specialize (Hdel k (w_blobs w)). by destruct (storage_delete k (w_blobs w)) as [[code|] m]. }
eapply wp_mono; [apply (wp_and _ (λ _ w', w' = set_blobs (delete k) w) (λ _ w', w' = w)
    (λ _ _, True) (λ _ _, ¬ healthy))| |].
- by apply wp_delete_storage_key.
- unfold wp. destruct (delete_storage_key k w) as [[e|u] w']; [|done]. by eapply Hsick.
- by intros [] w' [-> _].
- intros e w' [-> Hs]. by apply HR.
Qed.
Lemma wp_delete_keys l w (Q : unit → world → Prop) R :
(∀ m, (∀ k, m !! k = w_blobs w !! k ∨ m !! k = None ∧ ∃ o, o ∈ l ∧ o_storage_key o = k) →
   (∀ o, o ∈ l → m !! o_storage_key o = None) → Q tt (set_blobs (λ _, m) w)) →
(∀ e m, (∀ k, m !! k = w_blobs w !! k ∨ m !! k = None ∧ ∃ o, o ∈ l ∧ o_storage_key o = k) →
   ¬ healthy → R e (set_blobs (λ _, m) w)) →
wp (for_each l (λ o, delete_storage_key (o_storage_key o))) Q R w.
Proof.
revert w Q. induction l as [|o l IH]; intros w Q HQ HR; cbn [for_each].
- apply wp_ret. replace w with (set_blobs (λ _, w_blobs w) w) by (by destruct w). apply HQ; [by left|].
  intros o Ho. by apply elem_of_nil in Ho.
- apply wp_bind, wp_delete_key.
  2: { intros e Hsick. replace w with (set_blobs (λ _, w_blobs w) w) by (by destruct w).
       apply HR; [by left|done]. }
  assert (Hstep : ∀ m : gmap string bytes, (∀ k, m !! k = delete (o_storage_key o) (w_blobs w) !! k ∨
      m !! k = None ∧ ∃ o', o' ∈ l ∧ o_storage_key o' = k) →
    ∀ k, m !! k = w_blobs w !! k ∨ m !! k = None ∧ ∃ o', o' ∈ o :: l ∧ o_storage_key o' = k).
  { intros m Hm k. destruct (Hm k) as [He|(He & o' & Ho' & Hk)].
    - destruct (decide (k = o_storage_key o)) as [->|Hne].
      + right. rewrite lookup_delete_eq in He. split; [done|]. exists o. split; [by left|done].
      + left. by rewrite lookup_delete_ne in He.
    - right. split; [done|]. exists o'. split; [by right|done]. }
  apply IH.
  + intros m Hm Hgone. apply (HQ m); [by apply Hstep|]. intros o' [->|Ho']%elem_of_cons; [|by apply Hgone].
    destruct (Hm (o_storage_key o)) as [->|[-> _]]; [|done]. apply lookup_delete_eq.
  + intros e m Hm. apply (HR e m). by apply Hstep.
Qed.

Lemma elem_of_objects c d o : o ∈ objects_of c d ↔ ∃ i, db_objects d !! i = Some o ∧ o_company_id o = c.
Proof.
unfold objects_of. rewrite elem_of_rows. split.
- intros [i [Hi Hc]%map_lookup_filter_Some]. by exists i.
- intros (i & Hi & Hc). exists i. by apply map_lookup_filter_Some.
Qed.
(** A pass over a batch takes at least one row away. *)
Lemma batch_progress c d o batch : refs_ok d → take BATCH (objects_of c d) = o :: batch →
(length (objects_of c (delete_objects_where (λ o', o_id o' in_ (o_id <$> o :: batch)) d)) <
 length (objects_of c d))%nat.
Proof.
intros Href Hb. unfold objects_of, rows. rewrite !length_fmap, !length_map_to_list.
assert (Ho : o ∈ objects_of c d).
{ rewrite <- (take_drop BATCH (objects_of c d)), Hb. apply elem_of_app. left. by left. }
apply elem_of_objects in Ho as (i & Hi & Hc). destruct (Href i o Hi) as [Hid _].
set (m := filter _ (db_objects d)). set (m' := filter _ _).
assert (Hm : m !! i = Some o) by (apply map_lookup_filter_Some; done).
assert (Hsub : m' ⊆ delete i m).
{ apply map_subseteq_spec. intros j x Hx. unfold m' in Hx. apply map_lookup_filter_Some in Hx as [Hx Hcx].
  apply row_delete_Some in Hx as [Hx Hnin]. apply bool_decide_eq_false in Hnin.
  apply lookup_delete_Some. split; [|by apply map_lookup_filter_Some].
  intros <-. rewrite Hi in Hx. injection Hx as <-. apply Hnin. apply list_elem_of_fmap_2. by left. }
apply map_subseteq_size in Hsub. rewrite map_size_delete_Some in Hsub by eauto.
assert (size m ≠ O) by (apply (map_size_ne_0_lookup_2 m i); eauto). lia.
Qed.

Lemma purging_batch c fl w0 w (batch : list sobject) (m : gmap string bytes) :
refs_ok (w_db w0) → purging (λ k, k = c) fl w0 w →
(∀ o, o ∈ batch → ∃ i, db_objects (w_db w) !! i = Some o ∧ o_company_id o = c) →
(∀ k, m !! k = w_blobs w !! k ∨ m !! k = None ∧ ∃ o, o ∈ batch ∧ o_storage_key o = k) →
purging (λ k, k = c) fl w0 (set_blobs (λ _, m) w) ∧
((∀ o, o ∈ batch → m !! o_storage_key o = None) →
 purging (λ k, k = c) fl w0 (set_db (delete_objects_where (λ o, o_id o in_ (o_id <$> batch))) (set_blobs (λ _, m) w))).
Proof.
intros Href [Hs Hk Hb Hf Hnow Hfl] Hbatch Hm.
assert (Hblobs : ∀ k, m !! k = w_blobs w0 !! k ∨ m !! k = None ∧
  ∃ i o, db_objects (w_db w0) !! i = Some o ∧ o_company_id o = c ∧ o_storage_key o = k).
{ intros k. destruct (Hm k) as [->|(He & o & Ho & Hko)]; [apply Hb|]. right. split; [done|].
  destruct (Hbatch o Ho) as (i & Hi & Hc). exists i, o.
  split; [eapply lookup_weaken; [exact Hi|apply Hs]|done]. }
assert (Hgone : ∀ k, w_blobs w !! k = None → m !! k = None).
{ intros k Hn. destruct (Hm k) as [->|[? _]]; done. }
split.
- split; simpl; [done|done|done| |done|done]. intros i o Hi Hc. destruct (Hf i o Hi Hc); auto.
- intros Hall.
  assert (Hdel : ∀ i o, db_objects (w_db w) !! i = Some o → o_id o ∈ o_id <$> batch → o ∈ batch).
  { intros i o Hi Hin. apply list_elem_of_fmap in Hin as (o' & Hid & Ho'). destruct (Hbatch o' Ho') as (j & Hj & _).
    assert (Href' : refs_ok (w_db w)) by (by eapply refs_ok_shrinks).
    destruct (Href' i o Hi) as [Hi' _], (Href' j o' Hj) as [Hj' _]. assert (j = i) as -> by congruence.
    rewrite Hi in Hj. injection Hj as ->. exact Ho'. }
  split; simpl.
  + eapply shrinks_trans; [exact Hs|apply delete_objects_shrinks].
  + eapply kept_trans; [exact Hs|exact Hk|]. apply delete_objects_kept. intros i o Hi [Hc _].
    apply bool_decide_eq_false. intros Hin. apply Hc. destruct (Hbatch o) as (? & _ & ?); [by eapply Hdel|done].
  + exact Hblobs.
  + intros i o Hi Hc. destruct (Hf i o Hi Hc) as [Hi'|Hn]; [|right; by apply Hgone].
    destruct (decide (o_id o ∈ o_id <$> batch)) as [Hin|Hin].
    * right. apply Hall. by eapply Hdel.
    * left. apply row_delete_Some. split; [done|]. by apply bool_decide_eq_false.
  + done.
  + exact Hfl.
Qed.

Lemma wp_delete_file_batches fuel c n fl w0 w :
refs_ok (w_db w0) → purging (λ k, k = c) fl w0 w → (length (objects_of c (w_db w)) < fuel)%nat →
wp (delete_file_batches fuel c n)
  (λ _ w', purging (λ k, k = c) fl w0 w' ∧ objects_of c (w_db w') = [])
  (λ _ w', purging (λ k, k = c) fl w0 w' ∧ ¬ healthy) w.
Proof.
intros Href. revert n w. induction fuel as [|fuel IH]; intros n w Hp Hlen; [lia|].
assert (Href' : refs_ok (w_db w)) by (eapply refs_ok_shrinks; [apply Hp|done]).
cbn [delete_file_batches]. apply wp_bind, wp_gets.
destruct (take BATCH (objects_of c (w_db w))) as [|o batch] eqn:Hb.
{ apply wp_ret. split; [done|]. by destruct (objects_of c (w_db w)). }
assert (Hbatch : ∀ o', o' ∈ o :: batch → ∃ i, db_objects (w_db w) !! i = Some o' ∧ o_company_id o' = c).
{ intros o' Ho'. apply elem_of_objects. rewrite <- (take_drop BATCH (objects_of c (w_db w))), Hb.
  apply elem_of_app. by left. }
pose proof (batch_progress c (w_db w) o batch Href' Hb) as Hprog. set (l := o :: batch) in *.
apply wp_bind, wp_delete_keys.
- intros m Hm Hall. destruct (purging_batch c fl w0 w l m Href Hp Hbatch Hm) as [_ Hnext].
  apply wp_bind, wp_modify. apply IH; [by apply Hnext|].
  change (length (objects_of c (delete_objects_where (λ o', o_id o' in_ (o_id <$> l)) (w_db w))) < fuel)%nat.
  eapply Nat.lt_le_trans; [exact Hprog|]. lia.
- intros e m Hm Hsick. by destruct (purging_batch c fl w0 w l m Href Hp Hbatch Hm) as [Hnext _].
Qed.

Lemma wp_purge_company c w :
refs_ok (w_db w) →
wp (purge_company c)
  (λ _ w', purging (λ k, k = c) (a_deletions (acts w)) w w' ∧ no_rows c (w_db w') ∧
     ∀ i o, db_objects (w_db w) !! i = Some o → o_company_id o = c → w_blobs w' !! o_storage_key o = None)
  (λ _ w', purging (λ k, k = c) (a_deletions (acts w)) w w' ∧ ¬ healthy) w.
Proof.
intros Href. unfold purge_company, delete_company_files. apply wp_bind, wp_bind, wp_gets.
eapply wp_mono; [apply (wp_delete_file_batches _ c 0 (a_deletions (acts w)) w w); [done|apply purging_refl|lia]| |done].
intros n w1 [Hp Hno]. apply wp_delete_company_rows.
destruct (delete_all_rows_spec (λ k, k = c) c (w_db w1) eq_refl) as (Hs & Hk & Hn).
assert (Hgone : ∀ i o, db_objects (w_db w) !! i = Some o → o_company_id o = c → w_blobs w1 !! o_storage_key o = None).
{ intros i o Hi Hc. destruct (pg_files _ _ _ _ Hp i o Hi Hc) as [Hi'|]; [|done].
  assert (Hin : o ∈ objects_of c (w_db w1)) by (apply elem_of_objects; eauto).
  rewrite Hno in Hin. by apply elem_of_nil in Hin. }
split; [|split; [exact Hn|exact Hgone]].
destruct Hp as [Hs1 Hk1 Hb1 _ Hn1 Hf1]. split; cbn [set_db w_db w_blobs w_now].
- eapply shrinks_trans; [exact Hs1|exact Hs].
- eapply kept_trans; [exact Hs1|exact Hk1|exact Hk].
- exact Hb1.
- intros i o Hi Hc. right. by eapply Hgone.
- exact Hn1.
- rewrite <- Hf1. apply delete_all_flags.
Qed.

(** ** The run *)
Lemma purging_trans C fl fl' c w0 w w' : C c → refs_ok (w_db w0) →
purging C fl w0 w → purging (λ k, k = c) fl' w w' → purging C fl' w0 w'.
Proof.
intros HC Href [Hs Hk Hb Hf Hn _] [Hs' Hk' Hb' Hf' Hn' Hfl']. split.
- by eapply shrinks_trans.
- eapply kept_trans; [exact Hs|exact Hk|]. eapply kept_weaken; [|exact Hk']. by intros k ->.
- intros k. destruct (Hb' k) as [->|(Hnone & i & o & Hi & Hco & Hko)]; [apply Hb|]. right. split; [done|].
  exists i, o. rewrite Hco. split; [eapply lookup_weaken; [exact Hi|apply Hs]|done].
- intros i o Hi Ho. destruct (Hf i o Hi Ho) as [Hi'|Hnone].
  + destruct (decide (o_company_id o = c)) as [Hc|Hc]; [by eapply Hf'|]. left.
    eapply kp_object; [exact Hk'|exact Hi'|]. split; [done|]. intros b Hx.
    assert (Hrefw : refs_ok (w_db w)) by (by eapply refs_ok_shrinks).
    destruct (Hrefw i o Hi') as [_ Hbc]. specialize (Hbc b Hx). congruence.
  + right. by destruct (Hb' (o_storage_key o)) as [->|[? _]].
- congruence.
- exact Hfl'.
Qed.
Lemma acts_set_deletions f w : a_deletions (acts (set_db (set_actions (set_deletions f)) w)) = f (a_deletions (acts w)).
Proof. done. Qed.
Lemma purging_flags C fl f w0 w : purging C fl w0 w →
purging C (f fl) w0 (set_db (set_actions (set_deletions f)) w).
Proof. intros [Hs Hk Hb Hf Hn Hfl]. split; [by destruct Hs|by destruct Hk|done|done|done|]. by rewrite <- Hfl. Qed.

(** Nothing of the company is left. *)
Definition company_gone (c : Z) (w0 w : world) : Prop :=
no_rows c (w_db w) ∧
∀ i o, db_objects (w_db w0) !! i = Some o → o_company_id o = c → w_blobs w !! o_storage_key o = None.
(** What became of a flag that the run came to.  The purge of a company fails only when
  the backend does. *)
Definition overdue_flag (t : datetime) (flag : company_deletion) : Prop :=
∃ d, cd_completed_at flag = Some d ∧ d < t - SWEEP_WINDOW.
Definition settled (t : datetime) (c : Z) (flag : company_deletion) (w0 w : world) : Prop :=
overdue_flag t flag ∧ a_deletions (acts w) !! c = None ∨
¬ overdue_flag t flag ∧
  (a_deletions (acts w) !! c =
     Some (CompanyDeletion (cd_requested_at flag) (Some (default t (cd_completed_at flag)))) ∧
   company_gone c w0 w ∨
   ¬ healthy ∧ a_deletions (acts w) !! c = Some flag).
(** The world only gets smaller. *)
Definition less (w w' : world) : Prop :=
shrinks (w_db w) (w_db w') ∧ ∀ k, w_blobs w !! k = None → w_blobs w' !! k = None.
Lemma less_trans w1 w2 w3 : less w1 w2 → less w2 w3 → less w1 w3.
Proof. intros [Hs Hb] [Hs' Hb']. split; [by eapply shrinks_trans|auto]. Qed.
Lemma purging_less C fl w w' : purging C fl w w' → less w w'.
Proof. intros [Hs _ Hb _ _ _]. split; [done|]. intros k Hk. by destruct (Hb k) as [->|[? _]]. Qed.
Lemma settled_later t c flag w0 w w' : less w w' → a_deletions (acts w') !! c = a_deletions (acts w) !! c →
settled t c flag w0 w → settled t c flag w0 w'.
Proof.
intros [Hs Hb] Hc. unfold settled. rewrite Hc.
intros [?|[He [[? [Hn Hg]]|?]]]; [by left|right; split; [done|]; left|right; split; [done|]; by right].
split; [done|]. split.
- intros m. eapply none_of_shrinks; [exact Hs|apply Hn].
- intros i o Hi Ho. by apply Hb, (Hg i o).
Qed.

Lemma wp_purge_flagged C t c flag s fl w0 w :
refs_ok (w_db w0) → C c → purging C fl w0 w → fl !! c = Some flag →
wp (purge_flagged t (c, flag) s)
  (λ _ w', ∃ fl', purging C fl' w0 w' ∧ less w w' ∧ (∀ k, k ≠ c → fl' !! k = fl !! k) ∧ settled t c flag w0 w')
  (λ _ _, False) w.
Proof.
intros Href HC Hp Hflag. pose proof (pg_flags _ _ _ _ Hp) as Hfl. unfold purge_flagged.
assert (Href' : refs_ok (w_db w)) by (eapply refs_ok_shrinks; [apply Hp|done]).
destruct (from_option _ false (cd_completed_at flag)) eqn:Hold.
- unfold modify_actions, modify_db. wp_steps. exists (delete c fl).
  split_and!; [by apply purging_flags| | |].
  + split; [by destruct (shrinks_refl (w_db w))|done].
  + intros k Hk. by apply lookup_delete_ne.
  + left. rewrite acts_set_deletions, Hfl, lookup_delete_eq. split; [|done].
    destruct (cd_completed_at flag) as [d|] eqn:Hd; [|done]. exists d. split; [done|]. by apply Z.ltb_lt in Hold.
- assert (Hnew : ¬ overdue_flag t flag).
  { intros (d & Hd & Hlt). rewrite Hd in Hold. simpl in Hold. apply Z.ltb_ge in Hold. lia. }
  apply wp_bind, wp_try, wp_bind. eapply wp_mono; [by apply wp_purge_company| |].
  2: { intros e w1 [Hp1 Hsick]. apply wp_ret. cbn [negb]. apply wp_ret. exists fl. split_and!; [| |done|].
    - eapply purging_trans; [exact HC|exact Href|exact Hp|]. by rewrite <- Hfl.
    - eapply purging_less. exact Hp1.
    - right. split; [done|]. right. by rewrite (pg_flags _ _ _ _ Hp1), Hfl, Hflag. }
  intros u w1 (Hp1 & Hno & Hgone). apply wp_ret. cbn [negb].
  assert (Hp' : purging C fl w0 w1).
  { eapply purging_trans; [exact HC|exact Href|exact Hp|]. by rewrite <- Hfl. }
  assert (Hall : company_gone c w0 w1).
  { split; [done|]. intros i o Hi Ho. destruct (pg_files _ _ _ _ Hp' i o Hi ltac:(by rewrite Ho)) as [Hi'|]; [|done].
    by destruct (Hno ModelStorageObject i o Hi'). }
  case_bool_decide as Hc.
  + unfold modify_actions, modify_db. wp_steps. eexists (alter _ c fl). split_and!; [by apply purging_flags| | |].
    * destruct (purging_less _ _ _ _ Hp1) as [Hs Hb]. split; [by destruct Hs|done].
    * intros k Hk. by apply lookup_alter_ne.
    * right. split; [done|]. left.
      rewrite acts_set_deletions, (pg_flags _ _ _ _ Hp'), lookup_alter_eq, Hflag, Hc. simpl.
      split; [done|]. destruct Hall as [Hn Hg]. split; [|done]. intros m. specialize (Hn m). destruct m; exact Hn.
  + apply wp_ret. exists fl. split_and!; [done|by eapply purging_less|done|].
    right. split; [done|]. left. rewrite (pg_flags _ _ _ _ Hp'), Hflag. split; [|exact Hall].
    destruct flag as [q [d|]]; [done|by destruct Hc].
Qed.

Lemma wp_purge_each C t flags s fl w0 w :
refs_ok (w_db w0) → NoDup flags.*1 → (∀ c flag, (c, flag) ∈ flags → C c ∧ fl !! c = Some flag) →
purging C fl w0 w →
wp (purge_each t flags s)
  (λ _ w', ∃ fl', purging C fl' w0 w' ∧ less w w' ∧ (∀ k, k ∉ flags.*1 → fl' !! k = fl !! k) ∧
     ∀ c flag, (c, flag) ∈ flags → settled t c flag w0 w')
  (λ _ _, False) w.
Proof.
intros Href. revert s fl w. induction flags as [|[c flag] flags IH]; intros s fl w Hnd Hflags Hp; cbn [purge_each].
- apply wp_ret. exists fl. split_and!; [done|split; [apply shrinks_refl|done]|done|].
  intros c flag Hin. by apply elem_of_nil in Hin.
- rewrite fmap_cons in Hnd. apply NoDup_cons in Hnd as [Hnin Hnd]. simpl in Hnin.
  destruct (Hflags c flag) as [HC Hfl]; [by left|].
  apply wp_bind. eapply wp_mono; [by apply (wp_purge_flagged C t c flag s fl w0 w)| |done].
  intros s1 w1 (fl1 & Hp1 & Hless & Hkeep & Hset).
  eapply wp_mono; [apply (IH s1 fl1 w1); [done| |done]| |done].
  { intros c' flag' Hin. destruct (Hflags c' flag') as [HC' Hfl']; [by right|]. split; [done|].
    rewrite Hkeep; [done|]. intros ->. apply Hnin. by apply (list_elem_of_fmap_2 fst _ (c, flag')). }
  intros s2 w2 (fl2 & Hp2 & Hless2 & Hkeep2 & Hset2). exists fl2.
  split_and!; [done|by eapply less_trans| |].
  + intros k Hk. rewrite fmap_cons in Hk. apply not_elem_of_cons in Hk as [Hkc Hk].
    rewrite Hkeep2, Hkeep; done.
  + intros c' flag' Hin. apply elem_of_cons in Hin as [Heq|Hin]; [|by apply Hset2]. injection Heq as -> ->.
    eapply settled_later; [exact Hless2| |exact Hset].
    rewrite (pg_flags _ _ _ _ Hp2), (pg_flags _ _ _ _ Hp1). by apply Hkeep2.
Qed.

(** C20: one run over the flagged companies.  It never fails.  It comes to the flags in the
    order of their requests, as many as the clock allows.  Of a company it comes to,
    nothing is left: no row in any table, and no blob of any of its files; the flag says
    when that was first so, and is itself removed when that is more than an hour ago.
    The only exception is a backend that fails: the flag then stays as it was, to be
    tried again, and what is left of the files is consistent: a file whose row is gone
    has no blob.  The flags the run does not come to are as they were, and so are the
    rows and the files of companies without a flag. *)
Theorem deletion_run_sound ticks w :
refs_ok (w_db w) →
let visited := take ticks (sort_by by_request (map_to_list (a_deletions (acts w)))) in
wp (purge_deleted_companies ticks)
  (λ _ w', let flagged c := is_Some (a_deletions (acts w) !! c) in
     (∀ c flag, (c, flag) ∈ visited → settled (w_now w) c flag w w') ∧
     (∀ c, c ∉ visited.*1 → a_deletions (acts w') !! c = a_deletions (acts w) !! c) ∧
     kept flagged (w_db w) (w_db w') ∧ shrinks (w_db w) (w_db w') ∧
     (∀ k, w_blobs w' !! k = w_blobs w !! k ∨ w_blobs w' !! k = None ∧
        ∃ i o, db_objects (w_db w) !! i = Some o ∧ flagged (o_company_id o) ∧ o_storage_key o = k) ∧
     (∀ i o, db_objects (w_db w) !! i = Some o → flagged (o_company_id o) →
        db_objects (w_db w') !! i = Some o ∨ w_blobs w' !! o_storage_key o = None))
  (λ _ _, False) w.
Proof.
intros Href. unfold purge_deleted_companies, now, get_actions. apply wp_bind, wp_gets, wp_bind, wp_gets.
fold (acts w). set (flags := sort_by by_request (map_to_list (a_deletions (acts w)))).
assert (Hin : ∀ c flag, (c, flag) ∈ flags → a_deletions (acts w) !! c = Some flag).
{ intros c flag Hx. unfold flags in Hx. rewrite elem_of_sort_by in Hx. by apply elem_of_map_to_list. }
assert (Hnd : NoDup flags.*1).
{ unfold flags. rewrite (sort_by_perm by_request). apply NoDup_fst_map_to_list. }
assert (Hsub : ∀ c flag, (c, flag) ∈ take ticks flags → (c, flag) ∈ flags).
{ intros c flag Hx. rewrite <- (take_drop ticks flags). apply elem_of_app. by left. }
set (C := λ c, is_Some (a_deletions (acts w) !! c)).
eapply wp_mono; [apply (wp_purge_each C (w_now w) _ _ (a_deletions (acts w)) w w Href)| |done].
- rewrite <- (take_drop ticks flags), fmap_app in Hnd. by apply NoDup_app in Hnd as [].
- intros c flag Hx. apply Hsub, Hin in Hx. split; [by exists flag|done].
- apply purging_refl.
- intros s w' (fl' & [Hs Hk Hb Hf _ Hfl] & _ & Hkeep & Hset). split_and!; try done.
  intros c Hc. rewrite Hfl. by apply Hkeep.
Qed.
End purge.

(** Two companies with a file each.  The first is flagged, a third one was purged long ago. *)
Module DeletionDemo.
#[export] Existing Instance demo_settings.
#[export] Instance demo_store : Backend := object_store (λ _, "etag").
Definition bucket_of (i : uuid) (c : Z) : bucket := Bucket i "company" c KIND_COMPANY false None [] None "" 0 0.
Definition object_of (i b : uuid) (c : Z) (key : string) : sobject :=
  StorageObject i b "a.txt" c None 1 "etag" "text/plain" [] key 1 0 0 None.
Definition two_companies : world :=
  World (set_actions (set_deletions (λ _, {[ 7 := CompanyDeletion 5 None; 9 := CompanyDeletion 1 (Some 2) ]}))
           (Db {[ 1%N := bucket_of 1 7; 2%N := bucket_of 2 8 ]}
               {[ 3%N := object_of 3 1 7 "k7"; 4%N := object_of 4 2 8 "k8" ]} ∅ ∅
               {[ 7 := CompanyQuota 10 1 None; 8 := CompanyQuota 10 1 None ]} ∅ (db_actions empty_db)))
    {[ "k7" := [Byte.x61]; "k8" := [Byte.x62] ]} (2 * SWEEP_WINDOW) 5.
Definition two_companies' : world := (purge_deleted_companies 10 two_companies).2.
End DeletionDemo.
Import DeletionDemo.
Lemma deletion_run_sound_witness :
  a_deletions (acts two_companies') = {[ 7 := CompanyDeletion 5 (Some (2 * SWEEP_WINDOW)) ]} ∧
  db_objects (w_db two_companies') !! 4%N = Some (object_of 4 2 8 "k8") ∧
  company_gone 7 two_companies two_companies' ∧ w_blobs two_companies' = {[ "k8" := [Byte.x62] ]}.
Proof.
  assert (Href : refs_ok (w_db two_companies)).
  { intros i o Hi. simpl in Hi. apply lookup_insert_Some in Hi as [[<- <-]|[_ Hi]].
    - split; [done|]. intros b Hb. vm_compute in Hb. by injection Hb as <-.
    - apply lookup_singleton_Some in Hi as [<- <-]. split; [done|]. intros b Hb. vm_compute in Hb. by injection Hb as <-. }
  pose proof (deletion_run_sound 10 two_companies Href) as Hwp. unfold wp in Hwp.
  assert (Hout : purge_deleted_companies 10 two_companies =
    ((purge_deleted_companies 10 two_companies).1, two_companies')) by (apply surjective_pairing).
  rewrite Hout in Hwp. destruct (purge_deleted_companies 10 two_companies).1 as [e|s]; [done|].
  destruct Hwp as (Hset & _ & Hkept & _).
  split; [vm_compute; reflexivity|]. split; [|split].
  - apply (kp_object _ _ _ Hkept); [reflexivity|]. split.
    + intros [x Hx]. vm_compute in Hx. done.
    + intros b Hb. vm_compute in Hb. injection Hb as <-. intros [x Hx]. vm_compute in Hx. done.
  - destruct (Hset 7 (CompanyDeletion 5 None)) as [[(d & Hd & _) _]|[_ [[_ Hgone]|[Hsick _]]]].
    + vm_compute. right. left.
    + discriminate Hd.
    + exact Hgone.
    + destruct Hsick. split; [by eexists|done].
  - vm_compute. reflexivity.
Defined.
