(* ===== verification/AdminApi.v ===== *)
(** * AdminApi: the administration of rules and deliveries ([apps/actions/admin_api_views.py])

    Staff and the owners of a company manage the webhook rules of a company and look at its
    deliveries.  Request and response are those of [Views.v]; the fields of a request body
    are read by the field classes of the framework, which are parameters.  The random bytes
    of a new secret ([raw]) and the network of a test delivery are arguments. *)
From S2P Require Import Prelude PyStr Models PyData Access Quotas Backends Redact Registry Events.
From S2P Require Import Url Ssrf Wire Webhook Delivery RuleConfig Deletion Shares Views.

(** ** Who may act, and for which company ([admin_auth.py]) *)
Definition plain_error (status : Z) (text : string) : response :=
  Response status (CJson (JObj [("error", JStr text)])).
(** [_company_id_from_request]: the query string, else the body, else the caller; a body
    that is not an object has no method [get]. *)
Definition company_id_from_request (rq : http_request) (p : principal) : exn + option Z :=
  let parse v := if blank v then p_company_id p
                 else match py_int v with inr n => Some n | inl _ => None end in
  match last_get "company_id" (rq_query rq) with
  | Some s => inr (parse (JStr s))
  | None => match rq_data rq with
            | JObj body => inr (parse (jget "company_id" body))
            | _ => inl AttributeError
            end
  end.
Definition require_staff_or_company_owner (rq : http_request) : exn + (response + principal * Z) :=
  match rq_user rq with
  | None => inr (inl (plain_error 401 "Unauthorized"))
  | Some p =>
      match company_id_from_request rq p with
      | inl e => inl e
      | inr None => inr (inl (plain_error 400 "Missing company_id parameter."))
      | inr (Some c) =>
          if from_option (λ tc, tc != c) false (p_company_id p) && negb (p_is_staff p)
          then inr (inl (plain_error 403 "Requested company_id does not match token company_id."))
          else if is_staff_or_company_owner p then inr (inr (p, c))
          else inr (inl (plain_error 403 "Forbidden"))
      end
  end.
(** The permission classes of [_ActionsAdminBase], then the gate every handler begins with. *)
Definition with_company (rq : http_request) (k : principal → Z → prog response) : prog response :=
  with_administrator rq (λ _,
    r <- lift_sum (require_staff_or_company_owner rq) ;;
    match r with inl err => ret err | inr (p, c) => k p c end).

(** ** Query parameters *)
(** [(request.GET.get(k) or '').strip()] *)
Definition query_param (k : string) (rq : http_request) : string := strip (default "" (last_get k (rq_query rq))).
(** [int(request.GET.get(k) or d)] *)
Definition query_int (k : string) (d : Z) (rq : http_request) : option Z :=
  let s := default "" (last_get k (rq_query rq)) in
  if truthy s then py_int_str 10 s else Some d.
Definition page_params (rq : http_request) : option (Z * Z) :=
  match query_int "page" 1 rq, query_int "page_size" 20 rq with
  | Some page, Some page_size => Some (Z.max 1 page, Z.min 100 (Z.max 1 page_size))
  | _, _ => None
  end.
(** [qs[start : start + page_size]] *)
Definition page_of {A} (page page_size : Z) (l : list A) : list A :=
  take (Z.to_nat page_size) (drop (Z.to_nat ((page - 1) * page_size)) l).
Definition paginated {A} (page page_size : Z) (l : list A) (results : list json) : response :=
  ok (JObj [("count", JInt (Z.of_nat (length l))); ("page", JInt page);
            ("page_size", JInt page_size); ("results", JList results)]).

(** Filters of a list: each looks at the request and yields a condition on rows, an error
    response, or an exception; the first one that does not yield a condition decides. *)
Definition row_filter (A : Type) : Type := exn + (response + (A → bool)).
Definition every {A} : row_filter A := inr (inr (λ _, true)).
Definition where_ {A} (P : A → bool) : row_filter A := inr (inr P).
Definition refuse {A} (status : Z) (text : string) : row_filter A := inr (inl (plain_error status text)).
Fixpoint all_filters {A} (l : list (row_filter A)) : row_filter A :=
  match l with
  | [] => every
  | f :: l' =>
      match f with
      | inr (inr P) =>
          match all_filters l' with
          | inr (inr Q) => where_ (λ x, P x && Q x)
          | r => r
          end
      | r => r
      end
  end.

(** ** Payloads *)
Definition outbox_status_value (s : outbox_status) : string :=
  match s with
  | STATUS_PENDING => "pending" | STATUS_DELIVERED => "delivered"
  | STATUS_FAILED => "failed" | STATUS_DEAD => "dead"
  end.
Definition STATUS_CHOICES : list string :=
  outbox_status_value <$> [STATUS_PENDING; STATUS_DELIVERED; STATUS_FAILED; STATUS_DEAD].
Definition attempt_status_value (s : attempt_status) : string :=
  match s with STATUS_SUCCESS => "success" | STATUS_FAILURE => "failure" end.
Definition attempt_trigger_value (t : attempt_trigger) : string :=
  match t with TRIGGER_DISPATCH => "dispatch" | TRIGGER_AUTOMATIC_RETRY => "automatic_retry" end.
Definition utc_or_none (t : option datetime) : json := opt_str (iso_utc <$> t).

Definition action_rule_payload (rule : action_rule) (reveal_secret : bool) : exn + list (string * json) :=
  let data :=
    [("id", JInt (Z.of_N (r_id rule))); ("company_id", JInt (r_company_id rule));
     ("name", JStr (r_name rule)); ("description", JStr (r_description rule));
     ("event_type", JStr (r_event_type rule)); ("enabled", JBool (r_enabled rule));
     ("action_kind", JStr (r_action_kind rule));
     ("config", JObj (mask_config_for_response (r_config rule) (r_action_kind rule)));
     ("created_at", JStr (iso_utc (r_created_at rule))); ("updated_at", JStr (iso_utc (r_updated_at rule)))] in
  if reveal_secret then
    match config_text "secret" (r_config rule) with
    | inl e => inl e
    | inr secret => inr (data ++ (if truthy secret then [("secret", JStr secret)] else []))
    end
  else inr data.

Section payloads.
(** The primary keys of attempts are not part of their rows here. *)
Context (attempt_pk : delivery_attempt → Z).

Definition delivery_attempt_payload (row : delivery_attempt) (staff : bool) : list (string * json) :=
[("id", JInt (attempt_pk row)); ("status", JStr (attempt_status_value (t_status row)));
 ("http_status", opt_int (t_http_status row)); ("error_message", JStr (t_error_message row));
 ("attempt_number", JInt (t_attempt_number row)); ("duration_ms", opt_int (t_duration_ms row));
 ("trigger", JStr (attempt_trigger_value (t_trigger row)));
 ("created_at", JStr (iso_utc (t_created_at row)))]
++ (if staff then [("scheduled_job_run_id", opt_int (t_scheduled_job_run_id row))] else []).
(** [row.delivery_attempts.order_by('-created_at')] *)
Definition attempts_newest_first (outbox_id : uuid) (a : actions_db) : list delivery_attempt :=
sort_by (λ x y, t_created_at y <=? t_created_at x) (filter (λ t, t_outbox_id t = outbox_id) (a_attempts a)).
(** A webhook delivery without a rule has no name to show: [None.name] raises. *)
Definition delivery_payload (include_attempts staff : bool) (a : actions_db) (ix : uuid * action_outbox) :
  exn + list (string * json) :=
let '(i, row) := ix in
match x_action_rule_id row ≫= λ k, a_rules a !! k with
| None => inl AttributeError
| Some rule =>
    inr ([("id", JStr (uuid_str i)); ("company_id", JInt (x_company_id row));
          ("action_rule_id", opt_int (Z.of_N <$> x_action_rule_id row));
          ("action_rule_name", JStr (r_name rule)); ("action_kind", JStr (r_action_kind rule));
          ("event_type", JStr (x_event_type row)); ("status", JStr (outbox_status_value (x_status row)));
          ("attempt_count", JInt (x_attempt_count row)); ("next_attempt_at", utc_or_none (x_next_attempt_at row));
          ("last_error", JStr (x_last_error row)); ("created_at", JStr (iso_utc (x_created_at row)));
          ("updated_at", JStr (iso_utc (x_updated_at row))); ("delivered_at", utc_or_none (x_delivered_at row))]
         ++ (if include_attempts then
               [("attempts", json_list ((λ t, delivery_attempt_payload t staff) <$> attempts_newest_first i a));
                ("envelope", x_envelope row)]
             else []))
end.
End payloads.

(** ** The body of a request that writes a rule ([serializers.py])

    [char_field]: maximal length, whether blank text is allowed, whether it is trimmed. *)
Class Fields := {
  char_field : option Z → bool → bool → json → option string;
  url_field : json → option string;
  boolean_field : json → option bool }.
Record rule_write := RuleWrite {
  rw_name : option string; rw_description : option string; rw_event_type : option string;
  rw_enabled : option bool; rw_url : option string; rw_secret : option string;
  rw_authorization_header : option string; rw_allow_private_urls : option bool }.

(** [None]: invalid; [Some None]: not sent. *)
Definition read_field {A} (required : bool) (parse : json → option A) (k : string)
  (body : list (string * json)) : option (option A) :=
  match dict_get k body with
  | Some v => Some <$> parse v
  | None => if required then None else Some None
  end.
(** [create] tells [ActionRuleCreateSerializer] from [ActionRuleUpdateSerializer]. *)
Definition validate_event_type (create : bool) (value : option string) : option (option string) :=
  match value with
  | Some v => if (create || truthy v) && negb (is_webhook_event REGISTRY v) then None else Some value
  | None => Some None
  end.
Definition ActionRuleWriteSerializer `{Fields} (create : bool) (data : json) : option rule_write :=
  match data with
  | JObj body =>
      name ← read_field create (char_field (Some 200) false true) "name" body;
      description ← read_field false (char_field None true true) "description" body;
      event_type ← read_field create (char_field (Some 128) false true) "event_type" body ≫= validate_event_type create;
      enabled ← read_field false boolean_field "enabled" body;
      url ← read_field false url_field "url" body;
      secret ← read_field false (char_field None true false) "secret" body;
      authorization_header ← read_field false (char_field None true false) "authorization_header" body;
      allow_private_urls ← read_field false boolean_field "allow_private_urls" body;
      Some (RuleWrite name description event_type enabled url secret authorization_header allow_private_urls)
  | _ => None
  end.

(** [_apply_rule_config]: the new configuration; a rule without an address is refused. *)
Definition apply_rule_config (raw : bytes) (existing : list (string * json)) (data : rule_write)
  (actor : principal) (partial : bool) : exn + (response + list (string * json)) :=
  let url := match rw_url data with
             | Some u => Some u
             | None => if partial then None
                       else match dict_get "url" existing with Some (JStr u) => Some u | _ => None end
             end in
  match build_webhook_config raw existing url (rw_secret data) (rw_authorization_header data)
          (rw_allow_private_urls data) (p_is_staff actor) partial with
  | inl UrlRequired => inr (inl (plain_error 400 "Webhook url is required."))
  | inl (Raises e) => inl e
  | inr cfg => inr (inr cfg)
  end.

(** ** Sample payloads ([sample_data.py]) and test deliveries ([webhook_test_send.py]) *)
Section samples.
Context `{DateParser}.

Definition materialize_example (example : json) (unique_values : bool) : prog json :=
if negb unique_values then ret example
else match example with
     | JStr s =>
         if bool_decide (is_Some (parse_uuid s)) then i <- uuid4 ;; ret (JStr (uuid_str i))
         else parsed <- lift_sum (parse_datetime s) ;;
              match parsed with
              | Some _ => t <- now ;; ret (JStr (iso_utc t))
              | None => ret example
              end
     | _ => ret example
     end.
Fixpoint sample_fields (fields : list EventFieldDoc) (unique_values : bool) (data : list (string * json)) :
  prog (list (string * json)) :=
match fields with
| [] => ret data
| f :: fields' =>
    match f_example f with
    | JNull => sample_fields fields' unique_values data
    | example => v <- materialize_example example unique_values ;;
                 sample_fields fields' unique_values (dict_set (f_name f) v data)
    end
end.
Definition payload_data_from_event (event : DomainEventType) (unique_values : bool) :
  prog (list (string * json)) := sample_fields (et_payload_fields event) unique_values [].
Definition sample_envelope (event_type : string) (company_id : Z) (unique_values : bool) :
  prog (list (string * json)) :=
event <- lift_sum (get_event_type REGISTRY event_type) ;;
data <- payload_data_from_event event unique_values ;;
build_envelope event_type (company_context_from_id company_id "" "") data None None None.
End samples.

Section send_test.
Context `{ActionSettings, Utf8, Resolver, Hmac, HttpDate, JsonLoads, DateParser}.
Context (net : network) (err : string) (request_id : string).

(** The result, or the text of the exception.  [err]: the text of those of libraries. *)
Definition send_webhook_test_for_rule (rule : action_rule) (company_id : Z) : prog (string + json) :=
try_except
  (envelope <- sample_envelope (r_event_type rule) company_id true ;;
   t <- now ;;
   match deliver_webhook_action err net (r_config rule) envelope 1 request_id t with
   | inl (inl e) => ret (inl (we_text e))
   | inl (inr text) => ret (inl text)
   | inr _ => ret (inr (JObj [("ok", JBool true); ("webhook_id", opt_json (dict_get "id" envelope));
                              ("event_type", JStr (r_event_type rule))]))
   end)
  (λ _, Some (ret (inl err))).
End send_test.

(** ** Rows of a company *)
Definition find_rule (c : Z) (pk : N) (a : actions_db) : option action_rule :=
  match a_rules a !! pk with
  | Some rule => if r_company_id rule == c then Some rule else None
  | None => None
  end.
(** [.order_by('event_type', 'name')]; rules that tie come in the order of their keys here. *)
Definition rule_le (x y : N * action_rule) : bool :=
  if r_event_type x.2 != r_event_type y.2 then str_le (r_event_type x.2) (r_event_type y.2)
  else if r_name x.2 != r_name y.2 then str_le (r_name x.2) (r_name y.2)
  else (x.1 <=? y.1)%N.
Definition company_rules (c : Z) (a : actions_db) : list (N * action_rule) :=
  sort_by rule_le (filter (λ kr, r_company_id kr.2 = c) (map_to_list (a_rules a))).
(** [.order_by('-created_at', '-id')] *)
Definition delivery_le (x y : uuid * action_outbox) : bool :=
  if x_created_at x.2 =? x_created_at y.2 then (y.1 <=? x.1)%N else x_created_at y.2 <? x_created_at x.2.
Definition company_deliveries (c : Z) (a : actions_db) : list (uuid * action_outbox) :=
  sort_by delivery_le
    (filter (λ kx, x_company_id kx.2 = c ∧ x_delivery_kind kx.2 = KIND_WEBHOOK) (map_to_list (a_outbox a))).
Definition find_delivery (c : Z) (i : uuid) (a : actions_db) : option action_outbox :=
  match a_outbox a !! i with
  | Some row => if (x_company_id row == c) && (x_delivery_kind row == KIND_WEBHOOK) then Some row else None
  | None => None
  end.

(** ** The handlers *)
Definition SUPPORTED_ACTION_KINDS : list string := [ACTION_WEBHOOK].
Definition not_found : response := plain_error 404 "Not found.".

Section handlers.
Context `{ActionSettings, Utf8, Resolver, Hmac, HttpDate, JsonLoads, DateParser, Fields}.
Context (attempt_pk : delivery_attempt → Z) (net : network) (err : string) (request_id : string).

Definition event_entry (company_id : Z) (event : DomainEventType) : prog json :=
envelope <- sample_envelope (et_id event) company_id false ;;
ret (JObj [("type", JStr (et_id event)); ("label", JStr (et_label event));
           ("description", JStr (et_description event)); ("emit_by_default", JBool (et_emit_by_default event));
           ("supported_action_kinds", JList (JStr <$> SUPPORTED_ACTION_KINDS));
           ("payload_fields", JList (event_field_doc_dict <$> et_payload_fields event));
           ("sample_envelope", JObj envelope)]).
Definition ShellUIAdminActionEventsView_get (rq : http_request) : prog response :=
with_company rq (λ _ c,
  results <- map_m (event_entry c) (webhook_event_types REGISTRY) ;;
  ret (ok (JObj [("results", JList results)]))).

Definition ShellUIAdminActionRuleListCreateView_get (rq : http_request) : prog response :=
with_company rq (λ _ c,
  a <- get_actions ;;
  results <- map_m (λ kr, lift_sum (action_rule_payload kr.2 false)) (company_rules c a) ;;
  ret (ok (JObj [("results", json_list results)]))).
Definition ShellUIAdminActionRuleListCreateView_post (raw : bytes) (rq : http_request) : prog response :=
with_company rq (λ actor c,
  match ActionRuleWriteSerializer true (rq_data rq) with
  | None => ret (Response 400 (CJson (JObj [])))
  | Some data =>
      r <- lift_sum (apply_rule_config raw [] data actor false) ;;
      match r with
      | inl cfg_err => ret cfg_err
      | inr config =>
          i <- next_pk ;; t <- now ;;
          let rule := ActionRule i c (default "" (rw_name data)) (default "" (rw_description data))
                        (default "" (rw_event_type data)) (default true (rw_enabled data)) ACTION_WEBHOOK
                        config t t in
          modify_actions (set_rules (insert i rule)) ;;;
          payload <- lift_sum (action_rule_payload rule true) ;;
          ret (Response 201 (CJson (JObj payload)))
      end
  end).

(** [_get_rule]; the key of the row is the one of the address. *)
Definition with_rule (pk : N) (rq : http_request) (k : principal → Z → action_rule → prog response) :
  prog response :=
with_company rq (λ actor c,
  a <- get_actions ;;
  match find_rule c pk a with None => ret not_found | Some rule => k actor c rule end).
Definition save_rule (pk : N) (rule : action_rule) : prog unit := modify_actions (set_rules (insert pk rule)).

Definition ShellUIAdminActionRuleDetailView_get (pk : N) (rq : http_request) : prog response :=
with_rule pk rq (λ _ _ rule,
  payload <- lift_sum (action_rule_payload rule false) ;; ret (ok (JObj payload))).
Definition ShellUIAdminActionRuleDetailView_patch (raw : bytes) (pk : N) (rq : http_request) : prog response :=
with_rule pk rq (λ actor _ rule,
  match ActionRuleWriteSerializer false (rq_data rq) with
  | None => ret (Response 400 (CJson (JObj [])))
  | Some data =>
      r <- lift_sum (apply_rule_config raw (r_config rule) data actor true) ;;
      match r with
      | inl cfg_err => ret cfg_err
      | inr config =>
          t <- now ;;
          let rule' := ActionRule (r_id rule) (r_company_id rule) (default (r_name rule) (rw_name data))
                         (default (r_description rule) (rw_description data))
                         (default (r_event_type rule) (rw_event_type data))
                         (default (r_enabled rule) (rw_enabled data)) ACTION_WEBHOOK config
                         (r_created_at rule) t in
          save_rule pk rule' ;;;
          payload <- lift_sum (action_rule_payload rule' false) ;; ret (ok (JObj payload))
      end
  end).
(** The deliveries of the rule and their attempts go with it. *)
Definition ShellUIAdminActionRuleDetailView_delete (pk : N) (rq : http_request) : prog response :=
with_rule pk rq (λ _ _ _,
  modify_actions (delete_rules_where (λ r, r_id r == pk)) ;;; ret (Response 204 CEmpty)).
Definition ShellUIAdminActionRuleRotateSecretView_post (raw : bytes) (pk : N) (rq : http_request) : prog response :=
with_rule pk rq (λ _ _ rule,
  t <- now ;;
  let config := dict_set "secret" (JStr (generate_webhook_signing_secret raw)) (r_config rule) in
  let rule' := ActionRule (r_id rule) (r_company_id rule) (r_name rule) (r_description rule)
                 (r_event_type rule) (r_enabled rule) (r_action_kind rule) config (r_created_at rule) t in
  save_rule pk rule' ;;;
  payload <- lift_sum (action_rule_payload rule' true) ;; ret (ok (JObj payload))).
Definition ShellUIAdminActionRuleSendTestView_post (pk : N) (rq : http_request) : prog response :=
with_rule pk rq (λ _ c rule,
  if negb (r_enabled rule) then ret (plain_error 400 "Rule is disabled.")
  else
    r <- send_webhook_test_for_rule net err request_id rule c ;;
    match r with
    | inl text => ret (plain_error 400 text)
    | inr result => ret (ok result)
    end).

(** The filters of the delivery list, in the order of the code. *)
Definition status_filter (rq : http_request) : row_filter (uuid * action_outbox) :=
let st := lower (query_param "status" rq) in
if negb (truthy st) then every
else if negb (st in_ STATUS_CHOICES) then refuse 400 "Invalid status."
else where_ (λ ix, outbox_status_value (x_status ix.2) == st).
Definition event_type_filter (rq : http_request) : row_filter (uuid * action_outbox) :=
let event_type := query_param "event_type" rq in
if truthy event_type then where_ (λ ix, x_event_type ix.2 == event_type) else every.
Definition rule_filter (rq : http_request) : row_filter (uuid * action_outbox) :=
let rule_raw := query_param "action_rule_id" rq in
if negb (truthy rule_raw) then every
else match py_int_str 10 rule_raw with
     | None => refuse 400 "Invalid action_rule_id."
     | Some n => where_ (λ ix, (Z.of_N <$> x_action_rule_id ix.2) == Some n)
     end.
(** Deliveries with an attempt of this run: staff only. *)
Definition run_filter (actor : principal) (a : actions_db) (rq : http_request) : row_filter (uuid * action_outbox) :=
let run_raw := query_param "scheduled_job_run_id" rq in
if negb (truthy run_raw) then every
else if negb (p_is_staff actor) then refuse 403 "Forbidden"
else match py_int_str 10 run_raw with
     | None => refuse 400 "Invalid scheduled_job_run_id."
     | Some n => where_ (λ ix, existsb (λ t, (t_scheduled_job_run_id t == Some n) && (t_outbox_id t == ix.1)) (a_attempts a))
     end.
(** [parse_datetime] of a parameter: bad text is refused, an impossible date raises. *)
Definition time_filter {A} (key : string) (test : datetime → A → bool) (rq : http_request) : row_filter A :=
let raw := query_param key rq in
if negb (truthy raw) then every
else match parse_datetime raw with
     | inl e => inl e
     | inr None => refuse 400 ("Invalid " +:+ key +:+ ".")
     | inr (Some t) => where_ (test t)
     end.
Definition delivery_filters (actor : principal) (a : actions_db) (rq : http_request) :
  row_filter (uuid * action_outbox) :=
all_filters
  [status_filter rq; event_type_filter rq; rule_filter rq; run_filter actor a rq;
   time_filter "created_after" (λ t ix, t <=? x_created_at ix.2) rq;
   time_filter "created_before" (λ t ix, x_created_at ix.2 <=? t) rq].

Definition ShellUIAdminActionDeliveryListView_get (rq : http_request) : prog response :=
with_company rq (λ actor c,
  match page_params rq with
  | None => ret (plain_error 400 "Invalid page or page_size.")
  | Some (page, page_size) =>
      a <- get_actions ;;
      r <- lift_sum (delivery_filters actor a rq) ;;
      match r with
      | inl bad => ret bad
      | inr P =>
          let qs := filter (λ ix, P ix = true) (company_deliveries c a) in
          results <- map_m (λ ix, lift_sum (delivery_payload attempt_pk false false a ix)) (page_of page page_size qs) ;;
          ret (paginated page page_size qs (JObj <$> results))
      end
  end).
Definition ShellUIAdminActionDeliveryDetailView_get (delivery_id : uuid) (rq : http_request) : prog response :=
with_company rq (λ actor c,
  a <- get_actions ;;
  match find_delivery c delivery_id a with
  | None => ret not_found
  | Some row =>
      payload <- lift_sum (delivery_payload attempt_pk true (p_is_staff actor) a (delivery_id, row)) ;;
      ret (ok (JObj payload))
  end).
Definition ShellUIAdminActionDeliveryRequeueView_post (delivery_id : uuid) (rq : http_request) : prog response :=
with_company rq (λ _ c,
  a <- get_actions ;;
  match find_delivery c delivery_id a with
  | None => ret not_found
  | Some row =>
      modify_actions (set_outbox (alter requeued_row delivery_id)) ;;;
      payload <- lift_sum (delivery_payload attempt_pk false false a (delivery_id, requeued_row row)) ;;
      ret (ok (JObj payload))
  end).
End handlers.
