(* ===== verification/EventLogApi.v ===== *)
(** * EventLogApi: reading the event log and the scheduled jobs

    [apps/actions/event_log_views.py] and [apps/actions/scheduled_job_views.py], and the
    routes of both and of [AdminApi.v] ([apps/actions/urls.py], [config/urls.py]). *)
From S2P Require Import Prelude PyStr Models PyData Access Quotas Backends Redact Registry Events.
From S2P Require Import Url Ssrf Wire Webhook Delivery Retention Jobs JobHealth Shares Views AdminApi.

(** ** The event log *)
Definition event_label (event_type : string) : string :=
  match get_event_type REGISTRY event_type with inr event => et_label event | inl _ => event_type end.
(** The encoder of the framework writes [created_at] with a Z. *)
Definition event_payload (row : event_log) : list (string * json) :=
  [("id", JInt (Z.of_N (e_id row))); ("company_id", opt_int (e_company_id row));
   ("created_at", JStr (iso_z (e_created_at row))); ("event_type", JStr (e_event_type row));
   ("label", JStr (event_label (e_event_type row))); ("user_id", opt_int (e_user_id row));
   ("user_email", opt_json (dict_get "actor_email" (e_data row))); ("data", JObj (e_data row))].
(** The default order of the rows: newest first. *)
Definition event_le (x y : event_log) : bool :=
  if e_created_at x =? e_created_at y then (e_id y <=? e_id x)%N else e_created_at y <? e_created_at x.
Definition platform_event (row : event_log) : bool :=
  (e_company_id row == None) && (e_event_type row in_ (et_id <$> staff_only_event_types REGISTRY)).
Definition company_event (c : Z) (row : event_log) : bool := e_company_id row == Some c.
Definition events_where (P : event_log → bool) (a : actions_db) : list event_log :=
  sort_by event_le (filter (λ e, P e = true) (a_events a)).

Definition scope_of (rq : http_request) : string :=
  lower (strip (str_or (default "" (last_get "scope" (rq_query rq))) "company")).

Section event_log.
Context `{ActionSettings, DateParser}.

Definition user_filter (rq : http_request) : row_filter event_log :=
let uid := query_param "user_id" rq in
if negb (truthy uid) then every
else match py_int_str 10 uid with
     | None => refuse 400 "Invalid user_id."
     | Some n => where_ (λ e, e_user_id e == Some n)
     end.
(** [data__actor_email__icontains] *)
Definition email_filter (rq : http_request) : row_filter event_log :=
let email := query_param "user" rq in
if negb (truthy email) then every
else where_ (λ e, match dict_get "actor_email" (e_data e) with
                  | Some (JStr s) => contains (lower email) (lower s)
                  | _ => false
                  end).
Definition types_filter (rq : http_request) : row_filter event_log :=
let types := filter (λ t, truthy t = true)
               (strip <$> split_char "," (default "" (last_get "event_type" (rq_query rq)))) in
if bool_decide (types = []) then every
else if negb (forallb (is_registered_event REGISTRY) types) then refuse 400 "Invalid event_type."
else where_ (λ e, e_event_type e in_ types).
Definition event_filters (rq : http_request) : row_filter event_log :=
all_filters
  [user_filter rq; email_filter rq; types_filter rq;
   time_filter "created_after" (λ t e, t <=? e_created_at e) rq;
   time_filter "created_before" (λ t e, e_created_at e <? t) rq].

(** The scope of the request: [inl] a refusal, [inr true] platform events. *)
Definition check_scope (actor : principal) (rq : http_request) : response + bool :=
let scope := scope_of rq in
if negb (scope in_ ["company"; "platform"]) then inl (plain_error 400 "Invalid scope.")
else if (scope == "platform") && negb (p_is_staff actor) then inl (plain_error 403 "Forbidden")
else inr (scope == "platform").

Definition ShellUIAdminEventLogListView_get (rq : http_request) : prog response :=
with_company rq (λ actor c,
  match check_scope actor rq with
  | inl bad => ret bad
  | inr platform =>
      match page_params rq with
      | None => ret (plain_error 400 "Invalid page or page_size.")
      | Some (page, page_size) =>
          a <- get_actions ;;
          r <- (if platform then ret (inr platform_event)
                else f <- lift_sum (event_filters rq) ;;
                     ret (match f with inl bad => inl bad | inr P => inr (λ e, company_event c e && P e) end)) ;;
          match r with
          | inl bad => ret bad
          | inr P =>
              let qs := events_where P a in
              ret (paginated page page_size qs (JObj <$> (event_payload <$> page_of page page_size qs)))
          end
      end
  end).
Definition ShellUIAdminEventLogDetailView_get (pk : N) (rq : http_request) : prog response :=
with_company rq (λ actor c,
  match check_scope actor rq with
  | inl bad => ret bad
  | inr platform =>
      a <- get_actions ;;
      let P e := (if platform then platform_event e else company_event c e) && (e_id e == pk) in
      match events_where P a with
      | [] => ret not_found
      | row :: _ => ret (ok (JObj (event_payload row)))
      end
  end).
Definition ShellUIAdminEventLogTypesView_get (rq : http_request) : prog response :=
with_company rq (λ _ _,
  ret (ok (JObj [("results", json_list
    ((λ e, [("type", JStr (et_id e)); ("label", JStr (et_label e)); ("description", JStr (et_description e));
            ("webhook", JBool (et_webhook e))])
     <$> filter (λ e, et_emit_by_default e = true) (company_event_types REGISTRY)))]))).
Definition ShellUIAdminEventLogRetentionView_get (rq : http_request) : prog response :=
with_company rq (λ _ c, t <- now ;; a <- get_actions ;; ret (ok (JObj (retention_status c t a)))).
End event_log.

(** ** The scheduled jobs: staff only, not tied to a company *)
Definition DEFAULT_RUNS_LIMIT : Z := 20.
Definition MAX_RUNS_LIMIT : Z := 100.
Definition MAX_CORRELATED : nat := 100.
Definition RUN_STATUS_CHOICES : list string :=
  run_status_value <$> [STATUS_RUNNING; STATUS_SUCCEEDED; STATUS_RUN_FAILED; STATUS_SKIPPED_LOCKED].
(** [_require_platform_staff], after the permission class. *)
Definition with_platform_staff (rq : http_request) (k : prog response) : prog response :=
  with_principal rq (λ p, if negb (p_is_staff p) then ret (plain_error 403 "Forbidden") else k).

Section job_views.
(** The scheduler setting, the answer to a PING, the heartbeat of beat, and the primary keys
  of attempts. *)
Context (enabled : bool) (redis : option bool) (beat : option datetime) (attempt_pk : delivery_attempt → Z).

Definition ScheduledJobsView_get (rq : http_request) : prog response :=
with_platform_staff rq (v <- jobs_overview enabled redis beat ;; ret (ok v)).
Definition ScheduledJobRunsView_get (job : string) (rq : http_request) : prog response :=
with_platform_staff rq
  (if negb (job in_ (js_name <$> JOBS)) then ret not_found
   else match query_int "limit" DEFAULT_RUNS_LIMIT rq with
        | None => ret (plain_error 400 "Invalid limit.")
        | Some n =>
            let limit := Z.min MAX_RUNS_LIMIT (Z.max 1 n) in
            let st := lower (query_param "status" rq) in
            if truthy st && negb (st in_ RUN_STATUS_CHOICES) then ret (plain_error 400 "Invalid status.")
            else
              a <- get_actions ;;
              let qs := runs_of job (λ r, negb (truthy st) || (run_status_value (n_status r) == st)) a in
              ret (ok (JObj [("job", JStr job);
                             ("results", json_list (run_payload <$> take (Z.to_nat limit) qs))]))
        end).

(** The attempts of a run at webhooks, with their deliveries; the mails it tried. *)
Definition webhook_attempts_of (run : N) (a : actions_db) : list (delivery_attempt * action_outbox) :=
sort_by (λ x y, t_created_at x.1 <=? t_created_at y.1)
  (omap (λ t, match a_outbox a !! t_outbox_id t with
              | Some row => if (t_scheduled_job_run_id t == Some (Z.of_N run)) && (x_delivery_kind row == KIND_WEBHOOK)
                            then Some (t, row) else None
              | None => None
              end) (a_attempts a)).
Definition oldest_first (x y : uuid * action_outbox) : bool :=
if x_created_at x.2 =? x_created_at y.2 then (x.1 <=? y.1)%N else x_created_at x.2 <? x_created_at y.2.
Definition emails_of (run : N) (a : actions_db) : list (uuid * action_outbox) :=
sort_by oldest_first
  (filter (λ ix, (x_delivery_kind ix.2 == KIND_EMAIL)
                 && existsb (λ t, (t_outbox_id t == ix.1) && (t_scheduled_job_run_id t == Some (Z.of_N run))) (a_attempts a)
                 = true) (map_to_list (a_outbox a))).
Definition attempt_entry (tx : delivery_attempt * action_outbox) : list (string * json) :=
let '(t, row) := tx in
[("id", JInt (attempt_pk t)); ("delivery_id", JStr (uuid_str (t_outbox_id t)));
 ("company_id", JInt (x_company_id row)); ("event_type", JStr (x_event_type row));
 ("status", JStr (attempt_status_value (t_status t))); ("http_status", opt_int (t_http_status t));
 ("attempt_number", JInt (t_attempt_number t)); ("duration_ms", opt_int (t_duration_ms t));
 ("trigger", JStr (attempt_trigger_value (t_trigger t))); ("created_at", JStr (iso_utc (t_created_at t)))].
Definition email_entry (ix : uuid * action_outbox) : list (string * json) :=
let '(i, row) := ix in
[("id", JStr (uuid_str i)); ("company_id", JInt (x_company_id row)); ("event_type", JStr (x_event_type row));
 ("status", JStr (outbox_status_value (x_status row))); ("attempt_count", JInt (x_attempt_count row));
 ("delivered_at", utc_or_none (x_delivered_at row))].
Definition ScheduledJobRunDetailView_get (pk : N) (rq : http_request) : prog response :=
with_platform_staff rq
  (a <- get_actions ;;
   match a_runs a !! pk with
   | None => ret not_found
   | Some run =>
       let attempts := webhook_attempts_of pk a in
       let emails := emails_of pk a in
       ret (ok (JObj (run_payload run ++
         [("webhook_delivery_attempts", json_list (attempt_entry <$> take MAX_CORRELATED attempts));
          ("webhook_delivery_attempts_truncated", JBool (MAX_CORRELATED <? length attempts)%nat);
          ("email_events", json_list (email_entry <$> take MAX_CORRELATED emails));
          ("email_events_truncated", JBool (MAX_CORRELATED <? length emails)%nat)])))
   end).
End job_views.

(** ** Routes *)
Inductive admin_endpoint :=
| EventsList | RulesList | RulesCreate | RuleGet (pk : N) | RulePatch (pk : N) | RuleDelete (pk : N)
| RuleSendTest (pk : N) | RuleRotateSecret (pk : N)
| DeliveriesList | DeliveryGet (i : uuid) | DeliveryRequeue (i : uuid)
| EventLogList | EventLogGet (pk : N) | EventLogTypes | EventLogRetention.

Section routes.
Context `{ActionSettings, Utf8, Resolver, Hmac, HttpDate, JsonLoads, DateParser, Fields}.
Context (attempt_pk : delivery_attempt → Z) (net : network) (err request_id : string) (raw : bytes).

Definition admin_dispatch (e : admin_endpoint) : http_request → prog response :=
match e with
| EventsList => ShellUIAdminActionEventsView_get
| RulesList => ShellUIAdminActionRuleListCreateView_get
| RulesCreate => ShellUIAdminActionRuleListCreateView_post raw
| RuleGet pk => ShellUIAdminActionRuleDetailView_get pk
| RulePatch pk => ShellUIAdminActionRuleDetailView_patch raw pk
| RuleDelete pk => ShellUIAdminActionRuleDetailView_delete pk
| RuleSendTest pk => ShellUIAdminActionRuleSendTestView_post net err request_id pk
| RuleRotateSecret pk => ShellUIAdminActionRuleRotateSecretView_post raw pk
| DeliveriesList => ShellUIAdminActionDeliveryListView_get attempt_pk
| DeliveryGet i => ShellUIAdminActionDeliveryDetailView_get attempt_pk i
| DeliveryRequeue i => ShellUIAdminActionDeliveryRequeueView_post attempt_pk i
| EventLogList => ShellUIAdminEventLogListView_get
| EventLogGet pk => ShellUIAdminEventLogDetailView_get pk
| EventLogTypes => ShellUIAdminEventLogTypesView_get
| EventLogRetention => ShellUIAdminEventLogRetentionView_get
end.
End routes.
