(* ===== verification/AdminSpec.v ===== *)
(** * AdminSpec: an administrator's request is confined to one company

    [company_view] erases from the world all that does not belong to a company.  The theorem
    runs a request on the world and on the view: the answers are the same, and the view of
    the result is the result on the view, so nothing the handler does depends on the rows
    of another company; and those rows are unchanged. *)
From S2P Require Import Prelude PyStr Models PyData Access Quotas Backends Redact Registry Events.
From S2P Require Import Url Ssrf Wire Webhook Delivery Retention RuleConfig Deletion Shares Views AdminApi EventLogApi.

(** ** The rows of a company *)
Definition own_attempt (c : Z) (a : actions_db) (t : delivery_attempt) : bool :=
  from_option (λ x, x_company_id x == c) false (a_outbox a !! t_outbox_id t).
Definition own_event (c : Z) (platform : bool) (e : event_log) : bool :=
  company_event c e || (platform && (e_company_id e == None)).
(** Staff also see the events of no company. *)
Definition own_actions (c : Z) (platform : bool) (a : actions_db) : actions_db :=
  ActionsDb (filter (λ kr, r_company_id kr.2 = c) (a_rules a)) (filter (λ kx, x_company_id kx.2 = c) (a_outbox a))
    (filter (λ t, own_attempt c a t = true) (a_attempts a)) (filter (λ e, own_event c platform e = true) (a_events a))
    [] ∅ ∅ ∅ ∅ (a_next_id a).
Definition company_view (c : Z) (platform : bool) (w : world) : world :=
  World (Db ∅ ∅ ∅ ∅ ∅ ∅ (own_actions c platform (acts w))) ∅ (w_now w) (w_next_uuid w).

(** Rows of other companies, and all other tables, stay. *)
Record others_kept (c : Z) (w w' : world) : Prop := OthersKept {
  ot_storage : set_actions (λ _, acts w) (w_db w') = w_db w;
  ot_blobs : w_blobs w' = w_blobs w;
  ot_now : w_now w' = w_now w;
  ot_events : a_events (acts w') = a_events (acts w);
  ot_on_commit : a_on_commit (acts w') = a_on_commit (acts w);
  ot_jobs : (a_runs (acts w'), a_states (acts w'), a_counters (acts w')) =
            (a_runs (acts w), a_states (acts w), a_counters (acts w));
  ot_deletions : a_deletions (acts w') = a_deletions (acts w);
  ot_rules i r : r_company_id r ≠ c → a_rules (acts w') !! i = Some r ↔ a_rules (acts w) !! i = Some r;
  ot_outbox i x : x_company_id x ≠ c → a_outbox (acts w') !! i = Some x ↔ a_outbox (acts w) !! i = Some x;
  ot_attempts t x : a_outbox (acts w) !! t_outbox_id t = Some x → x_company_id x ≠ c →
    t ∈ a_attempts (acts w') ↔ t ∈ a_attempts (acts w) }.
Lemma others_refl c w : others_kept c w w.
Proof. split; try done. by destruct w as [[] ? ? ?]. Qed.
Lemma others_trans c w1 w2 w3 : others_kept c w1 w2 → others_kept c w2 w3 → others_kept c w1 w3.
Proof.
  intros [S1 B1 N1 E1 C1 J1 D1 R1 X1 T1] [S2 B2 N2 E2 C2 J2 D2 R2 X2 T2]. split; try congruence.
  - rewrite <- S1, <- S2. done.
  - intros i r Hr. by rewrite R2, R1.
  - intros i x Hx. by rewrite X2, X1.
  - intros t x Ht Hx. rewrite (T2 t x), (T1 t x); [done|done|done| |done]. by apply X1.
Qed.

(** The keys of rules are fresh below the counter, rows are found under their ids, and
    a delivery belongs to the company of its rule. *)
Record rules_ok (a : actions_db) : Prop := RulesOk {
  ro_next i : is_Some (a_rules a !! i) → (i < a_next_id a)%N;
  ro_id i r : a_rules a !! i = Some r → r_id r = i;
  ro_rule i x k r : a_outbox a !! i = Some x → x_action_rule_id x = Some k → a_rules a !! k = Some r →
    r_company_id r = x_company_id x }.

Section confined.
Context (c : Z) (pl : bool).
Abbreviation view := (company_view c pl).
Abbreviation own := (own_actions c pl).

(** The program does the same on the view. *)
Definition confined {A} (m : prog A) (w : world) : Prop :=
m (view w) = ((m w).1, view (m w).2) ∧ others_kept c w (m w).2.

Lemma confined_ret {A} (x : A) w : confined (ret x) w.
Proof. split; [done|apply others_refl]. Qed.
Lemma confined_raise {A} e w : confined (raise (A := A) e) w.
Proof. split; [done|apply others_refl]. Qed.
Lemma confined_lift {A} (r : exn + A) w : confined (lift_sum r) w.
Proof. destruct r; [apply confined_raise|apply confined_ret]. Qed.
Lemma confined_bind {A B} (m : prog A) (k : A → prog B) w :
confined m w → (∀ x w', m w = (inr x, w') → confined (k x) w') → confined (bind m k) w.
Proof.
intros [Hm Ho] Hk. unfold confined, bind. rewrite Hm. destruct (m w) as [[e|x] w'] eqn:Hw; simpl in *; [done|].
destruct (Hk x w' eq_refl) as [Hk1 Hk2]. split; [exact Hk1|]. by eapply others_trans.
Qed.
Lemma confined_bind_lift {A B} (r : exn + A) (k : A → prog B) w :
(∀ x, r = inr x → confined (k x) w) → confined (bind (lift_sum r) k) w.
Proof. intros Hk. destruct r as [e|x]; [apply (confined_raise e w)|by apply (Hk x)]. Qed.
Lemma confined_bind_now {B} (k : datetime → prog B) w : confined (k (w_now w)) w → confined (bind now k) w.
Proof. done. Qed.
Lemma confined_now w : confined now w.
Proof. split; [done|apply others_refl]. Qed.
Lemma confined_uuid4 w : confined uuid4 w.
Proof. split; [done|]. destruct (others_refl c w). by split. Qed.
Lemma confined_map_m {A B} (f : A → prog B) l w :
(∀ x w', x ∈ l → confined (f x) w') → confined (map_m f l) w.
Proof.
revert w. induction l as [|x l IH]; intros w Hf; simpl; [apply confined_ret|].
apply confined_bind; [apply Hf; by left|]. intros y w' _. apply confined_bind; [|intros; apply confined_ret].
apply IH. intros z w2 Hz. apply Hf. by right.
Qed.
Lemma confined_try {A} (m : prog A) h w :
confined m w → (∀ e m' w', h e = Some m' → confined m' w') → confined (try_except m h) w.
Proof.
intros [Hm Ho] Hh. unfold confined, try_except. rewrite Hm. destruct (m w) as [[e|x] w'] eqn:Hw; simpl in *; [|done].
destruct (h e) as [m'|] eqn:He; [|done]. destruct (Hh e m' w' He) as [H1 H2]. split; [exact H1|]. by eapply others_trans.
Qed.
(** What is read from the tables must be in the view. *)
Lemma confined_read {B} (k : actions_db → prog B) w :
(∀ w', k (own (acts w)) w' = k (acts w) w') → confined (k (acts w)) w → confined (bind get_actions k) w.
Proof.
intros Hk [H1 H2]. split; [|exact H2]. unfold bind, get_actions, gets. simpl. rewrite Hk. exact H1.
Qed.
Lemma confined_modify f w : own (f (acts w)) = f (own (acts w)) →
others_kept c w (set_db (set_actions f) w) → confined (modify_actions f) w.
Proof.
intros Hf Ho. split; [|exact Ho]. unfold modify_actions, modify_db, modify. simpl. f_equal.
unfold company_view, set_db, set_actions. simpl. f_equal. f_equal. symmetry. exact Hf.
Qed.
Lemma confined_next_pk w : confined next_pk w.
Proof.
split; [done|]. destruct (others_refl c w). by split.
Qed.
End confined.

(** ** What the handlers read is in the view *)
Lemma rule_le_total x y : rule_le x y = true ∨ rule_le y x = true.
Proof.
  unfold rule_le. case_bools; simpl; try congruence; try (apply String.leb_total). rewrite !N.leb_le. lia.
Qed.
(** [rule_le] in terms of the strict order of strings. *)
Lemma rule_le_iff x y : rule_le x y = true ↔
  str_lt (r_event_type x.2) (r_event_type y.2) ∨
  r_event_type x.2 = r_event_type y.2 ∧
    (str_lt (r_name x.2) (r_name y.2) ∨ r_name x.2 = r_name y.2 ∧ (x.1 <= y.1)%N).
Proof.
  unfold rule_le. split.
  - intros Hle. case_bools; simpl in Hle; rewrite ?str_le_lt, ?N.leb_le in Hle; naive_solver.
  - intros [Hlt|[He [Hlt|[Hn Hk]]]]; rewrite ?He, ?Hn.
    + rewrite bool_decide_false; [|intros Heq; rewrite Heq in Hlt; by eapply str_lt_irrefl].
      simpl. apply str_le_lt. by left.
    + rewrite bool_decide_true by done. simpl.
      rewrite bool_decide_false; [|intros Heq; rewrite Heq in Hlt; by eapply str_lt_irrefl].
      simpl. apply str_le_lt. by left.
    + rewrite !bool_decide_true by done. simpl. by apply N.leb_le.
Qed.
Lemma rule_le_trans x y z : rule_le x y = true → rule_le y z = true → rule_le x z = true.
Proof.
  rewrite !rule_le_iff. intros [H1|[E1 [H1|[N1 K1]]]] [H2|[E2 [H2|[N2 K2]]]]; rewrite ?E1, ?E2, ?N1, ?N2 in *;
    eauto using str_lt_trans.
  right. split; [done|]. right. split; [done|]. lia.
Qed.
Lemma rule_le_key x y : rule_le x y = true → rule_le y x = true → x.1 = y.1.
Proof.
  rewrite !rule_le_iff. intros [H1|[E1 [H1|[N1 K1]]]] [H2|[E2 [H2|[N2 K2]]]]; rewrite ?E1, ?E2, ?N1, ?N2 in *;
    try (exfalso; eapply str_lt_irrefl; eauto using str_lt_trans; fail). lia.
Qed.
Ltac delivery_order := unfold delivery_le; intros;
  repeat match goal with
  | |- context [?p =? ?q] => destruct (Z.eqb_spec p q)
  | H : context [?p =? ?q] |- _ => destruct (Z.eqb_spec p q)
  end; rewrite ?Z.ltb_lt, ?N.leb_le in *; lia.
Lemma delivery_le_total x y : delivery_le x y = true ∨ delivery_le y x = true.
Proof. delivery_order. Qed.
Lemma delivery_le_trans x y z : delivery_le x y = true → delivery_le y z = true → delivery_le x z = true.
Proof. delivery_order. Qed.
Lemma delivery_le_key x y : delivery_le x y = true → delivery_le y x = true → x.1 = y.1.
Proof. delivery_order. Qed.

(** Sorted rows of a table do not change when rows that are filtered out are erased. *)
Lemma sorted_view {A} (le : N * A → N * A → bool) (P Q : N * A → Prop) `{∀ x, Decision (P x), ∀ x, Decision (Q x)}
  (m : gmap N A) :
  (∀ x y, le x y = true ∨ le y x = true) → (∀ x y z, le x y = true → le y z = true → le x z = true) →
  (∀ x y, le x y = true → le y x = true → x.1 = y.1) → (∀ x, P x → Q x) →
  sort_by le (filter P (map_to_list (filter Q m))) = sort_by le (filter P (map_to_list m)).
Proof.
  intros Htot Htr Hkey HPQ. apply sort_by_unique; [done|done| |].
  - intros [i x] [j y] Hx Hy H1 H2. apply list_elem_of_filter in Hx as [_ Hx], Hy as [_ Hy].
    apply elem_of_map_to_list in Hx, Hy. pose proof (Hkey _ _ H1 H2) as Hij. simpl in Hij. subst. congruence.
  - apply list.NoDup_Permutation; [apply NoDup_filter, NoDup_map_to_list..|].
    intros [i x]. rewrite !list_elem_of_filter, !elem_of_map_to_list, map_lookup_filter_Some. naive_solver.
Qed.

Lemma lookup_filter_if {A} (P : N * A → Prop) `{∀ x, Decision (P x)} (m : gmap N A) i :
  filter P m !! i = match m !! i with Some x => if decide (P (i, x)) then Some x else None | None => None end.
Proof.
  destruct (m !! i) as [x|] eqn:Hi.
  - destruct (decide (P (i, x))) as [HP|HP]; [by apply map_lookup_filter_Some|].
    apply map_lookup_filter_None. right. intros y Hy. by simplify_eq.
  - apply map_lookup_filter_None. by left.
Qed.

Section reads.
Context (c : Z) (pl : bool) (a : actions_db).
Abbreviation own := (own_actions c pl a).

Lemma own_rule i r : r_company_id r = c → a_rules own !! i = Some r ↔ a_rules a !! i = Some r.
Proof. intros Hr. simpl. rewrite map_lookup_filter_Some. simpl. naive_solver. Qed.
Lemma find_rule_own pk : find_rule c pk own = find_rule c pk a.
Proof.
unfold find_rule. cbn [own_actions a_rules]. rewrite lookup_filter_if. cbn [fst snd].
destruct (a_rules a !! pk) as [r|]; [|done]. case_decide as Hr; [done|]. by rewrite (bool_decide_false _ Hr).
Qed.
Lemma find_delivery_own i : find_delivery c i own = find_delivery c i a.
Proof.
unfold find_delivery. cbn [own_actions a_outbox]. rewrite lookup_filter_if. cbn [fst snd].
destruct (a_outbox a !! i) as [x|]; [|done]. case_decide as Hx; [done|]. by rewrite (bool_decide_false _ Hx).
Qed.
Lemma find_delivery_Some i x : find_delivery c i a = Some x → a_outbox a !! i = Some x ∧ x_company_id x = c.
Proof.
unfold find_delivery. destruct (a_outbox a !! i) as [y|]; [|done]. case_bools; naive_solver.
Qed.
Lemma find_rule_Some i r : find_rule c i a = Some r → a_rules a !! i = Some r ∧ r_company_id r = c.
Proof. unfold find_rule. destruct (a_rules a !! i) as [y|]; [|done]. case_bools; naive_solver. Qed.
Lemma company_rules_own : company_rules c own = company_rules c a.
Proof.
apply sorted_view; [apply rule_le_total|apply rule_le_trans|apply rule_le_key|]. naive_solver.
Qed.
Lemma company_deliveries_own : company_deliveries c own = company_deliveries c a.
Proof.
apply sorted_view; [apply delivery_le_total|apply delivery_le_trans|apply delivery_le_key|]. naive_solver.
Qed.
Lemma elem_of_deliveries ix : ix ∈ company_deliveries c a →
a_outbox a !! ix.1 = Some ix.2 ∧ x_company_id ix.2 = c.
Proof.
unfold company_deliveries. rewrite elem_of_sort_by, list_elem_of_filter. destruct ix as [i x].
rewrite elem_of_map_to_list. naive_solver.
Qed.
Lemma own_attempts i x : a_outbox a !! i = Some x → x_company_id x = c →
filter (λ t, t_outbox_id t = i) (a_attempts own) = filter (λ t, t_outbox_id t = i) (a_attempts a).
Proof.
intros Hi Hx. simpl. rewrite list_filter_filter. apply list_filter_iff. intros t. split; [naive_solver|].
intros Ht. split; [done|]. unfold own_attempt. rewrite Ht, Hi. by apply bool_decide_eq_true.
Qed.
Lemma delivery_payload_own pkf att staff i x : rules_ok a → a_outbox a !! i = Some x → x_company_id x = c →
∀ x', x_action_rule_id x' = x_action_rule_id x →
delivery_payload pkf att staff own (i, x') = delivery_payload pkf att staff a (i, x').
Proof.
intros Hok Hi Hx x' Hr. unfold delivery_payload, attempts_newest_first. rewrite (own_attempts i x Hi Hx), Hr.
destruct (x_action_rule_id x) as [k|] eqn:Hk; [|done]. cbn [own_actions a_rules mbind option_bind].
rewrite lookup_filter_if. cbn [fst snd]. destruct (a_rules a !! k) as [r|] eqn:Hkr; [|done].
case_decide as Hc; [done|]. exfalso. apply Hc. rewrite (ro_rule a Hok i x k r); done.
Qed.
Lemma events_where_own P : (∀ e, P e = true → own_event c pl e = true) → events_where P own = events_where P a.
Proof.
intros HP. unfold events_where. simpl. rewrite list_filter_filter. f_equal. apply list_filter_iff. naive_solver.
Qed.
Lemma retention_status_own `{ActionSettings} t : retention_status c t own = retention_status c t a.
Proof.
unfold retention_status. simpl. rewrite list_filter_filter.
rewrite (list_filter_iff (λ e, e_company_id e = Some c ∧ own_event c pl e = true) (λ e, e_company_id e = Some c)); [done|].
intros e. split; [naive_solver|]. intros He. split; [done|]. unfold own_event, company_event. by rewrite bool_decide_true.
Qed.

(** Filters that agree on the rows of the company. *)
Definition same_filter {A} (Q : A → Prop) (f g : row_filter A) : Prop :=
match f, g with
| inr (inr P), inr (inr P') => ∀ x, Q x → P x = P' x
| _, _ => f = g
end.
Lemma same_filter_refl {A} (Q : A → Prop) f : same_filter Q f f.
Proof. by destruct f as [|[]]. Qed.
Lemma all_filters_same {A} (Q : A → Prop) l l' : Forall2 (same_filter Q) l l' →
same_filter Q (all_filters l) (all_filters l').
Proof.
induction 1 as [|f g l l' Hfg _ IH]; [apply same_filter_refl|]. simpl.
destruct f as [|[|P]], g as [|[|P']]; simpl in Hfg; try (simplify_eq; apply same_filter_refl).
destruct (all_filters l) as [|[|R]], (all_filters l') as [|[|R']]; simpl in IH |- *; try done.
intros x Hx. by rewrite Hfg, IH.
Qed.
Lemma delivery_filters_own `{DateParser} p rq :
same_filter (λ ix, ix ∈ company_deliveries c a) (delivery_filters p own rq) (delivery_filters p a rq).
Proof.
apply all_filters_same. repeat (constructor; [try apply same_filter_refl|]); [|constructor].
unfold run_filter. repeat case_match; try apply same_filter_refl. intros ix Hix.
apply elem_of_deliveries in Hix as [Hi Hc]. apply eq_true_iff_eq. rewrite !existsb_exists.
split; intros (t & Ht & Hp); exists t; (split; [|exact Hp]);
  apply list_elem_of_In in Ht; apply list_elem_of_In; simpl in *.
- by apply list_elem_of_filter in Ht as [_ ?].
- apply list_elem_of_filter. split; [|done]. apply andb_true_iff in Hp as [_ Hp].
  apply bool_decide_eq_true in Hp. unfold own_attempt. rewrite Hp, Hi. by apply bool_decide_eq_true.
Qed.
End reads.
Lemma map_m_ext {S E A B} (f g : A → M S E B) l : (∀ x, x ∈ l → f x = g x) → map_m f l = map_m g l.
Proof.
induction l as [|x l IH]; intros Hfg; simpl; [done|]. rewrite Hfg by left. rewrite IH; [done|].
intros y Hy. apply Hfg. by right.
Qed.

(** ** Every handler is confined *)
Definition may_administer (p : principal) (c : Z) : Prop :=
  p_is_staff p = true ∨ p_is_company_owner p = true ∧ (p_company_id p = None ∨ p_company_id p = Some c).
(** The caller and the company the request is for. *)
Definition admitted (rq : http_request) (p : principal) (c : Z) : Prop :=
  rq_user rq = Some p ∧ company_id_from_request rq p = inr (Some c) ∧ may_administer p c.
Lemma with_company_admitted rq p c k : admitted rq p c → with_company rq k = k p c.
Proof.
  intros (Hu & Hc & Hm). unfold with_company, with_administrator, with_principal, require_staff_or_company_owner.
  rewrite Hu, Hc. unfold is_staff_or_company_owner. destruct Hm as [Hs|[Ho Hco]]; [|].
  - rewrite Hs, andb_false_r. simpl. done.
  - rewrite Ho, orb_true_r. destruct Hco as [->| ->]; simpl; [done|]. by rewrite bool_decide_true.
Qed.
Lemma with_company_refused rq k w : (∀ p c, ¬ admitted rq p c) →
  with_company rq k w = (inl AttributeError, w) ∨
  ∃ resp, with_company rq k w = (inr resp, w) ∧ (rs_status resp = 400 ∨ rs_status resp = 401 ∨ rs_status resp = 403).
Proof.
  intros Hno. unfold with_company, with_administrator, with_principal, require_staff_or_company_owner.
  destruct (rq_user rq) as [p|] eqn:Hu; [|right; eexists; split; [done|]; auto].
  destruct (is_staff_or_company_owner p) eqn:Hs; [|right; eexists; split; [done|]; auto].
  destruct (company_id_from_request rq p) as [e|[c|]] eqn:Hc; [| |right; eexists; split; [done|]; auto].
  - left. unfold company_id_from_request in Hc. destruct (last_get _ _); [done|]. destruct (rq_data rq); by simplify_eq.
  - destruct (from_option _ false (p_company_id p) && negb (p_is_staff p)) eqn:Hd.
    { right. eexists. split; [done|]. auto. }
    destruct (Hno p c). split; [done|]. split; [done|]. unfold may_administer, is_staff_or_company_owner in *.
    apply orb_true_iff in Hs as [?|Hs]; [by left|]. destruct (p_is_staff p); [by left|]. right. split; [done|].
    destruct (p_company_id p) as [tc|]; [right|by left]. simpl in Hd. rewrite andb_true_r in Hd.
    apply negb_false_iff, bool_decide_eq_true in Hd. by subst.
Qed.

Lemma actions_eq a b :
  a_rules a = a_rules b → a_outbox a = a_outbox b → a_attempts a = a_attempts b → a_events a = a_events b →
  a_on_commit a = a_on_commit b → a_runs a = a_runs b → a_states a = a_states b → a_counters a = a_counters b →
  a_deletions a = a_deletions b → a_next_id a = a_next_id b → a = b.
Proof. destruct a, b. simpl. by intros -> -> -> -> -> -> -> -> -> ->. Qed.
(** The deliveries that the deletion of a rule takes along. *)
Definition delivery_gone (pk : N) (a : actions_db) (x : action_outbox) : bool :=
  from_option (λ i, from_option (λ r, r_id r == pk) false (a_rules a !! i)) false (x_action_rule_id x).

(** Take a program of reads and draws apart. *)
Ltac conf :=
  repeat first
    [ apply confined_ret | apply confined_raise | apply confined_lift | apply confined_now
    | apply confined_uuid4 | apply confined_bind; [|intros ? ? _] ].

Section handlers_confined.
Context `{ActionSettings, Utf8, Resolver, Hmac, HttpDate, JsonLoads, DateParser, Fields}.
Context (pkf : delivery_attempt → Z) (net : network) (err request_id : string) (raw : bytes).
Context (c : Z) (pl : bool).
Abbreviation conf_at := (confined c pl).

Lemma confined_sample_fields fields unique data w : conf_at (sample_fields fields unique data) w.
Proof.
revert data w. induction fields as [|f fields IH]; intros data w; cbn [sample_fields]; [conf|].
assert (Hex : ∀ v w, conf_at (materialize_example v unique) w).
{ intros v w1. unfold materialize_example. destruct unique; [|apply confined_ret].
  destruct v; try apply confined_ret. cbn [negb]. case_bool_decide; conf. case_match; conf. }
destruct (f_example f); try apply IH; (apply confined_bind; [apply Hex|intros; apply IH]).
Qed.
Lemma confined_sample_envelope et k unique w : conf_at (sample_envelope et k unique) w.
Proof.
unfold sample_envelope, payload_data_from_event. apply confined_bind; [conf|intros event w1 _].
apply confined_bind; [apply confined_sample_fields|intros data w2 _]. unfold build_envelope. conf.
Qed.
Lemma confined_events p w : conf_at (results <- map_m (event_entry p) (webhook_event_types REGISTRY) ;;
  ret (ok (JObj [("results", JList results)]))) w.
Proof.
apply confined_bind; [|intros; conf]. apply confined_map_m. intros event w1 _. unfold event_entry.
apply confined_bind; [apply confined_sample_envelope|intros; conf].
Qed.
Lemma confined_send_test rule w : conf_at (send_webhook_test_for_rule net err request_id rule c) w.
Proof.
unfold send_webhook_test_for_rule. apply confined_try; [|intros e m' w' [= <-]; conf].
apply confined_bind; [apply confined_sample_envelope|intros envelope w1 _].
apply confined_bind; [conf|intros t w2 _]. repeat case_match; conf.
Qed.

(** A handler that looks a rule up goes on with a rule of the company. *)
Lemma confined_rule pk k w :
(∀ rule, a_rules (acts w) !! pk = Some rule → r_company_id rule = c → conf_at (k rule) w) →
conf_at (a <- get_actions ;; match find_rule c pk a with None => ret not_found | Some rule => k rule end) w.
Proof.
intros Hk. apply confined_read; [intros; by rewrite find_rule_own|].
destruct (find_rule c pk (acts w)) as [rule|] eqn:Hr; [|conf]. apply find_rule_Some in Hr as [? ?]. by apply Hk.
Qed.
Lemma confined_set_rule i rule w : r_company_id rule = c →
(∀ r, a_rules (acts w) !! i = Some r → r_company_id r = c) →
conf_at (modify_actions (set_rules (insert i rule))) w.
Proof.
intros Hc Hold. apply confined_modify.
- unfold own_actions, set_rules. simpl. f_equal. by rewrite map_filter_insert_True.
- destruct (others_refl c w). split; try done.
  intros j r Hr. unfold set_rules. simpl. destruct (decide (i = j)) as [<-|Hij].
  + rewrite lookup_insert_eq. split; [naive_solver|]. intros Hj. destruct Hr. by apply Hold.
  + by rewrite lookup_insert_ne.
Qed.

(** The deletion of a rule takes along nothing that belongs to another company. *)
Lemma delete_rule_gone pk a x : rules_ok a → delivery_gone pk a x = true →
∃ rule, a_rules a !! pk = Some rule ∧ x_action_rule_id x = Some pk.
Proof.
intros Hok. unfold delivery_gone. destruct (x_action_rule_id x) as [k|]; [|done]. simpl.
destruct (a_rules a !! k) as [rule|] eqn:Hk; [|done]. simpl. intros Hp%bool_decide_eq_true.
rewrite (ro_id a Hok k rule Hk) in Hp. subst. by exists rule.
Qed.
Lemma delivery_gone_own pk a i x : rules_ok a → a_outbox a !! i = Some x → x_company_id x = c →
delivery_gone pk (own_actions c pl a) x = delivery_gone pk a x.
Proof.
intros Hok Hx Hxc. unfold delivery_gone. destruct (x_action_rule_id x) as [k|] eqn:Hk; [|done].
cbn [from_option own_actions a_rules]. rewrite lookup_filter_if. cbn [fst snd].
destruct (a_rules a !! k) as [r|] eqn:Hkr; [|done]. case_decide as Hrc; [done|].
destruct Hrc. by rewrite (ro_rule a Hok i x k r).
Qed.
Lemma delete_rule_own pk a : rules_ok a →
own_actions c pl (delete_rules_where (λ r, r_id r == pk) a) =
delete_rules_where (λ r, r_id r == pk) (own_actions c pl a).
Proof.
intros Hok. apply actions_eq; try done.
- apply map_eq. intros i. apply option_eq. intros r. cbn. unfold row_delete.
  rewrite !map_lookup_filter_Some. naive_solver.
- apply map_eq. intros i. apply option_eq. intros x.
  change (filter (λ kx, x_company_id kx.2 = c) (row_delete (delivery_gone pk a) (a_outbox a)) !! i = Some x ↔
    row_delete (delivery_gone pk (own_actions c pl a)) (filter (λ kx, x_company_id kx.2 = c) (a_outbox a)) !! i = Some x).
  rewrite row_delete_Some, !map_lookup_filter_Some, row_delete_Some. cbn [snd].
  split; intros [[Ha Hb] Hd]; rewrite (delivery_gone_own pk a i x) in *; done.
- change (filter (λ t, own_attempt c (delete_rules_where (λ r, r_id r == pk) a) t = true)
      (filter (λ t, from_option (delivery_gone pk a) false (a_outbox a !! t_outbox_id t) = false) (a_attempts a)) =
    filter (λ t, from_option (delivery_gone pk (own_actions c pl a)) false
        (filter (λ kx, x_company_id kx.2 = c) (a_outbox a) !! t_outbox_id t) = false)
      (filter (λ t, own_attempt c a t = true) (a_attempts a))).
  rewrite !list_filter_filter. apply list_filter_iff. intros t. unfold own_attempt.
  change (a_outbox (delete_rules_where (λ r, r_id r == pk) a)) with (row_delete (delivery_gone pk a) (a_outbox a)).
  rewrite lookup_filter_if. cbn [snd]. unfold row_delete. rewrite lookup_filter_if. cbn [snd].
  destruct (a_outbox a !! t_outbox_id t) as [x|] eqn:Hx; [|naive_solver]. simpl.
  destruct (decide (x_company_id x = c)) as [Hc|Hc].
  + simpl. rewrite (delivery_gone_own pk a _ x) by done.
    destruct (delivery_gone pk a x); simpl; naive_solver.
  + case_decide; simpl; rewrite ?(bool_decide_false _ Hc); naive_solver.
Qed.
Lemma delete_rule_kept pk rule w : rules_ok (acts w) → a_rules (acts w) !! pk = Some rule → r_company_id rule = c →
others_kept c w (set_db (set_actions (delete_rules_where (λ r, r_id r == pk))) w).
Proof.
intros Hok Hr Hc. destruct (others_refl c w). split; try done.
- intros i r Hrc. change (row_delete (λ r, r_id r == pk) (a_rules (acts w)) !! i = Some r ↔ a_rules (acts w) !! i = Some r).
  rewrite row_delete_Some. split; [naive_solver|]. intros Hi. split; [done|]. apply bool_decide_eq_false.
  rewrite (ro_id _ Hok i r Hi). intros ->. congruence.
- intros i x Hxc. change (row_delete (delivery_gone pk (acts w)) (a_outbox (acts w)) !! i = Some x ↔ a_outbox (acts w) !! i = Some x).
  rewrite row_delete_Some. split; [naive_solver|]. intros Hi. split; [done|]. apply not_true_iff_false. intros Hg.
  apply delete_rule_gone in Hg as (r & Hr' & Hk); [|done]. apply Hxc. rewrite <- (ro_rule _ Hok i x pk r); congruence.
- intros t x Hx Hxc.
  change (t ∈ filter (λ t, from_option (delivery_gone pk (acts w)) false (a_outbox (acts w) !! t_outbox_id t) = false)
    (a_attempts (acts w)) ↔ t ∈ a_attempts (acts w)).
  rewrite list_elem_of_filter, Hx. simpl. split; [naive_solver|]. intros Ht. split; [|done].
  apply not_true_iff_false. intros Hg.
  apply delete_rule_gone in Hg as (r & Hr' & Hk); [|done]. apply Hxc. rewrite <- (ro_rule _ Hok _ x pk r Hx Hk Hr'). congruence.
Qed.

Lemma confined_requeue i x w : a_outbox (acts w) !! i = Some x → x_company_id x = c →
confined c pl (modify_actions (set_outbox (alter requeued_row i))) w.
Proof.
intros Hx Hc. apply confined_modify.
- apply actions_eq; try done; cbn [own_actions set_outbox a_outbox a_attempts].
  + apply map_eq. intros j. rewrite lookup_filter_if. destruct (decide (i = j)) as [<-|Hij].
    * rewrite !lookup_alter_eq, lookup_filter_if, Hx. cbn [fmap option_fmap option_map snd].
      by rewrite !decide_True.
    * by rewrite !lookup_alter_ne, lookup_filter_if.
  + apply list_filter_iff. intros t. unfold own_attempt. cbn [set_outbox a_outbox].
    destruct (decide (i = t_outbox_id t)) as [<-|Hij]; [|by rewrite lookup_alter_ne].
    by rewrite lookup_alter_eq, Hx.
- destruct (others_refl c w). split; try done. intros j y Hy. unfold set_outbox. simpl.
  destruct (decide (i = j)) as [<-|Hij]; [|by rewrite lookup_alter_ne].
  fold (acts w). rewrite lookup_alter_eq, Hx. split; intros [= <-]; by destruct (Hy Hc).
Qed.

Lemma confined_delivery_list p w : rules_ok (acts w) → ∀ rq page page_size,
confined c pl (a <- get_actions ;;
  r <- lift_sum (delivery_filters p a rq) ;;
  match r with
  | inl bad => ret bad
  | inr P =>
      let qs := filter (λ ix, P ix = true) (company_deliveries c a) in
      results <- map_m (λ ix, lift_sum (delivery_payload pkf false false a ix)) (page_of page page_size qs) ;;
      ret (paginated page page_size qs (JObj <$> results))
  end) w.
Proof.
intros Hok rq page page_size. apply confined_read.
- intros w'. pose proof (delivery_filters_own c pl (acts w) p rq) as Hsame.
  destruct (delivery_filters p (own_actions c pl (acts w)) rq) as [e|[bad|P]],
    (delivery_filters p (acts w) rq) as [e'|[bad'|P']]; simpl in Hsame; try (by simplify_eq).
  cbn [lift_sum]. unfold bind, ret. rewrite company_deliveries_own.
  assert (Hqs : filter (λ ix, P ix = true) (company_deliveries c (acts w)) =
    filter (λ ix, P' ix = true) (company_deliveries c (acts w))).
  { assert (Hin : ∀ ix, ix ∈ company_deliveries c (acts w) → P ix = P' ix) by exact Hsame. clear Hsame.
    induction (company_deliveries c (acts w)) as [|ix l IH]; [done|]. rewrite !filter_cons.
    rewrite (Hin ix) by left. rewrite IH; [done|]. intros y Hy. apply Hin. by right. }
  rewrite Hqs. rewrite (map_m_ext _ (λ ix, lift_sum (delivery_payload pkf false false (acts w) ix))); [done|].
  intros [i x] Hix. f_equal.
  assert (Hin : (i, x) ∈ company_deliveries c (acts w)).
  { unfold page_of in Hix. apply elem_of_take in Hix as (n & Hn & _). rewrite lookup_drop in Hn.
    apply list_elem_of_lookup_2 in Hn. by apply list_elem_of_filter in Hn as [_ ?]. }
  apply elem_of_deliveries in Hin as [Hi Hc]. by apply (delivery_payload_own c pl (acts w) pkf false false i x).
- apply confined_bind_lift. intros [bad|P] _; [conf|]. cbv zeta. apply confined_bind; [|intros; conf].
  apply confined_map_m. intros. conf.
Qed.


(** Creating and changing a rule. *)
Lemma confined_create p rq w : rules_ok (acts w) →
confined c pl (match ActionRuleWriteSerializer true (rq_data rq) with
  | None => ret (Response 400 (CJson (JObj [])))
  | Some data =>
      r <- lift_sum (apply_rule_config raw [] data p false) ;;
      match r with
      | inl cfg_err => ret cfg_err
      | inr config =>
          i <- next_pk ;; t <- now ;;
          let rule := ActionRule i c (default "" (rw_name data)) (default "" (rw_description data))
                        (default "" (rw_event_type data)) (default true (rw_enabled data)) ACTION_WEBHOOK
                        config t t in
          modify_actions (set_rules (insert i rule)) ;;;
          payload <- lift_sum (action_rule_payload rule true) ;;
          ret (Response 201 (CJson (JObj payload)))
      end
  end) w.
Proof.
intros Hok. destruct (ActionRuleWriteSerializer true (rq_data rq)) as [data|]; [|conf].
apply confined_bind_lift. intros [bad|config] _; [conf|].
apply confined_bind; [apply confined_next_pk|]. intros i w1 Hpk.
unfold next_pk, bind, get_actions, gets, modify_actions, modify_db, modify, ret in Hpk. injection Hpk as <- <-.
apply confined_bind_now. cbv zeta. apply confined_bind; [|intros; conf].
apply confined_set_rule; [done|]. intros r Hr.
pose proof (ro_next _ Hok (a_next_id (acts w)) (ex_intro _ r Hr)). lia.
Qed.
Lemma confined_save pk rule rule' reveal w : a_rules (acts w) !! pk = Some rule → r_company_id rule = c →
r_company_id rule' = c →
confined c pl (save_rule pk rule' ;;;
  payload <- lift_sum (action_rule_payload rule' reveal) ;; ret (ok (JObj payload))) w.
Proof.
intros Hr Hc Hc'. apply confined_bind; [|intros; conf]. apply confined_set_rule; [done|]. intros r Hr'. congruence.
Qed.
Lemma confined_patch p rq pk rule w : a_rules (acts w) !! pk = Some rule → r_company_id rule = c →
confined c pl (match ActionRuleWriteSerializer false (rq_data rq) with
  | None => ret (Response 400 (CJson (JObj [])))
  | Some data =>
      r <- lift_sum (apply_rule_config raw (r_config rule) data p true) ;;
      match r with
      | inl cfg_err => ret cfg_err
      | inr config =>
          t <- now ;;
          let rule' := ActionRule (r_id rule) (r_company_id rule) (default (r_name rule) (rw_name data))
                         (default (r_description rule) (rw_description data))
                         (default (r_event_type rule) (rw_event_type data))
                         (default (r_enabled rule) (rw_enabled data)) ACTION_WEBHOOK config
                         (r_created_at rule) t in
          save_rule pk rule' ;;;
          payload <- lift_sum (action_rule_payload rule' false) ;; ret (ok (JObj payload))
      end
  end) w.
Proof.
intros Hr Hc. destruct (ActionRuleWriteSerializer false (rq_data rq)) as [data|]; [|conf].
apply confined_bind_lift. intros [bad|config] _; [conf|]. apply confined_bind_now. cbv zeta.
by eapply confined_save.
Qed.
Lemma confined_delete pk rule w : rules_ok (acts w) → a_rules (acts w) !! pk = Some rule → r_company_id rule = c →
confined c pl (modify_actions (delete_rules_where (λ r, r_id r == pk)) ;;; ret (Response 204 CEmpty)) w.
Proof.
intros Hok Hr Hc. apply confined_bind; [|intros; conf].
apply confined_modify; [by apply delete_rule_own|by eapply delete_rule_kept].
Qed.
(** Looking a delivery up. *)
Lemma confined_delivery i k w : rules_ok (acts w) →
(∀ a x, a_outbox (acts w) !! i = Some x → x_company_id x = c →
   (∀ att staff x', x_action_rule_id x' = x_action_rule_id x →
      delivery_payload pkf att staff a (i, x') = delivery_payload pkf att staff (acts w) (i, x')) →
   ∀ w', k a x w' = k (acts w) x w') →
(∀ x, a_outbox (acts w) !! i = Some x → x_company_id x = c → confined c pl (k (acts w) x) w) →
confined c pl (a <- get_actions ;; match find_delivery c i a with None => ret not_found | Some x => k a x end) w.
Proof.
intros Hok Hk Hc. apply confined_read.
- intros w'. rewrite find_delivery_own. destruct (find_delivery c i (acts w)) as [x|] eqn:Hx; [|done].
  apply find_delivery_Some in Hx as [Hx Hxc]. apply Hk; [done..|]. intros att staff x' Hr.
  by apply (delivery_payload_own c pl (acts w) pkf att staff i x).
- destruct (find_delivery c i (acts w)) as [x|] eqn:Hx; [|conf]. apply find_delivery_Some in Hx as [Hx Hxc]. by apply Hc.
Qed.
Lemma platform_own e : pl = true → platform_event e = true → own_event c pl e = true.
Proof.
intros -> Hp. unfold platform_event in Hp. apply andb_true_iff in Hp as [Hp _]. unfold own_event. rewrite Hp.
by rewrite orb_true_r.
Qed.
Lemma company_own e : company_event c e = true → own_event c pl e = true.
Proof. intros He. unfold own_event. by rewrite He. Qed.
Lemma scope_staff p rq platform : check_scope p rq = inr platform → platform = true → p_is_staff p = true.
Proof.
unfold check_scope. repeat (case_match; try done). intros [= <-] Hp. rewrite Hp in *. simpl in *.
by destruct (p_is_staff p).
Qed.
End handlers_confined.

Section requests.
Context `{ActionSettings, Utf8, Resolver, Hmac, HttpDate, JsonLoads, DateParser, Fields}.
Context (pkf : delivery_attempt → Z) (net : network) (err request_id : string) (raw : bytes).
Abbreviation answer := (admin_dispatch pkf net err request_id raw).

Lemma confined_event_list c p rq w : confined c (p_is_staff p)
  (match check_scope p rq with
   | inl bad => ret bad
   | inr platform =>
       match page_params rq with
       | None => ret (plain_error 400 "Invalid page or page_size.")
       | Some (page, page_size) =>
           a <- get_actions ;;
           r <- (if platform then ret (inr platform_event)
                 else f <- lift_sum (event_filters rq) ;;
                      ret (match f with inl bad => inl bad | inr P => inr (λ e, company_event c e && P e) end)) ;;
           match r with
           | inl bad => ret bad
           | inr P =>
               let qs := events_where P a in
               ret (paginated page page_size qs (JObj <$> (event_payload <$> page_of page page_size qs)))
           end
       end
   end) w.
Proof.
destruct (check_scope p rq) as [bad|platform] eqn:Hs; [conf|]. destruct (page_params rq) as [[page page_size]|]; [|conf].
destruct platform.
- apply confined_read; [|conf]. intros w'. unfold bind, ret. rewrite events_where_own; [done|].
  intros e He. apply platform_own; [|done]. by eapply scope_staff.
- destruct (event_filters rq) as [e|[bad|P]]; (apply confined_read; [|conf]); [done|done|].
  intros w'. unfold bind, ret. cbn [lift_sum]. unfold ret. cbv beta iota. rewrite events_where_own; [done|].
  intros e He. apply company_own. by apply andb_true_iff in He as [? _].
Qed.
Lemma confined_event_get c p rq pk w : confined c (p_is_staff p)
  (match check_scope p rq with
   | inl bad => ret bad
   | inr platform =>
       a <- get_actions ;;
       let P e := (if platform then platform_event e else company_event c e) && (e_id e == pk) in
       match events_where P a with
       | [] => ret not_found
       | row :: _ => ret (ok (JObj (event_payload row)))
       end
   end) w.
Proof.
destruct (check_scope p rq) as [bad|platform] eqn:Hs; [conf|]. apply confined_read; [|cbv zeta; case_match; conf].
intros w'. cbv zeta. rewrite events_where_own; [done|]. intros e [He _]%andb_true_iff. destruct platform.
- apply platform_own; [|done]. by eapply scope_staff.
- by apply company_own.
Qed.

Lemma confined_dispatch e rq p c w : rules_ok (acts w) → admitted rq p c → confined c (p_is_staff p) (answer e rq) w.
Proof.
intros Hok Ha. destruct e; cbn [admin_dispatch];
  unfold ShellUIAdminActionEventsView_get, ShellUIAdminActionRuleListCreateView_get,
    ShellUIAdminActionRuleListCreateView_post, ShellUIAdminActionRuleDetailView_get,
    ShellUIAdminActionRuleDetailView_patch, ShellUIAdminActionRuleDetailView_delete,
    ShellUIAdminActionRuleSendTestView_post, ShellUIAdminActionRuleRotateSecretView_post,
    ShellUIAdminActionDeliveryListView_get, ShellUIAdminActionDeliveryDetailView_get,
    ShellUIAdminActionDeliveryRequeueView_post, ShellUIAdminEventLogListView_get,
    ShellUIAdminEventLogDetailView_get, ShellUIAdminEventLogTypesView_get, ShellUIAdminEventLogRetentionView_get,
    with_rule; rewrite (with_company_admitted rq p c _ Ha).
- apply confined_events.
- apply confined_read; [intros w'; by rewrite company_rules_own|]. apply confined_bind; [|intros; conf].
  apply confined_map_m. intros. conf.
- by apply confined_create.
- apply confined_rule. intros rule _ _. conf.
- apply confined_rule. intros rule Hr Hc. by apply confined_patch.
- apply confined_rule. intros rule Hr Hc. by eapply confined_delete.
- apply confined_rule. intros rule Hr Hc. case_match; [conf|]. apply confined_bind; [apply confined_send_test|].
  intros r w1 _. case_match; conf.
- apply confined_rule. intros rule Hr Hc. apply confined_bind_now. cbv zeta. by eapply confined_save.
- destruct (page_params rq) as [[page page_size]|]; [|conf]. by apply confined_delivery_list.
- apply (confined_delivery pkf c _ i (λ a row, payload <- lift_sum (delivery_payload pkf true (p_is_staff p) a (i, row)) ;;
    ret (ok (JObj payload)))); [done| |intros; conf].
  intros a x _ _ Hp w'. by rewrite Hp.
- apply (confined_delivery pkf c _ i (λ a row, modify_actions (set_outbox (alter requeued_row i)) ;;;
    payload <- lift_sum (delivery_payload pkf false false a (i, requeued_row row)) ;; ret (ok (JObj payload)))); [done| |].
  + intros a x _ _ Hp w'. by rewrite Hp.
  + intros x Hx Hc. apply confined_bind; [by eapply confined_requeue|intros; conf].
- apply confined_event_list.
- apply confined_event_get.
- conf.
- apply confined_bind_now. apply confined_read; [|conf]. intros w'. by rewrite retention_status_own.
Qed.

(** C11: A request of the administration API is confined to one company.  It is admitted only
    for staff, or for an owner and the company of the token (any company, when the token
    names none); then its answer, and what it does to the rows of that company, are those
    it gives when everything else is erased from the database (for staff the events of no
    company stay), and all other rows and tables are unchanged.  A request that is not
    admitted changes nothing and is answered by an error. *)
Theorem admin_requests_confined e rq w : rules_ok (acts w) →
  (∀ p c, admitted rq p c →
     let view := company_view c (p_is_staff p) in
     answer e rq (view w) = ((answer e rq w).1, view (answer e rq w).2) ∧
     others_kept c w (answer e rq w).2) ∧
  ((∀ p c, ¬ admitted rq p c) →
     answer e rq w = (inl AttributeError, w) ∨
     ∃ resp, answer e rq w = (inr resp, w) ∧
       (rs_status resp = 400 ∨ rs_status resp = 401 ∨ rs_status resp = 403)).
Proof.
intros Hok. split; [intros p c Ha; by apply confined_dispatch|].
intros Hno. destruct e; by apply with_company_refused.
Qed.
End requests.

(** ** Two companies with a rule and a delivery each *)
Module AdminDemo.
Import WebhookDemo.
#[export] Existing Instances utf8 hmac dates loads resolver settings.
(** The format is right, the date does not exist. *)
#[export] Instance impossible_dates : DateParser := λ s, if s == "2025-02-30T00:00:00Z" then inl ValueError else inr None.
#[export] Instance plain_fields : Fields := {|
  char_field _ allow_blank _ v := match v with JStr s => if truthy s || allow_blank then Some s else None | _ => None end;
  url_field v := match v with JStr s => Some s | _ => None end;
  boolean_field v := match v with JBool b => Some b | _ => None end |}.
Definition rule_of (i : N) (c : Z) : action_rule :=
  ActionRule i c "hook" "" "storage.object.uploaded" true ACTION_WEBHOOK config 0 0.
Definition delivery_of (i : uuid) (c : Z) (rule : N) : action_outbox :=
  ActionOutbox i c (Some rule) KIND_WEBHOOK "storage.object.uploaded" (JObj envelope) STATUS_DEAD 5 None None "refused" 9 9 None.
Definition two_tenants : world :=
  World (set_actions (set_next_id (λ _, 3%N) ∘
      set_rules (λ _, {[ 1%N := rule_of 1 7; 2%N := rule_of 2 8 ]}) ∘
      set_outbox (λ _, {[ 5%N := delivery_of 5 7 1; 6%N := delivery_of 6 8 2 ]})) empty_db) ∅ 1000 9.
Definition owner (company : option Z) : principal := StoragePrincipal 3 company "o@x.io" "o" false true false.
Definition request_by (p : principal) (query : list (string * string)) : http_request :=
  HttpRequest (Some p) (JObj []) query [] JNull "application/json" [] [] [].
Definition run (e : admin_endpoint) (rq : http_request) : (exn + response) * world :=
  admin_dispatch (λ _, 0) WebhookDemo.refusing "" "-" [Byte.x01] e rq two_tenants.
Definition status_of (r : (exn + response) * world) : Z := match r.1 with inr resp => rs_status resp | inl _ => 500 end.
Lemma two_tenants_ok : rules_ok (acts two_tenants).
Proof.
  assert (Hr : ∀ i r, a_rules (acts two_tenants) !! i = Some r → i = 1%N ∧ r = rule_of 1 7 ∨ i = 2%N ∧ r = rule_of 2 8).
  { intros i r Hi. change (a_rules (acts two_tenants)) with ({[ 1%N := rule_of 1 7; 2%N := rule_of 2 8 ]} : gmap N action_rule) in Hi.
    apply lookup_insert_Some in Hi as [[<- <-]|[_ Hi]]; [by left|]. apply lookup_singleton_Some in Hi as [<- <-]. by right. }
  split.
  - intros i [r Hi]. by destruct (Hr i r Hi) as [[-> _]|[-> _]].
  - intros i r Hi. by destruct (Hr i r Hi) as [[-> ->]|[-> ->]].
  - intros i x k r Hi Hk Hkr.
    change (a_outbox (acts two_tenants)) with ({[ 5%N := delivery_of 5 7 1; 6%N := delivery_of 6 8 2 ]} : gmap uuid action_outbox) in Hi.
    apply lookup_insert_Some in Hi as [[<- <-]|[_ Hi]]; [|apply lookup_singleton_Some in Hi as [<- <-]];
      injection Hk as <-; by destruct (Hr _ r Hkr) as [[? ->]|[? ->]].
Qed.
End AdminDemo.
Import AdminDemo.

Lemma admin_requests_confined_witness :
  let rq := request_by (owner (Some 7)) [] in
  status_of (run (RuleDelete 1) rq) = 204 ∧ a_outbox (acts (run (RuleDelete 1) rq).2) !! 5%N = None ∧
  (a_outbox (acts (run (RuleDelete 1) rq).2) !! 6%N = Some (delivery_of 6 8 2)) ∧
  run (RuleGet 1) (request_by (owner (Some 8)) [("company_id", "7")]) =
    (inr (plain_error 403 "Requested company_id does not match token company_id."), two_tenants).
Proof.
  cbv zeta. split; [vm_compute; reflexivity|]. split; [vm_compute; reflexivity|]. split.
  - destruct (admin_requests_confined (λ _, 0) WebhookDemo.refusing "" "-" [Byte.x01] (RuleDelete 1)
      (request_by (owner (Some 7)) []) two_tenants two_tenants_ok) as [Hconf _].
    destruct (Hconf (owner (Some 7)) 7) as [_ Hkept].
    { split; [reflexivity|]. split; [reflexivity|]. right. split; [reflexivity|]. by right. }
    apply (ot_outbox _ _ _ Hkept); [discriminate|reflexivity].
  - vm_compute. reflexivity.
Defined.

(** An owner whose token names no company reads the rules of any company. *)
Example owner_without_company :
  status_of (run (RuleGet 2) (request_by (owner None) [("company_id", "8")])) = 200 ∧
  status_of (run (RuleGet 2) (request_by (owner (Some 7)) [("company_id", "8")])) = 403.
Proof. vm_compute. auto. Qed.
(** A date that does not exist is not refused: the exception of the parser escapes. *)
Example impossible_date :
  (run DeliveriesList (request_by (owner (Some 7)) [("created_after", "2025-02-30T00:00:00Z")])).1 = inl ValueError.
Proof. vm_compute. reflexivity. Qed.
(** So does the one of a body that is not an object. *)
Example list_body :
  (run RulesCreate (HttpRequest (Some (owner (Some 7))) (JList []) [] [] JNull "application/json" [] [] [])).1 = inl AttributeError.
Proof. vm_compute. reflexivity. Qed.
