(* ===== verification/AdminSchema.v ===== *)
(** * AdminSchema: the documentation of the administration API ([extend_schema_view] in [actions/])

    The declarations of [admin_api_views.py], [event_log_views.py] and
    [scheduled_job_views.py], one value per operation, against the handlers of [AdminApi] and
    [EventLogApi].  Unlike in [ApiSchema] the answers are declared by their status only, and
    the request bodies are described by the serializers that validate them. *)
From S2P Require Import Prelude PyStr Models PyData Access Quotas Backends Redact Registry Events.
From S2P Require Import Url Ssrf Wire Webhook Delivery Retention RuleConfig Deletion Jobs JobHealth.
From S2P Require Import Shares Views ApiSchema AdminApi EventLogApi AdminSpec.

(** ** Declarations *)
(** [OpenApiParameter(type=, location=QUERY, required=False, enum=)] *)
Inductive parameter_type := IntParameter | StrParameter | EnumParameter (values : list string).
Record admin_operation := AdminOperation {
  ao_request : list field;
  ao_query : list (string * parameter_type);
  ao_responses : option (list Z) }.             (** [None]: left to the generator *)

(** The fields of [ActionRuleWriteSerializer], and of its two subclasses. *)
Definition rule_fields (create : bool) : list field :=
  [ Field "name" CharField create false; optional "description" CharField;
    Field "event_type" CharField create false; optional "enabled" BooleanField;
    optional "url" CharField; optional "secret" CharField;
    optional "authorization_header" CharField; optional "allow_private_urls" BooleanField ].
Definition OpenAPISerializer : list field := [].

Definition plain_operation : admin_operation := AdminOperation OpenAPISerializer [] None.

Definition ShellUIAdminActionEventsView_get_schema := plain_operation.
Definition ShellUIAdminActionRuleListCreateView_get_schema := plain_operation.
Definition ShellUIAdminActionRuleListCreateView_post_schema := AdminOperation (rule_fields true) [] None.
Definition ShellUIAdminActionRuleDetailView_get_schema := plain_operation.
Definition ShellUIAdminActionRuleDetailView_patch_schema := AdminOperation (rule_fields false) [] None.
Definition ShellUIAdminActionRuleDetailView_delete_schema := plain_operation.
Definition ShellUIAdminActionRuleRotateSecretView_post_schema := AdminOperation OpenAPISerializer [] (Some [200]).
Definition ShellUIAdminActionRuleSendTestView_post_schema := AdminOperation OpenAPISerializer [] (Some [200; 400]).
Definition ShellUIAdminActionDeliveryListView_get_schema :=
  AdminOperation OpenAPISerializer
    [ ("company_id", IntParameter); ("status", StrParameter); ("event_type", StrParameter);
      ("action_rule_id", IntParameter); ("scheduled_job_run_id", IntParameter);
      ("created_after", StrParameter); ("created_before", StrParameter);
      ("page", IntParameter); ("page_size", IntParameter) ] (Some [200]).
Definition ShellUIAdminActionDeliveryDetailView_get_schema := plain_operation.
Definition ShellUIAdminActionDeliveryRequeueView_post_schema := plain_operation.
Definition scope_parameter : string * parameter_type := ("scope", EnumParameter ["company"; "platform"]).
Definition ShellUIAdminEventLogListView_get_schema :=
  AdminOperation OpenAPISerializer
    [ scope_parameter; ("user_id", IntParameter); ("user", StrParameter); ("event_type", StrParameter);
      ("created_after", StrParameter); ("created_before", StrParameter);
      ("page", IntParameter); ("page_size", IntParameter) ] (Some [200]).
Definition ShellUIAdminEventLogDetailView_get_schema := AdminOperation OpenAPISerializer [scope_parameter] (Some [200]).
Definition ShellUIAdminEventLogTypesView_get_schema := plain_operation.
Definition ShellUIAdminEventLogRetentionView_get_schema := plain_operation.

Definition admin_schema (e : admin_endpoint) : admin_operation :=
  match e with
  | EventsList => ShellUIAdminActionEventsView_get_schema
  | RulesList => ShellUIAdminActionRuleListCreateView_get_schema
  | RulesCreate => ShellUIAdminActionRuleListCreateView_post_schema
  | RuleGet _ => ShellUIAdminActionRuleDetailView_get_schema
  | RulePatch _ => ShellUIAdminActionRuleDetailView_patch_schema
  | RuleDelete _ => ShellUIAdminActionRuleDetailView_delete_schema
  | RuleSendTest _ => ShellUIAdminActionRuleSendTestView_post_schema
  | RuleRotateSecret _ => ShellUIAdminActionRuleRotateSecretView_post_schema
  | DeliveriesList => ShellUIAdminActionDeliveryListView_get_schema
  | DeliveryGet _ => ShellUIAdminActionDeliveryDetailView_get_schema
  | DeliveryRequeue _ => ShellUIAdminActionDeliveryRequeueView_post_schema
  | EventLogList => ShellUIAdminEventLogListView_get_schema
  | EventLogGet _ => ShellUIAdminEventLogDetailView_get_schema
  | EventLogTypes => ShellUIAdminEventLogTypesView_get_schema
  | EventLogRetention => ShellUIAdminEventLogRetentionView_get_schema
  end.

(** *** Scheduled jobs *)
Inductive job_endpoint := JobsList | JobRuns (job : string) | JobRun (pk : N).
Definition _STAFF_RESPONSES : list Z := [401; 403].
Definition ScheduledJobsView_get_schema := AdminOperation OpenAPISerializer [] (Some (200 :: _STAFF_RESPONSES)).
Definition ScheduledJobRunsView_get_schema :=
  AdminOperation OpenAPISerializer
    [ ("limit", IntParameter); ("status", EnumParameter ["running"; "succeeded"; "failed"]) ]
    (Some (200 :: 404 :: _STAFF_RESPONSES)).
Definition ScheduledJobRunDetailView_get_schema := AdminOperation OpenAPISerializer [] (Some (200 :: 404 :: _STAFF_RESPONSES)).
Definition job_schema (e : job_endpoint) : admin_operation :=
  match e with
  | JobsList => ScheduledJobsView_get_schema
  | JobRuns _ => ScheduledJobRunsView_get_schema
  | JobRun _ => ScheduledJobRunDetailView_get_schema
  end.
(** [config/urls.py] *)
Definition job_dispatch (enabled : bool) (redis : option bool) (beat : option datetime)
  (attempt_pk : delivery_attempt → Z) (e : job_endpoint) : http_request → prog response :=
  match e with
  | JobsList => ScheduledJobsView_get enabled redis beat
  | JobRuns job => ScheduledJobRunsView_get job
  | JobRun pk => ScheduledJobRunDetailView_get attempt_pk pk
  end.

(** ** What a handler reads *)
(** Every administration endpoint reads [company_id], from the query string or the body;
    only the list of deliveries documents it. *)
Definition is_object (v : json) : bool := match v with JObj _ => true | _ => false end.
Record same_admin_inputs (op : admin_operation) (rq rq' : http_request) : Prop := SameAdminInputs {
  sa_user : rq_user rq = rq_user rq';
  sa_object : is_object (rq_data rq) = is_object (rq_data rq');
  sa_body k : k ∈ "company_id" :: (field_name <$> ao_request op) →
    dict_get k (body_dict rq) = dict_get k (body_dict rq');
  sa_query k : k ∈ "company_id" :: (ao_query op).*1 → last_get k (rq_query rq) = last_get k (rq_query rq') }.

Lemma required_company_reads op rq rq' :
  same_admin_inputs op rq rq' → require_staff_or_company_owner rq = require_staff_or_company_owner rq'.
Proof.
  intros [Hu Ho Hb Hq]. unfold require_staff_or_company_owner, company_id_from_request, jget.
  rewrite Hu, (Hq "company_id") by set_solver.
  destruct (rq_user rq') as [p|]; [|done]. destruct (last_get _ _); [done|].
  unfold body_dict in Hb. destruct (rq_data rq), (rq_data rq'); try done.
  by rewrite Hb by set_solver.
Qed.
Lemma with_company_reads op rq rq' k k' :
  same_admin_inputs op rq rq' → (∀ p c, k p c = k' p c) → with_company rq k = with_company rq' k'.
Proof.
  intros Hs Hk. unfold with_company, with_administrator, with_principal.
  rewrite (required_company_reads _ _ _ Hs), (sa_user _ _ _ Hs).
  destruct (rq_user rq') as [p|]; [|done]. destruct (is_staff_or_company_owner p); [|done].
  destruct (require_staff_or_company_owner rq') as [e|[bad|[p' c]]]; try done.
  unfold bind, lift_sum. simpl. by rewrite Hk.
Qed.

Lemma query_param_reads k rq rq' : last_get k (rq_query rq) = last_get k (rq_query rq') → query_param k rq = query_param k rq'.
Proof. unfold query_param. by intros ->. Qed.
Lemma query_int_reads k d rq rq' : last_get k (rq_query rq) = last_get k (rq_query rq') → query_int k d rq = query_int k d rq'.
Proof. unfold query_int. by intros ->. Qed.

(** Rewrites every query parameter with the agreement of the requests. *)
Ltac solve_parameter := apply (bool_decide_eq_true_1 _); vm_compute; reflexivity.
Ltac same_parameters Hq :=
  repeat match type of Hq with
  | ∀ k, _ → last_get k (rq_query ?rq) = _ =>
      match goal with |- context [last_get ?k (rq_query rq)] => rewrite (Hq k) by solve_parameter end
  end.

Section inputs.
Context `{ActionSettings, Utf8, Resolver, Hmac, HttpDate, JsonLoads, DateParser, Fields}.

Lemma rule_body_reads create rq rq' :
  is_object (rq_data rq) = is_object (rq_data rq') →
  (∀ k, k ∈ field_name <$> rule_fields create → dict_get k (body_dict rq) = dict_get k (body_dict rq')) →
  ActionRuleWriteSerializer create (rq_data rq) = ActionRuleWriteSerializer create (rq_data rq').
Proof.
  intros Ho Hb. unfold body_dict in Hb. destruct (rq_data rq), (rq_data rq'); try done.
  unfold ActionRuleWriteSerializer, read_field. destruct create; by rewrite !Hb by solve_parameter.
Qed.

(** Two requests of the same caller that agree on the documented parameters, the documented
    members of the body and [company_id] are treated alike by every administration endpoint. *)
Lemma admin_inputs_suffice attempt_pk net err request_id raw e rq rq' :
  same_admin_inputs (admin_schema e) rq rq' →
  admin_dispatch attempt_pk net err request_id raw e rq = admin_dispatch attempt_pk net err request_id raw e rq'.
Proof.
  intros Hs. pose proof Hs as [Hu Ho Hb Hq].
  destruct e; simpl; apply (with_company_reads _ _ _ _ _ Hs); intros p c; try reflexivity.
  - by rewrite (rule_body_reads true rq rq' Ho) by (intros k Hk; apply Hb; by right).
  - unfold with_rule. by rewrite (rule_body_reads false rq rq' Ho) by (intros k Hk; apply Hb; by right).
  - unfold page_params, delivery_filters, status_filter, event_type_filter, rule_filter, run_filter,
      time_filter, query_int, query_param. by same_parameters Hq.
  - unfold check_scope, scope_of, page_params, event_filters, user_filter, email_filter, types_filter,
      time_filter, query_int, query_param. by same_parameters Hq.
  - unfold check_scope, scope_of. by same_parameters Hq.
Qed.
End inputs.

(** ** What the scheduled jobs answer *)
Section jobs.
Context (enabled : bool) (redis : option bool) (beat : option datetime) (attempt_pk : delivery_attempt → Z).

(** The endpoints of the scheduled jobs answer staff only, and otherwise with a status they
    declare; the refusal of a bad [limit] or [status] is the one that is not declared. *)
Lemma job_answers e rq w r w' :
  job_dispatch enabled redis beat attempt_pk e rq w = (inr r, w') →
  (rs_status r = 200 → ∃ p, rq_user rq = Some p ∧ p_is_staff p = true) ∧
  (from_option (λ l, rs_status r ∈ l) False (ao_responses (job_schema e)) ∨
   rs_status r = 400 ∧ ∃ job, e = JobRuns job).
Proof.
  intros Hrun.
  assert (Hgate : ∀ k : prog response, with_platform_staff rq k w = (inr r, w') →
    (rs_status r = 401 ∨ rs_status r = 403) ∨
    k w = (inr r, w') ∧ ∃ p, rq_user rq = Some p ∧ p_is_staff p = true).
  { intros k. unfold with_platform_staff, with_principal. destruct (rq_user rq) as [p|].
    - destruct (p_is_staff p) eqn:Hp; simpl; [by eauto|]. intros [= <- _]. simpl. auto.
    - intros [= <- _]. simpl. auto. }
  destruct e; simpl in Hrun; apply Hgate in Hrun as [Hbad|[Hrun Hstaff]].
  1, 3, 5: split; [lia|left; simpl; destruct Hbad as [->| ->]; set_solver].
  all: split; [done|].
  - unfold bind in Hrun. destruct (jobs_overview _ _ _ w) as [[x|v] w1]; [done|].
    injection Hrun as <- _. left. simpl. set_solver.
  - unfold ScheduledJobRunsView_get, bind, get_actions, gets, ret in Hrun.
    repeat case_match; injection Hrun as <- _; first [left; simpl; set_solver|right; by eauto].
  - unfold bind, get_actions, gets, ret in Hrun.
    repeat case_match; injection Hrun as <- _; left; simpl; set_solver.
Qed.
End jobs.

(** ** Concrete requests *)
Import AdminDemo.
Module AdminSchemaDemo.
Definition staff : principal := StoragePrincipal 4 None "s@x.io" "s" true false false.
Definition jobs (e : job_endpoint) (query : list (string * string)) : (exn + response) * world :=
  job_dispatch true None None (λ _, 0) e (request_by staff query) two_tenants.
End AdminSchemaDemo.
Import AdminSchemaDemo.

(** A parameter that is not documented changes nothing, except [company_id]. *)
Lemma admin_inputs_suffice_witness :
  let plain := request_by (owner (Some 7)) [] in
  let noise := request_by (owner (Some 7)) [("status", "no status")] in
  status_of (run EventLogList plain) = 200 ∧ run EventLogList noise = run EventLogList plain ∧
  status_of (run EventLogList (request_by (owner (Some 7)) [("company_id", "8")])) = 403.
Proof.
  cbv zeta. split; [vm_compute; reflexivity|]. split; [|vm_compute; reflexivity].
  unfold run. rewrite (admin_inputs_suffice (λ _, 0) WebhookDemo.refusing "" "-" [Byte.x01] EventLogList
    (request_by (owner (Some 7)) [("status", "no status")]) (request_by (owner (Some 7)) [])); [done|].
  split; try done. intros k Hk.
  assert (k ≠ "status") as Hne by (intros ->; vm_compute in Hk; set_solver).
  unfold last_get. simpl. by rewrite bool_decide_eq_false_2 by congruence.
Defined.
(** Staff reading platform events: the filters are not applied, and not even parsed. *)
Example platform_ignores_filters :
  status_of (admin_dispatch (λ _, 0) WebhookDemo.refusing "" "-" [Byte.x01] EventLogList
    (request_by staff [("company_id", "7"); ("scope", "platform"); ("user_id", "nobody")]) two_tenants) = 200 ∧
  status_of (run EventLogList (request_by (owner (Some 7)) [("user_id", "nobody")])) = 400.
Proof. vm_compute. auto. Qed.
(** A status outside the declared values is accepted, and a bad limit has an undeclared answer. *)
Example skipped_locked_accepted :
  status_of (jobs (JobRuns "retry_webhooks") [("status", "skipped_locked")]) = 200 ∧
  status_of (jobs (JobRuns "retry_webhooks") [("limit", "many")]) = 400 ∧
  bool_decide (400 ∈ default [] (ao_responses (job_schema (JobRuns "retry_webhooks")))) = false.
Proof. vm_compute. auto. Qed.
(** Staff are not asked for a company here, unlike on every administration endpoint. *)
Example staff_without_company :
  status_of (jobs JobsList []) = 200 ∧
  status_of (admin_dispatch (λ _, 0) WebhookDemo.refusing "" "-" [Byte.x01] RulesList (request_by staff []) two_tenants) = 400.
Proof. vm_compute. auto. Qed.
