(* ===== verification/TaskLock.v ===== *)
(** * TaskLock: the Redis lock of the scheduled tasks ([config/task_lock.py])

    Redis is an interface: the reads and the two commands the lock uses, with what their
    documentation promises about later reads.  A step relation interleaves any number of
    runs: each takes the lock, works, and leaves, in the end or by dying. *)
From S2P Require Import Prelude PyStr Models PyData Access Registry Events Jobs.

(** ** Redis *)
Class Redis (R : Type) := {
  r_get : string → datetime → R → option string;
  (** [SET key value (NX) EX seconds]: whether the key was set. *)
  r_set : string → string → bool → Z → datetime → R → bool * R;
  r_del : string → datetime → R → R }.
(** What later reads see.  A key lives until its time has come, and does not come back. *)
Class RedisLaws (R : Type) `{Redis R} := {
  set_result k v (nx : bool) n t s :
    (r_set k v nx n t s).1 = negb (nx && bool_decide (is_Some (r_get k t s)));
  get_after_set k v (nx : bool) n t s k' t' : t <= t' →
    r_get k' t' (r_set k v nx n t s).2 =
      if (r_set k v nx n t s).1 && (k' == k) then (if t' <? t + us n then Some v else None) else r_get k' t' s;
  get_after_del k t s k' t' : t <= t' → r_get k' t' (r_del k t s) = if k' == k then None else r_get k' t' s }.

Section lock.
Context {R : Type} `{Redis R}.
(** [settings.SCHEDULER_LOCK_PREFIX] *)
Context (prefix : string).

Definition lock_key (name : string) : string := prefix +:+ ":lock:" +:+ name.
(** [_RELEASE_SCRIPT]: runs as one command. *)
Definition RELEASE_SCRIPT (key token : string) (t : datetime) (s : R) : R :=
if r_get key t s == Some token then r_del key t s else s.
Definition acquire (name token : string) (ttl : Z) (t : datetime) (s : R) : bool * R :=
r_set (lock_key name) token true (Z.max 1 ttl) t s.
Definition release (name token : string) (t : datetime) (s : R) : R := RELEASE_SCRIPT (lock_key name) token t s.

Definition BEAT_HEARTBEAT_TTL : Z := 86400.
Definition beat_heartbeat_key : string := prefix +:+ ":beat:heartbeat".
(** [text]: the time in seconds with three decimals. *)
Definition record_beat_heartbeat (text : string) (t : datetime) (s : R) : R :=
(r_set beat_heartbeat_key text false BEAT_HEARTBEAT_TTL t s).2.
(** [parse]: [float] on text. *)
Definition read_beat_heartbeat (parse : string → option datetime) (t : datetime) (s : R) : option datetime :=
r_get beat_heartbeat_key t s ≫= parse.

(** ** Runs of tasks

  A holder of a lock is in the block of [task_lock]; [lk_issued] are all locks ever taken. *)
Record holder := Holder { h_name : string; h_token : string; h_until : datetime }.
Record lock_system := LockSystem {
lk_store : R; lk_now : datetime; lk_holders : list holder; lk_issued : list holder }.
Definition taken_at (name token : string) (ttl : Z) (t : datetime) : holder :=
Holder name token (t + us (Z.max 1 ttl)).
(** A token is never drawn twice.  A run leaves without releasing when its process dies or
  when Redis fails, which the code only logs. *)
Inductive lock_step : lock_system → lock_system → Prop :=
| step_acquired name token ttl s t hs l s' :
    acquire name token ttl t s = (true, s') → token ∉ h_token <$> l →
    lock_step (LockSystem s t hs l)
      (LockSystem s' t (taken_at name token ttl t :: hs) (taken_at name token ttl t :: l))
| step_skipped name token ttl s t hs l s' :
    acquire name token ttl t s = (false, s') → lock_step (LockSystem s t hs l) (LockSystem s' t hs l)
| step_released h s t hs hs' l :
    hs ≡ₚ h :: hs' → lock_step (LockSystem s t hs l) (LockSystem (release (h_name h) (h_token h) t s) t hs' l)
| step_left h s t hs hs' l :
    hs ≡ₚ h :: hs' → lock_step (LockSystem s t hs l) (LockSystem s t hs' l)
| step_heartbeat text s t hs l :
    lock_step (LockSystem s t hs l) (LockSystem (record_beat_heartbeat text t s) t hs l)
| step_tick t' s t hs l : t <= t' → lock_step (LockSystem s t hs l) (LockSystem s t' hs l).
Definition idle (s : lock_system) : Prop :=
lk_holders s = [] ∧ lk_issued s = [] ∧ ∀ name t, lk_now s <= t → r_get (lock_key name) t (lk_store s) = None.

(** ** The invariant *)
Record lock_ok (s : lock_system) : Prop := LockOk {
ko_tokens : NoDup (h_token <$> lk_issued s);
ko_issued h : h ∈ lk_holders s → h ∈ lk_issued s;
ko_once : NoDup (lk_holders s);
(** A holder's token is there until its time is over. *)
ko_held h t : h ∈ lk_holders s → lk_now s <= t → t < h_until h →
  r_get (lock_key (h_name h)) t (lk_store s) = Some (h_token h);
(** Nothing else is ever found under the key of a lock. *)
ko_found name v t : lk_now s <= t → r_get (lock_key name) t (lk_store s) = Some v →
  ∃ h, h ∈ lk_issued s ∧ h_name h = name ∧ h_token h = v ∧ t < h_until h }.

Lemma lock_key_inj name name' : lock_key name = lock_key name' → name = name'.
Proof. unfold lock_key. intros He. by do 2 apply str_app_inv_head in He. Qed.
Lemma lock_key_beat name : lock_key name ≠ beat_heartbeat_key.
Proof. unfold lock_key, beat_heartbeat_key. intros He%str_app_inv_head. discriminate He. Qed.
Lemma token_inj l h h' : NoDup (h_token <$> l) → h ∈ l → h' ∈ l → h_token h = h_token h' → h = h'.
Proof.
induction l as [|x l IH]; intros Hnd Hh Hh' Ht; [by apply elem_of_nil in Hh|].
rewrite fmap_cons in Hnd. apply NoDup_cons in Hnd as [Hx Hnd].
apply elem_of_cons in Hh as [->|Hh], Hh' as [->|Hh']; [done| | |by apply IH].
- destruct Hx. rewrite Ht. by apply list_elem_of_fmap_2.
- destruct Hx. rewrite <- Ht. by apply list_elem_of_fmap_2.
Qed.

Context `{!RedisLaws R}.

Lemma idle_ok s : idle s → lock_ok s.
Proof.
intros (Hh & Hi & Hn). split; rewrite ?Hh, ?Hi; try (by constructor).
- intros h Hin. by apply elem_of_nil in Hin.
- intros h t Hin. by apply elem_of_nil in Hin.
- intros name v t Ht. by rewrite Hn.
Qed.
Lemma acquired_ok name token ttl s t hs l s' : lock_ok (LockSystem s t hs l) →
acquire name token ttl t s = (true, s') → token ∉ h_token <$> l →
lock_ok (LockSystem s' t (taken_at name token ttl t :: hs) (taken_at name token ttl t :: l)).
Proof.
intros [Ht Hi Ho Hh Hf] Ha Hfresh. simpl in *.
unfold acquire in Ha. pose proof (set_result (lock_key name) token true (Z.max 1 ttl) t s) as Hres.
assert (Hget : ∀ k' t', t <= t' → r_get k' t' s' =
  if k' == lock_key name then (if t' <? t + us (Z.max 1 ttl) then Some token else None) else r_get k' t' s).
{ intros k' t' Hle. pose proof (get_after_set (lock_key name) token true (Z.max 1 ttl) t s k' t' Hle) as Hg.
  by rewrite Ha in Hg. }
rewrite Ha in Hres. simpl in Hres. symmetry in Hres. apply negb_true_iff, bool_decide_eq_false in Hres.
assert (Hnew : taken_at name token ttl t ∉ l).
{ intros Hin. apply Hfresh. by apply (list_elem_of_fmap_2 h_token _ (taken_at name token ttl t)). }
split; simpl.
+ by constructor.
+ intros h [->|Hin]%elem_of_cons; [by left|right; by apply Hi].
+ constructor; [|done]. intros Hin. by apply Hnew, Hi.
+ intros h t' Hin Hle Hlt. rewrite Hget by done. apply elem_of_cons in Hin as [->|Hin].
  * simpl in *. rewrite bool_decide_true by done. by apply Z.ltb_lt in Hlt as ->.
  * rewrite bool_decide_false; [by apply Hh|]. intros He%lock_key_inj.
    destruct Hres. rewrite <- He. rewrite (Hh h t); [by eexists|done|lia|]. lia.
+ intros name' v t' Hle. rewrite Hget by done. case_bool_decide as He.
  * apply lock_key_inj in He as ->. destruct (Z.ltb_spec t' (t + us (Z.max 1 ttl))); [|done].
    intros [= <-]. exists (taken_at name token ttl t). split; [by left|done].
  * intros Hv. destruct (Hf name' v t' Hle Hv) as (h & ? & ?). exists h. split; [by right|done].
Qed.
Lemma released_ok h s t hs hs' l : lock_ok (LockSystem s t hs l) → hs ≡ₚ h :: hs' →
lock_ok (LockSystem (release (h_name h) (h_token h) t s) t hs' l).
Proof.
intros [Ht Hi Ho Hh Hf] Hp. simpl in *.
rewrite Hp in Ho. apply NoDup_cons in Ho as [Hnin Ho].
assert (Hin : ∀ h', h' ∈ hs' → h' ∈ hs) by (intros h' ?; rewrite Hp; by right).
assert (Hhin : h ∈ hs) by (rewrite Hp; by left).
assert (Hget : ∀ k' t', t <= t' → r_get k' t' (release (h_name h) (h_token h) t s) =
  if (r_get (lock_key (h_name h)) t s == Some (h_token h)) && (k' == lock_key (h_name h)) then None else r_get k' t' s).
{ intros k' t' Hle. unfold release, RELEASE_SCRIPT. case_bool_decide; [|done]. by rewrite get_after_del. }
split; simpl; [done|by intros h' ?; apply Hi, Hin|done| |].
+ intros h' t' Hin' Hle Hlt. rewrite Hget by done. case_bool_decide as Hg; [|by apply Hh; [apply Hin| |]].
  case_bool_decide as He; [|by apply Hh; [apply Hin| |]]. apply lock_key_inj in He. exfalso.
  assert (Hg' : r_get (lock_key (h_name h')) t s = Some (h_token h')) by (apply Hh; [by apply Hin|lia|lia]).
  rewrite He, Hg in Hg'. injection Hg' as Htok. apply Hnin.
  by rewrite (token_inj l h h' Ht (Hi h Hhin) (Hi h' (Hin h' Hin')) Htok).
+ intros name' v t' Hle. rewrite Hget by done. case_match; [done|]. by apply Hf.
Qed.
Lemma lock_step_ok s s' : lock_ok s → lock_step s s' → lock_ok s'.
Proof.
intros Hok Hstep. destruct Hstep as [name token ttl s t hs l s' Ha Hfresh|name token ttl s t hs l s' Ha
  |h s t hs hs' l Hp|h s t hs hs' l Hp|text s t hs l|t' s t hs l Htt];
  [by eapply acquired_ok| |by eapply released_ok|..]; destruct Hok as [Ht Hi Ho Hh Hf]; simpl in *.
- assert (Hget : ∀ k' t', t <= t' → r_get k' t' s' = r_get k' t' s).
  { intros k' t' Hle. pose proof (get_after_set (lock_key name) token true (Z.max 1 ttl) t s k' t' Hle) as Hg.
    unfold acquire in Ha. by rewrite Ha in Hg. }
  split; simpl; [done|done|done| |].
  + intros h t' Hin Hle Hlt. rewrite Hget by done. by apply Hh.
  + intros name' v t' Hle. rewrite Hget by done. by apply Hf.
- rewrite Hp in Ho. apply NoDup_cons in Ho as [_ Ho].
  assert (Hin : ∀ h', h' ∈ hs' → h' ∈ hs) by (intros h' ?; rewrite Hp; by right).
  split; simpl; [done|by intros h' ?; apply Hi, Hin|done|by intros h' t' ?; apply Hh, Hin|done].
- assert (Hget : ∀ name' t', t <= t' → r_get (lock_key name') t' (record_beat_heartbeat text t s) = r_get (lock_key name') t' s).
  { intros name' t' Hle. unfold record_beat_heartbeat. rewrite get_after_set by done.
    rewrite (bool_decide_false (lock_key name' = _)) by apply lock_key_beat. by rewrite andb_false_r. }
  split; simpl; [done|done|done| |].
  + intros h t' Hin Hle Hlt. rewrite Hget by done. by apply Hh.
  + intros name' v t' Hle. rewrite Hget by done. by apply Hf.
- split; simpl; [done|done|done| |].
  + intros h t2 Hin Hle Hlt. apply Hh; [done|lia|done].
  + intros name v t2 Hle. apply Hf. lia.
Qed.
Lemma lock_steps_ok s s' : rtc lock_step s s' → lock_ok s → lock_ok s'.
Proof. induction 1; eauto using lock_step_ok. Qed.

(** C37: Under any interleaving of runs that take, release or abandon locks, two runs of one
    task are never both inside their lock before their time is over, and while one is, no
    other run gets the lock; in particular a run that has outlived its time, and releases,
    leaves the lock of the next one alone. *)
Theorem task_lock_exclusive s0 s : idle s0 → rtc lock_step s0 s →
(∀ h h', h ∈ lk_holders s → h' ∈ lk_holders s → h_name h = h_name h' →
   lk_now s < h_until h → lk_now s < h_until h' → h = h') ∧
(∀ h token ttl, h ∈ lk_holders s → lk_now s < h_until h →
   (acquire (h_name h) token ttl (lk_now s) (lk_store s)).1 = false).
Proof.
intros Hidle Hsteps. destruct (lock_steps_ok _ _ Hsteps (idle_ok _ Hidle)) as [Ht Hi Ho Hh Hf]. split.
- intros h h' Hin Hin' Hname Hlt Hlt'. apply (token_inj (lk_issued s)); [done|by apply Hi|by apply Hi|].
  pose proof (Hh h (lk_now s) Hin ltac:(lia) Hlt) as Hg.
  pose proof (Hh h' (lk_now s) Hin' ltac:(lia) Hlt') as Hg'. rewrite Hname in Hg. congruence.
- intros h token ttl Hin Hlt. unfold acquire. rewrite set_result, (Hh h) by (done || lia). done.
Qed.

(** No lock is held for ever, whatever dies: from the latest deadline of the runs that ever
    took the lock of a task on, the next run gets it. *)
Theorem task_lock_recovers s0 s name : idle s0 → rtc lock_step s0 s →
∃ t0, (t0 = lk_now s ∨ ∃ h, h ∈ lk_issued s ∧ h_name h = name ∧ t0 = h_until h) ∧
  ∀ t token ttl, lk_now s <= t → t0 <= t → (acquire name token ttl t (lk_store s)).1 = true.
Proof.
intros Hidle Hsteps. destruct (lock_steps_ok _ _ Hsteps (idle_ok _ Hidle)) as [_ _ _ _ Hf].
assert (Hmax : ∃ t0, (t0 = lk_now s ∨ ∃ h, h ∈ lk_issued s ∧ h_name h = name ∧ t0 = h_until h) ∧
  ∀ h, h ∈ lk_issued s → h_name h = name → h_until h <= t0).
{ clear Hf Hsteps. induction (lk_issued s) as [|h l (t0 & Ht0 & Hle)].
  - exists (lk_now s). split; [by left|]. intros h Hin. by apply elem_of_nil in Hin.
  - destruct (decide (h_name h = name)) as [Hn|Hn]; [destruct (Z.le_gt_cases (h_until h) t0)|].
    2: { exists (h_until h). split; [right; exists h; split; [by left|done]|].
         intros h' [->|Hin]%elem_of_cons Hn'; [lia|]. specialize (Hle h' Hin Hn'). lia. }
    1, 2: exists t0; (split; [destruct Ht0 as [?|(h' & ? & ?)]; [by left|right; exists h'; split; [by right|done]]|]);
      intros h' [->|Hin]%elem_of_cons Hn'; [done || congruence|by apply Hle]. }
destruct Hmax as (t0 & Ht0 & Hle). exists t0. split; [exact Ht0|]. intros t token ttl Hnow Ht.
unfold acquire. rewrite set_result. destruct (r_get (lock_key name) t (lk_store s)) as [v|] eqn:Hg.
- destruct (Hf name v t Hnow Hg) as (h & Hin & Hn & _ & Hlt). specialize (Hle h Hin Hn). lia.
- rewrite bool_decide_false; [done|]. by intros [? ?].
Qed.
End lock.

(** ** A server that obeys the laws *)
Module RedisDemo.
Abbreviation store := (gmap string (string * datetime)).
#[export] Instance map_redis : Redis store := {|
  r_get k t s := match s !! k with Some (v, e) => if t <? e then Some v else None | None => None end;
  r_set k v nx n t s :=
    let live := match s !! k with Some (_, e) => t <? e | None => false end in
    if nx && live then (false, s) else (true, <[k := (v, t + us n)]> s);
  r_del k t s := delete k s |}.
#[export] Instance map_redis_laws : RedisLaws store.
Proof.
  split.
  - intros k v nx n t s. simpl. destruct (s !! k) as [[v' e]|]; [destruct (t <? e)|]; destruct nx; done.
  - intros k v nx n t s k' t' Hle. simpl. destruct (nx && _); simpl; [done|].
    case_bool_decide as Hk; [subst; by rewrite lookup_insert_eq|]. by rewrite lookup_insert_ne.
  - intros k t s k' t' Hle. simpl. case_bool_decide as Hk; [subst; by rewrite lookup_delete_eq|].
    by rewrite lookup_delete_ne.
Qed.
(** A run outlives its lock of two minutes; the next one takes it, and the first releases. *)
Definition first_run : holder := taken_at "retry_webhooks" "a" 120 0.
Definition second_run : holder := taken_at "retry_webhooks" "b" 120 (us 121).
Definition shared_store : store :=
  release "p" "retry_webhooks" "a" (us 122)
    (acquire "p" "retry_webhooks" "b" 120 (us 121) (acquire "p" "retry_webhooks" "a" 120 0 ∅).2).2.
Definition overlapped : lock_system := LockSystem shared_store (us 122) [second_run] [second_run; first_run].
Lemma overlapped_reachable : rtc (lock_step "p") (LockSystem ∅ 0 [] []) overlapped.
Proof.
  eapply rtc_l; [apply (step_acquired "p" "retry_webhooks" "a" 120); [reflexivity|by apply not_elem_of_nil]|].
  eapply rtc_l; [apply (step_tick "p" (us 121)); vm_compute; discriminate|].
  eapply rtc_l; [apply (step_acquired "p" "retry_webhooks" "b" 120); [vm_compute; reflexivity|set_solver]|].
  eapply rtc_l; [apply (step_tick "p" (us 122)); vm_compute; discriminate|].
  eapply rtc_l; [apply (step_released "p" first_run _ _ _ [second_run]); apply Permutation_swap|].
  apply rtc_refl.
Qed.
Lemma start_idle : idle "p" (LockSystem (∅ : store) 0 [] []).
Proof. done. Qed.
End RedisDemo.
Import RedisDemo.
Lemma task_lock_exclusive_witness :
  (acquire "p" "retry_webhooks" "third" 60 (us 122) shared_store).1 = false.
Proof.
  destruct (task_lock_exclusive "p" _ _ start_idle overlapped_reachable) as [_ Hbusy].
  apply (Hbusy second_run); [by left|reflexivity].
Defined.
Lemma task_lock_recovers_witness :
  ∃ t0, ∀ t token ttl, us 122 <= t → t0 <= t → (acquire "p" "retry_webhooks" token ttl t shared_store).1 = true.
Proof.
  destruct (task_lock_recovers "p" _ _ "retry_webhooks" start_idle overlapped_reachable) as (t0 & _ & Hfree).
  exists t0. exact Hfree.
Defined.
