(* ===== verification/Tasks.v ===== *)
(** * Tasks: the periodic tasks and the commands they run

    [apps/actions/tasks.py] and [apps/actions/management/commands/].  A task takes its lock,
    runs a command inside, and ends with a word: the lock is modelled in [TaskLock.v], so its
    outcome is an argument here. *)
From S2P Require Import Prelude PyStr Models PyData Quotas Backends Registry Events Url Ssrf Wire Webhook.
From S2P Require Import Delivery Retention Jobs Deletion.

(** ** Commands *)
(** [Command.run_counts] of [retry_webhooks]. *)
Definition run_counts (stats : retry_stats) : list (string * json) :=
  [("webhook_deliveries_attempted", JInt (rs_processed stats - rs_email_processed stats));
   ("webhook_deliveries_succeeded", JInt (rs_delivered stats - rs_email_delivered stats));
   ("webhook_deliveries_failed", JInt (rs_retried stats - rs_email_retried stats));
   ("webhook_deliveries_given_up", JInt (rs_dead stats - rs_email_dead stats));
   ("email_events_attempted", JInt (rs_email_processed stats));
   ("email_events_succeeded", JInt (rs_email_delivered stats));
   ("email_events_failed", JInt (rs_email_retried stats));
   ("email_events_given_up", JInt (rs_email_dead stats))].
(** [stats] without [complete], then [complete]. *)
Definition purge_counts (stats : purge_stats) : list (string * json) :=
  [("events", JInt (ps_events stats)); ("webhook_deliveries", JInt (ps_webhook_deliveries stats));
   ("email_events", JInt (ps_email_events stats)); ("scheduled_job_runs", JInt (ps_scheduled_job_runs stats));
   ("complete", JBool (ps_complete stats))].
Definition run_id_text (run_id : option N) : string :=
  from_option (λ i, " run_id=" +:+ str_int (Z.of_N i)) "" run_id.
Definition retry_summary (stats : retry_stats) (run_id : option N) : string :=
  "retry_webhooks: processed=" +:+ str_int (rs_processed stats) +:+ " delivered=" +:+ str_int (rs_delivered stats)
  +:+ " retried=" +:+ str_int (rs_retried stats) +:+ " dead=" +:+ str_int (rs_dead stats) +:+ run_id_text run_id.
Definition purge_summary (dry_run : bool) (stats : purge_stats) (run_id : option N) : string :=
  "purge_expired_data: " +:+ (if dry_run then "would delete" else "deleted")
  +:+ " events=" +:+ str_int (ps_events stats) +:+ " webhook_deliveries=" +:+ str_int (ps_webhook_deliveries stats)
  +:+ " email_events=" +:+ str_int (ps_email_events stats)
  +:+ " scheduled_job_runs=" +:+ str_int (ps_scheduled_job_runs stats)
  +:+ " complete=" +:+ (if ps_complete stats then "true" else "false") +:+ run_id_text run_id.

Section commands.
Context `{ActionSettings, Utf8, Resolver, Hmac, HttpDate, JsonLoads, ErrorText}.
Context (host_id : string) (net : network) (err request_id : string) (elapsed : uuid → Z → Z).

(** [handle] of both commands: a dry run is not recorded.  [ms]: how long the work takes. *)
Definition recorded_unless {A} (dry_run : bool) (job : string) (trigger : run_trigger) (ms : Z)
  (work : option N → prog (A * list (string * json))) : prog (A * option N) :=
if dry_run then r <- work None ;; ret (r.1, None)
else r <- run_recorded host_id job trigger ms (λ run_id, work (Some run_id)) ;; ret (r.1, Some r.2).
Definition retry_webhooks_handle (ticks : nat) (batch_size : Z) (dry_run : bool) (trigger : run_trigger) (ms : Z) :
  prog string :=
r <- recorded_unless dry_run "retry_webhooks" trigger ms (λ run_id,
       stats <- retry_pending_webhooks net err request_id elapsed ticks (Z.max 1 batch_size) dry_run (Z.of_N <$> run_id) ;;
       ret (stats, run_counts stats)) ;;
ret (retry_summary r.1 r.2).
(** The purge always has a result (see [purge_expired_exact]). *)
Definition purge_tables (batch_size : Z) (budget : option nat) (dry_run : bool) : prog purge_stats :=
t <- now ;; a <- get_actions ;;
match purge_expired_data (Z.to_nat (Z.max 1 batch_size)) budget dry_run t a with
| Some (a', stats) => modify_actions (λ _, a') ;;; ret stats
| None => raise (OtherError "")
end.
Definition purge_expired_data_handle (batch_size : Z) (budget : option nat) (dry_run : bool) (trigger : run_trigger)
  (ms : Z) : prog string :=
r <- recorded_unless dry_run "purge_expired_data" trigger ms (λ _,
       stats <- purge_tables batch_size budget dry_run ;; ret (stats, purge_counts stats)) ;;
ret (purge_summary dry_run r.1 r.2).

(** ** Tasks *)
Definition RETRY_WEBHOOKS_LOCK_TTL : Z := 120.
Definition PURGE_EXPIRED_DATA_LOCK_TTL : Z := 900.
(** [_run_locked].  [lock]: an exception of Redis, or whether the lock was taken.  The
  exceptions of a command are those of [run_recorded]: the run is recorded already. *)
Definition run_locked (name : string) (lock : exn + bool) (ms : Z) (command : prog string) : prog string :=
let failed_early e := record_failure_before_start host_id name TRIGGER_CELERY ms e ;;; ret "failed" in
match lock with
| inl e => failed_early e
| inr false => try_except (record_skipped name ;;; ret "skipped") (λ e, Some (failed_early e))
| inr true => try_except command (λ _, Some (ret "failed"))
end.
Definition retry_webhooks_task (lock : exn + bool) (ticks : nat) (ms : Z) : prog string :=
run_locked "retry_webhooks" lock ms (retry_webhooks_handle ticks 50 false TRIGGER_CELERY ms).
Definition purge_expired_data_task (lock : exn + bool) (budget : option nat) (ms : Z) : prog string :=
run_locked "purge_expired_data" lock ms (purge_expired_data_handle 2000 budget false TRIGGER_CELERY ms).
(** The task of the company deletion has its lock and nothing else: an exception of Redis
  leaves it. *)
Definition purge_deleted_companies_task `{Settings, Backend} (lock : exn + bool) (ticks : nat) : prog string :=
match lock with
| inl e => raise e
| inr false => ret "skipped"
| inr true =>
    stats <- purge_deleted_companies ticks ;;
    ret ("purge_deleted_companies: purged=" +:+ str_int (ds_purged stats) +:+ " failed=" +:+ str_int (ds_failed stats)
         +:+ " released=" +:+ str_int (ds_released stats))
end.

(** A task never raises. *)
Lemma record_before_start_total name ms e w : ∃ w', record_failure_before_start host_id name TRIGGER_CELERY ms e w = (inr tt, w').
Proof.
unfold record_failure_before_start, try_except, bind.
by destruct (record_run host_id name TRIGGER_CELERY ms (λ _, raise e) w) as [[e'|[]] w1]; eexists.
Qed.
Lemma run_locked_total name lock ms command w : ∃ text w', run_locked name lock ms command w = (inr text, w').
Proof.
assert (Hearly : ∀ e w1, ∃ w', (record_failure_before_start host_id name TRIGGER_CELERY ms e ;;; ret "failed") w1 = (inr "failed", w')).
{ intros e w1. destruct (record_before_start_total name ms e w1) as [w2 Hw]. exists w2. unfold bind. by rewrite Hw. }
unfold run_locked. destruct lock as [e|[]].
- destruct (Hearly e w) as [w' Hw]. by exists "failed", w'.
- unfold try_except. destruct (command w) as [[e|text] w1]; [by exists "failed", w1|by exists text, w1].
- unfold try_except, bind at 1. destruct (record_skipped name w) as [[e|[]] w1]; [|by exists "skipped", w1].
  destruct (Hearly e w1) as [w' Hw]. by exists "failed", w'.
Qed.
End commands.

(** A row that still says running after [max_runtime_seconds] belongs to a run that has lost
    its lock: the two constants of each job agree. *)
Example lock_covers_runtime :
  RETRY_WEBHOOKS_LOCK_TTL = js_max_runtime_seconds RETRY_WEBHOOKS ∧
  PURGE_EXPIRED_DATA_LOCK_TTL = js_max_runtime_seconds PURGE_EXPIRED_DATA.
Proof. auto. Qed.
