(* ===== verification/Auth.v ===== *)
(** * Auth: who is calling ([apps/authapi/])

    A request carries a token of the identity service.  The keys that verify tokens are
    loaded from a document and cached ([jwks_client.py]); [authentication.py] picks a key
    for a token and has the claims decoded; [principal.py] makes the principal of them.
    The token library is an interface: it reads a header without verifying, reads a key of
    a document, and decodes a token with given credentials and options.  [AuthLog] has
    the log lines. *)
From S2P Require Import Prelude PyStr Models PyData.

(** ** The token library *)
Record decode_options := DecodeOptions {
  do_algorithms : list string; do_require : list string;
  do_audience : option string; do_issuer : option string }.
Inductive credential (K : Type) := SigningKey (k : K) | SharedSecret (s : string).
Arguments SigningKey {K} k.
Arguments SharedSecret {K} s.
Inductive decoded := Claims (claims : list (string * json)) | ExpiredSignature | InvalidToken | OtherFailure.
Class TokenLib (K : Type) := {
  (** The [kid] of the header; [None]: the header cannot be read. *)
  unverified_kid : string → option (option string);
  jwk_from_dict : json → option K;
  jwt_decode : credential K → decode_options → string → decoded }.
(** [bytes.decode('utf-8')] of a header, and lenient Base64 followed by it; [None]: an
    exception. *)
Class HeaderText := { utf8_strict : string → option string; b64_utf8 : string → option string }.

Class AuthSettings := {
  IDENTITY_AUDIENCE : string; IDENTITY_ISSUER : string; JWT_ALGORITHMS : list string;
  JWT_HS256_FALLBACK_SECRET : string; ALLOW_JWT_HS256_FALLBACK : bool; DEBUG : bool;
  JWKS_CACHE_TTL : Z; JWKS_RETRIES : Z; IDENTITY_JWKS_DOCUMENT : option json }.

(** ** The cache of keys ([jwks_client.py]) *)
Section jwks.
Context {K : Type} `{TokenLib K, AuthSettings}.

(** [jk_requests] counts the HTTP requests made: it is not in the code. *)
Record jwks := Jwks { jk_fetched_at : Z; jk_keys : list (string * K); jk_requests : nat }.

(** The [for] loop of [_apply_document]; an entry that is not an object has no [get]. *)
Fixpoint load_entries (entries : list json) (keys : list (string * K)) : option (list (string * K)) :=
match entries with
| [] => Some keys
| JObj e :: entries' =>
    let kid := opt_json (dict_get "kid" e) in
    match jwk_from_dict (JObj e) with
    | None => load_entries entries' keys
    | Some k =>
        load_entries entries'
          (dict_set (if json_truthy kid then py_str kid else "_anon_" +:+ str_int (Z.of_nat (length keys))) k keys)
    end
| _ => None
end.
Definition document_keys (document : json) : option (list (string * K)) :=
match document with
| JObj d =>
    let entries := opt_json (dict_get "keys" d) in
    if json_truthy entries then match entries with JList l => load_entries l [] | _ => None end
    else Some []
| _ => None
end.
Definition apply_document (document : json) (t : Z) (c : jwks) : option jwks :=
(λ keys, Jwks t keys (jk_requests c)) <$> document_keys document.

(** The client is made on first use ([get_jwks_client]), and [clear] brings it back there;
    [None]: the configured document is not one. *)
Definition new_client (t : Z) : option jwks :=
let empty := Jwks 0 [] 0 in
match IDENTITY_JWKS_DOCUMENT with Some document => apply_document document t empty | None => Some empty end.
Definition get_jwks_client (client : option jwks) (t : Z) : option jwks :=
match client with Some c => Some c | None => new_client t end.
Definition clear (t : Z) (c : jwks) : option jwks :=
match IDENTITY_JWKS_DOCUMENT with
| Some document => apply_document document t c
| None => Some (Jwks 0 [] (jk_requests c))
end.

(** An answer to a request: a document, or a failure with the status, if there was one. *)
Inductive fetched := Fetched (document : json) | FetchFailed (status : option Z).
Definition is_retryable (status : option Z) : bool :=
match status with None => true | Some st => (500 <=? st) || (st in_ [408; 429]) end.
(** The document, and how many requests were made.  [net n] answers the n-th one. *)
Fixpoint fetch_from (left attempt : nat) (net : nat → fetched) : option json * nat :=
match net attempt with
| Fetched document => (Some document, attempt)
| FetchFailed status =>
    match left with
    | S left' => if is_retryable status then fetch_from left' (S attempt) net else (None, attempt)
    | O => (None, attempt)
    end
end.
Definition fetch_document (net : nat → fetched) : option json * nat := fetch_from (Z.to_nat JWKS_RETRIES) 1 net.

(** Exceptions other than those of tokens: of the request, of a strange document, of the
    library on a shared secret it cannot use. *)
Inductive auth_exn := TokenInvalid | FetchError | DocumentError | LibraryError | AuthenticationFailed | UnicodeError.
Definition count_requests (n : nat) (c : jwks) : jwks := Jwks (jk_fetched_at c) (jk_keys c) (jk_requests c + n).
Definition fresh (t : Z) (c : jwks) : bool := bool_decide (jk_keys c ≠ []) && (t - jk_fetched_at c <? JWKS_CACHE_TTL).
Definition refresh (force : bool) (t : Z) (net : nat → fetched) : M jwks auth_exn unit := λ c,
let apply document c :=
  match apply_document document t c with Some c' => (inr tt, c') | None => (inl DocumentError, c) end in
match IDENTITY_JWKS_DOCUMENT with
| Some document => if bool_decide (jk_keys c = []) then apply document c else (inr tt, c)
| None =>
    if negb force && fresh t c then (inr tt, c)
    else
      let '(answer, n) := fetch_document net in
      match answer with
      | Some document => apply document (count_requests n c)
      | None => (if bool_decide (jk_keys c ≠ []) then inr tt else inl FetchError, count_requests n c)
      end
end.
(** [net1] and [net2] answer the two refreshes. *)
Definition get_signing_key (token : string) (t : Z) (net1 net2 : nat → fetched) : M jwks auth_exn (option K) :=
match unverified_kid token with
| None => raise TokenInvalid
| Some kid =>
    refresh false t net1 ;;;
    c <- get ;;
    let kid := default "" kid in
    if truthy kid then
      match dict_get kid (jk_keys c) with
      | Some k => ret (Some k)
      | None =>
          refresh true t net2 ;;;
          c' <- get ;;
          match dict_get kid (jk_keys c') with Some k => ret (Some k) | None => raise TokenInvalid end
      end
    else
      match jk_keys c with
      | [] => ret None
      | [(_, k)] => ret (Some k)
      | _ => raise TokenInvalid
      end
end.

(** ** The principal of the claims ([principal.py]) *)
Definition claim_or (a b : json) : json := if json_truthy a then a else if json_truthy b then b else JStr "".
Definition principal_from_claims (claims : list (string * json)) : exn + principal :=
let user_metadata := match dict_get "user_metadata" claims with Some (JObj m) => m | _ => [] end in
let claim k := opt_json (dict_get k claims) in
let flag k := json_truthy (opt_json (dict_get k user_metadata)) in
match py_int (default (claim "sub") (dict_get "user_id" claims)) with
| inl _ => inl ValueError
| inr user_id =>
    let make company_id :=
      inr (StoragePrincipal user_id company_id
             (py_str (claim_or (claim "email") (opt_json (dict_get "email" user_metadata))))
             (py_str (claim_or (claim "username") (opt_json (dict_get "username" user_metadata))))
             (flag "is_staff") (flag "is_company_owner") (json_truthy (claim "pat_agm"))) in
    if blank (claim "company_id") then make None
    else match py_int (claim "company_id") with inl _ => inl ValueError | inr c => make (Some c) end
end.

(** ** [authentication.py] *)
Definition hs256_allowed : bool := truthy JWT_HS256_FALLBACK_SECRET && (DEBUG || ALLOW_JWT_HS256_FALLBACK).
Definition token_options (algorithms : list string) : decode_options :=
let given s := if truthy s then Some s else None in
DecodeOptions algorithms ["exp"] (given IDENTITY_AUDIENCE) (given IDENTITY_ISSUER).
(** Everything but an expired signature moves on to the shared secret, where that is allowed. *)
Definition decode_token (raw_token : string) (t : Z) (net1 net2 : nat → fetched) :
  M jwks auth_exn (list (string * json)) :=
key <- try_except (get_signing_key raw_token t net1 net2) (λ _, Some (ret None)) ;;
let fallback :=
  if hs256_allowed then
    match jwt_decode (SharedSecret JWT_HS256_FALLBACK_SECRET) (token_options ["HS256"]) raw_token with
    | Claims claims => ret claims
    | ExpiredSignature | InvalidToken => raise AuthenticationFailed
    | OtherFailure => raise LibraryError
    end
  else raise AuthenticationFailed in
match key with
| Some k =>
    match jwt_decode (SigningKey k) (token_options JWT_ALGORITHMS) raw_token with
    | Claims claims => ret claims
    | ExpiredSignature => raise AuthenticationFailed
    | InvalidToken | OtherFailure => fallback
    end
| None => fallback
end.
Definition authenticate_credentials (raw_token : string) (t : Z) (net1 net2 : nat → fetched) : M jwks auth_exn principal :=
claims <- decode_token raw_token t net1 net2 ;;
match principal_from_claims claims with inl _ => raise AuthenticationFailed | inr p => ret p end.

Inductive token_in_header := NoToken | Token (raw : string) | BadHeader.
Definition header_token (header : string) : token_in_header :=
match words header with
| [] => NoToken
| scheme :: rest =>
    if scheme != "Bearer" then
      if bool_decide (rest = []) && (count_char "." scheme =? 2)%nat then Token scheme else NoToken
    else match rest with [raw] => Token raw | _ => BadHeader end
end.
Context `{HeaderText}.
(** [None]: anonymous.  A header that is not UTF-8 raises. *)
Definition authenticate (header : string) (t : Z) (net1 net2 : nat → fetched) : M jwks auth_exn (option principal) :=
match utf8_strict header with
| None => raise UnicodeError
| Some header =>
    match header_token header with
    | NoToken => ret None
    | BadHeader => raise AuthenticationFailed
    | Token raw => p <- authenticate_credentials raw t net1 net2 ;; ret (Some p)
    end
end.
(** [_authenticate] of [apps/webdav/views.py]: a token may also be the password of Basic
  credentials. *)
Definition webdav_authenticate (header : string) (t : Z) (net1 net2 : nat → fetched) : M jwks auth_exn principal :=
result <- authenticate header t net1 net2 ;;
match result with
| Some p => ret p
| None =>
    if startswith "basic " (lower header) then
      match b64_utf8 (str_drop 6 header) with
      | None => raise AuthenticationFailed
      | Some credentials =>
          let password := (partition_char ":" credentials).2 in
          if truthy password then
            try_except (authenticate_credentials (strip password) t net1 net2) (λ _, Some (raise AuthenticationFailed))
          else raise AuthenticationFailed
      end
    else raise AuthenticationFailed
end.
End jwks.
Arguments jwks K : clear implicits.

(** ** What a refresh does *)
Section auth_spec.
Context {K : Type} `{TokenLib K, AuthSettings, HeaderText}.
Implicit Types c : jwks K.

(** A document the service trusts: the configured one, or an answer of the identity service. *)
Definition trusted (net : nat → fetched) (document : json) : Prop :=
match IDENTITY_JWKS_DOCUMENT with Some d => document = d | None => ∃ n, net n = Fetched document end.
Definition request_limit : nat := S (Z.to_nat JWKS_RETRIES).
Record loaded (net1 net2 : nat → fetched) (limit : nat) (c c' : jwks K) : Prop := Loaded {
ld_keys : jk_keys c' = jk_keys c ∨ ∃ document, (trusted net1 document ∨ trusted net2 document) ∧
  document_keys document = Some (jk_keys c');
ld_requests : (jk_requests c <= jk_requests c' <= jk_requests c + limit)%nat;
ld_static : IDENTITY_JWKS_DOCUMENT ≠ None → jk_requests c' = jk_requests c }.
Lemma loaded_refl net1 net2 limit c : loaded net1 net2 limit c c.
Proof. split; [by left|lia|done]. Qed.
Lemma loaded_trans net1 net2 m n c1 c2 c3 : loaded net1 net2 m c1 c2 → loaded net1 net2 n c2 c3 →
loaded net1 net2 (m + n) c1 c3.
Proof.
intros [K1 R1 S1] [K2 R2 S2]. split; [|lia|].
- destruct K2 as [->|?]; [exact K1|by right].
- intros Hs. by rewrite S2, S1.
Qed.
Lemma loaded_mono net1 net2 m n c c' : (m <= n)%nat → loaded net1 net2 m c c' → loaded net1 net2 n c c'.
Proof. intros Hmn [? ? ?]. split; [done|lia|done]. Qed.
Lemma loaded_one net net' n c c' : loaded net net n c c' → loaded net net' n c c' ∧ loaded net' net n c c'.
Proof. intros [Hk Hr Hs]. split; (split; [|done|done]); destruct Hk as [?|(d & ? & ?)]; naive_solver. Qed.

Lemma fetch_from_spec left attempt net :
let '(answer, n) := fetch_from left attempt net in
(attempt <= n <= attempt + left)%nat ∧ ∀ document, answer = Some document → net n = Fetched document.
Proof.
revert attempt. induction left as [|left IH]; intros attempt; cbn [fetch_from];
  destruct (net attempt) as [d|st] eqn:Hn; try (split; [lia|naive_solver]).
destruct (is_retryable st); [|split; [lia|done]].
specialize (IH (S attempt)). destruct (fetch_from left (S attempt) net) as [answer n]. destruct IH as [? ?]. split; [lia|done].
Qed.
Lemma wp_refresh force t net c :
wp (refresh force t net) (λ _ c', loaded net net request_limit c c') (λ _ c', loaded net net request_limit c c') c.
Proof.
assert (Happly : ∀ document c1, loaded net net request_limit c c1 → trusted net document →
  match (match apply_document document t c1 with Some c' => (inr tt, c') | None => (inl DocumentError, c1) end : (auth_exn + unit) * jwks K) with
  | (inr _, c') => loaded net net request_limit c c'
  | (inl _, c') => loaded net net request_limit c c'
  end).
{ intros document c1 Hl Hd. unfold apply_document. destruct (document_keys document) as [keys|] eqn:Hk; simpl; [|done].
  destruct Hl as [_ Hr Hs]. split; simpl; [|done|done]. right. exists document. auto. }
unfold wp, refresh. unfold trusted in *. destruct IDENTITY_JWKS_DOCUMENT as [document|] eqn:Hs.
- case_bool_decide; [|apply loaded_refl]. apply Happly; [apply loaded_refl|done].
- destruct (negb force && fresh t c); [apply loaded_refl|].
  pose proof (fetch_from_spec (Z.to_nat JWKS_RETRIES) 1 net) as Hf. unfold fetch_document.
  destruct (fetch_from (Z.to_nat JWKS_RETRIES) 1 net) as [answer n]. destruct Hf as [Hn Hd].
  assert (Hcount : loaded net net request_limit c (count_requests n c)).
  { split; [by left|unfold count_requests, request_limit; simpl; lia|done]. }
  destruct answer as [document|]; [apply Happly; [done|eauto]|]. by case_bool_decide.
Qed.

(** A cleared client is a new one, up to the requests it has made. *)
Lemma clear_renews t c : clear t c = (λ n, Jwks (jk_fetched_at n) (jk_keys n) (jk_requests c)) <$> new_client t.
Proof.
unfold clear, new_client, apply_document. destruct IDENTITY_JWKS_DOCUMENT as [d|]; [|done]. by destruct (document_keys d).
Qed.

(** The key is the one the token names, or the only one. *)
Definition key_for (token : string) (k : K) (c : jwks K) : Prop :=
∃ kid, unverified_kid token = Some kid ∧
  if truthy (default "" kid) then dict_get (default "" kid) (jk_keys c) = Some k else ∃ name, jk_keys c = [(name, k)].
Lemma wp_get_signing_key token t net1 net2 c :
wp (get_signing_key token t net1 net2)
  (λ r c', loaded net1 net2 (request_limit + request_limit) c c' ∧ ∀ k, r = Some k → key_for token k c')
  (λ _ c', loaded net1 net2 (request_limit + request_limit) c c') c.
Proof.
unfold get_signing_key. destruct (unverified_kid token) as [kid|] eqn:Hkid; [|apply wp_raise; apply loaded_refl].
apply wp_bind. eapply wp_mono; [apply wp_refresh| |].
2: { intros e c1 Hl. eapply loaded_mono; [|by apply (loaded_one _ net2 _ _ _ Hl)]. lia. }
intros u c1 Hl. apply (loaded_one _ net2) in Hl as [Hl _].
assert (Hl' : loaded net1 net2 (request_limit + request_limit) c c1) by (eapply loaded_mono; [|exact Hl]; lia).
apply wp_bind, wp_get. cbv zeta. destruct (truthy (default "" kid)) eqn:Ht.
- destruct (dict_get (default "" kid) (jk_keys c1)) as [k|] eqn:Hk.
  { apply wp_ret. split; [done|]. intros k' [= <-]. exists kid. by rewrite Ht. }
  apply wp_bind. eapply wp_mono; [apply wp_refresh| |].
  2: { intros e c2 Hl2. eapply loaded_trans; [exact Hl|]. by apply (loaded_one _ net1) in Hl2 as [_ ?]. }
  intros u' c2 Hl2. apply (loaded_one _ net1) in Hl2 as [_ Hl2].
  assert (Hl3 : loaded net1 net2 (request_limit + request_limit) c c2) by (eapply loaded_trans; [exact Hl|exact Hl2]).
  apply wp_bind, wp_get. destruct (dict_get (default "" kid) (jk_keys c2)) as [k|] eqn:Hk2; [|by apply wp_raise].
  apply wp_ret. split; [done|]. intros k' [= <-]. exists kid. by rewrite Ht.
- destruct (jk_keys c1) as [|[name k] [|]] eqn:Hk; [by apply wp_ret| |by apply wp_raise].
  apply wp_ret. split; [done|]. intros k' [= <-]. exists kid. rewrite Ht. eauto.
Qed.

(** The claims of a token were decoded with a key of the document, or with the shared secret
  where settings allow it, and with the checks that settings ask for. *)
Record verified (raw : string) (claims : list (string * json)) (c : jwks K) : Prop := Verified {
vf_claims : ∃ (cred : credential K) options, jwt_decode cred options raw = Claims claims ∧
  do_require options = ["exp"] ∧
  do_audience options = (if truthy IDENTITY_AUDIENCE then Some IDENTITY_AUDIENCE else None) ∧
  do_issuer options = (if truthy IDENTITY_ISSUER then Some IDENTITY_ISSUER else None) ∧
  match cred with
  | SigningKey k => do_algorithms options = JWT_ALGORITHMS ∧ key_for raw k c
  | SharedSecret s => do_algorithms options = ["HS256"] ∧ s = JWT_HS256_FALLBACK_SECRET ∧ s ≠ "" ∧
                      (DEBUG = true ∨ ALLOW_JWT_HS256_FALLBACK = true)
  end }.
Lemma wp_decode_token raw t net1 net2 c :
wp (decode_token raw t net1 net2)
  (λ claims c', verified raw claims c' ∧ loaded net1 net2 (request_limit + request_limit) c c') (λ _ _, True) c.
Proof.
unfold decode_token. apply wp_bind, wp_try.
assert (Hback : ∀ c', loaded net1 net2 (request_limit + request_limit) c c' → ∀ x,
  x = (if hs256_allowed then
         match jwt_decode (SharedSecret JWT_HS256_FALLBACK_SECRET) (token_options ["HS256"]) raw with
         | Claims claims => ret claims | ExpiredSignature | InvalidToken => raise AuthenticationFailed
         | OtherFailure => raise LibraryError end
       else raise AuthenticationFailed) →
  wp x (λ claims c', verified raw claims c' ∧ loaded net1 net2 (request_limit + request_limit) c c') (λ _ _, True) c').
{ intros c' Hl x ->. destruct hs256_allowed eqn:Ha; [|by apply wp_raise].
  destruct (jwt_decode _ _ raw) as [claims| | |] eqn:Hd; try (by apply wp_raise). apply wp_ret. split; [|done]. split.
  eexists _, _. split; [exact Hd|]. split_and!; try done; unfold hs256_allowed in Ha; apply andb_true_iff in Ha as [Hs Ho].
  - intros Hs'. rewrite Hs' in Hs. done.
  - by apply orb_true_iff. }
eapply wp_mono; [apply wp_get_signing_key| |].
2: { intros e c' Hl. apply wp_ret. by apply (Hback c' Hl). }
intros r c' [Hl Hk]. destruct r as [k|]; [|by apply (Hback c' Hl)].
destruct (jwt_decode (SigningKey k) _ raw) as [claims| | |] eqn:Hd; [|by apply wp_raise|by apply (Hback c' Hl)..].
apply wp_ret. split; [|done]. split. eexists _, _. split; [exact Hd|]. split_and!; try done. by apply Hk.
Qed.

Lemma wp_authenticate_credentials raw t net1 net2 c :
wp (authenticate_credentials raw t net1 net2)
  (λ p c', ∃ claims, principal_from_claims claims = inr p ∧ verified raw claims c' ∧
     loaded net1 net2 (request_limit + request_limit) c c') (λ _ _, True) c.
Proof.
unfold authenticate_credentials. apply wp_bind. eapply wp_mono; [apply wp_decode_token| |done].
intros claims c' [Hv Hl]. destruct (principal_from_claims claims) as [e|p] eqn:Hp; [by apply wp_raise|].
apply wp_ret. eauto.
Qed.

Lemma accepted_verified header t net1 net2 c p c' :
webdav_authenticate header t net1 net2 c = (inr p, c') →
∃ raw claims, principal_from_claims claims = inr p ∧ verified raw claims c' ∧
  (jk_keys c' = jk_keys c ∨ ∃ document, (trusted net1 document ∨ trusted net2 document) ∧
     document_keys document = Some (jk_keys c')).
Proof.
intros Hrun.
assert (Hwp : wp (webdav_authenticate header t net1 net2)
  (λ p c', ∃ raw claims, principal_from_claims claims = inr p ∧ verified raw claims c' ∧
     loaded net1 net2 (request_limit + request_limit) c c') (λ _ _, True) c).
{ unfold webdav_authenticate, authenticate. apply wp_bind.
  assert (Hbasic : wp (if startswith "basic " (lower header) then
      match b64_utf8 (str_drop 6 header) with
      | None => raise AuthenticationFailed
      | Some credentials =>
          let password := (partition_char ":" credentials).2 in
          if truthy password then
            try_except (authenticate_credentials (strip password) t net1 net2) (λ _, Some (raise AuthenticationFailed))
          else raise AuthenticationFailed
      end else raise AuthenticationFailed)
    (λ p c', ∃ raw claims, principal_from_claims claims = inr p ∧ verified raw claims c' ∧
       loaded net1 net2 (request_limit + request_limit) c c') (λ _ _, True) c).
  { destruct (startswith _ _); [|by apply wp_raise]. destruct (b64_utf8 _) as [cr|]; [|by apply wp_raise]. cbv zeta.
    destruct (truthy _); [|by apply wp_raise]. apply wp_try. eapply wp_mono; [apply wp_authenticate_credentials| |].
    - intros p1 c1 (claims & ? & ? & ?). eauto.
    - intros e c1 _. by apply wp_raise. }
  destruct (utf8_strict header) as [text|]; [|by apply wp_raise].
  destruct (header_token text) as [|raw|]; [by apply wp_ret| |by apply wp_raise].
  apply wp_bind. eapply wp_mono; [apply wp_authenticate_credentials| |done].
  intros p1 c1 (claims & ? & ? & ?). apply wp_ret, wp_ret. eauto. }
unfold wp in Hwp. rewrite Hrun in Hwp. destruct Hwp as (raw & claims & Hp & Hv & [Hk _ _]). eauto.
Qed.

(** C7: Whoever is let in, over HTTP or WebDAV, presented a token whose claims the token library
  decoded with the checks that the settings ask for, and the principal is made of those
  claims.  The key was the one of the document that the token names, or the only key of
  the document when the token names none; or it was the shared secret, which must be set
  and allowed, and then only HS256 was accepted.  The keys are those held before or those
  of a document the service trusts. *)
Theorem accepted_tokens_verified header t net1 net2 c p c' :
webdav_authenticate header t net1 net2 c = (inr p, c') →
∃ raw claims, principal_from_claims claims = inr p ∧ verified raw claims c' ∧
  (jk_keys c' = jk_keys c ∨ ∃ document, (trusted net1 document ∨ trusted net2 document) ∧
     document_keys document = Some (jk_keys c')).
Proof. apply accepted_verified. Qed.

(** Looking a key up makes at most twice the configured number of requests to the identity
  service; none when the keys are configured, and none when the token names a key that
  was fetched within the time to live. *)
Theorem key_requests_bounded token t net1 net2 c :
let '(_, c') := get_signing_key token t net1 net2 c in
(jk_requests c <= jk_requests c' <= jk_requests c + 2 * request_limit)%nat ∧
(IDENTITY_JWKS_DOCUMENT ≠ None → jk_requests c' = jk_requests c) ∧
(∀ kid k, unverified_kid token = Some (Some kid) → kid ≠ "" → dict_get kid (jk_keys c) = Some k →
   t - jk_fetched_at c < JWKS_CACHE_TTL → get_signing_key token t net1 net2 c = (inr (Some k), c)).
Proof.
pose proof (wp_get_signing_key token t net1 net2 c) as Hwp. unfold wp in Hwp.
assert (Hcached : ∀ kid k, unverified_kid token = Some (Some kid) → kid ≠ "" → dict_get kid (jk_keys c) = Some k →
   t - jk_fetched_at c < JWKS_CACHE_TTL → get_signing_key token t net1 net2 c = (inr (Some k), c)).
{ intros kid k Hkid Hne Hk Ht. unfold get_signing_key, refresh, bind. rewrite Hkid.
  assert (Hkeys : jk_keys c ≠ []) by (intros He; rewrite He in Hk; discriminate Hk).
  destruct IDENTITY_JWKS_DOCUMENT as [d|].
  - rewrite bool_decide_false by done. unfold get. simpl. unfold truthy. by rewrite (bool_decide_false (kid = "")), Hk.
  - unfold fresh. rewrite bool_decide_true by done. apply Z.ltb_lt in Ht. rewrite Ht. unfold get. simpl.
    unfold truthy. by rewrite (bool_decide_false (kid = "")), Hk. }
destruct (get_signing_key token t net1 net2 c) as [r c'].
assert (Hl : loaded net1 net2 (request_limit + request_limit) c c') by (destruct r; [exact Hwp|apply Hwp]).
destruct Hl as [_ Hr Hs]. split; [lia|]. split; [exact Hs|exact Hcached].
Qed.
End auth_spec.

(** ** A token library for examples: the token spells its key *)
Module AuthDemo.
#[export] Instance spelled : TokenLib string := {|
  unverified_kid raw := Some (if startswith "k" raw then Some (str_take 2 raw) else None);
  jwk_from_dict e := match e with JObj d => match dict_get "secret" d with Some (JStr s) => Some s | _ => None end | _ => None end;
  jwt_decode cred _ raw :=
    let signed s := if endswith s raw then Claims [("user_id", JInt 5); ("company_id", JStr "7");
      ("user_metadata", JObj [("is_company_owner", JBool true)])] else InvalidToken in
    match cred with SigningKey k => signed k | SharedSecret s => signed s end |}.
#[export] Instance plain_text : HeaderText := {| utf8_strict := Some; b64_utf8 s := Some s |}.
#[export] Instance production : AuthSettings := {|
  IDENTITY_AUDIENCE := "storage"; IDENTITY_ISSUER := "identity"; JWT_ALGORITHMS := ["RS256"];
  JWT_HS256_FALLBACK_SECRET := "shared"; ALLOW_JWT_HS256_FALLBACK := false; DEBUG := false;
  JWKS_CACHE_TTL := 900; JWKS_RETRIES := 2; IDENTITY_JWKS_DOCUMENT := None |}.
Definition document (keys : list (string * string)) : json :=
  JObj [("keys", JList ((λ '(kid, s), JObj [("kid", JStr kid); ("secret", JStr s)]) <$> keys))].
Definition empty_cache : jwks string := Jwks 0 [] 0.
Definition serving (keys : list (string * string)) : nat → fetched := λ _, Fetched (document keys).
Definition unreachable : nat → fetched := λ _, FetchFailed None.
End AuthDemo.
Import AuthDemo.
Lemma accepted_tokens_verified_witness :
  let run := webdav_authenticate "Bearer k2.b.key2" 1000 (serving [("k1", "key1"); ("k2", "key2")]) unreachable empty_cache in
  p_company_id <$> (match run.1 with inr p => Some p | inl _ => None end) = Some (Some 7) ∧
  ∃ raw claims, verified (K := string) raw claims run.2.
Proof.
  cbv zeta. split; [vm_compute; reflexivity|].
  destruct (accepted_tokens_verified "Bearer k2.b.key2" 1000 (serving [("k1", "key1"); ("k2", "key2")]) unreachable
    empty_cache (StoragePrincipal 5 (Some 7) "" "" false true false)
    (Jwks 1000 [("k1", "key1"); ("k2", "key2")] 1)) as (raw & claims & _ & Hv & _); [vm_compute; reflexivity|].
  exists raw, claims. exact Hv.
Defined.
(** A token that names an unknown key is refused, though the shared secret signs it, and costs
    two requests. *)
Example unknown_key_refused :
  let run := authenticate "Bearer k3.b.shared" 1000 (serving [("k1", "key1")]) (serving [("k1", "key1")]) empty_cache in
  run.1 = inl AuthenticationFailed ∧ jk_requests run.2 = 2%nat.
Proof. vm_compute. auto. Qed.
(** Without an answer the old keys stay in use, however old they are. *)
Example stale_keys_stay :
  match authenticate "Bearer k1.b.key1" 1000000 unreachable unreachable (Jwks 0 [("k1", "key1")] 0) with
  | (inr (Some p), c) => (p_company_id p, jk_requests c)
  | _ => (None, 0%nat)
  end = (Some 7, 3%nat).
Proof. vm_compute. reflexivity. Qed.
(** A header that is not UTF-8 ends in an exception nobody catches. *)
Example strange_header `{HeaderText} t net1 net2 c header : utf8_strict header = None →
  authenticate (K := string) header t net1 net2 c = (inl UnicodeError, c).
Proof. intros Hh. unfold authenticate. by rewrite Hh. Qed.
