(* ===== verification/AuthLog.v ===== *)
(** * AuthLog: what authentication writes to the log and tells the caller ([apps/authapi/])

    The lines of [authentication.py], the warnings of [get_signing_key] in [jwks_client.py]
    and the line [apps.py] writes at the start, as functions of what they are written for.
    Unverified parts of a token end up in them: the theorems say that no token can break the
    lines of [authentication.py], and that the caller learns nothing but that it failed. *)
From S2P Require Import Prelude PyStr Models PyData Redact Auth.

(** ** Lines *)
(** The token library reading a token without verifying it ([inl]: type and text of the
    exception), and the type and text of what it raises when it verifies one. *)
Class TokenText (K : Type) := {
  unverified_header : string → string + list (string * json);
  unverified_claims : string → string + list (string * json);
  key_failure : auth_exn → string * string;
  decode_failure : credential K → string → string * string }.
(** Where the keys come from ([settings.py]); these are only shown. *)
Class KeySource := { IDENTITY_JWKS_SOURCE : string; IDENTITY_JWKS_URL : json; IDENTITY_JWKS_FILE : json }.

Section lines.
Context {K : Type} `{TokenLib K, AuthSettings, TokenText K, KeySource}.

Definition _GENERIC_TOKEN_DETAIL : string := "Token is invalid or could not be verified against identity JWKS.".
Definition _safe_jwt_meta (raw_token : string) : list (string * json) :=
let segments := [("token_segments", JInt (if truthy raw_token then Z.of_nat (count_char "." raw_token) + 1 else 0))] in
match unverified_header raw_token with
| inl error => segments ++ [("header_error", JStr error)]
| inr header =>
    let get k := (k, opt_json (dict_get k header)) in
    segments ++ [get "alg"; get "kid"; get "typ"] ++
    match unverified_claims raw_token with
    | inl error => [("payload_error", JStr error)]
    | inr payload =>
        let claim k := (k, opt_json (dict_get k payload)) in [claim "iss"; claim "aud"; claim "exp"; claim "sub"]
    end
end.
(** [inl]: the client could not be made, with the type and text of the exception. *)
Definition _jwks_meta (client : string + jwks K) : list (string * json) :=
[("jwks_source", JStr (str_or IDENTITY_JWKS_SOURCE "url")); ("jwks_url", IDENTITY_JWKS_URL);
 ("jwks_file", IDENTITY_JWKS_FILE); ("algorithms", JList (JStr <$> JWT_ALGORITHMS));
 ("issuer", JStr IDENTITY_ISSUER); ("audience", JStr IDENTITY_AUDIENCE); ("hs256_fallback", JBool hs256_allowed)] ++
match client with
| inl error => [("jwks_error", JStr error)]
| inr c => [("jwks_key_count", JInt (Z.of_nat (length (jk_keys c)))); ("jwks_kids", JList (JStr <$> (jk_keys c).*1))]
end.
Definition shown (value : json) : bool :=
match value with JNull | JStr "" | JList [] => false | _ => true end.
Definition _format_context (parts : list (list (string * json))) : string :=
let merged := foldl dict_merge [] parts in
String.concat " " (map (λ kv, kv.1 +:+ "=" +:+ py_repr kv.2) (filter (λ kv, shown kv.2 = true) merged)).
(** [errors]: type and text of each exception, in order. *)
Definition _client_detail (errors : list (string * string)) : string :=
match last errors with
| Some (type, text) =>
    if DEBUG then _GENERIC_TOKEN_DETAIL +:+ " (" +:+ type +:+ ": " +:+ text +:+ ")" else _GENERIC_TOKEN_DETAIL
| None => _GENERIC_TOKEN_DETAIL
end.

(** *** [_decode_token], with the lines it writes and what it tells the caller *)
Inductive verdict := Accepted | Rejected (detail : string) | Escaped.
Definition token_alg (raw_token : string) : json := opt_json (dict_get "alg" (_safe_jwt_meta raw_token)).
Definition failed_line (what : string) (failure : string * string) (context : string) : string :=
what +:+ " (" +:+ failure.1 +:+ "): " +:+ failure.2 +:+ ". " +:+ context.

Section decoding.
Context (raw_token : string) (c : jwks K).
Abbreviation token_meta := (_safe_jwt_meta raw_token).
Abbreviation full_context := (_format_context [token_meta; _jwks_meta (inr c)]).

Definition give_up_log (lines : list string) (errors : list (string * string)) : list string * verdict :=
(lines ++ ["JWT authentication failed. " +:+ full_context +:+ " errors=" +:+
           py_repr (JList (JStr <$> (if errors is [] then ["no_signing_key"] else errors.*1)))],
 Rejected (_client_detail errors)).
Definition fallback_log (lines : list string) (errors : list (string * string)) : list string * verdict :=
if hs256_allowed then
  let secret := SharedSecret JWT_HS256_FALLBACK_SECRET in
  match jwt_decode secret (token_options ["HS256"]) raw_token with
  | Claims _ => (lines, Accepted)
  | ExpiredSignature =>
      (lines ++ ["JWT expired (HS256 fallback). " +:+ _format_context [token_meta]], Rejected "Token has expired.")
  | InvalidToken =>
      give_up_log (lines ++ [failed_line "JWT HS256 fallback failed" (decode_failure secret raw_token) (_format_context [token_meta])])
        (errors ++ [decode_failure secret raw_token])
  | OtherFailure => (lines, Escaped)
  end
else if match token_alg raw_token with JStr alg => alg == "HS256" | _ => false end then
  give_up_log
    (lines ++ ["Token alg is HS256 but HS256 fallback is disabled. For identity-service DEBUG tokens set JWT_HS256_FALLBACK_SECRET to identity SECRET_KEY; otherwise issue RS256 tokens. "
               +:+ full_context]) errors
else give_up_log lines errors.
Definition key_log (key : auth_exn + option K) : list string * verdict :=
let invalid failure := fallback_log [failed_line "JWT JWKS verification failed" failure full_context] [failure] in
let error failure := fallback_log [failed_line "JWT JWKS verification error" failure full_context] [failure] in
match key with
| inr (Some k) =>
    match jwt_decode (SigningKey k) (token_options JWT_ALGORITHMS) raw_token with
    | Claims _ => ([], Accepted)
    | ExpiredSignature => (["JWT expired. " +:+ full_context], Rejected "Token has expired.")
    | InvalidToken => invalid (decode_failure (SigningKey k) raw_token)
    | OtherFailure => error (decode_failure (SigningKey k) raw_token)
    end
| inr None => fallback_log [] []
| inl TokenInvalid => invalid (key_failure TokenInvalid)
| inl e => error (key_failure e)
end.
End decoding.

Definition decode_log (raw_token : string) (t : Z) (net1 net2 : nat → fetched) (c : jwks K) : list string * verdict :=
let '(key, c') := get_signing_key raw_token t net1 net2 c in key_log raw_token c' key.

(** *** [authenticate_credentials]: the claims of a verified token make no principal *)
Definition claims_error (claims : list (string * json)) : string :=
match py_int (default (opt_json (dict_get "sub" claims)) (dict_get "user_id" claims)) with
| inl _ => "JWT is missing a numeric user id / sub claim."
| inr _ => "JWT company_id must be an integer."
end.
Definition credentials_log (raw_token : string) (claims : list (string * json)) : list string * verdict :=
match principal_from_claims claims with
| inl _ => (["JWT claims rejected: " +:+ claims_error claims +:+ ". " +:+ _format_context [_safe_jwt_meta raw_token]],
            Rejected (claims_error claims))
| inr _ => ([], Accepted)
end.

(** *** [get_signing_key] when it finds no key; [kid] and [alg] are those of the header *)
Definition kids (c : jwks K) : string := py_repr (JList (JStr <$> (jk_keys c).*1)).
Definition missing_key_log (url : string) (kid alg : json) (c : jwks K) : list string :=
let no_keys := "JWKS has no keys (url=" +:+ (if truthy url then url else "None") +:+ " static=" +:+
               py_repr (JBool (bool_decide (is_Some IDENTITY_JWKS_DOCUMENT))) +:+ ") for token alg=" +:+ py_str alg +:+
               " kid=" +:+ py_repr kid in
if json_truthy kid then
  [if jk_keys c is [] then no_keys
   else "JWT kid=" +:+ py_repr kid +:+ " not in JWKS; refusing another key alg=" +:+ py_str alg +:+
        " available kids=" +:+ kids c]
else
  match jk_keys c with
  | [] => [no_keys]
  | [_] => []
  | _ => ["No JWKS signing key matches kid=" +:+ py_repr kid +:+ " alg=" +:+ py_str alg +:+
          "; available kids=" +:+ kids c]
  end.

(** *** The line at the start ([apps.py]) *)
Definition ready_line : string :=
let entries := match IDENTITY_JWKS_DOCUMENT with
               | Some (JObj d) => match opt_json (dict_get "keys" d) with JList l => l | _ => [] end
               | _ => []
               end in
let when_known v := if IDENTITY_JWKS_DOCUMENT is None then "fetch-on-demand" else py_repr v in
"Identity JWKS auth ready: source=" +:+ str_or IDENTITY_JWKS_SOURCE "url" +:+ " url=" +:+ py_str IDENTITY_JWKS_URL +:+
" file=" +:+ py_str IDENTITY_JWKS_FILE +:+ " key_count=" +:+ when_known (JInt (Z.of_nat (length entries))) +:+
" kids=" +:+ when_known (JList (omap (λ e, match e with JObj o => Some (opt_json (dict_get "kid" o)) | _ => None end) entries)) +:+
" algorithms=" +:+ py_repr (JList (JStr <$> JWT_ALGORITHMS)) +:+ " issuer=" +:+ str_or IDENTITY_ISSUER "None" +:+
" audience=" +:+ str_or IDENTITY_AUDIENCE "None" +:+ " hs256_fallback=" +:+ py_repr (JBool hs256_allowed).
Definition _is_long_running_server_process (argv : list string) : bool :=
match argv with
| [] => false
| prog :: args =>
    let prog := replace_char "\"%char "/"%char prog in
    contains "gunicorn" prog || contains "uwsgi" prog ||
    (endswith "manage.py" prog && match args with a :: _ => startswith "runserver" a | [] => false end)
end.
End lines.

(** ** Nothing breaks a line *)
(** A character that ends or controls a line. *)
Section control.
Context (b : ascii) (Hb : (N_of_ascii b < 32)%N).
Abbreviation plain s := (has_char b s = false).

Lemma plain_app s t : plain s → plain t → plain (s +:+ t).
Proof. intros Hs Ht. by rewrite has_char_app, Hs, Ht. Qed.
Lemma plain_concat sep l : plain sep → Forall (λ s, plain s) l → plain (String.concat sep l).
Proof.
  intros Hsep. induction 1 as [|s l Hs Hl IH]; [done|]. simpl. destruct l as [|s' l]; [done|].
  apply plain_app; [done|]. by apply plain_app.
Qed.
Lemma plain_literal s : forallb (λ c, (32 <=? N_of_ascii c)%N) (String.list_ascii_of_string s) = true → plain s.
Proof.
  induction s as [|c s IH]; [done|]. simpl. intros [Hc Hs]%andb_true_iff. rewrite has_char_cons, (IH Hs), orb_false_r.
  apply bool_decide_eq_false_2. intros ->. apply N.leb_le in Hc. lia.
Qed.
Lemma plain_int z : plain (str_int z).
Proof.
  assert (Hgo : ∀ x s, plain s → plain (pretty_N_go x s)).
  { intros x. induction (N.lt_wf_0 x) as [x _ IH]. intros s Hs. destruct (decide (x = 0)%N) as [->|Hx]; [done|].
    rewrite pretty_N_go_step by lia. apply IH; [apply N.div_lt; lia|].
    rewrite has_char_cons, Hs, orb_false_r. apply bool_decide_eq_false_2. intros <-.
    revert Hb. unfold pretty_N_char. repeat case_match; vm_compute; discriminate. }
  assert (Hn : ∀ n : N, plain (pretty n)).
  { intros n. unfold pretty, pretty_N. case_decide; [by apply plain_literal|by apply Hgo]. }
  unfold str_int. destruct z as [|p|p]; [by apply plain_literal|apply (Hn (Npos p))|].
  change (pretty (Z.neg p)) with ("-" +:+ pretty (Npos p)). apply plain_app; [by apply plain_literal|apply Hn].
Qed.
Lemma plain_repr_char q c : (32 <= N_of_ascii q)%N → plain (repr_char q c).
Proof.
  intros Hq. unfold repr_char. destruct (decide (c = q)) as [->|Hne].
  { rewrite bool_decide_true by done. apply plain_literal. simpl. by rewrite (proj2 (N.leb_le _ _) Hq). }
  rewrite (bool_decide_eq_false_2 (c = q)) by done. apply plain_literal.
  destruct c as [[] [] [] [] [] [] [] []]; vm_compute; reflexivity.
Qed.
Lemma plain_repr_str s : plain (repr_str s).
Proof.
  unfold repr_str. set (q := if has_char "'" s && negb (has_char dquote s) then dquote else "'"%char).
  assert (Hq : (32 <= N_of_ascii q)%N) by (unfold q; destruct (_ && _); vm_compute; discriminate).
  assert (Hpq : ∀ t, plain t → plain (String q t)).
  { intros t Ht. rewrite has_char_cons, Ht, orb_false_r. apply bool_decide_eq_false_2. intros <-. lia. }
  apply Hpq, plain_app; [|by apply Hpq]. apply plain_concat; [done|]. apply Forall_fmap, Forall_true. intros c.
  by apply plain_repr_char.
Qed.
Lemma plain_repr v : plain (py_repr v).
Proof.
  induction v as [|x|z|s|l Hl|l Hl] using json_ind'; simpl.
  - by apply plain_literal.
  - destruct x; by apply plain_literal.
  - apply plain_int.
  - apply plain_repr_str.
  - apply plain_app; [by apply plain_literal|]. apply plain_app; [|by apply plain_literal].
    apply plain_concat; [by apply plain_literal|]. by apply Forall_fmap.
  - apply plain_app; [by apply plain_literal|]. apply plain_app; [|by apply plain_literal].
    apply plain_concat; [by apply plain_literal|]. apply Forall_fmap. eapply Forall_impl; [exact Hl|].
    intros [k v] Hv. simpl. apply plain_app; [apply plain_repr_str|]. apply plain_app; [by apply plain_literal|done].
Qed.

Definition plain_keys (l : list (string * json)) : Prop := Forall (λ kv, plain kv.1) l.
Lemma plain_keys_merge l l' : plain_keys l → plain_keys l' → plain_keys (dict_merge l l').
Proof.
  intros Hl Hl'. unfold dict_merge. revert l Hl. induction Hl' as [|[k v] l' Hk _ IH]; intros l Hl; [done|].
  simpl. apply IH. clear IH. induction Hl as [|[k1 v1] l Hk1 Hl IH]; simpl; [by repeat constructor|].
  destruct (bool_decide _); constructor; done.
Qed.
End control.

Section one_line.
Context {K : Type} `{TokenLib K, AuthSettings, TokenText K, KeySource}.
Context (b : ascii) (Hb : (N_of_ascii b < 32)%N).
Abbreviation plain s := (has_char b s = false).
(** The texts of exceptions are those of libraries. *)
Context (key_plain : ∀ e, plain (key_failure e).1 ∧ plain (key_failure e).2)
  (decode_plain : ∀ cred raw, plain (decode_failure cred raw).1 ∧ plain (decode_failure cred raw).2).

Ltac literal_keys := repeat constructor; by apply (plain_literal b Hb).
Lemma plain_context parts : Forall (plain_keys b) parts → plain (_format_context parts).
Proof.
  intros Hparts. unfold _format_context. apply plain_concat; [by apply plain_literal|]. apply Forall_fmap.
  assert (Hm : plain_keys b (foldl dict_merge [] parts)).
  { assert (Hn : plain_keys b []) by constructor. revert Hn. generalize ([] : list (string * json)).
    induction Hparts as [|p parts Hp _ IH]; intros l Hl; [done|]. apply IH. by apply plain_keys_merge. }
  apply Forall_forall. intros kv Hkv. apply list_elem_of_filter in Hkv as [_ Hkv].
  pose proof (proj1 (Forall_forall _ _) Hm kv Hkv) as Hk. simpl.
  apply plain_app; [done|]. apply plain_app; [by apply plain_literal|by apply plain_repr].
Qed.
Lemma plain_jwt_meta raw : plain_keys b (_safe_jwt_meta raw).
Proof.
  unfold _safe_jwt_meta. destruct (unverified_header raw); [literal_keys|]. destruct (unverified_claims raw); literal_keys.
Qed.
Lemma plain_jwks_meta (client : string + jwks K) : plain_keys b (_jwks_meta client).
Proof. unfold _jwks_meta. destruct client; literal_keys. Qed.
Lemma plain_token_context raw : plain (_format_context [_safe_jwt_meta raw]).
Proof. apply plain_context. constructor; [apply plain_jwt_meta|constructor]. Qed.
Lemma plain_full_context raw (client : string + jwks K) : plain (_format_context [_safe_jwt_meta raw; _jwks_meta client]).
Proof. apply plain_context. constructor; [apply plain_jwt_meta|]. constructor; [apply plain_jwks_meta|constructor]. Qed.
Lemma plain_failed what failure context : plain what → plain failure.1 → plain failure.2 → plain context →
  plain (failed_line what failure context).
Proof.
  intros. unfold failed_line. repeat first [assumption|apply plain_app|by apply plain_literal].
Qed.

Abbreviation all_plain := (λ r : list string * verdict, Forall (λ l, plain l) r.1).
Lemma plain_give_up raw (c : jwks K) lines errors : Forall (λ l, plain l) lines → all_plain (give_up_log raw c lines errors).
Proof.
  intros Hl. unfold give_up_log. simpl. apply Forall_app. split; [done|]. repeat constructor.
  apply plain_app; [by apply plain_literal|]. apply plain_app; [apply plain_full_context|].
  apply plain_app; [by apply plain_literal|by apply (plain_repr b Hb (JList _))].
Qed.
Lemma plain_fallback raw (c : jwks K) lines errors : Forall (λ l, plain l) lines → all_plain (fallback_log raw c lines errors).
Proof.
  intros Hl. unfold fallback_log. destruct hs256_allowed.
  - destruct (jwt_decode _ _ raw); simpl; [done| | |done].
    + apply Forall_app. split; [done|]. repeat constructor.
      apply plain_app; [by apply plain_literal|apply plain_token_context].
    + apply plain_give_up, Forall_app. split; [done|]. repeat constructor.
      apply plain_failed; try apply decode_plain; [by apply plain_literal|apply plain_token_context].
  - destruct (match token_alg raw with JStr _ => _ | _ => _ end); [|by apply plain_give_up].
    apply plain_give_up, Forall_app. split; [done|]. repeat constructor.
    apply plain_app; [by apply plain_literal|apply plain_full_context].
Qed.

(** Whatever the token holds, every line that [authentication.py] writes while it decodes it
    is one line: the header and the claims, read before any signature is checked, cannot
    forge a line of the log. *)
Theorem auth_lines_whole raw t net1 net2 (c : jwks K) : all_plain (decode_log raw t net1 net2 c).
Proof.
  unfold decode_log. destruct (get_signing_key raw t net1 net2 c) as [key c'].
  assert (Hfail : ∀ what failure, plain what → plain failure.1 → plain failure.2 →
    all_plain (fallback_log raw c' [failed_line what failure (_format_context [_safe_jwt_meta raw; _jwks_meta (inr c')])] [failure])).
  { intros what failure ? ? ?. apply plain_fallback. repeat constructor. apply plain_failed; try done. apply plain_full_context. }
  unfold key_log. destruct key as [e|[k|]].
  - destruct e; apply Hfail; try apply key_plain; by apply plain_literal.
  - destruct (jwt_decode _ _ raw); simpl; [done| |apply Hfail; try apply decode_plain; by apply plain_literal..].
    repeat constructor. apply plain_app; [by apply plain_literal|apply plain_full_context].
  - by apply plain_fallback.
Qed.
Lemma credentials_lines_whole raw claims : all_plain (credentials_log raw claims).
Proof.
  unfold credentials_log. destruct (principal_from_claims claims); simpl; [|done]. repeat constructor.
  apply plain_app; [by apply plain_literal|]. apply plain_app.
  - unfold claims_error. destruct (py_int _); by apply plain_literal.
  - apply plain_app; [by apply plain_literal|apply plain_token_context].
Qed.
End one_line.

(** ** What the caller learns *)
Section verdicts.
Context {K : Type} `{TokenLib K, AuthSettings, TokenText K, KeySource}.

(** The log and the handler agree, and outside DEBUG a caller is told one of two fixed texts:
    nothing of the token, the keys or the exception. *)
Theorem rejection_generic raw t net1 net2 (c : jwks K) :
  match (decode_log raw t net1 net2 c).2, (decode_token raw t net1 net2 c).1 with
  | Accepted, inr _ | Escaped, inl LibraryError => True
  | Rejected detail, inl AuthenticationFailed =>
      DEBUG = false → detail = _GENERIC_TOKEN_DETAIL ∨ detail = "Token has expired."
  | _, _ => False
  end.
Proof.
  assert (Hdetail : ∀ errors, DEBUG = false → _client_detail errors = _GENERIC_TOKEN_DETAIL ∨ _client_detail errors = "Token has expired.").
  { intros errors Hd. unfold _client_detail. left. rewrite Hd. by destruct (last errors) as [[]|]. }
  unfold decode_log, decode_token, key_log, fallback_log, give_up_log, bind, try_except.
  destruct (get_signing_key raw t net1 net2 c) as [[e|[k|]] c']; simpl.
  1: destruct e; simpl.
  all: try (destruct (jwt_decode (SigningKey k) _ raw); simpl).
  all: try done; try (intros _; by right).
  all: destruct hs256_allowed; simpl;
    [destruct (jwt_decode (SharedSecret _) _ raw); simpl; try done; try (intros _; by right)
    |destruct (match token_alg raw with JStr _ => _ | _ => _ end); simpl]; apply Hdetail.
Qed.
End verdicts.

(** Two configurations that differ in the shared secret only log the same at the start. *)
Lemma ready_line_hides_secret {K} `{KeySource} (s : AuthSettings) secret :
  truthy secret = truthy (@JWT_HS256_FALLBACK_SECRET s) →
  let s' := {| IDENTITY_AUDIENCE := IDENTITY_AUDIENCE; IDENTITY_ISSUER := IDENTITY_ISSUER; JWT_ALGORITHMS := JWT_ALGORITHMS;
               JWT_HS256_FALLBACK_SECRET := secret; ALLOW_JWT_HS256_FALLBACK := ALLOW_JWT_HS256_FALLBACK; DEBUG := DEBUG;
               JWKS_CACHE_TTL := JWKS_CACHE_TTL; JWKS_RETRIES := JWKS_RETRIES; IDENTITY_JWKS_DOCUMENT := IDENTITY_JWKS_DOCUMENT |} in
  @ready_line s' _ = ready_line ∧ ∀ client : string + jwks K, @_jwks_meta K s' _ client = _jwks_meta client.
Proof. intros Hs. split; [|intros client]; unfold ready_line, _jwks_meta, hs256_allowed; simpl; by rewrite Hs. Qed.

(** ** Concrete lines *)
Import AuthDemo.
Module AuthLogDemo.
Definition forged : string := "x" +:+ String "010" "INFO [apps] admin logged in".
(** A token whose header names an unknown key and holds a line break; it is not signed. *)
#[export] Instance texts : TokenText string := {|
  unverified_header _ := inr [("alg", JStr forged); ("kid", JStr "k3")];
  unverified_claims _ := inr [("sub", JStr forged)];
  key_failure _ := ("InvalidTokenError", "Unable to find a signing key that matches kid='k3'");
  decode_failure _ _ := ("InvalidSignatureError", "Signature verification failed") |}.
#[export] Instance source : KeySource := {|
  IDENTITY_JWKS_SOURCE := "url"; IDENTITY_JWKS_URL := JStr "https://id.example/jwks"; IDENTITY_JWKS_FILE := JNull |}.
Definition run : list string * verdict :=
  decode_log "k3.b.c" 1000 (serving [("k1", "key1")]) (serving [("k1", "key1")]) empty_cache.
End AuthLogDemo.
Import AuthLogDemo.

Lemma auth_lines_whole_witness :
  run.2 = Rejected _GENERIC_TOKEN_DETAIL ∧ length run.1 = 2%nat ∧ Forall (λ l, has_char "010" l = false) run.1.
Proof.
  split; [vm_compute; reflexivity|]. split; [vm_compute; reflexivity|].
  unfold run. apply auth_lines_whole; [reflexivity|intros e|intros cred raw]; split; reflexivity.
Defined.
Example rejected_line :
  run.1 !! 0%nat = Some ("JWT JWKS verification failed (InvalidTokenError): Unable to find a signing key that matches kid='k3'. token_segments=3 alg='x\nINFO [apps] admin logged in' kid='k3' sub='x\nINFO [apps] admin logged in' jwks_source='url' jwks_url='https://id.example/jwks' algorithms=['RS256'] issuer='identity' audience='storage' hs256_fallback=False jwks_key_count=1 jwks_kids=['k1']").
Proof. vm_compute. reflexivity. Qed.
(** The warnings of the cache of keys show the algorithm as it is: the same token forges a
    line there. *)
Example alg_forges_line :
  existsb (has_char "010") (missing_key_log "https://id.example/jwks" (JStr "k3") (JStr forged) (Jwks 0 [("k1", "key1")] 0)) = true.
Proof. vm_compute. reflexivity. Qed.
