(* ===== verification/Stats.v ===== *)
(** * Stats: aggregated statistics ([apps/storage/stats.py] and [StatsView])

    A queryset is the list of rows of a table, in the order of the database.  The
    numbers, the groups and the daily series are computed as the code computes them;
    the result is a record with the keys of the dictionary, whose one floating-point
    entry ([pct], rounded to one decimal) is kept as a number of tenths. *)
From S2P Require Import Prelude PyStr PyData PyFloat Models Access Quotas Backends Services FileStore StoreSpec Views RestSpec.

Definition DOCUMENT_MIME_PREFIXES : list string :=
  ["application/pdf"; "application/msword"; "application/vnd.openxmlformats";
   "application/vnd.ms-"; "application/rtf"; "text/"; "application/json"; "application/xml";
   "application/yaml"; "application/toml"; "application/epub"].

(** ** Text of sizes and families of types *)
Definition below_1024 (value : float) : bool := flt (SFabs value) (float_of_int 1024).
Fixpoint human_units (n : Z) (value : float) (units : list string) : string :=
  match units with
  | [] => str_int n +:+ " B"
  | unit :: units' =>
      if below_1024 value || (unit == "TiB") then
        if unit == "B" then str_int (float_int value) +:+ " " +:+ unit
        else format_1f value +:+ " " +:+ unit
      else human_units n (fdiv value (float_of_int 1024)) units'
  end.
Definition human_bytes (n : Z) : string :=
  human_units n (float_of_int n) ["B"; "KiB"; "MiB"; "GiB"; "TiB"].

Definition _mime_family (mime : string) : string :=
  let mime := lower (str_or mime "application/octet-stream") in
  if startswith "image/" mime then "Images"
  else if startswith "video/" mime then "Video"
  else if startswith "audio/" mime then "Audio"
  else if (mime in_ ["text/markdown"; "text/x-markdown"]) || startswith "text/" mime then "Text / Markdown"
  else if (mime == "application/pdf") || contains "document" mime || contains "msword" mime
       || contains "officedocument" mime then "Office / PDF"
  else if startswith "application/json" mime
       || (mime in_ ["application/yaml"; "application/toml"; "application/xml"]) then "Data"
  else "Other".

(** [Q(mime_type__istartswith=prefix)] on a row. *)
Definition istartswith (prefix : string) (o : sobject) : bool := startswith (lower prefix) (lower (o_mime_type o)).
Definition document_q (o : sobject) : bool :=
  foldr (λ prefix q, istartswith prefix o || q) false DOCUMENT_MIME_PREFIXES.
Definition _is_document (mime : string) : bool :=
  existsb (λ prefix, startswith prefix (lower mime)) DOCUMENT_MIME_PREFIXES.

Example human_demo : human_bytes <$> [0; 512; 1023; 2048; 1048575; 5368709120; 2 ^ 60]
  = ["0 B"; "512 B"; "1023 B"; "2.0 KiB"; "1024.0 KiB"; "5.0 GiB"; "1048576.0 TiB"].
Proof. vm_compute. reflexivity. Qed.
Example family_demo : _mime_family <$> ["image/PNG"; "text/markdown"; "application/vnd.oasis.opendocument.text"; ""]
  = ["Images"; "Text / Markdown"; "Office / PDF"; "Other"].
Proof. reflexivity. Qed.

(** ** Aggregates *)
Definition count_rows {R} (l : list R) : Z := Z.of_nat (length l).
(** [Sum('size')], [None] replaced by zero. *)
Definition sum_size (l : list sobject) : Z := foldr Z.add 0 (o_size <$> l).

Record aggregate (K : Type) := Aggregate { ag_key : K; ag_count : Z; ag_bytes : Z }.
Arguments Aggregate {K}.
Arguments ag_key {K}.
Arguments ag_count {K}.
Arguments ag_bytes {K}.
(** [.values(key).annotate(object_count=Count('id'), total_bytes=Sum('size'))] *)
Definition group_by {K} `{EqDecision K} (key : sobject → K) (l : list sobject) : list (aggregate K) :=
  (λ k, let g := filter (λ o, key o = k) l in Aggregate k (count_rows g) (sum_size g))
    <$> remove_dups (key <$> l).
Definition more_bytes {K} (a b : aggregate K) : bool := ag_bytes b <=? ag_bytes a.
Definition more_rows {K} (a b : aggregate K) : bool := ag_count b <=? ag_count a.

(** [bucket__name], [bucket__company_id] of an object. *)
Definition bucket_label (d : db) (o : sobject) : option (string * Z) :=
  (λ b, (b_name b, b_company_id b)) <$> db_buckets d !! o_bucket_id o.

(** [family_map] *)
Definition add_family (m : list (string * (Z * Z))) (row : aggregate string) : list (string * (Z * Z)) :=
  let family := _mime_family (ag_key row) in
  let '(c, b) := default (0, 0) (dict_get family m) in
  dict_set family (c + ag_count row, b + ag_bytes row) m.
Definition family_map (rows : list (aggregate string)) : list (string * (Z * Z)) := foldl add_family [] rows.
Definition more_in_family (x y : string * (Z * Z)) : bool := y.2.1 <=? x.2.1.

Definition created_since (t : datetime) (o : sobject) : bool := t <=? o_created_at o.
Definition day_of (t : datetime) : Z := t / us_per_day.
(** [date.isoformat()] *)
Definition date_iso (day : Z) : string := str_take 10 (isoformat_naive (day * us_per_day)).

Record daily_row := DailyRow { dr_day : string; dr_count : Z; dr_bytes : Z; dr_display : string; dr_bar_pct : Z }.
Record quota_row := QuotaRow {
  qr_company_id : Z; qr_used : Z; qr_max : Z; qr_used_display : string; qr_max_display : string;
  qr_pct_tenths : Z }.
Record recent_row := RecentRow {
  rr_id : uuid; rr_name : string; rr_basename : string; rr_bucket : option string; rr_company_id : Z;
  rr_owner_id : option Z; rr_mime_type : string; rr_size : Z; rr_size_display : string;
  rr_created_at : string; rr_is_document : bool }.
Record storage_stats := StorageStats {
  ss_scope_company_id : option Z;
  ss_object_count : Z; ss_total_bytes : Z; ss_total_display : string;
  ss_bucket_count : Z; ss_company_count : Z;
  ss_document_count : Z; ss_document_bytes : Z; ss_document_display : string;
  ss_uploads_24h : Z; ss_uploads_7d : Z; ss_uploads_30d : Z; ss_bytes_7d : Z; ss_bytes_7d_display : string;
  ss_by_company : list (aggregate Z * string);
  ss_by_bucket : list (aggregate (option (string * Z)) * string * string);
  ss_by_mime : list (aggregate string * string);
  ss_by_family : list (aggregate string * string);
  ss_quotas : list quota_row;
  ss_daily_series : list daily_row;
  ss_recent : list recent_row;
  ss_generated_at : string }.

(** [.filter(company_id=company_id)] when a company is given. *)
Definition scoped {K R} `{Countable K} (company : K → R → Z) (company_id : option Z) (t : gmap K R) : gmap K R :=
  match company_id with
  | None => t
  | Some c => filter (λ kr, company kr.1 kr.2 = c) t
  end.
Definition company_objects (company_id : option Z) (d : db) : list sobject :=
  rows (scoped (λ _, o_company_id) company_id (db_objects d)).
Definition company_buckets (company_id : option Z) (d : db) : list bucket :=
  rows (scoped (λ _, b_company_id) company_id (db_buckets d)).
Definition company_quota_rows (company_id : option Z) (d : db) : list (Z * company_quota) :=
  map_to_list (scoped (λ c _, c) company_id (db_company_quotas d)).

(** [min(100.0, 100.0 * used / max)] *)
Definition usage_pct (q : company_quota) : float :=
  if cq_max_bytes q == 0 then float_of_int 0
  else fmin (float_of_int 100)
         (fdiv (fmul (float_of_int 100) (float_of_int (cq_used_bytes q))) (float_of_int (cq_max_bytes q))).
Definition stats_quota (kq : Z * company_quota) : quota_row :=
  let '(company_id, q) := kq in
  QuotaRow company_id (cq_used_bytes q) (cq_max_bytes q) (human_bytes (cq_used_bytes q))
    (human_bytes (cq_max_bytes q)) (scaled 1 (usage_pct q)).
Definition stats_recent (d : db) (o : sobject) : recent_row :=
  RecentRow (o_id o) (o_name o) (o_basename o) (b_name <$> db_buckets d !! o_bucket_id o) (o_company_id o)
    (o_owner_id o) (o_mime_type o) (o_size o) (human_bytes (o_size o)) (iso_z (o_created_at o))
    (_is_document (o_mime_type o)).

(** [range(days, -1, -1)] *)
Definition offsets (days : Z) : list Z := Z.of_nat <$> rev (seq 0 (Z.to_nat (days + 1))).
Definition daily_counts (now days : Z) (objects : list sobject) : list (Z * Z * Z) :=
  let daily := group_by (λ o, day_of (o_created_at o))
                 (filter (λ o, created_since (now - days * us_per_day) o = true) objects) in
  (λ offset,
     let day := day_of (now - offset * us_per_day) in
     match List.find (λ row, ag_key row == day) daily with
     | Some row => (day, ag_count row, ag_bytes row)
     | None => (day, 0, 0)
     end) <$> offsets days.
Definition max_daily (series : list (Z * Z * Z)) : Z :=
  let m := foldr Z.max 0 ((λ r, r.1.2) <$> series) in if m == 0 then 1 else m.
Definition daily_series (now days : Z) (objects : list sobject) : list daily_row :=
  let series := daily_counts now days objects in
  (λ r, let '(day, c, b) := r in
        DailyRow (date_iso day) c b (human_bytes b) (py_round (true_div (100 * c) (max_daily series))))
    <$> series.

(** ** [build_storage_stats] *)
Definition build_storage_stats (recent_limit days : Z) (company_id : option Z) (now : datetime) (d : db) :
  storage_stats :=
  let objects := company_objects company_id d in
  let since n := filter (λ o, created_since (now - n * us_per_day) o = true) objects in
  let documents := filter (λ o, document_q o = true) objects in
  let by_company := take 20 (sort_by more_bytes (group_by o_company_id objects)) in
  let by_bucket := take 20 (sort_by more_bytes (group_by (bucket_label d) objects)) in
  let by_mime_raw := sort_by more_rows (group_by o_mime_type objects) in
  let by_family := sort_by more_in_family (family_map by_mime_raw) in
  let recent := take (Z.to_nat recent_limit)
                  (sort_by (λ o o', o_created_at o' <=? o_created_at o) objects) in
  StorageStats company_id
    (count_rows objects) (sum_size objects) (human_bytes (sum_size objects))
    (count_rows (company_buckets company_id d)) (count_rows (remove_dups (o_company_id <$> objects)))
    (count_rows documents) (sum_size documents) (human_bytes (sum_size documents))
    (count_rows (since 1)) (count_rows (since 7)) (count_rows (since 30))
    (sum_size (since 7)) (human_bytes (sum_size (since 7)))
    ((λ row, (row, human_bytes (ag_bytes row))) <$> by_company)
    ((λ row, (row, human_bytes (ag_bytes row),
              from_option (λ nc, str_int nc.2 +:+ "/" +:+ nc.1) "" (ag_key row))) <$> by_bucket)
    ((λ row, (row, human_bytes (ag_bytes row))) <$> take 15 by_mime_raw)
    ((λ '(name, (c, b)), (Aggregate name c b, human_bytes b)) <$> by_family)
    (stats_quota <$> sort_by (λ q q', q.1 <=? q'.1) (company_quota_rows company_id d))
    (daily_series now days objects)
    (stats_recent d <$> recent)
    (iso_z now).

(** ** [StatsView]

    Staff see every company, the others their own.  The parameter [days] is read by
    [int] outside the [try]: a text that is no number is a server error. *)
Definition stats_scope (p : principal) : prog (response + option Z) :=
  if p_is_staff p then ret (inr None)
  else try_except (c <- require_company_id p ;; ret (inr (Some c)))
         (λ e, match e with
               | StorageError status code => Some (ret (inl (error_response status code)))
               | _ => None
               end).
Definition stats_days (rq : http_request) : prog Z :=
  days <- (match last_get "days" (rq_query rq) with
           | Some s => if truthy s then match py_int_str 10 s with Some n => ret n | None => raise ValueError end
                       else ret 14
           | None => ret 14
           end) ;;
  ret (Z.max 1 (Z.min days 90)).
Definition StatsView_get (rq : http_request) : prog (response + storage_stats) :=
  match rq_user rq with
  | None => ret (inl (Response 401 (CJson (JObj []))))
  | Some p =>
      scope <- stats_scope p ;;
      match scope with
      | inl resp => ret (inl resp)
      | inr company_id =>
          days <- stats_days rq ;; t <- now ;; d <- get_db ;;
          ret (inr (build_storage_stats 25 days company_id t d))
      end
  end.
(** [StorageAdminSite.index] and [statistics_view] (of [apps/storage/admin.py]) show
    the statistics of every company to the staff of the site. *)
Definition admin_index_stats : prog storage_stats :=
  t <- now ;; d <- get_db ;; ret (build_storage_stats 8 14 None t d).
Definition statistics_view : prog storage_stats :=
  t <- now ;; d <- get_db ;; ret (build_storage_stats 50 30 None t d).

(** ** Sums and partitions *)
Lemma sum_size_app l l' : sum_size (l ++ l') = sum_size l + sum_size l'.
Proof.
  induction l as [|o l IH]; [done|]. unfold sum_size in *. cbn [app fmap list_fmap foldr].
  rewrite IH. lia.
Qed.
Lemma sum_size_cons o l : sum_size (o :: l) = o_size o + sum_size l.
Proof. done. Qed.
Lemma sum_size_perm l l' : l ≡ₚ l' → sum_size l = sum_size l'.
Proof. intros Hp. apply foldr_add_perm. by rewrite Hp. Qed.
Lemma count_rows_app {R} (l l' : list R) : count_rows (l ++ l') = count_rows l + count_rows l'.
Proof. unfold count_rows. rewrite length_app. lia. Qed.
Lemma count_rows_perm {R} (l l' : list R) : l ≡ₚ l' → count_rows l = count_rows l'.
Proof. intros Hp. unfold count_rows. by rewrite Hp. Qed.

Lemma filter_all_true {A} (P : A → Prop) `{∀ x, Decision (P x)} (l : list A) :
  (∀ x, x ∈ l → P x) → filter P l = l.
Proof.
  induction l as [|x l IH]; intros Hall; [done|]. rewrite filter_cons_True by (apply Hall; by left).
  f_equal. apply IH. intros y Hy. apply Hall. by right.
Qed.
Lemma filter_all_false {A} (P : A → Prop) `{∀ x, Decision (P x)} (l : list A) :
  (∀ x, x ∈ l → ¬ P x) → filter P l = [].
Proof.
  induction l as [|x l IH]; intros Hall; [done|]. rewrite filter_cons_False by (apply Hall; by left).
  apply IH. intros y Hy. apply Hall. by right.
Qed.
Lemma filter_ext_in {A} (P Q : A → Prop) `{∀ x, Decision (P x), ∀ x, Decision (Q x)} (l : list A) :
  (∀ x, x ∈ l → P x ↔ Q x) → filter P l = filter Q l.
Proof.
  induction l as [|x l IH]; intros Hall; [done|]. rewrite !filter_cons.
  rewrite (decide_ext (P x) (Q x)) by (apply Hall; by left).
  rewrite IH; [done|]. intros y Hy. apply Hall. by right.
Qed.

(** A measure of lists of rows that adds up: the number of rows, or their bytes. *)
Class Additive (f : list sobject → Z) : Prop := {
  additive_nil : f [] = 0;
  additive_app l l' : f (l ++ l') = f l + f l';
  additive_perm l l' : l ≡ₚ l' → f l = f l' }.
#[export] Instance count_additive : Additive count_rows.
Proof. split; [done|apply count_rows_app|apply count_rows_perm]. Qed.
#[export] Instance size_additive : Additive sum_size.
Proof. split; [done|apply sum_size_app|apply sum_size_perm]. Qed.

Section additive.
Context (f : list sobject → Z) `{!Additive f}.
Lemma additive_split (P : sobject → Prop) `{∀ o, Decision (P o)} l :
  f l = f (filter P l) + f (filter (λ o, ¬ P o) l).
Proof. rewrite <- additive_app. apply additive_perm. symmetry. apply filter_app_complement. Qed.
(** The classes of a key partition the rows. *)
Lemma additive_classes {K} `{EqDecision K} (key : sobject → K) (ks : list K) (l : list sobject) :
  NoDup ks → foldr Z.add 0 ((λ k, f (filter (λ o, key o = k) l)) <$> ks) = f (filter (λ o, key o ∈ ks) l).
Proof.
  induction 1 as [|k ks Hk Hnd IH]; cbn [fmap list_fmap foldr].
  - rewrite <- additive_nil. f_equal. symmetry. induction l as [|o l IHl]; [done|].
    rewrite filter_cons_False; [done|]. apply not_elem_of_nil.
  - rewrite IH. rewrite <- additive_app. apply additive_perm.
    clear IH. induction l as [|o l IHl]; [done|].
    rewrite !filter_cons. destruct (decide (key o = k)) as [->|Hne].
    + rewrite (decide_False (P := k ∈ ks)), decide_True by (done || by left). simpl. by rewrite IHl.
    + destruct (decide (key o ∈ ks)) as [Hin|Hout].
      * rewrite decide_True by (by right). rewrite <- Permutation_middle. by rewrite IHl.
      * rewrite decide_False; [done|]. by intros [?|?]%elem_of_cons.
Qed.
Lemma additive_groups {K} `{EqDecision K} (key : sobject → K) (l : list sobject) :
  foldr Z.add 0 ((λ k, f (filter (λ o, key o = k) l)) <$> remove_dups (key <$> l)) = f l.
Proof.
  rewrite additive_classes by apply NoDup_remove_dups. f_equal.
  apply filter_all_true. intros o Ho. by apply elem_of_remove_dups, list_elem_of_fmap_2.
Qed.
End additive.

(** ** Groups and families *)
Definition total_count {K} (l : list (aggregate K)) : Z := foldr Z.add 0 (ag_count <$> l).
Definition total_bytes {K} (l : list (aggregate K)) : Z := foldr Z.add 0 (ag_bytes <$> l).

Lemma group_by_count {K} `{EqDecision K} (key : sobject → K) l : total_count (group_by key l) = count_rows l.
Proof.
  unfold total_count, group_by. rewrite <- list_fmap_compose. unfold compose. cbn [ag_count].
  apply (additive_groups count_rows).
Qed.
Lemma group_by_bytes {K} `{EqDecision K} (key : sobject → K) l : total_bytes (group_by key l) = sum_size l.
Proof.
  unfold total_bytes, group_by. rewrite <- list_fmap_compose. unfold compose. cbn [ag_bytes].
  apply (additive_groups sum_size).
Qed.
Lemma total_sorted {K} (le : aggregate K → aggregate K → bool) (g : aggregate K → Z) l :
  foldr Z.add 0 (g <$> sort_by le l) = foldr Z.add 0 (g <$> l).
Proof. apply foldr_add_perm. by rewrite sort_by_perm. Qed.

(** The group of a key, if it has rows. *)
Lemma group_find {K} `{EqDecision K} (key : sobject → K) (k : K) (l : list sobject) :
  List.find (λ row, ag_key row == k) (group_by key l) =
    let g := filter (λ o, key o = k) l in
    if decide (k ∈ key <$> l) then Some (Aggregate k (count_rows g) (sum_size g)) else None.
Proof.
  unfold group_by. cbv zeta.
  assert (Hks : k ∈ remove_dups (key <$> l) ↔ k ∈ key <$> l) by apply elem_of_remove_dups.
  rewrite (decide_ext _ _ _ _ (iff_sym Hks)). clear Hks.
  induction (remove_dups (key <$> l)) as [|k' ks IH]; cbn [fmap list_fmap List.find ag_key].
  - rewrite decide_False; [done|apply not_elem_of_nil].
  - destruct (bool_decide_reflect (k' = k)) as [->|Hne].
    + by rewrite decide_True by (by left).
    + rewrite IH. destruct (decide (k ∈ ks)) as [Hin|Hout].
      * by rewrite decide_True by (by right).
      * rewrite decide_False; [done|]. intros [?|?]%elem_of_cons; [by subst|done].
Qed.

Lemma sum_dict_set (g : Z * Z → Z) k v (m : list (string * (Z * Z))) :
  g (0, 0) = 0 → foldr Z.add 0 ((g ∘ snd) <$> dict_set k v m) =
    foldr Z.add 0 ((g ∘ snd) <$> m) - g (default (0, 0) (dict_get k m)) + g v.
Proof.
  intros Hg. induction m as [|[k' v'] m IH]; cbn -[Z.add Z.sub]; [rewrite Hg; simpl; lia|].
  case_bool_decide; cbn -[Z.add Z.sub] in *; [unfold compose; simpl; lia|]. rewrite IH. unfold compose. simpl. lia.
Qed.
Lemma family_map_sums (rows : list (aggregate string)) m :
  foldr Z.add 0 ((fst ∘ snd) <$> foldl add_family m rows) =
    foldr Z.add 0 ((fst ∘ snd) <$> m) + total_count rows ∧
  foldr Z.add 0 ((snd ∘ snd) <$> foldl add_family m rows) =
    foldr Z.add 0 ((snd ∘ snd) <$> m) + total_bytes rows.
Proof.
  revert m. induction rows as [|row rows IH]; intros m; cbn [foldl].
  { unfold total_count, total_bytes. simpl. lia. }
  destruct (IH (add_family m row)) as [-> ->]. unfold total_count, total_bytes.
  cbn [fmap list_fmap foldr]. unfold add_family.
  destruct (default (0, 0) (dict_get (_mime_family (ag_key row)) m)) as [c b] eqn:Hcb.
  rewrite (sum_dict_set fst), (sum_dict_set snd), Hcb by done. simpl. lia.
Qed.

(** ** The daily series *)
Lemma us_per_day_pos : 0 < us_per_day.
Proof. done. Qed.
Lemma day_before now n : day_of (now - n * us_per_day) = day_of now - n.
Proof.
  unfold day_of. replace (now - n * us_per_day) with (now + - n * us_per_day) by lia.
  rewrite Z.div_add by done. lia.
Qed.
Lemma elem_of_offsets n days : n ∈ offsets days ↔ 0 ≤ n ≤ days.
Proof.
  unfold offsets. rewrite list_elem_of_fmap. split.
  - intros (i & -> & Hi). apply list_elem_of_In, in_rev, in_seq in Hi. lia.
  - intros Hn. exists (Z.to_nat n). split; [lia|]. apply list_elem_of_In. rewrite <- in_rev. apply in_seq. lia.
Qed.
Lemma offsets_nodup days : NoDup (offsets days).
Proof.
  unfold offsets. apply NoDup_fmap; [apply _|]. apply NoDup_ListNoDup, List.NoDup_rev, seq_NoDup.
Qed.
Section daily.
Context (now days : Z) (objects : list sobject).
Let since := filter (λ o, created_since (now - days * us_per_day) o = true) objects.
Let of_day (day : Z) := filter (λ o, day_of (o_created_at o) = day) since.

Lemma daily_counts_groups : daily_counts now days objects =
  (λ day, (day, count_rows (of_day day), sum_size (of_day day))) <$> ((λ n, day_of now - n) <$> offsets days).
Proof.
  unfold daily_counts. rewrite <- list_fmap_compose. apply list_fmap_ext. intros i n _. cbv zeta.
  unfold compose. rewrite day_before, group_find. cbv zeta. fold since. unfold of_day.
  destruct (decide (day_of now - n ∈ _)) as [_|Hout]; [done|].
  rewrite filter_all_false; [done|]. intros o Ho Heq. apply Hout. rewrite <- Heq.
  by apply (list_elem_of_fmap_2 (λ o, day_of (o_created_at o))).
Qed.
Lemma since_day o : created_since (now - days * us_per_day) o = true → day_of now - days ≤ day_of (o_created_at o).
Proof.
  unfold created_since. intros Hle%Z.leb_le. rewrite <- day_before. by apply Z.div_le_mono.
Qed.
(** The series adds up to the rows created since its start, up to today. *)
Lemma daily_sum (f : list sobject → Z) `{!Additive f} :
  foldr Z.add 0 ((λ day, f (of_day day)) <$> ((λ n, day_of now - n) <$> offsets days)) =
    f (filter (λ o, day_of (o_created_at o) ≤ day_of now) since).
Proof.
  unfold of_day. rewrite (additive_classes f (λ o, day_of (o_created_at o))).
  - f_equal. apply filter_ext_in. intros o [Ho _]%list_elem_of_filter. apply since_day in Ho.
    rewrite list_elem_of_fmap. split.
    + intros (n & -> & Hn%elem_of_offsets). lia.
    + intros Hle. exists (day_of now - day_of (o_created_at o)). rewrite elem_of_offsets. lia.
  - apply NoDup_fmap; [intros n m; lia|apply offsets_nodup].
Qed.
End daily.

(** ** What the statistics say *)
Lemma count_filter {R} (P : R → Prop) `{∀ x, Decision (P x)} l : 0 ≤ count_rows (filter P l) ≤ count_rows l.
Proof. unfold count_rows. pose proof (length_filter P l). lia. Qed.
Lemma count_filter_mono {R} (P Q : R → Prop) `{∀ x, Decision (P x), ∀ x, Decision (Q x)} (l : list R) :
  (∀ x, P x → Q x) → count_rows (filter P l) ≤ count_rows (filter Q l).
Proof.
  intros HPQ. unfold count_rows. induction l as [|x l IH]; [done|]. rewrite !filter_cons.
  destruct (decide (P x)), (decide (Q x)); try (cbn [length]; lia). naive_solver.
Qed.
Lemma since_mono objects now n m : n ≤ m →
  count_rows (filter (λ o, created_since (now - n * us_per_day) o = true) objects) ≤
  count_rows (filter (λ o, created_since (now - m * us_per_day) o = true) objects).
Proof.
  intros Hnm. apply count_filter_mono. unfold created_since. intros o Hle%Z.leb_le. apply Z.leb_le.
  pose proof us_per_day_pos. nia.
Qed.

(** The families in the order the statistics show them. *)
Lemma families_sum (g : Z * Z → Z) rows :
  foldr Z.add 0 ((g ∘ snd) <$> sort_by more_in_family (family_map rows)) =
    foldr Z.add 0 ((g ∘ snd) <$> family_map rows).
Proof. apply foldr_add_perm. by rewrite sort_by_perm. Qed.

Section consistent.
Context (recent_limit days : Z) (company_id : option Z) (t : datetime) (d : db).
Let s := build_storage_stats recent_limit days company_id t d.
Let objects := company_objects company_id d.

Lemma stats_families :
  foldr Z.add 0 ((λ row, ag_count row.1) <$> ss_by_family s) = ss_object_count s ∧
  foldr Z.add 0 ((λ row, ag_bytes row.1) <$> ss_by_family s) = ss_total_bytes s.
Proof.
  unfold s, build_storage_stats. cbn [ss_by_family ss_object_count ss_total_bytes].
  rewrite <- !list_fmap_compose. fold objects.
  set (raw := sort_by more_rows (group_by o_mime_type objects)).
  destruct (family_map_sums raw []) as [Hc Hb]. fold (family_map raw) in Hc, Hb.
  rewrite <- (families_sum fst) in Hc. rewrite <- (families_sum snd) in Hb.
  assert (total_count raw = count_rows objects ∧ total_bytes raw = sum_size objects) as [Hrc Hrb].
  { unfold total_count, total_bytes, raw. rewrite !total_sorted. split; [apply group_by_count|apply group_by_bytes]. }
  split.
  - rewrite <- Hrc. transitivity (foldr Z.add 0 ((fst ∘ snd) <$> sort_by more_in_family (family_map raw))); [|exact Hc]. f_equal. apply list_fmap_ext.
    intros i [name [c b]] ?. done.
  - rewrite <- Hrb. transitivity (foldr Z.add 0 ((snd ∘ snd) <$> sort_by more_in_family (family_map raw))); [|exact Hb]. f_equal. apply list_fmap_ext.
    intros i [name [c b]] ?. done.
Qed.
Lemma stats_daily :
  let in_series := filter (λ o, day_of (o_created_at o) ≤ day_of t)
                     (filter (λ o, created_since (t - days * us_per_day) o = true) objects) in
  foldr Z.add 0 (dr_count <$> ss_daily_series s) = count_rows in_series ∧
  foldr Z.add 0 (dr_bytes <$> ss_daily_series s) = sum_size in_series.
Proof.
  cbv zeta. unfold s, build_storage_stats. cbn [ss_daily_series]. unfold daily_series. cbv zeta.
  fold objects. rewrite <- !list_fmap_compose, daily_counts_groups, <- !list_fmap_compose.
  pose proof (daily_sum t days objects count_rows) as Hc. pose proof (daily_sum t days objects sum_size) as Hb.
  rewrite <- list_fmap_compose in Hc, Hb. by rewrite <- Hc, <- Hb.
Qed.
Lemma stats_counts :
  0 ≤ ss_document_count s ≤ ss_object_count s ∧
  0 ≤ ss_uploads_24h s ≤ ss_uploads_7d s ∧ ss_uploads_7d s ≤ ss_uploads_30d s ≤ ss_object_count s.
Proof.
  unfold s, build_storage_stats. cbn [ss_document_count ss_object_count ss_uploads_24h ss_uploads_7d ss_uploads_30d].
  fold objects. repeat split; try apply count_filter; by apply since_mono.
Qed.
End consistent.

(** ** The rows of one company *)
Lemma company_bytes c d : sum_size (company_objects (Some c) d) = stored_bytes d c.
Proof.
  unfold sum_size, company_objects, stored_bytes, row_sum, scoped, rows.
  rewrite (foldr_add_perm _ (o_size <$> (filter (λ kr, o_company_id kr.2 = c) (map_to_list (db_objects d))).*2)).
  - induction (map_to_list (db_objects d)) as [|[i o] l IH]; [done|]. rewrite filter_cons.
    cbn [fmap list_fmap foldr snd]. destruct (decide (o_company_id o = c)) as [Heq|Hne].
    + rewrite bool_decide_true by done. cbn [fmap list_fmap foldr snd]. by rewrite IH.
    + rewrite bool_decide_false by done. rewrite IH. lia.
  - do 2 apply fmap_Permutation. apply list.NoDup_Permutation.
    + apply NoDup_map_to_list.
    + apply NoDup_filter, NoDup_map_to_list.
    + intros [i o]. rewrite list_elem_of_filter, !elem_of_map_to_list, map_lookup_filter_Some. naive_solver.
Qed.
Lemma elem_of_company_objects c d o : o ∈ company_objects (Some c) d ↔ ∃ i, db_objects d !! i = Some o ∧ o_company_id o = c.
Proof. unfold company_objects. rewrite elem_of_rows. cbn [scoped]. setoid_rewrite map_lookup_filter_Some. done. Qed.

(** Two databases that agree on what belongs to a company. *)
Record same_company (c : Z) (d d' : db) : Prop := SameCompany {
  sc_objects : scoped (λ _, o_company_id) (Some c) (db_objects d) = scoped (λ _, o_company_id) (Some c) (db_objects d');
  sc_buckets : scoped (λ _, b_company_id) (Some c) (db_buckets d) = scoped (λ _, b_company_id) (Some c) (db_buckets d');
  sc_quotas : scoped (λ k _, k) (Some c) (db_company_quotas d) = scoped (λ k _, k) (Some c) (db_company_quotas d') }.

Lemma group_by_ext {K} `{EqDecision K} (key key' : sobject → K) l :
  (∀ o, o ∈ l → key o = key' o) → group_by key l = group_by key' l.
Proof.
  intros Hext. unfold group_by. rewrite (list_fmap_ext key key' l).
  - apply list_fmap_ext. intros i k _. cbv zeta.
    rewrite (filter_ext_in (λ o, key o = k) (λ o, key' o = k) l); [done|]. intros o Ho. by rewrite (Hext o Ho).
  - intros i o Hi. apply Hext. by eapply list_elem_of_lookup_2.
Qed.

Section scope.
Context `{Backend} (c : Z) (w w' : world) (Hw : store_inv w) (Hw' : store_inv w').
Context (Hsame : same_company c (w_db w) (w_db w')).

Lemma scoped_objects : company_objects (Some c) (w_db w) = company_objects (Some c) (w_db w').
Proof. unfold company_objects. by rewrite (sc_objects _ _ _ Hsame). Qed.
(** The bucket of an object of the company is one of the company. *)
Lemma scoped_bucket o : o ∈ company_objects (Some c) (w_db w) →
  db_buckets (w_db w) !! o_bucket_id o = db_buckets (w_db w') !! o_bucket_id o.
Proof.
  intros Ho. pose proof Ho as Ho'. rewrite scoped_objects in Ho'.
  apply elem_of_company_objects in Ho as (i & Hi & Hc), Ho' as (j & Hj & _).
  destruct (inv_company _ Hw _ _ Hi) as (b & Hb & Hbc), (inv_company _ Hw' _ _ Hj) as (b' & Hb' & Hbc').
  assert (Hin : scoped (λ _, b_company_id) (Some c) (db_buckets (w_db w)) !! o_bucket_id o = Some b)
    by (apply map_lookup_filter_Some; cbn; split; [done|congruence]).
  rewrite (sc_buckets _ _ _ Hsame) in Hin. apply map_lookup_filter_Some in Hin as [Hin _]. congruence.
Qed.
Lemma stats_scoped limit days t :
  build_storage_stats limit days (Some c) t (w_db w) = build_storage_stats limit days (Some c) t (w_db w').
Proof.
  unfold build_storage_stats. cbv zeta.
  rewrite (group_by_ext (bucket_label (w_db w)) (bucket_label (w_db w'))).
  2: { intros o Ho. unfold bucket_label. by rewrite (scoped_bucket o Ho). }
  rewrite (list_fmap_ext (stats_recent (w_db w)) (stats_recent (w_db w'))).
  2: { intros i o Hi. apply list_elem_of_lookup_2, elem_of_take in Hi as (j & Hj & _).
       apply list_elem_of_lookup_2 in Hj. rewrite elem_of_sort_by in Hj.
       unfold stats_recent. by rewrite (scoped_bucket o Hj). }
  rewrite scoped_objects. unfold company_buckets, company_quota_rows.
  by rewrite (sc_buckets _ _ _ Hsame), (sc_quotas _ _ _ Hsame).
Qed.
End scope.

(** ** The handler *)
Lemma run_days rq w : (∃ n, stats_days rq w = (inr n, w) ∧ 1 ≤ n ≤ 90) ∨ stats_days rq w = (inl ValueError, w).
Proof.
  unfold stats_days. destruct (last_get "days" (rq_query rq)) as [x|]; [|left; by exists 14].
  destruct (truthy x); [|left; by exists 14].
  destruct (py_int_str 10 x) as [n|]; [|by right].
  left. exists (Z.max 1 (Z.min n 90)). split; [done|lia].
Qed.
Lemma stats_returns rq w s w' : StatsView_get rq w = (inr (inr s), w') →
  w' = w ∧ ∃ p scope days, rq_user rq = Some p ∧ 1 ≤ days ≤ 90 ∧
    s = build_storage_stats 25 days scope (w_now w) (w_db w) ∧
    scope = (if p_is_staff p then None else p_company_id p) ∧ (p_is_staff p = false → is_Some scope).
Proof.
  unfold StatsView_get, stats_scope, require_company_id. destruct (rq_user rq) as [p|]; [|done].
  unfold bind at 1.
  destruct (run_days rq w) as [(days & Hd & Hb)|Hd];
    destruct (p_is_staff p) eqn:Hs; [| |unfold bind; cbn; by rewrite Hd|].
  - unfold bind; cbn; rewrite Hd; cbn. intros [= <- <-]. split; [done|]. exists p, None, days. by rewrite Hs.
  - destruct (p_company_id p) as [c|] eqn:Hc; [|done]. unfold bind; cbn; rewrite Hd; cbn.
    intros [= <- <-]. split; [done|]. exists p, (Some c), days. rewrite Hs, Hc. naive_solver.
  - destruct (p_company_id p); [|done]. unfold bind; cbn. by rewrite Hd.
Qed.

(** The numbers of a statistics page add up.  Whenever [StatsView] answers, nothing is
    written; the families partition the files and the bytes in scope; the daily series
    counts exactly the files created since its start; documents and the windows of
    uploads are parts of the whole; and for one company the bytes shown are the bytes
    its quota has counted. *)
Theorem statistics_add_up `{Backend} rq w s w' : storage_inv w → StatsView_get rq w = (inr (inr s), w') →
  w' = w ∧
  foldr Z.add 0 ((λ row, ag_count row.1) <$> ss_by_family s) = ss_object_count s ∧
  foldr Z.add 0 ((λ row, ag_bytes row.1) <$> ss_by_family s) = ss_total_bytes s ∧
  0 ≤ ss_document_count s ≤ ss_object_count s ∧
  0 ≤ ss_uploads_24h s ≤ ss_uploads_7d s ∧ ss_uploads_7d s ≤ ss_uploads_30d s ≤ ss_object_count s ∧
  (∃ days, 1 ≤ days ≤ 90 ∧ foldr Z.add 0 (dr_count <$> ss_daily_series s) = count_rows
     (filter (λ o, day_of (o_created_at o) ≤ day_of (w_now w))
       (filter (λ o, created_since (w_now w - days * us_per_day) o = true)
         (company_objects (ss_scope_company_id s) (w_db w))))) ∧
  (∀ c, ss_scope_company_id s = Some c → ss_total_bytes s = company_used (w_db w) c).
Proof.
  intros [_ Hq] Hrun. apply stats_returns in Hrun as (-> & p & scope & days & _ & Hd & -> & _ & _).
  destruct (stats_families 25 days scope (w_now w) (w_db w)) as [Hc Hb].
  destruct (stats_counts 25 days scope (w_now w) (w_db w)) as (Hdoc & H7 & H30).
  do 6 (split; [done|]). split.
  - exists days. split; [done|]. apply (stats_daily 25 days scope (w_now w) (w_db w)).
  - intros c Hscope. cbn in Hscope. subst scope. rewrite Hq. apply company_bytes.
Qed.

(** C27: The statistics of a caller who is no staff depend on the rows of his company only:
    two worlds that agree on them yield the same answer, so nothing of another company
    can be read from it. *)
Theorem statistics_stay_in_company `{Backend} rq p c w1 w2 :
  rq_user rq = Some p → p_is_staff p = false → p_company_id p = Some c →
  store_inv w1 → store_inv w2 → same_company c (w_db w1) (w_db w2) → w_now w1 = w_now w2 →
  (StatsView_get rq w1).1 = (StatsView_get rq w2).1.
Proof.
  intros Hp Hs Hc Hw1 Hw2 Hsame Ht.
  unfold StatsView_get, stats_scope, require_company_id. rewrite Hp, Hs, Hc. unfold bind, try_except. cbn.
  assert (Hdays : ∀ w, (stats_days rq w).1 = (stats_days rq w1).1 ∧ (stats_days rq w).2 = w).
  { intros w. unfold stats_days. destruct (last_get "days" (rq_query rq)) as [x|]; [|done].
    destruct (truthy x); [|done]. by destruct (py_int_str 10 x). }
  destruct (Hdays w1) as [_ E1], (Hdays w2) as [D2 E2].
  destruct (stats_days rq w1) as [[e|n] w1'], (stats_days rq w2) as [[e'|n'] w2']; cbn in *; simplify_eq; try done.
  by rewrite (stats_scoped c w1 w2 Hw1 Hw2 Hsame), Ht.
Qed.

(** ** A concrete company *)
Import StoreSpec.Demo ViewsDemo TwoCompanies.
Module StatsDemo.
Definition answer (r : (exn + (response + storage_stats)) * world) : storage_stats :=
  match r.1 with inr (inr s) => s | _ => build_storage_stats 0 0 None 0 empty_db end.
Definition stats_of (w : world) : storage_stats := answer (StatsView_get as_alice w).
Definition with_days (days : string) : http_request :=
  HttpRequest (Some alice) JNull [("days", days)] [] JNull "" [] [] [].
End StatsDemo.
Import StatsDemo.

Lemma statistics_add_up_witness :
  foldr Z.add 0 ((λ row, ag_count row.1) <$> ss_by_family (stats_of demo_world1)) = 1 ∧
  ss_total_bytes (stats_of demo_world1) = 3 ∧ company_used (w_db demo_world1) 7 = 3.
Proof.
  destruct (statistics_add_up as_alice demo_world1 (stats_of demo_world1) demo_world1 demo_inv1 ltac:(vm_compute; reflexivity))
    as (_ & Hfam & _ & _ & _ & _ & _ & Hused).
  rewrite Hfam, (Hused 7) by (vm_compute; reflexivity). split; [|split]; vm_compute; reflexivity.
Defined.
(** The file of company 8 leaves no trace in what a member of company 7 sees. *)
Lemma statistics_stay_in_company_witness :
  (StatsView_get as_alice two_world0).1 = (StatsView_get as_alice two_world).1 ∧
  ss_object_count (stats_of two_world) = 0 ∧
  ss_object_count (build_storage_stats 8 14 None 1000 (w_db two_world)) = 1.
Proof.
  split; [|split; vm_compute; reflexivity].
  apply (statistics_stay_in_company as_alice alice 7); try reflexivity.
  - apply two_world0_inv.
  - apply two_world_inv.
  - by split; vm_compute.
Defined.
(** A [days] that is no number is answered by a server error. *)
Example days_not_a_number : (StatsView_get (with_days "all") demo_world1).1 = inl ValueError.
Proof. reflexivity. Qed.
(** The first day of the series is counted from the time of day of the request on. *)
Example first_day_is_partial :
  let o t := StorageObject 1 1 "a" 7 None 1 "" "" [] "" 1 t t None in
  (λ r, r.1.2) <$> daily_counts (10 * us_per_day + 5) 1 [o (9 * us_per_day); o (9 * us_per_day + 5)] = [1; 0].
Proof. vm_compute. reflexivity. Qed.
