(* ===== verification/Metrics.v ===== *)
(** * Metrics: the Prometheus expositions ([apps/storage/metrics.py],
    [apps/actions/scheduled_job_metrics.py] and their views)

    A registry is the list of its metric families with their samples; the text format
    is the client library, a parameter.  A sample carries the value the code sets. *)
From S2P Require Import Prelude PyStr PyData PyFloat Models Access Quotas Backends Services FileStore StoreSpec Views RestSpec.
From S2P Require Import Redact Registry Events Jobs JobHealth Stats.

(** ** The library *)
Record family := Family { fa_name : string; fa_labels : list string; fa_samples : list (list string * float) }.
Class Exposition := { generate_latest : list family → bytes }.

(** ** [_company_ids] and [_snapshot] *)
Definition _company_ids (d : db) : list Z :=
  sort_by Z.leb (remove_dups ((b_company_id <$> rows (db_buckets d)) ++ (o_company_id <$> rows (db_objects d))
                                ++ (map_to_list (db_company_quotas d)).*1)).

Definition _snapshot (now : datetime) (d : db) (company_id : Z) : list (string * Z) :=
  let objects := company_objects (Some company_id) d in
  let documents := filter (λ o, document_q o = true) objects in
  let since n := filter (λ o, created_since (now - n * us_per_day) o = true) objects in
  let quota := db_company_quotas d !! company_id in
  [ ("objects_total", count_rows objects); ("bytes_total", sum_size objects);
    ("buckets_total", count_rows (company_buckets (Some company_id) d));
    ("documents_total", count_rows documents); ("document_bytes", sum_size documents);
    ("uploads_24h", count_rows (since 1)); ("uploads_7d", count_rows (since 7));
    ("uploads_30d", count_rows (since 30)); ("bytes_7d", sum_size (since 7));
    ("quota_used_bytes", from_option cq_used_bytes 0 quota);
    ("quota_max_bytes", from_option cq_max_bytes 0 quota) ].

(** ** Gauges

    A gauge keeps one value for each value of its label [company_id]. *)
Definition _LABELS : list string := ["company_id"].
Definition gauge : Type := string * list (string * float).
Definition _bind_gauges : list (string * gauge) :=
  (λ '(key, name), (key, (name, []))) <$>
    [ ("objects_total", "shellui_storage_objects_total");
      ("bytes_total", "shellui_storage_bytes_total");
      ("buckets_total", "shellui_storage_buckets_total");
      ("documents_total", "shellui_storage_documents_total");
      ("document_bytes", "shellui_storage_document_bytes");
      ("uploads_24h", "shellui_storage_uploads_24h");
      ("uploads_7d", "shellui_storage_uploads_7d");
      ("uploads_30d", "shellui_storage_uploads_30d");
      ("bytes_7d", "shellui_storage_bytes_7d");
      ("quota_used_bytes", "shellui_storage_quota_used_bytes");
      ("quota_max_bytes", "shellui_storage_quota_max_bytes") ].
(** [gauge.labels(company_id=cid).set(value)] *)
Definition set_gauge (cid : string) (value : Z) (g : gauge) : gauge := (g.1, dict_set cid (float_of_int value) g.2).
Definition _set_company (now : datetime) (d : db) (gauges : list (string * gauge)) (company_id : Z) :
  list (string * gauge) :=
  let cid := str_int company_id in
  let snap := _snapshot now d company_id in
  (λ '(name, g), (name, set_gauge cid (default 0 (dict_get name snap)) g)) <$> gauges.
Definition gauge_family (kg : string * gauge) : family :=
  Family kg.2.1 _LABELS ((λ '(cid, v), ([cid], v)) <$> kg.2.2).
Definition company_registry (now : datetime) (d : db) (company_id : Z) : list family :=
  gauge_family <$> _set_company now d _bind_gauges company_id.
Definition global_registry (now : datetime) (d : db) : list family :=
  gauge_family <$> foldl (_set_company now d) _bind_gauges (_company_ids d).

(** ** The scheduled jobs

    [enabled], [redis] and [beat] are the setting, the answer of a PING and the
    heartbeat, as in [JobHealth.jobs_overview]. *)
Definition PREFIX : string := "shellui_storage_scheduled_job".
Definition RUN_STATUSES : list run_status := [STATUS_SUCCEEDED; STATUS_RUN_FAILED; STATUS_SKIPPED_LOCKED].
Definition timestamp (t : datetime) : float := true_div t 1000000.
Definition opt_timestamp (t : option datetime) : float := from_option timestamp (float_of_int 0) t.
Definition flag (b : bool) : float := float_of_int (if b then 1 else 0).
Definition job_counter (a : actions_db) (job name : string) : float :=
  float_of_int (default 0 (a_counters a !! (job, name))).
(** [for name, spec in JOBS.items(): state = states[name] ...] *)
Definition with_state (a : actions_db) (f : JobSpec → scheduled_job_state → list (list string * float)) :
  list (list string * float) :=
  spec ← JOBS; from_option (f spec) [] (a_states a !! js_name spec).
Definition collect (enabled : bool) (redis : option bool) (beat : option datetime) : prog (list family) :=
  t <- now ;;
  ensure_states ;;;
  a <- get_actions ;;
  ret ([ Family (PREFIX +:+ "_runs") ["job"; "status"] (with_state a (λ spec _,
           (λ st, ([js_name spec; run_status_value st], job_counter a (js_name spec) (runs_counter st)))
             <$> RUN_STATUSES));
         Family (PREFIX +:+ "_items") ["job"; "kind"] (with_state a (λ spec _,
           (λ kind, ([js_name spec; kind], job_counter a (js_name spec) ("items." +:+ kind)))
             <$> js_item_kinds spec));
         Family (PREFIX +:+ "_last_success_timestamp_seconds") ["job"] (with_state a (λ spec state,
           [([js_name spec], opt_timestamp (s_last_success_at state))]));
         Family (PREFIX +:+ "_last_run_timestamp_seconds") ["job"] (with_state a (λ spec state,
           [([js_name spec], opt_timestamp (s_last_started_at state))]));
         Family (PREFIX +:+ "_last_run_duration_seconds") ["job"] (with_state a (λ spec state,
           from_option (λ ms, [([js_name spec], true_div ms 1000)]) [] (s_last_duration_ms state)));
         Family (PREFIX +:+ "_overdue") ["job"] (with_state a (λ spec state,
           [([js_name spec], flag (is_overdue spec state t))]));
         Family "shellui_storage_scheduler_enabled" [] [([], flag enabled)] ]
       ++ from_option (λ r, [Family "shellui_storage_scheduler_redis_up" [] [([], flag r)]]) [] redis
       ++ from_option (λ b, if default false redis
                            then [Family "shellui_storage_scheduler_beat_last_seen_timestamp_seconds" []
                                    [([], timestamp b)]] else []) [] beat).

(** ** The expositions and their views *)
Section metrics.
Context `{Exposition} (enabled : bool) (redis : option bool) (beat : option datetime).

Definition scheduled_jobs_metrics_body : prog bytes :=
  families <- collect enabled redis beat ;; ret (generate_latest families).
Definition metrics_http_body (company_id : option Z) : prog bytes :=
  t <- now ;; d <- get_db ;;
  match company_id with
  | None =>
      let body := generate_latest (global_registry t d) in
      jobs <- scheduled_jobs_metrics_body ;; ret (body ++ jobs)
  | Some c => ret (generate_latest (company_registry t d c))
  end.

Definition forbidden : response := Response 403 (CJson (JObj [("error", JStr "Forbidden")])).
Definition missing_company : response :=
  Response 400 (CJson (JObj [("error", JStr "Missing company_id in access token.")])).
Definition company_in_query : response :=
  Response 400 (CJson (JObj [("error", JStr
    "Remove company_id from the query string; company scope comes from the access token only.")])).
Definition _metrics_company_from_token (p : principal) (rq : http_request) : response + Z :=
  if truthy (strip (default "" (last_get "company_id" (rq_query rq)))) then inl company_in_query
  else match p_company_id p with None => inl missing_company | Some c => inr c end.

(** A view answers with a JSON error or with the text of an exposition. *)
Definition StorageMetricsView_get (rq : http_request) : prog (response + bytes) :=
  match rq_user rq with
  | None => ret (inl (Response 401 (CJson (JObj []))))
  | Some p =>
      if negb (p_is_staff p || p_is_company_owner p) then ret (inl forbidden)
      else match _metrics_company_from_token p rq with
           | inl err => ret (inl err)
           | inr company_id => body <- metrics_http_body (Some company_id) ;; ret (inr body)
           end
  end.
Definition StorageGlobalMetricsView_get (rq : http_request) : prog (response + bytes) :=
  match rq_user rq with
  | None => ret (inl (Response 401 (CJson (JObj []))))
  | Some p =>
      if p_is_staff p || p_access_global_metrics p then body <- metrics_http_body None ;; ret (inr body)
      else ret (inl forbidden)
  end.
End metrics.

(** ** What a registry holds *)
#[export] Instance str_int_Inj : Inj (=) (=) str_int := str_int_inj.
Definition gauge_names : list (string * string) := (λ kg, (kg.1, kg.2.1)) <$> _bind_gauges.
(** The value a company has for a key of its snapshot. *)
Definition value_of (now : datetime) (d : db) (key : string) (c : Z) : float :=
  float_of_int (default 0 (dict_get key (_snapshot now d c))).
Definition registry_of (now : datetime) (d : db) (ids : list Z) : list family :=
  (λ '(key, name), Family name _LABELS ((λ c, ([str_int c], value_of now d key c)) <$> ids)) <$> gauge_names.

Lemma company_ids_spec d c : c ∈ _company_ids d ↔
  (∃ i b, db_buckets d !! i = Some b ∧ b_company_id b = c) ∨
  (∃ i o, db_objects d !! i = Some o ∧ o_company_id o = c) ∨ is_Some (db_company_quotas d !! c).
Proof.
  unfold _company_ids. rewrite elem_of_sort_by, elem_of_remove_dups, !elem_of_app, !list_elem_of_fmap.
  setoid_rewrite elem_of_rows. split; [intros [(b & -> & i & Hi)|[(o & -> & i & Hi)|([k q] & -> & Hq)]]|].
  - left. eauto.
  - right. left. eauto.
  - right. right. apply elem_of_map_to_list in Hq. by exists q.
  - intros [(i & b & Hi & <-)|[(i & o & Hi & <-)|[q Hq]]]; [left|right; left|right; right]; eauto.
    exists (c, q). split; [done|]. by apply elem_of_map_to_list.
Qed.
Lemma company_ids_nodup d : NoDup (_company_ids d).
Proof. unfold _company_ids. rewrite sort_by_perm. apply NoDup_remove_dups. Qed.

Section registry.
Context (now : datetime) (d : db).
Definition filled (ids : list Z) : list (string * gauge) :=
  (λ '(key, name), (key, (name, (λ c, (str_int c, value_of now d key c)) <$> ids))) <$> gauge_names.

Lemma set_filled ids c : c ∉ ids → _set_company now d (filled ids) c = filled (ids ++ [c]).
Proof.
  intros Hc. unfold _set_company, filled. rewrite <- list_fmap_compose. apply list_fmap_ext.
  intros i [key name] _. unfold compose, set_gauge. cbn [fst snd]. do 2 f_equal. rewrite fmap_app.
  apply dict_set_fresh, dict_get_None. rewrite <- list_fmap_compose.
  rewrite list_elem_of_fmap. intros (c' & Heq & Hin). by apply (inj str_int) in Heq as <-.
Qed.
Lemma fold_filled ids done : NoDup (done ++ ids) → foldl (_set_company now d) (filled done) ids = filled (done ++ ids).
Proof.
  revert done. induction ids as [|c ids IH]; intros done Hnd; cbn [foldl]; [by rewrite app_nil_r|].
  assert (c ∉ done).
  { apply NoDup_app in Hnd as (_ & Hd & _). intros Hc. apply (Hd c Hc). by left. }
  rewrite set_filled by done. rewrite IH, <- app_assoc by (by rewrite <- app_assoc). done.
Qed.
Lemma filled_registry ids : gauge_family <$> filled ids = registry_of now d ids.
Proof.
  unfold filled, registry_of. rewrite <- list_fmap_compose. apply list_fmap_ext.
  intros i [key name] _. unfold compose, gauge_family. cbn. by rewrite <- list_fmap_compose.
Qed.
Lemma global_registry_eq : global_registry now d = registry_of now d (_company_ids d).
Proof.
  unfold global_registry. change _bind_gauges with (filled []).
  by rewrite fold_filled, filled_registry by apply company_ids_nodup.
Qed.
Lemma company_registry_eq c : company_registry now d c = registry_of now d [c].
Proof.
  unfold company_registry. change _bind_gauges with (filled []).
  rewrite set_filled by apply not_elem_of_nil. apply filled_registry.
Qed.
End registry.

(** The part of a registry that carries the label of a company. *)
Definition labelled (c : Z) (f : family) : family :=
  Family (fa_name f) (fa_labels f) (filter (λ s, s.1 = [str_int c]) (fa_samples f)).

Lemma labelled_registry now d ids c : NoDup ids → c ∈ ids → labelled c <$> registry_of now d ids = registry_of now d [c].
Proof.
  intros Hnd Hc. unfold registry_of. rewrite <- list_fmap_compose. apply list_fmap_ext.
  intros i [key name] _. unfold compose, labelled. cbn [fa_name fa_labels fa_samples]. f_equal.
  induction Hnd as [|c' ids Hc' Hnd IH]; [by apply not_elem_of_nil in Hc|]. cbn [fmap list_fmap].
  rewrite filter_cons. cbn [fst]. apply elem_of_cons in Hc as [->|Hc].
  - rewrite decide_True by done. f_equal. apply filter_all_false.
    intros s (x & -> & Hx)%list_elem_of_fmap. cbn. intros [= Heq%(inj str_int)]. by subst.
  - rewrite decide_False; [by apply IH|]. intros [= Heq%(inj str_int)]. by subst.
Qed.

(** ** What the snapshot depends on *)
Lemma snapshot_scoped now c d d' : same_company c d d' → _snapshot now d c = _snapshot now d' c.
Proof.
  intros [Ho Hb Hq]. unfold _snapshot, company_objects, company_buckets. rewrite Ho, Hb.
  assert (Hl : db_company_quotas d !! c = db_company_quotas d' !! c); [|by rewrite Hl].
  apply option_eq. intros q.
  assert (Hin : ∀ e : db, db_company_quotas e !! c = Some q ↔
    scoped (λ k _, k) (Some c) (db_company_quotas e) !! c = Some q).
  { intros e. cbn [scoped]. rewrite map_lookup_filter_Some. naive_solver. }
  by rewrite !Hin, Hq.
Qed.
Lemma registry_scoped now c d d' : same_company c d d' → company_registry now d c = company_registry now d' c.
Proof.
  intros Hs. rewrite !company_registry_eq. unfold registry_of, value_of.
  apply list_fmap_ext. intros i [key name] ?. cbn [fmap list_fmap]. by rewrite (snapshot_scoped now c d d' Hs).
Qed.
Lemma registry_label now d c f s : f ∈ company_registry now d c → s ∈ fa_samples f → s.1 = [str_int c].
Proof.
  rewrite company_registry_eq. intros ([key name] & -> & _)%list_elem_of_fmap Hs. cbn in Hs.
  by apply list_elem_of_singleton in Hs as ->.
Qed.
Lemma snapshot_bytes now d c : quota_exact d →
  dict_get "bytes_total" (_snapshot now d c) = dict_get "quota_used_bytes" (_snapshot now d c).
Proof. intros Hq. cbn -[company_objects]. rewrite company_bytes, <- Hq. done. Qed.

Section properties.
Context `{Exposition} (enabled : bool) (redis : option bool) (beat : option datetime).
Let company_view := StorageMetricsView_get enabled redis beat.
Let global_view := StorageGlobalMetricsView_get enabled redis beat.

(** The exposition of a company is for its staff and owners, and for its own company.
    When [StorageMetricsView] answers with an exposition, the caller is authenticated,
    staff or owner, and has the company in his token; nothing is written; every sample
    carries the label of that company; and any world that agrees on the rows of the
    company yields the same registry, so other companies leave no trace in the text. *)
Theorem company_metrics_isolated rq w body w' : company_view rq w = (inr (inr body), w') →
  ∃ p c, rq_user rq = Some p ∧ p_is_staff p || p_is_company_owner p = true ∧ p_company_id p = Some c ∧
    w' = w ∧ body = generate_latest (company_registry (w_now w) (w_db w) c) ∧
    (∀ f s, f ∈ company_registry (w_now w) (w_db w) c → s ∈ fa_samples f → s.1 = [str_int c]) ∧
    (∀ d', same_company c (w_db w) d' →
       company_registry (w_now w) d' c = company_registry (w_now w) (w_db w) c).
Proof.
  unfold company_view, StorageMetricsView_get, _metrics_company_from_token. intros Hrun.
  destruct (rq_user rq) as [p|] eqn:Hp; [|done].
  destruct (p_is_staff p || p_is_company_owner p) eqn:Hs; [|done]. cbn [negb] in Hrun.
  destruct (truthy _); [done|]. destruct (p_company_id p) as [c|] eqn:Hc; [|done].
  injection Hrun as <- <-. exists p, c. do 5 (split; [done|]). split; [apply registry_label|].
  intros d' Hd'. symmetry. by apply registry_scoped.
Qed.

(** The global exposition is the expositions of the companies put together: the part of
    the global registry that carries the label of a company is the registry that the
    company itself is shown, exactly the companies that own a bucket, a file or a quota
    have samples, and in a consistent world the bytes stored are the bytes counted. *)
Theorem global_metrics_join `{Backend} now w c : storage_inv w →
  (c ∈ _company_ids (w_db w) →
     labelled c <$> global_registry now (w_db w) = company_registry now (w_db w) c) ∧
  (∀ f s, f ∈ global_registry now (w_db w) → s ∈ fa_samples f →
     ∃ c', s.1 = [str_int c'] ∧ c' ∈ _company_ids (w_db w)) ∧
  dict_get "bytes_total" (_snapshot now (w_db w) c) = dict_get "quota_used_bytes" (_snapshot now (w_db w) c).
Proof.
  intros [_ Hq]. rewrite global_registry_eq, company_registry_eq. split; [|split].
  - apply labelled_registry, company_ids_nodup.
  - intros f s ([key name] & -> & _)%list_elem_of_fmap Hs. cbn in Hs.
    apply list_elem_of_fmap in Hs as (c' & -> & Hc'). by exists c'.
  - by apply snapshot_bytes.
Qed.
(** The global exposition needs staff or the global scope of the token. *)
Lemma global_metrics_restricted rq w body w' : global_view rq w = (inr (inr body), w') →
  ∃ p, rq_user rq = Some p ∧ p_is_staff p || p_access_global_metrics p = true.
Proof.
  unfold global_view, StorageGlobalMetricsView_get. destruct (rq_user rq) as [p|]; [|done].
  destruct (p_is_staff p || p_access_global_metrics p) eqn:Hs; [|done]. eauto.
Qed.
End properties.

(** ** A concrete scrape *)
Import StoreSpec.Demo ViewsDemo TwoCompanies.
Module MetricsDemo.
(** A text that shows the labels only. *)
#[export] Instance demo_exposition : Exposition :=
  {| generate_latest fs := concat ((λ f, concat ((λ s, concat (String.list_byte_of_string <$> s.1)) <$> fa_samples f)) <$> fs) |}.
Definition owner : principal := StoragePrincipal 5 (Some 7) "a@x.io" "alice" false true false.
Definition scrape : http_request := request_of (Some owner) (JObj []).
Definition value (name : string) (fs : list family) : list (list string * Z) :=
  fs ≫= λ f, if fa_name f == name then (λ s, (s.1, py_round s.2)) <$> fa_samples f else [].
End MetricsDemo.
Import MetricsDemo.

Lemma company_metrics_isolated_witness :
  ∃ body, (StorageMetricsView_get true None None scrape demo_world1).1 = inr (inr body) ∧
    body = generate_latest (company_registry 1000 (w_db demo_world1) 7) ∧
    value "shellui_storage_bytes_total" (company_registry 1000 (w_db demo_world1) 7) = [(["7"], 3)].
Proof.
  destruct (StorageMetricsView_get true None None scrape demo_world1) as [[e|[r|body]] w'] eqn:Hrun;
    [by vm_compute in Hrun|by vm_compute in Hrun|].
  exists body. split; [done|].
  destruct (company_metrics_isolated true None None scrape demo_world1 body w' Hrun)
    as (p & c & Hp & _ & Hc & _ & Hb & _).
  injection Hp as <-. injection Hc as <-. split; [exact Hb|]. vm_compute. reflexivity.
Defined.
Lemma global_metrics_join_witness :
  _company_ids (w_db two_world) = [7; 8] ∧
  labelled 8 <$> global_registry 1000 (w_db two_world) = company_registry 1000 (w_db two_world) 8.
Proof.
  split; [vm_compute; reflexivity|].
  destruct (global_metrics_join 1000 two_world 8 two_world_inv) as (Hjoin & _ & _). apply Hjoin.
  vm_compute. right. left.
Defined.
(** A scrape of the jobs on an empty database: every job has its counters, at zero. *)
Example empty_scrape :
  match (collect true (Some true) None demo_world).1 with
  | inr fs => value "shellui_storage_scheduled_job_runs" fs
  | inl _ => []
  end = [(["retry_webhooks"; "succeeded"], 0); (["retry_webhooks"; "failed"], 0);
         (["retry_webhooks"; "skipped_locked"], 0); (["purge_expired_data"; "succeeded"], 0);
         (["purge_expired_data"; "failed"], 0); (["purge_expired_data"; "skipped_locked"], 0)].
Proof. vm_compute. reflexivity. Qed.
