(* ===== verification/AdminPages.v ===== *)
(** * AdminPages: the admin site's own code ([apps/storage/admin.py], [apps/actions/admin.py])

    What the site adds to Django's admin: deletions that go through [delete_object],
    and the columns it computes.  The pages themselves are the framework's. *)
From S2P Require Import Prelude PyStr PyData PyFloat Models Mime Signals Deletion Access Quotas Backends Services.
From S2P Require Import FileStore StoreSpec Views RestSpec Stats.

(** ** Columns *)
Definition size_display (o : sobject) : string := human_bytes (o_size o).
Definition file_count (d : db) (b : bucket) : Z := count_rows (bucket_files d b).
(** The ellipsis that ends the text is one character outside the modelled alphabet. *)
Definition token_short (l : share_link) : string := str_take 10 (l_token l).
Definition usage_pct_text (q : company_quota) : option string :=
  if cq_max_bytes q == 0 then None else Some (format_1f (usage_pct q) +:+ "%").
Definition used_display (q : company_quota) : string := human_bytes (cq_used_bytes q).
Definition max_display (q : company_quota) : string := human_bytes (cq_max_bytes q).
(** [ScheduledJobRunAdmin]: runs are shown, never added or changed. *)
Definition has_add_permission : bool := false.
Definition has_change_permission : bool := false.
Definition has_view_permission (is_active is_staff : bool) : bool := is_active && is_staff.

(** ** Deletions *)
Section admin.
Context `{Settings, Backend, Receivers}.

Definition StorageObjectAdmin_delete_model (o : sobject) : prog unit := delete_object o None.
Definition StorageObjectAdmin_delete_queryset (l : list sobject) : prog unit :=
  for_each l StorageObjectAdmin_delete_model.
Definition BucketAdmin_delete_model (b : bucket) : prog unit :=
  d <- get_db ;;
  for_each (bucket_files d b) StorageObjectAdmin_delete_model ;;;
  atomic (modify_db (delete_buckets_where (λ b', b_id b' == b_id b))).
Definition BucketAdmin_delete_queryset (l : list bucket) : prog unit := for_each l BucketAdmin_delete_model.
End admin.

(** ** What a deletion leaves *)
Section deletions.
Context `{Settings, Backend, !BackendLaws, MimeTypes, Receivers, !ReceiverLaws}.

(** Each file is deleted in a transaction of its own, so a run that the storage backend
    stops half way leaves a consistent world. *)
Lemma wp_delete_files (l : list sobject) w :
  storage_inv w → (∀ o, o ∈ l → current w o) → NoDup (o_id <$> l) →
  wp (StorageObjectAdmin_delete_queryset l)
    (λ _ w', storage_inv w' ∧ (files w' ≡ remove_all l (files w)) ∧ shrinks w w' ∧
       (∀ i o', db_objects (w_db w') !! i = Some o' →
         (i ∉ (o_id <$> l)) ∧ (∃ o, db_objects (w_db w) !! i = Some o ∧ erase_metadata o = erase_metadata o')))
    (λ e w', is_backend_error e ∧ storage_inv w' ∧ shrinks w w') w.
Proof.
  unfold StorageObjectAdmin_delete_queryset. revert w.
  induction l as [|o l IH]; intros w Hinv Hcur Hnd; cbn [for_each].
  { apply wp_ret. split_and!; try done. intros i o' Ho'. split; [apply not_elem_of_nil|]. by exists o'. }
  rewrite fmap_cons in Hnd. apply NoDup_cons in Hnd as [Hni Hnd]. apply wp_bind.
  eapply wp_mono; [apply wp_delete_object; [done|apply Hcur; by left]| |].
  2: { intros e w' (He & Ed & Eb & Eu). split; [done|].
       destruct w as [d bl n u], w' as [d' bl' n' u']. cbn in *. subst. split; [|by split].
       destruct Hinv as [[] Hq]. by split. }
  intros u w1 (Hinv1 & Hf1 & Hsh & w0 & Hst & Eo).
  pose proof (ss_objects _ _ Hst) as Hobj.
  eapply wp_mono; [apply IH; [done| |done]| |].
  - intros o' Ho'. apply (current_step w0 w1); [done|].
    destruct (Hcur o' ltac:(by right)) as (o2 & Ho2 & He). exists o2. split; [|done].
    rewrite Eo, lookup_delete_ne; [done|]. intros Heq. apply Hni, list_elem_of_fmap. by exists o'.
  - intros u' w2 (Hinv2 & Hf2 & Hsh2 & Hrows). split_and!; [done| |by etrans|].
    + rewrite Hf2, Hf1. apply remove_all_cons.
    + intros i o' Ho'. destruct (Hrows i o' Ho') as (Hout & o1 & Ho1 & He1).
      pose proof (f_equal (.!! i) Hobj) as Hl. rewrite !lookup_fmap, Eo, Ho1 in Hl.
      destruct (decide (i = o_id o)) as [->|Hne]; [by rewrite lookup_delete_eq in Hl|].
      rewrite lookup_delete_ne in Hl by done.
      destruct (db_objects (w_db w) !! i) as [o3|]; [|done]. cbn [fmap option_fmap option_map] in Hl. apply (inj Some) in Hl.
      split; [rewrite fmap_cons; intros [?|?]%elem_of_cons; done|]. exists o3. split; [done|congruence].
  - intros e w2 (He & Hinv2 & Hsh2). split_and!; [done..|by etrans].
Qed.

(** Deleting a bucket that has no files leaves the other tables of the store alone. *)
Lemma delete_empty_bucket b d :
  (∀ i b', db_buckets d !! i = Some b' → b_id b' = i) →
  (∀ i o, db_objects d !! i = Some o → o_bucket_id o ≠ b_id b) →
  let d' := delete_buckets_where (λ b', b_id b' == b_id b) d in
  db_objects d' = db_objects d ∧ db_company_quotas d' = db_company_quotas d ∧
  (∀ i, db_buckets d' !! i = if decide (i = b_id b) then None else db_buckets d !! i).
Proof.
  intros Hid Hobj. cbn. split_and!; [|done|].
  - apply map_filter_id. intros i o Ho. cbn [snd].
    destruct (db_buckets d !! o_bucket_id o) as [b'|] eqn:Hb; [|done]. cbn.
    rewrite (Hid _ _ Hb), bool_decide_false; [done|]. by eapply Hobj.
  - intros i. unfold row_delete. apply option_eq. intros b'. rewrite map_lookup_filter_Some. cbn [snd].
    destruct (decide (i = b_id b)) as [->|Hne].
    + split; [|done]. intros [Hb Hf]. rewrite (Hid _ _ Hb), bool_decide_true in Hf; done.
    + split; [by intros [? ?]|]. intros Hb. split; [done|]. by rewrite (Hid _ _ Hb), bool_decide_false.
Qed.
Lemma wp_delete_empty_bucket b w :
  storage_inv w → (∀ i o, db_objects (w_db w) !! i = Some o → o_bucket_id o ≠ b_id b) →
  wp (atomic (modify_db (delete_buckets_where (λ b', b_id b' == b_id b))))
    (λ _ w', storage_inv w' ∧ db_objects (w_db w') = db_objects (w_db w) ∧
       (files w' ≡ files w) ∧ shrinks w w' ∧ db_buckets (w_db w') !! b_id b = None) (λ _ _, False) w.
Proof.
  intros [Hinv Hq] Hobj. apply wp_atomic, wp_modify.
  destruct (delete_empty_bucket b (w_db w) (inv_bucket_id w Hinv) Hobj) as (Eo & Ec & Eb).
  set (w' := set_db _ w).
  assert (Ebytes : ∀ c, stored_bytes (w_db w') c = stored_bytes (w_db w) c)
    by (intros c; unfold stored_bytes, w'; cbn [w_db set_db]; by rewrite Eo).
  split_and!.
  - split.
    + destruct Hinv as [Hbid Hoid Hfr Hun Hco Hkey Hbf Hct].
      split; unfold w'; cbn [w_db w_blobs w_next_uuid set_db]; rewrite ?Eo; try done.
      * intros i b'. rewrite Eb. destruct (decide _); [done|]. apply Hbid.
      * intros i o Ho. destruct (Hco i o Ho) as (b' & Hb' & Hc). exists b'. split; [|done].
        rewrite Eb, decide_False; [done|]. by eapply Hobj.
    + intros c. rewrite Ebytes. unfold company_used, w'. cbn [w_db set_db]. rewrite Ec. apply Hq.
  - exact Eo.
  - intros bid n. unfold files, find_object, w'. cbn [w_db w_blobs set_db]. by rewrite Eo.
  - split; intros c; [by rewrite Ebytes|]. unfold quota_of, w'. cbn [w_db set_db]. by rewrite Ec.
  - unfold w'. cbn [w_db set_db]. by rewrite Eb, decide_True.
Qed.

(** Deleting a bucket in the admin site deletes its files as the REST API does.  On
    success the bucket and every row of it are gone, exactly its files have left the
    store, and counters and stored bytes still agree; if the storage backend stops the
    deletion half way, the world is consistent as well and the deletion can be repeated. *)
Theorem bucket_admin_delete b w : storage_inv w → stored w b →
  wp (BucketAdmin_delete_model b)
    (λ _ w', storage_inv w' ∧ db_buckets (w_db w') !! b_id b = None ∧
       (∀ i o, db_objects (w_db w') !! i = Some o → o_bucket_id o ≠ b_id b) ∧
       (files w' ≡ λ bid name, if decide (bid = b_id b) then None else files w bid name) ∧ shrinks w w')
    (λ e w', is_backend_error e ∧ storage_inv w' ∧ shrinks w w') w.
Proof.
  intros Hinv Hb. unfold BucketAdmin_delete_model, get_db. apply wp_bind, wp_gets, wp_bind.
  eapply wp_mono; [apply wp_delete_files; [done| |]| |done].
  - intros o [[i Ho] _]%elem_of_bucket_files. eapply current_row; [apply Hinv|done].
  - apply nodup_filter_ids, Hinv.
  - intros u w1 (Hinv1 & Hf1 & Hsh1 & Hrows).
    assert (Hempty : ∀ i o, db_objects (w_db w1) !! i = Some o → o_bucket_id o ≠ b_id b).
    { intros i o' Ho' Heq. destruct (Hrows i o' Ho') as (Hout & o & Ho & He). apply Hout.
      pose proof (erase_metadata_fields _ _ He) as (_ & Hbk & _).
      apply list_elem_of_fmap. exists o. split; [by rewrite (inv_object_id w (proj1 Hinv) _ _ Ho)|].
      apply elem_of_bucket_files. split; [by exists i|congruence]. }
    eapply wp_mono; [by apply wp_delete_empty_bucket| |done].
    intros u' w2 (Hinv2 & Eo & Hf2 & Hsh2 & Hgone). split_and!; [done..|by rewrite Eo| |by etrans].
    rewrite Hf2, Hf1. intros bid name. unfold remove_all.
    destruct (decide (bid = b_id b)) as [->|Hne].
    + destruct (existsb _ _) eqn:Hex; [done|]. unfold files.
      destruct (find_object (w_db w) (b_id b) name) as [o|] eqn:Ho; [|done].
      apply find_object_iff in Ho as ([i Hi] & Hbk & Hn); [|apply Hinv].
      assert (Htrue : existsb (λ o, (o_bucket_id o == b_id b) && (o_name o == name)) (bucket_files (w_db w) b) = true).
      { apply existsb_exists. exists o. split; [|by rewrite !bool_decide_true].
        apply list_elem_of_In, elem_of_bucket_files. eauto. }
      congruence.
    + destruct (existsb _ _) eqn:Hex; [|done]. apply existsb_exists in Hex as (o & Ho & Hm).
      apply list_elem_of_In, elem_of_bucket_files in Ho as [_ Hbk].
      apply andb_true_iff in Hm as [Hm%bool_decide_eq_true _]. congruence.
Qed.
End deletions.


(** ** A concrete bucket *)
Import StoreSpec.Demo.
Lemma bucket_admin_delete_witness :
  let w' := (BucketAdmin_delete_model demo_bucket demo_world1).2 in
  (BucketAdmin_delete_model demo_bucket demo_world1).1 = inr tt ∧ db_buckets (w_db w') !! 1%N = None ∧
  files demo_world1 1%N "docs/a.txt" = Some abc ∧ files w' 1%N "docs/a.txt" = None ∧
  company_used (w_db w') 7 = 0.
Proof.
  cbv zeta. pose proof (bucket_admin_delete demo_bucket demo_world1 demo_inv1 demo_bucket_stored1) as Hwp.
  unfold wp in Hwp. destruct (BucketAdmin_delete_model demo_bucket demo_world1) as [[e|[]] w'] eqn:Hrun.
  { exfalso. vm_compute in Hrun. discriminate Hrun. }
  destruct Hwp as (_ & Hb & _ & Hf & _). split; [done|]. split; [exact Hb|].
  split; [vm_compute; reflexivity|]. split; [exact (Hf 1%N "docs/a.txt")|].
  replace w' with (BucketAdmin_delete_model demo_bucket demo_world1).2 by (by rewrite Hrun).
  vm_compute. reflexivity.
Defined.
