(* ===== verification/Scrub.v ===== *)
(** * Scrub: secrets stay out of logs and error reports

    [config/sentry_scrub.py], [config/safe_access_log.py], [config/access_log.py] and the
    error texts of [apps/actions/scheduled_jobs.py].  A Python [tuple] or [list] is a
    [JList], a [dict] a [JObj]. *)
From S2P Require Import Prelude PyStr PyData PyRe Models RuleConfig.

(** ** Patterns *)
Definition url_char (c : ascii) : bool := negb (is_space c) && none_of "'<>" c && (c != dquote).
Definition URL_QUERY_RE : rx :=
  seqs [RGrp 1 (seqs [RBound; RChr letter; RMany (λ c, alnum c || any_of "+.-" c); word "://";
                      RMany (λ c, url_char c && none_of "?#" c)]);
        RChr (any_of "?#"); RMany url_char].
Definition BEARER_RE : rx :=
  seqs [RBound; RGrp 1 (one_of_words ["bearer"; "basic"]); some_of is_space;
        at_least 8 (λ c, alnum c || any_of "._~+/=-" c)].
Definition token_char (c : ascii) : bool := none_of "/?#" c && negb (is_space c) && (c != dquote).
Definition SHARE_PREFIX : string := "/share/link/".
Definition SHARE_LINK_RE : rx := RCat (RGrp 1 (word SHARE_PREFIX)) (some_of token_char).

(** [access_log.redact_access_text] *)
Definition redact_access_text (value : string) : string := sub SHARE_LINK_RE [Ref 1; Lit "[filtered]"] value.
(** [sentry_scrub._scrub_text] *)
Definition _scrub_text (value : string) : string :=
  let value := sub URL_QUERY_RE [Ref 1] value in
  let value := sub SHARE_LINK_RE [Ref 1; Lit "[filtered]"] value in
  sub BEARER_RE [Ref 1; Lit " [Filtered]"] value.

Example scrub_text_demo :
  _scrub_text "GET https://h.io/a?b=c#d failed: Authorization: Bearer abc.DEF-123 /Share/Link/s3cret/x"
  = "GET https://h.io/a failed: Authorization: Bearer [Filtered] /Share/Link/[filtered]/x".
Proof. vm_compute. reflexivity. Qed.

(** ** Sentry events *)
Definition _DROP_HEADERS : list string :=
  ["authorization"; "cookie"; "set-cookie"; "referer"; "x-api-key"; "proxy-authorization"].
Definition dropped_header (key : string) : bool := lower key in_ _DROP_HEADERS.
(** [isinstance(pair, (list, tuple)) and len(pair) >= 1 and ...] *)
Definition dropped_pair (pair : json) : bool :=
  match pair with JList (k :: _) => dropped_header (py_str k) | _ => false end.
Definition scrub_headers (headers : json) : json :=
  match headers with
  | JObj l => JObj (filter (λ kv, dropped_header kv.1 = false) l)
  | JList l => JList (filter (λ p, dropped_pair p = false) l)
  | _ => headers
  end.
(** [if isinstance(d.get(key), str): d[key] = f(d[key])], and the like for any value. *)
Definition update_key (key : string) (f : json → json) (l : list (string * json)) : list (string * json) :=
  (λ kv, (kv.1, if kv.1 == key then f kv.2 else kv.2)) <$> l.
Definition on_text (f : string → string) (v : json) : json := match v with JStr s => JStr (f s) | _ => v end.
Definition text_before (c : ascii) (s : string) : string := (partition_char c s).1.

Definition scrub_request (request : list (string * json)) : list (string * json) :=
  let request := update_key "url" (on_text (λ url, _scrub_text (text_before "?" (text_before "#" url)))) request in
  let request := dict_pop "data" (dict_pop "cookies" (dict_pop "query_string" request)) in
  update_key "headers" scrub_headers request.
Definition scrub_frame (frame : json) : json :=
  match frame with JObj l => JObj (dict_pop "vars" l) | _ => frame end.
Definition scrub_stacktrace (stack : json) : json :=
  match stack with
  | JObj l => JObj (update_key "frames" (λ frames,
      match frames with JList fs => JList (scrub_frame <$> fs) | _ => frames end) l)
  | _ => stack
  end.
Definition scrub_item (item : json) : json :=
  match item with
  | JObj l => JObj (update_key "stacktrace" scrub_stacktrace (update_key "value" (on_text _scrub_text) l))
  | _ => item
  end.
Definition _scrub_exception (container : json) : json :=
  match container with
  | JObj l => JObj (update_key "values" (λ values,
      match values with JList items => JList (scrub_item <$> items) | _ => values end) l)
  | _ => container
  end.
Definition scrub_sentry_event (event : list (string * json)) : list (string * json) :=
  let event := update_key "request" (λ r, match r with JObj l => JObj (scrub_request l) | _ => r end) event in
  let event := update_key "message" (on_text _scrub_text) event in
  update_key "threads" _scrub_exception (update_key "exception" _scrub_exception event).

(** ** Access lines *)
Definition _SENSITIVE_RESPONSE_HEADERS : list string := ["set-cookie"; "authorization"; "cookie"].
(** [SafeAtoms]: a dictionary whose missing keys render as a dash. *)
Definition atoms_get (key : string) (atoms : list (string * json)) : json :=
  default (JStr "-") (dict_get (if startswith "{" key then lower key else key) atoms).
Definition escape_quotes (v : json) : json :=
  on_text (replace_sub (String dquote "") ("\" +:+ String dquote "")) v.
(** The key under which an atom is kept, if it is kept. *)
Definition kept_key (key : string) : option string :=
  if startswith "{" key then
    let lowered := lower key in
    if negb (endswith "}o" lowered) then None
    else if existsb (λ w, contains w lowered) _SENSITIVE_RESPONSE_HEADERS then None
    else Some lowered
  else Some key.
Definition safe_atoms (atoms : list (string * json)) : list (string * json) :=
  foldl (λ kept kv, match kept_key kv.1 with
                    | Some key => dict_set key (escape_quotes kv.2) kept
                    | None => kept
                    end) [] atoms.

(** [RedactAccessLogFilter.filter] on the message and the arguments of a record. *)
Inductive log_args := ArgsDict (l : list (string * json)) | ArgsTuple (l : list json) | ArgsOther.
Record log_record := LogRecord { lr_msg : json; lr_args : log_args }.
Definition _PATH_KEYS : list string := ["U"; "r"].
Definition redact_atom (key : string) (item : json) : json :=
  if key == "q" then JStr ""
  else if key == "f" then JStr "-"
  else if key in_ _PATH_KEYS then on_text redact_access_text item
  else item.
Definition access_log_filter (record : log_record) : log_record :=
  LogRecord (on_text redact_access_text (lr_msg record))
    (match lr_args record with
     | ArgsDict l => ArgsDict ((λ kv, (kv.1, redact_atom kv.1 kv.2)) <$> l)
     | ArgsTuple l => ArgsTuple (on_text redact_access_text <$> l)
     | ArgsOther => ArgsOther
     end).

(** ** What the share-link pattern does to a text *)
Fixpoint iprefix (l s : string) : option string :=
  match l with
  | "" => Some s
  | String a l' => match s with "" => None | String c s' => if fold_char a c then iprefix l' s' else None end
  end.
Lemma iprefix_spec l s r : lower l = l → iprefix l s = Some r ↔ ∃ m, s = m +:+ r ∧ lower m = l.
Proof.
  revert s. induction l as [|a l IH]; intros s Hl; cbn [iprefix].
  - split; [intros [= ->]; by exists ""|]. intros ([|c m] & -> & Hm); [done|discriminate Hm].
  - unfold lower in Hl. cbn [str_map] in Hl. injection Hl as Ha Hl. fold lower in Hl.
    destruct s as [|c s].
    { split; [done|]. intros ([|c m] & Heq & Hm); [discriminate Hm|discriminate Heq]. }
    unfold fold_char. rewrite Ha. destruct (bool_decide_reflect (lower_char c = a)) as [Hc|Hc].
    + rewrite IH by done. split.
      * intros (m & -> & Hm). exists (String c m). split; [done|]. unfold lower in *. cbn [str_map]. congruence.
      * intros ([|c' m] & Heq & Hm); [discriminate Hm|]. rewrite str_app_cons in Heq.
        injection Heq as <- ->. exists m. split; [done|]. unfold lower in *. cbn [str_map] in Hm. congruence.
    + split; [done|]. intros ([|c' m] & Heq & Hm); [discriminate Hm|]. rewrite str_app_cons in Heq.
      injection Heq as <- ->. unfold lower in Hm. cbn [str_map] in Hm. congruence.
Qed.
Lemma iprefix_shorter l s r : iprefix l s = Some r → (String.length r ≤ String.length s)%nat.
Proof.
  revert s. induction l as [|a l IH]; intros [|c s]; cbn [iprefix]; [intros [= <-]; done..|done|].
  destruct (fold_char a c); [|done]. intros Hr%IH. cbn. lia.
Qed.

Lemma run_word {R} l (k : cont (R := R)) prev s g :
  (∀ p p' s g, k p s g = k p' s g) →
  run (word l) k prev s g = match iprefix l s with Some r => k None r g | None => None end.
Proof.
  intros Hk. revert prev s. induction l as [|a l IH]; intros prev s; cbn [word run iprefix]; [apply Hk|].
  destruct s as [|c s]; [done|]. destruct (fold_char a c); [|done]. apply IH.
Qed.
Lemma run_many {R} p (k : cont (R := R)) prev s g :
  (∀ p p' s g, k p s g = k p' s g) → (∀ p s g, is_Some (k p s g)) →
  run (RMany p) k prev s g = k None (lstrip_while p s) g.
Proof.
  intros Hk Hs. revert prev. cbn [run]. induction s as [|c s IH]; intros prev; [apply Hk|].
  cbn [lstrip_while]. destruct (p c); [|apply Hk]. rewrite IH.
  by destruct (Hs None (lstrip_while p s) g) as [x ->].
Qed.
Lemma run_some {R} p (k : cont (R := R)) prev s g :
  (∀ p p' s g, k p s g = k p' s g) → (∀ p s g, is_Some (k p s g)) →
  run (some_of p) k prev s g =
    match s with "" => None | String c s' => if p c then k None (lstrip_while p s') g else None end.
Proof.
  intros Hk Hs. transitivity (match s with
    | "" => None
    | String c s' => if p c then run (RMany p) k (Some c) s' g else None
    end); [done|]. destruct s as [|c s]; [done|]. destruct (p c); [|done]. by apply run_many.
Qed.
Lemma share_match prev s : match_at SHARE_LINK_RE prev s =
  match iprefix SHARE_PREFIX s with
  | Some (String c r) =>
      if token_char c then Some (lstrip_while token_char r, [(1%nat, text_between s (String c r))]) else None
  | _ => None
  end.
Proof.
  transitivity (run (word SHARE_PREFIX)
    (λ prev' s' g', run (some_of token_char) (λ _ rest g, Some (rest, g)) prev' s' ((1%nat, text_between s s') :: g'))
    prev s []); [done|]. rewrite run_word.
  - destruct (iprefix SHARE_PREFIX s) as [r|]; [|done]. rewrite run_some by eauto. by destruct r.
  - intros p p' s' g. by rewrite !run_some by eauto.
Qed.

(** The scan, without the character before the text: the pattern has no boundary. *)
Fixpoint take_while (p : ascii → bool) (s : string) : string :=
  match s with "" => "" | String c s' => if p c then String c (take_while p s') else "" end.
Lemma take_lstrip p s : take_while p s +:+ lstrip_while p s = s.
Proof. induction s as [|c s IH]; [done|]. cbn. destruct (p c); [|done]. by rewrite str_app_cons, IH. Qed.
Lemma skip_token p s : str_drop (String.length s - String.length (lstrip_while p s)) s = lstrip_while p s.
Proof.
  rewrite <- (take_lstrip p s) at 1 3. rewrite str_length_app.
  replace (_ + _ - _)%nat with (String.length (take_while p s)) by lia. apply str_drop_app.
Qed.
Abbreviation red := redact_access_text.
Lemma sub_go_skip skip prev s :
  sub_go SHARE_LINK_RE [Ref 1; Lit "[filtered]"] skip prev s = red (str_drop skip s).
Proof.
  unfold redact_access_text, sub. revert skip prev. induction s as [|c s IH]; intros skip prev.
  { by destruct skip. }
  destruct skip as [|skip]; cbn [sub_go str_drop]; [|apply IH].
  by rewrite !share_match.
Qed.
(** A text that starts with a link to a token, and any other text. *)
Lemma red_link m c r : lower m = SHARE_PREFIX → token_char c = true →
  red (m +:+ String c r) = m +:+ "[filtered]" +:+ red (lstrip_while token_char r).
Proof.
  intros Hm Hc. assert (Hi : iprefix SHARE_PREFIX (m +:+ String c r) = Some (String c r))
    by (apply iprefix_spec; eauto).
  destruct m as [|x m]; [discriminate Hm|]. unfold redact_access_text at 1, sub. rewrite str_app_cons in *.
  cbn [sub_go]. rewrite share_match, Hi, Hc. rewrite <- str_app_cons, text_between_app.
  cbn [expand group_text Nat.eqb]. rewrite str_app_nil_r, !str_app_assoc. do 2 f_equal.
  rewrite sub_go_skip. f_equal. transitivity (str_drop (String.length (m +:+ String c "") +
    (String.length r - String.length (lstrip_while token_char r))) ((m +:+ String c "") +:+ r)).
  - rewrite str_app_assoc. cbn. f_equal. rewrite !str_length_app. cbn.
    pose proof (f_equal String.length (take_lstrip token_char r)) as Hl. rewrite str_length_app in Hl. lia.
  - rewrite <- (skip_token token_char r) at 2. generalize (String.length r - String.length (lstrip_while token_char r))%nat.
    intros n. induction (m +:+ String c "") as [|y l IH]; [done|]. exact IH.
Qed.
Lemma red_other c s : (∀ m t r, String c s = m +:+ String t r → lower m = SHARE_PREFIX → token_char t = false) →
  red (String c s) = String c (red s).
Proof.
  intros Hno. unfold redact_access_text at 1, sub. cbn [sub_go]. rewrite share_match.
  destruct (iprefix SHARE_PREFIX (String c s)) as [[|t r]|] eqn:Hi; [by rewrite sub_go_skip| |by rewrite sub_go_skip].
  apply iprefix_spec in Hi as (m & Heq & Hm); [|done]. rewrite (Hno m t r Heq Hm). by rewrite sub_go_skip.
Qed.

Definition starts_link (s : string) : Prop :=
  ∃ m t r, s = m +:+ String t r ∧ lower m = SHARE_PREFIX ∧ token_char t = true.
Lemma red_cases s : s = "" ∨
  (∃ m t r, s = m +:+ String t r ∧ lower m = SHARE_PREFIX ∧
     red s = m +:+ "[filtered]" +:+ red (lstrip_while token_char r)) ∨
  (∃ c s', s = String c s' ∧ ¬ starts_link s ∧ red s = String c (red s')).
Proof.
  destruct s as [|c s]; [by left|right]. destruct (iprefix SHARE_PREFIX (String c s)) as [[|t r]|] eqn:Hi.
  2: { apply iprefix_spec in Hi as (m & Heq & Hm); [|done]. destruct (token_char t) eqn:Ht.
       { left. exists m, t, r. split_and!; [done..|]. rewrite Heq. by apply red_link. }
       right. exists c, s.
       assert (Hno : ∀ m' t' r', String c s = m' +:+ String t' r' → lower m' = SHARE_PREFIX → token_char t' = false).
       { intros m' t' r' Heq' Hm'. assert (Hi' : iprefix SHARE_PREFIX (String c s) = Some (String t' r'))
           by (apply iprefix_spec; eauto).
         assert (Hi : iprefix SHARE_PREFIX (String c s) = Some (String t r)) by (apply iprefix_spec; eauto). congruence. }
       split_and!; [done| |by apply red_other]. intros (m' & t' & r' & H1 & H2 & H3). by rewrite (Hno m' t' r') in H3. }
  all: right; exists c, s; split; [done|].
  all: assert (Hno : ¬ starts_link (String c s))
    by (intros (m' & t' & r' & H1 & H2 & H3); assert (Hi' : iprefix SHARE_PREFIX (String c s) = Some (String t' r'))
          by (apply iprefix_spec; eauto); congruence).
  all: split; [done|]; apply red_other; intros m' t' r' H1 H2; destruct (token_char t') eqn:H3; [|done].
  all: exfalso; apply Hno; by exists m', t', r'.
Qed.
Lemma lower_app s t : lower (s +:+ t) = lower s +:+ lower t.
Proof. induction s as [|c s IH]; [done|]. rewrite !str_app_cons. unfold lower in *. cbn [str_map]. by rewrite IH. Qed.
Lemma red_head s : first_char (red s) = first_char s.
Proof.
  destruct (red_cases s) as [->|[(m & t & r & -> & Hm & ->)|(c & s' & -> & _ & ->)]]; [done| |done].
  by destruct m.
Qed.
Lemma s_is_token c : lower_char c = "s"%char → token_char c = true.
Proof. destruct c as [[] [] [] [] [] [] [] []]; vm_compute; congruence. Qed.

(** A piece of the prefix that shows up in the result was in the text. *)
Lemma red_piece n s m b : (1 ≤ n ≤ 12)%nat → red s = m +:+ b → lower m = str_drop n SHARE_PREFIX →
  ∃ r, s = m +:+ r ∧ (b = red r ∨ ∃ c r', r = String c r' ∧ token_char c = true).
Proof.
  intros Hn. remember (12 - n)%nat as k eqn:Hk. revert n Hn Hk s m.
  induction k as [|k IH]; intros n Hn Hk s m Hred Hm.
  { replace n with 12%nat in Hm by lia. destruct m; [|discriminate Hm]. exists s. split; [done|by left]. }
  destruct m as [|c0 m].
  { exfalso. do 12 (destruct n as [|n]; [first [lia|discriminate Hm]|]). lia. }
  destruct (red_cases s) as [->|[(m1 & t & r & -> & Hm1 & Hr)|(c & s' & -> & _ & Hr)]]; [done| |].
  - pose proof (f_equal lower Hred) as Hl. rewrite Hr, !lower_app, Hm1, Hm in Hl.
    assert (n = 11%nat) as ->.
    { do 12 (destruct n as [|n]; [first [done|discriminate Hl|lia]|]). lia. }
    destruct m; [|discriminate Hm]. destruct m1 as [|x [|y m1]]; [discriminate Hm1..|].
    rewrite Hr in Hred. injection Hred as -> _. exists (String y (m1 +:+ String t r)).
    split; [done|]. right. exists y, (m1 +:+ String t r). split; [done|]. apply s_is_token. by injection Hm1.
  - rewrite Hr in Hred. injection Hred as -> Hred.
    destruct (IH (S n) ltac:(lia) ltac:(lia) s' m Hred) as (r & -> & Hb).
    { unfold lower in Hm. cbn [str_map] in Hm. fold lower in Hm.
      do 12 (destruct n as [|n]; [first [lia|by injection Hm]|]). lia. }
    by exists r.
Qed.
Lemma lower_length s : String.length (lower s) = String.length s.
Proof. induction s as [|c s IH]; [done|]. unfold lower in *. cbn. by rewrite IH. Qed.
Lemma take_while_stop p s : (∀ c, first_char s = Some c → p c = false) → take_while p s = "".
Proof. destruct s as [|c s]; [done|]. intros Hs. cbn. by rewrite (Hs c). Qed.
Lemma lstrip_stop p s c : first_char (lstrip_while p s) = Some c → p c = false.
Proof. destruct (lstrip_while p s) as [|c' r] eqn:Hl; [done|]. intros [= <-]. by eapply lstrip_while_head. Qed.
Lemma str_app_same_length s1 s2 t1 t2 :
  s1 +:+ t1 = s2 +:+ t2 → String.length s1 = String.length s2 → s1 = s2 ∧ t1 = t2.
Proof.
  revert s2. induction s1 as [|c s1 IH]; intros [|c2 s2] Heq Hl; try discriminate Hl; [done|].
  injection Heq as -> Heq. injection Hl as Hl. by destruct (IH s2 Heq Hl) as [-> ->].
Qed.
Lemma str_app_longer s1 s2 t1 t2 : s1 +:+ t1 = s2 +:+ t2 → (String.length s1 ≤ String.length s2)%nat →
  ∃ r, s2 = s1 +:+ r ∧ t1 = r +:+ t2.
Proof.
  revert s2. induction s1 as [|c s1 IH]; intros s2 Heq Hl; [by exists s2|].
  destruct s2 as [|c2 s2]; [cbn in Hl; lia|]. injection Heq as -> Heq. cbn in Hl.
  destruct (IH s2 Heq ltac:(lia)) as (r & -> & ->). by exists r.
Qed.
Lemma take_while_app p s t : str_forall p s = true → take_while p (s +:+ t) = s +:+ take_while p t.
Proof.
  induction s as [|c s IH]; [done|]. intros [Hc Hs]%andb_true_iff. rewrite !str_app_cons.
  cbn [take_while]. by rewrite Hc, IH.
Qed.
Lemma lstrip_shorter p s : (String.length (lstrip_while p s) ≤ String.length s)%nat.
Proof. induction s as [|c s IH]; [done|]. cbn. destruct (p c); cbn; lia. Qed.

(** An occurrence of the prefix that overlaps a replaced link is that link. *)
Lemma overlap x y a b : lower (x +:+ y) = lower (a +:+ b) → lower x = SHARE_PREFIX +:+ "[filtered]" →
  (∃ t, lower b = SHARE_PREFIX +:+ t) → a = "" ∨ (22 ≤ String.length a)%nat.
Proof.
  intros Heq Hx [t Ht]. rewrite !lower_app, Hx, Ht in Heq.
  destruct (decide (22 ≤ String.length a)%nat) as [|Hlt]; [by right|left]. rewrite <- lower_length in Hlt.
  destruct a as [|c a]; [done|exfalso]. remember (lower (String c a)) as la eqn:Ha.
  destruct la as [|c' la]; [discriminate Ha|]. clear Ha.
  do 22 (destruct la as [|? la]; [try discriminate Heq|]); cbn in Hlt; try lia.
Qed.

Lemma tokens_filtered s a m b :
  redact_access_text s = a +:+ m +:+ b → lower m = SHARE_PREFIX →
  take_while token_char b = "" ∨ take_while token_char b = "[filtered]".
Proof.
  remember (String.length s) as n eqn:Hn. revert s a Hn.
  induction n as [n IH] using lt_wf_ind. intros s a -> Hred Hm.
  destruct (red_cases s) as [->|[(m1 & t & r & -> & Hm1 & Hr)|(c & s' & -> & Hno & Hr)]].
  - destruct a, m; discriminate.
  - rewrite Hr, <- str_app_assoc in Hred.
    assert (Hov : a = "" ∨ (22 ≤ String.length a)%nat).
    { apply (overlap (m1 +:+ "[filtered]") (red (lstrip_while token_char r)) a (m +:+ b)).
      - by rewrite Hred.
      - by rewrite lower_app, Hm1.
      - exists (lower b). by rewrite lower_app, Hm. }
    assert (Hl1 : String.length m1 = String.length m) by (by rewrite <- (lower_length m1), <- (lower_length m), Hm, Hm1).
    destruct Hov as [->|Hlong].
    + right. rewrite str_app_assoc, str_app_empty_l in Hred.
      destruct (str_app_same_length m1 m _ _ Hred Hl1) as [_ <-].
      rewrite take_while_app by done. rewrite take_while_stop; [done|]. intros c.
      rewrite red_head. apply lstrip_stop.
    + destruct (str_app_longer (m1 +:+ "[filtered]") a _ _ Hred) as (a' & -> & Hred').
      { rewrite str_length_app, <- lower_length, Hm1. done. }
      apply (IH (String.length (lstrip_while token_char r))) with (s := lstrip_while token_char r) (a := a'); try done.
      rewrite str_length_app. pose proof (lstrip_shorter token_char r). cbn. lia.
  - rewrite Hr in Hred. destruct a as [|x a].
    + rewrite str_app_empty_l in Hred. destruct m as [|y m]; [discriminate Hm|].
      injection Hred as <- Hred.
      destruct (red_piece 1 s' m b ltac:(lia) Hred) as (r & -> & Hb).
      { unfold lower in Hm. cbn [str_map] in Hm. by injection Hm. }
      left. apply take_while_stop. intros z Hz.
      assert (Hstop : ∀ z', first_char r = Some z' → token_char z' = false).
      { intros z' Hz'. destruct r as [|z'' r]; [done|]. injection Hz' as ->.
        destruct (token_char z') eqn:Ht; [|done]. exfalso. apply Hno. by exists (String c m), z', r. }
      destruct Hb as [->|(z' & r' & -> & Ht)]; [apply Hstop; by rewrite red_head in Hz|].
      by rewrite (Hstop z') in Ht.
    + injection Hred as <- Hred. apply (IH (String.length s')) with (s := s') (a := a); try done. cbn. lia.
Qed.
(** Where a segment of a path ends in a line of a log. *)
Definition ends_segment (c : ascii) : bool :=
  is_space c || (c == "/"%char) || (c == "?"%char) || (c == "#"%char) || (c == dquote).
Definition segment_of (s : string) : string := take_while (λ c, negb (ends_segment c)) s.
Lemma token_char_spec c : token_char c = negb (ends_segment c).
Proof.
  unfold token_char, ends_segment, none_of. rewrite !has_char_cons. change (has_char c "") with false.
  rewrite orb_false_r, !negb_orb. rewrite (bool_decide_ext (c = "/"%char) ("/"%char = c)) by done.
  rewrite (bool_decide_ext (c = "?"%char) ("?"%char = c)) by done.
  rewrite (bool_decide_ext (c = "#"%char) ("#"%char = c)) by done.
  destruct (is_space c), (bool_decide ("/"%char = c)), (bool_decide ("?"%char = c)), (bool_decide ("#"%char = c)); reflexivity.
Qed.
Lemma segment_of_token s : segment_of s = take_while token_char s.
Proof.
  unfold segment_of. induction s as [|c s IH]; [done|]. cbn [take_while]. by rewrite token_char_spec, IH.
Qed.

(** No token after a share link: the rest of the segment is empty or the word
    [[filtered]]. *)
Definition token_free (text : string) : Prop :=
  ∀ a m b, text = a +:+ m +:+ b → lower m = "/share/link/" → segment_of b = "" ∨ segment_of b = "[filtered]".
Lemma redact_token_free s : token_free (redact_access_text s).
Proof. intros a m b. rewrite segment_of_token. apply tokens_filtered. Qed.
Lemma on_text_token_free v t : on_text redact_access_text v = JStr t → token_free t.
Proof. destruct v; try done. intros [= <-]. apply redact_token_free. Qed.

(** C25: no share token survives in an access record.  In what the access-log filter leaves of
    a record (the filter of the logger [gunicorn.access], and of no other logger: see
    [request_logger_keeps_tokens]), wherever [/share/link/] occurs, in any case of
    letters, in the message, in an argument, or in the request line and the path among
    the atoms of Gunicorn, the rest of the segment after it is empty or the word
    [[filtered]]: whatever the text held, no character of a token is left, and no new
    link appears by the replacement.  The query string and the referrer among the atoms
    are blanked; the other atoms are as they were. *)
Theorem share_tokens_redacted r :
  let r' := access_log_filter r in
  (∀ t, lr_msg r' = JStr t → token_free t) ∧
  (∀ l t, lr_args r' = ArgsTuple l → JStr t ∈ l → token_free t) ∧
  (∀ l, lr_args r' = ArgsDict l → ∃ l0, lr_args r = ArgsDict l0 ∧ l.*1 = l0.*1 ∧
     ∀ k v, (k, v) ∈ l →
       (k = "q" → v = JStr "") ∧ (k = "f" → v = JStr "-") ∧
       (∀ t, k ∈ ["U"; "r"] → v = JStr t → token_free t) ∧
       (k ∉ ["q"; "f"; "U"; "r"] → (k, v) ∈ l0)).
Proof.
  intros r'. unfold r', access_log_filter. cbn [lr_msg lr_args]. split_and!.
  - intros t. apply on_text_token_free.
  - intros l t Hl. destruct (lr_args r) as [l0|l0|]; try done. injection Hl as <-.
    intros (v & Hv & _)%list_elem_of_fmap. by eapply on_text_token_free.
  - intros l Hl. destruct (lr_args r) as [l0|l0|]; try done. injection Hl as <-. exists l0.
    split; [done|]. split; [by rewrite <- list_fmap_compose|].
    intros k v ([k0 v0] & Heq & Hin)%list_elem_of_fmap. cbn [fst snd] in Heq. injection Heq as -> ->.
    unfold redact_atom, _PATH_KEYS. split_and!.
    + by intros ->.
    + by intros ->.
    + intros t Hk. assert (k0 = "U" ∨ k0 = "r") as [->| ->] by set_solver; apply on_text_token_free.
    + intros Hk. rewrite !bool_decide_false; [done|set_solver..].
Qed.
Lemma share_tokens_redacted_witness :
  let b := "[filtered] HTTP/1.1" in
  let record := LogRecord (JStr "%(r)s") (ArgsDict [("r", JStr "GET /Share/link/tok3n HTTP/1.1"); ("s", JInt 200)]) in
  access_log_filter record =
    LogRecord (JStr "%(r)s") (ArgsDict [("r", JStr ("GET " +:+ "/Share/link/" +:+ b)); ("s", JInt 200)]) ∧
  (segment_of b = "" ∨ segment_of b = "[filtered]").
Proof.
  intros b record. assert (Hf : access_log_filter record =
    LogRecord (JStr "%(r)s") (ArgsDict [("r", JStr ("GET " +:+ "/Share/link/" +:+ b)); ("s", JInt 200)]))
    by (vm_compute; reflexivity).
  split; [exact Hf|]. destruct (share_tokens_redacted record) as (_ & _ & Hd). rewrite Hf in Hd.
  destruct (Hd _ eq_refl) as (l0 & _ & _ & Hl).
  destruct (Hl "r" (JStr ("GET " +:+ "/Share/link/" +:+ b))) as (_ & _ & Ht & _); [left|].
  eapply (Ht _ (list_elem_of_further _ _ _ (list_elem_of_here _ _)) eq_refl "GET " "/Share/link/" b);
    vm_compute; reflexivity.
Defined.

(** ** What is left of an event *)
Lemma in_update_key key f l v : (key, v) ∈ update_key key f l → ∃ v0, (key, v0) ∈ l ∧ v = f v0.
Proof.
  intros ([k v0] & Heq & Hin)%list_elem_of_fmap. cbn in Heq. injection Heq as -> Hv.
  rewrite bool_decide_true in Hv by done. eauto.
Qed.
Lemma in_update_other key key' f l v : key' ≠ key → (key', v) ∈ update_key key f l → (key', v) ∈ l.
Proof.
  intros Hne ([k v0] & Heq & Hin)%list_elem_of_fmap. cbn in Heq. injection Heq as -> Hv.
  rewrite bool_decide_false in Hv by done. by subst.
Qed.
Lemma in_dict_pop {V} key key' (v : V) l : (key', v) ∈ dict_pop key l ↔ key' ≠ key ∧ (key', v) ∈ l.
Proof. unfold dict_pop. by rewrite list_elem_of_filter. Qed.

(** No sensitive part of a request. *)
Definition clean_request (r : list (string * json)) : Prop :=
  (∀ k v, (k, v) ∈ r → k ∉ ["query_string"; "cookies"; "data"]) ∧
  (∀ h k v, ("headers", JObj h) ∈ r → (k, v) ∈ h → lower k ∉ _DROP_HEADERS) ∧
  (∀ ps k v, ("headers", JList ps) ∈ r → JList [JStr k; v] ∈ ps → lower k ∉ _DROP_HEADERS) ∧
  (∀ url, ("url", JStr url) ∈ r → ∃ u, url = _scrub_text u ∧ has_char "?" u = false ∧ has_char "#" u = false).
(** No local variable in a frame; the texts of the exceptions are scrubbed. *)
Definition clean_container (c : json) : Prop :=
  ∀ l items it, c = JObj l → ("values", JList items) ∈ l → JObj it ∈ items →
    (∀ text, ("value", JStr text) ∈ it → ∃ t, text = _scrub_text t) ∧
    (∀ st fs f v, ("stacktrace", JObj st) ∈ it → ("frames", JList fs) ∈ st → JObj f ∈ fs → ("vars", v) ∉ f).

Lemma before_free c s : has_char c (text_before c s) = false.
Proof.
  unfold text_before, has_char. induction s as [|x s IH]; [done|]. cbn [partition_char].
  case_bool_decide as Hx; [done|]. destruct (partition_char c s) as [h t]. cbn in *.
  by rewrite bool_decide_false.
Qed.
Lemma before_keeps c c' s : has_char c' s = false → has_char c' (text_before c s) = false.
Proof.
  unfold text_before, has_char. induction s as [|x s IH]; [done|]. cbn [partition_char str_forall].
  intros Hs. apply negb_false_iff, andb_true_iff in Hs as [Hx Hs].
  destruct (bool_decide_reflect (x = c)); [done|]. destruct (partition_char c s) as [h t].
  cbn [fst str_forall] in *. rewrite Hx. apply IH. by rewrite Hs.
Qed.
Lemma scrub_request_clean r : clean_request (scrub_request r).
Proof.
  unfold scrub_request. split_and!.
  - intros k v ([k0 v0] & Heq & Hin)%list_elem_of_fmap. cbn in Heq. injection Heq as -> _.
    rewrite !in_dict_pop in Hin. destruct Hin as (H1 & H2 & H3 & _). set_solver.
  - intros h k v (v0 & _ & Heq)%in_update_key Hin. destruct v0 as [| | | |ps|l]; try discriminate Heq.
    injection Heq as ->. apply list_elem_of_filter in Hin as [Hd _]. unfold dropped_header in Hd.
    by apply bool_decide_eq_false in Hd.
  - intros ps k v (v0 & _ & Heq)%in_update_key Hin. destruct v0 as [| | | |ps'|l]; try discriminate Heq.
    injection Heq as ->. apply list_elem_of_filter in Hin as [Hd _]. cbn in Hd. unfold dropped_header in Hd.
    by apply bool_decide_eq_false in Hd.
  - intros url Hin. apply in_update_other in Hin; [|done]. rewrite !in_dict_pop in Hin.
    destruct Hin as (_ & _ & _ & (v0 & _ & Heq)%in_update_key). destruct v0; try discriminate Heq.
    injection Heq as ->. eexists. split; [done|]. split; [apply before_free|apply before_keeps, before_free].
Qed.
Lemma scrub_exception_clean c : clean_container (_scrub_exception c).
Proof.
  intros l items it Hc Hv Hit. destruct c as [| | | | |l0]; try discriminate Hc. cbn in Hc. injection Hc as <-.
  apply in_update_key in Hv as (v0 & _ & Heq). destruct v0 as [| | | |items0|]; try discriminate Heq.
  injection Heq as ->. apply list_elem_of_fmap in Hit as (it0 & Heq & _).
  destruct it0 as [| | | | |l1]; try discriminate Heq. injection Heq as ->. split.
  - intros text Hin. apply in_update_other in Hin; [|done]. apply in_update_key in Hin as (v1 & _ & Hv1).
    destruct v1; try discriminate Hv1. injection Hv1 as ->. eauto.
  - intros st fs f v (st0 & _ & Hst)%in_update_key Hfs Hf Hvars.
    destruct st0 as [| | | | |l2]; try discriminate Hst. injection Hst as ->.
    apply in_update_key in Hfs as (fs0 & _ & Hfs0). destruct fs0 as [| | | |fs1|]; try discriminate Hfs0.
    injection Hfs0 as ->. apply list_elem_of_fmap in Hf as (f0 & Hf0 & _).
    destruct f0 as [| | | | |l3]; try discriminate Hf0. injection Hf0 as ->.
    by apply in_dict_pop in Hvars as [? _].
Qed.

(** What is sent to the error tracker holds no credential.  In a scrubbed event the
    request has no query string, cookies or body, no sensitive header in either of the
    forms a header list may have, and an address without query and fragment; no frame of
    an exception or a thread has local variables; and the message and the texts of the
    exceptions have gone through the patterns. *)
Theorem sentry_event_clean event :
  let e := scrub_sentry_event event in
  (∀ r, ("request", JObj r) ∈ e → clean_request r) ∧
  (∀ c, ("exception", c) ∈ e ∨ ("threads", c) ∈ e → clean_container c) ∧
  (∀ text, ("message", JStr text) ∈ e → ∃ t, text = _scrub_text t).
Proof.
  cbv zeta. unfold scrub_sentry_event. split_and!.
  - intros r Hr. do 3 (apply in_update_other in Hr; [|done]). apply in_update_key in Hr as (v & _ & Heq).
    destruct v; try discriminate Heq. injection Heq as ->. apply scrub_request_clean.
  - intros c [Hc|Hc].
    + apply in_update_other in Hc; [|done]. apply in_update_key in Hc as (v & _ & ->). apply scrub_exception_clean.
    + apply in_update_key in Hc as (v & _ & ->). apply scrub_exception_clean.
  - intros text Ht. do 2 (apply in_update_other in Ht; [|done]). apply in_update_key in Ht as (v & _ & Heq).
    destruct v; try discriminate Heq. injection Heq as ->. eauto.
Qed.

(** ** What an access line can show *)
Lemma dict_get_safe (atoms acc : list (string * json)) k v :
  (∀ k v, dict_get k acc = Some v → ∃ key item, (key, item) ∈ atoms ∧ kept_key key = Some k ∧ v = escape_quotes item) →
  ∀ l : list (string * json), (∀ x, x ∈ l → x ∈ atoms) →
  dict_get k (foldl (λ kept kv, match kept_key kv.1 with
                                | Some key => dict_set key (escape_quotes kv.2) kept
                                | None => kept
                                end) acc l) = Some v →
  ∃ key item, (key, item) ∈ atoms ∧ kept_key key = Some k ∧ v = escape_quotes item.
Proof.
  intros Hacc l. revert acc Hacc. induction l as [|[key item] l IH]; intros acc Hacc Hl; cbn [foldl]; [apply Hacc|].
  apply IH; [|intros x Hx; apply Hl; by right]. cbn [fst snd].
  destruct (kept_key key) as [key'|] eqn:Hk; [|done]. intros k' v'. rewrite dict_get_set.
  case_bool_decide as Heq; [subst k'|apply Hacc].
  intros [= <-]. exists key, item. split; [apply Hl; by left|done].
Qed.
Lemma brace_lower s : startswith "{" (lower s) = startswith "{" s.
Proof. destruct s as [|[[] [] [] [] [] [] [] []] s]; vm_compute; by try destruct s. Qed.
Lemma kept_key_safe key k : kept_key key = Some k → startswith "{" k = true →
  lower key = k ∧ endswith "}o" k = true ∧ ∀ w, w ∈ _SENSITIVE_RESPONSE_HEADERS → contains w k = false.
Proof.
  unfold kept_key. destruct (startswith "{" key) eqn:Hs; [|intros [= ->]; congruence].
  destruct (endswith "}o" (lower key)) eqn:He; [|done]. cbn [negb].
  destruct (existsb _ _) eqn:Hx; [done|]. intros [= <-] _. split_and!; [done..|].
  intros w Hw. destruct (contains w (lower key)) eqn:Hc; [|done].
  assert (existsb (λ w, contains w (lower key)) _SENSITIVE_RESPONSE_HEADERS = true) as Htrue; [|congruence].
  apply existsb_exists. exists w. split; [by apply list_elem_of_In|done].
Qed.

(** A header of a request cannot reach an access line.  Whatever name in braces a log
    format asks for, in any case of letters, the answer is a dash unless it is a header of
    the response that is neither a cookie nor an authorization; a name without braces
    yields the atom of that name, its quotes escaped, or a dash. *)
Theorem access_atoms_safe atoms key :
  atoms_get key (safe_atoms atoms) = JStr "-" ∨
  (startswith "{" key = true ∧ endswith "}o" (lower key) = true ∧
   ∀ w, w ∈ _SENSITIVE_RESPONSE_HEADERS → contains w (lower key) = false) ∨
  (startswith "{" key = false ∧ ∃ item, (key, item) ∈ atoms ∧ atoms_get key (safe_atoms atoms) = escape_quotes item).
Proof.
  unfold atoms_get. set (k := if startswith "{" key then lower key else key).
  destruct (dict_get k (safe_atoms atoms)) as [v|] eqn:Hv; [right|by left]. cbn [default].
  assert (Hin : ∃ key0 item, (key0, item) ∈ atoms ∧ kept_key key0 = Some k ∧ v = escape_quotes item).
  { eapply (dict_get_safe atoms []); [done| |exact Hv]. done. }
  destruct Hin as (key0 & item & Hin & Hk & ->). unfold k in *. destruct (startswith "{" key) eqn:Hs.
  - left. split; [done|]. apply kept_key_safe in Hk as (_ & ? & ?); [done|].
    by rewrite brace_lower.
  - right. split; [done|]. exists item. split; [|done]. unfold kept_key in Hk.
    destruct (startswith "{" key0) eqn:Hs0; [|by injection Hk as ->].
    destruct (endswith "}o" (lower key0)); [|done]. destruct (existsb _ _); [done|]. injection Hk as Hk. exfalso.
    by rewrite <- Hk, brace_lower, Hs0 in Hs.
Qed.

(** ** Error texts of scheduled jobs *)
Definition quote_free (c : ascii) : bool := negb (is_space c) && none_of "'<>" c && (c != dquote).
Definition URL_USERINFO_RE : rx :=
  seqs [RGrp 1 (seqs [RBound; RChr letter; RMany (λ c, alnum c || any_of "+.-" c); word "://"]);
        some_of (λ c, quote_free c && none_of "/@" c); word "@"].
Definition JWT_RE : rx :=
  let part := at_least 5 (λ c, alnum c || any_of "_-" c) in
  seqs [RBound; RChr (λ c, c == "e"%char); RChr (λ c, c == "y"%char); RChr (λ c, c == "J"%char); part;
        word "."; part; word "."; part; RBound].
Definition SECRET_WORDS : rx :=
  RAlt (one_of_words ["token"; "access_token"; "refresh_token"])
    (RAlt (seqs [word "api"; RAlt (RChr (any_of "_-")) REps; word "key"])
       (one_of_words ["key"; "secret"; "password"; "passwd"; "pwd"; "authorization"; "code"; "state";
                      "signature"; "sig"])).
Definition SECRET_PAIR_RE : rx :=
  seqs [RBound; RGrp 1 SECRET_WORDS; RGrp 2 (seqs [RMany is_space; RChr (any_of "=:"); RMany is_space]);
        RGrp 3 (RAlt (seqs [RChr (λ c, c == dquote); RMany (λ c, c != dquote); RChr (λ c, c == dquote)])
               (RAlt (seqs [RChr (any_of "'"); RMany (none_of "'"); RChr (any_of "'")])
                     (some_of (λ c, negb (is_space c) && none_of ",;&" c))))].
Definition hex_char (c : ascii) : bool := is_digit c || any_of "abcdefABCDEF" c.
Definition LONG_HEX_RE : rx := seqs [RBound; at_least 32 hex_char; RBound].
Definition ERROR_MESSAGE_MAX : nat := 300.

(** The text, and whether the ellipsis that marks a cut follows it (the ellipsis is a
    character outside the modelled alphabet). *)
Definition scrub_error (text : string) : string :=
  let value := join_char " " (words text) in
  let value := sub URL_QUERY_RE [Ref 1] value in
  let value := sub URL_USERINFO_RE [Ref 1] value in
  let value := sub BEARER_RE [Ref 1; Lit " [Filtered]"] value in
  let value := sub JWT_RE [Lit "[Filtered]"] value in
  let value := sub SECRET_PAIR_RE [Ref 1; Ref 2; Lit "[Filtered]"] value in
  sub LONG_HEX_RE [Lit "[Filtered]"] value.
Definition sanitize_error_message (text : string) : string * bool :=
  let value := scrub_error text in
  if (ERROR_MESSAGE_MAX <? String.length value)%nat then (str_take (ERROR_MESSAGE_MAX - 1) value, true)
  else (value, false).

(** [error_key_for]: what [isinstance] answers about the exception, in the order of the
    tests; [redis] and [requests] may be missing. *)
Record exception_kinds := ExceptionKinds {
  is_redis_timeout : bool; is_redis_error : bool; is_database_error : bool; is_timeout : bool;
  is_connection_error : bool; is_requests_timeout : bool; is_requests_error : bool }.
Definition error_key_for (redis requests : bool) (x : exception_kinds) : string :=
  if redis && is_redis_timeout x then "timeout"
  else if redis && is_redis_error x then "redis_error"
  else if is_database_error x then "database_error"
  else if is_timeout x then "timeout"
  else if is_connection_error x then "network_error"
  else if requests && is_requests_timeout x then "timeout"
  else if requests && is_requests_error x then "network_error"
  else "unexpected_error".
Definition describe_exception (redis requests : bool) (x : exception_kinds) (class text : string) :
  string * string * (string * bool) :=
  (error_key_for redis requests x, str_take 128 class, sanitize_error_message (str_or text class)).

Example sanitize_demo : scrub_error
  "GET  https://u:p@h.io/x?token=1 : api_key='a b', Bearer abcdefgh.12 eyJhbGci.eyJzdWIi.c2lnbmF0 0123456789abcdef0123456789ABCDEF"
  = "GET https://h.io/x : api_key=[Filtered], Bearer [Filtered] [Filtered] [Filtered]".
Proof. vm_compute. reflexivity. Qed.

(** ** A scrubbed error text is one line of bounded length *)
Section chars.
Context (P : ascii → bool).
Definition texts_ok (g : list (nat * string)) : Prop := Forall (λ x, str_forall P x.2 = true) g.
Lemma text_between_ok s rest : str_forall P s = true → str_forall P (text_between s rest) = true.
Proof.
  unfold text_between. generalize (String.length s - String.length rest)%nat as n. intros n.
  revert s. induction n as [|n IH]; intros [|c s]; cbn; try done.
  intros [-> Hs]%andb_true_iff. by apply IH.
Qed.
(** Matching only cuts the text into pieces. *)
Lemma run_ok {R} (Q : R → Prop) r : ∀ (k : cont (R := R)) prev s g,
  str_forall P s = true → texts_ok g →
  (∀ prev s g x, str_forall P s = true → texts_ok g → k prev s g = Some x → Q x) →
  ∀ x, run r k prev s g = Some x → Q x.
Proof.
  induction r as [p|p| | |r1 IH1 r2 IH2|r1 IH1 r2 IH2|n r IH]; intros k prev s g Hs Hg Hk x; cbn [run].
  - destruct s as [|c s]; [done|]. destruct (p c); [|done]. cbn in Hs. apply andb_true_iff in Hs as [_ Hs].
    by apply Hk.
  - revert prev. induction s as [|c s IH]; intros prev; [by apply Hk|].
    cbn in Hs. apply andb_true_iff in Hs as Hs'. destruct (p c); [|by apply Hk].
    specialize (IH (proj2 Hs') (Some c)).
    match goal with |- first_of ?m _ = _ → _ => destruct m as [y|] end; cbn; [|by apply Hk].
    intros [= <-]. by apply IH.
  - destruct (eqb _ _); [done|]. by apply Hk.
  - by apply Hk.
  - apply IH1; [done..|]. intros prev' s' g' y Hs' Hg'. by apply IH2.
  - unfold first_of. destruct (run r1 k prev s g) as [y|] eqn:Hy.
    + intros [= <-]. by eapply IH1.
    + by apply IH2.
  - apply IH; [done..|]. intros prev' s' g' y Hs' Hg'. apply Hk; [done|]. constructor; [|done].
    by apply text_between_ok.
Qed.
Lemma group_text_ok n g : texts_ok g → str_forall P (group_text n g) = true.
Proof. induction 1 as [|[m t] g Ht Hg IH]; cbn; [done|]. by destruct (m =? n)%nat. Qed.
Lemma expand_ok template g :
  (∀ t, Lit t ∈ template → str_forall P t = true) → texts_ok g → str_forall P (expand template g) = true.
Proof.
  intros Ht Hg. induction template as [|[t|n] template IH]; cbn [expand]; [done|..];
    rewrite str_forall_app; apply andb_true_iff; (split; [|apply IH; intros t' Ht'; apply Ht; by right]).
  - apply Ht. by left.
  - by apply group_text_ok.
Qed.
Lemma sub_ok r template s :
  (∀ t, Lit t ∈ template → str_forall P t = true) → str_forall P s = true → str_forall P (sub r template s) = true.
Proof.
  intros Ht. unfold sub. generalize (None : option ascii) as prev. generalize O as skip.
  induction s as [|c s IH]; intros skip prev Hs; cbn [sub_go]; [done|].
  pose proof Hs as Hs'. cbn in Hs'. apply andb_true_iff in Hs' as [Hc Hs'].
  destruct skip as [|skip]; [|by apply IH].
  destruct (match_at r prev (String c s)) as [[rest g]|] eqn:Hm; [|cbn; by rewrite Hc, IH].
  rewrite str_forall_app, IH, andb_true_r by done. apply expand_ok; [done|].
  eapply (run_ok (λ x, texts_ok x.2) r) in Hm; [exact Hm|done|by constructor|].
  by intros prev' s' g' x _ Hg [= <-].
Qed.
Lemma split_ok a s : str_forall P s = true → Forall (λ t, str_forall P t = true) (split_char a s).
Proof.
  induction s as [|c s IH]; [by repeat constructor|]. cbn. intros [Hc Hs]%andb_true_iff.
  specialize (IH Hs). case_bool_decide; [by constructor|].
  destruct (split_char a s) as [|t l]; [by repeat constructor; cbn; rewrite Hc|].
  inversion IH; subst. constructor; [|done]. cbn. by rewrite Hc.
Qed.
Lemma join_ok a l : P a = true → Forall (λ t, str_forall P t = true) l → str_forall P (join_char a l) = true.
Proof.
  intros Ha. induction 1 as [|t l Ht Hl IH]; [done|]. destruct l as [|t' l]; [done|].
  rewrite join_char_cons by done. rewrite str_forall_app, Ht. cbn [str_forall]. by rewrite Ha, IH.
Qed.
Lemma str_map_ok f s : (∀ c, P (f c) = true) → str_forall P (str_map f s) = true.
Proof. intros Hf. induction s as [|c s IH]; [done|]. cbn. by rewrite Hf, IH. Qed.
Lemma str_take_ok n s : str_forall P s = true → str_forall P (str_take n s) = true.
Proof.
  revert s. induction n as [|n IH]; intros [|c s]; cbn; try done. intros [-> Hs]%andb_true_iff. by apply IH.
Qed.
End chars.
Lemma str_take_min n s : String.length (str_take n s) = Nat.min n (String.length s).
Proof. revert s. induction n as [|n IH]; intros [|c s]; cbn; [done..|]. by rewrite IH. Qed.

(** No white space other than blanks. *)
Definition line_char (c : ascii) : bool := negb (is_space c) || (c == " "%char).
(** The error text a failed job keeps is one line of at most 300 characters, whatever
    the exception said: it holds no line break and no white space but blanks, and where it
    was cut the ellipsis takes the place of the last character.  Class and text stay
    within the columns that store them. *)
Theorem error_text_bounded redis requests x class text :
  let '(key, class', (message, cut)) := describe_exception redis requests x class text in
  str_forall line_char message = true ∧
  (String.length message + (if cut then 1 else 0) ≤ ERROR_MESSAGE_MAX)%nat ∧
  (cut = true → String.length message = (ERROR_MESSAGE_MAX - 1)%nat) ∧
  (String.length class' ≤ 128)%nat ∧
  key ∈ ["database_error"; "redis_error"; "timeout"; "network_error"; "unexpected_error"].
Proof.
  unfold describe_exception, sanitize_error_message. set (value := scrub_error (str_or text class)).
  assert (Hline : str_forall line_char value = true).
  { unfold value, scrub_error. do 6 (apply sub_ok; [intros t Ht; repeat apply elem_of_cons in Ht as [Ht|Ht];
      by first [apply elem_of_nil in Ht|discriminate Ht|injection Ht as ->]|]).
    apply join_ok; [done|]. apply Forall_forall. intros t [_ Ht]%list_elem_of_filter.
    revert t Ht. apply Forall_forall, split_ok, str_map_ok. intros c. unfold line_char.
    destruct (is_space c) eqn:Hc; [done|]. by rewrite Hc. }
  assert (Hkey : error_key_for redis requests x ∈ ["database_error"; "redis_error"; "timeout"; "network_error"; "unexpected_error"]).
  { unfold error_key_for. repeat case_match; set_solver. }
  destruct (Nat.ltb_spec ERROR_MESSAGE_MAX (String.length value)) as [Hlong|Hshort]; cbn [fst snd].
  - assert (Hcut : String.length (str_take (ERROR_MESSAGE_MAX - 1) value) = (ERROR_MESSAGE_MAX - 1)%nat)
      by (rewrite str_take_min; unfold ERROR_MESSAGE_MAX in *; lia).
    rewrite Hcut. split_and!; [by apply str_take_ok|unfold ERROR_MESSAGE_MAX; lia|done|rewrite str_take_min; lia|done].
  - split_and!; [done|lia|done|rewrite str_take_min; lia|done].
Qed.
