(* ===== verification/LogKey.v ===== *)
(** * LogKey: the API key of the e-mail service stays out of log records
    ([_scrub_value] and the two redactors of [apps/actions/email_service.py])

    The key is replaced in texts before they are written.  A replacement could in principle
    build the key anew out of what surrounds it: the theorem says when it does not. *)
From S2P Require Import Prelude PyStr PyData Models.
From S2P Require Import Redact Registry Events Scrub.

Section logs.
Context `{ActionSettings}.

Definition _scrub_value (value : json) (key : string) : json :=
  match value with
  | JStr s => JStr (if contains key s then replace_sub key REDACTED s else s)
  | _ => value
  end.
(** A record with the text of its traceback, when that has been formatted. *)
Record traced := Traced { tr_record : log_record; tr_exc_text : option string }.
Definition api_key_filter (record : traced) : traced :=
  let key := email_service_api_key in
  if negb (truthy key) then record
  else
    let args := match lr_args (tr_record record) with
                | ArgsDict l => ArgsDict ((λ kv, (kv.1, _scrub_value kv.2 key)) <$> l)
                | ArgsTuple l => ArgsTuple ((λ item, _scrub_value item key) <$> l)
                | ArgsOther => ArgsOther
                end in
    Traced (LogRecord (_scrub_value (lr_msg (tr_record record)) key) args)
      ((λ s, if contains key s then replace_sub key REDACTED s else s) <$> tr_exc_text record).
(** [RedactEmailServiceApiKeyFormatter.format]; [line]: what the base class makes of the record. *)
Definition api_key_format (line : string) : string := redact_email_service_secret line.
End logs.

(** ** Replacing a key *)
Section replacing.
Context (key : string).
Context (key_plain : has_char "[" key = false ∧ has_char "]" key = false).

Lemma go_skip n s : replace_sub_go key REDACTED n s = replace_sub_go key REDACTED O (str_drop n s).
Proof.
  revert n. induction s as [|c s IH]; intros [|n]; try done. cbn [replace_sub_go str_drop]. apply IH.
Qed.
Lemma startswith_cons p a s t : startswith (String a p) (String t s) = bool_decide (a = t) && startswith p s.
Proof.
  unfold startswith. cbn. by destruct (ascii_dec a t) as [->|Hne]; [rewrite bool_decide_true|rewrite bool_decide_false].
Qed.
(** A text without the opening bracket that starts the result starts the source. *)
Lemma prefix_survives p s : has_char "[" p = false →
  startswith p (replace_sub_go key REDACTED O s) = true → startswith p s = true.
Proof.
  revert p. induction s as [|c s IH]; intros p Hp; [done|]. cbn [replace_sub_go].
  destruct p as [|a p]; [done|]. rewrite has_char_cons in Hp. apply orb_false_iff in Hp as [Ha Hp].
  destruct (startswith key (String c s)).
  - change (REDACTED +:+ ?t) with (String "[" ("redacted]" +:+ t)). rewrite startswith_cons, Ha. done.
  - rewrite !startswith_cons. intros [Hac Hs]%andb_true_iff. by rewrite Hac, (IH p Hp Hs).
Qed.
Lemma startswith_nil s : startswith "" s = true.
Proof. by destruct s. Qed.
(** A text without [b] that starts [q], [b] and more starts [q]. *)
Lemma prefix_stops b p q t : has_char b p = false → startswith p (q +:+ String b t) = true → startswith p q = true.
Proof.
  revert q. induction p as [|a p IH]; intros q Hp; [intros _; apply startswith_nil|].
  rewrite has_char_cons in Hp. apply orb_false_iff in Hp as [Ha Hp]. destruct q as [|c q].
  - change ("" +:+ String b t) with (String b t). rewrite startswith_cons, Ha. done.
  - rewrite str_app_cons, !startswith_cons. intros [Hac Hs]%andb_true_iff. by rewrite Hac, IH.
Qed.
Lemma bracket_blocks r t : key ≠ "" → contains key r = false → contains key t = false →
  contains key (r +:+ String "]" t) = false.
Proof.
  destruct key_plain as [_ Hk]. intros Hne Hr Ht. induction r as [|c r IH].
  - change ("" +:+ String "]" t) with (String "]" t). cbn [contains]. rewrite Ht, orb_false_r.
    destruct (startswith key (String "]" t)) eqn:He; [|done].
    apply (prefix_stops "]" key "") in He; [|done]. cbn [contains] in Hr. by rewrite He in Hr.
  - rewrite str_app_cons. cbn [contains] in *. apply orb_false_iff in Hr as [Hs Hr]. rewrite IH, orb_false_r by done.
    destruct (startswith key (String c (r +:+ String "]" t))) eqn:He; [|done].
    rewrite <- str_app_cons in He. apply prefix_stops in He; [|done]. by rewrite He in Hs.
Qed.
Lemma key_gone s : key ≠ "" → contains key "[redacted" = false → contains key (replace_sub key REDACTED s) = false.
Proof.
  intros Hne Hword. unfold replace_sub.
  induction s as [s IH] using (induction_ltof1 _ String.length). unfold ltof in IH.
  destruct s as [|c s]; [by destruct key|]. cbn [replace_sub_go].
  destruct (startswith key (String c s)) eqn:Hs.
  - rewrite go_skip. change (REDACTED +:+ ?t) with ("[redacted" +:+ String "]" t).
    apply bracket_blocks; [done|done|]. apply IH. cbn [String.length].
    enough (∀ n u, (String.length (str_drop n u) <= String.length u)%nat) as Hd by (specialize (Hd (String.length key - 1)%nat s); lia).
    clear. intros n. induction n as [|n IH]; intros [|c u]; cbn; [lia..|]. specialize (IH u). lia.
  - cbn [contains]. rewrite IH, orb_false_r by (cbn; lia).
    destruct (startswith key (String c (replace_sub_go key REDACTED 0 s))) eqn:He; [|done].
    assert (Hak : ∃ a k, key = String a k) by (destruct key; by eauto). destruct Hak as (a & k & Hak).
    destruct key_plain as [Hp _]. pose proof (prefix_survives k s) as Hsurvives.
    rewrite Hak in Hs, Hp. rewrite Hak in He at 1. rewrite has_char_cons in Hp. apply orb_false_iff in Hp as [_ Hp].
    rewrite startswith_cons in Hs, He. apply andb_true_iff in He as [Hac He].
    by rewrite Hac, (Hsurvives Hp He) in Hs.
Qed.
End replacing.

(** ** Records *)
Definition free_of (key : string) (v : json) : Prop := match v with JStr s => contains key s = false | _ => True end.
Definition record_free_of (key : string) (r : traced) : Prop :=
  free_of key (lr_msg (tr_record r)) ∧
  match lr_args (tr_record r) with
  | ArgsDict l => Forall (λ kv, free_of key kv.2) l
  | ArgsTuple l => Forall (free_of key) l
  | ArgsOther => True
  end ∧
  from_option (λ s, contains key s = false) True (tr_exc_text r).

Section records.
Context `{ActionSettings}.
Context (key_plain : has_char "[" email_service_api_key = false ∧ has_char "]" email_service_api_key = false).
Context (key_word : contains email_service_api_key "[redacted" = false).

Lemma scrubbed_text s : email_service_api_key ≠ "" →
  contains email_service_api_key (if contains email_service_api_key s then replace_sub email_service_api_key REDACTED s else s) = false.
Proof. intros Hne. destruct (contains _ s) eqn:Hc; [by apply key_gone|done]. Qed.
Lemma scrubbed_value v : email_service_api_key ≠ "" → free_of email_service_api_key (_scrub_value v email_service_api_key).
Proof. intros Hne. destruct v; try done. by apply scrubbed_text. Qed.

(** The key of the e-mail service is in no text of a log record after the filter, nor in a
    formatted line, provided the key has no square bracket (the service's keys start with
    [esk_] and are not a part of the word that replaces them). *)
Theorem api_key_redacted r : email_service_configured = true →
  record_free_of email_service_api_key (api_key_filter r) ∧
  ∀ line, contains email_service_api_key (api_key_format line) = false.
Proof.
  intros Hc. assert (Hne : email_service_api_key ≠ "").
  { intros He. unfold email_service_configured in Hc. by rewrite He in Hc. }
  assert (Ht : truthy email_service_api_key = true) by (unfold truthy; by rewrite bool_decide_false).
  split.
  - unfold api_key_filter. rewrite Ht. cbn [negb]. split; [by apply scrubbed_value|]. cbn [tr_record lr_args tr_exc_text]. split.
    + destruct (lr_args _); [| |done]; apply Forall_fmap, Forall_true; intros; by apply scrubbed_value.
    + destruct (tr_exc_text r); [|done]. by apply scrubbed_text.
  - intros line. unfold api_key_format, redact_email_service_secret. rewrite Ht. cbn [negb orb].
    destruct (contains _ line) eqn:Hl; cbn [negb]; [by apply key_gone|done].
Qed.
End records.
