(* ===== verification/Routes.v ===== *)
(** * Routes: from a URL to a handler ([apps/storage/urls.py], [config/urls.py])

    A URL pattern of the framework is matched part by part: literal text, a converter, or
    the rest of the path ([.+]).  Every converter stands before a slash or at the end, which
    none of them accepts, so the longest match is the only one.  The patterns are tried in
    the order of the list. *)
From S2P Require Import Prelude PyStr PyData PyRe Models Mime Signals Access Quotas Backends Services FileStore.
From S2P Require Import Folders Downloads StoreSpec Listing Shares Grants Views.
From S2P Require Import Stats Metrics.

(** ** Patterns *)
Inductive arg := AText (s : string) | AUuid (i : uuid) | AInt (n : Z).
Inductive part := Word (s : string) | Slug | Str | Int | Uuid | Rest.
Definition slug_char (c : ascii) : bool := alnum c || any_of "-_" c.
Definition hex_lower (c : ascii) : bool := is_digit c || any_of "abcdef" c.
(** [[0-9a-f]{8}-[0-9a-f]{4}-[0-9a-f]{4}-[0-9a-f]{4}-[0-9a-f]{12}] *)
Definition uuid_text (s : string) : bool :=
  match split_char "-" s with
  | [a; b; c; d; e] =>
      bool_decide (String.length <$> [a; b; c; d; e] = [8%nat; 4%nat; 4%nat; 4%nat; 12%nat])
      && forallb (str_forall hex_lower) [a; b; c; d; e]
  | _ => false
  end.
Definition newline_char : ascii := "010".
(** What a converter makes of the text it matched. *)
Definition convert (p : part) (s : string) : option arg :=
  match p with
  | Word w => None
  | Slug => if truthy s && str_forall slug_char s then Some (AText s) else None
  | Str => if truthy s && negb (has_char "/" s) then Some (AText s) else None
  | Int => if truthy s && str_forall is_digit s then AInt <$> py_int_str 10 s else None
  | Uuid => if uuid_text s then AUuid <$> parse_uuid s else None
  | Rest => if truthy s && negb (has_char newline_char s) then Some (AText s) else None
  end.
(** The whole path against a pattern: a converter takes the text up to the next slash, or
    all of it when it is the last part. *)
Fixpoint match_route (r : list part) (s : string) : option (list arg) :=
  match r with
  | [] => if s == "" then Some [] else None
  | Word w :: r' => if startswith w s then match_route r' (str_drop (String.length w) s) else None
  | [p] => (λ a, [a]) <$> convert p s
  | p :: r' =>
      let m := (partition_char "/" s).1 in
      a ← convert p m; args ← match_route r' (str_drop (String.length m) s); Some (a :: args)
  end.

(** ** The table of the storage API *)
Inductive view :=
| HealthView | BucketListCreateView | BucketDetailView | BucketEmptyView | AccessGrantListCreateView
| AccessGrantDetailView | ShareLinkView | ObjectShareView | ObjectListView | ObjectByIdView | ObjectPrefixView
| ObjectMoveView | ObjectCopyView | ObjectDeleteManyView | ObjectSignPathView | ObjectSignBodyView | ObjectInfoView
| ObjectPublicDownloadView | ObjectDownloadView | ObjectResourceView | QuotaView | StatsView | StorageMetricsView
| StorageGlobalMetricsView | CompanyQuotaAdminView | UserQuotaAdminView.
Definition urlpatterns : list (list part * view) :=
  [ ([Word "health"], HealthView);
    ([Word "bucket"], BucketListCreateView);
    ([Word "bucket/"; Slug], BucketDetailView);
    ([Word "bucket/"; Slug; Word "/empty"], BucketEmptyView);
    ([Word "access/grant"], AccessGrantListCreateView);
    ([Word "access/grant/"; Uuid], AccessGrantDetailView);
    ([Word "share/"; Word "link/"; Str], ShareLinkView);
    ([Word "share/"; Str; Word "/"; Rest], ObjectShareView);
    ([Word "object/"; Word "list/"; Slug], ObjectListView);
    ([Word "object/"; Word "id/"; Uuid], ObjectByIdView);
    ([Word "object/"; Word "prefix/"; Slug], ObjectPrefixView);
    ([Word "object/"; Word "move"], ObjectMoveView);
    ([Word "object/"; Word "copy"], ObjectCopyView);
    ([Word "object/"; Slug], ObjectDeleteManyView);
    ([Word "object/"; Word "sign/"; Str; Word "/"; Rest], ObjectSignPathView);
    ([Word "object/"; Word "sign/"; Slug], ObjectSignBodyView);
    ([Word "object/"; Word "info/"; Word "authenticated/"; Str; Word "/"; Rest], ObjectInfoView);
    ([Word "object/"; Word "info/"; Word "public/"; Str; Word "/"; Rest], ObjectInfoView);
    ([Word "object/"; Word "public/"; Str; Word "/"; Rest], ObjectPublicDownloadView);
    ([Word "object/"; Word "authenticated/"; Str; Word "/"; Rest], ObjectDownloadView);
    ([Word "object/"; Str; Word "/"; Rest], ObjectResourceView);
    ([Word "quota"], QuotaView);
    ([Word "stats"], StatsView);
    ([Word "metrics"], StorageMetricsView);
    ([Word "metrics/all"], StorageGlobalMetricsView);
    ([Word "quota/company/"; Int], CompanyQuotaAdminView);
    ([Word "quota/company/"; Int; Word "/user/"; Int], UserQuotaAdminView) ].
Fixpoint resolve_in {V} (table : list (list part * V)) (s : string) : option (V * list arg) :=
  match table with
  | [] => None
  | (r, v) :: table' =>
      match match_route r s with Some args => Some (v, args) | None => resolve_in table' s end
  end.
Definition resolve_path (s : string) : option (view * list arg) := resolve_in urlpatterns s.

(** ** Methods

    A view answers the methods it defines; [HEAD] is answered by [get]. *)
Inductive target := Api (e : endpoint) | Health | Stats | CompanyMetrics | GlobalMetrics | NotAllowed | NoRoute.
Definition method_name (m : string) : string := if m == "HEAD" then "GET" else m.
Definition handler (v : view) (args : list arg) (m : string) : target :=
  match v, args with
  | HealthView, [] => if m == "GET" then Health else NotAllowed
  | BucketListCreateView, [] => if m == "GET" then Api BucketList else if m == "POST" then Api BucketCreate else NotAllowed
  | BucketDetailView, [AText b] =>
      if m == "GET" then Api (BucketGet b) else if m == "PUT" then Api (BucketPut b)
      else if m == "DELETE" then Api (BucketDelete b) else NotAllowed
  | BucketEmptyView, [AText b] => if m == "POST" then Api (BucketEmpty b) else NotAllowed
  | AccessGrantListCreateView, [] =>
      if m == "GET" then Api GrantList else if m == "POST" then Api GrantCreate else NotAllowed
  | AccessGrantDetailView, [AUuid i] => if m == "DELETE" then Api (GrantDelete i) else NotAllowed
  | ShareLinkView, [AText t] =>
      if m == "GET" then Api (ShareRedeem t) else if m == "DELETE" then Api (ShareRevoke t) else NotAllowed
  | ObjectShareView, [AText b; AText p] =>
      if m == "GET" then Api (ShareList b p) else if m == "POST" then Api (ShareCreate b p) else NotAllowed
  | ObjectListView, [AText b] => if m == "POST" then Api (ObjectList b) else NotAllowed
  | ObjectByIdView, [AUuid i] => if m == "GET" then Api (ObjectById i) else NotAllowed
  | ObjectPrefixView, [AText b] =>
      if m == "GET" then Api (PrefixGet b) else if m == "POST" then Api (PrefixRename b)
      else if m == "DELETE" then Api (PrefixDelete b) else NotAllowed
  | ObjectMoveView, [] => if m == "POST" then Api ObjectMove else NotAllowed
  | ObjectCopyView, [] => if m == "POST" then Api ObjectCopy else NotAllowed
  | ObjectDeleteManyView, [AText b] => if m == "DELETE" then Api (ObjectDeleteMany b) else NotAllowed
  | ObjectSignPathView, [AText b; AText p] => if m == "POST" then Api (ObjectSign b p) else NotAllowed
  | ObjectSignBodyView, [AText b] => if m == "POST" then Api (ObjectSign b "") else NotAllowed
  | ObjectInfoView, [AText b; AText p] => if m == "GET" then Api (ObjectInfo b p) else NotAllowed
  | ObjectPublicDownloadView, [AText b; AText p] => if m == "GET" then Api (ObjectPublic b p) else NotAllowed
  | ObjectDownloadView, [AText b; AText p] => if m == "GET" then Api (ObjectGet b p) else NotAllowed
  | ObjectResourceView, [AText b; AText p] =>
      if m == "GET" then Api (ObjectGet b p) else if m == "POST" then Api (ObjectPost b p)
      else if m == "PUT" then Api (ObjectPut b p) else if m == "DELETE" then Api (ObjectDelete b p) else NotAllowed
  | QuotaView, [] => if m == "GET" then Api QuotaGet else NotAllowed
  | StatsView, [] => if m == "GET" then Stats else NotAllowed
  | StorageMetricsView, [] => if m == "GET" then CompanyMetrics else NotAllowed
  | StorageGlobalMetricsView, [] => if m == "GET" then GlobalMetrics else NotAllowed
  | CompanyQuotaAdminView, [AInt c] => if m == "PUT" then Api (QuotaCompany c) else NotAllowed
  | UserQuotaAdminView, [AInt c; AInt u] => if m == "PUT" then Api (QuotaUser c u) else NotAllowed
  | _, _ => NotAllowed
  end.
Definition route (m path : string) : target :=
  match resolve_path path with
  | Some (v, args) => handler v args (method_name m)
  | None => NoRoute
  end.

Example routes_demo :
  (λ mp, route mp.1 mp.2) <$>
    [("GET", "health"); ("HEAD", "object/company/docs/a.txt"); ("POST", "object/list/company"); ("POST", "object/move");
     ("GET", "object/list/company"); ("DELETE", "object/company"); ("GET", "share/link/abc"); ("PATCH", "quota");
     ("GET", "object/id/550e8400-e29b-41d4-a716-446655440000"); ("PUT", "quota/company/7/user/12"); ("GET", "object/company/");
     ("GET", "object/authenticated/company/a/b"); ("POST", "object/sign/company")]
  = [Health; Api (ObjectGet "company" "docs/a.txt"); Api (ObjectList "company"); Api ObjectMove;
     NotAllowed; Api (ObjectDeleteMany "company"); Api (ShareRedeem "abc"); NotAllowed;
     Api (ObjectById 113059749145936325402354257176981405696%N); Api (QuotaUser 7 12); NoRoute;
     Api (ObjectGet "company" "a/b"); Api (ObjectSign "company" "")].
Proof. vm_compute. reflexivity. Qed.

(** ** Matching *)
Lemma match_word w r t : match_route (Word w :: r) (w +:+ t) = match_route r t.
Proof. cbn [match_route]. by rewrite startswith_app, str_drop_app. Qed.
Lemma partition_app c s t : has_char c s = false → partition_char c (s +:+ String c t) = (s, t).
Proof.
  induction s as [|a s IH]; intros Hs.
  - change ("" +:+ String c t) with (String c t). cbn [partition_char]. by rewrite bool_decide_true.
  - rewrite has_char_cons in Hs. apply orb_false_iff in Hs as [Ha Hs]. rewrite str_app_cons. cbn [partition_char].
    apply bool_decide_eq_false in Ha. rewrite bool_decide_false by done. by rewrite IH.
Qed.
Lemma partition_whole c s : has_char c s = false → partition_char c s = (s, "").
Proof.
  induction s as [|a s IH]; intros Hs; [done|]. rewrite has_char_cons in Hs. apply orb_false_iff in Hs as [Ha Hs].
  cbn [partition_char]. apply bool_decide_eq_false in Ha. rewrite bool_decide_false by done. by rewrite IH.
Qed.
(** A segment is a text between slashes. *)
Definition segment (b : string) : bool := truthy b && negb (has_char "/" b).
Definition slug (b : string) : bool := truthy b && str_forall slug_char b.
Definition tail_ok (p : string) : bool := truthy p && negb (has_char newline_char p).
Lemma segment_no_slash b : segment b = true → has_char "/" b = false.
Proof. unfold segment. by intros [_ ?%negb_true_iff]%andb_true_iff. Qed.
Lemma slug_char_slash c : slug_char c = true → c ≠ "/"%char.
Proof. by intros Hc ->. Qed.
Lemma slug_segment b : slug b = true → segment b = true.
Proof.
  unfold slug, segment. intros [-> Hb]%andb_true_iff. cbn. unfold has_char. apply negb_true_iff, negb_false_iff.
  revert Hb. induction b as [|c b IH]; [done|]. cbn. intros [Hc Hb]%andb_true_iff.
  rewrite IH by done. by rewrite bool_decide_false by by apply slug_char_slash.
Qed.
Lemma word_other w b r t : has_char "/" w = false → has_char "/" b = false → b ≠ w →
  match_route (Word (w +:+ "/") :: r) (b +:+ String "/" t) = None.
Proof.
  intros Hw Hb Hne. cbn [match_route]. destruct (startswith _ _) eqn:Hs; [|done]. exfalso.
  apply startswith_spec in Hs as [u Hu]. rewrite str_app_assoc in Hu. change ("/" +:+ u) with (String "/" u) in Hu.
  apply (f_equal (partition_char "/")) in Hu. rewrite !partition_app in Hu by done. by injection Hu as ? _.
Qed.
Lemma word_no_slash w b r : has_char "/" b = false → match_route (Word (w +:+ "/") :: r) b = None.
Proof.
  intros Hb. cbn [match_route]. destruct (startswith _ _) eqn:Hs; [|done]. exfalso.
  apply startswith_spec in Hs as [u ->]. rewrite !has_char_app, has_char_cons, bool_decide_true in Hb by done.
  by rewrite orb_true_r in Hb.
Qed.
Lemma word_end w b t : has_char "/" w = false → match_route [Word w] (b +:+ String "/" t) = None.
Proof.
  intros Hw. cbn [match_route]. destruct (startswith _ _) eqn:Hs; [|done]. apply startswith_spec in Hs as [u Hu].
  rewrite Hu, str_drop_app. destruct u as [|c u]; [|done]. exfalso.
  rewrite str_app_nil_r in Hu. rewrite <- Hu in Hw. rewrite has_char_app, has_char_cons, bool_decide_true in Hw by done.
  by rewrite orb_true_r in Hw.
Qed.
Lemma word_exact w b : b ≠ w → match_route [Word w] b = None.
Proof.
  intros Hne. cbn [match_route]. destruct (startswith _ _) eqn:Hs; [|done]. apply startswith_spec in Hs as [u Hu].
  rewrite Hu, str_drop_app. destruct u; [|done]. by rewrite str_app_nil_r in Hu.
Qed.
Lemma slug_not_path b t : match_route [Slug] (b +:+ String "/" t) = None.
Proof.
  cbn [match_route convert]. rewrite str_forall_app. cbn. by rewrite !andb_false_r.
Qed.
Lemma match_slug b : slug b = true → match_route [Slug] b = Some [AText b].
Proof. unfold slug. intros Hb. cbn [match_route convert]. by rewrite Hb. Qed.
Lemma convert_str b : segment b = true → convert Str b = Some (AText b).
Proof. unfold segment. intros Hb. cbn [convert]. by rewrite Hb. Qed.
Lemma match_str b : segment b = true → match_route [Str] b = Some [AText b].
Proof. unfold segment. intros Hb. cbn [match_route convert]. by rewrite Hb. Qed.
(** A converter before more parts takes the text up to the slash. *)
Lemma match_mid c q r s : (∀ w, c ≠ Word w) → match_route (c :: q :: r) s =
  (a ← convert c (partition_char "/" s).1;
   args ← match_route (q :: r) (str_drop (String.length (partition_char "/" s).1) s); Some (a :: args)).
Proof. intros Hc. destruct c; [by destruct (Hc s0)|reflexivity..]. Qed.
Lemma match_rest p : tail_ok p = true → match_route [Word "/"; Rest] (String "/" p) = Some [AText p].
Proof.
  intros Hp. change (String "/" p) with ("/" +:+ p). rewrite match_word. cbn [match_route convert].
  unfold tail_ok in Hp. by rewrite Hp.
Qed.
Lemma match_str_path b p : segment b = true → tail_ok p = true →
  match_route [Str; Word "/"; Rest] (b +:+ String "/" p) = Some [AText b; AText p].
Proof.
  intros Hb Hp. rewrite match_mid by done. rewrite partition_app by by apply segment_no_slash. cbn [fst].
  rewrite convert_str by done. cbn [mbind option_bind]. rewrite str_drop_app. by rewrite match_rest.
Qed.
Lemma str_path_short b : segment b = true → match_route [Str; Word "/"; Rest] b = None.
Proof.
  intros Hb. rewrite match_mid by done. rewrite partition_whole by by apply segment_no_slash. cbn [fst].
  rewrite convert_str by done. cbn [mbind option_bind].
  rewrite <- (str_app_nil_r b) at 2. by rewrite str_drop_app.
Qed.
Lemma match_slug_word b w : slug b = true → match_route [Slug; Word (String "/" w)] (b +:+ String "/" w) = Some [AText b].
Proof.
  intros Hb. rewrite match_mid by done. rewrite partition_app by by apply segment_no_slash, slug_segment. cbn [fst].
  unfold convert. unfold slug in Hb. rewrite Hb. cbn [mbind option_bind]. rewrite str_drop_app.
  rewrite <- (str_app_nil_r (String "/" w)) at 2. rewrite match_word. reflexivity.
Qed.

(** ** The table *)
Lemma skip_route {V} r (v : V) t s : match_route r s = None → resolve_in ((r, v) :: t) s = resolve_in t s.
Proof. intros Hr. cbn [resolve_in]. by rewrite Hr. Qed.
Lemma hit_route {V} r (v : V) t s args : match_route r s = Some args → resolve_in ((r, v) :: t) s = Some (v, args).
Proof. intros Hr. cbn [resolve_in]. by rewrite Hr. Qed.
Lemma resolve_spec {V} t s (v : V) args : resolve_in t s = Some (v, args) → ∃ r, (r, v) ∈ t ∧ match_route r s = Some args.
Proof.
  induction t as [|[r v'] t IH]; [done|]. cbn [resolve_in]. destruct (match_route r s) as [a|] eqn:Hm.
  - intros [= <- <-]. exists r. split; [left|done].
  - intros (r' & Hr & Hm')%IH. exists r'. split; [by right|done].
Qed.

(** ** URLs of endpoints

    What a client writes for an endpoint.  A bucket named like a word of the table is
    shadowed by an earlier pattern, so such names are excluded where that happens. *)
Definition reserved : list string := ["list"; "id"; "prefix"; "sign"; "info"; "public"; "authenticated"].
Definition in_bucket (b p : string) : string := b +:+ String "/" p.
Definition url_of (e : endpoint) : string * string :=
  match e with
  | BucketList => ("GET", "bucket") | BucketCreate => ("POST", "bucket")
  | BucketGet b => ("GET", "bucket/" +:+ b) | BucketPut b => ("PUT", "bucket/" +:+ b)
  | BucketDelete b => ("DELETE", "bucket/" +:+ b) | BucketEmpty b => ("POST", "bucket/" +:+ in_bucket b "empty")
  | ObjectGet b p => ("GET", "object/" +:+ in_bucket b p) | ObjectPost b p => ("POST", "object/" +:+ in_bucket b p)
  | ObjectPut b p => ("PUT", "object/" +:+ in_bucket b p) | ObjectDelete b p => ("DELETE", "object/" +:+ in_bucket b p)
  | ObjectPublic b p => ("GET", "object/" +:+ "public/" +:+ in_bucket b p)
  | ObjectInfo b p => ("GET", "object/" +:+ "info/" +:+ "authenticated/" +:+ in_bucket b p)
  | ObjectById i => ("GET", "object/id/" +:+ uuid_str i)
  | ObjectList b => ("POST", "object/" +:+ "list/" +:+ b) | ObjectDeleteMany b => ("DELETE", "object/" +:+ b)
  | PrefixGet b => ("GET", "object/" +:+ "prefix/" +:+ b) | PrefixRename b => ("POST", "object/" +:+ "prefix/" +:+ b)
  | PrefixDelete b => ("DELETE", "object/" +:+ "prefix/" +:+ b)
  | ObjectMove => ("POST", "object/move") | ObjectCopy => ("POST", "object/copy")
  | ObjectSign b p => ("POST", "object/" +:+ "sign/" +:+ (if p == "" then b else in_bucket b p))
  | QuotaGet => ("GET", "quota") | QuotaCompany c => ("PUT", "quota/company/" +:+ str_int c)
  | QuotaUser c u => ("PUT", "quota/company/" +:+ str_int c +:+ "/user/" +:+ str_int u)
  | GrantList => ("GET", "access/grant") | GrantCreate => ("POST", "access/grant")
  | GrantDelete i => ("DELETE", "access/grant/" +:+ uuid_str i)
  | ShareList b p => ("GET", "share/" +:+ in_bucket b p) | ShareCreate b p => ("POST", "share/" +:+ in_bucket b p)
  | ShareRedeem t => ("GET", "share/" +:+ "link/" +:+ t) | ShareRevoke t => ("DELETE", "share/" +:+ "link/" +:+ t)
  end.
(** The endpoints whose arguments are texts, with arguments a URL can hold. *)
Definition addressable (e : endpoint) : bool :=
  match e with
  | BucketList | BucketCreate | ObjectMove | ObjectCopy | QuotaGet | GrantList | GrantCreate => true
  | BucketGet b | BucketPut b | BucketDelete b | BucketEmpty b | ObjectList b
  | PrefixGet b | PrefixRename b | PrefixDelete b => slug b
  | ObjectDeleteMany b => slug b && negb (b in_ ["move"; "copy"])
  | ObjectGet b p | ObjectPost b p | ObjectPut b p | ObjectDelete b p => segment b && tail_ok p && negb (b in_ reserved)
  | ObjectPublic b p | ObjectInfo b p => segment b && tail_ok p
  | ObjectSign b p => if p == "" then slug b else segment b && tail_ok p
  | ShareList b p | ShareCreate b p => segment b && tail_ok p && negb (b == "link")
  | ShareRedeem t | ShareRevoke t => segment t
  | ObjectById _ | GrantDelete _ | QuotaCompany _ | QuotaUser _ _ => false
  end.

(** Each step of the search: the literal parts that agree are consumed, and a part that
    cannot match is refuted. *)
Ltac no_match :=
  repeat (rewrite match_word);
  first
  [ reflexivity
  | apply (word_other "list"); [reflexivity|assumption|assumption]
  | apply (word_other "id"); [reflexivity|assumption|assumption]
  | apply (word_other "prefix"); [reflexivity|assumption|assumption]
  | apply (word_other "sign"); [reflexivity|assumption|assumption]
  | apply (word_other "info"); [reflexivity|assumption|assumption]
  | apply (word_other "public"); [reflexivity|assumption|assumption]
  | apply (word_other "authenticated"); [reflexivity|assumption|assumption]
  | apply (word_other "link"); [reflexivity|assumption|assumption]
  | apply (word_no_slash "list"); assumption | apply (word_no_slash "id"); assumption
  | apply (word_no_slash "prefix"); assumption | apply (word_no_slash "sign"); assumption
  | apply word_end; reflexivity
  | apply word_exact; assumption
  | apply slug_not_path
  | apply str_path_short; assumption ].
Ltac find_route :=
  unfold resolve_path, urlpatterns;
  repeat (rewrite skip_route by no_match);
  erewrite hit_route by (repeat (rewrite match_word);
    first [reflexivity | apply match_slug; assumption | apply match_str; assumption | apply match_str_path; assumption
          | apply match_slug_word; assumption]);
  reflexivity.
Lemma resolve_bucket b : slug b = true → resolve_path ("bucket/" +:+ b) = Some (BucketDetailView, [AText b]).
Proof. intros Hb. find_route. Qed.
Lemma resolve_empty b : slug b = true → resolve_path ("bucket/" +:+ in_bucket b "empty") = Some (BucketEmptyView, [AText b]).
Proof. intros Hb. unfold in_bucket. find_route. Qed.
Lemma resolve_list b : slug b = true → resolve_path ("object/" +:+ "list/" +:+ b) = Some (ObjectListView, [AText b]).
Proof. intros Hb. find_route. Qed.
Lemma resolve_prefix b : slug b = true → resolve_path ("object/" +:+ "prefix/" +:+ b) = Some (ObjectPrefixView, [AText b]).
Proof. intros Hb. find_route. Qed.
Lemma resolve_many b : slug b = true → b ≠ "move" → b ≠ "copy" →
  resolve_path ("object/" +:+ b) = Some (ObjectDeleteManyView, [AText b]).
Proof. intros Hb Hm Hc. pose proof (segment_no_slash b (slug_segment b Hb)) as Hs. find_route. Qed.
Lemma resolve_file b p : segment b = true → tail_ok p = true → b ∉ reserved →
  resolve_path ("object/" +:+ in_bucket b p) = Some (ObjectResourceView, [AText b; AText p]).
Proof.
  intros Hb Hp Hr. pose proof (segment_no_slash b Hb) as Hs. unfold in_bucket, reserved in *.
  repeat (apply not_elem_of_cons in Hr as [? Hr]). find_route.
Qed.
Lemma resolve_public b p : segment b = true → tail_ok p = true →
  resolve_path ("object/" +:+ "public/" +:+ in_bucket b p) = Some (ObjectPublicDownloadView, [AText b; AText p]).
Proof. intros Hb Hp. pose proof (segment_no_slash b Hb) as Hs. unfold in_bucket. find_route. Qed.
Lemma resolve_info b p : segment b = true → tail_ok p = true →
  resolve_path ("object/" +:+ "info/" +:+ "authenticated/" +:+ in_bucket b p) = Some (ObjectInfoView, [AText b; AText p]).
Proof. intros Hb Hp. pose proof (segment_no_slash b Hb) as Hs. unfold in_bucket. find_route. Qed.
Lemma resolve_sign b p : segment b = true → tail_ok p = true →
  resolve_path ("object/" +:+ "sign/" +:+ in_bucket b p) = Some (ObjectSignPathView, [AText b; AText p]).
Proof. intros Hb Hp. pose proof (segment_no_slash b Hb) as Hs. unfold in_bucket. find_route. Qed.
Lemma resolve_sign_body b : slug b = true →
  resolve_path ("object/" +:+ "sign/" +:+ b) = Some (ObjectSignBodyView, [AText b]).
Proof. intros Hb. pose proof (slug_segment b Hb) as Hseg. find_route. Qed.
Lemma resolve_share b p : segment b = true → tail_ok p = true → b ≠ "link" →
  resolve_path ("share/" +:+ in_bucket b p) = Some (ObjectShareView, [AText b; AText p]).
Proof. intros Hb Hp Hl. pose proof (segment_no_slash b Hb) as Hs. unfold in_bucket. find_route. Qed.
Lemma resolve_link t : segment t = true → resolve_path ("share/" +:+ "link/" +:+ t) = Some (ShareLinkView, [AText t]).
Proof. intros Ht. find_route. Qed.

(** The URL of an endpoint reaches it.  For every endpoint whose arguments are texts a URL
    can hold (a bucket is one segment, or a slug where the pattern asks for one; a path is
    not empty and has no line break), no earlier pattern of the table takes the URL away:
    a file is reached under [object/] unless its bucket is one of seven reserved words, a
    share under [share/] unless the bucket is called [link]. *)
Theorem route_url e : addressable e = true → route (url_of e).1 (url_of e).2 = Api e.
Proof.
  unfold route. intros Ha.
  destruct e as [| |b|b|b|b|b p|b p|b p|b p|b p|b p|i|b|b|b|b|b| | |b p| |k|k u| | |i|b p|b p|t|t]; try discriminate Ha;
    cbn [url_of fst snd addressable] in *; try reflexivity;
    repeat match goal with H : _ && _ = true |- _ => apply andb_true_iff in H as [? ?] end;
    repeat match goal with H : negb _ = true |- _ => apply negb_true_iff, bool_decide_eq_false in H end.
  all: try (rewrite resolve_bucket by assumption; reflexivity).
  all: try (rewrite resolve_file by assumption; reflexivity).
  all: try (rewrite resolve_prefix by assumption; reflexivity).
  all: try (rewrite resolve_share by assumption; reflexivity).
  all: try (rewrite resolve_link by assumption; reflexivity).
  - by rewrite resolve_empty.
  - by rewrite resolve_public.
  - by rewrite resolve_info.
  - by rewrite resolve_list.
  - rewrite resolve_many; [reflexivity|assumption|set_solver..].
  - revert Ha. case_bool_decide; [subst; intros Ha; by rewrite resolve_sign_body|].
    intros [? ?]%andb_true_iff. by rewrite resolve_sign.
Qed.
Lemma route_url_witness : route "GET" "object/company/docs/a.txt" = Api (ObjectGet "company" "docs/a.txt") ∧
  route "DELETE" "object/company" = Api (ObjectDeleteMany "company").
Proof.
  split; [apply (route_url (ObjectGet "company" "docs/a.txt")); vm_compute; reflexivity|].
  apply (route_url (ObjectDeleteMany "company")). vm_compute. reflexivity.
Defined.
(** A bucket called [list] is shadowed: the listing of [docs], not the file, is what a
    [POST] to this URL reaches. *)
Example shadowed_bucket : route "POST" (url_of (ObjectPost "list" "docs")).2 = Api (ObjectList "docs").
Proof. reflexivity. Qed.

(** ** Who needs no principal *)
Lemma two_words w1 w2 r s args : match_route (Word w1 :: Word w2 :: r) s = Some args → startswith (w1 +:+ w2) s = true.
Proof.
  cbn [match_route]. destruct (startswith w1 s) eqn:H1; [|done]. apply startswith_spec in H1 as [u ->].
  rewrite str_drop_app. destruct (startswith w2 u) eqn:H2; [|done]. apply startswith_spec in H2 as [v ->]. intros _.
  apply startswith_spec. exists v. by rewrite str_app_assoc.
Qed.
Definition may_be_public (v : view) : bool :=
  match v with ShareLinkView | ObjectPublicDownloadView => true | _ => false end.
Lemma handler_public v args m e : handler v args m = Api e → is_public e = true → may_be_public v = true.
Proof.
  destruct v; try reflexivity; destruct args as [|[?|?|?] [|[?|?|?] [|? ?]]]; cbn [handler]; try discriminate;
    repeat case_match; intros [= <-]; intros Hp; discriminate Hp.
Qed.
Lemma public_patterns r v : (r, v) ∈ urlpatterns → may_be_public v = true →
  (∃ r', r = Word "share/" :: Word "link/" :: r') ∨ (∃ r', r = Word "object/" :: Word "public/" :: r').
Proof.
  unfold urlpatterns. intros Hr Hv.
  repeat (apply elem_of_cons in Hr as [[= -> ->]|Hr]; [first [discriminate Hv | left; eexists; reflexivity | right; eexists; reflexivity]|]).
  by apply elem_of_nil in Hr.
Qed.
Definition anonymous_prefix (s : string) : bool := startswith "share/link/" s || startswith "object/public/" s.
Lemma public_prefix m s e : route m s = Api e → is_public e = true → anonymous_prefix s = true.
Proof.
  unfold route. destruct (resolve_path s) as [[v args]|] eqn:Hr; [|done]. intros Hh Hp.
  apply resolve_spec in Hr as (r & Hr & Hm). unfold anonymous_prefix.
  destruct (public_patterns r v Hr (handler_public _ _ _ _ Hh Hp)) as [[r' ->]|[r' ->]]; apply two_words in Hm.
  - change ("share/" +:+ "link/") with "share/link/" in Hm. by rewrite Hm.
  - change ("object/" +:+ "public/") with "object/public/" in Hm. rewrite Hm. by rewrite orb_true_r.
Qed.

Section anonymous.
Context `{Settings, Backend, MimeTypes, StrictMimeTypes, StorageUrl, Receivers, DateParser, TokenSource, Exposition}.
Context (enabled : bool) (redis : option bool) (beat : option datetime).
Definition unauthorized : response := Response 401 (CJson (JObj [])).

(** C10: What a URL gives away without a principal.  Whatever the method and the path, a
    request without a principal is refused with 401 and changes nothing, except under
    [share/link/] and [object/public/] and on the health page: the table of URLs opens no
    other handler. *)
Theorem anonymous_reach m s rq w : rq_user rq = None → anonymous_prefix s = false →
  match route m s with
  | Api e => dispatch e rq w = (inr unauthorized, w)
  | Stats => StatsView_get rq w = (inr (inl unauthorized), w)
  | CompanyMetrics => StorageMetricsView_get enabled redis beat rq w = (inr (inl unauthorized), w)
  | GlobalMetrics => StorageGlobalMetricsView_get enabled redis beat rq w = (inr (inl unauthorized), w)
  | Health => s = "health"
  | NotAllowed | NoRoute => True
  end.
Proof.
  intros Hu Hs. destruct (route m s) as [e| | | | | |] eqn:Hr; try done.
  - destruct (is_public e) eqn:Hp; [by rewrite (public_prefix m s e Hr Hp) in Hs|].
    assert (Hno : ∀ k, with_principal rq k w = (inr unauthorized, w)) by (intros k; unfold with_principal; by rewrite Hu).
    destruct e; try discriminate Hp; apply Hno.
  - revert Hr. unfold route. destruct (resolve_path s) as [[v args]|] eqn:Hres; [|done]. intros Hh.
    apply resolve_spec in Hres as (r & Hr & Hm). assert (v = HealthView) as ->.
    { destruct v; try reflexivity; destruct args as [|[?|?|?] [|[?|?|?] [|? ?]]]; cbn [handler] in Hh; try discriminate Hh;
        repeat (case_match; try discriminate Hh). }
    unfold urlpatterns in Hr. repeat (apply elem_of_cons in Hr as [Hr|Hr]; [try discriminate Hr|]); [|by apply elem_of_nil in Hr].
    injection Hr as ->. destruct (decide (s = "health")) as [->|Hne]; [done|]. by rewrite word_exact in Hm.
  - unfold StatsView_get. by rewrite Hu.
  - unfold StorageMetricsView_get. by rewrite Hu.
  - unfold StorageGlobalMetricsView_get. by rewrite Hu.
Qed.
End anonymous.

Import StoreSpec.Demo GrantsDemo ShareDemo ViewsDemo MetricsDemo.
Definition nobody : http_request := request_of None (JObj []).
Lemma anonymous_reach_witness :
  route "GET" "object/company/docs/a.txt" = Api (ObjectGet "company" "docs/a.txt") ∧
  dispatch (ObjectGet "company" "docs/a.txt") nobody private_world = (inr unauthorized, private_world).
Proof.
  split; [vm_compute; reflexivity|].
  exact (anonymous_reach true None None "GET" "object/company/docs/a.txt" nobody private_world eq_refl eq_refl).
Defined.
