(* ===== verification/S3Config.v ===== *)
(** * S3Config: the S3 settings ([config/s3utils.py])

    The address is read by the model of [urllib.parse] in [Url]; [None] where Python
    raises [ValueError] (an address with a malformed bracket or port). *)
From S2P Require Import Prelude PyStr PyData PyRe Url.

Definition opt_text (o : option string) : string := default "" o.
Definition _DEFAULT_REGION : string := "us-east-1".
(** [urlparse(url).hostname or '']; [None] when the address cannot be read. *)
Definition url_host (url : string) : option string := u_hostname <$> urlparse url.

Definition normalize_s3_endpoint (url bucket_name : option string) : option (option string) :=
  let raw := strip (opt_text url) in
  if negb (truthy raw) then Some None
  else
    let raw := if negb (contains "://" raw) then "https://" +:+ raw else raw in
    parsed ← urlparse raw;
    let host := u_hostname parsed in
    if negb (truthy host) then Some None
    else
      let bucket := lower (strip (opt_text bucket_name)) in
      let rest := str_drop (String.length bucket + 1) host in
      let host := if truthy bucket && startswith (bucket +:+ ".") host && startswith "s3." rest
                  then rest else host in
      port ← u_port parsed;
      let netloc := match port with
                    | Some n => if n == 0 then host else host +:+ ":" +:+ str_int n
                    | None => host
                    end in
      Some (Some (u_scheme parsed +:+ "://" +:+ netloc)).

(** [_OVH_S3_HOST]: the region in the host names of one provider. *)
Definition region_char (c : ascii) : bool := alnum c || (c == "-"%char).
Definition _OVH_S3_HOST : rx :=
  seqs [word "s3."; RGrp 1 (some_of region_char); word ".";
        RAlt (word "io.cloud.ovh.net") (RAlt (word "perf.cloud.ovh.net") (word "cloud.ovh.net"))].
(** [match] with [$]: at the end, or before a line feed that ends the text. *)
Definition match_line (r : rx) (s : string) : option (list (nat * string)) :=
  run r (λ _ rest g, if (rest == "") || (rest == String "010" "") then Some g else None) None s [].
Definition infer_s3_region (endpoint : option string) (configured : string) : option string :=
  let region := str_or (strip configured) _DEFAULT_REGION in
  host ← match endpoint with Some e => if truthy e then url_host e else Some "" | None => Some "" end;
  match match_line _OVH_S3_HOST host with
  | Some g => if region == _DEFAULT_REGION then Some (group_text 1 g) else Some region
  | None => Some region
  end.

Definition infer_addressing_style (endpoint : option string) (explicit : string) : option string :=
  let style := lower (strip explicit) in
  if style in_ ["path"; "virtual"; "auto"] then Some style
  else match endpoint with
  | Some e =>
      if negb (truthy e) then Some "virtual"
      else
        host ← lower <$> url_host e;
        if (host in_ ["localhost"; "127.0.0.1"; "::1"]) || endswith ".local" host then Some "path"
        else if (host == "minio") || startswith "minio." host || contains ".minio." host then Some "path"
        else if bool_decide (is_Some (ip_address host)) then Some "path"
        else if startswith "s3." host || contains ".s3." host then Some "virtual"
        else Some "path"
  | None => Some "virtual"
  end.

Definition normalize_custom_domain (custom endpoint : option string) : option (option string) :=
  let raw := strip (opt_text custom) in
  if negb (truthy raw) then Some None
  else
    custom_host ← url_host (if contains "://" raw then raw else "https://" +:+ raw);
    let custom_host := str_or custom_host raw in
    endpoint_host ← match endpoint with Some e => if truthy e then url_host e else Some "" | None => Some "" end;
    if truthy endpoint_host && (custom_host == endpoint_host) then Some None else Some (Some raw).

Example endpoint_demo :
  (λ u, normalize_s3_endpoint (Some u) (Some "Files")) <$>
    ["s3.gra.io.cloud.ovh.net/"; "https://files.s3.eu.example.com/x?y"; "http://minio:9000/files"; "  "; "https://h:0"; "https://h:x"]
  = [Some (Some "https://s3.gra.io.cloud.ovh.net"); Some (Some "https://s3.eu.example.com");
     Some (Some "http://minio:9000"); Some None; Some (Some "https://h"); None].
Proof. vm_compute. reflexivity. Qed.
Example region_demo :
  (λ c, infer_s3_region (Some "https://s3.GRA.io.cloud.ovh.net") c) <$> [""; "us-east-1"; "sbg"]
  = [Some "gra"; Some "gra"; Some "sbg"].
Proof. vm_compute. reflexivity. Qed.
Example style_demo :
  (λ e, infer_addressing_style (Some e) "") <$>
    ["http://minio:9000"; "http://10.0.0.1:9000"; "https://s3.gra.io.cloud.ovh.net"; "https://storage.example.com"]
  = [Some "path"; Some "path"; Some "virtual"; Some "path"].
Proof. vm_compute. reflexivity. Qed.
(** An IPv6 endpoint loses its brackets, and with them its host. *)
Example ipv6_endpoint_lost :
  normalize_s3_endpoint (Some "http://[::1]:9000") None = Some (Some "http://::1:9000") ∧
  url_host "http://::1:9000" = Some "" ∧ infer_addressing_style (Some "http://::1:9000") "" = Some "path".
Proof. vm_compute. done. Qed.
