(* ===== verification/Settings.v ===== *)
(** * Settings: from the environment to a configuration ([config/settings.py])

    Loading the settings is a function of the environment that fails with
    [ImproperlyConfigured] or yields the values the rest of the program reads.  The parts
    are loaded in the order of the file, so the first error is the one that is raised.
    Not included: the constants of the frameworks and the set-up of Sentry; [Logging] has the
    configuration of the log. *)
From S2P Require Import Prelude PyStr PyData PyRe Models Url Wire Webhook S3Config.

(** ** The environment and its errors *)
Definition environ : Type := gmap string string.
(** [os.getenv(name, default)] *)
Definition getenv (env : environ) (name default : string) : string := from_option id default (env !! name).
(** [Improper name]: [ImproperlyConfigured] about a setting; [BadUrl]: the [ValueError] of
    an address that cannot be read. *)
Inductive settings_error := Improper (name : string) | ProductionErrors (names : list string) | BadUrl.
Definition conf (A : Type) : Type := settings_error + A.
Definition conf_bind {A B} (m : conf A) (k : A → conf B) : conf B :=
  match m with inl e => inl e | inr a => k a end.
Declare Scope conf_scope.
Delimit Scope conf_scope with conf.
Notation "x <~ m ;; k" := (conf_bind m (λ x, k)) (at level 100, m at next level, right associativity) : conf_scope.
Open Scope conf_scope.
Definition improper {A} (name : string) : conf A := inl (Improper name).
Definition require (ok : bool) (name : string) : conf unit := if ok then inr tt else improper name.
Definition readable_url {A} (m : option A) : conf A := match m with Some a => inr a | None => inl BadUrl end.

(** ** Readers of single values *)
Section readers.
Context (env : environ).
Definition env_text (name default : string) : string := strip (getenv env name default).
Definition csv_items (raw : string) : list string :=
  filter (λ s, truthy s = true) (strip <$> split_char "," raw).
Definition _env_csv (name : string) (default : list string) : list string :=
  let raw := env_text name "" in if negb (truthy raw) then default else csv_items raw.
Definition _env_int (name : string) (default : Z) : conf Z :=
  let raw := env_text name "" in
  if negb (truthy raw) then inr default
  else match py_int_str 10 raw with Some n => inr n | None => improper name end.
Definition true_words : list string := ["1"; "true"; "yes"; "on"].
Definition _env_bool (name : string) (default : bool) : bool :=
  let raw := env_text name "" in if negb (truthy raw) then default else lower raw in_ true_words.

(** [int(digits)] and the unit of a size. *)
Definition size_unit (suffix : string) : option Z :=
  if suffix == "" then Some 1
  else if suffix in_ ["K"; "k"] then Some 1024
  else if suffix in_ ["M"; "m"] then Some (1024 ^ 2)
  else if suffix in_ ["G"; "g"] then Some (1024 ^ 3)
  else if suffix in_ ["T"; "t"] then Some (1024 ^ 4)
  else None.
(** [re.fullmatch(r'(\d+)([KkMmGgTt])?', raw)] and its value. *)
Definition parse_size (raw : string) : option Z :=
  let suffix := lstrip_while is_digit raw in
  let digits := text_between raw suffix in
  if negb (truthy digits) then None
  else unit ← size_unit suffix; amount ← py_int_str 10 digits; Some (amount * unit).
Definition _env_bytes (name : string) (default : Z) : conf Z :=
  let raw := env_text name "" in
  if negb (truthy raw) then inr default
  else match parse_size raw with Some n => inr n | None => improper name end.

(** [float(raw)]: the decimal [m * 10 ^ e] the text denotes; the [float] is the binary64
    number nearest to it. *)
Inductive number := Decimal (m e : Z) | Infinite (negative : bool) | NotANumber.
(** Digits with single underscores between them: their value and number. *)
Definition digit_part (s : string) : option (Z * Z) :=
  n ← int_digits 10 0 false s; Some (n, Z.of_nat (String.length (remove_char "_" s))).
Definition exponent (s : string) : option Z :=
  match s with
  | "" => Some 0
  | String c s' =>
      if (c == "e"%char) || (c == "E"%char) then
        match s' with
        | String "-" t => (λ p, - p.1) <$> digit_part t
        | String "+" t => fst <$> digit_part t
        | _ => fst <$> digit_part s'
        end
      else None
  end.
Definition digit_or_bar (c : ascii) : bool := is_digit c || (c == "_"%char).
Definition unsigned_number (s : string) : option (Z * Z) :=
  let rest := lstrip_while digit_or_bar s in
  let whole := text_between s rest in
  match rest with
  | String "." t =>
      let rest' := lstrip_while digit_or_bar t in
      let fraction := text_between t rest' in
      e ← exponent rest';
      if truthy whole then
        w ← digit_part whole;
        if truthy fraction then f ← digit_part fraction; Some (w.1 * 10 ^ f.2 + f.1, e - f.2)
        else Some (w.1, e)
      else f ← digit_part fraction; Some (f.1, e - f.2)
  | _ => w ← digit_part whole; e ← exponent rest; Some (w.1, e)
  end.
Definition parse_float (raw : string) : option number :=
  let '(negative, s) := match strip raw with
                        | String "-" s => (true, s)
                        | String "+" s => (false, s)
                        | s => (false, s)
                        end in
  if lower s in_ ["inf"; "infinity"] then Some (Infinite negative)
  else if lower s == "nan" then Some NotANumber
  else '(m, e) ← unsigned_number s; Some (Decimal (if negative then - m else m) e).
Definition _env_float (name : string) (default : number) : conf number :=
  let raw := env_text name "" in
  if negb (truthy raw) then inr default
  else match parse_float raw with Some x => inr x | None => improper name end.
End readers.

Example sizes : parse_size <$> ["10G"; "500m"; "12"; "1T"; "G"; "1.5G"; "10 G"; "1GB"]
  = [Some 10737418240; Some 524288000; Some 12; Some 1099511627776; None; None; None; None].
Proof. vm_compute. reflexivity. Qed.
Example numbers : parse_float <$> ["15"; " 5.0"; "-.5e-3"; "1_0.2_5"; "1__0"; "1e"; "."; "INF"; "nan"; "5s"]
  = [Some (Decimal 15 0); Some (Decimal 50 (-1)); Some (Decimal (-5) (-4)); Some (Decimal 1025 (-2));
     None; None; None; Some (Infinite false); Some NotANumber; None].
Proof. vm_compute. reflexivity. Qed.

(** ** The configuration, part by part *)
Record core_conf := CoreConf {
  cf_secret_key : string; cf_debug : bool; cf_setup_token : string;
  cf_allowed_hosts : list string; cf_csrf_trusted_origins : list string }.
Record broker_conf := BrokerConf {
  cf_redis_url : string; cf_scheduler_enabled : bool; cf_broker_url : string;
  cf_postgres_url : string; cf_postgres_ssl : bool }.
Inductive storage_options :=
| S3Storage (bucket region : string) (access_key secret_key endpoint custom_domain : option string)
    (addressing_style signature : string)
| FileSystemStorage (location : string).
Record storage_conf := StorageConf {
  cf_storage_backend : string; cf_storage : storage_options; cf_key_prefix : string; cf_signed_url_expires : Z }.
Record identity_conf := IdentityConf {
  cf_jwks_document : option json; cf_jwks_source : option string; cf_jwks_file : option string;
  cf_identity_url : option string; cf_jwks_url : option string;
  cf_issuer : option string; cf_audience : option string;
  cf_jwks_ttl : Z; cf_jwks_timeout : number; cf_jwks_retries : Z;
  cf_hs256_secret : option string; cf_allow_hs256 : bool; cf_jwt_algorithms : list string }.
Record limits_conf := LimitsConf {
  cf_company_quota : Z; cf_user_quota : Z; cf_max_upload : Z; cf_memory_size : Z;
  cf_webdav_enabled : bool; cf_webdav_prefix : string }.
Record web_conf := WebConf {
  cf_cors_all : bool; cf_cors_origins : list string; cf_cors_credentials : bool; cf_cors_private : bool;
  cf_ssl_redirect : bool; cf_hsts_seconds : Z; cf_hsts_subdomains : bool; cf_hsts_preload : bool;
  cf_session_secure : bool; cf_csrf_secure : bool; cf_admin_enabled : bool }.
Record actions_conf := ActionsConf {
  cf_webhook_timeout : number; cf_max_attempts : Z; cf_webhook_private : bool; cf_retry_lease : Z;
  cf_dispatch_workers : Z; cf_sync_delivery : bool; cf_retention_days : Z;
  cf_email_url : string; cf_email_key : string; cf_email_private : bool }.
Record sentry_conf := SentryConf {
  cf_sentry_dsn : string; cf_sentry_environment : string; cf_sentry_release : string; cf_sentry_rate : number }.
Record configuration := Config {
  cf_core : core_conf; cf_broker : broker_conf; cf_store : storage_conf; cf_identity : identity_conf;
  cf_limits : limits_conf; cf_web : web_conf; cf_actions : actions_conf; cf_sentry : sentry_conf }.

(** [x or None] *)
Definition or_none (s : string) : option string := if truthy s then Some s else None.
Definition http_url (s : string) : bool := startswith "http://" s || startswith "https://" s.

(** [str(Path(s))]: empty components and dots are dropped, and [base / s]. *)
Definition path_str (s : string) : string :=
  let root := if startswith "//" s && negb (startswith "///" s) then "//"
              else if startswith "/" s then "/" else "" in
  str_or (root +:+ join_char "/" (filter (λ p, p ∉ [""; "."]) (split_char "/" s))) ".".
Definition path_join (base s : string) : string :=
  path_str (if startswith "/" s || negb (truthy base) then s else base +:+ "/" +:+ s).
Example paths : path_str <$> ["a//b/./c/"; "/"; "//h/x"; "///x"; "./"; "../y"] = ["a/b/c"; "/"; "//h/x"; "/x"; "."; "../y"].
Proof. vm_compute. reflexivity. Qed.

Section load.
Context `{JsonLoads}.
(** [VERSION] of [pyproject.toml], [BASE_DIR], and the files of the machine. *)
Context (version base_dir : string) (read_file : string → option string) (env : environ).

Definition default_csrf_origins : list string :=
  ["http://localhost:8001"; "http://127.0.0.1:8001"; "http://localhost:4000"; "http://127.0.0.1:4000";
   "http://localhost:5174"; "http://127.0.0.1:5174"; "http://localhost:5175"; "http://127.0.0.1:5175";
   "https://admin.shellui.com"].
Definition load_core : conf core_conf :=
  let secret := env_text env "SECRET_KEY" "" in
  u <~ require (truthy secret) "SECRET_KEY" ;;
  inr (CoreConf secret (lower (env_text env "DEBUG" "false") in_ true_words) (env_text env "SETUP_TOKEN" "")
         (_env_csv env "ALLOWED_HOSTS" ["localhost"; "127.0.0.1"])
         (_env_csv env "CSRF_TRUSTED_ORIGINS" default_csrf_origins)).

Definition _celery_broker_url (redis_url override : string) : string := str_or (strip override) (strip redis_url).
(** [_caches_config]: the backend of the shared cache. *)
Definition cache_backend (redis_url : string) : string :=
  if truthy redis_url then "django.core.cache.backends.redis.RedisCache"
  else "django.core.cache.backends.locmem.LocMemCache".
(** [scheduled_jobs_beat_schedule]: task, period and expiry of a message in seconds; the
    hourly entry runs at minute 17. *)
Definition scheduled_jobs_beat_schedule : list (string * Z * Z) :=
  [("actions.purge_deleted_companies", 60, 55); ("actions.retry_webhooks", 60, 55);
   ("actions.purge_expired_data", 3600, 3000)].
Definition load_broker (debug : bool) : broker_conf :=
  let redis := env_text env "REDIS_URL" "" in
  BrokerConf redis (_env_bool env "SCHEDULER_ENABLED" true)
    (_celery_broker_url redis (getenv env "CELERY_BROKER_URL" ""))
    (env_text env "POSTGRES_DATABASE_URL" "") (_env_bool env "POSTGRES_SSL_REQUIRE" (negb debug)).

Definition media_root : string :=
  let root := env_text env "MEDIA_ROOT" "" in if truthy root then path_str root else path_join base_dir "data/media".
Definition load_storage : conf storage_conf :=
  let backend := str_or (lower (env_text env "STORAGE_BACKEND" "")) "filesystem" in
  u <~ require (backend in_ ["s3"; "filesystem"]) "STORAGE_BACKEND" ;;
  let access := env_text env "AWS_ACCESS_KEY_ID" "" in
  let secret := env_text env "AWS_SECRET_ACCESS_KEY" "" in
  let bucket := env_text env "AWS_STORAGE_BUCKET_NAME" "" in
  endpoint <~ readable_url (normalize_s3_endpoint (or_none (env_text env "AWS_S3_ENDPOINT_URL" "")) (Some bucket)) ;;
  region <~ readable_url (infer_s3_region endpoint (getenv env "AWS_S3_REGION_NAME" "us-east-1")) ;;
  domain <~ readable_url (normalize_custom_domain (or_none (env_text env "AWS_S3_CUSTOM_DOMAIN" "")) endpoint) ;;
  let signature := str_or (env_text env "AWS_S3_SIGNATURE_VERSION" "s3v4") "s3v4" in
  style <~ readable_url (infer_addressing_style endpoint (getenv env "AWS_S3_ADDRESSING_STYLE" "")) ;;
  u' <~ require (style in_ ["path"; "virtual"; "auto"]) "AWS_S3_ADDRESSING_STYLE" ;;
  let prefix := strip_char "/" (env_text env "STORAGE_KEY_PREFIX" "shellui") in
  u'' <~ require (negb (backend == "s3") || truthy bucket) "AWS_STORAGE_BUCKET_NAME" ;;
  let options := if backend == "s3"
                 then S3Storage bucket region (or_none access) (or_none secret) endpoint domain style signature
                 else FileSystemStorage (path_join media_root "objects") in
  expires <~ _env_int env "SIGNED_URL_EXPIRES" 3600 ;;
  inr (StorageConf backend options prefix expires).

Definition _parse_jwks_document (raw source : string) : conf json :=
  match json_loads raw with
  | Some (JObj l) =>
      match dict_get "keys" l with
      | Some (JList (_ :: _)) => inr (JObj l)
      | _ => improper source
      end
  | _ => improper source
  end.
(** The document, where it comes from, and its file. *)
Definition _load_static_jwks : conf (option (json * string * option string)) :=
  let file_path := env_text env "IDENTITY_JWKS_FILE" "" in
  if truthy file_path then
    let path := path_join base_dir file_path in
    match read_file path with
    | None => improper "IDENTITY_JWKS_FILE"
    | Some raw => doc <~ _parse_jwks_document raw path ;; inr (Some (doc, "file", Some path))
    end
  else
    let raw := env_text env "IDENTITY_JWKS" "" in
    if truthy raw then doc <~ _parse_jwks_document raw "IDENTITY_JWKS" ;; inr (Some (doc, "env", None))
    else inr None.
Definition _resolve_identity_jwks_url : string :=
  let explicit := env_text env "IDENTITY_JWKS_URL" "" in
  if truthy explicit then rstrip_char "/" explicit
  else
    let base := rstrip_char "/" (env_text env "IDENTITY_SERVICE_URL" "") in
    if truthy base then base +:+ "/.well-known/jwks.json"
    else "http://localhost:8000/.well-known/jwks.json".
Definition load_identity (debug : bool) : conf identity_conf :=
  static <~ _load_static_jwks ;;
  url <~ match static with
         | Some _ => inr (or_none (rstrip_char "/" (env_text env "IDENTITY_JWKS_URL" "")))
         | None => let url := _resolve_identity_jwks_url in
                   u <~ require (http_url url) "IDENTITY_JWKS_URL" ;; inr (Some url)
         end ;;
  ttl <~ _env_int env "JWKS_CACHE_TTL" 900 ;;
  timeout <~ _env_float env "JWKS_TIMEOUT" (Decimal 15 0) ;;
  retries <~ _env_int env "JWKS_RETRIES" 2 ;;
  let secret := or_none (env_text env "JWT_HS256_FALLBACK_SECRET" "") in
  let allow := lower (env_text env "ALLOW_JWT_HS256_FALLBACK" "") in_ true_words in
  u <~ require (negb (bool_decide (is_Some secret) && negb debug && negb allow)) "JWT_HS256_FALLBACK_SECRET" ;;
  inr (IdentityConf ((λ s, s.1.1) <$> static) ((λ s, s.1.2) <$> static) (static ≫= snd)
         (or_none (rstrip_char "/" (env_text env "IDENTITY_SERVICE_URL" ""))) url
         (or_none (env_text env "IDENTITY_ISSUER" "")) (or_none (env_text env "IDENTITY_AUDIENCE" ""))
         ttl timeout retries secret allow (_env_csv env "JWT_ALGORITHMS" ["RS256"])).

Definition load_limits : conf limits_conf :=
  company <~ _env_bytes env "DEFAULT_COMPANY_QUOTA_BYTES" (10 * 1024 ^ 3) ;;
  user <~ _env_bytes env "DEFAULT_USER_QUOTA_BYTES" 0 ;;
  upload <~ _env_bytes env "MAX_UPLOAD_BYTES" (5 * 1024 ^ 3) ;;
  memory <~ _env_bytes env "DATA_UPLOAD_MAX_MEMORY_SIZE" (12 * 1024 ^ 2) ;;
  inr (LimitsConf company user upload memory (lower (env_text env "WEBDAV_ENABLED" "true") in_ true_words)
         (str_or (env_text env "WEBDAV_PATH_PREFIX" "/dav") "/dav")).

Definition default_cors_origins : list string :=
  ["http://localhost:4000"; "http://127.0.0.1:4000"; "http://localhost:5174"; "http://127.0.0.1:5174";
   "http://localhost:5175"; "http://127.0.0.1:5175"; "https://admin.shellui.com"].
Definition add_origin (origins : list string) (raw : string) : list string :=
  let origin := strip raw in
  if truthy origin && negb (origin in_ origins) then origins ++ [origin] else origins.
Definition load_web (debug : bool) : conf web_conf :=
  let all := _env_bool env "CORS_ALLOW_ALL_ORIGINS" true in
  let credentials := _env_bool env "CORS_ALLOW_CREDENTIALS" false in
  u <~ require (negb (all && credentials)) "CORS_ALLOW_ALL_ORIGINS" ;;
  hsts <~ _env_int env "SECURE_HSTS_SECONDS" (if debug then 0 else 31536000) ;;
  inr (WebConf all (foldl add_origin default_cors_origins (split_char "," (getenv env "CORS_ALLOWED_ORIGINS" "")))
         credentials (lower (env_text env "CORS_ALLOW_PRIVATE_NETWORK" "true") in_ true_words)
         (_env_bool env "SECURE_SSL_REDIRECT" (negb debug)) hsts
         (_env_bool env "SECURE_HSTS_INCLUDE_SUBDOMAINS" (negb debug)) (_env_bool env "SECURE_HSTS_PRELOAD" false)
         (_env_bool env "SESSION_COOKIE_SECURE" (negb debug)) (_env_bool env "CSRF_COOKIE_SECURE" (negb debug))
         (_env_bool env "DJANGO_ADMIN_ENABLED" true)).
Definition session_cookie_name (c : web_conf) : string := if cf_session_secure c then "__Host-sessionid" else "sessionid".
Definition csrf_cookie_name (c : web_conf) : string := if cf_csrf_secure c then "__Host-csrftoken" else "csrftoken".

Definition load_actions : conf actions_conf :=
  timeout <~ _env_float env "ACTIONS_WEBHOOK_TIMEOUT_SECONDS" (Decimal 5 0) ;;
  attempts <~ _env_int env "ACTIONS_OUTBOX_MAX_ATTEMPTS" 8 ;;
  lease <~ _env_int env "ACTIONS_WEBHOOK_RETRY_LEASE_SECONDS" 120 ;;
  workers <~ _env_int env "ACTIONS_WEBHOOK_DISPATCH_WORKERS" 4 ;;
  days <~ _env_int env "EVENT_LOG_RETENTION_DAYS" 7 ;;
  let url := str_or (rstrip_char "/" (env_text env "EMAIL_SERVICE_URL" "https://email.shellui.com"))
               "https://email.shellui.com" in
  let key := env_text env "EMAIL_SERVICE_API_KEY" "" in
  u <~ require (negb (truthy key) || startswith "esk_" key) "EMAIL_SERVICE_API_KEY" ;;
  u' <~ require (negb (truthy key) || http_url url) "EMAIL_SERVICE_URL" ;;
  inr (ActionsConf timeout attempts (_env_bool env "ACTIONS_WEBHOOK_ALLOW_PRIVATE" false) lease workers
         (_env_bool env "ACTIONS_WEBHOOK_SYNC_DELIVERY" false) days url key
         (_env_bool env "EMAIL_SERVICE_ALLOW_PRIVATE" false)).

(** [len(set(SECRET_KEY))] *)
Definition distinct_chars (s : string) : nat := length (remove_dups (String.list_ascii_of_string s)).
Definition production_errors (core : core_conf) (identity : identity_conf) : list string :=
  (if bool_decide (is_Some (cf_issuer identity)) then [] else ["IDENTITY_ISSUER"])
  ++ (if bool_decide (is_Some (cf_audience identity)) then [] else ["IDENTITY_AUDIENCE"])
  ++ (let key := cf_secret_key core in
      if (String.length key <? 50)%nat || (distinct_chars key <? 5)%nat || startswith "django-insecure-" key
      then ["SECRET_KEY"] else []).
Definition check_production (core : core_conf) (identity : identity_conf) : conf unit :=
  if cf_debug core then inr tt
  else match production_errors core identity with [] => inr tt | names => inl (ProductionErrors names) end.

Definition load_sentry (debug : bool) : conf sentry_conf :=
  rate <~ _env_float env "SENTRY_TRACES_SAMPLE_RATE" (Decimal 0 0) ;;
  inr (SentryConf (env_text env "SENTRY_DSN" "")
         (str_or (env_text env "SENTRY_ENVIRONMENT" "") (if debug then "development" else "production"))
         (str_or (env_text env "SENTRY_RELEASE" "") version) rate).

Definition load_settings : conf configuration :=
  core <~ load_core ;;
  let debug := cf_debug core in
  let broker := load_broker debug in
  store <~ load_storage ;;
  identity <~ load_identity debug ;;
  limits <~ load_limits ;;
  web <~ load_web debug ;;
  actions <~ load_actions ;;
  u <~ check_production core identity ;;
  sentry <~ load_sentry debug ;;
  inr (Config core broker store identity limits web actions sentry).
End load.

(** ** What each part reads *)
Definition core_names : list string := ["SECRET_KEY"; "DEBUG"; "SETUP_TOKEN"; "ALLOWED_HOSTS"; "CSRF_TRUSTED_ORIGINS"].
Definition broker_names : list string :=
  ["REDIS_URL"; "SCHEDULER_ENABLED"; "CELERY_BROKER_URL"; "POSTGRES_DATABASE_URL"; "POSTGRES_SSL_REQUIRE"].
Definition storage_names : list string :=
  ["STORAGE_BACKEND"; "AWS_ACCESS_KEY_ID"; "AWS_SECRET_ACCESS_KEY"; "AWS_STORAGE_BUCKET_NAME";
   "AWS_S3_ENDPOINT_URL"; "AWS_S3_REGION_NAME"; "AWS_S3_CUSTOM_DOMAIN"; "AWS_S3_SIGNATURE_VERSION";
   "AWS_S3_ADDRESSING_STYLE"; "STORAGE_KEY_PREFIX"; "MEDIA_ROOT"; "SIGNED_URL_EXPIRES"].
Definition identity_names : list string :=
  ["IDENTITY_JWKS_FILE"; "IDENTITY_JWKS"; "IDENTITY_JWKS_URL"; "IDENTITY_SERVICE_URL"; "IDENTITY_ISSUER";
   "IDENTITY_AUDIENCE"; "JWKS_CACHE_TTL"; "JWKS_TIMEOUT"; "JWKS_RETRIES"; "JWT_HS256_FALLBACK_SECRET";
   "ALLOW_JWT_HS256_FALLBACK"; "JWT_ALGORITHMS"].
Definition limits_names : list string :=
  ["DEFAULT_COMPANY_QUOTA_BYTES"; "DEFAULT_USER_QUOTA_BYTES"; "MAX_UPLOAD_BYTES";
   "DATA_UPLOAD_MAX_MEMORY_SIZE"; "WEBDAV_ENABLED"; "WEBDAV_PATH_PREFIX"].
Definition web_names : list string :=
  ["CORS_ALLOW_ALL_ORIGINS"; "CORS_ALLOW_CREDENTIALS"; "CORS_ALLOWED_ORIGINS"; "CORS_ALLOW_PRIVATE_NETWORK";
   "SECURE_SSL_REDIRECT"; "SECURE_HSTS_SECONDS"; "SECURE_HSTS_INCLUDE_SUBDOMAINS"; "SECURE_HSTS_PRELOAD";
   "SESSION_COOKIE_SECURE"; "CSRF_COOKIE_SECURE"; "DJANGO_ADMIN_ENABLED"].
Definition actions_names : list string :=
  ["ACTIONS_WEBHOOK_TIMEOUT_SECONDS"; "ACTIONS_OUTBOX_MAX_ATTEMPTS"; "ACTIONS_WEBHOOK_ALLOW_PRIVATE";
   "ACTIONS_WEBHOOK_RETRY_LEASE_SECONDS"; "ACTIONS_WEBHOOK_DISPATCH_WORKERS"; "ACTIONS_WEBHOOK_SYNC_DELIVERY";
   "EVENT_LOG_RETENTION_DAYS"; "EMAIL_SERVICE_URL"; "EMAIL_SERVICE_API_KEY"; "EMAIL_SERVICE_ALLOW_PRIVATE"].
Definition sentry_names : list string :=
  ["SENTRY_DSN"; "SENTRY_ENVIRONMENT"; "SENTRY_RELEASE"; "SENTRY_TRACES_SAMPLE_RATE"].
Definition agree (names : list string) (env env' : environ) : Prop := ∀ n, n ∈ names → env !! n = env' !! n.

Ltac listed := apply (bool_decide_unpack _); vm_compute; exact I.
(** Both sides read the same variables. *)
Ltac same_reads Ha :=
  unfold _env_csv, _env_int, _env_bool, _env_bytes, _env_float, env_text, getenv;
  rewrite !(Ha _) by listed; reflexivity.

Section agree.
Context `{JsonLoads} (version base_dir : string) (read_file : string → option string).
Lemma core_agree env env' : agree core_names env env' → load_core env = load_core env'.
Proof. intros Ha. unfold load_core. same_reads Ha. Qed.
Lemma broker_agree env env' debug : agree broker_names env env' → load_broker env debug = load_broker env' debug.
Proof. intros Ha. unfold load_broker. same_reads Ha. Qed.
Lemma storage_agree env env' : agree storage_names env env' → load_storage base_dir env = load_storage base_dir env'.
Proof. intros Ha. unfold load_storage, media_root. same_reads Ha. Qed.
Lemma identity_agree env env' debug : agree identity_names env env' →
  load_identity base_dir read_file env debug = load_identity base_dir read_file env' debug.
Proof. intros Ha. unfold load_identity, _load_static_jwks, _resolve_identity_jwks_url. same_reads Ha. Qed.
Lemma limits_agree env env' : agree limits_names env env' → load_limits env = load_limits env'.
Proof. intros Ha. unfold load_limits. same_reads Ha. Qed.
Lemma web_agree env env' debug : agree web_names env env' → load_web env debug = load_web env' debug.
Proof. intros Ha. unfold load_web. same_reads Ha. Qed.
Lemma actions_agree env env' : agree actions_names env env' → load_actions env = load_actions env'.
Proof. intros Ha. unfold load_actions. same_reads Ha. Qed.
Lemma sentry_agree env env' debug : agree sentry_names env env' → load_sentry version env debug = load_sentry version env' debug.
Proof. intros Ha. unfold load_sentry. same_reads Ha. Qed.
Lemma agree_insert names env v d : v ∉ names → agree names (<[v:=d]> env) env.
Proof. intros Hv n Hn. apply lookup_insert_ne. by intros ->. Qed.
End agree.

(** ** Sizes are not negative *)
Lemma int_digits_nonneg base acc after s n : 0 ≤ acc → 0 ≤ base → int_digits base acc after s = Some n → 0 ≤ n.
Proof.
  revert acc after. induction s as [|c s IH]; intros acc after Ha Hb; cbn [int_digits].
  - destruct after; [|done]. by intros [= <-].
  - case_match; [destruct after; [eauto|done]|].
    destruct (digit_of c) as [v|] eqn:Hv; [|done]. case_match; [|done]. apply IH; [|done].
    assert (0 ≤ v) by (revert Hv; unfold digit_of; repeat case_match; intros [= <-]; lia). nia.
Qed.
Lemma int_unsigned_nonneg base s n : 0 ≤ base → int_unsigned base s = Some n → 0 ≤ n.
Proof.
  intros Hb. unfold int_unsigned. repeat case_match; intros Hn; (eapply int_digits_nonneg; [|exact Hb|exact Hn]); lia.
Qed.
Lemma int_of_digits_nonneg s n : str_forall is_digit s = true → py_int_str 10 s = Some n → 0 ≤ n.
Proof.
  intros Hs. apply (str_forall_strip _ is_space) in Hs. change (strip_while is_space s) with (strip s) in Hs.
  unfold py_int_str. destruct (strip s) as [|c t]; [done|]. cbn in Hs. apply andb_true_iff in Hs as [Hc _].
  destruct c as [[] [] [] [] [] [] [] []]; (discriminate Hc) || (apply int_unsigned_nonneg; lia).
Qed.
Lemma parse_size_nonneg raw n : parse_size raw = Some n → 0 ≤ n.
Proof.
  unfold parse_size. destruct (truthy _); [|done]. cbn [negb].
  destruct (size_unit _) as [u|] eqn:Hu; [|done]. cbn.
  destruct (py_int_str 10 _) as [a|] eqn:Ha; [|done]. intros [= <-].
  apply int_of_digits_nonneg in Ha; [|apply text_between_forall].
  assert (0 ≤ u) by (revert Hu; unfold size_unit; repeat case_match; intros [= <-]; lia). nia.
Qed.
Lemma env_bytes_nonneg env name default n : 0 ≤ default → _env_bytes env name default = inr n → 0 ≤ n.
Proof.
  intros Hd. unfold _env_bytes. destruct (truthy _); cbn [negb]; [|by intros [= <-]].
  destruct (parse_size _) as [k|] eqn:Hk; [|done]. intros [= <-]. by eapply parse_size_nonneg.
Qed.

(** ** What a loaded configuration guarantees *)
Lemma conf_bind_inr {A B} (m : conf A) (k : A → conf B) b :
  conf_bind m k = inr b → ∃ a, m = inr a ∧ k a = inr b.
Proof. destruct m as [e|a]; [done|]. intros Hk. by exists a. Qed.
Lemma require_inr ok name u : require ok name = inr u → ok = true.
Proof. by destruct ok. Qed.
Ltac conf_inv H :=
  repeat match type of H with
  | conf_bind _ _ = inr _ => let Hm := fresh "Hm" in apply conf_bind_inr in H as (? & Hm & H)
  end.

Section guarantees.
Context `{JsonLoads} (version base_dir : string) (read_file : string → option string).
Let load env := load_settings version base_dir read_file env.

Lemma loaded_parts env c : load env = inr c →
  load_core env = inr (cf_core c) ∧ cf_broker c = load_broker env (cf_debug (cf_core c)) ∧
  load_storage base_dir env = inr (cf_store c) ∧
  load_identity base_dir read_file env (cf_debug (cf_core c)) = inr (cf_identity c) ∧
  load_limits env = inr (cf_limits c) ∧ load_web env (cf_debug (cf_core c)) = inr (cf_web c) ∧
  load_actions env = inr (cf_actions c) ∧ check_production (cf_core c) (cf_identity c) = inr tt.
Proof.
  unfold load, load_settings. intros Hl. conf_inv Hl. cbv zeta in Hl. conf_inv Hl. injection Hl as <-.
  cbn. match goal with u : unit |- _ => destruct u end. by split_and!.
Qed.
Lemma production_checked core identity : cf_debug core = false → check_production core identity = inr tt →
  is_Some (cf_issuer identity) ∧ is_Some (cf_audience identity) ∧
  (50 ≤ String.length (cf_secret_key core))%nat ∧ (5 ≤ distinct_chars (cf_secret_key core))%nat ∧
  startswith "django-insecure-" (cf_secret_key core) = false.
Proof.
  unfold check_production, production_errors. intros ->.
  destruct (bool_decide_reflect (is_Some (cf_issuer identity))); [|done].
  destruct (bool_decide_reflect (is_Some (cf_audience identity))); [|done].
  destruct (Nat.ltb_spec (String.length (cf_secret_key core)) 50); [done|].
  destruct (Nat.ltb_spec (distinct_chars (cf_secret_key core)) 5); [done|]. cbn.
  by destruct (startswith _ _).
Qed.
Lemma identity_checked env debug i : load_identity base_dir read_file env debug = inr i →
  (debug = false → is_Some (cf_hs256_secret i) → cf_allow_hs256 i = true) ∧
  (is_Some (cf_jwks_document i) ∨ ∃ url, cf_jwks_url i = Some url ∧ http_url url = true).
Proof.
  unfold load_identity. intros Hi. apply conf_bind_inr in Hi as (static & Hst & Hi).
  apply conf_bind_inr in Hi as (url & Hurl & Hi). conf_inv Hi. cbv zeta in Hi. conf_inv Hi.
  match goal with Hr : require _ _ = inr _ |- _ => apply require_inr, negb_true_iff in Hr; rename Hr into Hok end.
  injection Hi as <-. cbn. split.
  - intros -> Hs. rewrite (bool_decide_true _ Hs) in Hok. by apply negb_false_iff in Hok.
  - destruct static as [s|]; [by left|right]. cbv zeta in Hurl. conf_inv Hurl. injection Hurl as <-.
    match goal with Hr : require (http_url _) _ = inr _ |- _ => apply require_inr in Hr end. eauto.
Qed.
Lemma or_none_some s t : or_none s = Some t → t ≠ "".
Proof. unfold or_none. destruct (truthy s) eqn:Ht; [|done]. intros [= <-] ->. discriminate Ht. Qed.
Lemma identity_named env debug i : load_identity base_dir read_file env debug = inr i →
  (∀ s, cf_issuer i = Some s → s ≠ "") ∧ (∀ s, cf_audience i = Some s → s ≠ "").
Proof.
  unfold load_identity. intros Hi. apply conf_bind_inr in Hi as (static & _ & Hi).
  apply conf_bind_inr in Hi as (url & _ & Hi). conf_inv Hi. cbv zeta in Hi. conf_inv Hi. injection Hi as <-. cbn.
  split; intros s; apply or_none_some.
Qed.
Lemma web_checked env debug wc : load_web env debug = inr wc →
  ¬ (cf_cors_all wc = true ∧ cf_cors_credentials wc = true) ∧
  (debug = false → env !! "SESSION_COOKIE_SECURE" = None → session_cookie_name wc = "__Host-sessionid") ∧
  (debug = false → env !! "CSRF_COOKIE_SECURE" = None → csrf_cookie_name wc = "__Host-csrftoken").
Proof.
  unfold load_web. cbv zeta. intros Hw. conf_inv Hw.
  match goal with Hr : require _ _ = inr _ |- _ => apply require_inr, negb_true_iff in Hr; rename Hr into Hok end.
  injection Hw as <-. unfold session_cookie_name, csrf_cookie_name. cbn [cf_cors_all cf_cors_credentials cf_session_secure cf_csrf_secure].
  split; [|split].
  - intros [H1 H2]. by rewrite H1, H2 in Hok.
  - intros -> Hn. unfold _env_bool, env_text, getenv. by rewrite Hn.
  - intros -> Hn. unfold _env_bool, env_text, getenv. by rewrite Hn.
Qed.
Lemma storage_checked env st : load_storage base_dir env = inr st →
  (cf_storage_backend st = "filesystem" ∧ ∃ location, cf_storage st = FileSystemStorage location) ∨
  (cf_storage_backend st = "s3" ∧ ∃ bucket region a s e d style sig,
     cf_storage st = S3Storage bucket region a s e d style sig ∧ bucket ≠ "" ∧ style ∈ ["path"; "virtual"; "auto"]).
Proof.
  unfold load_storage. cbv zeta. intros Hs. conf_inv Hs. injection Hs as <-. cbn.
  repeat match goal with Hr : require _ _ = inr _ |- _ => apply require_inr in Hr end.
  set (backend := str_or _ "filesystem") in *.
  match goal with Hb : bool_decide (backend ∈ _) = true |- _ => apply bool_decide_eq_true in Hb; rename Hb into Hback end.
  match goal with Hb : negb (bool_decide (backend = "s3")) || _ = true |- _ => rename Hb into Hbucket end.
  match goal with Hb : bool_decide (_ ∈ ["path"; _; _]) = true |- _ => apply bool_decide_eq_true in Hb; rename Hb into Hstyle end.
  apply elem_of_cons in Hback as [Hback|Hback%list_elem_of_singleton]; rewrite Hback in Hbucket |- *.
  - right. split; [done|]. do 8 eexists. split; [done|]. split; [|exact Hstyle].
    intros Hb. unfold truthy in Hbucket. rewrite Hb in Hbucket. discriminate Hbucket.
  - left. split; [done|]. eauto.
Qed.
Lemma email_checked env a : load_actions env = inr a → cf_email_key a ≠ "" →
  startswith "esk_" (cf_email_key a) = true ∧ http_url (cf_email_url a) = true.
Proof.
  unfold load_actions. cbv zeta. intros Ha Hk. conf_inv Ha. injection Ha as <-. cbn in *.
  repeat match goal with Hr : require _ _ = inr _ |- _ => apply require_inr in Hr end.
  unfold truthy in *. rewrite bool_decide_false in * by done. by split.
Qed.

Lemma core_checked env core : load_core env = inr core → cf_secret_key core ≠ "".
Proof.
  unfold load_core. cbv zeta. intros Hc. conf_inv Hc. injection Hc as <-. cbn.
  match goal with Hr : require _ _ = inr _ |- _ => apply require_inr in Hr; rename Hr into Hk end.
  intros He. rewrite He in Hk. discriminate Hk.
Qed.
Lemma identity_keys_checked env debug i doc : load_identity base_dir read_file env debug = inr i →
  cf_jwks_document i = Some doc → ∃ l k ks, doc = JObj l ∧ dict_get "keys" l = Some (JList (k :: ks)).
Proof.
  unfold load_identity. intros Hi. apply conf_bind_inr in Hi as (static & Hst & Hi).
  apply conf_bind_inr in Hi as (url & Hurl & Hi). conf_inv Hi. cbv zeta in Hi. conf_inv Hi. injection Hi as <-. cbn.
  destruct static as [[[d source] file]|]; [|done]. intros [= ->].
  assert (∃ raw source, _parse_jwks_document raw source = inr doc) as (raw & src & Hp).
  { revert Hst. unfold _load_static_jwks. destruct (truthy _).
    - destruct (read_file _) as [raw|]; [|done]. intros Hst. conf_inv Hst. injection Hst as <- _ _. eauto.
    - destruct (truthy _); [|done]. intros Hst. conf_inv Hst. injection Hst as <- _ _. eauto. }
  unfold _parse_jwks_document in Hp. repeat (case_match; try done). simplify_eq. eauto.
Qed.

Lemma limits_checked env l : load_limits env = inr l →
  0 ≤ cf_company_quota l ∧ 0 ≤ cf_user_quota l ∧ 0 ≤ cf_max_upload l ∧ 0 ≤ cf_memory_size l ∧ cf_webdav_prefix l ≠ "".
Proof.
  unfold load_limits. intros Hl. conf_inv Hl. injection Hl as <-. cbn [cf_company_quota cf_user_quota cf_max_upload cf_memory_size cf_webdav_prefix].
  split_and!; try (eapply env_bytes_nonneg; [|eassumption]; lia).
  unfold str_or. destruct (truthy _) eqn:Ht; [|done]. intros He. by rewrite He in Ht.
Qed.

(** C6: The settings that load are well formed, in debug mode too.  The secret key is not
    empty, the storage options are those of the chosen backend (a bucket and an addressing
    style the client knows for S3), a key document is an object with at least one key, and
    the sizes are not negative: the quota rows and the upload limit built from them are
    amounts of bytes. *)
Theorem loaded_config_typed env c : load env = inr c →
  cf_secret_key (cf_core c) ≠ "" ∧
  match cf_storage (cf_store c) with
  | FileSystemStorage _ => cf_storage_backend (cf_store c) = "filesystem"
  | S3Storage bucket _ _ _ _ _ style _ =>
      cf_storage_backend (cf_store c) = "s3" ∧ bucket ≠ "" ∧ style ∈ ["path"; "virtual"; "auto"]
  end ∧
  (∀ doc, cf_jwks_document (cf_identity c) = Some doc →
     ∃ l k ks, doc = JObj l ∧ dict_get "keys" l = Some (JList (k :: ks))) ∧
  0 ≤ cf_company_quota (cf_limits c) ∧ 0 ≤ cf_user_quota (cf_limits c) ∧
  0 ≤ cf_max_upload (cf_limits c) ∧ 0 ≤ cf_memory_size (cf_limits c) ∧ cf_webdav_prefix (cf_limits c) ≠ "".
Proof.
  intros Hl. apply loaded_parts in Hl as (Hcore & _ & Hs & Hi & Hlim & _).
  split; [by eapply core_checked|]. split; [|split; [intros doc; by eapply identity_keys_checked|by eapply limits_checked]].
  destruct (storage_checked _ _ Hs) as [(Hb & l & ->)|(Hb & b & r & a & k & e & d & st & sg & -> & ? & ?)]; done.
Qed.

(** C24: A service that starts in production is configured safely.  If loading the settings
    succeeds with [DEBUG] off, issuer and audience of the tokens are set, the secret key is
    long and varied, shared-secret tokens are accepted only where that was asked for, keys
    come from a document or an absolute address, no origin may send credentials when every
    origin is allowed, the cookies carry the [__Host-] prefix unless the operator said
    otherwise, S3 has a bucket, and a key for the e-mail service is one. *)
Theorem production_config_safe env c : load env = inr c → cf_debug (cf_core c) = false →
  is_Some (cf_issuer (cf_identity c)) ∧ is_Some (cf_audience (cf_identity c)) ∧
  (50 ≤ String.length (cf_secret_key (cf_core c)))%nat ∧ (5 ≤ distinct_chars (cf_secret_key (cf_core c)))%nat ∧
  startswith "django-insecure-" (cf_secret_key (cf_core c)) = false ∧
  (is_Some (cf_hs256_secret (cf_identity c)) → cf_allow_hs256 (cf_identity c) = true) ∧
  (is_Some (cf_jwks_document (cf_identity c)) ∨ ∃ url, cf_jwks_url (cf_identity c) = Some url ∧ http_url url = true) ∧
  ¬ (cf_cors_all (cf_web c) = true ∧ cf_cors_credentials (cf_web c) = true) ∧
  (env !! "SESSION_COOKIE_SECURE" = None → session_cookie_name (cf_web c) = "__Host-sessionid") ∧
  (env !! "CSRF_COOKIE_SECURE" = None → csrf_cookie_name (cf_web c) = "__Host-csrftoken") ∧
  ((∃ location, cf_storage (cf_store c) = FileSystemStorage location) ∨
   (∃ bucket region a s e d style sig, cf_storage (cf_store c) = S3Storage bucket region a s e d style sig ∧ bucket ≠ "")) ∧
  (cf_email_key (cf_actions c) ≠ "" →
     startswith "esk_" (cf_email_key (cf_actions c)) = true ∧ http_url (cf_email_url (cf_actions c)) = true).
Proof.
  intros Hl Hd. apply loaded_parts in Hl as (_ & _ & Hs & Hi & _ & Hw & Ha & Hp).
  destruct (production_checked _ _ Hd Hp) as (H1 & H2 & H3 & H4 & H5).
  rewrite Hd in Hi, Hw. destruct (identity_checked _ _ _ Hi) as [Hhs Hkeys].
  destruct (web_checked _ _ _ Hw) as (Hc & Hsess & Hcsrf). pose proof (email_checked _ _ Ha) as He.
  split_and!; auto.
  destruct (storage_checked _ _ Hs) as [(_ & l & Hl)|(_ & b & r & a & s & e & d & st & sg & Hst & Hb & _)]; [left; eauto|right].
  by exists b, r, a, s, e, d, st, sg.
Qed.
End guarantees.
