(* ===== verification/Logging.v ===== *)
(** * Logging: from a log call to the lines on the console ([LOGGING] in [config/settings.py])

    The configuration of [logging] as data, with the meaning [logging.config.dictConfig] and
    [Logger.handle] of the standard library give it: a record is dropped below the effective
    level of its logger, passes the filters of that logger only, and is then handed to the
    handlers of the logger and of its ancestors up to the first that does not propagate.  A
    filter changes the record for all that see it later.  [render] is the base class of the
    formatters: the template with the message of the record. *)
From S2P Require Import Prelude PyStr PyData Models Redact Registry Events Scrub LogKey Settings.

(** ** The configuration *)
Record logger_conf := LoggerConf {
  lg_handlers : list string; lg_level : string; lg_propagate : bool; lg_filters : list string }.
Record handler_conf := HandlerConf { h_class : string; h_formatter : string; h_filters : list string }.
Record formatter_conf := FormatterConf { f_class : string; f_format : string }.
Record logging_conf := LoggingConf {
  lc_filters : list (string * string);
  lc_formatters : list (string * formatter_conf);
  lc_handlers : list (string * handler_conf);
  lc_root : logger_conf;
  lc_loggers : list (string * logger_conf) }.

(** [os.getenv('LOG_LEVEL', default).strip().upper() or default] *)
Definition upper_char (c : ascii) : ascii :=
  let n := N_of_ascii c in if ((97 <=? n) && (n <=? 122))%N then ascii_of_N (n - 32) else c.
Definition LOG_LEVEL (env : environ) (debug : bool) : string :=
  let default := if debug then "DEBUG" else "INFO" in
  str_or (str_map upper_char (strip (getenv env "LOG_LEVEL" default))) default.

Definition LOGGING (level : string) : logging_conf :=
  let quiet other := if level == "DEBUG" then "INFO" else other in
  {| lc_filters :=
       [ ("request_id", "config.request_context.RequestIdFilter");
         ("redact_email_service_api_key", "apps.actions.email_service.RedactEmailServiceApiKeyFilter");
         ("redact_access_secrets", "config.access_log.RedactAccessLogFilter") ];
     lc_formatters :=
       [ ("console", FormatterConf "apps.actions.email_service.RedactEmailServiceApiKeyFormatter"
                       "{asctime} {levelname} [{name}] [req={request_id}] {message}") ];
     lc_handlers :=
       [ ("console", HandlerConf "logging.StreamHandler" "console" ["request_id"; "redact_email_service_api_key"]) ];
     lc_root := LoggerConf ["console"] level true ["redact_email_service_api_key"];
     lc_loggers :=
       [ ("django", LoggerConf ["console"] "INFO" false []);
         ("django.request", LoggerConf ["console"] "WARNING" false []);
         ("django.server", LoggerConf ["console"] "INFO" false []);
         ("apps", LoggerConf ["console"] level false ["redact_email_service_api_key"]);
         ("config", LoggerConf ["console"] level false []);
         ("gunicorn.error", LoggerConf ["console"] "INFO" false []);
         ("gunicorn.access", LoggerConf ["console"] "INFO" false ["redact_access_secrets"]);
         ("celery", LoggerConf ["console"] (quiet level) false []);
         ("celery.app.trace", LoggerConf ["console"] (quiet "WARNING") false []);
         ("celery.worker.strategy", LoggerConf ["console"] (quiet "WARNING") false []) ] |}.

(** ** Its meaning *)
(** The names of the levels; [None]: the configuration is refused. *)
Definition level_number (name : string) : option Z :=
  dict_get name [("CRITICAL", 50); ("FATAL", 50); ("ERROR", 40); ("WARN", 30); ("WARNING", 30);
                 ("INFO", 20); ("DEBUG", 10); ("NOTSET", 0)].
Definition names_known {A} (l : list (string * A)) (names : list string) : bool :=
  forallb (λ n, bool_decide (is_Some (dict_get n l))) names.
(** What [dictConfig] checks: every name is declared, every level exists. *)
Definition logger_ok (c : logging_conf) (lg : logger_conf) : bool :=
  names_known (lc_handlers c) (lg_handlers lg) && names_known (lc_filters c) (lg_filters lg) &&
  bool_decide (is_Some (level_number (lg_level lg))).
Definition conf_ok (c : logging_conf) : bool :=
  forallb (λ kv, names_known (lc_filters c) (h_filters kv.2) && names_known (lc_formatters c) [h_formatter kv.2]) (lc_handlers c) &&
  logger_ok c (lc_root c) && forallb (λ kv, logger_ok c kv.2) (lc_loggers c).

(** A logger and its ancestors below the root, the nearest first. *)
Fixpoint ancestors_go (prefix : string) (segs : list string) (acc : list string) : list string :=
  match segs with
  | [] => acc
  | s :: segs' => let name := if truthy prefix then prefix +:+ "." +:+ s else s in ancestors_go name segs' (name :: acc)
  end.
Definition ancestors (name : string) : list string := ancestors_go "" (split_char "." name) [].

Section meaning.
Context (c : logging_conf).

Fixpoint handlers_of (chain : list string) : list string :=
match chain with
| [] => lg_handlers (lc_root c)
| name :: chain' =>
    match dict_get name (lc_loggers c) with
    | Some lg => lg_handlers lg ++ (if lg_propagate lg then handlers_of chain' else [])
    | None => handlers_of chain'
    end
end.
(** [getEffectiveLevel]: a level of 0 counts as not set. *)
Fixpoint effective_level (chain : list string) : Z :=
let of_logger lg rest := let n := default 0 (level_number (lg_level lg)) in if n =? 0 then rest else n in
match chain with
| [] => of_logger (lc_root c) 0
| name :: chain' =>
    match dict_get name (lc_loggers c) with
    | Some lg => of_logger lg (effective_level chain')
    | None => effective_level chain'
    end
end.
Definition own_filters (name : string) : list string :=
if name == "root" then lg_filters (lc_root c) else from_option lg_filters [] (dict_get name (lc_loggers c)).
End meaning.

(** ** Records and lines *)
Section emission.
Context `{ActionSettings}.
(** A record on its way, with the request id a filter has put on it. *)
Record passing := Passing { ps_record : traced; ps_request_id : option string }.
Context (render : string → string → passing → string) (request_id : string).

Definition apply_filter (c : logging_conf) (r : passing) (filter : string) : passing :=
match dict_get filter (lc_filters c) with
| Some "config.request_context.RequestIdFilter" => Passing (ps_record r) (Some request_id)
| Some "apps.actions.email_service.RedactEmailServiceApiKeyFilter" => Passing (api_key_filter (ps_record r)) (ps_request_id r)
| Some "config.access_log.RedactAccessLogFilter" =>
    Passing (Traced (access_log_filter (tr_record (ps_record r))) (tr_exc_text (ps_record r))) (ps_request_id r)
| _ => r
end.
Definition apply_filters (c : logging_conf) (filters : list string) (r : passing) : passing :=
foldl (apply_filter c) r filters.
Definition format_line (c : logging_conf) (formatter name : string) (r : passing) : string :=
match dict_get formatter (lc_formatters c) with
| Some (FormatterConf class template) =>
    let line := render template name r in
    if class == "apps.actions.email_service.RedactEmailServiceApiKeyFormatter" then api_key_format line else line
| None => render "" name r
end.
(** The handlers see the record one after the other. *)
Fixpoint emit (c : logging_conf) (handlers : list string) (name : string) (r : passing) : list string :=
match handlers with
| [] => []
| h :: handlers' =>
    match dict_get h (lc_handlers c) with
    | Some hc => let r' := apply_filters c (h_filters hc) r in
                 format_line c (h_formatter hc) name r' :: emit c handlers' name r'
    | None => emit c handlers' name r
    end
end.
Definition log_call (c : logging_conf) (name : string) (level : Z) (record : traced) : list string :=
let chain := ancestors name in
if level <? effective_level c chain then []
else emit c (handlers_of c chain) name (apply_filters c (own_filters c name) (Passing record None)).
End emission.

(** ** What the configuration of the service comes to *)
(** The service starts exactly when the level is a name of [logging]. *)
Lemma logging_starts level : conf_ok (LOGGING level) = bool_decide (is_Some (level_number level)).
Proof.
  destruct (decide (level = "DEBUG")) as [->|Hd]; [vm_compute; reflexivity|].
  unfold conf_ok, logger_ok, LOGGING. rewrite (bool_decide_eq_false_2 (level = "DEBUG")) by done.
  cbn [lc_root lc_loggers lc_handlers forallb lg_handlers lg_filters lg_level snd].
  by destruct (level_number level).
Qed.

Lemma service_logger level name lg : dict_get name (lc_loggers (LOGGING level)) = Some lg →
  lg_handlers lg = ["console"] ∧ lg_propagate lg = false ∧
  (lg_level lg = "INFO" ∨ lg_level lg = "WARNING" ∨ lg_level lg = level).
Proof.
  cbn. intros Hg. repeat (case_bool_decide; [injection Hg as <-; cbn; repeat case_bool_decide; auto|]). discriminate Hg.
Qed.
(** Every logger, configured or not, writes to the console, and there only. *)
Lemma service_handlers level chain : handlers_of (LOGGING level) chain = ["console"].
Proof.
  induction chain as [|name chain IH]; [done|]. cbn [handlers_of].
  destruct (dict_get name (lc_loggers (LOGGING level))) as [lg|] eqn:Hg; [|done].
  by destruct (service_logger level name lg Hg) as (-> & -> & _).
Qed.
Lemma service_level level chain : effective_level (LOGGING level) chain <= Z.max 30 (default 0 (level_number level)).
Proof.
  induction chain as [|name chain IH]; cbn [effective_level].
  { cbn [lc_root LOGGING lg_level]. destruct (_ =? 0); lia. }
  destruct (dict_get name (lc_loggers (LOGGING level))) as [lg|] eqn:Hg; [|done].
  destruct (service_logger level name lg Hg) as (_ & _ & [Hl|[Hl|Hl]]); rewrite Hl; cbv zeta;
    revert IH; generalize (default 0 (level_number level)); intros m IH.
  1, 2: vm_compute (default 0 (level_number _)); cbn; lia.
  destruct (_ =? 0); lia.
Qed.

Section scrubbed.
Context `{ActionSettings}.
Context (render : string → string → passing → string) (request_id : string).
Definition TEMPLATE : string := "{asctime} {levelname} [{name}] [req={request_id}] {message}".

(** What the filters of the logger itself make of a record. *)
Definition own_scrub (name : string) (r : traced) : traced :=
if name == "gunicorn.access" then Traced (access_log_filter (tr_record r)) (tr_exc_text r)
else if name in_ ["root"; "apps"] then api_key_filter r else r.
Lemma service_own_filters level name r :
  apply_filters request_id (LOGGING level) (own_filters (LOGGING level) name) (Passing r None) = Passing (own_scrub name r) None.
Proof.
  unfold own_filters, own_scrub. destruct (decide (name = "root")) as [->|Hroot]; [done|].
  rewrite (bool_decide_eq_false_2 (name = "root")) by done. cbn [lc_loggers LOGGING dict_get].
  repeat (case_bool_decide; [subst name; reflexivity|]). cbn. repeat case_bool_decide; try done; set_solver.
Qed.

(** A call of a logger writes nothing below the effective level, and otherwise one line:
    the record with the request id, as the filters leave it, and with the key of the e-mail
    service taken out of the text. *)
Lemma log_call_line level name n record :
  log_call render request_id (LOGGING level) name n record =
  if n <? effective_level (LOGGING level) (ancestors name) then []
  else [api_key_format (render TEMPLATE name (Passing (api_key_filter (own_scrub name record)) (Some request_id)))].
Proof.
  unfold log_call. destruct (n <? _); [done|]. rewrite service_handlers, service_own_filters. reflexivity.
Qed.

Context (key_plain : has_char "[" email_service_api_key = false ∧ has_char "]" email_service_api_key = false).
Context (key_word : contains email_service_api_key "[redacted" = false).

(** C26: Whichever logger is called, with whatever record, the key of the e-mail service is in no
    line that reaches the console, although most loggers have no filter of their own.  A
    record is written at most once, with the request id; at least once if it is an error,
    unless the configured level asks for less.  What Gunicorn writes about a request has
    passed the redaction of share links first. *)
Theorem console_lines_scrubbed level name n record :
  email_service_configured = true →
  let lines := log_call render request_id (LOGGING level) name n record in
  Forall (λ l, contains email_service_api_key l = false) lines ∧ (length lines <= 1)%nat ∧
  (40 <= n → default 0 (level_number level) <= 40 → length lines = 1%nat) ∧
  (name = "gunicorn.access" → Forall (λ l, l = api_key_format (render TEMPLATE name
     (Passing (api_key_filter (Traced (access_log_filter (tr_record record)) (tr_exc_text record))) (Some request_id)))) lines).
Proof.
  intros Hc lines. unfold lines. rewrite log_call_line.
  destruct (Z.ltb_spec n (effective_level (LOGGING level) (ancestors name))) as [Hn|Hn]; simpl.
  - split_and!; [constructor|lia| |constructor]. intros Herr Hl. pose proof (service_level level (ancestors name)). lia.
  - split_and!; [|lia|done|].
    + constructor; [|constructor]. by apply (api_key_redacted key_plain key_word record Hc).
    + intros ->. by repeat constructor.
Qed.
End scrubbed.

(** ** Concrete calls *)
Module LoggingDemo.
#[export] Instance actions : ActionSettings := demo_actions.
(** The message, whatever its arguments. *)
Definition message (template name : string) (r : passing) : string :=
  name +:+ " [" +:+ default "?" (ps_request_id r) +:+ "] " +:+ py_str (lr_msg (tr_record (ps_record r))).
Definition says (s : string) : traced := Traced (LogRecord (JStr s) ArgsOther) None.
Definition lines (level name : string) (n : Z) (s : string) : list string :=
  log_call message "r1" (LOGGING level) name n (says s).
End LoggingDemo.
Import LoggingDemo.
Example called_loggers :
  lines "INFO" "botocore.auth" 30 "key esk_1 sent" = ["botocore.auth [r1] key [redacted] sent"] ∧
  lines "INFO" "gunicorn.access" 20 "GET /storage/v1/share/link/s3cret" =
    ["gunicorn.access [r1] GET /storage/v1/share/link/[filtered]"] ∧
  lines "INFO" "celery.app.trace" 20 "Task succeeded" = [] ∧ lines "DEBUG" "celery.app.trace" 20 "x" = ["celery.app.trace [r1] x"].
Proof. vm_compute. auto. Qed.
(** Django's own line about an answered error names the whole path: a share link that is
    unknown, expired or used up is logged by [django.request], which has no filter of its
    own, with its token. *)
Example request_logger_keeps_tokens :
  lines "INFO" "django.request" 30 "Not Found: /storage/v1/share/link/s3cret" =
    ["django.request [r1] Not Found: /storage/v1/share/link/s3cret"].
Proof. vm_compute. reflexivity. Qed.
(** The filter of [apps] bears on records of that very logger only: it is the handler that
    covers the modules below. *)
Example filters_not_inherited :
  own_scrub "apps.storage.views" (says "key esk_1") = says "key esk_1" ∧
  lines "INFO" "apps.storage.views" 20 "key esk_1" = ["apps.storage.views [r1] key [redacted]"].
Proof. vm_compute. auto. Qed.
(** A level that does not exist stops the service at the start, before any check of settings. *)
Example unknown_level : conf_ok (LOGGING (LOG_LEVEL {[ "LOG_LEVEL" := "verbose" ]} false)) = false ∧
  LOG_LEVEL {[ "LOG_LEVEL" := " " ]} false = "INFO" ∧ LOG_LEVEL {[ "LOG_LEVEL" := "warning" ]} true = "WARNING".
Proof. vm_compute. auto. Qed.

Lemma console_lines_scrubbed_witness :
  lines "INFO" "botocore.auth" 40 "key esk_1 sent" = ["botocore.auth [r1] key [redacted] sent"] ∧
  (length (lines "INFO" "botocore.auth" 40 "key esk_1 sent") <= 1)%nat.
Proof.
  split; [vm_compute; reflexivity|]. unfold lines.
  refine (proj1 (proj2 (console_lines_scrubbed message "r1" _ _ "INFO" "botocore.auth" 40 (says "key esk_1 sent") _)));
    [split| |]; vm_compute; reflexivity.
Defined.
