(* ===== verification/Deploy.v ===== *)
(** * Deploy: checks before a start, and the environment block ([apps/authapi/checks.py],
    [config/env_registry.py], [config/generate_env.py], [tools/healthcheck.py])

    The registry of settings, the block that [manage.py generate_env] prints, and the
    checks a container runs, over the loader of [Settings]. *)
From S2P Require Import Prelude PyStr PyData Models Webhook Settings.

(** ** [secret_key_problem] *)
Definition SECRET_KEY_MIN_LENGTH : nat := 50.
Definition _PLACEHOLDER_SECRET_PREFIXES : list string := ["django-insecure-"; "change-me-generate-a-strong-secret-key"].
Definition _PLACEHOLDER_SECRET_KEYS : list string := ["changeme"; "change-me"; "secret"; "password"].
(** [str.casefold] below U+0100: [lower], and two letters for the sharp s. *)
Fixpoint casefold (s : string) : string :=
  match s with
  | "" => ""
  | String c s' => if (Ascii.nat_of_ascii c =? 223)%nat then "ss" +:+ casefold s'
                   else String (lower_char c) (casefold s')
  end.
Inductive key_problem := KeyEmpty | KeyPlaceholder | KeyShort.
Definition secret_key_problem (secret_key : option string) : option key_problem :=
  let key := strip (default "" secret_key) in
  if negb (truthy key) then Some KeyEmpty
  else
    let folded := casefold key in
    if existsb (λ p, startswith p folded) _PLACEHOLDER_SECRET_PREFIXES || (folded in_ _PLACEHOLDER_SECRET_KEYS)
    then Some KeyPlaceholder
    else if (String.length key <? SECRET_KEY_MIN_LENGTH)%nat then Some KeyShort
    else None.

(** ** The checks, by the ids of their messages *)
Definition redis_required_in_production (c : configuration) : list string :=
  if cf_debug (cf_core c) then []
  else if truthy (strip (cf_redis_url (cf_broker c))) then []
  else ["authapi.E004"].
Definition shared_cache_recommended_for_multi_worker (env : environ) (c : configuration) : conf (list string) :=
  if cf_debug (cf_core c) then inr []
  else if negb (contains "locmem" (lower (cache_backend (cf_redis_url (cf_broker c))))) then inr []
  else workers <~ _env_int env "GUNICORN_WORKERS" 2 ;;
       inr (if workers <=? 1 then [] else ["authapi.W001"]).
Definition secret_key_strength_when_debug_disabled (c : configuration) : list string :=
  if cf_debug (cf_core c) then []
  else match secret_key_problem (Some (cf_secret_key (cf_core c))) with
       | None => []
       | Some _ => ["authapi.E005"]
       end.
Definition deploy_checks (env : environ) (c : configuration) : conf (list string) :=
  shared <~ shared_cache_recommended_for_multi_worker env c ;;
  inr (redis_required_in_production c ++ shared ++ secret_key_strength_when_debug_disabled c).

(** ** The registry of settings *)
Definition PLACEHOLDER : string := "change-me".
Record Var := MkVar { v_name : string; v_default : string; v_group : string }.
Record Required := MkRequired { q_name : string; q_comment : string }.
Definition REQUIRED : list Required :=
  [MkRequired "SECRET_KEY" "Signs sessions and CSRF tokens. At least 50 characters. Generated.";
   MkRequired "DEBUG" "Production mode.";
   MkRequired "ALLOWED_HOSTS" "Public host names, comma-separated, no scheme.";
   MkRequired "CSRF_TRUSTED_ORIGINS" "Full HTTPS origin, for Django admin form posts.";
   MkRequired "IDENTITY_SERVICE_URL" "identity-service origin. JWKS is read from {url}/.well-known/jwks.json.";
   MkRequired "IDENTITY_ISSUER" "Must match identity-service JWT_ISSUER.";
   MkRequired "IDENTITY_AUDIENCE" "Must match identity-service JWT_AUDIENCE.";
   MkRequired "REDIS_URL" "Shared cache and job broker.";
   MkRequired "POSTGRES_DATABASE_URL" "PostgreSQL DSN. Leave empty to use SQLite."].
Definition OPTIONAL : list Var :=
  [MkVar "LOG_LEVEL" "INFO" "Runtime";
   MkVar "SETUP_TOKEN" "" "";
   MkVar "DJANGO_ADMIN_ENABLED" "true" "";
   MkVar "STORAGE_SERVICE_PORT" "8001" "";
   MkVar "POSTGRES_DATABASE_URL" "" "Database: SQLite unless POSTGRES_DATABASE_URL is set";
   MkVar "SQLITE_PATH" "db.sqlite3" "";
   MkVar "POSTGRES_SSL_REQUIRE" "true" "";
   MkVar "IDENTITY_JWKS_FILE" "" "Identity and JWT. Pin the JWKS with a file or JSON in production.";
   MkVar "IDENTITY_JWKS" "" "";
   MkVar "IDENTITY_JWKS_URL" "" "";
   MkVar "JWKS_CACHE_TTL" "900" "";
   MkVar "JWKS_TIMEOUT" "15" "";
   MkVar "JWKS_RETRIES" "2" "";
   MkVar "JWT_ALGORITHMS" "RS256" "";
   MkVar "JWT_HS256_FALLBACK_SECRET" "" "";
   MkVar "ALLOW_JWT_HS256_FALLBACK" "false" "";
   MkVar "STORAGE_BACKEND" "filesystem" "Object storage: filesystem or s3";
   MkVar "MEDIA_ROOT" "data/media" "";
   MkVar "STORAGE_KEY_PREFIX" "shellui" "";
   MkVar "AWS_ACCESS_KEY_ID" "" "";
   MkVar "AWS_SECRET_ACCESS_KEY" "" "";
   MkVar "AWS_STORAGE_BUCKET_NAME" "" "";
   MkVar "AWS_S3_REGION_NAME" "us-east-1" "";
   MkVar "AWS_S3_ENDPOINT_URL" "" "";
   MkVar "AWS_S3_CUSTOM_DOMAIN" "" "";
   MkVar "AWS_S3_SIGNATURE_VERSION" "s3v4" "";
   MkVar "AWS_S3_ADDRESSING_STYLE" "" "";
   MkVar "SIGNED_URL_EXPIRES" "3600" "";
   MkVar "DEFAULT_COMPANY_QUOTA_BYTES" "10G" "Quotas and uploads (K, M, G, T suffixes)";
   MkVar "DEFAULT_USER_QUOTA_BYTES" "0" "";
   MkVar "MAX_UPLOAD_BYTES" "5G" "";
   MkVar "DATA_UPLOAD_MAX_MEMORY_SIZE" "12M" "";
   MkVar "WEBDAV_ENABLED" "true" "WebDAV";
   MkVar "WEBDAV_PATH_PREFIX" "/dav" "";
   MkVar "SCHEDULER_ENABLED" "true" "Scheduled jobs";
   MkVar "CELERY_BROKER_URL" "" "";
   MkVar "CELERY_WORKER_CONCURRENCY" "2" "";
   MkVar "CELERY_BEAT_SCHEDULE_FILE" "/tmp/celerybeat-schedule" "";
   MkVar "CORS_ALLOW_ALL_ORIGINS" "true" "CORS and HTTPS";
   MkVar "CORS_ALLOW_CREDENTIALS" "false" "";
   MkVar "CORS_ALLOWED_ORIGINS" "" "";
   MkVar "CORS_ALLOW_PRIVATE_NETWORK" "true" "";
   MkVar "SECURE_SSL_REDIRECT" "true" "";
   MkVar "SECURE_HSTS_SECONDS" "31536000" "";
   MkVar "SECURE_HSTS_INCLUDE_SUBDOMAINS" "true" "";
   MkVar "SECURE_HSTS_PRELOAD" "false" "";
   MkVar "SESSION_COOKIE_SECURE" "true" "";
   MkVar "CSRF_COOKIE_SECURE" "true" "";
   MkVar "ACTIONS_WEBHOOK_TIMEOUT_SECONDS" "5" "Shellui Actions (outbound webhooks)";
   MkVar "ACTIONS_OUTBOX_MAX_ATTEMPTS" "8" "";
   MkVar "ACTIONS_WEBHOOK_ALLOW_PRIVATE" "false" "";
   MkVar "ACTIONS_WEBHOOK_RETRY_LEASE_SECONDS" "120" "";
   MkVar "ACTIONS_WEBHOOK_DISPATCH_WORKERS" "4" "";
   MkVar "ACTIONS_WEBHOOK_SYNC_DELIVERY" "false" "";
   MkVar "EVENT_LOG_RETENTION_DAYS" "7" "";
   MkVar "EMAIL_SERVICE_API_KEY" "" "Email notifications: nothing is forwarded while EMAIL_SERVICE_API_KEY is empty";
   MkVar "EMAIL_SERVICE_URL" "https://email.shellui.com" "";
   MkVar "EMAIL_SERVICE_ALLOW_PRIVATE" "false" "";
   MkVar "SENTRY_DSN" "" "Sentry";
   MkVar "SENTRY_ENVIRONMENT" "production" "";
   MkVar "SENTRY_RELEASE" "" "";
   MkVar "SENTRY_TRACES_SAMPLE_RATE" "0" "";
   MkVar "GUNICORN_WORKERS" "2" "Gunicorn (Docker entrypoint)";
   MkVar "GUNICORN_THREADS" "2" "";
   MkVar "GUNICORN_TIMEOUT" "120" "";
   MkVar "GUNICORN_GRACEFUL_TIMEOUT" "30" "";
   MkVar "GUNICORN_KEEP_ALIVE" "75" "";
   MkVar "GUNICORN_MAX_REQUESTS" "1000" "";
   MkVar "GUNICORN_MAX_REQUESTS_JITTER" "200" ""].
Definition all_names : list string := remove_dups ((q_name <$> REQUIRED) ++ (v_name <$> OPTIONAL)).
Definition optional_lines (skip : list string) : list string :=
  var ← OPTIONAL;
  (if truthy (v_group var) then [""; "# " +:+ v_group var] else [])
    ++ (if v_name var in_ skip then [] else ["# " +:+ v_name var +:+ "=" +:+ v_default var]).
(** The lines of the header of the example, and the text. *)
Definition newline : ascii := "010".
Definition _EXAMPLE_HEADER : list string :=
  ["# storage-service settings. Full reference: docs/configuration.md";
   "# Generated from config/env_registry.py: python manage.py generate_env --example > .env.example";
   "# Production: python manage.py generate_env --host storage.example.com";
   "# Copy to .env for local runs. Commented-out lines show the default the code uses.";
   "";
   "# Required";
   "# Signs sessions and CSRF tokens. At least 50 characters when DEBUG=false.";
   "SECRET_KEY=";
   "# Local development only. Unset means false (production).";
   "DEBUG=true";
   "# Public host names, comma-separated, no scheme.";
   "ALLOWED_HOSTS=localhost,127.0.0.1";
   "# Local identity-service. JWKS is read from {url}/.well-known/jwks.json.";
   "IDENTITY_SERVICE_URL=http://localhost:8000";
   "";
   "# Required when DEBUG=false (production)";
   "IDENTITY_ISSUER=";
   "IDENTITY_AUDIENCE=";
   "REDIS_URL=";
   "CSRF_TRUSTED_ORIGINS=";
   "";
   "# Optional (defaults shown)"].
Definition render_example : string :=
  join_char newline (_EXAMPLE_HEADER ++ optional_lines []) +:+ String newline "".

(** ** [generate_env]

    [token] is what [secrets.token_urlsafe(64)] yields. *)
Definition _values (host token : string) : list (string * string) :=
  let origin := "https://" +:+ host in
  [ ("SECRET_KEY", token); ("DEBUG", "false"); ("ALLOWED_HOSTS", host); ("CSRF_TRUSTED_ORIGINS", origin);
    ("IDENTITY_SERVICE_URL", "https://" +:+ PLACEHOLDER); ("IDENTITY_ISSUER", "https://" +:+ PLACEHOLDER);
    ("IDENTITY_AUDIENCE", "shellui"); ("REDIS_URL", "redis://redis:6379/0");
    ("POSTGRES_DATABASE_URL", "postgres://" +:+ PLACEHOLDER +:+ ":" +:+ PLACEHOLDER +:+ "@postgres:5432/storage") ].
Definition render_lines (host token : string) (optional : bool) : list string :=
  ("# storage-service. Replace every " +:+ PLACEHOLDER +:+ ".")
  :: (var ← REQUIRED;
      ["# " +:+ q_comment var;
       q_name var +:+ "=" +:+ default "" (dict_get (q_name var) (_values host token))])
  ++ (if optional then [""; "# Optional (defaults shown)"] ++ optional_lines (q_name <$> REQUIRED) else []).
Definition render (host token : string) (optional : bool) : string :=
  join_char newline (render_lines host token optional) +:+ String newline "".
Definition removeprefix (p s : string) : string := if startswith p s then str_drop (String.length p) s else s.
Definition cleaned_host (host : string) : string :=
  rstrip_char "/" (removeprefix "http://" (removeprefix "https://" (lower (strip host)))).
Definition generate_env_main (host token : string) (optional example : bool) : string :=
  if example then render_example else render (cleaned_host host) token optional.

(** ** [healthcheck]: the host the liveness request names *)
Definition health_host (allowed_hosts : string) : string :=
  let hosts := filter (λ h, truthy h = true) (strip <$> split_char "," allowed_hosts) in
  match List.find (λ h, h != "*") hosts with
  | Some h => lstrip_while (λ c, c == "."%char) h
  | None => "localhost"
  end.
(** PID 1 is Celery: the base name of one of its first three arguments. *)
Definition is_worker_mode (argv : list string) : bool :=
  existsb (λ arg, after_last "/" arg == "celery") (take 3 argv).
Definition healthcheck_main (argv : list string) (answer : option Z) : Z :=
  if is_worker_mode argv then 0 else match answer with Some 200 => 0 | _ => 1 end.

Example key_demo : (λ k, secret_key_problem (Some k)) <$>
    ["  "; "Pa" +:+ String "223" "word"; "DJANGO-insecure-0123456789012345678901234567890123456789"; "short"]
  = [Some KeyEmpty; Some KeyPlaceholder; Some KeyPlaceholder; Some KeyShort].
Proof. vm_compute. reflexivity. Qed.
Example health_demo : health_host <$> [" *, .example.com,b.io"; "*"; ""] = ["example.com"; "localhost"; "localhost"].
Proof. vm_compute. reflexivity. Qed.

(** ** The generated block starts a service *)
Definition generated (host token : string) : environ := list_to_map (_values host token).
Lemma prefix_nil s : String.prefix "" s = true.
Proof. by destruct s. Qed.
Lemma casefold_startswith p s : startswith p s = true → startswith (casefold p) (casefold s) = true.
Proof.
  unfold startswith. revert s. induction p as [|a p IH]; intros s; [intros _; apply prefix_nil|].
  destruct s as [|c s]; [intros Hf; discriminate Hf|]. cbn [String.prefix]. destruct (ascii_dec a c) as [<-|]; [|intros Hf; discriminate Hf].
  intros Hs%IH. cbn [casefold]. destruct (_ =? _)%nat.
  - change ("ss" +:+ casefold p) with (String "s" (String "s" (casefold p))).
    change ("ss" +:+ casefold s) with (String "s" (String "s" (casefold s))). exact Hs.
  - cbn [String.prefix]. by destruct (ascii_dec _ _).
Qed.
Lemma good_key token : secret_key_problem (Some token) = None → strip token = token →
  truthy token = true ∧ (50 ≤ String.length token)%nat ∧ startswith "django-insecure-" token = false.
Proof.
  unfold secret_key_problem. cbv zeta. cbn [default from_option]. intros Hp Hs. unfold id in Hp. rewrite Hs in Hp.
  destruct (truthy token); [|done]. cbn [negb] in Hp. destruct (existsb _ _ || _) eqn:Hph; [done|].
  destruct (Nat.ltb_spec (String.length token) SECRET_KEY_MIN_LENGTH) as [|Hlen]; [done|]. split_and!; [done|exact Hlen|].
  destruct (startswith "django-insecure-" token) eqn:Hd; [|done]. apply casefold_startswith in Hd.
  change (casefold "django-insecure-") with "django-insecure-" in Hd.
  cbn [existsb _PLACEHOLDER_SECRET_PREFIXES] in Hph. by rewrite Hd in Hph.
Qed.
(** What the block says about anything but key and host does not depend on them. *)
Ltac each_name Hn := repeat (apply elem_of_cons in Hn as [->|Hn]; [reflexivity|]); by apply elem_of_nil in Hn.
Lemma generated_agree names host token :
  names ∈ [broker_names; storage_names; identity_names; limits_names; web_names; actions_names; sentry_names] →
  agree names (generated host token) (generated "" "").
Proof.
  intros Hnames n Hn. repeat (apply elem_of_cons in Hnames as [->|Hnames]; [each_name Hn|]).
  by apply elem_of_nil in Hnames.
Qed.

Definition loaded_ok {A} (m : conf A) : bool := match m with inr _ => true | inl _ => false end.
Lemma loads_some {A} (m : conf A) : loaded_ok m = true → ∃ a, m = inr a.
Proof. destruct m as [e|a]; [done|]. intros _. by exists a. Qed.

Section start.
Context `{JsonLoads} (version base_dir : string) (read_file : string → option string).
Let load env := load_settings version base_dir read_file env.

Lemma generated_identity : ∃ i, load_identity base_dir read_file (generated "" "") false = inr i ∧
  is_Some (cf_issuer i) ∧ is_Some (cf_audience i).
Proof.
  assert (Hb : match load_identity base_dir read_file (generated "" "") false with
               | inr i => bool_decide (is_Some (cf_issuer i)) && bool_decide (is_Some (cf_audience i))
               | inl _ => false
               end = true) by (vm_compute; reflexivity).
  destruct (load_identity _ _ _ _) as [e|i]; [done|]. apply andb_true_iff in Hb as [H1 H2].
  exists i. by rewrite bool_decide_eq_true in H1, H2.
Qed.
Lemma generated_rest : ∃ l wc a s, load_limits (generated "" "") = inr l ∧ load_web (generated "" "") false = inr wc ∧
  load_actions (generated "" "") = inr a ∧ load_sentry version (generated "" "") false = inr s.
Proof.
  destruct (loads_some (load_limits (generated "" ""))) as [l ->]; [vm_compute; reflexivity|].
  destruct (loads_some (load_web (generated "" "") false)) as [wc ->]; [vm_compute; reflexivity|].
  destruct (loads_some (load_actions (generated "" ""))) as [a ->]; [vm_compute; reflexivity|].
  destruct (loads_some (load_sentry version (generated "" "") false)) as [s ->]; [vm_compute; reflexivity|].
  by exists l, wc, a, s.
Qed.

(** What [generate_env] prints starts a service.  With a fresh key and any host, the
    settings load from the printed values, [DEBUG] is off, the key and the host are the
    ones printed, and no check of a container has anything to report. *)
Theorem generated_env_starts host token :
  strip token = token → secret_key_problem (Some token) = None → (5 ≤ distinct_chars token)%nat →
  ∃ c, load (generated host token) = inr c ∧ cf_debug (cf_core c) = false ∧
    cf_secret_key (cf_core c) = token ∧ deploy_checks (generated host token) c = inr [] ∧
    (csv_items (strip host) ≠ [] → cf_allowed_hosts (cf_core c) = csv_items (strip host)).
Proof.
  intros Hs Hp Hd. destruct (good_key token Hp Hs) as (Ht & Hlen & Hins).
  unfold load, load_settings. unfold load_core at 1.
  change (env_text (generated host token) "SECRET_KEY" "") with (strip token).
  change (env_text (generated host token) "DEBUG" "false") with "false".
  rewrite Hs, Ht. cbn [require conf_bind cf_debug]. change (lower "false" in_ true_words) with false.
  rewrite (storage_agree base_dir _ (generated "" "")) by (apply generated_agree; listed).
  rewrite (identity_agree base_dir read_file _ (generated "" "")) by (apply generated_agree; listed).
  rewrite (limits_agree _ (generated "" "")) by (apply generated_agree; listed).
  rewrite (web_agree _ (generated "" "")) by (apply generated_agree; listed).
  rewrite (actions_agree _ (generated "" "")) by (apply generated_agree; listed).
  rewrite (sentry_agree version _ (generated "" "")) by (apply generated_agree; listed).
  rewrite (broker_agree _ (generated "" "")) by (apply generated_agree; listed).
  change (load_storage base_dir (generated "" "")) with
    (inr (A := settings_error) (StorageConf "filesystem" (FileSystemStorage (path_join (media_root base_dir (generated "" "")) "objects")) "shellui" 3600)).
  cbn [conf_bind].
  destruct generated_identity as (i & -> & Hiss & Haud). cbn [conf_bind].
  destruct generated_rest as (l & wc & a & s & -> & -> & -> & ->). cbn [conf_bind].
  unfold check_production, production_errors. cbn [cf_debug cf_secret_key].
  rewrite (bool_decide_true _ Hiss), (bool_decide_true _ Haud).
  rewrite (proj2 (Nat.ltb_ge _ _) Hlen), (proj2 (Nat.ltb_ge _ _) Hd), Hins. cbn [app orb conf_bind].
  eexists. split; [reflexivity|]. cbn [cf_core cf_debug cf_secret_key cf_allowed_hosts]. do 2 (split; [done|]). split.
  - unfold deploy_checks, shared_cache_recommended_for_multi_worker, redis_required_in_production,
      secret_key_strength_when_debug_disabled. cbn [cf_core cf_broker cf_debug cf_secret_key].
    rewrite Hp. vm_compute. reflexivity.
  - intros Hne. unfold _env_csv. change (env_text (generated host token) "ALLOWED_HOSTS" "") with (strip host).
    destruct (strip host) as [|x h]; [by exfalso; apply Hne|done].
Qed.
End start.

(** ** The documented defaults are the defaults of the code *)
Lemma getenv_eq env n d x : getenv (<[n:=d]> env) n x = d.
Proof. unfold getenv, environ in *. by rewrite lookup_insert_eq. Qed.
Lemma getenv_ne env n n' d x : n ≠ n' → getenv (<[n:=d]> env) n' x = getenv env n' x.
Proof. intros Hn. unfold getenv, environ in *. by rewrite lookup_insert_ne. Qed.
Lemma getenv_unset env n x : env !! n = None → getenv env n x = x.
Proof. intros Hn. unfold getenv. by rewrite Hn. Qed.
(** One variable, set to its default: the others are untouched, and its reader yields what
    it yields without the variable. *)
Ltac default_case Hunset :=
  unfold load_core, load_broker, load_storage, media_root, load_identity, _load_static_jwks,
    _resolve_identity_jwks_url, load_limits, load_web, load_actions, load_sentry;
  unfold _env_csv, _env_int, _env_bool, _env_bytes, _env_float, env_text;
  cbn [v_name v_default] in Hunset |- *;
  rewrite getenv_eq, (getenv_unset _ _ _ Hunset); rewrite ?getenv_ne by done; reflexivity.
(** Either the part does not read the variable, or it is one of the listed ones. *)
Ltac each_default agree_lemma names v Hv Hunset :=
  destruct (decide (v_name v ∈ names)) as [Hin|Hout]; [|apply agree_lemma, agree_insert, Hout];
  repeat (apply elem_of_cons in Hv as [->|Hv];
    [first [exfalso; revert Hin; apply (bool_decide_unpack _); vm_compute; exact I | default_case Hunset]|]);
  by apply elem_of_nil in Hv.

Section defaults.
Context `{JsonLoads} (version base_dir : string) (read_file : string → option string).
Context (v : Var) (env : environ) (Hv : v ∈ OPTIONAL) (Hunset : env !! v_name v = None).
Let env' : environ := <[v_name v := v_default v]> env.

Lemma core_default : load_core env' = load_core env.
Proof. unfold env'. each_default core_agree core_names v Hv Hunset. Qed.
Lemma broker_default : load_broker env' false = load_broker env false.
Proof. unfold env'. each_default broker_agree broker_names v Hv Hunset. Qed.
Lemma storage_default : v_name v ≠ "MEDIA_ROOT" → load_storage base_dir env' = load_storage base_dir env.
Proof.
  intros Hmedia. unfold env'.
  destruct (decide (v_name v ∈ storage_names)) as [Hin|Hout]; [|apply storage_agree, agree_insert, Hout].
  repeat (apply elem_of_cons in Hv as [->|Hv];
    [first [exfalso; revert Hin; apply (bool_decide_unpack _); vm_compute; exact I
           | exfalso; by apply Hmedia | default_case Hunset]|]).
  by apply elem_of_nil in Hv.
Qed.
Lemma identity_default : load_identity base_dir read_file env' false = load_identity base_dir read_file env false.
Proof. unfold env'. each_default identity_agree identity_names v Hv Hunset. Qed.
Lemma limits_default : load_limits env' = load_limits env.
Proof. unfold env'. each_default limits_agree limits_names v Hv Hunset. Qed.
Lemma web_default : load_web env' false = load_web env false.
Proof. unfold env'. each_default web_agree web_names v Hv Hunset. Qed.
Lemma actions_default : load_actions env' = load_actions env.
Proof. unfold env'. each_default actions_agree actions_names v Hv Hunset. Qed.
Lemma sentry_default : load_sentry version env' false = load_sentry version env false.
Proof. unfold env'. each_default sentry_agree sentry_names v Hv Hunset. Qed.
End defaults.

(** The defaults of the registry are the defaults of the code.  In production, setting a
    variable that is not set to the default that [.env.example] shows for it changes
    nothing in what the settings load to; the one exception is [MEDIA_ROOT], whose default
    is shown relative to the source tree. *)
Theorem documented_defaults `{JsonLoads} version base_dir read_file v env :
  v ∈ OPTIONAL → v_name v ≠ "MEDIA_ROOT" → env !! v_name v = None →
  (lower (env_text env "DEBUG" "false") in_ true_words) = false →
  load_settings version base_dir read_file (<[v_name v := v_default v]> env) =
  load_settings version base_dir read_file env.
Proof.
  intros Hv Hm Hn Hd. unfold load_settings. rewrite core_default by done.
  destruct (load_core env) as [e|core] eqn:Hc; [done|]. cbn [conf_bind].
  assert (cf_debug core = false) as ->.
  { unfold load_core in Hc. conf_inv Hc. by injection Hc as <-. }
  by rewrite broker_default, storage_default, identity_default, limits_default, web_default,
    actions_default, sentry_default.
Qed.

(** ** The printed block, line by line *)
(** A reader of environment files: comments and empty lines do not count. *)
Definition assignment (line : string) : option (string * string) :=
  if startswith "#" line || negb (has_char "=" line) then None else Some (partition_char "=" line).
Definition assignments (text : string) : list (string * string) := omap assignment (split_char newline text).

Lemma partition_name name value : has_char "=" name = false →
  partition_char "=" (name +:+ "=" +:+ value) = (name, value).
Proof.
  unfold has_char. induction name as [|c name IH]; [done|]. cbn [str_forall].
  intros [Hc Hn]%negb_false_iff%andb_true_iff. rewrite str_app_cons. cbn [partition_char].
  apply negb_true_iff, bool_decide_eq_false in Hc. rewrite bool_decide_false by done.
  rewrite IH; [done|]. by rewrite Hn.
Qed.
Lemma assignments_lines lines :
  Forall (λ l, has_char newline l = false) lines → lines ≠ [] →
  assignments (join_char newline lines +:+ String newline "") = omap assignment lines.
Proof.
  intros Hl Hne. unfold assignments.
  assert (Heq : join_char newline lines +:+ String newline "" = join_char newline (lines ++ [""])).
  { clear Hl. induction lines as [|l lines IH]; [done|]. destruct lines as [|l' lines]; [done|].
    rewrite (join_char_cons newline l (l' :: lines)) by done. cbn [app].
    rewrite (join_char_cons newline l (l' :: (lines ++ [""]))) by done.
    rewrite str_app_assoc, str_app_cons, IH by done. done. }
  rewrite Heq, split_join_char; [|by destruct lines|apply Forall_app; split; [exact Hl|by apply Forall_singleton]].
  rewrite omap_app. cbn. by rewrite app_nil_r.
Qed.
Lemma assignment_named name value : name ≠ "" → startswith "#" name = false → has_char "=" name = false →
  assignment (name +:+ "=" +:+ value) = Some (name, value).
Proof.
  intros Hne Hs He. unfold assignment. rewrite has_char_app, (has_char_app "=" "="), orb_true_r.
  assert (Hs' : startswith "#" (name +:+ "=" +:+ value) = false).
  { destruct name as [|c name]; [done|]. rewrite str_app_cons. unfold startswith in *. cbn [String.prefix] in *.
    destruct (ascii_dec _ c); [|done]. by rewrite prefix_nil in Hs. }
  rewrite Hs'. cbn [orb negb]. by rewrite partition_name.
Qed.
(** A line that assigns nothing. *)
Definition silent_line (l : string) : bool := bool_decide (assignment l = None).
Lemma omap_silent lines : forallb silent_line lines = true → omap assignment lines = [].
Proof.
  induction lines as [|l lines IH]; [done|]. cbn [forallb]. intros [Hl Hls]%andb_true_iff.
  apply bool_decide_eq_true in Hl. cbn [omap list_omap]. rewrite Hl. by apply IH.
Qed.
Definition one_line (s : string) : bool := negb (has_char newline s).
Section block.
Context (host token : string) (Hh : has_char newline host = false) (Ht : has_char newline token = false).
Let value (var : Required) : string := default "" (dict_get (q_name var) (_values host token)).

Lemma omap_required (l : list Required) :
  Forall (λ var, q_name var ≠ "" ∧ startswith "#" (q_name var) = false ∧ has_char "=" (q_name var) = false) l →
  omap assignment (var ← l; ["# " +:+ q_comment var; q_name var +:+ "=" +:+ value var])
  = (λ var, (q_name var, value var)) <$> l.
Proof.
  induction 1 as [|var l (H1 & H2 & H3) Hl IH]; [done|]. cbn [mbind list_bind fmap list_fmap app].
  rewrite <- IH. cbn [omap list_omap]. rewrite assignment_named by done. reflexivity.
Qed.
Lemma value_line var : var ∈ REQUIRED → has_char newline (value var) = false.
Proof.
  intros Hv. unfold value.
  repeat (apply elem_of_cons in Hv as [->|Hv];
    [first [reflexivity | exact Ht | exact Hh | cbn -[has_char]; rewrite has_char_app, Hh; reflexivity]|]).
  by apply elem_of_nil in Hv.
Qed.
Lemma block_lines optional : Forall (λ l, has_char newline l = false) (render_lines host token optional).
Proof.
  unfold render_lines. constructor; [reflexivity|]. apply Forall_app. split.
  - apply Forall_forall. intros l (var & Hl & Hv)%list_elem_of_bind.
    apply elem_of_cons in Hl as [->|Hl].
    + repeat (apply elem_of_cons in Hv as [->|Hv]; [reflexivity|]). by apply elem_of_nil in Hv.
    + apply list_elem_of_singleton in Hl as ->. rewrite !has_char_app. fold (value var). rewrite value_line by done.
      repeat (apply elem_of_cons in Hv as [->|Hv]; [reflexivity|]). by apply elem_of_nil in Hv.
  - destruct optional; [|by constructor]. apply Forall_forall. intros l Hl.
    assert (Hall : forallb one_line ([""; "# Optional (defaults shown)"] ++ optional_lines (q_name <$> REQUIRED)) = true)
      by (vm_compute; reflexivity).
    rewrite forallb_forall in Hall. apply negb_true_iff, Hall. by apply list_elem_of_In.
Qed.
End block.

(** The printed block reads back as the printed values.  For a host and a key without
    line breaks, the assignments of the text of [generate_env], with or without the
    optional settings, are exactly the required settings with their values, in order: the
    commented lines assign nothing. *)
Theorem render_roundtrip host token optional :
  has_char newline host = false → has_char newline token = false →
  assignments (render host token optional) = _values host token.
Proof.
  intros Hh Ht. unfold render. rewrite assignments_lines; [|by apply block_lines|done].
  unfold render_lines. cbn [omap list_omap]. change (assignment _) with (None (A := string * string)) at 1.
  rewrite omap_app, omap_required by (repeat constructor; done).
  destruct optional; [rewrite omap_silent by (vm_compute; reflexivity)|]; rewrite app_nil_r; reflexivity.
Qed.

(** ** A concrete block *)
Module DeployDemo.
#[export] Instance no_json : JsonLoads := {| json_loads _ := None |}.
Definition token : string := "0123456789abcdefghijklmnopqrstuvwxyz-ABCDEFGHIJKLMNOPQRSTUVWXYZ_0123456789abcdefghij".
Definition load : environ → conf configuration := load_settings "1.0.0" "/app" (λ _, None).
Definition block : environ := generated "files.example.com" token.
Definition settings : configuration :=
  match load block with
  | inr c => c
  | inl _ => Config (CoreConf "" true "" [] []) (BrokerConf "" true "" "" true) (StorageConf "" (FileSystemStorage "") "" 0)
      (IdentityConf None None None None None None None 0 NotANumber 0 None false []) (LimitsConf 0 0 0 0 true "")
      (WebConf true [] true true true 0 true true true true true)
      (ActionsConf NotANumber 0 true 0 0 true 0 "" "" true) (SentryConf "" "" "" NotANumber)
  end.
Definition retries : Var := MkVar "JWKS_RETRIES" "2" "".
End DeployDemo.
Import DeployDemo.

Lemma generated_env_starts_witness : ∃ c, load block = inr c ∧ cf_secret_key (cf_core c) = token ∧
  cf_allowed_hosts (cf_core c) = ["files.example.com"].
Proof.
  destruct (generated_env_starts "1.0.0" "/app" (λ _, None) "files.example.com" token) as (c & Hl & _ & Hk & _ & Hh);
    [vm_compute; reflexivity|vm_compute; reflexivity|vm_compute; lia|].
  exists c. split; [exact Hl|]. split; [exact Hk|]. rewrite Hh; vm_compute; [reflexivity|discriminate].
Defined.
Lemma production_config_safe_witness :
  cf_issuer (cf_identity settings) = Some "https://change-me" ∧
  (50 ≤ String.length (cf_secret_key (cf_core settings)))%nat ∧ session_cookie_name (cf_web settings) = "__Host-sessionid".
Proof.
  destruct (production_config_safe "1.0.0" "/app" (λ _, None) block settings)
    as (_ & _ & Hlen & _ & _ & _ & _ & _ & Hcookie & _); [vm_compute; reflexivity|vm_compute; reflexivity|].
  split; [vm_compute; reflexivity|]. split; [exact Hlen|]. apply Hcookie. vm_compute. reflexivity.
Defined.
Lemma loaded_config_typed_witness :
  cf_secret_key (cf_core settings) ≠ "" ∧ cf_storage_backend (cf_store settings) = "filesystem" ∧
  0 ≤ cf_company_quota (cf_limits settings).
Proof.
  destruct (loaded_config_typed "1.0.0" "/app" (λ _, None) block settings) as (Hk & Hb & _ & Hq & _);
    [vm_compute; reflexivity|].
  split; [exact Hk|]. split; [vm_compute; reflexivity|exact Hq].
Defined.
Lemma documented_defaults_witness : load (<["JWKS_RETRIES" := "2"]> block) = load block.
Proof.
  apply (documented_defaults "1.0.0" "/app" (λ _, None) retries block); [|done| |]; [|vm_compute; reflexivity..].
  vm_compute. repeat first [left; reflexivity | right].
Defined.
Lemma render_roundtrip_witness :
  assignments (render "files.example.com" token true) = _values "files.example.com" token.
Proof. apply render_roundtrip; vm_compute; reflexivity. Defined.
(** The example shows a path relative to the working directory; the code defaults to one
    below the source tree. *)
Example media_root_differs :
  media_root "/app" (<["MEDIA_ROOT" := "data/media"]> block) = "data/media" ∧ media_root "/app" block = "/app/data/media".
Proof. vm_compute. done. Qed.
