(* ===== verification/Setup.v ===== *)
(** * Setup: the home page that creates the first account, error pages, request ids, health
    ([config/views.py], [config/errors.py], [config/exceptions.py],
    [config/request_context.py], [config/liveness.py], the heartbeat of [config/celery.py]
    and [HealthView] of [apps/storage/views.py])

    The accounts, the fields of the form and the password rules are Django's: the table of
    accounts is a list, the checks are parameters. *)
From S2P Require Import Prelude PyStr PyData Models Views ApiSchema.
From S2P Require Import Access Registry Events Jobs TaskLock S3Config Settings.

(** ** Requests *)
Record home_request := HomeRequest {
  hr_post : bool;                            (** the method is [POST] *)
  hr_form : list (string * string);          (** [request.POST] *)
  hr_query : list (string * string);         (** [request.GET] *)
  hr_setup_header : string;                  (** [X-Setup-Token], or empty *)
  hr_staff : bool }.                         (** an authenticated staff user *)

(** ** The form [InitialSuperuserForm] *)
Class Accounts := {
  (** the fields' own checks: the cleaned values, and the fields with errors *)
  clean_fields : list (string * string) → list (string * string) * list string;
  validate_password : string → string → string → option string }.  (** password, user, e-mail *)
(** A cleaned value; the fields of a valid form all have one. *)
Definition field `{Accounts} (name : string) (rq : home_request) : string :=
  default "" (dict_get name (clean_fields (hr_form rq)).1).
(** [clean]: the two passwords, and the rules for passwords. *)
Definition clean_errors `{Accounts} (rq : home_request) : list string :=
  let password := field "password" rq in
  let confirm := field "password_confirm" rq in
  (if truthy password && truthy confirm && (password != confirm) then ["password_confirm"] else [])
  ++ (if truthy password then
        match validate_password password (field "username" rq) (field "email" rq) with
        | Some _ => ["password"]
        | None => []
        end
      else []).
(** [InitialSuperuserForm(request.POST or None)]: without data the form is unbound, which
    has no errors and is not valid. *)
Definition form_errors `{Accounts} (rq : home_request) : list string :=
  if bool_decide (hr_form rq = []) then [] else (clean_fields (hr_form rq)).2 ++ clean_errors rq.
Definition is_valid `{Accounts} (rq : home_request) : bool :=
  bool_decide (hr_form rq ≠ []) && bool_decide (form_errors rq = []).

(** ** Accounts *)
Record account := Account { ac_username : string; ac_email : string; ac_password : string; ac_superuser : bool }.
Definition site : Type := list account.
Definition site_prog (A : Type) : Type := M site exn A.
(** [transaction.atomic] *)
Definition atomic_site {A} (m : site_prog A) : site_prog A :=
  λ s, match m s with (inl e, _) => (inl e, s) | r => r end.
Definition users_exist : site_prog bool := gets (λ s, bool_decide (s ≠ [])).
(** [create_superuser]: a name that is taken violates the constraint of the column. *)
Definition create_superuser (a : account) : site_prog unit :=
  s <- get ;;
  if existsb (λ a', ac_username a' == ac_username a) s then raise IntegrityError
  else modify (λ s, s ++ [a]).

(** ** Who may create the first account *)
Definition _provided_setup_token (rq : home_request) : string :=
  str_or (strip (default "" (last_get "setup_token" (if hr_post rq then hr_form rq else hr_query rq))))
    (strip (hr_setup_header rq)).
Definition is_ascii (s : string) : bool := str_forall (λ c, (Ascii.nat_of_ascii c <? 128)%nat) s.
(** [secrets.compare_digest] takes ASCII texts only. *)
Definition compare_digest (a b : string) : site_prog bool :=
  if is_ascii a && is_ascii b then ret (a == b) else raise TypeError.
Definition _bootstrap_allowed (debug : bool) (setup_token : string) (rq : home_request) : site_prog bool :=
  if debug then ret true
  else if negb (truthy setup_token) then ret false
  else
    let provided := _provided_setup_token rq in
    if negb (truthy provided) then ret false else compare_digest provided setup_token.

(** ** [root] *)
Record home_page := HomePage {
  hp_show_setup_form : bool; hp_bootstrap_blocked : bool; hp_errors : list string;
  hp_show_admin_link : bool; hp_setup_done : bool; hp_setup_token : string }.
Inductive page := Redirect (target : string) | BootstrapForbidden | Home (p : home_page).

Section root.
Context `{Accounts} (debug admin_enabled : bool) (setup_token : string).
Definition new_superuser (rq : home_request) : account :=
  Account (field "username" rq) (field "email" rq) (field "password" rq) true.
(** The transaction: [None] once the account exists, else the fields with errors. *)
Definition create_first (rq : home_request) : site_prog (option (list string)) :=
  try_except
    (atomic_site (taken <- users_exist ;;
                  if taken then ret (Some ["__all__"])
                  else create_superuser (new_superuser rq) ;;; ret None))
    (λ e, if bool_decide (e = IntegrityError) then Some (ret (Some ["username"])) else Some (ret (Some ["__all__"]))).
Definition home (has_users allowed : bool) (errors : list string) (rq : home_request) : page :=
  Home (HomePage (negb has_users && allowed) (negb has_users && negb allowed) errors
          (admin_enabled && hr_staff rq)
          (default "" (last_get "setup" (hr_query rq)) == "done")
          (if allowed && negb has_users then _provided_setup_token rq else "")).
Definition root (rq : home_request) : site_prog page :=
  has_users <- users_exist ;;
  allowed <- _bootstrap_allowed debug setup_token rq ;;
  if hr_post rq then
    if has_users then ret (Redirect "root")
    else if negb allowed then ret BootstrapForbidden
    else if is_valid rq then
      created <- create_first rq ;;
      match created with
      | None => ret (Redirect "root?setup=done")
      | Some errors => ret (home has_users allowed errors rq)
      end
    else ret (home has_users allowed (form_errors rq) rq)
  else ret (home has_users allowed [] rq).
End root.

(** ** Error pages ([config/errors.py]) *)
Definition API_PREFIXES : list string := ["/api/"; "/storage/v1/"].
Definition is_api_path (path : string) : bool := existsb (λ p, startswith p path) API_PREFIXES.
(** [_JSON] and [_CSRF_JSON] *)
Definition json_error (status : Z) (csrf : bool) : string * string :=
  if csrf then ("CSRF check failed. Reload the page and try again.", "csrf_failed")
  else if status == 400 then ("Bad request.", "bad_request")
  else if status == 403 then ("You do not have permission to perform this action.", "forbidden")
  else if status == 404 then ("Not found.", "not_found")
  else ("Server error.", "server_error").
(** [_COPY] *)
Definition page_copy (status : Z) (csrf : bool) : string * string :=
  if csrf then ("This form has expired", "Reload the page, then send the form again.")
  else if status == 400 then
    ("This request didn't work", "The page got a request it could not read. Go back to home and try again.")
  else if status == 403 then ("You can't open this page", "Your account does not have access to this page.")
  else if status == 404 then ("This page doesn't exist", "The link may be wrong, or the page has moved.")
  else ("Something went wrong", "The service could not finish your request. Try again in a moment.").
Definition _with_request_id (request_id : option string) (body : list (string * json)) : list (string * json) :=
  match request_id with
  | Some i => if truthy i then dict_set "request_id" (JStr i) body else body
  | None => body
  end.
Definition _json_body (path : string) (request_id : option string) (status : Z) (code message : string) :
  list (string * json) :=
  _with_request_id request_id
    (if startswith "/storage/v1/" path
     then [("statusCode", JStr (str_int status)); ("error", JStr code); ("message", JStr message)]
     else [("detail", JStr message)]).
(** A JSON body, the branded page with its texts, or the page used when the template
    cannot be rendered. *)
Inductive error_body :=
| ErrorJson (body : list (string * json))
| ErrorPage (status : Z) (title message home_label : string)
| FallbackPage.
Definition error_page (template_works : bool) (path : string) (request_id : option string) (status : Z) (csrf : bool) :
  Z * error_body :=
  if is_api_path path then
    let '(message, code) := json_error status csrf in
    (status, ErrorJson (_json_body path request_id status code message))
  else
    let '(title, message) := page_copy status csrf in
    (status, if template_works then ErrorPage status title message "Back to home" else FallbackPage).
Section handlers.
Context (template_works : bool) (path : string) (request_id : option string).
Definition bad_request := error_page template_works path request_id 400 false.
Definition permission_denied := error_page template_works path request_id 403 false.
Definition page_not_found := error_page template_works path request_id 404 false.
Definition server_error := error_page template_works path request_id 500 false.
Definition csrf_failure := error_page template_works path request_id 403 true.
End handlers.

(** ** Request ids and liveness *)
(** [RequestIdMiddleware]: the id of a request; [fresh] is the text of a new UUID. *)
Definition request_id_of (header : option string) (fresh : string) : string :=
  let incoming := strip (default "" header) in
  if truthy incoming then str_take 64 incoming else str_take 12 fresh.
(** [config.exceptions.exception_handler]: the id is added to the answer of the framework
    to an exception, when the answer is a dictionary without one. *)
Definition exception_handler (answer : option (Z * json)) (request_id : option string) : option (Z * json) :=
  match answer with
  | Some (status, JObj body) =>
      match request_id with
      | Some i => if truthy i && bool_decide (dict_get "request_id" body = None)
                  then Some (status, JObj (body ++ [("request_id", JStr i)])) else answer
      | None => answer
      end
  | _ => answer
  end.
Definition LIVENESS_PATH : string := "/health/live".
(** [LivenessMiddleware]: whether the request is answered before any other code runs. *)
Definition is_liveness (method path : string) : bool :=
  (method in_ ["GET"; "HEAD"]) && (rstrip_char "/" path == LIVENESS_PATH).

(** [MIDDLEWARE]: the first entry is the outermost.  Those of the frameworks are parameters. *)
Record web_request := WebRequest {
  wr_method : string; wr_path : string; wr_request_id : option string;   (** the header *)
  wr_id : option string }.                                               (** [request.request_id] *)
Record web_response := WebResponse { ws_status : Z; ws_body : string; ws_headers : list (string * string) }.
Definition MIDDLEWARE : list string :=
  [ "config.request_context.RequestIdMiddleware"; "config.liveness.LivenessMiddleware";
    "django.middleware.security.SecurityMiddleware"; "whitenoise.middleware.WhiteNoiseMiddleware";
    "corsheaders.middleware.CorsMiddleware"; "django.contrib.sessions.middleware.SessionMiddleware";
    "django.middleware.common.CommonMiddleware"; "django.middleware.csrf.CsrfViewMiddleware";
    "django.contrib.auth.middleware.AuthenticationMiddleware";
    "django.contrib.messages.middleware.MessageMiddleware";
    "django.middleware.clickjacking.XFrameOptionsMiddleware" ].
Section stack.
(** A handler may change a state (sessions, the database) and fail. *)
Context {S E : Type}.
Definition web_handler : Type := web_request → M S E web_response.
Context (third_party : string → web_handler → web_handler) (fresh : string).
Definition RequestIdMiddleware (get_response : web_handler) : web_handler := λ rq,
let request_id := request_id_of (wr_request_id rq) fresh in
response <- get_response (WebRequest (wr_method rq) (wr_path rq) (wr_request_id rq) (Some request_id)) ;;
ret (WebResponse (ws_status response) (ws_body response) (dict_set "X-Request-ID" request_id (ws_headers response))).
Definition LivenessMiddleware (get_response : web_handler) : web_handler := λ rq,
if is_liveness (wr_method rq) (wr_path rq)
then ret (WebResponse 200 "ok" [("Content-Type", "text/plain")]) else get_response rq.
Definition middleware (name : string) : web_handler → web_handler :=
match name with
| "config.request_context.RequestIdMiddleware" => RequestIdMiddleware
| "config.liveness.LivenessMiddleware" => LivenessMiddleware
| _ => third_party name
end.
Definition respond (view : web_handler) : web_handler := foldr middleware view MIDDLEWARE.

(** The liveness probe is answered alike whatever the frameworks, the view and the state do,
    and touches no state; every other answer carries the id of its request too. *)
Lemma liveness_answered view rq s : is_liveness (wr_method rq) (wr_path rq) = true →
  respond view rq s = (inr (WebResponse 200 "ok" [("Content-Type", "text/plain");
    ("X-Request-ID", request_id_of (wr_request_id rq) fresh)]), s).
Proof. intros Hl. unfold respond. simpl. unfold RequestIdMiddleware, LivenessMiddleware, bind. simpl. by rewrite Hl. Qed.
Lemma every_answer_identified view rq s r s' : respond view rq s = (inr r, s') →
  dict_get "X-Request-ID" (ws_headers r) = Some (request_id_of (wr_request_id rq) fresh).
Proof.
  unfold respond. simpl. unfold RequestIdMiddleware, bind. destruct (LivenessMiddleware _ _ s) as [[e|r0] s0]; [done|].
  intros [= <- _]. simpl. rewrite dict_get_set. by rewrite bool_decide_eq_true_2.
Qed.
End stack.

(** [_beat_heartbeat]: the messages that count as a sign of life of the scheduler. *)
Definition is_heartbeat (schedule : list (string * Z * Z)) (sender : string) : bool :=
  sender in_ ((λ e, e.1.1) <$> schedule).

(** ** Health and the heartbeat of the scheduler *)
Definition HealthView_get (version : string) (c : configuration) (authenticated : bool) : response :=
  Response 200 (CJson (JObj
    ([("status", JStr "ok"); ("version", JStr version)]
     ++ if authenticated
        then [("storage_backend", JStr (cf_storage_backend (cf_store c)));
              ("identity_jwks_source", JStr (str_or (opt_text (cf_jwks_source (cf_identity c))) "url"));
              ("identity_jwks_url", from_option JStr JNull (cf_jwks_url (cf_identity c)))]
        else []))).
Lemma health_documented version c authenticated : existsb (λ d, (d.1 == 200) &&
    body_conforms d.2 (rs_content (HealthView_get version c authenticated))) (op_responses HealthView_get_schema) = true.
Proof. destruct authenticated; [|done]. cbn. by destruct (cf_jwks_url (cf_identity c)). Qed.
Definition SCHEDULER_LOCK_PREFIX : string := "storage-service:scheduler".
Definition scheduler_enabled (c : configuration) : bool := cf_scheduler_enabled (cf_broker c).
(** [ping]: the broker answers; any exception counts as no answer. *)
Definition redis_reachable (c : configuration) (ping : bool) : option bool :=
  if truthy (cf_broker_url (cf_broker c)) then Some ping else None.
Section heartbeat.
Context {R : Type} `{Redis R}.
(** [_beat_heartbeat] and [beat_last_seen]; [text] is the time as [record_beat_heartbeat]
    writes it, [parse] reads it back. *)
Definition _beat_heartbeat (sender text : string) (t : datetime) (s : R) : R :=
  if is_heartbeat scheduled_jobs_beat_schedule sender
  then record_beat_heartbeat SCHEDULER_LOCK_PREFIX text t s else s.
Definition beat_last_seen (c : configuration) (parse : string → option datetime) (t : datetime) (s : R) : option datetime :=
  if truthy (cf_broker_url (cf_broker c)) then read_beat_heartbeat SCHEDULER_LOCK_PREFIX parse t s else None.
(** For a day after a scheduled task was published, and only then, the heartbeat is seen. *)
Lemma heartbeat_seen `{!RedisLaws R} c parse sender text t t' s b :
  truthy (cf_broker_url (cf_broker c)) = true → is_heartbeat scheduled_jobs_beat_schedule sender = true →
  t <= t' → parse text = Some b →
  beat_last_seen c parse t' (_beat_heartbeat sender text t s) = if t' <? t + us BEAT_HEARTBEAT_TTL then Some b else None.
Proof.
  intros Hurl Hsender Ht Hparse. unfold beat_last_seen, _beat_heartbeat, read_beat_heartbeat, record_beat_heartbeat.
  rewrite Hurl, Hsender, get_after_set by done. rewrite set_result. cbn [andb negb].
  rewrite bool_decide_true by done. destruct (_ <? _); [exact Hparse|done].
Qed.
End heartbeat.

(** ** The first account is created once *)
Section bootstrap.
Context `{Accounts} (debug admin_enabled : bool) (setup_token : string).
Definition authorised (rq : home_request) : Prop :=
  debug = true ∨ (setup_token ≠ "" ∧ _provided_setup_token rq = setup_token).
Lemma allowed_spec rq s b s' : _bootstrap_allowed debug setup_token rq s = (inr b, s') →
  s' = s ∧ (b = true → authorised rq).
Proof.
  unfold _bootstrap_allowed, compare_digest, authorised. destruct debug; [intros [= <- <-]; auto|].
  unfold truthy. destruct (bool_decide_reflect (setup_token = "")); [intros [= <- <-]; naive_solver|].
  destruct (bool_decide_reflect (_provided_setup_token rq = "")); [intros [= <- <-]; naive_solver|].
  cbn [negb]. destruct (is_ascii _ && is_ascii _); [|done]. intros [= <- <-]. split; [done|].
  intros Hb%bool_decide_eq_true. by right.
Qed.
Lemma allowed_error rq s e s' : _bootstrap_allowed debug setup_token rq s = (inl e, s') → s' = s.
Proof.
  unfold _bootstrap_allowed, compare_digest. repeat case_match; by intros [= _ <-].
Qed.
Lemma create_first_spec rq s r s' : create_first rq s = (r, s') →
  s' = s ∨ (s = [] ∧ s' = [new_superuser rq]).
Proof.
  unfold create_first, try_except, atomic_site, users_exist, create_superuser, bind, gets, get, modify, ret, raise.
  destruct s as [|a s]; cbn.
  - intros [= _ <-]. by right.
  - intros [= _ <-]. by left.
Qed.
Inductive root_step (s s' : site) : Prop :=
| root_request rq r : root debug admin_enabled setup_token rq s = (r, s') → root_step s s'.
Lemma root_request_spec rq s r s' : root debug admin_enabled setup_token rq s = (r, s') →
  s' = s ∨ (s = [] ∧ s' = [new_superuser rq] ∧ hr_post rq = true ∧ is_valid rq = true ∧ authorised rq).
Proof.
  unfold root. unfold bind at 1, users_exist at 1, gets at 1. unfold bind at 1.
  destruct (_bootstrap_allowed debug setup_token rq s) as [[e|b] s1] eqn:Hb.
  { apply allowed_error in Hb. intros Heq; inversion Heq; subst; by left. }
  apply allowed_spec in Hb as [-> Hauth].
  destruct (hr_post rq); [|intros Heq; inversion Heq; subst; by left].
  case_match; [intros Heq; inversion Heq; subst; by left|].
  destruct b; [|intros Heq; inversion Heq; subst; by left]. cbn [negb].
  destruct (is_valid rq); [|intros Heq; inversion Heq; subst; by left].
  unfold bind. destruct (create_first rq s) as [[e|created] s2] eqn:Hc; apply create_first_spec in Hc;
    [|destruct created]; intros Heq; inversion Heq; subst; destruct Hc as [->|[-> ->]]; (by left) || (right; auto 6).
Qed.

(** The public page creates the first account, once, for whoever may.  Over any sequence
    of requests to the home page the accounts stay as they were, or there were none and
    there is exactly one: the superuser of a [POST] whose form is valid and which is
    authorised, by the debug mode or by the set-up token of the operator. *)
Theorem setup_creates_one_account s s' : rtc root_step s s' →
  s' = s ∨ (s = [] ∧ ∃ rq, s' = [new_superuser rq] ∧ hr_post rq = true ∧ is_valid rq = true ∧ authorised rq).
Proof.
  induction 1 as [s|s s1 s' [rq r Hstep] Hrest IH]; [by left|].
  apply root_request_spec in Hstep as [->|(-> & -> & Hpost & Hform & Hauth)]; [done|].
  destruct IH as [->|[? _]]; [right|done]. eauto 6.
Qed.
End bootstrap.

(** A fresh site: the operator's token creates the account, a second request changes nothing. *)
#[local] Instance plain_accounts : Accounts := {|
  clean_fields form := (prod_map id strip <$> form, if dict_get "username" form == None then ["username"] else []);
  validate_password password _ _ := if (String.length password <? 8)%nat then Some "too short" else None |}.
Definition setup_form : list (string * string) :=
  [("username", "ada"); ("email", "ada@example.com"); ("password", "longenough"); ("password_confirm", "longenough");
   ("setup_token", " operator-token ")].
Definition setup_request (form : list (string * string)) : home_request := HomeRequest true form [] "" false.
Definition root_here := root false true "operator-token".
Example setup_created : root_here (setup_request setup_form) [] =
  (inr (Redirect "root?setup=done"), [Account "ada" "ada@example.com" "longenough" true]).
Proof. vm_compute. reflexivity. Qed.
Example setup_refused : root_here (setup_request (dict_set "setup_token" "guess" setup_form)) [] =
  (inr BootstrapForbidden, []).
Proof. vm_compute. reflexivity. Qed.
(** A token with other characters than ASCII ends in a server error, not in a refusal. *)
Example strange_setup_token :
  root_here (setup_request (dict_set "setup_token" (String "195" (String "169" "")) setup_form)) [] = (inl TypeError, []).
Proof. vm_compute. reflexivity. Qed.
Lemma setup_creates_one_account_witness :
  [new_superuser (setup_request setup_form)] = [] ∨
  (([] : site) = [] ∧ ∃ rq, [new_superuser (setup_request setup_form)] = [new_superuser rq] ∧ hr_post rq = true ∧
     is_valid rq = true ∧ authorised false "operator-token" rq).
Proof.
  apply (setup_creates_one_account false true "operator-token" [] [new_superuser (setup_request setup_form)]).
  apply (rtc_l _ _ [new_superuser (setup_request setup_form)]);
    [apply (root_request _ _ _ _ _ (setup_request setup_form) (inr (Redirect "root?setup=done"))); vm_compute; reflexivity|].
  apply (rtc_l _ _ [new_superuser (setup_request setup_form)]); [|apply rtc_refl].
  apply (root_request _ _ _ _ _ (setup_request setup_form) (inr (Redirect "root"))); vm_compute; reflexivity.
Defined.
