(* ===== verification/Site.v ===== *)
(** * Site: the service under the settings it has loaded

    [Settings] yields a configuration; the components read it through their classes of
    settings.  This file builds those instances, and states what a configuration that
    loaded in production means for the requests the service then answers. *)
From S2P Require Import Prelude PyStr PyData Models Quotas.
From S2P Require Import Access Registry Events EventLogApi Webhook Auth Views Routes S3Config Settings Deploy.

Section site.
Context (c : configuration).
Definition storage_settings : Quotas.Settings := {|
  DEFAULT_COMPANY_QUOTA_BYTES := cf_company_quota (cf_limits c);
  DEFAULT_USER_QUOTA_BYTES := cf_user_quota (cf_limits c);
  MAX_UPLOAD_BYTES := cf_max_upload (cf_limits c);
  STORAGE_KEY_PREFIX := cf_key_prefix (cf_store c);
  SIGNED_URL_EXPIRES := cf_signed_url_expires (cf_store c);
  STORAGE_BACKEND := cf_storage_backend (cf_store c) |}.
Definition action_settings : ActionSettings := {|
  EMAIL_SERVICE_API_KEY := cf_email_key (cf_actions c);
  EMAIL_SERVICE_URL := cf_email_url (cf_actions c);
  EMAIL_SERVICE_ALLOW_PRIVATE := cf_email_private (cf_actions c);
  ACTIONS_OUTBOX_MAX_ATTEMPTS := cf_max_attempts (cf_actions c);
  ACTIONS_WEBHOOK_ALLOW_PRIVATE := cf_webhook_private (cf_actions c);
  ACTIONS_WEBHOOK_RETRY_LEASE_SECONDS := cf_retry_lease (cf_actions c);
  EVENT_LOG_RETENTION_DAYS := cf_retention_days (cf_actions c) |}.
(** [None] of the settings is the empty text of [Auth]: the code only asks for truth. *)
Definition auth_settings : AuthSettings := {|
  IDENTITY_AUDIENCE := opt_text (cf_audience (cf_identity c));
  IDENTITY_ISSUER := opt_text (cf_issuer (cf_identity c));
  JWT_ALGORITHMS := cf_jwt_algorithms (cf_identity c);
  JWT_HS256_FALLBACK_SECRET := opt_text (cf_hs256_secret (cf_identity c));
  ALLOW_JWT_HS256_FALLBACK := cf_allow_hs256 (cf_identity c);
  DEBUG := cf_debug (cf_core c);
  JWKS_CACHE_TTL := cf_jwks_ttl (cf_identity c);
  JWKS_RETRIES := cf_jwks_retries (cf_identity c);
  IDENTITY_JWKS_DOCUMENT := cf_jwks_document (cf_identity c) |}.
End site.

(** ** Tokens *)
Section tokens.
Context `{JsonLoads} {K : Type} `{TokenLib K, HeaderText}.
Context (version base_dir : string) (read_file : string → option string).

Lemma given_name (o : option string) s : o = Some s → s ≠ "" →
  (if truthy (opt_text o) then Some (opt_text o) else None) = Some s.
Proof. intros -> Hs. unfold truthy. cbn. by rewrite bool_decide_false. Qed.

(** C8: In production nobody gets in without the identity service.  If the settings load with
    [DEBUG] off, and the operator has not allowed shared-secret tokens, every principal
    the service lets in comes from a token that was decoded with a key of the identity
    service, by the configured algorithms, with an expiry, for the configured audience and
    from the configured issuer, which are both set. *)
Theorem production_tokens env c header t net1 net2 (cache : jwks K) p cache' :
  load_settings version base_dir read_file env = inr c → cf_debug (cf_core c) = false →
  cf_allow_hs256 (cf_identity c) = false →
  webdav_authenticate (H0 := auth_settings c) header t net1 net2 cache = (inr p, cache') →
  ∃ raw claims key audience issuer,
    cf_audience (cf_identity c) = Some audience ∧ cf_issuer (cf_identity c) = Some issuer ∧
    principal_from_claims claims = inr p ∧
    jwt_decode (SigningKey key) (DecodeOptions (cf_jwt_algorithms (cf_identity c)) ["exp"] (Some audience) (Some issuer)) raw
      = Claims claims ∧
    key_for raw key cache'.
Proof.
  intros Hl Hd Ha Hrun. apply loaded_parts in Hl as (_ & _ & _ & Hi & _ & _ & _ & Hp).
  destruct (production_checked _ _ Hd Hp) as ([issuer Hiss] & [audience Haud] & _).
  destruct (identity_named _ _ _ _ _ Hi) as [Hni Hna].
  apply (accepted_verified (H0 := auth_settings c)) in Hrun as (raw & claims & Hclaims & [Hv] & _).
  destruct Hv as (cred & options & Hdec & Hreq & Haudience & Hissuer & Hcred).
  cbn [IDENTITY_AUDIENCE IDENTITY_ISSUER JWT_ALGORITHMS DEBUG ALLOW_JWT_HS256_FALLBACK auth_settings] in *.
  rewrite (given_name _ audience) in Haudience by auto. rewrite (given_name _ issuer) in Hissuer by auto.
  destruct cred as [key|s]; [|by destruct Hcred as (_ & _ & _ & [?|?]); congruence].
  destruct Hcred as [Halg Hkey]. exists raw, claims, key, audience, issuer. split_and!; try done.
  destruct options as [alg req aud iss]. cbn in *. by subst.
Qed.
End tokens.

(** ** The URLs of the service ([config/urls.py], [apps/actions/urls.py]) *)
Definition action_urlpatterns : list (list part * (string → list arg → option admin_endpoint)) :=
  let only m e := λ m' args, match args with [] => if m' == m then Some e else None | _ => None end in
  [ ([Word "event-log"], only "GET" EventLogList);
    ([Word "event-log/types"], only "GET" EventLogTypes);
    ([Word "event-log/retention"], only "GET" EventLogRetention);
    ([Word "event-log/"; Int], λ m args, match args with
       | [AInt pk] => if m == "GET" then Some (EventLogGet (Z.to_N pk)) else None | _ => None end);
    ([Word "events"], only "GET" EventsList);
    ([Word "rules"], λ m args, if m == "GET" then Some RulesList else if m == "POST" then Some RulesCreate else None);
    ([Word "rules/"; Int], λ m args, match args with
       | [AInt pk] => if m == "GET" then Some (RuleGet (Z.to_N pk)) else if m == "PATCH" then Some (RulePatch (Z.to_N pk))
                      else if m == "DELETE" then Some (RuleDelete (Z.to_N pk)) else None | _ => None end);
    ([Word "rules/"; Int; Word "/send-test"], λ m args, match args with
       | [AInt pk] => if m == "POST" then Some (RuleSendTest (Z.to_N pk)) else None | _ => None end);
    ([Word "rules/"; Int; Word "/rotate-secret"], λ m args, match args with
       | [AInt pk] => if m == "POST" then Some (RuleRotateSecret (Z.to_N pk)) else None | _ => None end);
    ([Word "deliveries"], only "GET" DeliveriesList);
    ([Word "deliveries/"; Uuid], λ m args, match args with
       | [AUuid i] => if m == "GET" then Some (DeliveryGet i) else None | _ => None end);
    ([Word "deliveries/"; Uuid; Word "/requeue"], λ m args, match args with
       | [AUuid i] => if m == "POST" then Some (DeliveryRequeue i) else None | _ => None end) ].

(** What a path of the site reaches; the rest of a path that is handed on comes with it. *)
Inductive mount :=
| RootPage | AdminSite (rest : string) | ScheduledJobs | JobRun (pk : Z) | JobRuns (job : string)
| ActionsApi (handler : string → option admin_endpoint) | CompanyDeletions | StorageApi (rest : string)
| Schema | SwaggerUi | Redoc | WebDav (rest : string).
Definition prefixed (w s : string) : option string :=
  if startswith w s then Some (str_drop (String.length w) s) else None.
Definition exactly (r : list part) (k : list arg → option mount) (s : string) : option mount := match_route r s ≫= k.
Definition plain (m : mount) (args : list arg) : option mount := match args with [] => Some m | _ => None end.
(** An included table that has no match lets the search go on. *)
Definition fixed_patterns : list (string → option mount) :=
     [ exactly [Word "api/v1/scheduled-jobs"] (plain ScheduledJobs);
       exactly [Word "api/v1/scheduled-jobs/runs/"; Int] (λ args, match args with [AInt n] => Some (JobRun n) | _ => None end);
       exactly [Word "api/v1/scheduled-jobs/"; Str; Word "/runs"]
         (λ args, match args with [AText j] => Some (JobRuns j) | _ => None end);
       (λ s, rest ← prefixed "api/v1/actions/" s; '(f, args) ← resolve_in action_urlpatterns rest;
             Some (ActionsApi (λ m, f (method_name m) args)));
       exactly [Word "api/v1/internal/company-deletions"] (plain CompanyDeletions);
       (λ s, rest ← prefixed "storage/v1/" s; resolve_path rest ≫= λ _, Some (StorageApi rest));
       exactly [Word "api/schema/"] (plain Schema);
       exactly [Word "api/docs/"] (plain SwaggerUi);
       exactly [Word "api/docs/redoc/"] (plain Redoc) ].
Definition site_patterns (c : configuration) : list (string → option mount) :=
  [exactly [] (plain RootPage)]
  ++ (if cf_admin_enabled (cf_web c) then [λ s, AdminSite <$> prefixed "admin/" s] else [])
  ++ fixed_patterns
  ++ (if cf_webdav_enabled (cf_limits c)
      then [λ s, rest ← prefixed (strip_char "/" (cf_webdav_prefix (cf_limits c)) +:+ "/") s;
                 if has_char newline_char rest then None else Some (WebDav rest)]
      else []).
Fixpoint first_match (l : list (string → option mount)) (s : string) : option mount :=
  match l with [] => None | f :: l' => match f s with Some m => Some m | None => first_match l' s end end.
Definition site_route (c : configuration) (s : string) : option mount := first_match (site_patterns c) s.

Lemma first_match_spec l s m : first_match l s = Some m → ∃ f, f ∈ l ∧ f s = Some m.
Proof.
  induction l as [|f l IH]; [done|]. cbn [first_match]. destruct (f s) as [m'|] eqn:Hf.
  - intros [= <-]. exists f. split; [left|done].
  - intros (g & Hg & Hs)%IH. exists g. split; [by right|done].
Qed.
Lemma first_match_skip f l s : f s = None → first_match (f :: l) s = first_match l s.
Proof. intros Hf. cbn [first_match]. by rewrite Hf. Qed.
Lemma prefixed_app w s : prefixed w (w +:+ s) = Some s.
Proof. unfold prefixed. by rewrite startswith_app, str_drop_app. Qed.
(** The storage API is where the documentation says, whatever the settings. *)
Lemma storage_mounted c s : resolve_path s ≠ None → site_route c ("storage/v1/" +:+ s) = Some (StorageApi s).
Proof.
  intros Hs. destruct (resolve_path s) as [r|] eqn:Hr; [|done].
  assert (Hhit : ∀ l, first_match ((λ s, rest ← prefixed "storage/v1/" s; resolve_path rest ≫= λ _, Some (StorageApi rest)) :: l)
                        ("storage/v1/" +:+ s) = Some (StorageApi s)).
  { intros l. cbn [first_match]. rewrite prefixed_app. cbn [mbind option_bind]. by rewrite Hr. }
  unfold site_route, site_patterns, fixed_patterns. destruct (cf_admin_enabled (cf_web c)); cbn [app];
    repeat (rewrite first_match_skip by reflexivity); apply Hhit.
Qed.
(** A page that is switched off is reached by no path. *)
Definition optional_mount (m : mount) : bool := match m with AdminSite _ | WebDav _ => true | _ => false end.
Lemma exactly_some r k s m : exactly r k s = Some m → ∃ args, k args = Some m.
Proof. unfold exactly. destruct (match_route r s) as [args|]; [|done]. cbn. eauto. Qed.
Lemma plain_some m args m' : plain m args = Some m' → m' = m.
Proof. destruct args; by intros [= <-]. Qed.
Lemma fixed_mounts : Forall (λ f, ∀ s m, f s = Some m → optional_mount m = false) fixed_patterns.
Proof.
  unfold fixed_patterns. repeat constructor; intros s m.
  all: try (intros [args Hk]%exactly_some; first [apply plain_some in Hk as ->; reflexivity
                                                 | repeat (case_match; try done); by injection Hk as <-]).
  - intros (rest & _ & Hk)%bind_Some. apply bind_Some in Hk as ([f args] & _ & Hk). by injection Hk as <-.
  - intros (rest & _ & Hk)%bind_Some. apply bind_Some in Hk as (r & _ & Hk). by injection Hk as <-.
Qed.
Lemma switched_off c s m : site_route c s = Some m →
  (∀ rest, m = AdminSite rest → cf_admin_enabled (cf_web c) = true) ∧
  (∀ rest, m = WebDav rest → cf_webdav_enabled (cf_limits c) = true).
Proof.
  unfold site_route, site_patterns. intros (f & Hf & Hm)%first_match_spec.
  pose proof (proj1 (Forall_forall _ _) fixed_mounts f) as Hfixed.
  apply elem_of_app in Hf as [Hf%list_elem_of_singleton|Hf].
  { subst f. apply exactly_some in Hm as [args ->%plain_some]. done. }
  apply elem_of_app in Hf as [Hf|Hf]; [|apply elem_of_app in Hf as [Hf|Hf]].
  - destruct (cf_admin_enabled (cf_web c)); [|by apply elem_of_nil in Hf]. apply list_elem_of_singleton in Hf as ->.
    destruct (prefixed _ s); [|done]. by injection Hm as <-.
  - split; intros rest ->; discriminate (Hfixed Hf s _ Hm).
  - destruct (cf_webdav_enabled (cf_limits c)); [|by apply elem_of_nil in Hf]. apply list_elem_of_singleton in Hf as ->.
    destruct (prefixed _ s); [|done]. cbn in Hm. case_match; [done|]. by injection Hm as <-.
Qed.

(** ** The generated block, in production *)
Import DeployDemo AuthDemo.
Definition served : string + principal :=
  match (webdav_authenticate (K := string) (H0 := auth_settings DeployDemo.settings) "Bearer k2.b.key2" 1000
           (serving [("k1", "key1"); ("k2", "key2")]) unreachable empty_cache).1 with
  | inr p => inr p
  | inl _ => inl "refused"
  end.
Lemma production_tokens_witness :
  (∃ p, served = inr p ∧ p_company_id p = Some 7) ∧
  ∃ raw claims (key : string), principal_from_claims claims = inr (StoragePrincipal 5 (Some 7) "" "" false true false) ∧
    key_for raw key (Jwks 1000 [("k1", "key1"); ("k2", "key2")] 1).
Proof.
  split; [eexists; split; [vm_compute; reflexivity|reflexivity]|].
  destruct (production_tokens (K := string) "1.0.0" "/app" (λ _, None) block DeployDemo.settings "Bearer k2.b.key2" 1000
    (serving [("k1", "key1"); ("k2", "key2")]) unreachable empty_cache (StoragePrincipal 5 (Some 7) "" "" false true false)
    (Jwks 1000 [("k1", "key1"); ("k2", "key2")] 1)) as (raw & claims & key & audience & issuer & _ & _ & Hp & _ & Hkey);
    [vm_compute; reflexivity|vm_compute; reflexivity|vm_compute; reflexivity|vm_compute; reflexivity|].
  exists raw, claims, key. split; [exact Hp|exact Hkey].
Defined.
(** ** Paths of the site *)
Definition with_env (name value : string) : configuration :=
  match DeployDemo.load (<[name := value]> block) with inr c => c | inl _ => DeployDemo.settings end.
Definition mount_name (m : option mount) : string :=
  match m with
  | Some RootPage => "root" | Some (AdminSite r) => "admin:" +:+ r | Some ScheduledJobs => "jobs" | Some (JobRun n) => "run"
  | Some (JobRuns j) => "runs:" +:+ j | Some (ActionsApi f) => if bool_decide (is_Some (f "GET")) then "actions:GET" else "actions"
  | Some CompanyDeletions => "deletions" | Some (StorageApi r) => "storage:" +:+ r | Some Schema => "schema"
  | Some SwaggerUi => "swagger" | Some Redoc => "redoc" | Some (WebDav r) => "dav:" +:+ r | None => "404"
  end.
Example site_demo : (λ s, mount_name (site_route DeployDemo.settings s)) <$>
    [""; "admin/login/"; "api/v1/scheduled-jobs/runs/12"; "api/v1/scheduled-jobs/retry_webhooks/runs"; "api/v1/actions/rules/7";
     "api/v1/actions/rules/7/send-test"; "storage/v1/object/company/a"; "storage/v1/none/here"; "dav/company/a"; "health/live"]
  = ["root"; "admin:login/"; "run"; "runs:retry_webhooks"; "actions:GET"; "actions"; "storage:object/company/a"; "404";
     "dav:company/a"; "404"].
Proof. vm_compute. reflexivity. Qed.
Example admin_off : mount_name (site_route (with_env "DJANGO_ADMIN_ENABLED" "false") "admin/login/") = "404".
Proof. vm_compute. reflexivity. Qed.
(** A prefix of a single slash leaves [/] as the pattern, which no ordinary path starts with:
    WebDAV is enabled and cannot be reached. *)
Example dav_at_the_root :
  let c := with_env "WEBDAV_PATH_PREFIX" "/" in
  cf_webdav_enabled (cf_limits c) = true ∧ mount_name (site_route c "company/a") = "404".
Proof. vm_compute. auto. Qed.
